(* ===== verification/_CoqProject ===== *)
-Q . S2P
Prelude.v
CText.v
Identity.v
Json.v
Message.v
Lookup.v
SharedArea.v
SharedSync.v
VirtualIds.v
Serialize.v
PidFiles.v
ConnList.v
ConnSerial.v
ConnElection.v
ConnExchange.v
Base64.v
PeerDiscovery.v
SocketDrain.v
SocketFlow.v
ProcMaps.v
PageScan.v
GuardPages.v
CkptWrite.v
CkptRestore.v
CkptImage.v
SysVObjs.v
MsgQueues.v
Semaphores.v
CoordPlugin.v
Coordinator.v
CoordFacts.v
CoordProps.v
CoordWedge.v
RestartScript.v
Worker.v
CkptProtocol.v
CkptSystem.v
Mutex.v
RWLock.v
Threads.v
ThreadRestart.v
Alloc.v
