(* ===== verification/Prelude.v ===== *)
(** * DMTCP: a verification development

    DMTCP checkpoints and restarts a computation of many processes.  A
    coordinator (src/dmtcp_coordinator.cpp) keeps a connection to every worker
    process; it numbers the processes, leads them through the barriers of a
    checkpoint, collects the names of their images, writes a restart script, and
    admits the processes of a restart.  The processes of one host share a memory
    area (src/shareddata.cpp); every process translates between the virtual
    identifiers the application sees and the real ones (include/virtualidtable.h,
    src/plugin/pid); all of them use a key-value service of the coordinator
    (src/lookup_service.cpp) and two futex locks of DMTCP's own (src/mutex.cpp,
    src/rwlock.cpp).  Every process keeps a table of its connections - sockets, files,
    queues - (src/plugin/connectionlist.cpp); at a checkpoint the processes elect one of them
    for every open file they share, and after a restart that one sends the descriptor to the
    others and the peers of sockets find each other through the key-value service
    (src/plugin/socket/connectionrewirer.cpp).  Bytes that are under way between sockets are drained and sent again
    (src/plugin/socket/kernelbufferdrainer.cpp).  System V semaphores and queues are saved by
    an elected process too (src/plugin/svipc).  In every process a checkpoint thread stops the others
    (src/threadlist.cpp) and writes the memory to an image (src/writeckpt.cpp), from which a small
    program builds the process again (src/mtcp/mtcp_restart.c).  What a process hands to its successor at
    an exec it writes with jalib/jserialize.h.  Paths are relative to the root of the
    repository.

    ** The files, in dependency order

    - [Prelude]: record update, the outcome monad, fixed-width integers, counting,
      the hint databases, lemmas on lists and options.
    - [CText]: C strings in byte buffers, src/tokenize.cpp, jalib/jconvert.h.
    - [Identity]: src/uniquepid.cpp and src/workerstate.cpp.
    - [Json]: the writer of src/json.cpp, with a reader.
    - [Message]: src/dmtcpmessagetypes.cpp, the command parser of
      src/coordinatorapi.cpp.
    - [Lookup]: Module [LookupService] for src/lookup_service.cpp, Module [Kvdb] for
      src/kvdb.cpp and [kvdbRequest]; the class [KVStore] states what the store
      promises and the service is an instance of it.
    - [SharedArea]: the header of the shared area with its tables and every operation
      of src/shareddata.cpp on them, as if run alone (each is one region under the
      file lock).
    - [SharedSync]: the parts of src/shareddata.cpp whose point is interleaving, as
      step relations: Module [Join] for creating, joining and using the area (a use is
      any operation that changes the header), Module [Barrier] for [waitForBarrier].
    - [VirtualIds]: include/virtualidtable.h, src/plugin/pid/virtualpidtable.cpp, parts
      of src/plugin/pid/pid.cpp and src/util_exec.cpp.  The directory of pids the
      processes share is the class [PidDirectory]; the shared area is its instance.
    - [Serialize]: jalib/jserialize.h over a file with a position; the class [Wire] states
      that what a serialiser writes is what it reads, with instances for numbers,
      strings, vectors and maps.
    - [PidFiles]: the pid table in the file of an exec and in the shared file of a restart
      (include/virtualidtable.h, src/plugin/pid/pid.cpp), [UniquePid::serialize].
    - [ConnList]: connection identifiers, connection objects on a heap, the table of
      descriptors (src/plugin/connectionidentifier.cpp, connection.cpp,
      connectionlist.cpp).
    - [ConnSerial]: the table in the file of an exec, with the classes of sockets, files, FIFOs
      and POSIX queues (src/plugin/socket, src/plugin/file).
    - [ConnElection] (Module [Election]), [ConnExchange] (Module [Exchange]): the loops of
      connectionlist.cpp in which processes interact, one step per system call on the
      shared file or socket.
    - [Base64], [PeerDiscovery]: include/base64.h and the look-up of socket peers.
    - [SocketDrain], [SocketFlow]: the bytes in flight on sockets, processes that move single bytes
      through bounded streams (definitions and proofs).  The barrier between draining and the handshakes is one of
      the processes of a host; [hstep] is the system in which a process of another host is still draining.
    - [ProcMaps]: the parser of src/procselfmaps.cpp.
    - [PageScan]: the pages of a process as the kernel sees them, and the scans of src/util_misc.cpp for
      zero pages, pages in use (resident or swapped, which the ioctl reports as two categories) and guard pages.
    - [GuardPages], [CkptWrite]: src/guardpages.cpp and src/writeckpt.cpp; an image is a list of headers
      and bytes.
    - [CkptRestore], [CkptImage]: the loop of src/mtcp/mtcp_restart.c that reads an image, and the proofs
      about writing and reading it.
    - [SysVObjs], [MsgQueues], [Semaphores]: the kernel's System V objects, the phases of a
      checkpoint, and the two classes of src/plugin/svipc/sysvipc.cpp.
    - [CoordPlugin]: the timers of src/coordinatorplugin.h.
    - [Coordinator]: the coordinator.  [Coord] is its static state; every handler is a
      function in the outcome monad over it; one turn of the event loop is
      [eventLoopTurn].
    - [CoordFacts], [CoordProps]: lemmas and properties of the coordinator; [CoordWedge]: what becomes of a checkpoint
      that loses a worker, over all later turns of the event loop.
    - [RestartScript]: the writer of src/restartscript.cpp, and the part of the script that reads the images.
    - [Worker]: a round of the checkpoint thread of a process (src/dmtcpworker.cpp, src/coordinatorapi.cpp,
      src/threadlist.cpp), and the system of one coordinator, its processes and the messages between them.
    - [CkptProtocol], [CkptSystem]: proofs about that system, first the coordinator's side.
    - [Mutex], [RWLock]: the two locks, one step per access to a shared word.
    - [Threads] (Module [Suspend]), [ThreadRestart] (Module [Restart]): stopping the threads of a process,
      and letting them go on after a restart (src/threadlist.cpp).
    - [Alloc]: the lock-free stacks of the allocator (jalib/jalloc.cpp), one step per access to shared memory.

    ** How the code is modelled

    A function of the program is a function [M S A] from a state to an outcome:
    [Ok] with a result and a state, [Exit] for a call of [exit], or [Fault] for a
    failed ASSERT, an access outside a buffer, a use of a deleted object, a signed
    overflow, or a wait that nothing ends.  Objects on the heap (the clients of the
    coordinator) are entries of a finite map, so a use after [delete] is a fault and
    not a value.  What goes out of a process (messages, closed sockets, files
    written) is appended to a trace; what comes in (events, messages, clock readings)
    is an argument.  Integers have the width of the source where it can be reached.
    The order in which an unordered container is iterated is a parameter, restricted to
    permutations of the entries; so are the values of uninitialised fields.

    Concurrency is interleaving of steps under sequential consistency.  A step of the
    locks is one access to a shared word or one futex system call; a step of the shared
    area is a system call or a region under the file lock; a step of the election and the
    exchange of descriptors is a system call on what the processes share; a step on a socket
    moves a byte, so that a call may move any number; a step of a whole computation is a message sent,
    received or handled, or a part of the work of a process between two messages; a step of a thread that is stopped or restarted is a change of
    its state, a signal, or an operation on a semaphore or the resume lock.  The phases of the
    System V objects run the processes one after the other in any order, where each process
    makes one call or only one process changes the object; the election of
    semaphores, where the last call decides, is interleaved call by call.  The kernel objects
    behave as their manual pages say; the length of a datagram queue is a parameter.

    Loops are structural where the source counts; [tokenizeString] and the printing of
    numbers run on fuel bounded by the length of the text and by the number of digits,
    which the theorems show to suffice; the two searches for free identifiers run on
    fuel of one more than the number of candidates, and running out of it is the fault
    "never returns", which the theorems characterise; readers of files run on one round
    per byte, the loop that empties a message queue on one round more than there are messages,
    and the theorems show that this is enough.  [RWLock.solo] runs on 14 steps,
    more than the longest call takes.

    ** What is proved

    - A checkpoint of a whole computation: in every interleaving of processes, coordinator and messages no
      assertion fails, all threads of all processes are stopped while any image is written, every checkpoint ends,
      and it ends with a script that names the image of every process; the text of the script is read back by its own
      shell code as these images, if the names have no blanks and nothing else that is special to the shell.
    - The coordinator: its tables stay consistent over any run of the event loop; the
      status it computes; barriers open exactly when all workers are there; one
      checkpoint at a time, which completes with the last image; who is admitted to
      a restart; virtual pids.
    - Key-value service: client and server together implement the abstract operations;
      counters.
    - Shared area: tables are finite maps, names lead back, one leader per file;
      creating and joining is safe and the barrier is one, in every interleaving.
    - Virtual identifiers: allocation is sound, complete and terminates, windows of two
      processes are disjoint, translation, and the trip through the environment.
    - Exec and restart files: what is written is read back, for pids, identities, connections and
      the merged pid tables of a host; a table that was cut off is refused.
    - Connections: the table refines a map from descriptors to connections and never uses a
      deleted object; in every interleaving the election ends with one process per open
      file and the options restored, and the exchange of descriptors ends with all of them
      delivered; peers of sockets get the address that was published for them.
    - Bytes in flight between processes of one host: in every interleaving draining, handshakes and refilling end, with the same bytes
      in the kernel as before, if the cookie is not among them and the new buffers hold them.
    - Memory: of a process whose areas can be read, what is written to an image is what the restart program maps, byte for byte, with the
      protections and guard pages; a process that goes on keeps its memory, if zeros are behind the zeros of the areas
      written run by run; the two ways to ask the kernel for pages in use lead a caller to the same pages.
    - Threads: in every interleaving in which requests come when the last checkpoint is over, no thread runs while the image is
      written and a suspension can always be completed; after a restart all threads go on with their pending signals.
    - The allocator: in every interleaving the chunks it gives out are the program's own, its stacks
      refine an abstract stack, and no thread can keep another from returning.
    - System V objects: contents of queues and values of semaphores survive checkpoint and
      restart with exactly one elected process, if every process opened them with IPC_CREAT and markers and adjustments fit.
    - Memory maps: the parser reads what the kernel prints, and stays inside its
      buffers for any text.
    - Locks: mutual exclusion and no lost wake-up for the mutex; for the readers-writer
      lock the same for calls that do not overlap.
    - Text: number and JSON round trips, tokenizer, messages and their JSON form,
      identity order and text.
    - Where the code does not do what it means to, a theorem says exactly what it does:
      the readers-writer lock under overlapping calls, checkpoints after the loss of
      a worker, a client deleted twice, a refused request that leaves a mark, the
      961-client limit, identities after vfork, the parent's pid after a restart, a timer
      that survives being disabled, two unchecked sizes, a deadlock report that is
      ignored, an exec with a POSIX queue open, an exchange of descriptors that waits for
      ever, IPv6-only restarts, System V messages lost on resume, queues that are
      stale or cannot be created after a restart, undo adjustments that are lost, a checkpoint that is requested too early, zeros lost on
      resume, image names with blanks in the restart script, draining of sockets between two hosts, mappings past the end of their file, the cache of nscd, sockets with more in flight than
      their new buffers hold, messages of SOCK_SEQPACKET sockets, and a null pointer in the allocator.

    ** What is not modelled

    Process start-up, option parsing and connection set-up; of the restart of an address space what
    comes before and after the areas are read (placement of the restore program, brk, vdso, TLS); the
    interposed libc functions and the other plugins; contents of files; pseudo-terminals; sockets whose
    peer is gone; processes that exit in the middle of a checkpoint, and the events of a worker after a
    restart; the tables of System V objects and shared-memory segments; the shell code of the
    restart script apart from the reading of the images; the translation of /proc paths.  These parts are mostly calls of the
    operating system with little logic of their own. *)

From Stdlib Require Import ZArith Lia Ascii.
From stdpp Require Import base gmap strings numbers list.

Declare Scope dmtcp_scope.
Delimit Scope dmtcp_scope with dmtcp.
Open Scope Z_scope.

(** ** Record update

    [r <| f := v |>] is the record [r] with its field [f] replaced.  A record
    type declares its eta expansion once ([Settable]); the update of one field
    is found by abstracting that field's projection out of the expansion. *)

Class Settable (R : Type) : Type := { eta_of : R -> R }.
Class Setter {R T : Type} (getter : R -> T) : Type := { set_with : (T -> T) -> R -> R }.

Definition set_field {R T : Type} (getter : R -> T) {S : Setter getter} (f : T -> T) : R -> R :=
  set_with f.

Ltac derive_setter :=
  match goal with
  | |- @Setter ?R ?T ?getter =>
      let inst := eval hnf in (_ : Settable R) in
      let body := eval cbv beta iota delta [eta_of] in (@eta_of R inst) in
      let pat := (eval pattern getter in body) in
      match pat with
      | ?abs _ =>
          let upd := constr:(fun (g : T -> T) => abs (fun r : R => g (getter r))) in
          let upd := eval cbv beta in upd in
          exact (@Build_Setter R T getter upd)
      end
  end.

#[export] Hint Extern 1 (Setter _) => derive_setter : typeclass_instances.

Notation "r <| f := v |>" := (set_field f (fun _ => v) r)
  (at level 1, left associativity, f at level 11, v at level 200,
   format "r  <| f  :=  v |>") : dmtcp_scope.
Notation "r <| f ::= g |>" := (set_field f g r)
  (at level 1, left associativity, f at level 11, g at level 200,
   format "r  <| f  ::=  g |>") : dmtcp_scope.
Open Scope dmtcp_scope.


#[global] Arguments set_field : simpl never.

(** Reading a field of an updated record, without unfolding the record. *)
Ltac head_of t := lazymatch t with ?f _ => head_of f | _ => t end.

(** Only a projection can be read: neither a constructor, nor a predicate. *)
Ltac rsimpl_guard g r :=
  let h := head_of g in is_const h;
  let T := type of (g r) in lazymatch T with Prop => fail | _ => idtac end.

Ltac rsimpl :=
  repeat match goal with
  | |- context [?g (@set_field _ _ ?f _ ?v ?r)] =>
      rsimpl_guard g r;
      first [ constr_eq g f; change (g (set_field f v r)) with (v (f r))
            | change (g (set_field f v r)) with (g r) ]
  end; cbv beta.

Ltac rsimpl_in H :=
  repeat match type of H with
  | context [?g (@set_field _ _ ?f _ ?v ?r)] =>
      rsimpl_guard g r;
      first [ constr_eq g f; change (g (set_field f v r)) with (v (f r)) in H
            | change (g (set_field f v r)) with (g r) in H ]
  end; cbv beta in H.

Tactic Notation "rsimpl" "in" hyp(H) := rsimpl_in H.
Tactic Notation "rsimpl" "in" "*" :=
  rsimpl; repeat match goal with H : context [set_field _ _ _] |- _ => progress rsimpl_in H end.

(** ** Outcomes: what a piece of C++ code does with the state

    [Ok a s] is a normal return.  [Exit n s] is a call of [exit(n)].  [Fault]
    is any way a run stops being meaningful: a failed ASSERT (dmtcp_assert.h
    logs and calls [_exit(DMTCP_FAIL_RC)]), an access outside a buffer, a use
    of a deleted object, a signed overflow, or a wait that nothing ends. *)

Inductive fault : Type :=
| AssertFailed (what : string)
| OutOfBounds (what : string)
| UseAfterFree (what : string)
| SignedOverflow (what : string)
| Blocked (what : string).

Inductive outcome (S A : Type) : Type :=
| Ok (a : A) (s : S)
| Exit (code : Z) (s : S)
| Fault (f : fault) (s : S).
Arguments Ok {S A} a s.
Arguments Exit {S A} code s.
Arguments Fault {S A} f s.

Definition M (S A : Type) : Type := S -> outcome S A.

#[export] Instance M_ret {S} : MRet (M S) := fun A a s => Ok a s.
#[export] Instance M_bind {S} : MBind (M S) := fun A B k m s =>
  match m s with
  | Ok a s' => k a s'
  | Exit c s' => Exit c s'
  | Fault f s' => Fault f s'
  end.

Definition gets {S A} (f : S -> A) : M S A := fun s => Ok (f s) s.
Definition modify {S} (f : S -> S) : M S unit := fun s => Ok tt (f s).
Definition exitM {S A} (code : Z) : M S A := fun s => Exit code s.
Definition faultM {S A} (f : fault) : M S A := fun s => Fault f s.
Definition assertM {S} (b : bool) (what : string) : M S unit :=
  if b then mret tt else faultM (AssertFailed what).
Definition whenM {S} (b : bool) (m : M S unit) : M S unit := if b then m else mret tt.
Definition optM {S A} (f : fault) (o : option A) : M S A :=
  match o with Some a => mret a | None => faultM f end.

(** Running code of a component on its part of a larger state. *)
Definition zoom {S T A} (get : S -> T) (put : T -> S -> S) (m : M T A) : M S A := fun s =>
  match m (get s) with
  | Ok a t => Ok a (put t s)
  | Exit c t => Exit c (put t s)
  | Fault f t => Fault f (put t s)
  end.

Fixpoint forM {S A} (l : list A) (f : A -> M S unit) : M S unit :=
  match l with
  | [] => mret tt
  | x :: l' => f x ;; forM l' f
  end.

(** *** Reasoning about outcomes

    [preserves I m]: a run of [m] that does not fault leaves [I] true.
    [safe m P]: from a state satisfying [P], [m] does not fault. *)

Definition outcome_post {S A} (Q : A -> S -> Prop) (E : Z -> S -> Prop) (F : fault -> S -> Prop)
    (o : outcome S A) : Prop :=
  match o with Ok a s => Q a s | Exit c s => E c s | Fault f s => F f s end.

Definition preserves {S A} (I : S -> Prop) (m : M S A) : Prop :=
  forall s, I s -> outcome_post (fun _ s' => I s') (fun _ s' => I s') (fun _ _ => True) (m s).

(** [returns m s a s']: [m] run from [s] returns [a] in state [s']. *)
Definition returns {S A} (m : M S A) (s : S) (a : A) (s' : S) : Prop := m s = Ok a s'.

(** ** Machine integers *)

Definition wrap_u (w z : Z) : Z := z mod 2 ^ w.
Definition wrap_s (w z : Z) : Z := (z + 2 ^ (w - 1)) mod 2 ^ w - 2 ^ (w - 1).
Definition to_uint32 (z : Z) : Z := wrap_u 32 z.
Definition to_uint64 (z : Z) : Z := wrap_u 64 z.
Definition to_int32 (z : Z) : Z := wrap_s 32 z.
Definition to_int64 (z : Z) : Z := wrap_s 64 z.
Definition in_int64 (z : Z) : bool := (- 2 ^ 63 <=? z) && (z <=? 2 ^ 63 - 1).
Definition in_int32 (z : Z) : bool := (- 2 ^ 31 <=? z) && (z <=? 2 ^ 31 - 1).
Definition in_uint32 (z : Z) : bool := (0 <=? z) && (z <=? 2 ^ 32 - 1).

Create HintDb dmtcp.
Create Rewrite HintDb dmtcp.

Section outcome_lemmas.
Context {S A B : Type} (I : S -> Prop).

Lemma preserves_ret (a : A) : preserves I (mret a).
Proof. intros s H. exact H. Qed.

Lemma preserves_bind (m : M S A) (k : A -> M S B) :
  preserves I m -> (forall a, preserves I (k a)) -> preserves I (m ≫= k).
Proof.
  intros Hm Hk s Hs. specialize (Hm s Hs). unfold mbind, M_bind.
  destruct (m s); cbn in *; try done. by apply Hk.
Qed.

Lemma preserves_gets (f : S -> A) : preserves I (gets f).
Proof. intros s H. exact H. Qed.

Lemma preserves_modify (f : S -> S) : (forall s, I s -> I (f s)) -> preserves I (modify f).
Proof. intros H s Hs. by apply H. Qed.

Lemma preserves_fault f : preserves I (@faultM S A f).
Proof. intros s H. exact Logic.I. Qed.

Lemma preserves_exit c : preserves I (@exitM S A c).
Proof. intros s H. exact H. Qed.

Lemma preserves_assert b w : preserves I (assertM b w).
Proof. destruct b; intros s H; cbn; done. Qed.

Lemma preserves_when b (m : M S unit) : preserves I m -> preserves I (whenM b m).
Proof. by destruct b; intros H s Hs; [apply H|]. Qed.

Lemma preserves_opt f (o : option A) : preserves I (optM f o).
Proof. by destruct o; intros s H. Qed.

Lemma preserves_forM (l : list A) (f : A -> M S unit) :
  (forall x, x ∈ l -> preserves I (f x)) -> preserves I (forM l f).
Proof.
  induction l as [|x l IH]; intros H s Hs; [exact Hs|]. cbn.
  pose proof (H x (list_elem_of_here _ _) s Hs) as Hx. unfold mbind, M_bind.
  destruct (f x s); cbn in *; try done.
  apply IH; [|done]. intros y Hy. apply H. by apply list_elem_of_further.
Qed.
End outcome_lemmas.

#[export] Hint Resolve preserves_ret preserves_bind preserves_gets preserves_fault preserves_exit
  preserves_assert preserves_when preserves_opt preserves_forM : dmtcp.

(** Running a bind whose first part is known to return. *)
Lemma bind_ok {S A B} (m : M S A) (k : A -> M S B) s a s' :
  m s = Ok a s' -> (m ≫= k) s = k a s'.
Proof. intros H. unfold mbind, M_bind. by rewrite H. Qed.

Lemma bind_ok_inv {S A B} (m : M S A) (k : A -> M S B) s b s' :
  (m ≫= k) s = Ok b s' -> exists a s1, m s = Ok a s1 /\ k a s1 = Ok b s'.
Proof. unfold mbind, M_bind. destruct (m s) eqn:E; intros H; simplify_eq. eauto. Qed.

Lemma zoom_ok {S T A} (get : S -> T) put (m : M T A) s a t :
  m (get s) = Ok a t -> zoom get put m s = Ok a (put t s).
Proof. intros H. unfold zoom. by rewrite H. Qed.

(** ** Machine integers: facts *)

Lemma wrap_u_range w z : 0 <= w -> 0 <= wrap_u w z < 2 ^ w.
Proof. intros H. unfold wrap_u. apply Z.mod_pos_bound. lia. Qed.

Lemma wrap_u_small w z : 0 <= z < 2 ^ w -> wrap_u w z = z.
Proof. intros H. unfold wrap_u. by apply Z.mod_small. Qed.

Lemma wrap_s_range w z : 1 <= w -> - 2 ^ (w - 1) <= wrap_s w z < 2 ^ (w - 1).
Proof.
  intros H. unfold wrap_s.
  assert (E : 2 ^ w = 2 * 2 ^ (w - 1)) by (rewrite <- Z.pow_succ_r by lia; f_equal; lia).
  pose proof (Z.mod_pos_bound (z + 2 ^ (w - 1)) (2 ^ w)). lia.
Qed.

Lemma wrap_s_small w z : 1 <= w -> - 2 ^ (w - 1) <= z < 2 ^ (w - 1) -> wrap_s w z = z.
Proof.
  intros H Hz. unfold wrap_s.
  assert (E : 2 ^ w = 2 * 2 ^ (w - 1)) by (rewrite <- Z.pow_succ_r by lia; f_equal; lia).
  rewrite Z.mod_small by lia. lia.
Qed.

#[export] Hint Rewrite wrap_u_small wrap_s_small using lia : dmtcp.

(** Case analysis on the boolean tests of the code. *)
Ltac bool_cases :=
  repeat match goal with
  | H : context [?a =? ?b] |- _ => destruct (Z.eqb_spec a b)
  | H : context [?a <? ?b] |- _ => destruct (Z.ltb_spec a b)
  | H : context [?a <=? ?b] |- _ => destruct (Z.leb_spec a b)
  | |- context [?a =? ?b] => destruct (Z.eqb_spec a b)
  | |- context [?a <? ?b] => destruct (Z.ltb_spec a b)
  | |- context [?a <=? ?b] => destruct (Z.leb_spec a b)
  end.

(** ** Counting the elements of a list that pass a test *)

Definition cnt {A} (f : A -> bool) (l : list A) : nat := length (filter (fun x => f x = true) l).

Section cnt.
Context {A : Type} (f : A -> bool).

Lemma cnt_nil : cnt f [] = 0%nat.
Proof. done. Qed.

Lemma cnt_cons x l : cnt f (x :: l) = (Nat.b2n (f x) + cnt f l)%nat.
Proof. unfold cnt. rewrite filter_cons. by destruct (f x). Qed.

Lemma cnt_app l k : cnt f (l ++ k) = (cnt f l + cnt f k)%nat.
Proof. unfold cnt. by rewrite filter_app, length_app. Qed.

Lemma cnt_le l : (cnt f l <= length l)%nat.
Proof. apply length_filter. Qed.

Lemma cnt_insert l i x y : l !! i = Some x ->
  (cnt f (<[i := y]> l) + Nat.b2n (f x) = cnt f l + Nat.b2n (f y))%nat.
Proof.
  revert i. induction l as [|z l IH]; intros [|i] H; try done; cbn in H.
  - injection H as ->. change (<[0%nat := y]> (x :: l)) with (y :: l). rewrite !cnt_cons. lia.
  - apply IH in H. change (<[S i := y]> (z :: l)) with (z :: <[i := y]> l). rewrite !cnt_cons. lia.
Qed.

Lemma cnt_zero l : cnt f l = 0%nat <-> forall x, x ∈ l -> f x = false.
Proof.
  induction l as [|z l IH]; [split; [intros _ x H; by apply elem_of_nil in H|done]|].
  rewrite cnt_cons. split.
  - intros H x [->|Hx]%elem_of_cons; [by destruct (f z)|]. apply IH; [lia|done].
  - intros H. rewrite (H z) by apply list_elem_of_here. apply IH. intros x Hx. apply H. by apply list_elem_of_further.
Qed.

Lemma cnt_all l : cnt f l = length l <-> forall x, x ∈ l -> f x = true.
Proof.
  induction l as [|z l IH]; [split; [intros _ x H; by apply elem_of_nil in H|done]|].
  rewrite cnt_cons. cbn [length]. pose proof (cnt_le l). split.
  - intros H' x [->|Hx]%elem_of_cons; [destruct (f z); [done|cbn in H'; lia]|].
    apply IH; [|done]. destruct (f z); cbn in H'; lia.
  - intros H'. rewrite (H' z) by apply list_elem_of_here. cbn. f_equal. apply IH. intros x Hx. apply H'.
    by apply list_elem_of_further.
Qed.

Lemma cnt_pos l x : x ∈ l -> f x = true -> (0 < cnt f l)%nat.
Proof.
  intros Hx Hf. destruct (cnt f l) eqn:E; [|lia]. apply cnt_zero with (x := x) in E; [congruence|done].
Qed.

(** When one element passes and the count is one, no other element passes. *)
Lemma cnt_one l i j x y : cnt f l = 1%nat -> l !! i = Some x -> l !! j = Some y ->
  f x = true -> f y = true -> i = j.
Proof.
  revert i j. induction l as [|z l IH]; intros i j Hc Hi Hj Hx Hy; [done|].
  rewrite cnt_cons in Hc.
  destruct i as [|i], j as [|j]; cbn in Hi, Hj; try (injection Hi as ->); try (injection Hj as ->); [done|..].
  - rewrite Hx in Hc. apply list_elem_of_lookup_2 in Hj. pose proof (cnt_pos l y Hj Hy). cbn in Hc. lia.
  - rewrite Hy in Hc. apply list_elem_of_lookup_2 in Hi. pose proof (cnt_pos l x Hi Hx). cbn in Hc. lia.
  - f_equal. apply IH; try done.
    apply list_elem_of_lookup_2 in Hj. pose proof (cnt_pos l y Hj Hy). lia.
Qed.
End cnt.

Lemma cnt_same {A} (f g : A -> bool) l : (forall y, y ∈ l -> g y = f y) -> cnt g l = cnt f l.
Proof.
  induction l as [|y l IH]; intros Hl; [done|]. rewrite !cnt_cons, (Hl y) by left. f_equal. apply IH. intros z Hz. apply Hl. by right.
Qed.

(** Elements that do not pass the test can be taken out. *)
Lemma cnt_filter {A} (f : A -> bool) (P : A -> Prop) `{!forall x, Decision (P x)} l :
  (forall x, x ∈ l -> ~ P x -> f x = false) -> cnt f (filter P l) = cnt f l.
Proof.
  induction l as [|y l IH]; intros Hl; [done|]. rewrite filter_cons, cnt_cons.
  rewrite <- IH by (intros x Hx; apply Hl; by right). destruct (decide (P y)) as [|Hn]; [by rewrite cnt_cons|].
  by rewrite (Hl y (list_elem_of_here _ _) Hn).
Qed.

(** The count after the test changed at one element. *)
Lemma cnt_change {A} (f g : A -> bool) l x : NoDup l -> x ∈ l -> (forall y, y ∈ l -> y <> x -> g y = f y) ->
  (cnt g l + Nat.b2n (f x) = cnt f l + Nat.b2n (g x))%nat.
Proof.
  intros Hnd (l1 & l2 & ->)%list_elem_of_split Hg. apply NoDup_app in Hnd as (_ & Hd1 & [Hd2 _]%NoDup_cons).
  rewrite !cnt_app, !cnt_cons. rewrite (cnt_same f g l1), (cnt_same f g l2); [lia| |].
  - intros y Hy. apply Hg; [set_solver|]. intros ->. done.
  - intros y Hy. apply Hg; [set_solver|]. intros ->. apply (Hd1 x Hy). left.
Qed.

(** Sums over a list without duplicates: one summand changes, or some elements are taken out. *)
Lemma sum_change `{EqDecision A} (f g : A -> nat) l x : NoDup l -> x ∈ l -> (forall y, y ∈ l -> y <> x -> g y = f y) ->
  (sum_list_with g l + f x = sum_list_with f l + g x)%nat.
Proof.
  induction l as [|y l IH]; intros Hnd Hx Hg; [by apply elem_of_nil in Hx|]. apply NoDup_cons in Hnd as [Hn Hnd]. cbn.
  destruct (decide (y = x)) as [->|Hyx].
  - assert (sum_list_with g l = sum_list_with f l) as ->; [|lia].
    assert (H : forall z, z ∈ l -> g z = f z) by (intros z Hz; apply Hg; [by right|]; by intros ->).
    clear -H. induction l as [|z l IH]; [done|]. cbn. rewrite (H z) by left. f_equal. apply IH. intros y Hy. apply H. by right.
  - apply elem_of_cons in Hx as [?|Hx]; [done|]. rewrite (Hg y (list_elem_of_here _ _) Hyx).
    assert (sum_list_with g l + f x = sum_list_with f l + g x)%nat; [|lia]. apply IH; [done..|]. intros z Hz. apply Hg. by right.
Qed.

Lemma sum_filter {A} (f : A -> nat) (P : A -> Prop) `{!forall x, Decision (P x)} l :
  (sum_list_with f (filter P l) <= sum_list_with f l)%nat.
Proof. induction l as [|y l IH]; [done|]. rewrite filter_cons. destruct (decide (P y)); cbn; lia. Qed.

(** Removing one element of a list without duplicates. *)
Lemma length_filter_ne {A} `{EqDecision A} (x : A) (l : list A) :
  NoDup l -> x ∈ l -> length l = S (length (filter (fun y => y <> x) l)).
Proof.
  intros Hnd Hx. destruct (list_elem_of_split _ _ Hx) as (l1 & l2 & ->).
  apply NoDup_app in Hnd as (_ & Hd1 & [Hd2 _]%NoDup_cons).
  assert (H : forall k : list A, x ∉ k -> filter (fun y => y <> x) k = k).
  { induction k as [|y k IH]; [done|]. intros [? ?]%not_elem_of_cons. rewrite filter_cons_True by done. by rewrite IH. }
  rewrite filter_app, filter_cons_False by tauto. rewrite !H, !length_app; [cbn; lia|done|].
  intros Hx1. apply (Hd1 x Hx1). left.
Qed.

(** The sum over a list in which one element was replaced. *)
Lemma sum_insert {A} (f : A -> nat) l i p p' : l !! i = Some p ->
  (sum_list_with f (<[i := p']> l) + f p = sum_list_with f l + f p')%nat.
Proof.
  revert i. induction l as [|x l IH]; intros [|i] Hl; try done; [injection Hl as ->; cbn; lia|].
  specialize (IH i Hl). change (<[S i := p']> (x :: l)) with (x :: <[i := p']> l). cbn [sum_list_with]. lia.
Qed.
