(* ===== verification/CText.v ===== *)
(** * Text and byte buffers

    C strings inside byte buffers, [dmtcp::tokenizeString]
    (src/tokenize.cpp), and the number/text conversions of
    jalib/jconvert.h with the parts of [ostream] and [strtol] they rest on.
    A byte buffer is a [string] whose characters are the bytes. *)

From Stdlib Require Import ZArith Lia Ascii.
From stdpp Require Import base list strings numbers.
From S2P Require Import Prelude.
Open Scope Z_scope.

(** ** Bytes *)

Definition byte_val (c : ascii) : Z := Z.of_N (N_of_ascii c).
Definition byte_of (z : Z) : ascii := ascii_of_N (Z.to_N (z mod 256)).
Definition NUL : ascii := Ascii.zero.
Definition NUL_str : string := String NUL EmptyString.

Fixpoint str_drop (n : nat) (s : string) : string :=
  match n, s with
  | O, _ => s
  | S n', String _ s' => str_drop n' s'
  | S _, EmptyString => EmptyString
  end.

Fixpoint str_take (n : nat) (s : string) : string :=
  match n, s with
  | O, _ => EmptyString
  | S n', String c s' => String c (str_take n' s')
  | S _, EmptyString => EmptyString
  end.

(** A [const char *] read as a string: the characters before the first NUL.
    [None] is a buffer without a NUL, which the C library reads past. *)
Fixpoint c_str (s : string) : option string :=
  match s with
  | EmptyString => None
  | String c s' => if Ascii.eqb c NUL then Some EmptyString else String c <$> c_str s'
  end.

(** [std::string(buf + off)]. *)
Definition c_str_at (buf : string) (off : nat) : option string := c_str (str_drop off buf).

Fixpoint no_NUL (s : string) : bool :=
  match s with EmptyString => true | String c s' => negb (Ascii.eqb c NUL) && no_NUL s' end.

(** A [char buf[n]] filled by [strcpy]/[memcpy] plus a terminator and zero padding. *)
Definition char_array (n : nat) (s : string) : string :=
  str_take n (s +:+ String.concat EmptyString (replicate n NUL_str)).

Fixpoint str_prefix (pattern s : string) : bool :=
  match pattern, s with
  | EmptyString, _ => true
  | String p pattern', String c s' => Ascii.eqb p c && str_prefix pattern' s'
  | String _ _, EmptyString => false
  end.

(** [Util::strStartsWith]. *)
Definition strStartsWith (s pattern : string) : bool := str_prefix pattern s.

(** ** tokenizeString (src/tokenize.cpp) *)

Module Tokenize.
Fixpoint is_delim (delims : string) (c : ascii) : bool :=
  match delims with EmptyString => false | String d ds => Ascii.eqb d c || is_delim ds c end.

(** [s.find_first_of(delims, offset)]; [None] is [string::npos]. *)
Fixpoint find_first_of_go (delims s : string) (i : nat) : option nat :=
  match s with
  | EmptyString => None
  | String c s' => if is_delim delims c then Some i else find_first_of_go delims s' (S i)
  end.
Definition find_first_of (s delims : string) (offset : nat) : option nat :=
  find_first_of_go delims (str_drop offset s) offset.

(** [s.substr(offset, j - offset)], where [j = npos] takes the rest. *)
Definition substr (s : string) (offset : nat) (j : option nat) : string :=
  match j with
  | Some j => str_take (j - offset) (str_drop offset s)
  | None => str_drop offset s
  end.

(** The do/while loop; [start] is [offset + 1]. *)
Fixpoint tokenize_loop (fuel : nat) (s delims : string) (allowEmptyTokens : bool) (start : nat)
    : list string :=
  match fuel with
  | O => []
  | S fuel' =>
      let j := find_first_of s delims start in
      let token := substr s start j in
      let rest := match j with
                  | Some j => tokenize_loop fuel' s delims allowEmptyTokens (S j)
                  | None => []
                  end in
      if allowEmptyTokens || negb (String.eqb token EmptyString) then token :: rest else rest
  end.

Definition tokenizeString (s delims : string) (allowEmptyTokens : bool) : list string :=
  tokenize_loop (S (String.length s)) s delims allowEmptyTokens 0.

(** What the function promises: cut [s] at every delimiter. *)
Fixpoint cut (s delims : string) : list string :=
  match s with
  | EmptyString => [EmptyString]
  | String c s' =>
      if is_delim delims c then EmptyString :: cut s' delims
      else match cut s' delims with
           | t :: ts => String c t :: ts
           | [] => [String c EmptyString]
           end
  end.

Definition tokens_spec (s delims : string) (allowEmptyTokens : bool) : list string :=
  if allowEmptyTokens then cut s delims
  else filter (fun t => t <> EmptyString) (cut s delims).

(** Joining tokens with one delimiter between two of them. *)
Fixpoint join (sep : ascii) (ts : list string) : string :=
  match ts with
  | [] => EmptyString
  | [t] => t
  | t :: ts' => t +:+ String sep (join sep ts')
  end.
End Tokenize.
Import Tokenize.

(** ** Numbers as text (jalib/jconvert.h) *)

Module Convert.
Definition digit_char (d : Z) : ascii :=
  if d <? 10 then byte_of (48 + d) else byte_of (87 + d).

Fixpoint digits_go (fuel : nat) (base n : Z) (acc : string) : string :=
  let acc' := String (digit_char (n mod base)) acc in
  match fuel with
  | O => acc'
  | S fuel' => if n <? base then acc' else digits_go fuel' base (n / base) acc'
  end.

(** The digits of [n >= 0]; [Z.log2 n] bounds the number of digits less one. *)
Definition digits (base n : Z) : string := digits_go (Z.to_nat (Z.log2 n)) base n EmptyString.

(** [ostream << n] for a signed integer in decimal. *)
Definition XToString (n : Z) : string :=
  if n <? 0 then String "-"%char (digits 10 (- n)) else digits 10 n.

(** [ostream << std::hex << n] for an unsigned integer. *)
Definition hex_str (n : Z) : string := digits 16 n.

(** [std::setw(w) << std::setfill('0')]. *)
Definition pad_left (w : nat) (s : string) : string :=
  String.concat EmptyString (replicate (w - String.length s) "0") +:+ s.

(** *** strtol/strtoll with base 0 *)

Definition is_space (c : ascii) : bool :=
  let v := byte_val c in (v =? 32) || ((9 <=? v) && (v <=? 13)).

Definition digit_value (c : ascii) : option Z :=
  let v := byte_val c in
  if (48 <=? v) && (v <=? 57) then Some (v - 48)
  else if (97 <=? v) && (v <=? 122) then Some (v - 87)
  else if (65 <=? v) && (v <=? 90) then Some (v - 55)
  else None.

Definition digit_in (base : Z) (c : ascii) : option Z :=
  match digit_value c with
  | Some d => if d <? base then Some d else None
  | None => None
  end.

Fixpoint skip_space (s : string) : string :=
  match s with
  | String c s' => if is_space c then skip_space s' else s
  | EmptyString => EmptyString
  end.

(** The value of the longest run of digits, whether there was one, and the rest. *)
Fixpoint scan_digits (base : Z) (s : string) (acc : Z) (seen : bool) : Z * bool * string :=
  match s with
  | EmptyString => (acc, seen, s)
  | String c s' =>
      match digit_in base c with
      | Some d => scan_digits base s' (acc * base + d) true
      | None => (acc, seen, s)
      end
  end.

Definition sign_of (s : string) : Z * string :=
  match s with
  | String c s' =>
      if Ascii.eqb c "-" then (-1, s') else if Ascii.eqb c "+" then (1, s') else (1, s)
  | EmptyString => (1, s)
  end.

(** The base 0 rule: 0x/0X is 16 when a hexadecimal digit follows, 0 is 8, else 10. *)
Definition base_of (s : string) : Z * string :=
  match s with
  | String z (String x (String h s')) =>
      if Ascii.eqb z "0" && (Ascii.eqb x "x" || Ascii.eqb x "X") &&
         (match digit_in 16 h with Some _ => true | None => false end)
      then (16, String h s')
      else if Ascii.eqb z "0" then (8, s) else (10, s)
  | String z _ => if Ascii.eqb z "0" then (8, s) else (10, s)
  | EmptyString => (10, s)
  end.

Definition clamp64 (z : Z) : Z := Z.max (- 2 ^ 63) (Z.min (2 ^ 63 - 1) z).

(** [strtoll(s, &end, 0)]: [None] when no conversion was done ([end == s]),
    else the value, clamped to the range of [long long], and the text at [end]. *)
Definition strtoll (s : string) : option (Z * string) :=
  let (sign, s1) := sign_of (skip_space s) in
  let (base, s2) := base_of s1 in
  match scan_digits base s2 0 false with
  | (v, true, rest) => Some (clamp64 (sign * v), rest)
  | (_, false, _) => None
  end.

(** [jconvert_internal::StdLibEC<T, strtoT>(s, strict)]: the ASSERT fails as [None]. *)
Definition at_end (rest : string) : bool :=
  match rest with EmptyString => true | String c _ => Ascii.eqb c NUL end.
Definition StdLibEC (s : string) (strict : bool) : option Z :=
  match strtoll s with
  | Some (v, rest) => if negb strict || at_end rest then Some v else None
  | None => None
  end.

(** [long] and [long long] are 64 bits wide; [StringToX<int>] narrows the [long]. *)
Definition StringToInt64 (s : string) : option Z := StdLibEC s true.
Definition StringToInt (s : string) : option Z := to_int32 <$> StdLibEC s true.
End Convert.
Import Convert.


(** ** Lemmas: strings *)

Lemma byte_val_range c : 0 <= byte_val c < 256.
Proof. unfold byte_val. pose proof (N_ascii_bounded c). lia. Qed.

Lemma str_take_all n s : (String.length s <= n)%nat -> str_take n s = s.
Proof. revert n. induction s as [|c s IH]; intros [|n] H; cbn in *; try done; try lia. by rewrite IH by lia. Qed.

Lemma str_app_cons c a b : String c a +:+ b = String c (a +:+ b).
Proof. done. Qed.

Lemma str_app_nil_l b : EmptyString +:+ b = b.
Proof. done. Qed.

Ltac str_cbn := cbn; rewrite ?str_app_cons, ?str_app_nil_l; cbn.

Lemma str_drop_drop n m s : str_drop n (str_drop m s) = str_drop (m + n) s.
Proof. revert s; induction m as [|m IH]; intros [|c s]; cbn; try done. by destruct n. Qed.

Lemma str_drop_length n s : String.length (str_drop n s) = (String.length s - n)%nat.
Proof. revert s; induction n as [|n IH]; intros [|c s]; cbn; try done. Qed.

Lemma str_take_drop n s : str_take n s +:+ str_drop n s = s.
Proof. revert s; induction n as [|n IH]; intros [|c s]; str_cbn; try done. by rewrite IH. Qed.

Lemma str_app_length a b : String.length (a +:+ b) = (String.length a + String.length b)%nat.
Proof. induction a as [|c a IH]; str_cbn; [done|]. by rewrite IH. Qed.

Lemma str_drop_app a b : str_drop (String.length a) (a +:+ b) = b.
Proof. induction a as [|c a IH]; str_cbn; done. Qed.

Lemma str_take_app a b : str_take (String.length a) (a +:+ b) = a.
Proof. induction a as [|c a IH]; str_cbn; [done|]. by rewrite IH. Qed.

Lemma str_app_assoc a b c : (a +:+ b) +:+ c = a +:+ (b +:+ c).
Proof. induction a as [|x a IH]; str_cbn; [done|]. by rewrite IH. Qed.

Lemma str_app_nil_r a : a +:+ EmptyString = a.
Proof. induction a as [|x a IH]; str_cbn; [done|]. by rewrite IH. Qed.

(** A string written with its terminator reads back, whatever follows. *)
Lemma c_str_app s rest : no_NUL s = true -> c_str (s +:+ String NUL rest) = Some s.
Proof.
  induction s as [|c s IH]; str_cbn; [done|].
  destruct (Ascii.eqb c NUL); cbn; [done|]. intros H. by rewrite IH.
Qed.

Lemma c_str_at_app pre s rest n :
  n = String.length pre -> no_NUL s = true -> c_str_at (pre +:+ s +:+ String NUL rest) n = Some s.
Proof. intros -> H. unfold c_str_at. rewrite str_drop_app. by apply c_str_app. Qed.

Lemma c_str_no_NUL s t : c_str s = Some t -> no_NUL t = true.
Proof.
  revert t; induction s as [|c s IH]; cbn; [done|]. intros t.
  destruct (Ascii.eqb c NUL) eqn:E; [by intros [= <-]|].
  destruct (c_str s); cbn; [|done]. intros [= <-]. cbn. rewrite E. cbn. by apply IH.
Qed.

(** ** Lemmas: tokenizeString *)

Lemma cut_find delims t i :
  match find_first_of_go delims t i with
  | Some j => (i <= j < i + String.length t)%nat /\
      cut t delims = str_take (j - i) t :: cut (str_drop (S j - i) t) delims
  | None => cut t delims = [t]
  end.
Proof.
  revert i; induction t as [|c t IH]; intros i; cbn; [done|].
  destruct (is_delim delims c) eqn:E.
  - split; [lia|]. replace (i - i)%nat with 0%nat by lia.
    by replace (S i - i)%nat with 1%nat by lia.
  - specialize (IH (S i)). destruct (find_first_of_go delims t (S i)) as [j|].
    + destruct IH as [Hj ->]. split; [lia|].
      replace (j - i)%nat with (S (j - S i)) by lia.
      by replace (S j - i)%nat with (S (S j - S i)) by lia.
    + by rewrite IH.
Qed.

Lemma tokens_spec_cons t ts delims s b :
  cut s delims = t :: ts ->
  tokens_spec s delims b =
    (if b || negb (String.eqb t EmptyString) then [t] else []) ++
    (if b then ts else filter (fun t => t <> EmptyString) ts).
Proof.
  intros E. unfold tokens_spec. rewrite E. destruct b; [done|].
  rewrite filter_cons. destruct (String.eqb_spec t EmptyString); case_decide; done.
Qed.

Lemma tokenize_loop_correct fuel s delims b start :
  (String.length s < fuel + start)%nat ->
  tokenize_loop fuel s delims b start = tokens_spec (str_drop start s) delims b \/
  (start > String.length s)%nat.
Proof.
  revert start; induction fuel as [|fuel IH]; intros start Hf; cbn; [right; lia|].
  destruct (decide (start <= String.length s)%nat); [left|right; lia].
  unfold find_first_of, substr.
  pose proof (cut_find delims (str_drop start s) start) as Hc.
  rewrite str_drop_length in Hc.
  destruct (find_first_of_go delims (str_drop start s) start) as [j|].
  - destruct Hc as [Hj Hcut]. rewrite str_drop_drop in Hcut.
    replace (start + (S j - start))%nat with (S j) in Hcut by lia.
    rewrite (tokens_spec_cons _ _ _ _ _ Hcut).
    destruct (IH (S j)) as [->|]; [lia| |lia].
    unfold tokens_spec. by destruct (b || _), b.
  - rewrite (tokens_spec_cons _ _ _ _ _ Hc). by destruct (b || _), b.
Qed.

Lemma join_cut sep s : join sep (cut s (String sep EmptyString)) = s.
Proof.
  induction s as [|c s IH]; [done|]. cbn.
  destruct (Ascii.eqb_spec sep c) as [->|]; cbn.
  - destruct (cut s _) eqn:E; [|by rewrite IH].
    exfalso. destruct s as [|d s]; cbn in E; [done|].
    destruct (Ascii.eqb c d); cbn in E; [done|]. destruct (cut s _); done.
  - destruct (cut s _) as [|t [|u ts]] eqn:E; cbn in *; by rewrite <- IH.
Qed.

Lemma cut_no_delim s delims t : t ∈ cut s delims ->
  forall c, is_delim delims c = true -> ~ In c (String.list_ascii_of_string t).
Proof.
  revert t; induction s as [|d s IH]; intros t; cbn.
  - intros ->%list_elem_of_singleton c _ []. 
  - destruct (is_delim delims d) eqn:E.
    + intros [->|H]%elem_of_cons c Hc; [intros []|]. eapply IH; eauto.
    + destruct (cut s delims) as [|u us].
      * intros ->%list_elem_of_singleton c Hc [->|[]]. congruence.
      * intros [->|H]%elem_of_cons c Hc.
        -- intros [->|H']; [congruence|]. eapply (IH u); eauto. apply list_elem_of_here.
        -- eapply IH; eauto. by apply list_elem_of_further.
Qed.

(** ** Lemmas: numbers as text *)

Lemma digit_cases (P : Z -> Prop) d :
  0 <= d < 16 -> Forall P [0;1;2;3;4;5;6;7;8;9;10;11;12;13;14;15] -> P d.
Proof.
  intros Hd HP. rewrite Forall_forall in HP. apply HP.
  assert (d ∈ seqZ 0 16) as H by (apply elem_of_seqZ; lia). by apply list_elem_of_In in H.
Qed.

Lemma digit_in_char base d : 0 <= d < base -> base <= 16 -> digit_in base (digit_char d) = Some d.
Proof.
  intros Hd Hb. unfold digit_in.
  replace (digit_value (digit_char d)) with (Some d).
  - by destruct (Z.ltb_spec d base); [|lia].
  - pattern d. apply digit_cases; [lia|]. repeat constructor.
Qed.

Lemma scan_digits_go fuel base n acc seen :
  2 <= base <= 16 -> 0 <= n < base ^ Z.of_nat (S fuel) ->
  scan_digits base (digits_go fuel base n acc) 0 seen = scan_digits base acc n true.
Proof.
  intros Hb. revert n acc seen. induction fuel as [|fuel IH]; intros n acc seen Hn.
  - cbn -[Z.mul Z.pow] in *. rewrite Z.pow_1_r in Hn. rewrite Z.mod_small by lia.
    rewrite digit_in_char by lia. done.
  - cbn [digits_go]. destruct (Z.ltb_spec n base).
    + cbn [scan_digits]. rewrite Z.mod_small by lia. by rewrite digit_in_char by lia.
    + rewrite IH.
      * pose proof (Z.mod_pos_bound n base ltac:(lia)).
        cbn [scan_digits]. rewrite digit_in_char by lia.
        f_equal. pose proof (Z.div_mod n base). lia.
      * split; [apply Z.div_pos; lia|]. apply Z.div_lt_upper_bound; [lia|].
        rewrite <- Z.pow_succ_r by lia. rewrite <- Nat2Z.inj_succ. lia.
Qed.

Lemma digits_fuel base n : 2 <= base -> 0 <= n -> n < base ^ Z.of_nat (S (Z.to_nat (Z.log2 n))).
Proof.
  intros Hb Hn. pose proof (Z.log2_nonneg n).
  rewrite Nat2Z.inj_succ, Z2Nat.id by lia.
  destruct (decide (n = 0)) as [->|]; [by apply Z.pow_pos_nonneg; lia|].
  destruct (Z.log2_spec n) as [_ Hlt]; [lia|].
  eapply Z.lt_le_trans; [exact Hlt|]. apply Z.pow_le_mono_l. lia.
Qed.

Lemma scan_digits_digits base n :
  2 <= base <= 16 -> 0 <= n -> scan_digits base (digits base n) 0 false = (n, true, EmptyString).
Proof.
  intros Hb Hn. unfold digits. rewrite scan_digits_go; [done|lia|].
  split; [lia|]. by apply digits_fuel; lia.
Qed.

Lemma digits_go_head fuel base n acc :
  2 <= base <= 16 -> 0 < n < base ^ Z.of_nat (S fuel) ->
  exists d t, digits_go fuel base n acc = String (digit_char d) t /\ 1 <= d < base.
Proof.
  intros Hb. revert n acc. induction fuel as [|fuel IH]; intros n acc Hn.
  - cbn -[Z.pow] in Hn. rewrite Z.pow_1_r in Hn. cbn [digits_go]. rewrite Z.mod_small by lia.
    eauto with lia.
  - cbn [digits_go]. destruct (Z.ltb_spec n base).
    + rewrite Z.mod_small by lia. eauto with lia.
    + apply IH. split; [apply Z.div_str_pos; lia|]. apply Z.div_lt_upper_bound; [lia|].
      rewrite <- Z.pow_succ_r by lia. rewrite <- Nat2Z.inj_succ. lia.
Qed.

Lemma digits_head n : 0 < n ->
  exists d t, digits 10 n = String (digit_char d) t /\ 1 <= d < 10.
Proof. intros Hn. apply digits_go_head; [lia|]. split; [lia|]. apply digits_fuel; lia. Qed.

Lemma digit_char_facts d : 0 <= d < 10 ->
  is_space (digit_char d) = false /\ Ascii.eqb (digit_char d) "-" = false /\
  Ascii.eqb (digit_char d) "+" = false /\ Ascii.eqb (digit_char d) "0" = (d =? 0) /\
  Ascii.eqb (digit_char d) NUL = false.
Proof.
  intros Hd. assert (d ∈ seqZ 0 10) as H by (apply elem_of_seqZ; lia). clear Hd. cbn in H.
  repeat (apply elem_of_cons in H as [->|H]; [done|]). by apply elem_of_nil in H.
Qed.

Lemma base_of_digit d t : 1 <= d < 10 -> base_of (String (digit_char d) t) = (10, String (digit_char d) t).
Proof.
  intros Hd. destruct (digit_char_facts d) as (_&_&_&H0&_); [lia|].
  destruct (Z.eqb_spec d 0); [lia|]. unfold base_of. rewrite H0. by destruct t as [|? [|? ?]].
Qed.

(** Scanning the digits of a number, sign and base prefix included. *)
Lemma scan_signed n : 0 <= n ->
  let '(base, s2) := base_of (digits 10 n) in
  scan_digits base s2 0 false = (n, true, EmptyString).
Proof.
  intros Hn. destruct (decide (n = 0)) as [->|]; [done|].
  destruct (digits_head n) as (d&t&E&Hd); [lia|].
  rewrite E, base_of_digit, <- E by done. by apply scan_digits_digits; lia.
Qed.

Lemma sign_of_digits n : 0 <= n -> sign_of (skip_space (digits 10 n)) = (1, digits 10 n).
Proof.
  intros Hn. destruct (decide (n = 0)) as [->|]; [done|].
  destruct (digits_head n) as (d&t&E&Hd); [lia|]. rewrite E.
  destruct (digit_char_facts d) as (H1&H2&H3&_); [lia|]. cbn. rewrite H1. cbn. by rewrite H2, H3.
Qed.

Lemma strtoll_XToString n : strtoll (XToString n) = Some (clamp64 n, EmptyString).
Proof.
  unfold strtoll, XToString. destruct (Z.ltb_spec n 0).
  - change (sign_of (skip_space (String "-" (digits 10 (- n))))) with (-1, digits 10 (- n)).
    cbv beta iota.
    pose proof (scan_signed (- n)) as Hs. destruct (base_of (digits 10 (- n))) as [b s2].
    rewrite Hs by lia. by replace (-1 * - n) with n by lia.
  - rewrite sign_of_digits by lia. cbv beta iota.
    pose proof (scan_signed n) as Hs. destruct (base_of (digits 10 n)) as [b s2].
    rewrite Hs by lia. by replace (1 * n) with n by lia.
Qed.

Lemma StringToInt64_XToString n : in_int64 n = true -> StringToInt64 (XToString n) = Some n.
Proof.
  unfold in_int64. intros [H1%Z.leb_le H2%Z.leb_le]%andb_prop. unfold StringToInt64, StdLibEC.
  rewrite strtoll_XToString. cbn. unfold clamp64. f_equal. lia.
Qed.

Lemma digits_go_no_NUL fuel base n acc :
  2 <= base <= 10 -> no_NUL acc = true -> no_NUL (digits_go fuel base n acc) = true.
Proof.
  intros Hb. revert n acc. induction fuel as [|fuel IH]; intros n acc Ha;
    destruct (digit_char_facts (n mod base)) as (_&_&_&_&H);
    try (pose proof (Z.mod_pos_bound n base); lia); cbn [digits_go].
  - cbn. by rewrite H.
  - assert (no_NUL (String (digit_char (n mod base)) acc) = true) by (cbn; by rewrite H).
    destruct (n <? base); auto.
Qed.

Lemma XToString_no_NUL n : no_NUL (XToString n) = true.
Proof.
  unfold XToString. destruct (n <? 0); cbn; by apply digits_go_no_NUL.
Qed.

(** The values int64 arithmetic stores as text are read back unchanged, so
    [StringToInt64(XToString(n)) == n] for every 64-bit [n]; the text has no
    NUL in it, so it survives the trip through a C string. *)
Theorem int64_text_roundtrip n :
  in_int64 n = true -> StringToInt64 (XToString n) = Some n /\ no_NUL (XToString n) = true.
Proof. split; [by apply StringToInt64_XToString|apply XToString_no_NUL]. Qed.

Lemma int64_text_roundtrip_witness :
  in_int64 (-9223372036854775808) = true /\
  StringToInt64 (XToString (-9223372036854775808)) = Some (-9223372036854775808).
Proof. split; [reflexivity|]. apply int64_text_roundtrip. reflexivity. Defined.

Lemma tokenizeString_spec s delims b : tokenizeString s delims b = tokens_spec s delims b.
Proof.
  unfold tokenizeString.
  destruct (tokenize_loop_correct (S (String.length s)) s delims b 0) as [->|]; [lia|done|lia].
Qed.

Lemma digits_go_length fuel base n acc :
  (String.length (digits_go fuel base n acc) <= String.length acc + S fuel)%nat.
Proof.
  revert n acc; induction fuel as [|fuel IH]; intros n acc; cbn [digits_go]; [cbn; lia|].
  destruct (n <? base); [cbn; lia|]. etransitivity; [apply IH|]. cbn. lia.
Qed.

Lemma XToString_length n : in_int64 n = true -> (String.length (XToString n) <= 65)%nat.
Proof.
  intros H. apply andb_prop in H as [H1%Z.leb_le H2%Z.leb_le]. unfold XToString, digits.
  destruct (Z.ltb_spec n 0).
  - assert (Z.log2 (- n) <= 63) by (etransitivity; [apply (Z.log2_le_mono _ (2 ^ 63)); lia|by rewrite Z.log2_pow2]).
    cbn [String.length]. pose proof (digits_go_length (Z.to_nat (Z.log2 (- n))) 10 (- n) EmptyString).
    cbn [String.length] in *. lia.
  - assert (Z.log2 n <= 63) by (etransitivity; [apply (Z.log2_le_mono _ (2 ^ 63)); lia|by rewrite Z.log2_pow2]).
    pose proof (digits_go_length (Z.to_nat (Z.log2 n)) 10 n EmptyString). cbn [String.length] in *. lia.
Qed.

Lemma StringToInt64_range s v : StringToInt64 s = Some v -> in_int64 v = true.
Proof.
  unfold StringToInt64, StdLibEC, strtoll. destruct (sign_of _), (base_of _).
  destruct (scan_digits _ _ _ _) as [[w []] rest]; [|done].
  destruct (negb true || at_end rest); [|done]. intros [= <-]. unfold in_int64, clamp64.
  apply andb_true_intro. split; apply Z.leb_le; lia.
Qed.

(** [tokenizeString] cuts its argument at every delimiter: it computes the
    reference cut (all pieces, or only the non-empty ones), no piece contains a
    delimiter, and with empty tokens kept and one delimiter the pieces joined
    by it give the argument back. *)
Theorem tokenizeString_correct s delims b :
  tokenizeString s delims b = tokens_spec s delims b /\
  (forall t c, t ∈ tokenizeString s delims b -> is_delim delims c = true ->
     ~ In c (String.list_ascii_of_string t)) /\
  (forall sep, delims = String sep EmptyString -> b = true ->
     join sep (tokenizeString s delims b) = s).
Proof.
  rewrite tokenizeString_spec. split_and!; [done| |].
  - intros t c Ht Hc. apply (cut_no_delim s delims); [|done]. unfold tokens_spec in Ht.
    destruct b; [done|]. by apply list_elem_of_filter in Ht as [_ ?].
  - intros sep -> ->. apply join_cut.
Qed.
