(* ===== verification/Identity.v ===== *)
(** * Process identities and worker states

    [UniquePid] (src/uniquepid.h, src/uniquepid.cpp) names a process of a
    computation; [WorkerState::eWorkerState] (src/workerstate.h) is the state
    of a worker as the coordinator sees it. *)

From Stdlib Require Import ZArith Lia Ascii.
From stdpp Require Import base list strings numbers.
From S2P Require Import Prelude CText.
Import Convert.
Open Scope Z_scope.

(** ** Worker states *)

Inductive eWorkerState : Type :=
| UNKNOWN | RUNNING | PRESUSPEND | SUSPENDED | CHECKPOINTING | CHECKPOINTED | RESTARTING | WS_MAX.

#[export] Instance eWorkerState_eq_dec : EqDecision eWorkerState.
Proof. solve_decision. Defined.

(** The enumerators' values. *)
Definition ws_val (s : eWorkerState) : Z :=
  match s with
  | UNKNOWN => 0 | RUNNING => 1 | PRESUSPEND => 2 | SUSPENDED => 3 | CHECKPOINTING => 4
  | CHECKPOINTED => 5 | RESTARTING => 6 | WS_MAX => 7
  end.

(** The cast [(WorkerState::eWorkerState)n]; the enumeration's range is 0 to 7. *)
Definition ws_of (n : Z) : eWorkerState :=
  if n =? 0 then UNKNOWN else if n =? 1 then RUNNING else if n =? 2 then PRESUSPEND
  else if n =? 3 then SUSPENDED else if n =? 4 then CHECKPOINTING else if n =? 5 then CHECKPOINTED
  else if n =? 6 then RESTARTING else WS_MAX.

Definition ws_eqb (a b : eWorkerState) : bool := ws_val a =? ws_val b.

(** [operator<<(ostream&, eWorkerState)]; the ASSERT of the default case is [None]. *)
Definition ws_str (s : eWorkerState) : option string :=
  String.append "WorkerState::" <$>
  match s with
  | UNKNOWN => Some "UNKNOWN" | RUNNING => Some "RUNNING" | PRESUSPEND => Some "PRESUSPEND"
  | SUSPENDED => Some "SUSPENDED" | CHECKPOINTING => Some "CHECKPOINTING"
  | CHECKPOINTED => Some "CHECKPOINTED" | RESTARTING => Some "RESTARTING" | WS_MAX => None
  end.

(** [WorkerState::setCurrentState] and [currentState] on the file's static. *)
Definition setCurrentState (value : eWorkerState) (workerState : eWorkerState) : eWorkerState := value.
Definition currentState (workerState : eWorkerState) : eWorkerState := workerState.

(** ** Unique process ids *)

Record UniquePid : Type := mk_UniquePid {
  up_hostid : Z;      (* uint64_t *)
  up_pid : Z;         (* pid_t *)
  up_time : Z;        (* uint64_t *)
  up_generation : Z   (* uint32_t *)
}.
#[export] Instance eta_UniquePid : Settable UniquePid :=
  {| eta_of r := mk_UniquePid (up_hostid r) (up_pid r) (up_time r) (up_generation r) |}.
#[export] Instance UniquePid_eq_dec : EqDecision UniquePid.
Proof. solve_decision. Defined.

(** [UniquePid(host, pd, tm, gen = 0)]. *)
Definition UniquePid_new (host pd tm : Z) : UniquePid := mk_UniquePid host pd tm 0.

(** [UniquePid()] leaves the generation uninitialised: [garbage] is what is there. *)
Definition UniquePid_default (garbage : Z) : UniquePid := mk_UniquePid 0 0 0 garbage.

Definition incrementGeneration (u : UniquePid) : UniquePid :=
  u <| up_generation ::= fun g => to_uint32 (g + 1) |>.

(** [UniquePid::operator==] ignores the generation. *)
Definition up_eqb (a b : UniquePid) : bool :=
  (up_hostid a =? up_hostid b) && (up_pid a =? up_pid b) && (up_time a =? up_time b).

(** [operator==(DmtcpUniqueProcessId, DmtcpUniqueProcessId)] compares it too. *)
Definition upid_eqb (a b : UniquePid) : bool :=
  (up_hostid a =? up_hostid b) && (up_pid a =? up_pid b) && (up_time a =? up_time b) &&
  (up_generation a =? up_generation b).

(** [UniquePid::operator<]: the TRY_LEQ chain. *)
Definition up_ltb (a b : UniquePid) : bool :=
  if negb (up_hostid a =? up_hostid b) then up_hostid a <? up_hostid b
  else if negb (up_pid a =? up_pid b) then up_pid a <? up_pid b
  else if negb (up_time a =? up_time b) then up_time a <? up_time b
  else false.

Definition nullProcess : UniquePid := UniquePid_new 0 0 0.
Definition isNull (u : UniquePid) : bool := up_eqb u nullProcess.

(** [operator<<] and [toString]: hex host, decimal pid, hex time. *)
Definition up_str (u : UniquePid) : string :=
  hex_str (up_hostid u) +:+ "-" +:+ XToString (up_pid u) +:+ "-" +:+ hex_str (up_time u).

(** ** The identity of this process

    The statics of src/uniquepid.cpp, and what the functions read from the
    system: the host name's bytes, [getpid()] and the monotonic clock. *)

Record ProcIds : Type := mk_ProcIds {
  theProcess : UniquePid;
  parentProcess : UniquePid;
  vforkThisProcess : UniquePid;
  vforkParentProcess : UniquePid
}.
#[export] Instance eta_ProcIds : Settable ProcIds :=
  {| eta_of r := mk_ProcIds (theProcess r) (parentProcess r) (vforkThisProcess r)
                            (vforkParentProcess r) |}.

Record ProcEnv : Type := mk_ProcEnv { env_hostname : string; env_pid : Z; env_sec : Z; env_nsec : Z }.

(** The hash of the host name; [char] is signed and [long] wraps at 64 bits. *)
Fixpoint hostid_loop (s : string) (h : Z) : Z :=
  match s with
  | EmptyString => h
  | String c s' => hostid_loop s' (to_int64 (wrap_s 8 (byte_val c) + 331 * h))
  end.
Definition theUniqueHostId (hostname : string) : Z :=
  let h := hostid_loop hostname 0 in if 0 <? h then h else to_int64 (- h).

Definition getTimeNs (e : ProcEnv) : Z := to_int64 (env_sec e * 1000000000 + env_nsec e).

Definition ThisProcess (e : ProcEnv) (p : ProcIds) : UniquePid * ProcIds :=
  if up_eqb (theProcess p) nullProcess then
    let u := UniquePid_new (to_uint64 (theUniqueHostId (env_hostname e))) (env_pid e)
                           (to_uint64 (getTimeNs e)) in
    (u, p <| theProcess := u |>)
  else (theProcess p, p).

Definition resetOnFork (e : ProcEnv) (p : ProcIds) : ProcIds :=
  let (this, p) := ThisProcess e p in
  let p := p <| parentProcess := this |> in
  p <| theProcess := UniquePid_new (up_hostid this) (env_pid e) (to_uint64 (getTimeNs e)) |>.

Inductive ProcEvent : Type :=
| ATFORK_CHILD | VFORK_CHILD | VFORK_PREPARE | VFORK_PARENT | VFORK_FAILED | OTHER_EVENT.

Definition UniquePid_EventHook (event : ProcEvent) (e : ProcEnv) (p : ProcIds) : ProcIds :=
  match event with
  | ATFORK_CHILD | VFORK_CHILD => resetOnFork e p
  | VFORK_PREPARE =>
      let (this, p) := ThisProcess e p in
      p <| vforkThisProcess := this |> <| vforkParentProcess := parentProcess p |>
  | VFORK_PARENT | VFORK_FAILED =>
      let p := p <| theProcess := vforkThisProcess p |> <| parentProcess := vforkParentProcess p |> in
      resetOnFork e p
  | OTHER_EVENT => p
  end.

(** ** Lemmas *)

Lemma ws_of_val s : ws_of (ws_val s) = s.
Proof. by destruct s. Qed.

Lemma ws_val_range s : 0 <= ws_val s <= 7.
Proof. by destruct s. Qed.

Lemma ws_val_inj a b : ws_val a = ws_val b -> a = b.
Proof. intros H. rewrite <- (ws_of_val a), H. apply ws_of_val. Qed.

Lemma ws_eqb_eq a b : ws_eqb a b = true <-> a = b.
Proof. unfold ws_eqb. rewrite Z.eqb_eq. split; [apply ws_val_inj|congruence]. Qed.

Lemma ws_eqb_neq a b : ws_eqb a b = false <-> a <> b.
Proof. rewrite <- ws_eqb_eq. by destruct (ws_eqb a b). Qed.

Lemma up_eqb_spec a b :
  up_eqb a b = true <-> up_hostid a = up_hostid b /\ up_pid a = up_pid b /\ up_time a = up_time b.
Proof. unfold up_eqb. rewrite !andb_true_iff, !Z.eqb_eq. tauto. Qed.

Lemma up_eqb_refl a : up_eqb a a = true.
Proof. by apply up_eqb_spec. Qed.

Lemma up_ltb_spec a b :
  up_ltb a b = true <->
  up_hostid a < up_hostid b \/ (up_hostid a = up_hostid b /\
  (up_pid a < up_pid b \/ (up_pid a = up_pid b /\ up_time a < up_time b))).
Proof.
  unfold up_ltb. bool_cases; cbn; rewrite ?Z.ltb_lt; split; intros; try done; try lia.
Qed.

Lemma resetOnFork_nonnull e p :
  isNull (theProcess p) = false ->
  resetOnFork e p = p <| parentProcess := theProcess p |>
    <| theProcess := UniquePid_new (up_hostid (theProcess p)) (env_pid e) (to_uint64 (getTimeNs e)) |>.
Proof. unfold isNull, resetOnFork, ThisProcess. by intros ->. Qed.

Lemma resetOnFork_vfork e p : vforkThisProcess (resetOnFork e p) = vforkThisProcess p.
Proof. unfold resetOnFork, ThisProcess. by destruct (up_eqb _ _). Qed.

(** The separator of a printed id is not a digit, so scanning stops there. *)
Lemma digits_go_app fuel base n acc : digits_go fuel base n acc = digits_go fuel base n EmptyString +:+ acc.
Proof.
  revert n acc; induction fuel as [|fuel IH]; intros n acc; cbn [digits_go]; [done|].
  destruct (n <? base); [done|]. rewrite IH. rewrite (IH _ (String _ EmptyString)).
  by rewrite str_app_assoc.
Qed.

Lemma scan_digits_app base n rest :
  2 <= base <= 16 -> 0 <= n -> (forall acc, scan_digits base rest acc true = (acc, true, rest)) ->
  scan_digits base (digits base n +:+ rest) 0 false = (n, true, rest).
Proof.
  intros Hb Hn Hr. unfold digits. rewrite <- digits_go_app, scan_digits_go; [done|done|].
  split; [done|]. by apply digits_fuel; lia.
Qed.

Lemma scan_dash base t acc : base <= 16 -> scan_digits base ("-" +:+ t) acc true = (acc, true, "-" +:+ t).
Proof. intros. cbn. unfold digit_in. done. Qed.

Lemma XToString_scan n t : exists neg : bool,
  XToString n +:+ t = (if neg then "-" +:+ digits 10 (- n) +:+ t else digits 10 n +:+ t) /\
  (if neg then n < 0 else 0 <= n).
Proof.
  unfold XToString. destruct (Z.ltb_spec n 0); [exists true|exists false]; split; try done; lia.
Qed.

Lemma digits_not_dash n t t' : 0 <= n -> digits 10 n +:+ t <> "-" +:+ t'.
Proof.
  intros Hn E. destruct (decide (n = 0)) as [->|]; [done|].
  destruct (digits_head n) as (d&u&E'&Hd); [lia|]. rewrite E', str_app_cons in E.
  injection E as E _. destruct (digit_char_facts d) as (_&H&_); [lia|].
  rewrite E in H. done.
Qed.

Lemma dec_prefix_inj n m t u :
  (forall acc, scan_digits 10 t acc true = (acc, true, t)) ->
  (forall acc, scan_digits 10 u acc true = (acc, true, u)) ->
  XToString n +:+ t = XToString m +:+ u -> n = m /\ t = u.
Proof.
  intros Ht Hu E.
  assert (K : forall a b, 0 <= a -> 0 <= b -> digits 10 a +:+ t = digits 10 b +:+ u -> a = b /\ t = u).
  { intros a b Ha Hb Eab. pose proof (scan_digits_app 10 a t ltac:(lia) Ha Ht) as H1.
    rewrite Eab, (scan_digits_app 10 b u) in H1 by (try done; lia). by injection H1. }
  destruct (XToString_scan n t) as [[] [E1 H1]], (XToString_scan m u) as [[] [E2 H2]];
    rewrite E1, E2 in E.
  - injection E as E. destruct (K (- n) (- m)) as [??]; [lia..|done|]. split; [lia|done].
  - exfalso. by apply (digits_not_dash m u (digits 10 (- n) +:+ t)).
  - exfalso. by apply (digits_not_dash n t (digits 10 (- m) +:+ u)).
  - by apply K.
Qed.

Lemma hex_prefix_inj a b t u :
  0 <= a -> 0 <= b ->
  (forall acc, scan_digits 16 t acc true = (acc, true, t)) ->
  (forall acc, scan_digits 16 u acc true = (acc, true, u)) ->
  hex_str a +:+ t = hex_str b +:+ u -> a = b /\ t = u.
Proof.
  intros Ha Hb Ht Hu E. unfold hex_str in E.
  pose proof (scan_digits_app 16 a t ltac:(lia) Ha Ht) as H1.
  rewrite E, (scan_digits_app 16 b u) in H1 by (try done; lia). by injection H1.
Qed.

(** ** Theorems *)

(** C32: [UniquePid::operator<] orders ids the way std::map and std::set need:
    it is irreflexive and transitive, and two ids are unordered exactly when
    [operator==] holds (so equal ids, whatever their generation, are one key). *)
Theorem UniquePid_order_correct :
  (forall a, up_ltb a a = false) /\
  (forall a b c, up_ltb a b = true -> up_ltb b c = true -> up_ltb a c = true) /\
  (forall a b, up_ltb a b = false /\ up_ltb b a = false <-> up_eqb a b = true).
Proof.
  split_and!.
  - intros a. destruct (up_ltb a a) eqn:E; [|done]. apply up_ltb_spec in E. lia.
  - intros a b c H1%up_ltb_spec H2%up_ltb_spec. apply up_ltb_spec. lia.
  - intros a b. rewrite up_eqb_spec, <- !not_true_iff_false, !up_ltb_spec. lia.
Qed.

(** The text of an id, which names checkpoint images, the restart script and
    the shared-memory area, determines the id up to [operator==]. *)
Theorem UniquePid_toString_inj a b :
  0 <= up_hostid a -> 0 <= up_hostid b -> 0 <= up_time a -> 0 <= up_time b ->
  up_str a = up_str b <-> up_eqb a b = true.
Proof.
  intros Ha Hb Hta Htb. rewrite up_eqb_spec. split.
  - unfold up_str. intros E.
    apply hex_prefix_inj in E as [Hh E]; [|done|done|intros; by apply scan_dash..].
    injection E as E.
    apply dec_prefix_inj in E as [Hp E]; [|intros; by apply scan_dash..].
    injection E as E. rewrite <- (str_app_nil_r (hex_str (up_time a))) in E.
    rewrite <- (str_app_nil_r (hex_str (up_time b))) in E.
    apply hex_prefix_inj in E as [Ht _]; done.
  - unfold up_str. by intros (->&->&->).
Qed.

Lemma UniquePid_toString_inj_witness :
  let a := mk_UniquePid 255 40000 4096 1 in let b := mk_UniquePid 255 40000 4096 7 in
  up_str a = up_str b /\ up_str a = "ff-40000-1000".
Proof. split; [|reflexivity]. apply (UniquePid_toString_inj _ _); cbn; try lia; reflexivity. Defined.

(** The vfork hooks do not give the parent its identity back.  After
    VFORK_PREPARE, the child's hook and VFORK_PARENT in one address space, the
    parent's id is a new one stamped with the clock at that moment, and its
    recorded parent is its own old id, whatever was saved at VFORK_PREPARE. *)
Theorem vfork_parent_gets_new_identity e0 e1 e2 p :
  isNull (theProcess p) = false ->
  let p' := UniquePid_EventHook VFORK_PARENT e2
              (UniquePid_EventHook VFORK_CHILD e1 (UniquePid_EventHook VFORK_PREPARE e0 p)) in
  theProcess p' = UniquePid_new (up_hostid (theProcess p)) (env_pid e2) (to_uint64 (getTimeNs e2)) /\
  parentProcess p' = theProcess p.
Proof.
  intros Hn. cbn [UniquePid_EventHook].
  rewrite resetOnFork_nonnull; rsimpl; rewrite resetOnFork_vfork;
    unfold ThisProcess; unfold isNull in Hn; by rewrite Hn.
Qed.

Lemma vfork_parent_gets_new_identity_witness :
  let e t := mk_ProcEnv "host" 40000 t 0 in
  let p := mk_ProcIds (mk_UniquePid 7 40000 100 0) (mk_UniquePid 7 39000 50 0) nullProcess nullProcess in
  theProcess (UniquePid_EventHook VFORK_PARENT (e 9)
    (UniquePid_EventHook VFORK_CHILD (e 8) (UniquePid_EventHook VFORK_PREPARE (e 7) p)))
  = UniquePid_new 7 40000 9000000000.
Proof. intros e p. exact (proj1 (vfork_parent_gets_new_identity (e 7) (e 8) (e 9) p eq_refl)). Defined.
