(* ===== verification/Json.v ===== *)
(** * JSON output

    The writer class [Json] of src/json.h and src/json.cpp, which prints the
    replies of dmtcp_command, and a reader for the objects it writes.  The
    theorem is that what the writer prints reads back as the fields given. *)

From Stdlib Require Import ZArith Lia Ascii.
From stdpp Require Import base list strings numbers.
From S2P Require Import Prelude CText Identity.
Import Convert.
Open Scope Z_scope.

Module Json.
Definition dquote : ascii := byte_of 34.
Definition backslash : ascii := byte_of 92.
Definition str1 (c : ascii) : string := String c EmptyString.

(** The values [appendField] is used with. *)
Inductive jval : Type :=
| JInt (n : Z)
| JBool (b : bool)
| JStr (s : string).

(** [Json::Json] and [Json::str] around the buffer [_json]. *)
Definition json_new : string := "{".
Definition json_str (j : string) : string := j +:+ "}".

Definition escape_char (c : ascii) : string :=
  let ch := byte_val c in
  if ch =? 34 then String backslash (str1 dquote)
  else if ch =? 92 then String backslash (str1 backslash)
  else if ch =? 8 then String backslash "b"
  else if ch =? 12 then String backslash "f"
  else if ch =? 10 then String backslash "n"
  else if ch =? 13 then String backslash "r"
  else if ch =? 9 then String backslash "t"
  else if ch <? 32 then String backslash ("u" +:+ pad_left 4 (hex_str ch))
  else str1 c.

Fixpoint escape (s : string) : string :=
  match s with
  | EmptyString => EmptyString
  | String c s' => escape_char c +:+ escape s'
  end.

Definition appendString (j value : string) : string :=
  j +:+ str1 dquote +:+ escape value +:+ str1 dquote.

Fixpoint last_char (s : string) (d : ascii) : ascii :=
  match s with EmptyString => d | String c s' => last_char s' c end.

Definition appendFieldName (j key : string) : string :=
  let last := last_char j NUL in
  let j := if negb (Ascii.eqb last "{") && negb (Ascii.eqb last "[") then j +:+ "," else j in
  appendString j key +:+ ":".

(** The overloads of [Json::append]: [%lld]/[%llu], [bool], [const char *]. *)
Definition append (j : string) (v : jval) : string :=
  match v with
  | JInt n => j +:+ XToString n
  | JBool b => j +:+ (if b then "true" else "false")
  | JStr s => appendString j s
  end.

Definition appendField (j : string) (f : string * jval) : string :=
  append (appendFieldName j (f.1)) (f.2).

Definition render (fields : list (string * jval)) : string :=
  json_str (fold_left appendField fields json_new).

(** ** A reader *)

Definition hexval (c : ascii) : option Z := digit_in 16 c.

Definition unescape_simple (c : ascii) : option ascii :=
  let v := byte_val c in
  if v =? 34 then Some dquote else if v =? 92 then Some backslash
  else if v =? 98 then Some (byte_of 8) else if v =? 102 then Some (byte_of 12)
  else if v =? 110 then Some (byte_of 10) else if v =? 114 then Some (byte_of 13)
  else if v =? 116 then Some (byte_of 9) else None.

(** The rest of a string literal, after its opening quote. *)
Fixpoint scan_string (s : string) : option (string * string) :=
  match s with
  | EmptyString => None
  | String c s' =>
      if byte_val c =? 34 then Some (EmptyString, s')
      else if byte_val c =? 92 then
        match s' with
        | String e s2 =>
            if byte_val e =? 117 then
              match s2 with
              | String a (String b (String x (String y s3))) =>
                  match hexval a, hexval b, hexval x, hexval y with
                  | Some va, Some vb, Some vx, Some vy =>
                      (fun r => (String (byte_of (va * 4096 + vb * 256 + vx * 16 + vy)) r.1, r.2))
                        <$> scan_string s3
                  | _, _, _, _ => None
                  end
              | _ => None
              end
            else match unescape_simple e with
                 | Some d => (fun r => (String d r.1, r.2)) <$> scan_string s2
                 | None => None
                 end
        | EmptyString => None
        end
      else if byte_val c <? 32 then None
      else (fun r => (String c r.1, r.2)) <$> scan_string s'
  end.

Definition expect (c : ascii) (s : string) : option string :=
  match s with String d s' => if Ascii.eqb c d then Some s' else None | EmptyString => None end.

Definition scan_word (w s : string) : option string :=
  if str_prefix w s then Some (str_drop (String.length w) s) else None.

Definition scan_value (s : string) : option (jval * string) :=
  match expect dquote s with
  | Some s' => (fun r => (JStr r.1, r.2)) <$> scan_string s'
  | None =>
      match scan_word "true" s with
      | Some s' => Some (JBool true, s')
      | None =>
          match scan_word "false" s with
          | Some s' => Some (JBool false, s')
          | None =>
              let (sign, s1) := sign_of s in
              match scan_digits 10 s1 0 false with
              | (v, true, rest) => Some (JInt (sign * v), rest)
              | (_, false, _) => None
              end
          end
      end
  end.

Definition scan_field (s : string) : option ((string * jval) * string) :=
  s1 ← expect dquote s;
  r ← scan_string s1;
  s2 ← expect ":" r.2;
  v ← scan_value s2;
  Some ((r.1, v.1), v.2).

Fixpoint scan_fields (fuel : nat) (s : string) : option (list (string * jval)) :=
  match fuel with
  | O => None
  | S fuel' =>
      f ← scan_field s;
      match expect "}" f.2 with
      | Some rest => if String.eqb rest EmptyString then Some [f.1] else None
      | None => s' ← expect "," f.2; cons f.1 <$> scan_fields fuel' s'
      end
  end.

Definition parse (s : string) : option (list (string * jval)) :=
  s' ← expect "{" s;
  if String.eqb s' "}" then Some [] else scan_fields (String.length s') s'.

(** The text of one value and of one field, without separators. *)
Definition value_text (v : jval) : string :=
  match v with
  | JInt n => XToString n
  | JBool b => if b then "true" else "false"
  | JStr s => str1 dquote +:+ escape s +:+ str1 dquote
  end.
Definition field_text (f : string * jval) : string :=
  str1 dquote +:+ escape (f.1) +:+ str1 dquote +:+ ":" +:+ value_text (f.2).
Fixpoint fields_text (fs : list (string * jval)) : string :=
  match fs with
  | [] => EmptyString
  | f :: fs' => "," +:+ field_text f +:+ fields_text fs'
  end.
End Json.
Import Json.

(** ** Lemmas *)

Lemma scan_escape_char c rest :
  scan_string (escape_char c +:+ rest) = (fun r => (String c r.1, r.2)) <$> scan_string rest.
Proof. destruct c as [[] [] [] [] [] [] [] []]; reflexivity. Qed.

Lemma scan_escape s rest :
  scan_string (escape s +:+ String dquote rest) = Some (s, rest).
Proof.
  induction s as [|c s IH]; cbn [escape]; [done|].
  rewrite str_app_assoc, scan_escape_char, IH. done.
Qed.

Lemma last_char_app a b d : last_char (a +:+ b) d = last_char b (last_char a d).
Proof. revert d; induction a as [|c a IH]; intros d; [done|]. rewrite str_app_cons. cbn. apply IH. Qed.

Definition opens (c : ascii) : bool := Ascii.eqb c "{" || Ascii.eqb c "[".

Lemma digit_char_closed d : 0 <= d < 10 ->
  opens (digit_char d) = false /\ Ascii.eqb dquote (digit_char d) = false /\
  Ascii.eqb "t" (digit_char d) = false /\ Ascii.eqb "f" (digit_char d) = false.
Proof.
  intros Hd. assert (d ∈ seqZ 0 10) as H by (apply elem_of_seqZ; lia). clear Hd. cbn in H.
  repeat (apply elem_of_cons in H as [->|H]; [done|]). by apply elem_of_nil in H.
Qed.

Lemma digits_go_last fuel n acc d : acc <> EmptyString ->
  last_char (digits_go fuel 10 n acc) d = last_char acc d.
Proof.
  revert n acc; induction fuel as [|fuel IH]; intros n acc Ha; cbn [digits_go].
  - cbn. by destruct acc.
  - destruct (n <? 10); [by destruct acc|]. rewrite IH by done. by destruct acc.
Qed.

Lemma digits_last n d : exists k, last_char (digits 10 n) d = digit_char k /\ 0 <= k < 10.
Proof.
  exists (n mod 10). split; [|by apply Z.mod_pos_bound].
  unfold digits. destruct (Z.to_nat (Z.log2 n)); cbn [digits_go]; [done|].
  destruct (n <? 10); [done|]. by rewrite digits_go_last.
Qed.

Lemma value_text_closed v d : opens (last_char (value_text v) d) = false.
Proof.
  destruct v as [n|[]|s]; cbn [value_text]; [|done..|].
  - unfold XToString. destruct (n <? 0); cbn [last_char];
      edestruct digits_last as (k&->&Hk); by apply digit_char_closed.
  - by rewrite !last_char_app.
Qed.

Lemma append_text j v : append j v = j +:+ value_text v.
Proof. by destruct v as [|[]|]. Qed.

Lemma appendField_text j f :
  appendField j f = j +:+ (if opens (last_char j NUL) then EmptyString else ",") +:+ field_text f.
Proof.
  unfold appendField, appendFieldName, appendString, field_text, opens. rewrite append_text.
  destruct (Ascii.eqb _ "{"), (Ascii.eqb _ "["); cbn; rewrite ?str_app_assoc; done.
Qed.

Lemma fold_fields_text fs j :
  opens (last_char j NUL) = false -> fold_left appendField fs j = j +:+ fields_text fs.
Proof.
  revert j; induction fs as [|f fs IH]; intros j Hj; cbn [fold_left fields_text].
  - by rewrite str_app_nil_r.
  - rewrite appendField_text, Hj, IH; [by rewrite !str_app_assoc|].
    unfold field_text. rewrite !last_char_app. apply value_text_closed.
Qed.

Lemma render_text f fs : render (f :: fs) = "{" +:+ field_text f +:+ fields_text fs +:+ "}".
Proof.
  unfold render, json_str, json_new. cbn [fold_left]. rewrite appendField_text.
  rewrite fold_fields_text; [by rewrite ?str_app_assoc|].
  unfold field_text. rewrite !last_char_app. apply value_text_closed.
Qed.

(** A text that follows a value: it does not extend a run of digits. *)
Definition stops (rest : string) : Prop :=
  forall acc seen, scan_digits 10 rest acc seen = (acc, seen, rest).

Lemma digits_first n rest : 0 <= n ->
  exists d u, digits 10 n +:+ rest = String (digit_char d) u /\ 0 <= d < 10.
Proof.
  intros Hn. destruct (decide (n = 0)) as [->|].
  - exists 0, rest. split; [reflexivity|lia].
  - destruct (digits_head n) as (d&u&->&Hd); [lia|]. exists d, (u +:+ rest).
    by rewrite str_app_cons; eauto with lia.
Qed.

Lemma scan_value_number s rest v sign :
  expect dquote s = None -> scan_word "true" s = None -> scan_word "false" s = None ->
  sign_of s = (sign, digits 10 v +:+ rest) -> 0 <= v -> stops rest ->
  scan_value s = Some (JInt (sign * v), rest).
Proof.
  intros H1 H2 H3 H4 Hv Hr. unfold scan_value. rewrite H1, H2, H3, H4.
  cbv beta iota. by rewrite scan_digits_app by (try done; lia).
Qed.

Lemma scan_value_text v rest : stops rest -> scan_value (value_text v +:+ rest) = Some (v, rest).
Proof.
  intros Hr. destruct v as [n|[]|s]; [|reflexivity..|].
  - cbn [value_text]. destruct (XToString_scan n rest) as [[] [-> Hn]].
    + rewrite (scan_value_number _ rest (- n) (-1)); try done; try lia.
      f_equal. f_equal. f_equal. lia.
    + destruct (digits_first n rest Hn) as (d&u&E&Hd).
      destruct (digit_char_closed d Hd) as (_&Hq&Ht&Hf).
      destruct (digit_char_facts d Hd) as (_&Hm&Hp&_).
      rewrite (scan_value_number _ rest n 1); try done.
      * f_equal. f_equal. f_equal. lia.
      * rewrite E. cbn. by rewrite Hq.
      * rewrite E. unfold scan_word. cbn [str_prefix]. by rewrite Ht.
      * rewrite E. unfold scan_word. cbn [str_prefix]. by rewrite Hf.
      * rewrite E. cbn. by rewrite Hm, Hp.
  - cbn [value_text]. rewrite !str_app_assoc. unfold scan_value.
    change (expect dquote (str1 dquote +:+ ?x)) with (Some x).
    change (str1 dquote +:+ rest) with (String dquote rest). cbv beta iota.
    by rewrite scan_escape.
Qed.

Lemma scan_field_text f rest : stops rest -> scan_field (field_text f +:+ rest) = Some (f, rest).
Proof.
  intros Hr. destruct f as [k v]. unfold scan_field, field_text. rewrite !str_app_assoc. cbn [fst snd].
  change (expect dquote (str1 dquote +:+ ?x)) with (Some x).
  change (str1 dquote +:+ ?x) with (String dquote x). cbn [mbind option_bind].
  rewrite scan_escape. cbn [mbind option_bind fst snd].
  change (expect ":" (":" +:+ ?x)) with (Some x). cbn [mbind option_bind].
  by rewrite scan_value_text.
Qed.

Lemma scan_fields_text fs : forall f fuel, (length fs < fuel)%nat ->
  scan_fields fuel (field_text f +:+ fields_text fs +:+ "}") = Some (f :: fs).
Proof.
  induction fs as [|g fs IH]; intros f [|fuel] Hf; cbn in Hf; try lia; cbn [scan_fields fields_text].
  - by rewrite scan_field_text.
  - rewrite !str_app_assoc. rewrite scan_field_text by done. cbn [mbind option_bind fst snd].
    change (expect "}" ("," +:+ ?x)) with (@None string).
    change (expect "," ("," +:+ ?x)) with (Some x). cbn [mbind option_bind].
    rewrite IH by lia. done.
Qed.

Lemma fields_text_length fs : (length fs <= String.length (fields_text fs))%nat.
Proof.
  induction fs as [|f fs IH]; cbn [length fields_text]; [lia|]. rewrite !str_app_length. cbn. lia.
Qed.

Lemma json_parse_render fields : parse (render fields) = Some fields.
Proof.
  destruct fields as [|f fs]; [done|]. rewrite render_text. unfold parse.
  change (expect "{" ("{" +:+ ?x)) with (Some x). cbn [mbind option_bind].
  destruct (String.eqb_spec (field_text f +:+ fields_text fs +:+ "}") "}") as [E|_]; [by destruct f|].
  apply scan_fields_text. rewrite !str_app_length. pose proof (fields_text_length fs). cbn. lia.
Qed.

(** What the JSON writer prints for any list of fields is read back by a JSON
    reader as exactly those fields: names and strings are escaped so that every
    byte comes back, numbers and booleans keep their values, and the separators
    are in place. *)
Theorem json_render_parse fields : parse (render fields) = Some fields.
Proof. apply json_parse_render. Qed.
