(* ===== verification/Message.v ===== *)
(** * The message protocol

    The message struct, its types and its checks (src/dmtcpmessagetypes.h,
    src/dmtcpmessagetypes.cpp), the coordinator commands and their names, the
    command parser (src/coordinatorapi.cpp) and the JSON form of a reply. *)

From Stdlib Require Import ZArith Lia Ascii.
From stdpp Require Import base list strings numbers.
From S2P Require Import Prelude CText Identity Json.
Import Convert Json.
Open Scope Z_scope.

(** ** Enumerations *)

Inductive DmtcpMessageType : Type :=
| DMT_NULL | DMT_NEW_WORKER | DMT_NAME_SERVICE_WORKER | DMT_RESTART_WORKER | DMT_ACCEPT
| DMT_REJECT_NOT_RESTARTING | DMT_REJECT_WRONG_COMP | DMT_REJECT_NOT_RUNNING
| DMT_REJECT_RESTART_PEER_MISMATCH
| DMT_UPDATE_PROCESS_INFO_AFTER_FORK | DMT_UPDATE_PROCESS_INFO_AFTER_INIT_OR_EXEC
| DMT_GET_CKPT_DIR | DMT_GET_CKPT_DIR_RESULT | DMT_UPDATE_CKPT_DIR | DMT_CKPT_FILENAME
| DMT_UNIQUE_CKPT_FILENAME | DMT_USER_CMD | DMT_USER_CMD_RESULT
| DMT_DO_CHECKPOINT | DMT_BARRIER | DMT_BARRIER_RELEASED | DMT_WORKER_RESUMING | DMT_KILL_PEER
| DMT_KVDB_REQUEST | DMT_KVDB_RESPONSE.
#[export] Instance DmtcpMessageType_eq_dec : EqDecision DmtcpMessageType.
Proof. solve_decision. Defined.

Inductive CoordinatorCmd : Type :=
| DMT_INVALID_COORDINATOR_COMMAND | DMT_STATUS | DMT_LIST | DMT_CHECKPOINT | DMT_BLOCKING_CKPT
| DMT_KILL_AFTER_CKPT | DMT_UPDATE_CKPT_INTERVAL | DMT_KILL | DMT_QUIT | DMT_HELP.
#[export] Instance CoordinatorCmd_eq_dec : EqDecision CoordinatorCmd.
Proof. solve_decision. Defined.

Inductive CoordinatorCmdStatus : Type :=
| DMT_COORD_SUCCESS | DMT_COORD_INVALID_COMMAND | DMT_COORD_NOT_RUNNING | DMT_COORD_NOT_FOUND.
#[export] Instance CoordinatorCmdStatus_eq_dec : EqDecision CoordinatorCmdStatus.
Proof. solve_decision. Defined.

(** [kvdb::KVDBRequest] has a fixed underlying type, so a received word may be
    no enumerator at all. *)
Inductive KVDBRequest : Type :=
| KVDB_GET | KVDB_SET | KVDB_INCRBY | KVDB_AND | KVDB_OR | KVDB_XOR | KVDB_MIN | KVDB_MAX
| KVDB_UNNAMED (word : Z).
#[export] Instance KVDBRequest_eq_dec : EqDecision KVDBRequest.
Proof. solve_decision. Defined.

Inductive KVDBResponse : Type :=
| KVDB_SUCCESS | KVDB_INVALID_REQUEST | KVDB_DB_NOT_FOUND | KVDB_KEY_NOT_FOUND.
#[export] Instance KVDBResponse_eq_dec : EqDecision KVDBResponse.
Proof. solve_decision. Defined.

(** ** The message struct *)

(** [sizeof(DmtcpMessage)]: 16 + 64 + 8 bytes of arrays and unions, then the
    scalar members, with no padding on a 64-bit system. *)
Definition sizeof_DmtcpMessage : Z := 208.
Definition DMTCP_MAX_MESSAGE_EXTRA_BYTES : Z := 1024 * 1024.
(** "DMTCP_CKPT_V0" and a line feed; [sizeof] counts the terminator too. *)
Definition DMTCP_MAGIC_STRING : string := "DMTCP_CKPT_V0" +:+ String (byte_of 10) EmptyString.
Definition SAME_CKPT_INTERVAL : Z := -1.   (* int32_t of DMTCPMESSAGE_SAME_CKPT_INTERVAL *)

Record DmtcpMessage : Type := mk_DmtcpMessage {
  msg_magicBits : string;          (* char[16] *)
  msg_barrier : string;            (* char[64], shared with nsid and kvdbId *)
  msg_kvdbRequest : KVDBRequest;   (* the union's word, as sent by a client *)
  msg_kvdbResponse : KVDBResponse; (* the union's word, as sent by the coordinator *)
  msg_msgSize : Z;
  msg_extraBytes : Z;
  msg_type : DmtcpMessageType;
  msg_state : eWorkerState;
  msg_from : UniquePid;
  msg_compGroup : UniquePid;
  msg_virtualPid : Z;
  msg_realPid : Z;
  msg_keyLen : Z;
  msg_valLen : Z;
  msg_numPeers : Z;
  msg_isRunning : Z;
  msg_coordCmd : CoordinatorCmd;
  msg_coordCmdStatus : CoordinatorCmdStatus;
  msg_coordTimeStamp : Z;
  msg_theCheckpointInterval : Z;
  msg_ipAddr : Z;
  msg_uniqueIdOffset : Z;
  msg_exitAfterCkpt : Z
}.
#[export] Instance eta_DmtcpMessage : Settable DmtcpMessage :=
  {| eta_of m := mk_DmtcpMessage (msg_magicBits m) (msg_barrier m) (msg_kvdbRequest m)
       (msg_kvdbResponse m) (msg_msgSize m) (msg_extraBytes m) (msg_type m) (msg_state m)
       (msg_from m) (msg_compGroup m) (msg_virtualPid m) (msg_realPid m) (msg_keyLen m)
       (msg_valLen m) (msg_numPeers m) (msg_isRunning m) (msg_coordCmd m) (msg_coordCmdStatus m)
       (msg_coordTimeStamp m) (msg_theCheckpointInterval m) (msg_ipAddr m)
       (msg_uniqueIdOffset m) (msg_exitAfterCkpt m) |}.

Definition msg_kvdbId (m : DmtcpMessage) : string := msg_barrier m.

(** What the constructor reads of its process, and the contents of the members
    it leaves uninitialised. *)
Record MsgEnv : Type := mk_MsgEnv {
  me_state : eWorkerState;
  me_this : UniquePid;
  me_garbage : Z;
  me_garbageRequest : KVDBRequest;
  me_garbageResponse : KVDBResponse
}.

Definition DmtcpMessage_new (e : MsgEnv) (t : DmtcpMessageType) : DmtcpMessage := {|
  msg_magicBits := char_array 16 DMTCP_MAGIC_STRING;
  msg_barrier := char_array 64 EmptyString;
  msg_kvdbRequest := me_garbageRequest e;
  msg_kvdbResponse := me_garbageResponse e;
  msg_msgSize := sizeof_DmtcpMessage;
  msg_extraBytes := 0;
  msg_type := t;
  msg_state := me_state e;
  msg_from := me_this e;
  msg_compGroup := UniquePid_default (me_garbage e);
  msg_virtualPid := -1;
  msg_realPid := -1;
  msg_keyLen := 0;
  msg_valLen := 0;
  msg_numPeers := 0;
  msg_isRunning := 0;
  msg_coordCmd := DMT_INVALID_COORDINATOR_COMMAND;
  msg_coordCmdStatus := DMT_COORD_SUCCESS;
  msg_coordTimeStamp := 0;
  msg_theCheckpointInterval := SAME_CKPT_INTERVAL;
  msg_ipAddr := 0;
  msg_uniqueIdOffset := me_garbage e;
  msg_exitAfterCkpt := 0
|}.

(** [memcmp(magic, DMTCP_MAGIC_STRING, sizeof(DMTCP_MAGIC_STRING)) == 0]. *)
Definition messageMagicIsValid (magic : string) : bool :=
  String.eqb (str_take 15 magic) (DMTCP_MAGIC_STRING +:+ NUL_str).

Definition messageExtraBytesIsValid (extraBytes : Z) : bool :=
  extraBytes <=? DMTCP_MAX_MESSAGE_EXTRA_BYTES.

(** [isValid]: the checks in turn, each with an early return. *)
Definition isValid (m : DmtcpMessage) : bool :=
  if negb (messageMagicIsValid (msg_magicBits m)) then false
  else if negb (msg_msgSize m =? sizeof_DmtcpMessage) then false
  else if negb (messageExtraBytesIsValid (msg_extraBytes m)) then false
  else true.

(** [assertValid]: three ASSERTs. *)
Definition assertValid {S} (m : DmtcpMessage) : M S unit :=
  assertM (messageMagicIsValid (msg_magicBits m)) "read invalid message, _magicBits mismatch";;
  assertM (msg_msgSize m =? sizeof_DmtcpMessage) "read invalid message, size mismatch";;
  assertM (messageExtraBytesIsValid (msg_extraBytes m)) "read invalid message, extraBytes too large".

Definition poison (m : DmtcpMessage) : DmtcpMessage :=
  m <| msg_magicBits := char_array 16 EmptyString |>.

(** ** Commands *)

Definition coordinatorCmdName (command : CoordinatorCmd) : string :=
  match command with
  | DMT_INVALID_COORDINATOR_COMMAND => "DMT_INVALID_COORDINATOR_COMMAND"
  | DMT_STATUS => "DMT_STATUS"
  | DMT_LIST => "DMT_LIST"
  | DMT_CHECKPOINT => "DMT_CHECKPOINT"
  | DMT_BLOCKING_CKPT => "DMT_BLOCKING_CKPT"
  | DMT_KILL_AFTER_CKPT => "DMT_KILL_AFTER_CKPT"
  | DMT_UPDATE_CKPT_INTERVAL => "DMT_UPDATE_CKPT_INTERVAL"
  | DMT_KILL => "DMT_KILL"
  | DMT_QUIT => "DMT_QUIT"
  | DMT_HELP => "DMT_HELP"
  end.

Definition coordinatorCmdStatusName (response : CoordinatorCmdStatus) : string :=
  match response with
  | DMT_COORD_SUCCESS => "DMT_COORD_SUCCESS"
  | DMT_COORD_INVALID_COMMAND => "DMT_COORD_INVALID_COMMAND"
  | DMT_COORD_NOT_RUNNING => "DMT_COORD_NOT_RUNNING"
  | DMT_COORD_NOT_FOUND => "DMT_COORD_NOT_FOUND"
  end.

(** [operator<<] for message types: the enumerator's name. *)
Definition messageTypeName (s : DmtcpMessageType) : string :=
  match s with
  | DMT_NULL => "DMT_NULL" | DMT_NEW_WORKER => "DMT_NEW_WORKER"
  | DMT_NAME_SERVICE_WORKER => "DMT_NAME_SERVICE_WORKER"
  | DMT_RESTART_WORKER => "DMT_RESTART_WORKER" | DMT_ACCEPT => "DMT_ACCEPT"
  | DMT_REJECT_NOT_RESTARTING => "DMT_REJECT_NOT_RESTARTING"
  | DMT_REJECT_WRONG_COMP => "DMT_REJECT_WRONG_COMP"
  | DMT_REJECT_NOT_RUNNING => "DMT_REJECT_NOT_RUNNING"
  | DMT_REJECT_RESTART_PEER_MISMATCH => "DMT_REJECT_RESTART_PEER_MISMATCH"
  | DMT_UPDATE_PROCESS_INFO_AFTER_FORK => "DMT_UPDATE_PROCESS_INFO_AFTER_FORK"
  | DMT_UPDATE_PROCESS_INFO_AFTER_INIT_OR_EXEC => "DMT_UPDATE_PROCESS_INFO_AFTER_INIT_OR_EXEC"
  | DMT_GET_CKPT_DIR => "DMT_GET_CKPT_DIR" | DMT_GET_CKPT_DIR_RESULT => "DMT_GET_CKPT_DIR_RESULT"
  | DMT_UPDATE_CKPT_DIR => "DMT_UPDATE_CKPT_DIR" | DMT_CKPT_FILENAME => "DMT_CKPT_FILENAME"
  | DMT_UNIQUE_CKPT_FILENAME => "DMT_UNIQUE_CKPT_FILENAME" | DMT_USER_CMD => "DMT_USER_CMD"
  | DMT_USER_CMD_RESULT => "DMT_USER_CMD_RESULT" | DMT_DO_CHECKPOINT => "DMT_DO_CHECKPOINT"
  | DMT_BARRIER => "DMT_BARRIER" | DMT_BARRIER_RELEASED => "DMT_BARRIER_RELEASED"
  | DMT_WORKER_RESUMING => "DMT_WORKER_RESUMING" | DMT_KILL_PEER => "DMT_KILL_PEER"
  | DMT_KVDB_REQUEST => "DMT_KVDB_REQUEST" | DMT_KVDB_RESPONSE => "DMT_KVDB_RESPONSE"
  end.

(** The loop that steps over leading dashes. *)
Fixpoint skip_dashes (s : string) : string :=
  match s with
  | String c s' => if Ascii.eqb c "-" then skip_dashes s' else s
  | EmptyString => EmptyString
  end.

Definition is_one_of (s : string) (l : list string) : bool := existsb (String.eqb s) l.

(** [CoordinatorAPI::parseCoordinatorCmd]; a null pointer is [None]. *)
Definition parseCoordinatorCmd (command : option string) : CoordinatorCmd :=
  match command with
  | None => DMT_INVALID_COORDINATOR_COMMAND
  | Some command =>
      let c := skip_dashes command in
      if is_one_of c ["s"; "status"] then DMT_STATUS
      else if is_one_of c ["l"; "t"; "list"] then DMT_LIST
      else if is_one_of c ["c"; "checkpoint"] then DMT_CHECKPOINT
      else if is_one_of c ["bc"; "bcheckpoint"] then DMT_BLOCKING_CKPT
      else if is_one_of c ["kc"; "ck"; "K"; "Kc"; "kcheckpoint"] then DMT_KILL_AFTER_CKPT
      else if is_one_of c ["i"; "interval"] then DMT_UPDATE_CKPT_INTERVAL
      else if is_one_of c ["k"; "kill"] then DMT_KILL
      else if is_one_of c ["q"; "quit"] then DMT_QUIT
      else if is_one_of c ["h"; "help"; "?"] then DMT_HELP
      else DMT_INVALID_COORDINATOR_COMMAND
  end.

(** ** The JSON form of a reply *)

Definition JSON_SCHEMA_VERSION : Z := 1.

Definition toCoordinatorCmdJson (m : DmtcpMessage) (coordHost : string) (coordPort : Z)
    (extraData : option string) : string :=
  let json := json_new in
  let json := appendField json ("schema_version", JInt JSON_SCHEMA_VERSION) in
  let json := appendField json ("command", JStr (coordinatorCmdName (msg_coordCmd m))) in
  let json := appendField json ("command_status", JStr (coordinatorCmdStatusName (msg_coordCmdStatus m))) in
  let json := appendField json ("coordinator_host", JStr coordHost) in
  let json := appendField json ("coordinator_port", JInt coordPort) in
  if negb (bool_decide (msg_coordCmdStatus m = DMT_COORD_SUCCESS)) then json_str json
  else
    let json :=
      if bool_decide (msg_coordCmd m = DMT_STATUS) then
        let json := appendField json ("num_peers", JInt (msg_numPeers m)) in
        let json := appendField json ("running", JBool (negb (msg_isRunning m =? 0))) in
        appendField json ("checkpoint_interval", JInt (msg_theCheckpointInterval m))
      else if bool_decide (msg_coordCmd m = DMT_LIST) then
        appendField json ("workers", JStr (default EmptyString extraData))
      else if bool_decide (msg_coordCmd m = DMT_CHECKPOINT) ||
              bool_decide (msg_coordCmd m = DMT_BLOCKING_CKPT) ||
              bool_decide (msg_coordCmd m = DMT_KILL_AFTER_CKPT) then
        appendField json ("num_peers", JInt (msg_numPeers m))
      else if bool_decide (msg_coordCmd m = DMT_UPDATE_CKPT_INTERVAL) then
        appendField json ("checkpoint_interval", JInt (msg_theCheckpointInterval m))
      else json
    in json_str json.

(** The fields a reply promises to its reader. *)
Definition reply_fields (m : DmtcpMessage) (host : string) (port : Z) (extra : option string)
    : list (string * jval) :=
  [("schema_version", JInt 1);
   ("command", JStr (coordinatorCmdName (msg_coordCmd m)));
   ("command_status", JStr (coordinatorCmdStatusName (msg_coordCmdStatus m)));
   ("coordinator_host", JStr host); ("coordinator_port", JInt port)] ++
  match msg_coordCmdStatus m, msg_coordCmd m with
  | DMT_COORD_SUCCESS, DMT_STATUS =>
      [("num_peers", JInt (msg_numPeers m)); ("running", JBool (negb (msg_isRunning m =? 0)));
       ("checkpoint_interval", JInt (msg_theCheckpointInterval m))]
  | DMT_COORD_SUCCESS, DMT_LIST => [("workers", JStr (default EmptyString extra))]
  | DMT_COORD_SUCCESS, (DMT_CHECKPOINT | DMT_BLOCKING_CKPT | DMT_KILL_AFTER_CKPT) =>
      [("num_peers", JInt (msg_numPeers m))]
  | DMT_COORD_SUCCESS, DMT_UPDATE_CKPT_INTERVAL =>
      [("checkpoint_interval", JInt (msg_theCheckpointInterval m))]
  | _, _ => []
  end.

(** ** Lemmas *)

Lemma isValid_new e t : isValid (DmtcpMessage_new e t) = true.
Proof. done. Qed.

Lemma isValid_poison m : isValid (poison m) = false.
Proof. done. Qed.

Lemma assertValid_isValid {S} (m : DmtcpMessage) (s : S) :
  isValid m = true <-> assertValid m s = Ok tt s.
Proof.
  unfold isValid, assertValid, assertM.
  destruct (messageMagicIsValid _); [|done]. destruct (_ =? _); [|done].
  by destruct (messageExtraBytesIsValid _).
Qed.

Lemma coordinatorCmdName_inj a b : coordinatorCmdName a = coordinatorCmdName b -> a = b.
Proof. by destruct a, b. Qed.

(** The JSON reply of dmtcp_command reads back, for every message, host name,
    port and worker list, as the promised fields: the version, command, status
    and coordinator address always, and the result fields of the command exactly
    when the status is success. *)
Theorem reply_json_fields m host port extra :
  parse (toCoordinatorCmdJson m host port extra) = Some (reply_fields m host port extra).
Proof.
  rewrite <- (json_parse_render (reply_fields m host port extra)). f_equal.
  unfold toCoordinatorCmdJson, reply_fields, render.
  destruct (msg_coordCmdStatus m); [destruct (msg_coordCmd m)|..]; reflexivity.
Qed.

(** Message validity is one notion.  A freshly built message is valid, a
    poisoned one never is, [assertValid] passes exactly on the messages
    [isValid] accepts, and an accepted message never announces a payload of
    more than one megabyte. *)
Theorem message_validity {S} (e : MsgEnv) t (m : DmtcpMessage) (s : S) :
  isValid (DmtcpMessage_new e t) = true /\ isValid (poison m) = false /\
  (isValid m = true <-> assertValid m s = Ok tt s) /\
  (isValid m = true -> msg_extraBytes m <= 1048576).
Proof.
  split_and!; [done|done|apply assertValid_isValid|].
  unfold isValid, messageExtraBytesIsValid, DMTCP_MAX_MESSAGE_EXTRA_BYTES.
  destruct (messageMagicIsValid _), (msg_msgSize m =? _); cbn; try done.
  destruct (_ <=? _) eqn:E; [|done]. intros _. apply Z.leb_le in E. lia.
Qed.
