(* ===== verification/Lookup.v ===== *)
(** * The key-value database

    [LookupService] (src/lookup_service.cpp) is the coordinator's store of
    databases; [dmtcp::kvdb] (src/kvdb.cpp) with [CoordinatorAPI::kvdbRequest]
    (src/coordinatorapi.cpp) is the client.  The end-to-end theorems run the
    client's encoding, the service and the client's decoding together. *)

From Stdlib Require Import ZArith Lia Ascii.
From stdpp Require Import base gmap list strings numbers.
From S2P Require Import Prelude CText Identity Json Message.
Import Tokenize Convert Json.
Open Scope Z_scope.

(** ** The interface: what a store of databases promises *)

Class KVStore (St : Type) : Type := {
  kv_get : St -> string -> string -> option string;
  kv_set : St -> string -> string -> string -> St;
  kv_reset : St -> St;
  kv_get_set_same : forall s id key v, kv_get (kv_set s id key v) id key = Some v;
  kv_get_set_other : forall s id key id' key' v,
    (id, key) <> (id', key') -> kv_get (kv_set s id key v) id' key' = kv_get s id' key';
  kv_get_reset : forall s id key, kv_get (kv_reset s) id key = None
}.

(** ** The service *)

Module LookupService.
(** [map<string, KeyValueMap> _maps]. *)
Abbreviation KeyValueMap := (gmap string string).
Abbreviation t := (gmap string (gmap string string)).

Definition reset (svc : t) : t := ∅.

(** [_maps[id]]: creates the database when it is absent. *)
Definition db (svc : t) (id : string) : KeyValueMap := default ∅ (svc !! id).

Definition set (svc : t) (id key val : string) : t := <[id := <[key := val]> (db svc id)]> svc.

(** [get]: the response and what was written to [*val], if anything. *)
Definition get (svc : t) (id key : string) : KVDBResponse * option string :=
  match svc !! id with
  | None => (KVDB_DB_NOT_FOUND, None)
  | Some kvmap =>
      match kvmap !! key with
      | None => (KVDB_KEY_NOT_FOUND, None)
      | Some v => (KVDB_SUCCESS, Some v)
      end
  end.

(** A reply: the header and the bytes written after it. *)
Definition sendResponse (e : MsgEnv) (response : KVDBResponse) : DmtcpMessage * string :=
  ((DmtcpMessage_new e DMT_KVDB_RESPONSE) <| msg_kvdbResponse := response |>, EmptyString).

Definition sendResponseVal (e : MsgEnv) (val : string) : DmtcpMessage * string :=
  let len := to_uint32 (Z.of_nat (String.length val) + 1) in
  ((DmtcpMessage_new e DMT_KVDB_RESPONSE) <| msg_kvdbResponse := KVDB_SUCCESS |>
     <| msg_valLen := len |> <| msg_extraBytes := len |>,
   val +:+ NUL_str).

(** Reading a [char *] out of the payload, and the [kvdbId] array of the header. *)
Definition payload_str (extraData : option string) (off : Z) : M t string :=
  optM (OutOfBounds "KVDB payload")
    (match extraData with Some b => c_str_at b (Z.to_nat off) | None => None end).
Definition kvdbId_str (m : DmtcpMessage) : M t string :=
  optM (OutOfBounds "kvdbId") (c_str (msg_kvdbId m)).

Definition processGet (e : MsgEnv) (m : DmtcpMessage) (extraData : option string)
    : M t (DmtcpMessage * string) :=
  key ← payload_str extraData 0;
  id ← kvdbId_str m;
  r ← gets (fun svc => get svc id key);
  match r with
  | (KVDB_SUCCESS, Some val) => mret (sendResponseVal e val)
  | (response, _) => mret (sendResponse e response)
  end.

(** The switch over the arithmetic requests. *)
Definition arith (req : KVDBRequest) (oldVal64 val64 : Z) : M t Z :=
  match req with
  | KVDB_INCRBY =>
      if in_int64 (oldVal64 + val64) then mret (oldVal64 + val64)
      else faultM (SignedOverflow "INCRBY")
  | KVDB_OR => mret (Z.lor oldVal64 val64)
  | KVDB_XOR => mret (Z.lxor oldVal64 val64)
  | KVDB_AND => mret (Z.land oldVal64 val64)
  | KVDB_MIN => mret (if oldVal64 <? val64 then oldVal64 else val64)
  | KVDB_MAX => mret (if val64 <? oldVal64 then oldVal64 else val64)
  | _ => faultM (AssertFailed "Invalid KVDB operation")
  end.

Definition processSet (e : MsgEnv) (m : DmtcpMessage) (extraData : option string)
    : M t (DmtcpMessage * string) :=
  id ← kvdbId_str m;
  modify (fun svc => <[id := db svc id]> svc);;
  key ← payload_str extraData 0;
  old ← gets (fun svc => default "0" (get svc id key).2);
  valueIt ← gets (fun svc => db svc id !! key);
  val ← payload_str extraData (msg_keyLen m);
  (if bool_decide (msg_kvdbRequest m = KVDB_SET) || bool_decide (valueIt = None) then
     modify (fun svc => set svc id key val)
   else
     val64 ← optM (AssertFailed "conversion failed") (StringToInt64 val);
     oldVal64 ← optM (AssertFailed "conversion failed") (StringToInt64 (default EmptyString valueIt));
     new ← arith (msg_kvdbRequest m) oldVal64 val64;
     modify (fun svc => set svc id key (XToString new)));;
  mret (sendResponseVal e old).

(** The sum in the size check is of two [uint32_t]. *)
Definition processRequest (e : MsgEnv) (m : DmtcpMessage) (extraData : option string)
    : M t (DmtcpMessage * string) :=
  assertM ((0 <? msg_keyLen m) && (0 <? msg_valLen m) &&
           (to_uint32 (msg_keyLen m + msg_valLen m) =? msg_extraBytes m))
          "invalid KVDB payload sizes";;
  if bool_decide (msg_kvdbRequest m = KVDB_GET) then processGet e m extraData
  else processSet e m extraData.

(** ** Writing the store to a file (the texts streamed, in order) *)

(** [std::quoted]. *)
Fixpoint quoted_body (s : string) : string :=
  match s with
  | EmptyString => EmptyString
  | String c s' =>
      if Ascii.eqb c dquote || Ascii.eqb c backslash then String backslash (String c (quoted_body s'))
      else String c (quoted_body s')
  end.
Definition quoted (s : string) : string := str1 dquote +:+ quoted_body s +:+ str1 dquote.

Definition newline : string := String (byte_of 10) EmptyString.
Definition has_newline (s : string) : bool :=
  match find_first_of s newline 0 with Some _ => true | None => false end.

(** [serialize(o, str)]; [lines[0]] of no line at all is out of bounds. *)
Definition serialize_str (str : string) : option string :=
  if negb (has_newline str) then Some (quoted str)
  else
    match tokenizeString str newline false with
    | [] => None
    | l0 :: lines =>
        Some (" [" +:+ newline +:+ "      " +:+ quoted l0 +:+
              String.concat EmptyString
                (map (fun l => "," +:+ newline +:+ "      " +:+ quoted l) lines) +:+
              newline +:+ "    ]")
    end.

(** Iteration order of [std::map]: increasing keys. *)
Fixpoint str_ltb (a b : string) : bool :=
  match a, b with
  | _, EmptyString => false
  | EmptyString, String _ _ => true
  | String x a', String y b' =>
      (byte_val x <? byte_val y) || ((byte_val x =? byte_val y) && str_ltb a' b')
  end.
Fixpoint insert_sorted {V} (kv : string * V) (l : list (string * V)) : list (string * V) :=
  match l with
  | [] => [kv]
  | h :: l' => if str_ltb (kv.1) (h.1) then kv :: l else h :: insert_sorted kv l'
  end.
Definition in_order {V} (m : gmap string V) : list (string * V) :=
  foldr insert_sorted [] (map_to_list m).

(** The comma-separated entries of an object, each by [ser]. *)
Fixpoint entries {V} (indent : string) (ser : V -> option string) (l : list (string * V)) (first : bool)
    : option string :=
  match l with
  | [] => Some EmptyString
  | (k, v) :: l' =>
      t ← ser v;
      rest ← entries indent ser l' false;
      Some ((if first then EmptyString else "," +:+ newline) +:+ indent +:+ quoted k +:+ ": " +:+ t +:+ rest)
  end.

Definition serialize_map (kvmap : KeyValueMap) : option string :=
  body ← entries "    " serialize_str (in_order kvmap) true;
  Some ("{" +:+ newline +:+ body +:+ newline +:+ "  }").

Definition serialize (svc : t) : option string :=
  body ← entries "  " serialize_map (in_order svc) true;
  Some ("{" +:+ newline +:+ body +:+ newline +:+ "}").
End LookupService.
Import LookupService.

(** ** The client *)

Module Kvdb.
(** [kvdb::request] up to the call of [kvdbRequest]: an immediate answer, or
    the header and the two buffers written to the socket. *)
Definition request (e : MsgEnv) (req : KVDBRequest) (id key val : string)
    : KVDBResponse + (DmtcpMessage * string) :=
  if String.eqb id EmptyString || String.eqb key EmptyString then inl KVDB_INVALID_REQUEST
  else if String.eqb val EmptyString && negb (bool_decide (req = KVDB_GET)) then
    inl KVDB_INVALID_REQUEST
  else
    let keyLen := to_uint32 (Z.of_nat (String.length key) + 1) in
    let valLen := to_uint32 (Z.of_nat (String.length val) + 1) in
    inr ((DmtcpMessage_new e DMT_KVDB_REQUEST)
           <| msg_kvdbRequest := req |>
           <| msg_barrier := char_array 64 (str_take 63 id +:+ NUL_str) |>
           <| msg_keyLen := keyLen |> <| msg_valLen := valLen |>
           <| msg_extraBytes := to_uint32 (keyLen + valLen) |>,
         str_take (Z.to_nat keyLen) (key +:+ NUL_str) +:+
         str_take (Z.to_nat valLen) (val +:+ NUL_str)).

(** [kvdbRequest] after the reply header and payload have been read. *)
Definition receive {S} (reply : DmtcpMessage) (payload : string) : M S (KVDBResponse * option string) :=
  assertValid reply;;
  assertM (bool_decide (msg_type reply = DMT_KVDB_RESPONSE)) "unexpected KVDB reply type";;
  if msg_extraBytes reply =? 0 then mret (msg_kvdbResponse reply, None)
  else
    assertM (msg_valLen reply <=? msg_extraBytes reply) "invalid KVDB reply payload sizes";;
    mret (msg_kvdbResponse reply,
          Some (str_take (if msg_valLen reply =? 0 then 0 else Z.to_nat (msg_valLen reply - 1)) payload)).

(** One call: encode, serve, decode.  The socket that carries it is set up by the first call of a user thread
    (a connection registered with DMT_NAME_SERVICE_WORKER); here the connection is there. *)
Definition call (e : MsgEnv) (req : KVDBRequest) (id key val : string)
    : M LookupService.t (KVDBResponse * option string) :=
  match request e req id key val with
  | inl r => mret (r, None)
  | inr (m, payload) =>
      assertM (isValid m) "onData: assertValid";;
      reply ← processRequest e m (Some payload);
      receive (reply.1) (reply.2)
  end.

Definition request64 (e : MsgEnv) (req : KVDBRequest) (id key : string) (val : Z)
    : M LookupService.t (KVDBResponse * option Z) :=
  r ← call e req id key (XToString val);
  match r with
  | (KVDB_SUCCESS, old) =>
      v ← optM (AssertFailed "conversion failed") (StringToInt64 (default EmptyString old));
      mret (KVDB_SUCCESS, Some v)
  | (response, _) => mret (response, None)
  end.

Definition get64 (e : MsgEnv) (id key : string) := request64 e KVDB_GET id key 0.
Definition set64 (e : MsgEnv) (id key : string) (val : Z) := request64 e KVDB_SET id key val.
Definition kvget (e : MsgEnv) (id key : string) := call e KVDB_GET id key EmptyString.
Definition kvset (e : MsgEnv) (id key val : string) := call e KVDB_SET id key val.
End Kvdb.
Import Kvdb.

(** ** The abstract operations *)

(** The integer an arithmetic request leaves, [None] when it has none. *)
Definition kv_arith_spec (req : KVDBRequest) (old val : Z) : option Z :=
  match req with
  | KVDB_INCRBY => if in_int64 (old + val) then Some (old + val) else None
  | KVDB_OR => Some (Z.lor old val)
  | KVDB_XOR => Some (Z.lxor old val)
  | KVDB_AND => Some (Z.land old val)
  | KVDB_MIN => Some (Z.min old val)
  | KVDB_MAX => Some (Z.max old val)
  | _ => None
  end.

(** The value a request other than GET leaves under a key that held [old]. *)
Definition kv_new (req : KVDBRequest) (old : option string) (val : string) : option string :=
  match old, req with
  | None, _ | Some _, KVDB_SET => Some val
  | Some o, _ =>
      ov ← StringToInt64 o; v ← StringToInt64 val; XToString <$> kv_arith_spec req ov v
  end.

(** Arguments the client can carry: not empty, no NUL inside, short enough for
    the header and for the coordinator's payload limit. *)
Definition kv_args_ok (id key val : string) : Prop :=
  id <> EmptyString /\ key <> EmptyString /\ no_NUL id = true /\ no_NUL key = true /\
  no_NUL val = true /\ (String.length id <= 63)%nat /\
  Z.of_nat (String.length key) + Z.of_nat (String.length val) + 2 <= DMTCP_MAX_MESSAGE_EXTRA_BYTES.

Definition kv_lookup (svc : LookupService.t) (id key : string) : option string :=
  kvmap ← svc !! id; kvmap !! key.

(** ** Lemmas *)

Lemma kv_lookup_db svc id key : db svc id !! key = kv_lookup svc id key.
Proof. unfold db, kv_lookup. by destruct (svc !! id) as [?|] eqn:?. Qed.

Lemma kv_lookup_set_same svc id key v : kv_lookup (set svc id key v) id key = Some v.
Proof. unfold kv_lookup, set. by rewrite lookup_insert_eq; cbn; rewrite lookup_insert_eq. Qed.

Lemma kv_lookup_set_other svc id key id' key' v :
  (id, key) <> (id', key') -> kv_lookup (set svc id key v) id' key' = kv_lookup svc id' key'.
Proof.
  intros Hne. unfold set. destruct (decide (id = id')) as [->|].
  - unfold kv_lookup at 1. rewrite lookup_insert_eq. cbn.
    rewrite lookup_insert_ne by congruence. apply kv_lookup_db.
  - unfold kv_lookup. by rewrite lookup_insert_ne.
Qed.

#[export] Instance LookupService_KVStore : KVStore LookupService.t := {|
  kv_get := kv_lookup;
  kv_set := LookupService.set;
  kv_reset := LookupService.reset;
  kv_get_set_same := kv_lookup_set_same;
  kv_get_set_other := kv_lookup_set_other;
  kv_get_reset := fun _ _ _ => eq_refl
|}.

Lemma set_touch svc id key v : set (<[id := db svc id]> svc) id key v = set svc id key v.
Proof. unfold set, db. by rewrite lookup_insert_eq, insert_insert_eq. Qed.

Lemma get_touch svc id key : (get (<[id := db svc id]> svc) id key).2 = kv_lookup svc id key.
Proof.
  unfold get. rewrite lookup_insert_eq, <- kv_lookup_db. by destruct (db svc id !! key).
Qed.

Lemma db_touch svc id key : db (<[id := db svc id]> svc) id !! key = kv_lookup svc id key.
Proof. unfold db at 1. rewrite lookup_insert_eq. cbn. apply kv_lookup_db. Qed.

Lemma c_str_take n s r :
  (String.length s < n)%nat -> no_NUL s = true -> c_str (str_take n (s +:+ String NUL r)) = Some s.
Proof.
  revert n. induction s as [|c s IH]; intros n Hl Hn; (destruct n as [|n]; [cbn in Hl; lia|]).
  - done.
  - cbn in Hl, Hn. apply andb_prop in Hn as [Hc Hn]. rewrite str_app_cons. cbn [str_take c_str].
    apply negb_true_iff in Hc. rewrite Hc, IH by (done || lia). done.
Qed.

(** *** The two ends of the wire *)

Section wire.
Context (e : MsgEnv) (id key val : string).
Hypothesis Hok : kv_args_ok id key val.

Definition wire_msg (req : KVDBRequest) : DmtcpMessage :=
  (DmtcpMessage_new e DMT_KVDB_REQUEST)
    <| msg_kvdbRequest := req |>
    <| msg_barrier := char_array 64 (id +:+ NUL_str) |>
    <| msg_keyLen := Z.of_nat (String.length key) + 1 |>
    <| msg_valLen := Z.of_nat (String.length val) + 1 |>
    <| msg_extraBytes := Z.of_nat (String.length key) + Z.of_nat (String.length val) + 2 |>.

Lemma request_wire req : req = KVDB_GET \/ val <> EmptyString ->
  request e req id key val = inr (wire_msg req, key +:+ String NUL (val +:+ NUL_str)).
Proof.
  destruct Hok as (Hi & Hk & _ & _ & _ & Hl & Hb). intros Hv.
  unfold DMTCP_MAX_MESSAGE_EXTRA_BYTES in Hb. unfold request, wire_msg.
  rewrite (proj2 (String.eqb_neq _ _) Hi), (proj2 (String.eqb_neq _ _) Hk). cbn [orb].
  replace (String.eqb val EmptyString && negb (bool_decide (req = KVDB_GET))) with false.
  2:{ destruct Hv as [->|Hv]; [by rewrite bool_decide_true, andb_false_r|].
      by rewrite (proj2 (String.eqb_neq _ _) Hv). }
  unfold to_uint32. rewrite (wrap_u_small 32 (_ (String.length key) + 1)) by lia.
  rewrite (wrap_u_small 32 (_ (String.length val) + 1)) by lia. rewrite wrap_u_small by lia.
  rewrite (str_take_all 63) by done.
  rewrite !str_take_all by (rewrite str_app_length; change (String.length NUL_str) with 1%nat; lia).
  rewrite str_app_assoc.
  replace (Z.of_nat (String.length key) + 1 + (Z.of_nat (String.length val) + 1))
    with (Z.of_nat (String.length key) + Z.of_nat (String.length val) + 2) by lia.
  done.
Qed.

Lemma wire_valid req : isValid (wire_msg req) = true.
Proof.
  destruct Hok as (_ & _ & _ & _ & _ & _ & Hb). unfold isValid, wire_msg, messageExtraBytesIsValid. rsimpl.
  cbn [DmtcpMessage_new msg_magicBits msg_msgSize]. apply Z.leb_le in Hb. rewrite Hb. reflexivity.
Qed.

Lemma wire_key (svc : LookupService.t) :
  payload_str (Some (key +:+ String NUL (val +:+ NUL_str))) 0 svc = Ok key svc.
Proof.
  destruct Hok as (_ & _ & _ & Hk & _). unfold payload_str.
  pose proof (c_str_at_app EmptyString key (val +:+ NUL_str) 0 eq_refl Hk) as E.
  rewrite str_app_nil_l in E. change (Z.to_nat 0) with 0%nat. by rewrite E.
Qed.

Lemma wire_val req (svc : LookupService.t) :
  payload_str (Some (key +:+ String NUL (val +:+ NUL_str))) (msg_keyLen (wire_msg req)) svc = Ok val svc.
Proof.
  destruct Hok as (_ & _ & _ & Hk & Hv & _). unfold payload_str, wire_msg. rsimpl.
  change (String NUL (val +:+ NUL_str)) with (NUL_str +:+ (val +:+ NUL_str)).
  assert (E : Z.to_nat (Z.of_nat (String.length key) + 1) = String.length (key +:+ NUL_str))
    by (rewrite str_app_length; change (String.length NUL_str) with 1%nat; lia).
  rewrite <- str_app_assoc. unfold NUL_str at 2. by rewrite c_str_at_app.
Qed.

Lemma wire_id req (svc : LookupService.t) : kvdbId_str (wire_msg req) svc = Ok id svc.
Proof.
  destruct Hok as (_ & _ & Hi & _ & _ & Hl & _). unfold kvdbId_str, msg_kvdbId, wire_msg. rsimpl.
  unfold char_array. rewrite str_app_assoc.
  change (NUL_str +:+ ?r) with (String NUL r). rewrite c_str_take by (done || lia). done.
Qed.
End wire.

(** Every stored value fits in a reply. *)
Definition kv_wf (svc : LookupService.t) : Prop :=
  forall id key v, kv_lookup svc id key = Some v ->
    Z.of_nat (String.length v) + 1 <= DMTCP_MAX_MESSAGE_EXTRA_BYTES.

(** What a client sees of a GET. *)
Definition kv_get_spec (svc : LookupService.t) (id key : string) : KVDBResponse * option string :=
  match svc !! id, kv_lookup svc id key with
  | None, _ => (KVDB_DB_NOT_FOUND, None)
  | Some _, None => (KVDB_KEY_NOT_FOUND, None)
  | Some _, Some v => (KVDB_SUCCESS, Some v)
  end.

(** What a client sees of any request, and the store it leaves; [None]: the
    coordinator stops at a failed ASSERT or a signed overflow. *)
Definition kv_call_spec (svc : LookupService.t) (req : KVDBRequest) (id key val : string)
    : option (KVDBResponse * option string * LookupService.t) :=
  if bool_decide (req = KVDB_GET) then Some (kv_get_spec svc id key, svc)
  else
    new ← kv_new req (kv_lookup svc id key) val;
    Some ((KVDB_SUCCESS, Some (default "0" (kv_lookup svc id key))), set svc id key new).

Lemma arith_spec req old val (svc : LookupService.t) :
  match kv_arith_spec req old val with
  | Some v => arith req old val svc = Ok v svc
  | None => exists f, arith req old val svc = Fault f svc
  end.
Proof.
  destruct req; cbn [kv_arith_spec arith]; eauto; try (unfold faultM; by eauto).
  - destruct (in_int64 _); [done|]. unfold faultM; eauto.
  - unfold mret, M_ret. f_equal. bool_cases; lia.
  - unfold mret, M_ret. f_equal. bool_cases; lia.
Qed.

Lemma receive_val {S} e v (s : S) :
  Z.of_nat (String.length v) + 1 <= DMTCP_MAX_MESSAGE_EXTRA_BYTES ->
  receive (sendResponseVal e v).1 (sendResponseVal e v).2 s = Ok (KVDB_SUCCESS, Some v) s.
Proof.
  intros Hv. unfold sendResponseVal, receive. cbn [fst snd].
  unfold to_uint32. rewrite wrap_u_small by (unfold DMTCP_MAX_MESSAGE_EXTRA_BYTES in Hv; lia).
  unfold assertValid, messageExtraBytesIsValid. rsimpl. cbn [DmtcpMessage_new msg_magicBits msg_msgSize msg_type].
  apply Z.leb_le in Hv as ->. rewrite Z.leb_refl.
  destruct (Z.eqb_spec (Z.of_nat (String.length v) + 1) 0) as [E|_]; [lia|].
  replace (Z.to_nat (Z.of_nat (String.length v) + 1 - 1)) with (String.length v) by lia.
  rewrite str_take_app. reflexivity.
Qed.

Lemma receive_code {S} e r (s : S) :
  receive (sendResponse e r).1 (sendResponse e r).2 s = Ok (r, None) s.
Proof. reflexivity. Qed.

Section calls.
Context (e : MsgEnv) (id key val : string).
Hypothesis Hok : kv_args_ok id key val.

Lemma processGet_spec svc :
  processGet e (wire_msg e id key val KVDB_GET) (Some (key +:+ String NUL (val +:+ NUL_str))) svc =
  Ok (match kv_get_spec svc id key with
      | (KVDB_SUCCESS, Some v) => sendResponseVal e v
      | (r, _) => sendResponse e r
      end) svc.
Proof.
  unfold processGet. erewrite bind_ok by (eapply wire_key; exact Hok).
  erewrite bind_ok by (eapply wire_id; exact Hok). unfold gets, mbind, M_bind, get, kv_get_spec, kv_lookup.
  destruct (svc !! id) as [kvmap|]; [|done]. cbn. by destruct (kvmap !! key).
Qed.

Lemma processSet_spec req svc :
  match kv_new req (kv_lookup svc id key) val with
  | Some new =>
      processSet e (wire_msg e id key val req) (Some (key +:+ String NUL (val +:+ NUL_str))) svc =
      Ok (sendResponseVal e (default "0" (kv_lookup svc id key))) (set svc id key new)
  | None => exists f s,
      processSet e (wire_msg e id key val req) (Some (key +:+ String NUL (val +:+ NUL_str))) svc = Fault f s
  end.
Proof.
  unfold processSet. erewrite bind_ok by (eapply wire_id; exact Hok).
  erewrite (bind_ok (modify _)) by reflexivity. erewrite bind_ok by (eapply wire_key; exact Hok).
  erewrite (bind_ok (gets _)) by reflexivity. erewrite (bind_ok (gets _)) by reflexivity.
  erewrite bind_ok by (eapply wire_val; exact Hok). rewrite get_touch, db_touch.
  change (msg_kvdbRequest (wire_msg e id key val req)) with req.
  destruct (kv_lookup svc id key) as [o|] eqn:El; cycle 1.
  { cbn [kv_new]. rewrite (bool_decide_true (None = None)), orb_true_r by done.
    by rewrite <- (set_touch svc id key val). }
  rewrite (bool_decide_false (Some o = None)), orb_false_r by done.
  destruct (decide (req = KVDB_SET)) as [->|Hset].
  { cbn [kv_new]. by rewrite <- (set_touch svc id key val). }
  rewrite bool_decide_false by done.
  assert (kv_new req (Some o) val =
          (ov ← StringToInt64 o; v ← StringToInt64 val; XToString <$> kv_arith_spec req ov v)) as ->
    by by destruct req.
  change (default EmptyString (Some o)) with o. destruct (StringToInt64 o) as [ov|], (StringToInt64 val) as [v|]; cbn; eauto.
  pose proof (arith_spec req ov v (<[id := db svc id]> svc)) as Ha.
  unfold mbind, M_bind, optM, modify, mret, M_ret.
  destruct (kv_arith_spec req ov v); cbn.
  - rewrite Ha. by rewrite <- (set_touch svc id key).
  - destruct Ha as [f ->]. eauto.
Qed.

Lemma wire_sizes req :
  ((0 <? msg_keyLen (wire_msg e id key val req)) && (0 <? msg_valLen (wire_msg e id key val req)) &&
   (to_uint32 (msg_keyLen (wire_msg e id key val req) + msg_valLen (wire_msg e id key val req)) =?
    msg_extraBytes (wire_msg e id key val req))) = true.
Proof.
  destruct Hok as (_ & _ & _ & _ & _ & _ & Hb). unfold DMTCP_MAX_MESSAGE_EXTRA_BYTES in Hb.
  unfold wire_msg. rsimpl. unfold to_uint32. rewrite wrap_u_small by lia. bool_cases; try done; lia.
Qed.

(** The whole call, both ends, against the abstract operation. *)
Lemma call_spec req svc : kv_wf svc -> req = KVDB_GET \/ val <> EmptyString ->
  match kv_call_spec svc req id key val with
  | Some (answer, svc') => call e req id key val svc = Ok answer svc'
  | None => exists f s, call e req id key val svc = Fault f s
  end.
Proof.
  intros Hwf Hv. unfold call, kv_call_spec. rewrite (request_wire e id key val Hok req Hv), wire_valid by done.
  cbn [assertM]. erewrite (bind_ok (mret tt)) by reflexivity. unfold processRequest.
  rewrite wire_sizes. cbn [assertM].
  change (msg_kvdbRequest (wire_msg e id key val req)) with req.
  destruct (bool_decide (req = KVDB_GET)) eqn:Eg.
  - apply bool_decide_eq_true in Eg as ->.
    erewrite bind_ok by (erewrite (bind_ok (mret tt)) by reflexivity; apply processGet_spec).
    unfold kv_get_spec. destruct (svc !! id); [|done].
    destruct (kv_lookup svc id key) as [v|] eqn:El; [|done]. apply receive_val. by eapply Hwf.
  - pose proof (processSet_spec req svc) as Hs.
    destruct (kv_new req _ val) as [new|] eqn:En; cbn [mbind option_bind].
    + erewrite bind_ok by (erewrite (bind_ok (mret tt)) by reflexivity; exact Hs).
      apply receive_val. destruct (kv_lookup svc id key) as [v|] eqn:El; [by eapply Hwf|]. cbn.
      unfold DMTCP_MAX_MESSAGE_EXTRA_BYTES. lia.
    + destruct Hs as (f & s & Hs). unfold mbind, M_bind, mret, M_ret. rewrite Hs. eauto.
Qed.
End calls.

(** *** The store stays well formed *)

Lemma int64_shiftr z : in_int64 z = true <-> Z.shiftr z 63 = 0 \/ Z.shiftr z 63 = -1.
Proof.
  unfold in_int64. rewrite andb_true_iff, !Z.leb_le, Z.shiftr_div_pow2 by lia.
  assert (0 < 2 ^ 63) by lia. split.
  - intros [H1 H2]. destruct (Z_lt_le_dec z 0).
    + right. symmetry. apply Z.div_unique with (r := z + 2 ^ 63); lia.
    + left. apply Z.div_small. lia.
  - pose proof (Z.div_mod z (2 ^ 63)). pose proof (Z.mod_pos_bound z (2 ^ 63)). intros [E|E]; rewrite E in *; lia.
Qed.

Lemma arith_range req a b v :
  in_int64 a = true -> in_int64 b = true -> kv_arith_spec req a b = Some v -> in_int64 v = true.
Proof.
  intros Ha Hb. destruct req; cbn; try done.
  - destruct (in_int64 (a + b)) eqn:E; [|done]. by intros [= <-].
  - intros [= <-]. rewrite int64_shiftr, Z.shiftr_land in *. destruct Ha as [-> | ->], Hb as [-> | ->]; cbn; auto.
  - intros [= <-]. rewrite int64_shiftr, Z.shiftr_lor in *. destruct Ha as [-> | ->], Hb as [-> | ->]; cbn; auto.
  - intros [= <-]. rewrite int64_shiftr, Z.shiftr_lxor in *. destruct Ha as [-> | ->], Hb as [-> | ->]; cbn; auto.
  - intros [= <-]. by destruct (Z.min_spec a b) as [[_ ->]|[_ ->]].
  - intros [= <-]. by destruct (Z.max_spec a b) as [[_ ->]|[_ ->]].
Qed.

Lemma kv_new_length req old val v :
  Z.of_nat (String.length val) + 1 <= DMTCP_MAX_MESSAGE_EXTRA_BYTES ->
  kv_new req old val = Some v -> Z.of_nat (String.length v) + 1 <= DMTCP_MAX_MESSAGE_EXTRA_BYTES.
Proof.
  intros Hval. destruct (decide (req = KVDB_SET \/ old = None)) as [H|H].
  { destruct H as [-> | ->]; [destruct old|destruct req]; cbn; intros [= <-]; done. }
  destruct old as [o|]; [|tauto].
  assert (kv_new req (Some o) val =
          (ov ← StringToInt64 o; w ← StringToInt64 val; XToString <$> kv_arith_spec req ov w)) as ->
    by (destruct req; tauto || done).
  destruct (StringToInt64 o) as [a|] eqn:Ea; [|done]. cbn.
  destruct (StringToInt64 val) as [b|] eqn:Eb; [|done]. cbn.
  destruct (kv_arith_spec req a b) as [w|] eqn:Ew; [|done]. intros [= <-].
  apply arith_range in Ew; [|by eapply StringToInt64_range..].
  apply XToString_length in Ew. unfold DMTCP_MAX_MESSAGE_EXTRA_BYTES. lia.
Qed.

Lemma kv_wf_set svc id key v :
  kv_wf svc -> Z.of_nat (String.length v) + 1 <= DMTCP_MAX_MESSAGE_EXTRA_BYTES -> kv_wf (set svc id key v).
Proof.
  intros Hwf Hv id' key' w. destruct (decide ((id, key) = (id', key'))) as [[= <- <-]|Hne].
  - rewrite kv_lookup_set_same. by intros [= <-].
  - rewrite kv_lookup_set_other by done. apply Hwf.
Qed.

Lemma kv_call_wf svc req id key val a svc' :
  kv_args_ok id key val -> kv_wf svc -> kv_call_spec svc req id key val = Some (a, svc') -> kv_wf svc'.
Proof.
  intros (_ & _ & _ & _ & _ & _ & Hb) Hwf. unfold kv_call_spec.
  destruct (bool_decide _); [by intros [= _ <-]|].
  destruct (kv_new req _ val) as [new|] eqn:En; [|done]. cbn. intros [= _ <-].
  apply kv_wf_set; [done|]. eapply kv_new_length; [|done]. lia.
Qed.

(** *** Counters *)

(** The client adds [ns] one after the other, each by one INCRBY request. *)
Fixpoint incr_all (e : MsgEnv) (id key : string) (ns : list Z) : M LookupService.t (list Z) :=
  match ns with
  | [] => mret []
  | n :: ns' =>
      r ← request64 e KVDB_INCRBY id key n;
      rest ← incr_all e id key ns';
      mret (default 0 r.2 :: rest)
  end.

Fixpoint prefix_sums (z : Z) (ns : list Z) : list Z :=
  match ns with [] => [] | n :: ns' => z :: prefix_sums (z + n) ns' end.

(** The key holds the number [z]; an absent key counts as 0. *)
Definition holds_int (svc : LookupService.t) (id key : string) (z : Z) : Prop :=
  match kv_lookup svc id key with Some v => v = XToString z | None => z = 0 end.

Lemma XToString_nonempty n : XToString n <> EmptyString.
Proof.
  intros E. pose proof (strtoll_XToString n) as H. rewrite E in H. done.
Qed.

Definition key_args_ok (id key : string) : Prop := kv_args_ok id key (String.concat EmptyString (replicate 65 "0")).

Lemma key_args_int id key n : key_args_ok id key -> in_int64 n = true -> kv_args_ok id key (XToString n).
Proof.
  intros (H1 & H2 & H3 & H4 & _ & H5 & H6) Hn. apply XToString_length in Hn.
  repeat split; try done; [apply XToString_no_NUL|].
  change (String.length (String.concat _ _)) with 65%nat in H6. lia.
Qed.

Lemma incr_step e id key svc z n :
  key_args_ok id key -> kv_wf svc -> holds_int svc id key z ->
  in_int64 z = true -> in_int64 n = true -> in_int64 (z + n) = true ->
  request64 e KVDB_INCRBY id key n svc =
    Ok (KVDB_SUCCESS, Some z) (set svc id key (XToString (z + n))).
Proof.
  intros Hk Hwf Hz Hz64 Hn Hzn. pose proof (key_args_int id key n Hk Hn) as Hok.
  pose proof (call_spec e id key (XToString n) Hok KVDB_INCRBY svc Hwf
                (or_intror (XToString_nonempty n))) as Hc.
  unfold kv_call_spec in Hc. rewrite bool_decide_false in Hc by done.
  unfold holds_int in Hz. unfold request64.
  destruct (kv_lookup svc id key) as [v|]; subst.
  - cbn [kv_new] in Hc. rewrite !StringToInt64_XToString in Hc by done. cbn in Hc. rewrite Hzn in Hc. cbn in Hc.
    rewrite (bind_ok _ _ _ _ _ Hc). cbn. by rewrite StringToInt64_XToString.
  - cbn in Hc. rewrite (bind_ok _ _ _ _ _ Hc). rewrite Z.add_0_l. reflexivity.
Qed.

Lemma incr_all_sums e id key ns : forall svc z,
  key_args_ok id key -> kv_wf svc -> holds_int svc id key z -> in_int64 z = true ->
  Forall (fun n => in_int64 n = true) ns ->
  Forall (fun p => in_int64 p = true) (prefix_sums z (ns ++ [0])) ->
  exists svc', incr_all e id key ns svc = Ok (prefix_sums z ns) svc' /\
    kv_wf svc' /\ holds_int svc' id key (z + foldr Z.add 0 ns) /\
    (ns <> [] -> kv_lookup svc' id key = Some (XToString (z + foldr Z.add 0 ns))) /\
    (forall id' key', (id, key) <> (id', key') -> kv_lookup svc' id' key' = kv_lookup svc id' key').
Proof.
  induction ns as [|n ns IH]; intros svc z Hk Hwf Hz Hz64 Hns Hps; cbn [incr_all prefix_sums foldr].
  { exists svc. rewrite Z.add_0_r. repeat split; done. }
  inversion_clear Hns as [|?? Hn Hns']. cbn in Hps. inversion_clear Hps as [|?? _ Hps'].
  assert (Hzn : in_int64 (z + n) = true) by (destruct ns; cbn in Hps'; by inversion Hps').
  rewrite (bind_ok _ _ _ _ _ (incr_step e id key svc z n Hk Hwf Hz Hz64 Hn Hzn)).
  assert (Hl : kv_lookup (set svc id key (XToString (z + n))) id key = Some (XToString (z + n)))
    by apply kv_lookup_set_same.
  destruct (IH (set svc id key (XToString (z + n))) (z + n)) as (svc' & Hrun & Hwf' & Hh & Hs & Hfr); try done.
  { apply kv_wf_set; [done|]. apply XToString_length in Hzn. unfold DMTCP_MAX_MESSAGE_EXTRA_BYTES. lia. }
  { unfold holds_int. by rewrite Hl. }
  exists svc'. rewrite (bind_ok _ _ _ _ _ Hrun). cbn [default fst snd mret M_ret].
  replace (z + (n + foldr Z.add 0 ns)) with (z + n + foldr Z.add 0 ns) by lia.
  split_and!; try done.
  - intros _. destruct ns as [|m ns]; [|by apply Hs]. cbn in Hrun. injection Hrun as <-. cbn [foldr].
    by rewrite Z.add_0_r.
  - intros id' key' Hne. rewrite Hfr by done. by apply kv_lookup_set_other.
Qed.

(** *** Writing the store *)

(** A value of line feeds only, at least one. *)
Definition blank_lines (v : string) : Prop :=
  v <> EmptyString /\ Forall (fun c => c = byte_of 10) (String.list_ascii_of_string v).

Lemma cut_blank v :
  filter (fun t => t <> EmptyString) (cut v newline) = [] <->
  Forall (fun c => c = byte_of 10) (String.list_ascii_of_string v).
Proof.
  induction v as [|c v IH]; [by cbn|]. cbn [cut String.list_ascii_of_string].
  rewrite Forall_cons_iff. unfold newline at 1. cbn [is_delim]. rewrite orb_false_r.
  destruct (Ascii.eqb_spec (byte_of 10) c) as [<-|Hne].
  - rewrite filter_cons. case_decide; [done|]. rewrite IH. tauto.
  - split; [|intros [? _]; congruence].
    destruct (cut v newline); rewrite filter_cons; case_decide; done.
Qed.

Lemma has_newline_blank v : blank_lines v -> has_newline v = true.
Proof. intros [Hne Hf]. destruct v as [|c v]; [done|]. inversion Hf; subst. done. Qed.

Lemma serialize_str_None v : serialize_str v = None <-> blank_lines v.
Proof.
  unfold serialize_str. rewrite tokenizeString_spec. unfold tokens_spec.
  destruct (has_newline v) eqn:E; cbn [negb].
  - destruct (filter _ _) eqn:F.
    + apply cut_blank in F. split; [|done]. intros _. split; [|done]. by intros ->.
    + split; [done|]. intros [_ H]. apply cut_blank in H. congruence.
  - split; [done|]. intros H. apply has_newline_blank in H. congruence.
Qed.

Lemma entries_None {V} indent (ser : V -> option string) l : forall first,
  entries indent ser l first = None <-> exists k v, (k, v) ∈ l /\ ser v = None.
Proof.
  induction l as [|[k v] l IH]; intros first; cbn [entries].
  { split; [done|]. intros (k & v & H & _). by apply not_elem_of_nil in H. }
  destruct (ser v) as [t|] eqn:Ev; cbn [mbind option_bind].
  - specialize (IH false). destruct (entries indent ser l false); cbn [mbind option_bind].
    + split; [done|]. intros (k' & v' & [[= -> ->]|H]%elem_of_cons & Hn); [congruence|].
      destruct IH as [_ IH]. discriminate IH. eauto.
    + split; [|done]. intros _. destruct IH as [IH _]. destruct IH as (k' & v' & H & Hn); [done|].
      exists k', v'. split; [by apply list_elem_of_further|done].
  - split; [|done]. intros _. exists k, v. split; [apply list_elem_of_here|done].
Qed.

Lemma insert_sorted_elem {V} (kv x : string * V) l : x ∈ insert_sorted kv l <-> x = kv \/ x ∈ l.
Proof.
  induction l as [|h l IH]; cbn [insert_sorted]; [set_solver|].
  destruct (str_ltb _ _); rewrite !elem_of_cons; [tauto|]. rewrite IH. tauto.
Qed.

Lemma in_order_elem {V} (m : gmap string V) k v : (k, v) ∈ in_order m <-> m !! k = Some v.
Proof.
  rewrite <- elem_of_map_to_list. unfold in_order. generalize (map_to_list m) as l.
  induction l as [|h l IH]; cbn [foldr]; [done|]. rewrite insert_sorted_elem, elem_of_cons, IH. done.
Qed.

Lemma bind_Some_None {A B} (o : option A) (f : A -> B) : (x ← o; Some (f x)) = None <-> o = None.
Proof. by destruct o. Qed.

Lemma serialize_map_None m : serialize_map m = None <-> exists k v, m !! k = Some v /\ blank_lines v.
Proof.
  unfold serialize_map. rewrite bind_Some_None, entries_None.
  by setoid_rewrite in_order_elem; setoid_rewrite serialize_str_None.
Qed.

Lemma serialize_None svc :
  serialize svc = None <-> exists id key v, kv_lookup svc id key = Some v /\ blank_lines v.
Proof.
  unfold serialize. rewrite bind_Some_None, entries_None.
  setoid_rewrite in_order_elem. setoid_rewrite serialize_map_None. unfold kv_lookup. split.
  - intros (id & m & Hm & key & v & Hv & Hb). exists id, key, v. rewrite Hm. done.
  - intros (id & key & v & Hv & Hb). destruct (svc !! id) as [m|] eqn:Hm; [|done]. eauto 8.
Qed.

(** ** Theorems *)

(** C15: A whole request, both ends together: the client's encoding, the
    service and the client's decoding compute the abstract operation.  GET
    answers the stored value or says which of database and key is missing and
    changes nothing; SET and the arithmetic requests answer the old value ("0"
    when there was none) and store the new one under that key only; the
    request stops the coordinator exactly when an arithmetic request meets text
    that is no number, a sum outside int64 or an unnamed operation. *)
Theorem kvdb_request_correct e id key val req svc :
  kv_args_ok id key val -> kv_wf svc -> req = KVDB_GET \/ val <> EmptyString ->
  match kv_call_spec svc req id key val with
  | Some (answer, svc') =>
      call e req id key val svc = Ok answer svc' /\ kv_wf svc' /\
      (forall id' key', (id, key) <> (id', key') ->
         kv_get svc' id' key' = kv_get svc id' key')
  | None => exists f s, call e req id key val svc = Fault f s
  end.
Proof.
  intros Hok Hwf Hv. pose proof (call_spec e id key val Hok req svc Hwf Hv) as H.
  pose proof (kv_call_wf svc req id key val) as Hwf'.
  destruct (kv_call_spec svc req id key val) as [[a svc']|] eqn:E; [|done].
  split_and!; [done|by eapply Hwf'|]. intros id' key' Hne. unfold kv_call_spec in E.
  destruct (bool_decide _); [by injection E as _ <-|].
  destruct (kv_new req _ val) as [new|]; [|done]. injection E as _ <-.
  exact (kv_get_set_other svc id key id' key' new Hne).
Qed.

Definition example_env : MsgEnv :=
  mk_MsgEnv RUNNING (mk_UniquePid 7 40000 99 1) 0 KVDB_GET KVDB_SUCCESS.

Lemma kvdb_request_correct_witness :
  call example_env KVDB_MAX "db" "k" "9" {[ "db" := {[ "k" := "5" ]} ]} =
    Ok (KVDB_SUCCESS, Some "5") {[ "db" := {[ "k" := "9" ]} ]}.
Proof.
  refine (proj1 (kvdb_request_correct example_env "db" "k" "9" KVDB_MAX {[ "db" := {[ "k" := "5" ]} ]} _ _ _)).
  - repeat split; try discriminate; cbn; lia.
  - intros id key v. unfold kv_lookup. intros H.
    destruct (decide (id = "db")) as [->|]; [|by rewrite lookup_singleton_ne in H].
    rewrite lookup_singleton_eq in H. cbn in H.
    apply lookup_singleton_Some in H as [_ <-]. cbn. unfold DMTCP_MAX_MESSAGE_EXTRA_BYTES. lia.
  - right. discriminate.
Defined.

(** A counter in the database: however many INCRBY requests are made, each
    is answered with the sum of those before it (an absent key counts as 0),
    the key ends up holding the total, which GET then reads, and nothing else in
    the store changes, as long as no partial sum leaves the range of int64. *)
Theorem kvdb_counter e id key ns svc z :
  key_args_ok id key -> kv_wf svc -> holds_int svc id key z -> in_int64 z = true -> ns <> [] ->
  Forall (fun n => in_int64 n = true) ns ->
  Forall (fun p => in_int64 p = true) (prefix_sums z (ns ++ [0])) ->
  exists svc', incr_all e id key ns svc = Ok (prefix_sums z ns) svc' /\
    get64 e id key svc' = Ok (KVDB_SUCCESS, Some (z + foldr Z.add 0 ns)) svc' /\
    (forall id' key', (id, key) <> (id', key') -> kv_lookup svc' id' key' = kv_lookup svc id' key').
Proof.
  intros Hk Hwf Hz Hz64 Hne Hns Hps.
  destruct (incr_all_sums e id key ns svc z Hk Hwf Hz Hz64 Hns Hps) as (svc' & Hr & Hwf' & Hh & Hl & Hfr).
  specialize (Hl Hne). exists svc'. split_and!; [done| |done].
  unfold get64, request64.
  pose proof (call_spec e id key _ (key_args_int id key 0 Hk eq_refl) KVDB_GET svc' Hwf' (or_introl eq_refl)) as Hc.
  unfold kv_call_spec in Hc. rewrite bool_decide_true in Hc by done. unfold kv_get_spec in Hc. rewrite Hl in Hc.
  destruct (svc' !! id) eqn:Ei; [|by unfold kv_lookup in Hl; rewrite Ei in Hl].
  rewrite (bind_ok _ _ _ _ _ Hc). cbn. rewrite StringToInt64_XToString; [done|].
  assert (Hlast : forall ns z, Forall (fun p => in_int64 p = true) (prefix_sums z (ns ++ [0])) ->
            in_int64 (z + foldr Z.add 0 ns) = true); [|by apply Hlast].
  clear. induction ns as [|n ns IH]; intros z H; cbn in *; inversion_clear H; [by rewrite Z.add_0_r|].
  replace (z + (n + foldr Z.add 0 ns)) with (z + n + foldr Z.add 0 ns) by lia. by apply IH.
Qed.

Lemma kvdb_counter_witness :
  exists svc', incr_all example_env "db" "ctr" [3; 4; 5] ∅ = Ok [0; 3; 7] svc' /\
    get64 example_env "db" "ctr" svc' = Ok (KVDB_SUCCESS, Some 12) svc'.
Proof.
  destruct (kvdb_counter example_env "db" "ctr" [3; 4; 5] ∅ 0) as (svc' & H1 & H2 & _).
  - repeat split; try discriminate; cbn; lia.
  - intros id key v H. unfold kv_lookup in H. by rewrite lookup_empty in H.
  - reflexivity.
  - reflexivity.
  - discriminate.
  - repeat constructor.
  - repeat constructor.
  - exists svc'. split; [exact H1|exact H2].
Defined.

(** The size check on a received request adds two uint32 lengths, so it is
    satisfied by a message whose two lengths wrap around: such a message is
    valid, passes the check for its one-byte payload, and the service then
    reads the value 4 GB beyond the payload. *)
Theorem kvdb_size_check_wraps e :
  exists m payload, isValid m = true /\ msg_type m = DMT_KVDB_REQUEST /\
    Z.of_nat (String.length payload) = msg_extraBytes m /\
    in_uint32 (msg_keyLen m) = true /\ in_uint32 (msg_valLen m) = true /\
    (forall svc, exists s, processRequest e m (Some payload) svc = Fault (OutOfBounds "KVDB payload") s).
Proof.
  exists ((DmtcpMessage_new e DMT_KVDB_REQUEST) <| msg_kvdbRequest := KVDB_SET |>
     <| msg_barrier := char_array 64 "db" |> <| msg_keyLen := 2 ^ 32 - 1 |>
     <| msg_valLen := 2 |> <| msg_extraBytes := 1 |>), NUL_str.
  split_and!; try reflexivity. intros svc. eexists.
  unfold processRequest. rsimpl. cbn [msg_kvdbRequest].
  change (to_uint32 (2 ^ 32 - 1 + 2) =? 1) with true.
  change (assertM _ _) with (@assertM LookupService.t true "invalid KVDB payload sizes").
  rewrite bool_decide_false by done. erewrite (bind_ok (assertM _ _)) by reflexivity.
  unfold processSet, kvdbId_str, msg_kvdbId. rsimpl.
  erewrite (bind_ok (optM _ _)) by reflexivity. erewrite (bind_ok (modify _)) by reflexivity.
  erewrite (bind_ok (payload_str _ 0)) by reflexivity.
  erewrite (bind_ok (gets _)) by reflexivity. erewrite (bind_ok (gets _)) by reflexivity.
  assert (E : c_str_at NUL_str (Z.to_nat (2 ^ 32 - 1)) = None).
  { unfold c_str_at. replace (Z.to_nat (2 ^ 32 - 1)) with (S (Z.to_nat (2 ^ 32 - 2))) by lia.
    cbn [str_drop NUL_str]. by destruct (Z.to_nat _). }
  unfold payload_str. rewrite E. reflexivity.
Qed.

(** Writing the store to its file indexes the first line of a value that
    has none exactly when the store holds a value made of line feeds only; every
    other store is written out. *)
Theorem kvdb_serialize_fails_iff svc :
  serialize svc = None <->
  exists id key v, kv_lookup svc id key = Some v /\ blank_lines v.
Proof. apply serialize_None. Qed.
