(* ===== verification/SharedArea.v ===== *)
(** * The area shared by the processes of one host

    src/shareddata.cpp over the structures of include/shareddata.h: the header
    in the mapped file, its tables of virtual and real identifiers, the
    pseudo-terminal names, the inode leaders, the incoming connections, the
    protocol by which processes create or join the area, and the futex
    barrier.  Every operation holds the file lock for its whole body, so an
    operation is one transition of the header. *)

From Stdlib Require Import ZArith Lia Ascii.
From stdpp Require Import base gmap strings numbers list.
From S2P Require Import Prelude CText Identity.
Import Convert.
Open Scope Z_scope.

(** ** Tables: an array of the header with its counter *)

Record table (E : Type) : Type := mk_table {
  tbl_arr : gmap nat E;     (* the cells written so far; the others are zero *)
  tbl_num : nat
}.
Arguments mk_table {E}.
Arguments tbl_arr {E}.
Arguments tbl_num {E}.

Definition table_empty {E} : table E := mk_table ∅ 0.

(** [pid_t]/[int32_t] pairs: [PidMap] and [IPCIdMap]. *)
Record IdMap : Type := mk_IdMap { virt : Z; real : Z }.
#[export] Instance IdMap_eq_dec : EqDecision IdMap.
Proof. solve_decision. Defined.
Definition IdMap_zero : IdMap := mk_IdMap 0 0.

Record PtyNameMap : Type := mk_PtyNameMap { pty_virt : string; pty_real : string }.
Definition PtyNameMap_zero : PtyNameMap := mk_PtyNameMap EmptyString EmptyString.

Record IncomingConMap : Type := mk_IncomingConMap { con_id : string; con_addr : string; con_len : Z }.

Record InodeConnIdMap : Type := mk_InodeConnIdMap { devnum : Z; inode : Z; conn_id : string }.
Definition InodeConnIdMap_zero : InodeConnIdMap := mk_InodeConnIdMap 0 0 EmptyString.

Definition MAX_PID_MAPS : nat := Z.to_nat 32768.
Definition MAX_IPC_ID_MAPS : nat := Z.to_nat 256.
Definition MAX_PTY_NAME_MAPS : nat := Z.to_nat 256.
Definition MAX_INCOMING_CONNECTIONS : nat := Z.to_nat 10240.
Definition MAX_INODE_PID_MAPS : nat := Z.to_nat 10240.
Definition PTS_PATH_MAX : nat := 32.

Inductive DMTCP_ARCH_MODE : Type := DMTCP_ARCH_32 | DMTCP_ARCH_64 | DMTCP_ARCH_MIXED.
#[export] Instance DMTCP_ARCH_MODE_eq_dec : EqDecision DMTCP_ARCH_MODE.
Proof. solve_decision. Defined.

Record CoordinatorInfo : Type := mk_CoordinatorInfo {
  ci_id : UniquePid; ci_timeStamp : Z; ci_interval : Z; ci_addr : Z; ci_port : Z
}.
#[export] Instance eta_CoordinatorInfo : Settable CoordinatorInfo :=
  {| eta_of r := mk_CoordinatorInfo (ci_id r) (ci_timeStamp r) (ci_interval r) (ci_addr r) (ci_port r) |}.

(** ** The header *)

Record Header : Type := mk_Header {
  h_initialized : bool;
  h_versionStr : string;
  h_tmpDir : string;
  h_installDir : string;
  h_localIPAddr : Z;
  h_dlsymOffset : Z;
  h_dlsymOffset_m32 : Z;
  h_pidMap : table IdMap;
  h_sysvShmIdMap : table IdMap;
  h_sysvSemIdMap : table IdMap;
  h_sysvMsqIdMap : table IdMap;
  h_sysvShmKeyMap : table IdMap;
  h_ptyNameMap : table PtyNameMap;
  h_nextVirtualPtyId : Z;
  h_incomingConMap : table IncomingConMap;
  h_inodeConnIdMap : table InodeConnIdMap;
  h_numCkptPeers : Z;
  h_numIn : Z;
  h_curRound : Z;
  h_barrierCount : Z;        (* the count of the pthread barrier *)
  h_compId : UniquePid;
  h_coordInfo : CoordinatorInfo;
  h_archMode : DMTCP_ARCH_MODE
}.
#[export] Instance eta_Header : Settable Header :=
  {| eta_of r := mk_Header (h_initialized r) (h_versionStr r) (h_tmpDir r) (h_installDir r)
       (h_localIPAddr r) (h_dlsymOffset r) (h_dlsymOffset_m32 r) (h_pidMap r) (h_sysvShmIdMap r)
       (h_sysvSemIdMap r) (h_sysvMsqIdMap r) (h_sysvShmKeyMap r) (h_ptyNameMap r)
       (h_nextVirtualPtyId r) (h_incomingConMap r) (h_inodeConnIdMap r) (h_numCkptPeers r)
       (h_numIn r) (h_curRound r) (h_barrierCount r) (h_compId r) (h_coordInfo r) (h_archMode r) |}.

(** The file just extended to its size: all bytes zero. *)
Definition Header_zero : Header :=
  let up0 := mk_UniquePid 0 0 0 0 in
  mk_Header false EmptyString EmptyString EmptyString 0 0 0 table_empty table_empty table_empty
    table_empty table_empty table_empty 0 table_empty table_empty 0 0 0 0 up0
    (mk_CoordinatorInfo up0 0 0 0 0) DMTCP_ARCH_32.

(** The state one process works on: the shared header and its own statics. *)
Record Area : Type := mk_Area {
  a_header : Header;
  a_mapped : bool;              (* sharedDataHeader != NULL *)
  a_fdValid : bool;             (* Util::isValidFd(PROTECTED_SHM_FD) *)
  a_archMode : DMTCP_ARCH_MODE; (* the file-level constant archMode *)
  a_nextVirtualPtyId : Z        (* the static nextVirtualPtyId, uint32_t *)
}.
#[export] Instance eta_Area : Settable Area :=
  {| eta_of r := mk_Area (a_header r) (a_mapped r) (a_fdValid r) (a_archMode r) (a_nextVirtualPtyId r) |}.

Definition SHM_VERSION_STR : string := "DMTCP_GLOBAL_AREA_V0.99".
Definition VIRT_PTS_PREFIX_STR : string := "/dev/pts/v".
Definition UINT32_MAX : Z := 2 ^ 32 - 1.
Definition PATH_MAX : Z := 4096.

Definition hdr {A} (f : Header -> A) : M Area A := gets (fun a => f (a_header a)).
Definition set_hdr (f : Header -> Header) : M Area unit := modify (fun a => a <| a_header ::= f |>).

(** ** Creating and joining *)

(** [archMode]: the constant of the file, by the target of the build. *)
Definition archMode_of (is64 : bool) : DMTCP_ARCH_MODE := if is64 then DMTCP_ARCH_32 else DMTCP_ARCH_64.

(** [initializeHeader], on the extended file; [installDir] is what
    [DirName(GetProgramDir())] returned. *)
Definition initializeHeader (tmpDir installDir : string) (compId : UniquePid)
    (coordInfo : CoordinatorInfo) (localIPAddr : Z) : M Area unit :=
  mode ← gets a_archMode;
  next ← gets a_nextVirtualPtyId;
  set_hdr (fun _ => Header_zero
    <| h_versionStr := SHM_VERSION_STR |>
    <| h_initialized := true |>
    <| h_archMode := mode |>
    <| h_compId := compId |>
    <| h_coordInfo := coordInfo |>
    <| h_localIPAddr := localIPAddr |>
    <| h_nextVirtualPtyId := if negb (next =? UINT32_MAX) then next else 0 |>);;
  assertM (Z.of_nat (String.length tmpDir) <? PATH_MAX - 1) "tmpdir path too long";;
  set_hdr (fun h => h <| h_tmpDir := tmpDir |>);;
  assertM (Z.of_nat (String.length installDir) <? PATH_MAX - 1) "install dir too long";;
  set_hdr (fun h => h <| h_installDir := installDir |>).

(** The second half of [initialize] for a process that did not create the
    file: wait for the header, check its signature, note a mixed computation. *)
Definition attach : M Area unit :=
  ready ← hdr h_initialized;
  (if ready : bool then mret tt else faultM (Blocked "waiting for the shared-data header"));;
  version ← hdr h_versionStr;
  assertM (strStartsWith version SHM_VERSION_STR) "Wrong shared-data signature";;
  mode ← gets a_archMode;
  hmode ← hdr h_archMode;
  whenM (negb (bool_decide (hmode = mode))) (set_hdr (fun h => h <| h_archMode := DMTCP_ARCH_MIXED |>)).

(** [initialize()] with no arguments: the area must be open already. *)
Definition initialize : M Area unit :=
  valid ← gets a_fdValid;
  assertM valid "SharedData::initialize requires coordinator info or a valid shared memory fd";;
  modify (fun a => a <| a_mapped := true |>);;
  attach.

(** [if (sharedDataHeader == NULL) initialize();] *)
Definition ensure : M Area unit :=
  m ← gets a_mapped;
  whenM (negb m) initialize.

Definition resetBarrierInfo : M Area unit :=
  set_hdr (fun h => h <| h_numCkptPeers := 0 |> <| h_numIn := 0 |> <| h_curRound := 0 |>).

Definition initializeBarrier : M Area unit :=
  set_hdr (fun h => h <| h_numCkptPeers ::= fun n => to_uint64 (n + 1) |>);;
  mode ← hdr h_archMode;
  if negb (bool_decide (mode = DMTCP_ARCH_MIXED)) then
    set_hdr (fun h => h <| h_barrierCount := h_numCkptPeers h |>)
  else set_hdr (fun h => h <| h_numIn := 0 |> <| h_curRound := 0 |>).

Definition prepareForCkpt : M Area unit :=
  modify (fun a => a <| a_nextVirtualPtyId := to_uint32 (h_nextVirtualPtyId (a_header a)) |>);;
  set_hdr (fun h => h
    <| h_inodeConnIdMap ::= fun t => mk_table (tbl_arr t) 0 |>
    <| h_incomingConMap ::= fun t => mk_table (tbl_arr t) 0 |>);;
  initializeBarrier.

Definition postRestart : M Area unit := initialize;; initializeBarrier.

(** ** Fields *)

Definition coordPort : M Area Z := ensure;; hdr (fun h => ci_port (h_coordInfo h)).
Definition setCoordHost (addr : Z) : M Area unit :=
  ensure;; set_hdr (fun h => h <| h_coordInfo ::= fun c => c <| ci_addr := addr |> |>).
Definition getCoordTimeStamp : M Area Z := ensure;; hdr (fun h => ci_timeStamp (h_coordInfo h)).
Definition getCkptInterval : M Area Z := ensure;; hdr (fun h => ci_interval (h_coordInfo h)).
Definition getCompId : M Area UniquePid := ensure;; hdr h_compId.
Definition getCoordId : M Area UniquePid := ensure;; hdr (fun h => ci_id (h_coordInfo h)).
Definition getInstallDir : M Area string := ensure;; hdr h_installDir.
Definition getLocalIPAddr : M Area Z := ensure;; hdr h_localIPAddr.
Definition updateGeneration (generation : Z) : M Area unit :=
  ensure;; set_hdr (fun h => h <| h_compId ::= fun u => u <| up_generation := generation |> |>).

(** [getTmpDir(buf, len)]; [None] is the NULL result. *)
Definition getTmpDir (len : Z) : M Area (option string) :=
  ensure;;
  dir ← hdr h_tmpDir;
  assertM (negb (String.eqb dir EmptyString)) "shared-data tmpDir has not been initialized";;
  mret (if len <=? Z.of_nat (String.length dir) then None else Some dir).

Definition updateDlsymOffset (off off_m32 : Z) : M Area unit :=
  ensure;;
  o ← hdr h_dlsymOffset;
  assertM ((o =? 0) || (o =? off)) "inconsistent dlsym offset";;
  o32 ← hdr h_dlsymOffset_m32;
  assertM ((o32 =? 0) || (o32 =? off_m32)) "inconsistent 32-bit dlsym offset";;
  set_hdr (fun h => h <| h_dlsymOffset := off |> <| h_dlsymOffset_m32 := off_m32 |>).

(** ** Identifier tables *)

Definition cell {E} (zero : E) (t : table E) (i : nat) : E := default zero (tbl_arr t !! i).

(** The loop of [getRealPid] and [getRealIPCId]: no break, the last match wins. *)
Definition find_real (v : Z) (t : table IdMap) : option Z :=
  foldl (fun res i => let e := cell IdMap_zero t i in if virt e =? v then Some (real e) else res)
        None (seq 0 (tbl_num t)).

(** The loop of [setPidMap] and [setIPCIdMap]: the first match, or the counter. *)
Fixpoint find_slot (v : Z) (t : table IdMap) (idx : list nat) : nat :=
  match idx with
  | [] => tbl_num t
  | i :: idx' => if virt (cell IdMap_zero t i) =? v then i else find_slot v t idx'
  end.

Definition append {E} (t : table E) (e : E) : table E :=
  mk_table (<[tbl_num t := e]> (tbl_arr t)) (S (tbl_num t)).

(** The body they share: overwrite the match, else append below the capacity. *)
Definition set_map (cap : nat) (v r : Z) (t : table IdMap) : option (table IdMap) :=
  let i := find_slot v t (seq 0 (tbl_num t)) in
  if (i =? tbl_num t)%nat then
    if (tbl_num t <? cap)%nat then Some (append t (mk_IdMap v r)) else None
  else Some (mk_table (<[i := mk_IdMap (virt (cell IdMap_zero t i)) r]> (tbl_arr t)) (tbl_num t)).

Definition getRealPid (v : Z) : M Area Z :=
  ensure;;
  t ← hdr h_pidMap;
  mret (default (-1) (find_real v t)).

Definition setPidMap (v r : Z) : M Area unit :=
  ensure;;
  t ← hdr h_pidMap;
  t' ← optM (AssertFailed "shared-data PID map is full") (set_map MAX_PID_MAPS v r t);
  set_hdr (fun h => h <| h_pidMap := t' |>).

Inductive ipc_type : Type := SYSV_SHM_ID | SYSV_SEM_ID | SYSV_MSQ_ID | SYSV_SHM_KEY.
#[export] Instance ipc_type_eq_dec : EqDecision ipc_type.
Proof. solve_decision. Defined.

(** The switch over the type; any other number fails its ASSERT. *)
Definition ipc_type_of (type : Z) : option ipc_type :=
  if type =? 1 then Some SYSV_SHM_ID else if type =? 2 then Some SYSV_SEM_ID
  else if type =? 3 then Some SYSV_MSQ_ID else if type =? 4 then Some SYSV_SHM_KEY else None.
Definition ipc_map (ty : ipc_type) (h : Header) : table IdMap :=
  match ty with
  | SYSV_SHM_ID => h_sysvShmIdMap h | SYSV_SEM_ID => h_sysvSemIdMap h
  | SYSV_MSQ_ID => h_sysvMsqIdMap h | SYSV_SHM_KEY => h_sysvShmKeyMap h
  end.
Definition set_ipc_map (ty : ipc_type) (t : table IdMap) (h : Header) : Header :=
  match ty with
  | SYSV_SHM_ID => h <| h_sysvShmIdMap := t |> | SYSV_SEM_ID => h <| h_sysvSemIdMap := t |>
  | SYSV_MSQ_ID => h <| h_sysvMsqIdMap := t |> | SYSV_SHM_KEY => h <| h_sysvShmKeyMap := t |>
  end.

Definition getRealIPCId (type v : Z) (insertIfNotFound : bool) : M Area Z :=
  ensure;;
  ty ← optM (AssertFailed "Unknown IPC-Id type") (ipc_type_of type);
  t ← hdr (ipc_map ty);
  match find_real v t with
  | Some r => mret r
  | None =>
      if insertIfNotFound then
        assertM (tbl_num t <? MAX_IPC_ID_MAPS)%nat "shared-data IPC ID map is full";;
        set_hdr (set_ipc_map ty (append t (mk_IdMap v v)));;
        mret v
      else mret (-1)
  end.

Definition setIPCIdMap (type v r : Z) : M Area unit :=
  ensure;;
  ty ← optM (AssertFailed "Unknown IPC-Id type") (ipc_type_of type);
  t ← hdr (ipc_map ty);
  t' ← optM (AssertFailed "shared-data IPC ID map is full") (set_map MAX_IPC_ID_MAPS v r t);
  set_hdr (set_ipc_map ty t').

(** ** Pseudo-terminal names *)

(** [createVirtualPtyName(real, out, len)]: what is copied to [out]. *)
Definition createVirtualPtyName (real : string) (len : Z) : M Area string :=
  ensure;;
  next ← hdr h_nextVirtualPtyId;
  assertM (negb (next =? UINT32_MAX)) "shared-data virtual PTY id space is exhausted";;
  set_hdr (fun h => h <| h_nextVirtualPtyId := to_uint64 (next + 1) |>);;
  let virt := VIRT_PTS_PREFIX_STR +:+ XToString next in
  t ← hdr h_ptyNameMap;
  assertM (tbl_num t <? MAX_PTY_NAME_MAPS)%nat "shared-data PTY name map is full";;
  assertM (String.length real <? PTS_PATH_MAX)%nat "real PTY path too long for shared data";;
  assertM (String.length virt <? PTS_PATH_MAX)%nat "virtual PTY path too long for shared data";;
  set_hdr (fun h => h <| h_ptyNameMap := append t (mk_PtyNameMap virt real) |>);;
  assertM (Z.of_nat (String.length virt) <? len) "output buffer too small for virtual PTY name";;
  mret virt.

Definition getVirtualPtyId : M Area Z := hdr (fun h => to_uint32 (h_nextVirtualPtyId h)).

Definition setVirtualPtyId (id : Z) : M Area unit :=
  next ← hdr h_nextVirtualPtyId;
  whenM (negb (id =? UINT32_MAX) && (next <? id)) (set_hdr (fun h => h <| h_nextVirtualPtyId := id |>)).

(** The loops of [getRealPtyName] and [getVirtPtyName]: the first match. *)
Fixpoint find_pty (matches : PtyNameMap -> bool) (t : table PtyNameMap) (idx : list nat)
    : option PtyNameMap :=
  match idx with
  | [] => None
  | i :: idx' =>
      let e := cell PtyNameMap_zero t i in if matches e then Some e else find_pty matches t idx'
  end.

Definition getRealPtyName (virt : string) (len : Z) : M Area string :=
  ensure;;
  t ← hdr h_ptyNameMap;
  match find_pty (fun e => String.eqb virt (pty_virt e)) t (seq 0 (tbl_num t)) with
  | None => mret EmptyString
  | Some e =>
      assertM (Z.of_nat (String.length (pty_real e)) <? len) "output buffer too small for real PTY name";;
      mret (pty_real e)
  end.

Definition getVirtPtyName (real : string) (len : Z) : M Area string :=
  ensure;;
  t ← hdr h_ptyNameMap;
  match find_pty (fun e => String.eqb real (pty_real e)) t (seq 0 (tbl_num t)) with
  | None => mret EmptyString
  | Some e =>
      assertM (Z.of_nat (String.length (pty_virt e)) <? len) "output buffer too small for virtual PTY name";;
      mret (pty_virt e)
  end.

Definition insertPtyNameMap (virt real : string) : M Area unit :=
  ensure;;
  t ← hdr h_ptyNameMap;
  assertM (tbl_num t <? MAX_PTY_NAME_MAPS)%nat "shared-data PTY name map is full";;
  assertM (String.length virt <? PTS_PATH_MAX)%nat "virtual PTY path too long for shared data";;
  assertM (String.length real <? PTS_PATH_MAX)%nat "real PTY path too long for shared data";;
  set_hdr (fun h => h <| h_ptyNameMap := append t (mk_PtyNameMap virt real) |>).

(** ** Incoming connections and inode leaders

    No capacity check in the code: a write at an index beyond the array is out
    of bounds. *)

Definition append_unchecked {E} (cap : nat) (what : string) (get : Header -> table E)
    (put : table E -> Header -> Header) (e : E) : M Area unit :=
  t ← hdr get;
  if (tbl_num t <? cap)%nat then set_hdr (put (append t e)) else faultM (OutOfBounds what).

Definition registerIncomingCons (ids : list string) (receiverAddr : string) (len : Z) : M Area unit :=
  ensure;;
  forM ids (fun id =>
    append_unchecked MAX_INCOMING_CONNECTIONS "incomingConMap" h_incomingConMap
      (fun t h => h <| h_incomingConMap := t |>) (mk_IncomingConMap id receiverAddr len)).

Definition getMissingConMaps : M Area (list IncomingConMap) :=
  ensure;;
  t ← hdr h_incomingConMap;
  mret (omap (fun i => tbl_arr t !! i) (seq 0 (tbl_num t))).

(** The slots are reserved under the lock and filled after it is released. *)
Fixpoint fill_inodes (start : nat) (maps : list InodeConnIdMap) : M Area unit :=
  match maps with
  | [] => mret tt
  | e :: maps' =>
      (if (start <? MAX_INODE_PID_MAPS)%nat then
         set_hdr (fun h => h <| h_inodeConnIdMap ::= fun t => mk_table (<[start := e]> (tbl_arr t)) (tbl_num t) |>)
       else faultM (OutOfBounds "inodeConnIdMap"));;
      fill_inodes (S start) maps'
  end.

Definition insertInodeConnIdMaps (maps : list InodeConnIdMap) : M Area unit :=
  ensure;;
  start ← hdr (fun h => tbl_num (h_inodeConnIdMap h));
  set_hdr (fun h => h <| h_inodeConnIdMap ::= fun t => mk_table (tbl_arr t) (tbl_num t + length maps) |>);;
  fill_inodes start maps.

(** [getCkptLeaderForFile]: from the last entry down. *)
Fixpoint find_leader (t : table InodeConnIdMap) (dev ino : Z) (n : nat) : option string :=
  match n with
  | O => None
  | S i =>
      let m := cell InodeConnIdMap_zero t i in
      if (devnum m =? dev) && (inode m =? ino) then Some (conn_id m) else find_leader t dev ino i
  end.

Definition getCkptLeaderForFile (dev ino : Z) : M Area (option string) :=
  ensure;;
  t ← hdr h_inodeConnIdMap;
  mret (find_leader t dev ino (tbl_num t)).

(** ** The abstract tables *)

Definition tbl_items {E} (zero : E) (t : table E) : list E := cell zero t <$> seq 0 (tbl_num t).

(** What an identifier table means: a finite map from virtual to real. *)
Definition id_view (t : table IdMap) : gmap Z Z :=
  list_to_map ((fun e => (virt e, real e)) <$> tbl_items IdMap_zero t).

Definition id_table_wf (t : table IdMap) : Prop := NoDup (virt <$> tbl_items IdMap_zero t).

(** ** Lemmas *)

Lemma tbl_items_length {E} (zero : E) t : length (tbl_items zero t) = tbl_num t.
Proof. unfold tbl_items. by rewrite length_fmap, length_seq. Qed.

Lemma tbl_items_lookup {E} (zero : E) t i : (i < tbl_num t)%nat ->
  tbl_items zero t !! i = Some (cell zero t i).
Proof. intros H. unfold tbl_items. rewrite list_lookup_fmap, lookup_seq_lt by done. done. Qed.

Lemma tbl_items_append {E} (zero : E) t e : tbl_items zero (append t e) = tbl_items zero t ++ [e].
Proof.
  apply list_eq_same_length with (n := S (tbl_num t)).
  - rewrite length_app, tbl_items_length. cbn. lia.
  - by rewrite tbl_items_length.
  - intros i x y Hi. rewrite tbl_items_lookup by done. intros [= <-].
    unfold cell, append. cbn [tbl_arr]. destruct (decide (i = tbl_num t)) as [->|].
    + rewrite lookup_insert_eq, lookup_app_r by (rewrite tbl_items_length; lia).
      rewrite tbl_items_length, Nat.sub_diag. by intros [= <-].
    + rewrite lookup_insert_ne by done. rewrite lookup_app_l by (rewrite tbl_items_length; lia).
      rewrite tbl_items_lookup by lia. by intros [= <-].
Qed.

Lemma tbl_items_write {E} (zero : E) t i e : (i < tbl_num t)%nat ->
  tbl_items zero (mk_table (<[i := e]> (tbl_arr t)) (tbl_num t)) = <[i := e]> (tbl_items zero t).
Proof.
  intros Hi. apply list_eq_same_length with (n := tbl_num t).
  - by rewrite length_insert, tbl_items_length.
  - by rewrite tbl_items_length.
  - intros j x y Hj. rewrite tbl_items_lookup by done. intros [= <-]. unfold cell. cbn [tbl_arr].
    destruct (decide (i = j)) as [->|].
    + rewrite lookup_insert_eq, list_lookup_insert_eq by (rewrite tbl_items_length; lia). by intros [= <-].
    + rewrite lookup_insert_ne, list_lookup_insert_ne, tbl_items_lookup by done. by intros [= <-].
Qed.

Lemma find_real_items v t : find_real v t =
  foldl (fun res e => if virt e =? v then Some (real e) else res) None (tbl_items IdMap_zero t).
Proof.
  unfold find_real, tbl_items. generalize (@None Z) as acc. generalize (seq 0 (tbl_num t)) as l.
  induction l as [|i l IH]; intros acc; [done|]. cbn. apply IH.
Qed.

Lemma foldl_last_match v l acc : NoDup (virt <$> l) ->
  foldl (fun res e => if virt e =? v then Some (real e) else res) acc l =
  match list_to_map (M := gmap Z Z) ((fun e => (virt e, real e)) <$> l) !! v with
  | Some r => Some r | None => acc end.
Proof.
  revert acc. induction l as [|e l IH]; intros acc Hnd; [done|].
  rewrite fmap_cons in Hnd. apply NoDup_cons in Hnd as [Hn Hnd].
  rewrite fmap_cons. cbn [foldl list_to_map foldr fst snd]. rewrite IH by done.
  change (foldr _ ∅ ?x) with (list_to_map (M := gmap Z Z) x).
  destruct (Z.eqb_spec (virt e) v) as [<-|Hne].
  - rewrite lookup_insert_eq.
    rewrite (not_elem_of_list_to_map_1 _ (virt e)); [done|].
    by rewrite <- list_fmap_compose.
  - rewrite lookup_insert_ne by done. done.
Qed.

Lemma find_real_view v t : id_table_wf t -> find_real v t = id_view t !! v.
Proof. intros H. rewrite find_real_items, foldl_last_match by done. unfold id_view. by destruct (_ !! v). Qed.

Lemma find_slot_spec v t idx :
  (exists i, find_slot v t idx = i /\ i ∈ idx /\ virt (cell IdMap_zero t i) = v) \/
  (find_slot v t idx = tbl_num t /\ forall i, i ∈ idx -> virt (cell IdMap_zero t i) <> v).
Proof.
  induction idx as [|i idx IH]; cbn [find_slot]; [right; split; [done|]; set_solver|].
  destruct (Z.eqb_spec (virt (cell IdMap_zero t i)) v) as [E|E]; [left; exists i; set_solver|].
  destruct IH as [(j & -> & Hj & Hv)|[-> Hn]]; [left; exists j; set_solver|].
  right. split; [done|]. set_solver.
Qed.

Lemma id_view_lookup_None v t : id_view t !! v = None <->
  forall i, i ∈ seq 0 (tbl_num t) -> virt (cell IdMap_zero t i) <> v.
Proof.
  unfold id_view. rewrite <- not_elem_of_list_to_map, <- list_fmap_compose. unfold tbl_items.
  rewrite <- list_fmap_compose, list_elem_of_fmap. cbn. split.
  - intros H i Hi E. apply H. by exists i.
  - intros H (i & -> & Hi). by apply (H i).
Qed.

(** Writing a table cell or appending one is inserting into the map. *)
Lemma set_map_refines cap v r t : id_table_wf t -> (tbl_num t <= cap)%nat ->
  match set_map cap v r t with
  | Some t' => id_view t' = <[v := r]> (id_view t) /\ id_table_wf t' /\ (tbl_num t' <= cap)%nat
  | None => id_view t !! v = None /\ tbl_num t = cap
  end.
Proof.
  intros Hwf Hcap. unfold set_map.
  destruct (find_slot_spec v t (seq 0 (tbl_num t))) as [(i & -> & Hi & Hv)|[-> Hn]].
  - apply elem_of_seq in Hi. destruct (Nat.eqb_spec i (tbl_num t)) as [|_]; [lia|].
    assert (Hl : tbl_items IdMap_zero t !! i = Some (cell IdMap_zero t i)) by (apply tbl_items_lookup; lia).
    split_and!; [| |cbn; lia].
    + unfold id_view. rewrite tbl_items_write, list_fmap_insert by lia. cbn [virt real]. rewrite Hv.
      apply map_eq. intros w. destruct (decide (v = w)) as [->|Hne].
      * rewrite lookup_insert_eq. apply elem_of_list_to_map_1.
        -- rewrite list_fmap_insert. cbn. rewrite <- list_fmap_compose.
           rewrite list_insert_id; [done|]. rewrite list_lookup_fmap, Hl. cbn. by rewrite Hv.
        -- apply list_elem_of_lookup_2 with i. apply list_lookup_insert_eq.
           rewrite length_fmap, tbl_items_length. lia.
      * rewrite lookup_insert_ne by done. apply option_eq. intros x.
        rewrite <- !elem_of_list_to_map.
        -- rewrite !list_elem_of_lookup. split; intros [j Hj].
           ++ destruct (decide (i = j)) as [->|]; [|rewrite list_lookup_insert_ne in Hj by done; eauto].
              rewrite list_lookup_insert_eq in Hj by (rewrite length_fmap, tbl_items_length; lia). congruence.
           ++ exists j. destruct (decide (i = j)) as [->|]; [|by rewrite list_lookup_insert_ne].
              rewrite list_lookup_fmap, Hl in Hj. cbn in Hj. congruence.
        -- by rewrite <- list_fmap_compose.
        -- rewrite list_fmap_insert. cbn. rewrite <- list_fmap_compose.
           rewrite list_insert_id; [done|]. rewrite list_lookup_fmap, Hl. cbn. by rewrite Hv.
    + unfold id_table_wf. rewrite tbl_items_write, list_fmap_insert by lia. cbn [virt].
      rewrite list_insert_id; [done|]. by rewrite list_lookup_fmap, Hl.
  - rewrite Nat.eqb_refl. assert (Hnone : id_view t !! v = None) by by apply id_view_lookup_None.
    destruct (Nat.ltb_spec (tbl_num t) cap); [|split; [done|lia]].
    split_and!; [| |cbn; lia].
    + unfold id_view in *. rewrite tbl_items_append, fmap_app.
      change (_ <$> [mk_IdMap v r]) with [(v, r)]. rewrite list_to_map_snoc; [done|].
      by apply not_elem_of_list_to_map.
    + unfold id_table_wf. rewrite tbl_items_append, fmap_app. apply NoDup_app. split_and!; [done| |].
      * intros w Hw ->%list_elem_of_singleton. cbn in Hw.
        apply not_elem_of_list_to_map_2 in Hnone. apply Hnone. by rewrite <- list_fmap_compose.
      * apply NoDup_singleton.
Qed.

Lemma ensure_mapped a : a_mapped a = true -> ensure a = Ok tt a.
Proof. intros H. unfold ensure, gets, mbind, M_bind. by rewrite H. Qed.

Lemma getRealPid_view a v : a_mapped a = true -> id_table_wf (h_pidMap (a_header a)) ->
  getRealPid v a = Ok (default (-1) (id_view (h_pidMap (a_header a)) !! v)) a.
Proof.
  intros Hm Hwf. unfold getRealPid. rewrite (bind_ok _ _ _ _ _ (ensure_mapped a Hm)).
  unfold hdr, gets, mbind, M_bind. by rewrite find_real_view.
Qed.

(** *** Pseudo-terminal names *)

Definition pty_items (a : Area) : list PtyNameMap := tbl_items PtyNameMap_zero (h_ptyNameMap (a_header a)).

(** Every name in the table was made from a number below the next one. *)
Definition pty_wf (a : Area) : Prop :=
  0 <= h_nextVirtualPtyId (a_header a) <= UINT32_MAX /\
  Forall (fun e => exists n, pty_virt e = VIRT_PTS_PREFIX_STR +:+ XToString n /\
                        0 <= n < h_nextVirtualPtyId (a_header a)) (pty_items a).

Lemma find_pty_items f t idx : find_pty f t idx = head (filter (fun e => f e = true) (cell PtyNameMap_zero t <$> idx)).
Proof.
  induction idx as [|i idx IH]; [done|]. cbn [find_pty]. rewrite fmap_cons, filter_cons, IH.
  destruct (f _) eqn:E; case_decide; done || congruence.
Qed.

Lemma str_app_inj p a b : p +:+ a = p +:+ b -> a = b.
Proof. induction p as [|c p IH]; [done|]. rewrite !str_app_cons. intros [= H]. by apply IH. Qed.

Lemma XToString_inj n m : in_int64 n = true -> in_int64 m = true -> XToString n = XToString m -> n = m.
Proof.
  intros Hn Hm E. apply StringToInt64_XToString in Hn, Hm. rewrite E in Hn. congruence.
Qed.

Lemma pty_fresh a n : pty_wf a -> n = h_nextVirtualPtyId (a_header a) ->
  filter (fun e => String.eqb (VIRT_PTS_PREFIX_STR +:+ XToString n) (pty_virt e) = true) (pty_items a) = [].
Proof.
  intros [Hr Hf] ->. destruct (filter _ _) as [|e l] eqn:E; [done|exfalso].
  assert (He : e ∈ e :: l) by apply list_elem_of_here. rewrite <- E in He.
  apply list_elem_of_filter in He as [Heq%String.eqb_eq He].
  destruct (proj1 (Forall_forall _ _) Hf e He) as (m & Hm & Hlt).
  rewrite Hm in Heq. apply str_app_inj in Heq.
  unfold UINT32_MAX in Hr. apply XToString_inj in Heq; [lia|..];
    unfold in_int64; apply andb_true_intro; split; apply Z.leb_le; lia.
Qed.

(** *** Inode leaders *)

Definition inode_items (a : Area) : list InodeConnIdMap :=
  tbl_items InodeConnIdMap_zero (h_inodeConnIdMap (a_header a)).

Definition is_file (dev ino : Z) (m : InodeConnIdMap) : bool := (devnum m =? dev) && (inode m =? ino).

Lemma find_leader_last t dev ino :
  find_leader t dev ino (tbl_num t) =
  conn_id <$> last (filter (fun m => is_file dev ino m = true) (tbl_items InodeConnIdMap_zero t)).
Proof.
  unfold tbl_items. induction (tbl_num t) as [|n IH]; [done|].
  rewrite seq_S, fmap_app, filter_app. cbn [find_leader Nat.add].
  change (cell InodeConnIdMap_zero t <$> [n]) with [cell InodeConnIdMap_zero t n].
  rewrite filter_cons. fold (is_file dev ino (cell InodeConnIdMap_zero t n)).
  destruct (is_file dev ino (cell _ t n)) eqn:E; case_decide as D; try congruence.
  - by rewrite filter_nil, last_snoc.
  - by rewrite filter_nil, app_nil_r.
Qed.

Lemma fill_inodes_spec maps : forall a start,
  let t := h_inodeConnIdMap (a_header a) in
  (start + length maps)%nat = tbl_num t ->
  if (start + length maps <=? MAX_INODE_PID_MAPS)%nat || (length maps =? 0)%nat then
    exists t', fill_inodes start maps a = Ok tt (a <| a_header ::= fun h => h <| h_inodeConnIdMap := t' |> |>) /\
      tbl_num t' = tbl_num t /\
      forall i, cell InodeConnIdMap_zero t' i =
        (if decide (start <= i)%nat then default (cell InodeConnIdMap_zero t i) (maps !! (i - start)%nat)
         else cell InodeConnIdMap_zero t i)
  else exists a', fill_inodes start maps a = Fault (OutOfBounds "inodeConnIdMap") a'.
Proof.
  induction maps as [|m maps IH]; intros a start t Hlen.
  - rewrite orb_true_r. exists t. split_and!; [by destruct a as [[]]|done|].
    intros i. by case_decide.
  - cbn [length] in *. rewrite orb_false_r. cbn [fill_inodes].
    destruct (Nat.ltb_spec start MAX_INODE_PID_MAPS) as [Hs|Hs].
    2:{ destruct (Nat.leb_spec (start + S (length maps)) MAX_INODE_PID_MAPS); [lia|]. by eexists. }
    erewrite (bind_ok (set_hdr _)) by reflexivity.
    set (a1 := a <| a_header ::= _ |>).
    specialize (IH a1 (S start)). cbv zeta in IH.
    assert (Ht1 : h_inodeConnIdMap (a_header a1) = mk_table (<[start := m]> (tbl_arr t)) (tbl_num t)) by done.
    rewrite Ht1 in IH. cbn [tbl_num] in IH.
    replace (S start + length maps)%nat with (start + S (length maps))%nat in IH by lia.
    specialize (IH Hlen).
    destruct (Nat.leb_spec (start + S (length maps)) MAX_INODE_PID_MAPS) as [Hle|Hgt].
    + cbn [orb] in IH. destruct IH as (t' & Hrun & Hnum & Hcell). exists t'. split_and!; [|done|].
      * rewrite Hrun. by destruct a as [[]].
      * intros i. rewrite Hcell. unfold cell at 1 2. cbn [tbl_arr].
        destruct (decide (start = i)) as [->|Hne].
        -- rewrite Nat.sub_diag, lookup_insert_eq. case_decide; [lia|]. by case_decide; [|lia].
        -- rewrite lookup_insert_ne by done. case_decide; case_decide; try lia; [|done].
           by replace (i - start)%nat with (S (i - S start)) by lia.
    + destruct (Nat.eqb_spec (length maps) 0) as [E|E]; [lia|]. exact IH.
Qed.

Lemma insertInodes_spec a maps : a_mapped a = true ->
  if (length (inode_items a) + length maps <=? MAX_INODE_PID_MAPS)%nat || (length maps =? 0)%nat then
    exists a', insertInodeConnIdMaps maps a = Ok tt a' /\ a_mapped a' = true /\
      inode_items a' = inode_items a ++ maps
  else exists a', insertInodeConnIdMaps maps a = Fault (OutOfBounds "inodeConnIdMap") a'.
Proof.
  intros Hm. unfold insertInodeConnIdMaps. rewrite (bind_ok _ _ _ _ _ (ensure_mapped a Hm)).
  erewrite (bind_ok (hdr _)) by reflexivity. erewrite (bind_ok (set_hdr _)) by reflexivity.
  set (a1 := a <| a_header ::= _ |>).
  pose proof (fill_inodes_spec maps a1 (tbl_num (h_inodeConnIdMap (a_header a)))) as H. cbv zeta in H.
  assert (Ht1 : h_inodeConnIdMap (a_header a1) =
    mk_table (tbl_arr (h_inodeConnIdMap (a_header a))) (tbl_num (h_inodeConnIdMap (a_header a)) + length maps)) by done.
  rewrite Ht1 in H. cbn [tbl_num] in H. specialize (H eq_refl).
  unfold inode_items. rewrite tbl_items_length.
  destruct (_ || _); [|exact H]. destruct H as (t' & Hrun & Hnum & Hcell).
  eexists. split_and!; [exact Hrun|done|].
  match goal with |- tbl_items _ ?x = _ => change x with t' end.
  apply list_eq_same_length with (n := (tbl_num (h_inodeConnIdMap (a_header a)) + length maps)%nat).
  - by rewrite length_app, tbl_items_length.
  - by rewrite tbl_items_length.
  - intros i x y Hi. rewrite tbl_items_lookup by lia. intros [= <-]. rewrite Hcell.
    change (cell InodeConnIdMap_zero (mk_table ?x _) i) with (cell InodeConnIdMap_zero (h_inodeConnIdMap (a_header a)) i).
    case_decide.
    + rewrite lookup_app_r by (rewrite tbl_items_length; lia). rewrite tbl_items_length.
      destruct (maps !! _); [by intros [= <-]|done].
    + rewrite lookup_app_l by (rewrite tbl_items_length; lia). rewrite tbl_items_lookup by lia. by intros [= <-].
Qed.

Lemma insert_batches_spec batches : forall a, a_mapped a = true ->
  (length (inode_items a) + length (concat batches) <= MAX_INODE_PID_MAPS)%nat ->
  exists a', forM batches insertInodeConnIdMaps a = Ok tt a' /\ a_mapped a' = true /\
    inode_items a' = inode_items a ++ concat batches.
Proof.
  induction batches as [|b bs IH]; intros a Hm Hl.
  { exists a. cbn. by rewrite app_nil_r. }
  cbn [concat forM] in *. rewrite length_app in Hl.
  pose proof (insertInodes_spec a b Hm) as H.
  destruct (Nat.leb_spec (length (inode_items a) + length b) MAX_INODE_PID_MAPS); [|lia].
  destruct H as (a1 & Hrun & Hm1 & Hi1). rewrite (bind_ok _ _ _ _ _ Hrun).
  destruct (IH a1 Hm1) as (a' & Hr' & Hm' & Hi'); [rewrite Hi1, length_app; lia|].
  exists a'. split_and!; [done|done|]. by rewrite Hi', Hi1, app_assoc.
Qed.

(** ** Theorems *)

(** The pid table of the shared area is a finite map: a lookup returns the
    real pid last stored for the virtual one and -1 when there is none, a store
    changes that one entry and nothing else of the area, and the only failure is
    the ASSERT on a new pid when all 32768 slots are taken. *)
Theorem shared_pid_map_correct a v r :
  a_mapped a = true -> id_table_wf (h_pidMap (a_header a)) ->
  (tbl_num (h_pidMap (a_header a)) <= MAX_PID_MAPS)%nat ->
  (forall w, getRealPid w a = Ok (default (-1) (id_view (h_pidMap (a_header a)) !! w)) a) /\
  match setPidMap v r a with
  | Ok _ a' => exists t', a' = a <| a_header ::= fun h => h <| h_pidMap := t' |> |> /\
      id_view t' = <[v := r]> (id_view (h_pidMap (a_header a))) /\ id_table_wf t' /\
      (tbl_num t' <= MAX_PID_MAPS)%nat
  | Fault f _ => f = AssertFailed "shared-data PID map is full" /\
      id_view (h_pidMap (a_header a)) !! v = None /\ tbl_num (h_pidMap (a_header a)) = MAX_PID_MAPS
  | Exit _ _ => False
  end.
Proof.
  intros Hm Hwf Hcap. split; [intros w; by apply getRealPid_view|].
  unfold setPidMap. rewrite (bind_ok _ _ _ _ _ (ensure_mapped a Hm)).
  erewrite (bind_ok (hdr _)) by reflexivity.
  pose proof (set_map_refines MAX_PID_MAPS v r _ Hwf Hcap) as H.
  destruct (set_map MAX_PID_MAPS v r _) as [t'|]; [by exists t'|]. exact (conj eq_refl H).
Qed.

Definition example_area : Area := mk_Area (Header_zero <| h_initialized := true |>) true true DMTCP_ARCH_32 UINT32_MAX.

Lemma shared_pid_map_correct_witness :
  exists a', setPidMap 40000 1234 example_area = Ok tt a' /\
    id_view (h_pidMap (a_header a')) = {[ 40000 := 1234 ]}.
Proof.
  pose proof (shared_pid_map_correct example_area 40000 1234 eq_refl) as H.
  destruct H as [_ H]; [apply NoDup_nil_2|apply Nat.le_0_l|].
  destruct (setPidMap 40000 1234 example_area) as [[] a'| |] eqn:E.
  - exists a'. split; [reflexivity|]. destruct H as (t' & -> & Hv & _). exact Hv.
  - destruct H.
  - destruct H as (_ & _ & H). discriminate H.
Defined.

(** The SysV tables: looking an identifier up with insertion leaves it
    mapped (to itself when it was new), lookups agree with the finite map, and
    the tables of the other three kinds are untouched. *)
Theorem shared_ipc_map_correct a type ty v r :
  a_mapped a = true -> ipc_type_of type = Some ty ->
  (forall ty', id_table_wf (ipc_map ty' (a_header a))) ->
  (tbl_num (ipc_map ty (a_header a)) < MAX_IPC_ID_MAPS)%nat ->
  let view ty' a' := id_view (ipc_map ty' (a_header a')) in
  (exists a', getRealIPCId type v true a = Ok (default v (view ty a !! v)) a' /\
     view ty a' = <[v := default v (view ty a !! v)]> (view ty a) /\
     (forall ty', ty' <> ty -> view ty' a' = view ty' a)) /\
  (exists a', setIPCIdMap type v r a = Ok tt a' /\ view ty a' = <[v := r]> (view ty a) /\
     (forall ty', ty' <> ty -> view ty' a' = view ty' a)).
Proof.
  intros Hm Hty Hwf Hcap view.
  assert (Hput : forall t (h : Header), ipc_map ty (set_ipc_map ty t h) = t /\
            forall ty', ty' <> ty -> ipc_map ty' (set_ipc_map ty t h) = ipc_map ty' h)
    by (intros t h; destruct ty; (split; [reflexivity|intros [] ?]); reflexivity || congruence).
  split.
  - unfold getRealIPCId. rewrite (bind_ok _ _ _ _ _ (ensure_mapped a Hm)), Hty.
    erewrite (bind_ok (optM _ _)) by reflexivity. erewrite (bind_ok (hdr _)) by reflexivity.
    rewrite find_real_view by done. unfold view. destruct (id_view (ipc_map ty (a_header a)) !! v) as [x|] eqn:E.
    + exists a. split_and!; [done| |done]. cbn. by rewrite insert_id.
    + destruct (Nat.ltb_spec (tbl_num (ipc_map ty (a_header a))) MAX_IPC_ID_MAPS); [|lia].
      eexists. split_and!; [reflexivity| |].
      * rsimpl. rewrite (proj1 (Hput _ _)). unfold id_view in *. rewrite tbl_items_append, fmap_app.
        change (_ <$> [mk_IdMap v v]) with [(v, v)]. rewrite list_to_map_snoc; [done|].
        by apply not_elem_of_list_to_map.
      * intros ty' Hne. rsimpl. by rewrite (proj2 (Hput _ _)).
  - unfold setIPCIdMap. rewrite (bind_ok _ _ _ _ _ (ensure_mapped a Hm)), Hty.
    erewrite (bind_ok (optM _ _)) by reflexivity. erewrite (bind_ok (hdr _)) by reflexivity.
    pose proof (set_map_refines MAX_IPC_ID_MAPS v r _ (Hwf ty)) as H.
    destruct (set_map MAX_IPC_ID_MAPS v r _) as [t'|].
    + destruct H as (Hv & _ & _); [lia|]. eexists. split_and!; [reflexivity| |].
      * unfold view. rsimpl. rewrite (proj1 (Hput _ _)). done.
      * intros ty' Hne. unfold view. rsimpl. by rewrite (proj2 (Hput _ _)).
    + destruct H as [_ H]; [lia|]. lia.
Qed.

Lemma shared_ipc_map_correct_witness :
  exists a', getRealIPCId 2 77 true example_area = Ok 77 a' /\
    id_view (ipc_map SYSV_SEM_ID (a_header a')) = {[ 77 := 77 ]}.
Proof.
  destruct (shared_ipc_map_correct example_area 2 SYSV_SEM_ID 77 0 eq_refl eq_refl) as [(a' & H1 & H2 & _) _].
  - intros []; apply NoDup_nil_2.
  - apply Nat.ltb_lt. reflexivity.
  - exists a'. split; [exact H1|exact H2].
Defined.

(** A virtual terminal name is new and leads back to its terminal: the
    name [createVirtualPtyName] returns was not in the table, a later
    [getRealPtyName] of it gives the real name it was made for, and the table
    stays well formed. *)
Theorem pty_name_roundtrip a real len len' virt a' :
  a_mapped a = true -> pty_wf a -> createVirtualPtyName real len a = Ok virt a' ->
  Z.of_nat (String.length real) < len' ->
  virt ∉ (pty_virt <$> pty_items a) /\ getRealPtyName virt len' a' = Ok real a' /\ pty_wf a'.
Proof.
  intros Hm Hwf Hrun Hlen. unfold createVirtualPtyName in Hrun.
  rewrite (bind_ok _ _ _ _ _ (ensure_mapped a Hm)) in Hrun. erewrite (bind_ok (hdr _)) in Hrun by reflexivity.
  set (n := h_nextVirtualPtyId (a_header a)) in *.
  apply bind_ok_inv in Hrun as ([] & s1 & Hassert & Hrun).
  destruct (Z.eqb_spec n UINT32_MAX) as [|Hn]; [done|]. injection Hassert as <-.
  erewrite (bind_ok (set_hdr _)) in Hrun by reflexivity. erewrite (bind_ok (hdr _)) in Hrun by reflexivity.
  repeat (apply bind_ok_inv in Hrun as ([] & s1 & Hassert & Hrun);
          unfold assertM in Hassert; match type of Hassert with (if ?b then _ else _) _ = _ => destruct b end;
          [injection Hassert as <-|done]).
  erewrite (bind_ok (set_hdr _)) in Hrun by reflexivity.
  apply bind_ok_inv in Hrun as ([] & s1 & Hassert & Hrun). unfold assertM in Hassert.
  match type of Hassert with (if ?b then _ else _) _ = _ => destruct b end; [injection Hassert as <-|done].
  injection Hrun as <- <-. rsimpl.
  pose proof (pty_fresh a n Hwf eq_refl) as Hfresh.
  set (t := h_ptyNameMap (a_header a)) in *.
  match goal with |- context [getRealPtyName _ _ ?s] => set (a' := s) end.
  assert (Hit : pty_items a' = pty_items a ++ [mk_PtyNameMap (VIRT_PTS_PREFIX_STR +:+ XToString n) real])
    by apply tbl_items_append.
  split_and!.
  - intros (e & He & Hin)%list_elem_of_fmap.
    refine (filter_nil_not_elem_of _ _ e Hfresh _ Hin). cbn. apply String.eqb_eq. done.
  - unfold getRealPtyName. rewrite (bind_ok _ _ _ _ _ (ensure_mapped a' Hm)).
    erewrite (bind_ok (hdr _)) by reflexivity. rewrite find_pty_items.
    change (cell _ _ <$> _) with (pty_items a'). rewrite Hit, filter_app, Hfresh, filter_cons.
    cbn [pty_virt]. rewrite String.eqb_refl. case_decide; [|done]. cbn [app head pty_real].
    apply Z.ltb_lt in Hlen as ->. reflexivity.
  - destruct Hwf as [Hr Hf]. fold n in Hr, Hf.
    assert (Hnext : h_nextVirtualPtyId (a_header a') = n + 1).
    { unfold a'. rsimpl. unfold to_uint64. rewrite wrap_u_small; [done|]. unfold UINT32_MAX in *. lia. }
    split; [rewrite Hnext; lia|]. rewrite Hit, Hnext. apply Forall_app. split.
    + eapply Forall_impl; [exact Hf|]. cbn. intros e (m & ? & ?). exists m. split; [done|lia].
    + apply Forall_singleton. exists n. split; [done|lia].
Qed.

Lemma pty_name_roundtrip_witness :
  exists a', createVirtualPtyName "/dev/pts/3" 32 example_area = Ok "/dev/pts/v0" a' /\
    getRealPtyName "/dev/pts/v0" 32 a' = Ok "/dev/pts/3" a'.
Proof.
  eexists. split; [vm_compute; reflexivity|].
  refine (proj1 (proj2 (pty_name_roundtrip example_area "/dev/pts/3" 32 32 "/dev/pts/v0" _ eq_refl _ _ _))).
  - split; [split; discriminate|apply Forall_nil_2].
  - vm_compute. reflexivity.
  - reflexivity.
Defined.

(** The processes of a host agree on the leader of a shared file: after
    every process has inserted its list, in whatever order, the leader of a file
    is the owner of the last matching entry, and one more entry than the array
    has room for is written beyond its end. *)
Theorem inode_leader_correct a batches dev ino :
  a_mapped a = true -> inode_items a = [] ->
  (length (concat batches) <= MAX_INODE_PID_MAPS)%nat ->
  (exists a', forM batches insertInodeConnIdMaps a = Ok tt a' /\
     getCkptLeaderForFile dev ino a' =
       Ok (conn_id <$> last (filter (fun m => is_file dev ino m = true) (concat batches))) a') /\
  (forall m, length (concat batches) = MAX_INODE_PID_MAPS ->
     exists a', forM (batches ++ [[m]]) insertInodeConnIdMaps a = Fault (OutOfBounds "inodeConnIdMap") a').
Proof.
  intros Hm Hi Hl. destruct (insert_batches_spec batches a Hm) as (a' & Hrun & Hm' & Hi');
    [rewrite Hi; cbn; lia|]. rewrite Hi in Hi'. cbn in Hi'. split.
  - exists a'. split; [done|]. unfold getCkptLeaderForFile.
    rewrite (bind_ok _ _ _ _ _ (ensure_mapped a' Hm')). erewrite (bind_ok (hdr _)) by reflexivity.
    rewrite find_leader_last. fold (inode_items a'). by rewrite Hi'.
  - intros m Hfull. pose proof (insertInodes_spec a' [m] Hm') as H. rewrite Hi', Hfull in H.
    destruct (Nat.leb_spec (MAX_INODE_PID_MAPS + length [m]) MAX_INODE_PID_MAPS); [cbn in *; lia|].
    destruct H as [a2 H]. exists a2. clear -Hrun H.
    revert a Hrun. induction batches as [|b bs IH]; intros a Hrun; cbn [app forM] in *.
    + injection Hrun as ->. unfold mbind, M_bind. by rewrite H.
    + apply bind_ok_inv in Hrun as ([] & s1 & H1 & H2). rewrite (bind_ok _ _ _ _ _ H1). by apply IH.
Qed.

Lemma inode_leader_correct_witness :
  exists a', forM [[mk_InodeConnIdMap 8 5 "A"]; [mk_InodeConnIdMap 8 5 "B"; mk_InodeConnIdMap 8 6 "B"]]
               insertInodeConnIdMaps example_area = Ok tt a' /\
    getCkptLeaderForFile 8 5 a' = Ok (Some "B") a'.
Proof.
  destruct (inode_leader_correct example_area
    [[mk_InodeConnIdMap 8 5 "A"]; [mk_InodeConnIdMap 8 5 "B"; mk_InodeConnIdMap 8 6 "B"]] 8 5)
    as [(a' & H1 & H2) _].
  - reflexivity.
  - reflexivity.
  - apply Nat.leb_le. reflexivity.
  - exists a'. split; [exact H1|exact H2].
Defined.
