(* ===== verification/SharedSync.v ===== *)
(** * Processes meeting at the shared area

    Two protocols of src/shareddata.cpp as interleavings of their atomic
    steps: how processes create or join the area ([SharedData::initialize]),
    and the futex barrier of [SharedData::waitForBarrier] that mixed 32/64-bit
    computations use.  A step is one system call or one locked region. *)

From Stdlib Require Import ZArith Lia Ascii Relations.
From stdpp Require Import base gmap strings numbers list relations.
From S2P Require Import Prelude CText Identity SharedArea.
Open Scope Z_scope.

(** ** Creating and joining *)

Module Join.
(** Where a process is in [initialize]. *)
Inductive pc : Type :=
| Start                (* before open(O_CREAT | O_EXCL) *)
| Creator              (* needToInitialize: before taking the lock *)
| Waiting              (* the file existed: polling [initialized] *)
| Joined
| Died (f : fault).

Record Args : Type := mk_Args {
  arg_tmpDir : string; arg_installDir : string; arg_compId : UniquePid;
  arg_coordInfo : CoordinatorInfo; arg_localIP : Z; arg_mode : DMTCP_ARCH_MODE
}.

(** [made_by] is history: the process whose open created the file. *)
Record State : Type := mk_State {
  file : option Header;      (* the file at the shared path, None before it is created *)
  made_by : option nat;
  pcs : nat -> pc
}.

Definition set_pc (s : State) (p : nat) (c : pc) : nat -> pc := fun q => if decide (q = p) then c else pcs s q.

(** The static nextVirtualPtyId is read by [initializeHeader] only, in a process
    that has not used the area yet. *)
Definition area_of (args : nat -> Args) (p : nat) (h : Header) : Area :=
  mk_Area h true true (arg_mode (args p)) UINT32_MAX.

Definition final {A} (o : outcome Area A) : Area := match o with Ok _ a | Exit _ a | Fault _ a => a end.

(** The header and the place of the process after a locked region. *)
Definition region {A} (m : M Area A) (a : Area) : Header * pc :=
  (a_header (final (m a)),
   match m a with Ok _ _ => Joined | Fault f _ => Died f | Exit _ _ => Died (AssertFailed "exit") end).

(** Every operation by which a process that has joined may change the header. *)
Inductive use : Type :=
| UsePid (v r : Z) | UseIPC (type v r : Z) | UseRealIPC (type v : Z) (insertIfNotFound : bool)
| UseGeneration (generation : Z) | UseCoordHost (addr : Z) | UseDlsym (off off_m32 : Z)
| UseNewPty (real : string) (len : Z) | UsePtyId (id : Z) | UsePtyName (virt real : string)
| UseIncoming (ids : list string) (receiverAddr : string) (len : Z) | UseInodes (maps : list InodeConnIdMap)
| UseResetBarrier | UsePrepareForCkpt | UsePostRestart
| UseBarrier (numIn curRound : Z).      (* the regions of waitForBarrier *)

Definition perform (u : use) : M Area unit :=
  match u with
  | UsePid v r => setPidMap v r
  | UseIPC type v r => setIPCIdMap type v r
  | UseRealIPC type v ins => _ ← getRealIPCId type v ins; mret tt
  | UseGeneration g => updateGeneration g
  | UseCoordHost addr => setCoordHost addr
  | UseDlsym off off_m32 => updateDlsymOffset off off_m32
  | UseNewPty real len => _ ← createVirtualPtyName real len; mret tt
  | UsePtyId id => setVirtualPtyId id
  | UsePtyName virt real => insertPtyNameMap virt real
  | UseIncoming ids addr len => registerIncomingCons ids addr len
  | UseInodes maps => insertInodeConnIdMaps maps
  | UseResetBarrier => resetBarrierInfo
  | UsePrepareForCkpt => prepareForCkpt
  | UsePostRestart => postRestart
  | UseBarrier n r => set_hdr (fun h => h <| h_numIn := n |> <| h_curRound := r |>)
  end.

Section steps.
Context (args : nat -> Args).

Inductive step : State -> State -> Prop :=
| step_create s p :
    pcs s p = Start -> file s = None ->
    step s (mk_State (Some Header_zero) (Some p) (set_pc s p Creator))
| step_exists s p h :
    pcs s p = Start -> file s = Some h ->
    step s (mk_State (file s) (made_by s) (set_pc s p Waiting))
| step_init s p h r :
    pcs s p = Creator -> file s = Some h ->
    r = region (initializeHeader (arg_tmpDir (args p)) (arg_installDir (args p)) (arg_compId (args p))
                  (arg_coordInfo (args p)) (arg_localIP (args p))) (area_of args p h) ->
    step s (mk_State (Some r.1) (made_by s) (set_pc s p r.2))
| step_attach s p h r :
    pcs s p = Waiting -> file s = Some h -> h_initialized h = true ->
    r = region attach (area_of args p h) ->
    step s (mk_State (Some r.1) (made_by s) (set_pc s p r.2))
| step_use s p h u r :
    pcs s p = Joined -> file s = Some h -> r = region (perform u) (area_of args p h) ->
    step s (mk_State (Some r.1) (made_by s) (set_pc s p r.2)).

Definition init : State := mk_State None None (fun _ => Start).
Definition reachable (s : State) : Prop := rtc step init s.
End steps.

(** ** What a header keeps

    [came_from a h]: the header [h] is that of the process with the arguments [a];
    its generation and the address of the coordinator may have been updated. *)
Definition came_from (a : Args) (h : Header) : Prop :=
  h_initialized h = true /\ h_versionStr h = SHM_VERSION_STR /\
  h_tmpDir h = arg_tmpDir a /\ h_installDir h = arg_installDir a /\ h_localIPAddr h = arg_localIP a /\
  h_compId h = (arg_compId a) <| up_generation := up_generation (h_compId h) |> /\
  h_coordInfo h = (arg_coordInfo a) <| ci_addr := ci_addr (h_coordInfo h) |>.

(** The virtual identifiers with an entry: of processes, or of a kind of IPC. *)
Definition ids_of (k : option ipc_type) (h : Header) : list Z :=
  virt <$> tbl_items IdMap_zero (match k with None => h_pidMap h | Some ty => ipc_map ty h end).

Definition inv (args : nat -> Args) (s : State) : Prop :=
  match file s with
  | None => forall p, pcs s p = Start
  | Some h =>
      exists c, made_by s = Some c /\
      ((h_initialized h = false /\ pcs s c = Creator /\
         forall p, p <> c -> pcs s p = Start \/ pcs s p = Waiting) \/
       (came_from (args c) h /\ forall p, pcs s p <> Creator))
  end.
End Join.

(** ** The futex barrier *)

Module Barrier.
(** Where a process is in [waitForBarrier]: outside; past the first locked
    region with the values it read there; asleep in FUTEX_WAIT. *)
Inductive bpc : Type :=
| Outside
| Entered (numIn curRound : Z)
| Asleep.

(** [entered] and [passed] count this process's barriers; they are history. *)
Record proc : Type := mk_proc { at_ : bpc; entered : Z; passed : Z }.

Record BState : Type := mk_BState {
  procs : list proc;      (* numCkptPeers of them *)
  numIn : Z;              (* uint32_t *)
  curRound : Z            (* uint32_t *)
}.

Definition peers (s : BState) : Z := Z.of_nat (length (procs s)).

Definition leave (p : proc) : proc := mk_proc Outside (entered p) (passed p + 1).
Definition wake (p : proc) : proc := match at_ p with Asleep => leave p | _ => p end.

Inductive bstep : BState -> BState -> Prop :=
(* lock; numIn = ++barrierInfo.numIn; curRound = barrierInfo.curRound; unlock *)
| step_enter s i p n :
    procs s !! i = Some p -> at_ p = Outside -> n = to_uint32 (numIn s + 1) ->
    bstep s (mk_BState (<[i := mk_proc (Entered n (curRound s)) (entered p + 1) (passed p)]> (procs s))
                     n (curRound s))
(* numIn < numCkptPeers: FUTEX_WAIT sleeps when the word still has the value *)
| step_sleep s i p n r :
    procs s !! i = Some p -> at_ p = Entered n r -> n < peers s -> curRound s = r ->
    bstep s (mk_BState (<[i := mk_proc Asleep (entered p) (passed p)]> (procs s)) (numIn s) (curRound s))
(* ... and fails with EAGAIN when it does not; the process goes on *)
| step_again s i p n r :
    procs s !! i = Some p -> at_ p = Entered n r -> n < peers s -> curRound s <> r ->
    bstep s (mk_BState (<[i := leave p]> (procs s)) (numIn s) (curRound s))
(* the last one in: lock; numIn = 0; curRound++; FUTEX_WAKE; unlock *)
| step_release s i p n r :
    procs s !! i = Some p -> at_ p = Entered n r -> peers s <= n ->
    bstep s (mk_BState (wake <$> <[i := leave p]> (procs s)) 0 (to_uint32 (curRound s + 1))).

(** [initializeBarrier] has been called by [n] peers. *)
Definition binit (n : nat) : BState := mk_BState (replicate n (mk_proc Outside 0 0)) 0 0.
Definition breachable (n : nat) (s : BState) : Prop := rtc bstep (binit n) s.
End Barrier.

(** ** Joining: what the operations keep

    [later h h']: nothing that a process relies on was lost between [h] and [h'].
    [keeps m a]: the run of [m] from [a] leads to a later header, however it ends. *)

Section keeps.
Import Join.

Definition later (h h' : Header) : Prop :=
  h_initialized h' = h_initialized h /\ h_versionStr h' = h_versionStr h /\ h_tmpDir h' = h_tmpDir h /\
  h_installDir h' = h_installDir h /\ h_localIPAddr h' = h_localIPAddr h /\
  h_compId h' = (h_compId h) <| up_generation := up_generation (h_compId h') |> /\
  h_coordInfo h' = (h_coordInfo h) <| ci_addr := ci_addr (h_coordInfo h') |> /\
  forall k, ids_of k h `prefix_of` ids_of k h'.

#[export] Instance later_preorder : PreOrder later.
Proof.
  split.
  - intros h. unfold later. split_and!; try done; [by destruct (h_compId h)|by destruct (h_coordInfo h)].
  - intros h1 h2 h3 (A1 & A2 & A3 & A4 & A5 & A6 & A7 & A8) (B1 & B2 & B3 & B4 & B5 & B6 & B7 & B8).
    unfold later. split_and!; try congruence.
    + rewrite B6 at 1. rewrite A6. reflexivity.
    + rewrite B7 at 1. rewrite A7. reflexivity.
    + intros k. etransitivity; [apply A8|apply B8].
Qed.

Lemma came_from_later a h h' : came_from a h -> later h h' -> came_from a h'.
Proof.
  intros (A1 & A2 & A3 & A4 & A5 & A6 & A7) (B1 & B2 & B3 & B4 & B5 & B6 & B7 & _). unfold came_from.
  split_and!; try congruence.
  - rewrite B6 at 1. rewrite A6. reflexivity.
  - rewrite B7 at 1. rewrite A7. reflexivity.
Qed.

Definition keeps {A} (m : M Area A) (a : Area) : Prop := later (a_header a) (a_header (final (m a))).

Lemma region_later {A} (m : M Area A) args p h : (forall a, keeps m a) -> later h (region m (area_of args p h)).1.
Proof. intros H. exact (H (area_of args p h)). Qed.

Lemma keeps_ret {A} (x : A) a : keeps (mret x) a.
Proof. unfold keeps. reflexivity. Qed.
Lemma keeps_fault {A} f a : keeps (@faultM Area A f) a.
Proof. unfold keeps. reflexivity. Qed.
Lemma keeps_gets {A} (f : Area -> A) a : keeps (gets f) a.
Proof. unfold keeps. reflexivity. Qed.
Lemma keeps_assert b w a : keeps (assertM b w) a.
Proof. unfold keeps. by destruct b. Qed.
Lemma keeps_opt {A} f (o : option A) a : keeps (optM f o) a.
Proof. unfold keeps. by destruct o. Qed.
Lemma keeps_when b m a : keeps m a -> keeps (whenM b m) a.
Proof. destruct b; [done|]. intros _. apply keeps_ret. Qed.
Lemma keeps_bind {A B} (m : M Area A) (k : A -> M Area B) a :
  keeps m a -> (forall x a', keeps (k x) a') -> keeps (m ≫= k) a.
Proof.
  unfold keeps, mbind, M_bind. intros Hm Hk. destruct (m a); cbn in *; [|done|done]. etransitivity; [exact Hm|apply Hk].
Qed.
(** Reading the header: the rest of the run starts with the value read. *)
Lemma keeps_hdr {A B} (f : Header -> A) (k : A -> M Area B) a : keeps (k (f (a_header a))) a -> keeps (hdr f ≫= k) a.
Proof. done. Qed.
Lemma keeps_opt_bind {A B} f (o : option A) (k : A -> M Area B) a :
  (forall x, o = Some x -> keeps (k x) a) -> keeps (optM f o ≫= k) a.
Proof. destruct o as [x|]; [intros H; by apply H|]. intros _. apply keeps_fault. Qed.
Lemma keeps_set f a : later (a_header a) (f (a_header a)) -> keeps (set_hdr f) a.
Proof. done. Qed.
Lemma keeps_modify f a : a_header (f a) = a_header a -> keeps (modify f) a.
Proof. unfold keeps. cbn. by intros ->. Qed.
Lemma keeps_forM {A} (l : list A) (f : A -> M Area unit) : (forall x a, keeps (f x) a) -> forall a, keeps (forM l f) a.
Proof.
  intros Hf. induction l as [|x l IH]; intros a; cbn [forM]; [apply keeps_ret|].
  apply keeps_bind; [apply Hf|]. intros _. apply IH.
Qed.

(** Fields that are not among those kept. *)
Ltac same_fields := apply keeps_set;
  match goal with |- later (a_header ?b) _ => generalize (a_header b) end;
  intros [? ? ? ? ? ? ? ? ? ? ? ? ? ? ? ? ? ? ? ? [] [] ?]; unfold later; cbn;
  split_and!; try reflexivity; intros [[]|]; reflexivity.

(** An identifier table that grew keeps its entries. *)
Lemma later_table k t h h' :
  h' = match k with None => h <| h_pidMap := t |> | Some ty => set_ipc_map ty t h end ->
  virt <$> tbl_items IdMap_zero (match k with None => h_pidMap h | Some ty => ipc_map ty h end)
    `prefix_of` virt <$> tbl_items IdMap_zero t ->
  later h h'.
Proof.
  intros -> Hp. destruct h as [? ? ? ? ? ? ? ? ? ? ? ? ? ? ? ? ? ? ? ? [] [] ?]. unfold later, ids_of.
  destruct k as [[]|]; cbn in *; split_and!; try reflexivity; intros [[]|]; cbn; done.
Qed.

Lemma append_prefix (t : table IdMap) e : virt <$> tbl_items IdMap_zero t `prefix_of` virt <$> tbl_items IdMap_zero (append t e).
Proof. rewrite tbl_items_append, fmap_app. by eexists. Qed.

Lemma set_map_prefix cap v r t t' : set_map cap v r t = Some t' ->
  virt <$> tbl_items IdMap_zero t `prefix_of` virt <$> tbl_items IdMap_zero t'.
Proof.
  unfold set_map. destruct (Nat.eqb_spec (find_slot v t (seq 0 (tbl_num t))) (tbl_num t)) as [E|E].
  - destruct (_ <? _)%nat; [|done]. intros [= <-]. apply append_prefix.
  - intros [= <-]. set (i := find_slot v t (seq 0 (tbl_num t))) in *.
    assert (Hi : (i < tbl_num t)%nat).
    { destruct (find_slot_spec v t (seq 0 (tbl_num t))) as [(j & Hj & Hin & _)|[Hj _]]; fold i in Hj; [|lia].
      subst j. apply elem_of_seq in Hin. lia. }
    rewrite tbl_items_write by done. rewrite list_fmap_insert. cbn [virt].
    rewrite list_insert_id; [done|]. rewrite list_lookup_fmap, tbl_items_lookup by done. done.
Qed.

Lemma keeps_attach a : keeps attach a.
Proof.
  unfold attach. apply keeps_hdr. apply keeps_bind; [destruct (h_initialized _); [apply keeps_ret|apply keeps_fault]|].
  intros _ b. apply keeps_hdr. apply keeps_bind; [apply keeps_assert|]. intros _ c.
  apply keeps_bind; [apply keeps_gets|]. intros mode d. apply keeps_hdr. apply keeps_when. same_fields.
Qed.
Lemma keeps_initialize a : keeps initialize a.
Proof.
  unfold initialize. apply keeps_bind; [apply keeps_gets|]. intros v b. apply keeps_bind; [apply keeps_assert|]. intros _ c.
  apply keeps_bind; [by apply keeps_modify|]. intros _ d. apply keeps_attach.
Qed.
Lemma keeps_ensure a : keeps ensure a.
Proof. unfold ensure. apply keeps_bind; [apply keeps_gets|]. intros m b. apply keeps_when, keeps_initialize. Qed.

Lemma keeps_initializeBarrier a : keeps initializeBarrier a.
Proof.
  unfold initializeBarrier. apply keeps_bind; [same_fields|]. intros _ b. apply keeps_hdr.
  destruct (negb _); same_fields.
Qed.

Lemma keeps_fill maps : forall start a, keeps (fill_inodes start maps) a.
Proof.
  induction maps as [|e maps IH]; intros start a; cbn [fill_inodes]; [apply keeps_ret|].
  apply keeps_bind; [destruct (_ <? _)%nat; [same_fields|apply keeps_fault]|]. intros _. apply IH.
Qed.

Lemma keeps_perform u a : keeps (perform u) a.
Proof.
  destruct u; cbn [perform]; unfold setPidMap, setIPCIdMap, getRealIPCId, updateGeneration, setCoordHost, updateDlsymOffset,
    createVirtualPtyName, setVirtualPtyId, insertPtyNameMap, registerIncomingCons, insertInodeConnIdMaps, resetBarrierInfo,
    prepareForCkpt, postRestart.
  - apply keeps_bind; [apply keeps_ensure|]. intros _ b. apply keeps_hdr, keeps_opt_bind. intros t Ht. apply keeps_set.
    eapply (later_table None); [reflexivity|]. by eapply set_map_prefix.
  - apply keeps_bind; [apply keeps_ensure|]. intros _ b. apply keeps_opt_bind. intros ty _. apply keeps_hdr, keeps_opt_bind.
    intros t Ht. apply keeps_set. eapply (later_table (Some ty)); [reflexivity|]. by eapply set_map_prefix.
  - apply keeps_bind; [|intros; apply keeps_ret]. apply keeps_bind; [apply keeps_ensure|]. intros _ b. apply keeps_opt_bind.
    intros ty _. apply keeps_hdr. destruct (find_real v _); [apply keeps_ret|]. destruct insertIfNotFound; [|apply keeps_ret].
    unfold mbind, M_bind, assertM. destruct (_ <? _)%nat; [|apply keeps_fault].
    apply (later_table (Some ty) (append (ipc_map ty (a_header b)) (mk_IdMap v v)) (a_header b)); [reflexivity|apply append_prefix].
  - apply keeps_bind; [apply keeps_ensure|]. intros _ b. same_fields.
  - apply keeps_bind; [apply keeps_ensure|]. intros _ b. same_fields.
  - apply keeps_bind; [apply keeps_ensure|]. intros _ b. apply keeps_hdr. apply keeps_bind; [apply keeps_assert|]. intros _ c.
    apply keeps_hdr. apply keeps_bind; [apply keeps_assert|]. intros _ d. same_fields.
  - apply keeps_bind; [|intros; apply keeps_ret]. apply keeps_bind; [apply keeps_ensure|]. intros _ b. apply keeps_hdr.
    apply keeps_bind; [apply keeps_assert|]. intros _ c. apply keeps_bind; [same_fields|]. intros _ d. apply keeps_hdr.
    do 3 (apply keeps_bind; [apply keeps_assert|]; intros _ ?). apply keeps_bind; [same_fields|]. intros _ e.
    apply keeps_bind; [apply keeps_assert|]. intros. apply keeps_ret.
  - apply keeps_hdr, keeps_when. same_fields.
  - apply keeps_bind; [apply keeps_ensure|]. intros _ b. apply keeps_hdr.
    do 3 (apply keeps_bind; [apply keeps_assert|]; intros _ ?). same_fields.
  - apply keeps_bind; [apply keeps_ensure|]. intros _ b. apply keeps_forM. intros x c. unfold append_unchecked.
    apply keeps_hdr. destruct (_ <? _)%nat; [same_fields|apply keeps_fault].
  - apply keeps_bind; [apply keeps_ensure|]. intros _ b. apply keeps_hdr. apply keeps_bind; [same_fields|]. intros _ c.
    apply keeps_fill.
  - same_fields.
  - apply keeps_bind; [by apply keeps_modify|]. intros _ b. apply keeps_bind; [same_fields|]. intros _ c. apply keeps_initializeBarrier.
  - apply keeps_bind; [apply keeps_initialize|]. intros _ b. apply keeps_initializeBarrier.
  - same_fields.
Qed.
End keeps.

(** ** Joining: invariant *)

Section join_facts.
Import Join.
Context (args : nat -> Args).
(** The paths [dmtcp_launch] passes fit in the header. *)
Hypothesis dirs_fit : forall p,
  Z.of_nat (String.length (arg_tmpDir (args p))) < PATH_MAX - 1 /\
  Z.of_nat (String.length (arg_installDir (args p))) < PATH_MAX - 1.

Lemma set_pc_same s p c : set_pc s p c p = c.
Proof. unfold set_pc. by rewrite decide_True. Qed.

Lemma set_pc_other s p c q : q <> p -> set_pc s p c q = pcs s q.
Proof. intros H. unfold set_pc. by rewrite decide_False. Qed.

Lemma region_init p h :
  let r := region (initializeHeader (arg_tmpDir (args p)) (arg_installDir (args p)) (arg_compId (args p))
                     (arg_coordInfo (args p)) (arg_localIP (args p))) (area_of args p h) in
  came_from (args p) r.1 /\ r.2 = Joined.
Proof.
  destruct (dirs_fit p) as [H1%Z.ltb_lt H2%Z.ltb_lt]. unfold region, initializeHeader.
  rewrite H1, H2. cbn. unfold came_from. destruct (arg_compId (args p)), (arg_coordInfo (args p)). by repeat split.
Qed.

Lemma region_attach p h : h_initialized h = true -> h_versionStr h = SHM_VERSION_STR ->
  (region attach (area_of args p h)).2 = Joined.
Proof.
  intros Hi Hv. destruct h. cbn in Hi, Hv. subst. unfold region, attach, area_of. cbn.
  by destruct h_archMode, (arg_mode (args p)).
Qed.

Lemma inv_step s s' : inv args s -> step args s s' -> inv args s'.
Proof.
  unfold inv. intros Hi Hs.
  assert (Hkeep : forall c h (r : Header * pc) p, pcs s p <> Creator ->
    came_from (args c) h /\ (forall q, pcs s q <> Creator) -> later h r.1 -> r.2 <> Creator ->
    came_from (args c) r.1 /\ (forall q, set_pc s p r.2 q <> Creator)).
  { intros c h r p _ [H Hn] Hl Hr. split; [by eapply came_from_later|]. intros q.
    destruct (decide (q = p)) as [->|]; [by rewrite set_pc_same|by rewrite set_pc_other]. }
  destruct Hs as [s p Hp Hf|s p h Hp Hf|s p h r Hp Hf Hr|s p h r Hp Hf Hin Hr|s p h u r Hp Hf Hr];
    rewrite Hf in Hi; cbn [file pcs made_by].
  - exists p. split; [done|]. left. rewrite set_pc_same. split_and!; [done|done|].
    intros q Hq. rewrite set_pc_other by done. by left.
  - rewrite Hf. destruct Hi as (c & Hm & Hi). exists c. split; [done|].
    destruct Hi as [(H & Hc & Ho)|(H & Hn)]; [left|right].
    + assert (p <> c) by congruence. rewrite set_pc_other by done. split_and!; [done|done|].
      intros q Hq. destruct (decide (q = p)) as [->|Hqp]; [rewrite set_pc_same; by right|].
      rewrite set_pc_other by done. by apply Ho.
    + split; [done|]. intros q. destruct (decide (q = p)) as [->|]; [by rewrite set_pc_same|by rewrite set_pc_other].
  - destruct Hi as (c & Hm & [(H & Hc & Ho)|(H & Hn)]); [|by destruct (Hn p)].
    assert (p = c) as ->. { destruct (decide (p = c)); [done|]. destruct (Ho p); congruence. }
    exists c. split; [done|]. right. pose proof (region_init c h) as Hreg. rewrite <- Hr in Hreg.
    destruct Hreg as (H1 & H5). split; [done|].
    intros q. destruct (decide (q = c)) as [->|Hqp]; [by rewrite set_pc_same, H5|].
    rewrite set_pc_other by done. by destruct (Ho q Hqp) as [-> | ->].
  - destruct Hi as (c & Hm & [(H & _)|H]); [congruence|]. exists c. split; [done|]. right.
    apply (Hkeep c h r p); [congruence|done|subst r; apply region_later, keeps_attach|].
    subst r. destruct H as [(Hh & Hv & _) _]. by rewrite region_attach.
  - destruct Hi as (c & Hm & [(H & Hc & Ho)|H]).
    { assert (p <> c) by congruence. destruct (Ho p) as [E|E]; congruence. }
    exists c. split; [done|]. right. apply (Hkeep c h r p); [congruence|done|subst r; apply region_later, keeps_perform|].
    subst r. unfold region. by destruct (perform u _).
Qed.

Lemma inv_reachable s : reachable args s -> inv args s.
Proof.
  unfold reachable. intros H. assert (Hi : inv args init) by (cbn; done).
  induction H as [s|x y z Hxy _ IH]; [done|]. apply IH. by eapply inv_step.
Qed.

(** Once nobody is going to initialise it, the header only gets later. *)
Lemma step_later s t h : (forall q, pcs s q <> Creator) -> file s = Some h -> step args s t ->
  exists h', file t = Some h' /\ later h h' /\ (forall q, pcs t q <> Creator).
Proof.
  intros Hc Hf Hs. destruct Hs as [s p Hp Hn|s p h1 Hp H1|s p h1 r Hp H1 Hr|s p h1 r Hp H1 Hin Hr|s p h1 u r Hp H1 Hr].
  - congruence.
  - exists h. split_and!; [done|done|]. cbn. intros q. unfold set_pc. by destruct (decide (q = p)).
  - by destruct (Hc p).
  - assert (h1 = h) as -> by congruence. exists r.1. split_and!; [done|subst r; apply region_later, keeps_attach|].
    cbn. intros q. unfold set_pc. destruct (decide (q = p)); [|apply Hc]. subst r. unfold region. by destruct (attach _).
  - assert (h1 = h) as -> by congruence. exists r.1. split_and!; [done|subst r; apply region_later, keeps_perform|].
    cbn. intros q. unfold set_pc. destruct (decide (q = p)); [|apply Hc]. subst r. unfold region. by destruct (perform u _).
Qed.

Lemma steps_later s t h : (forall q, pcs s q <> Creator) -> file s = Some h -> rtc (step args) s t ->
  exists h', file t = Some h' /\ later h h'.
Proof.
  intros Hc Hf Hr. revert h Hc Hf. induction Hr as [s|s u t Hs _ IH]; intros h Hc Hf; [by exists h|].
  destruct (step_later s u h Hc Hf Hs) as (h1 & H1 & L1 & C1). destruct (IH h1 C1 H1) as (h2 & H2 & L2).
  exists h2. split; [done|]. by etransitivity.
Qed.
End join_facts.

(** ** The futex barrier: invariant *)

Section barrier_facts.
Import Barrier.

Definition in_round (c : Z) (p : proc) : bool := entered p =? c + 1.
Definition is_leader (P : Z) (p : proc) : bool := match at_ p with Entered n _ => P <=? n | _ => false end.

(** What holds of a process while [c] rounds have been released. *)
Definition proc_ok (P nIn c : Z) (p : proc) : Prop :=
  match at_ p with
  | Outside => entered p = c /\ passed p = c
  | Asleep => entered p = c + 1 /\ passed p = c
  | Entered n r =>
      passed p = entered p - 1 /\
      ((entered p = c + 1 /\ r = to_uint32 c /\ n <= nIn) \/
       (entered p = c /\ r = to_uint32 (c - 1) /\ n < P))
  end.

Definition binv (s : BState) : Prop :=
  exists c, curRound s = to_uint32 c /\
    numIn s = Z.of_nat (cnt (in_round c) (procs s)) /\
    (forall i p, procs s !! i = Some p -> proc_ok (peers s) (numIn s) c p) /\
    cnt (is_leader (peers s)) (procs s) = (if numIn s =? peers s then 1%nat else 0%nat).

Lemma round_ne c : to_uint32 c <> to_uint32 (c - 1).
Proof.
  unfold to_uint32, wrap_u. intros E.
  pose proof (Z.div_mod c (2 ^ 32)). pose proof (Z.div_mod (c - 1) (2 ^ 32)). rewrite <- E in *.
  assert (2 ^ 32 * (c / 2 ^ 32 - (c - 1) / 2 ^ 32) = 1) by lia.
  generalize dependent (c / 2 ^ 32 - (c - 1) / 2 ^ 32). intros k. lia.
Qed.

Lemma proc_ok_mono P n n' c p : n <= n' -> proc_ok P n c p -> proc_ok P n' c p.
Proof. intros H. unfold proc_ok. destruct (at_ p); try done. intros [? [(?&?&?)|?]]; split; auto. left. lia. Qed.

(** Replacing one process by another that is in the same round and no leader. *)
Lemma binv_replace s i p q : binv s -> procs s !! i = Some p ->
  entered q = entered p -> is_leader (peers s) p = false -> is_leader (peers s) q = false ->
  (forall c, curRound s = to_uint32 c -> proc_ok (peers s) (numIn s) c p -> proc_ok (peers s) (numIn s) c q) ->
  binv (mk_BState (<[i := q]> (procs s)) (numIn s) (curRound s)).
Proof.
  intros (c & Hc & Hn & Hp & Hl) Hi He Hlp Hlq Hq. exists c. unfold peers in *. cbn [procs numIn curRound].
  rewrite length_insert. split_and!; [done| | |].
  - pose proof (cnt_insert (in_round c) _ _ _ q Hi) as H.
    unfold in_round at 2 4 in H. rewrite He in H. lia.
  - intros j x. rewrite list_lookup_insert_Some. intros [(<- & <- & _)|[_ Hx]]; [|by eapply Hp].
    apply Hq; [done|]. by eapply Hp.
  - pose proof (cnt_insert (is_leader (Z.of_nat (length (procs s)))) _ _ _ q Hi) as H. rewrite Hlp, Hlq in H. lia.
Qed.

Section steps.
Context (s : BState) (i : nat) (p : proc).
Hypothesis Hinv : binv s.
Hypothesis Hi : procs s !! i = Some p.
Hypothesis Hsmall : peers s < 2 ^ 32.

Lemma binv_enter n : at_ p = Outside -> n = to_uint32 (numIn s + 1) ->
  binv (mk_BState (<[i := mk_proc (Entered n (curRound s)) (entered p + 1) (passed p)]> (procs s)) n (curRound s)).
Proof using All.
  intros Ho Hn. destruct Hinv as (c & Hc & Hcnt & Hp & Hl). exists c. unfold peers in *. cbn [procs numIn curRound].
  rewrite length_insert. pose proof (Hp i p Hi) as Hpi. unfold proc_ok in Hpi. rewrite Ho in Hpi.
  set (q := mk_proc _ _ _).
  pose proof (cnt_insert (in_round c) _ _ _ q Hi) as Hins. unfold in_round at 2 4 in Hins. cbn [q entered] in Hins.
  destruct (Z.eqb_spec (entered p) (c + 1)); [lia|]. destruct (Z.eqb_spec (entered p + 1) (c + 1)); [|lia].
  pose proof (cnt_le (in_round c) (<[i := q]> (procs s))) as Hle. rewrite length_insert in Hle. cbn in Hins.
  assert (En : n = numIn s + 1) by (subst n; unfold to_uint32; apply wrap_u_small; lia).
  split_and!; [done|lia| |].
  - intros j x. rewrite list_lookup_insert_Some. intros [(<- & <- & _)|[_ Hx]].
    + unfold proc_ok. cbn. split; [lia|]. left. split_and!; [lia|done|lia].
    + eapply proc_ok_mono; [|by eapply Hp]. lia.
  - pose proof (cnt_insert (is_leader (Z.of_nat (length (procs s)))) _ _ _ q Hi) as H.
    unfold is_leader at 2 4 in H. rewrite Ho in H. cbn [q at_ Nat.b2n] in H.
    destruct (Z.eqb_spec (numIn s) (Z.of_nat (length (procs s)))); [lia|].
    destruct (Z.leb_spec (Z.of_nat (length (procs s))) n), (Z.eqb_spec n (Z.of_nat (length (procs s))));
      cbn in H; lia.
Qed.

Lemma binv_release n r : at_ p = Entered n r -> peers s <= n ->
  binv (mk_BState (wake <$> <[i := leave p]> (procs s)) 0 (to_uint32 (curRound s + 1))).
Proof using All.
  intros Ha Hn. destruct Hinv as (c & Hc & Hcnt & Hp & Hl). exists (c + 1). unfold peers in *.
  cbn [procs numIn curRound]. rewrite length_fmap, length_insert.
  pose proof (Hp i p Hi) as Hpi. unfold proc_ok in Hpi. rewrite Ha in Hpi.
  pose proof (cnt_le (in_round c) (procs s)) as Hle.
  assert (Hall : cnt (in_round c) (procs s) = length (procs s)) by lia.
  assert (Hlen : (0 < length (procs s))%nat) by (apply lookup_lt_Some in Hi; lia).
  rewrite Hcnt, Hall, Z.eqb_refl in Hl.
  assert (Hent : forall j x, procs s !! j = Some x -> entered x = c + 1).
  { intros j x Hx. apply list_elem_of_lookup_2 in Hx.
    pose proof (proj1 (cnt_all _ _) Hall x Hx) as E. unfold in_round in E. lia. }
  assert (Hafter : forall j x, (wake <$> <[i := leave p]> (procs s)) !! j = Some x ->
            proc_ok (Z.of_nat (length (procs s))) 0 (c + 1) x /\ is_leader (Z.of_nat (length (procs s))) x = false /\
            in_round (c + 1) x = false).
  { intros j x Hx. rewrite list_lookup_fmap in Hx.
    destruct (<[i := leave p]> (procs s) !! j) as [y|] eqn:Ey; [|done]. injection Hx as <-.
    apply list_lookup_insert_Some in Ey as [(<- & <- & _)|[Hij Hy]].
    - unfold proc_ok, is_leader, in_round. cbn. split_and!; [lia|lia|done|]. apply Z.eqb_neq. lia.
    - pose proof (Hent j y Hy) as Hey. pose proof (Hp j y Hy) as Hoy. unfold proc_ok in Hoy.
      unfold wake, proc_ok, is_leader, in_round. destruct (at_ y) as [|m k|] eqn:Ea.
      + lia.
      + rewrite Ea. destruct Hoy as [Hpy [(_ & Hk & Hm)|(? & _)]]; [|lia].
        assert (Hnl : (Z.of_nat (length (procs s)) <=? m) = false).
        { destruct (Z.leb_spec (Z.of_nat (length (procs s))) m) as [Hm'|]; [|done]. exfalso. apply Hij.
          apply (cnt_one (is_leader (Z.of_nat (length (procs s)))) (procs s) i j p y Hl Hi Hy); unfold is_leader;
            rewrite ?Ha, ?Ea; apply Z.leb_le; lia. }
        rewrite Hnl. split; [|split; [done|apply Z.eqb_neq; lia]]. split; [done|]. right.
        split_and!; [done| |lia]. by replace (c + 1 - 1) with c by lia.
      + cbn. split_and!; [lia|lia|done|]. apply Z.eqb_neq. lia. }
  split_and!.
  - rewrite Hc. unfold to_uint32, wrap_u. by rewrite Z.add_mod_idemp_l by lia.
  - assert (E : cnt (in_round (c + 1)) (wake <$> <[i := leave p]> (procs s)) = 0%nat); [|by rewrite E].
    apply cnt_zero. intros x [j Hx]%list_elem_of_lookup. by apply (Hafter j x).
  - intros j x Hx. by apply (Hafter j x).
  - destruct (Z.eqb_spec 0 (Z.of_nat (length (procs s)))); [lia|].
    apply cnt_zero. intros x [j Hx]%list_elem_of_lookup. by apply (Hafter j x).
Qed.
End steps.

Lemma binv_step s s' : binv s -> peers s < 2 ^ 32 -> bstep s s' -> binv s' /\ peers s' = peers s.
Proof.
  intros Hinv Hsm Hs.
  destruct Hs as [s i p n Hi Ho Hn|s i p n r Hi Ha Hn Hr|s i p n r Hi Ha Hn Hr|s i p n r Hi Ha Hn].
  - split; [by apply binv_enter|]. unfold peers. cbn. by rewrite length_insert.
  - split; [|unfold peers; cbn; by rewrite length_insert].
    apply (binv_replace s i p); try done.
    + unfold is_leader. rewrite Ha. apply Z.leb_gt. lia.
    + intros c Hc. unfold proc_ok. rewrite Ha. cbn. intros [Hp [?|(_ & Hr' & _)]]; [lia|].
      exfalso. apply (round_ne c). congruence.
  - split; [|unfold peers; cbn; by rewrite length_insert].
    apply (binv_replace s i p); try done.
    + unfold is_leader. rewrite Ha. apply Z.leb_gt. lia.
    + intros c Hc. unfold proc_ok. rewrite Ha. cbn. intros [Hp [(_ & Hr' & _)|?]]; [congruence|lia].
  - split; [by eapply binv_release|]. unfold peers. cbn. by rewrite length_fmap, length_insert.
Qed.

Lemma binv_reachable n s : 0 < Z.of_nat n < 2 ^ 32 -> breachable n s -> binv s /\ peers s = Z.of_nat n.
Proof.
  intros Hn. unfold breachable.
  assert (Hi : binv (binit n) /\ peers (binit n) = Z.of_nat n).
  { unfold binit, peers. cbn [procs]. rewrite length_replicate. split; [|done]. exists 0. cbn [procs numIn curRound].
    assert (Hz : forall f, f (mk_proc Outside 0 0) = false -> cnt f (replicate n (mk_proc Outside 0 0)) = 0%nat).
    { intros f Hf. apply cnt_zero. intros x [-> _]%elem_of_replicate. done. }
    rewrite Hz by done. split_and!; [done|done| |].
    - intros i p [-> _]%lookup_replicate. done.
    - unfold peers. cbn [procs]. rewrite length_replicate. 
      destruct (Z.eqb_spec 0 (Z.of_nat n)); [lia|]. apply Hz. unfold is_leader. done. }
  intros Hr. revert Hi. induction Hr as [s|x y z Hxy _ IH]; [done|]. intros [Hb Hp]. apply IH.
  rewrite <- Hp in Hn. destruct (binv_step x y Hb (proj2 Hn) Hxy) as [? ->]. done.
Qed.

Lemma not_stuck s : binv s -> 0 < peers s -> exists s', bstep s s'.
Proof.
  intros (c & Hc & Hcnt & Hp & Hl) Hpos.
  destruct (cnt (fun p => match at_ p with Asleep => true | _ => false end) (procs s) =? length (procs s))%nat eqn:E.
  - apply Nat.eqb_eq in E. exfalso.
    assert (Hall : cnt (in_round c) (procs s) = length (procs s)).
    { apply cnt_all. intros x Hx. pose proof (proj1 (cnt_all _ _) E x Hx) as Ha. cbn in Ha.
      apply list_elem_of_lookup in Hx as [i Hx]. specialize (Hp i x Hx). unfold proc_ok in Hp.
      unfold in_round. destruct (at_ x); try done. apply Z.eqb_eq. lia. }
    rewrite Hcnt, Hall in Hl. unfold peers in Hl. rewrite Z.eqb_refl in Hl.
    assert (H0 : cnt (is_leader (Z.of_nat (length (procs s)))) (procs s) = 0%nat); [|lia].
    apply cnt_zero. intros x Hx. pose proof (proj1 (cnt_all _ _) E x Hx) as Ha. cbn in Ha.
    unfold is_leader. by destruct (at_ x).
  - apply Nat.eqb_neq in E.
    assert (exists i p, procs s !! i = Some p /\ at_ p <> Asleep) as (i & p & Hi & Ha).
    { clear -E. induction (procs s) as [|x l IH]; [done|]. rewrite cnt_cons in E.
      destruct (at_ x) eqn:Ex; [exists 0%nat, x; by rewrite Ex..|].
      destruct IH as (i & p & Hi & Ha); [cbn in *; lia|]. by exists (S i), p. }
    destruct (at_ p) as [|n r|] eqn:Ep; [| |done].
    + eexists. by eapply step_enter.
    + destruct (Z_lt_le_dec n (peers s)); [|eexists; by eapply step_release].
      destruct (decide (curRound s = r)); eexists; [by eapply step_sleep|by eapply step_again].
Qed.
End barrier_facts.

(** ** Theorems *)

(** C14: Whatever the interleaving of processes creating, joining and using
    the shared area, where a use is any operation that changes the header, the one
    that created the file is the only one to initialise it, and does so before any
    other has joined.  A process that has joined finds the header initialised, with
    the right signature and with the directories, the address, the computation and
    the coordinator of the process that created it (the generation and the
    coordinator's address as last updated); and from then on no step of any process
    loses the entry of a process or IPC identifier. *)
Theorem shared_area_join_safe args s p h :
  (forall p, Z.of_nat (String.length (Join.arg_tmpDir (args p))) < PATH_MAX - 1 /\
             Z.of_nat (String.length (Join.arg_installDir (args p))) < PATH_MAX - 1) ->
  Join.reachable args s -> Join.pcs s p = Join.Joined -> Join.file s = Some h ->
  (exists c, Join.made_by s = Some c /\ Join.came_from (args c) h) /\
  (forall q, Join.pcs s q <> Join.Creator) /\
  (forall s', rtc (Join.step args) s s' -> exists h', Join.file s' = Some h' /\
     forall k, Join.ids_of k h `prefix_of` Join.ids_of k h').
Proof.
  intros Hd Hr Hp Hf. pose proof (inv_reachable args Hd s Hr) as Hi. unfold Join.inv in Hi. rewrite Hf in Hi.
  destruct Hi as (c & Hm & [(_ & Hc & Ho)|[Hi Hn]]).
  { destruct (decide (p = c)) as [->|Hne]; [congruence|]. destruct (Ho p Hne); congruence. }
  split_and!; [by exists c|done|]. intros s' Hs.
  destruct (steps_later args s s' h Hn Hf Hs) as (h' & Hf' & (_ & _ & _ & _ & _ & _ & _ & Hk)). by exists h'.
Qed.

Definition join_args : nat -> Join.Args := fun p =>
  Join.mk_Args "/tmp/dmtcp" "/usr" (mk_UniquePid 1 (40000 + Z.of_nat p) 5 0)
    (mk_CoordinatorInfo (mk_UniquePid 1 9 3 0) 77 0 2130706433 7779) 0 DMTCP_ARCH_32.

(** The second process finds the first one's header, with the generation that the
    first set for a checkpoint. *)
Lemma shared_area_join_safe_witness :
  exists s h, Join.reachable join_args s /\ Join.pcs s 1%nat = Join.Joined /\
    Join.file s = Some h /\ h_compId h = mk_UniquePid 1 40000 5 1 /\ Join.came_from (join_args 0%nat) h.
Proof.
  eexists. eexists.
  match goal with |- ?A /\ _ => assert (Hr : A) end.
  { eapply rtc_l; [apply (Join.step_create _ _ 0%nat); reflexivity|].
    eapply rtc_l; [eapply (Join.step_exists _ _ 1%nat); reflexivity|].
    eapply rtc_l; [eapply (Join.step_init _ _ 0%nat); reflexivity|].
    eapply rtc_l; [eapply (Join.step_use _ _ 0%nat _ (Join.UseGeneration 1)); reflexivity|].
    eapply rtc_l; [eapply (Join.step_attach _ _ 1%nat); reflexivity|]. apply rtc_refl. }
  split; [exact Hr|]. split; [reflexivity|]. split; [reflexivity|]. split; [reflexivity|].
  destruct (shared_area_join_safe join_args _ 1%nat _ ltac:(intros p; split; reflexivity) Hr eq_refl eq_refl)
    as [(c & Hc & H) _].
  injection Hc as <-. exact H.
Defined.

(** C13: The futex barrier of mixed computations is a barrier: in every
    interleaving of its peers' steps, across any number of rounds and of
    wrap-arounds of the round counter, no process leaves its k-th barrier before
    every process has entered its own k-th, and there is never a state in which
    no process can make a step (so no wake-up is lost). *)
Theorem shared_barrier_correct n s :
  0 < Z.of_nat n < 2 ^ 32 -> Barrier.breachable n s ->
  (forall i j p q, Barrier.procs s !! i = Some p -> Barrier.procs s !! j = Some q ->
     Barrier.passed p <= Barrier.entered q) /\
  (exists s', Barrier.bstep s s').
Proof.
  intros Hn Hr. destruct (binv_reachable n s Hn Hr) as [Hb Hp]. split; [|apply not_stuck; [done|lia]].
  destruct Hb as (c & _ & _ & Hok & _). intros i j p q Hi Hj.
  pose proof (Hok i p Hi) as H1. pose proof (Hok j q Hj) as H2. unfold proc_ok in H1, H2.
  destruct (Barrier.at_ p), (Barrier.at_ q); lia.
Qed.

Lemma shared_barrier_correct_witness :
  exists s, Barrier.breachable 2 s /\ Barrier.curRound s = 1 /\ exists s', Barrier.bstep s s'.
Proof.
  eexists. match goal with |- ?A /\ _ => assert (Hr : A) end.
  { eapply rtc_l; [eapply (Barrier.step_enter _ 0%nat); reflexivity|].
    eapply rtc_l; [eapply (Barrier.step_enter _ 1%nat); reflexivity|].
    eapply rtc_l; [eapply (Barrier.step_sleep _ 0%nat); reflexivity|].
    eapply rtc_l; [eapply (Barrier.step_release _ 1%nat); [reflexivity|reflexivity|discriminate]|]. apply rtc_refl. }
  split; [exact Hr|]. split; [reflexivity|].
  eapply (proj2 (shared_barrier_correct 2 _ _ Hr)).
  Unshelve. split; reflexivity.
Defined.
