(* ===== verification/VirtualIds.v ===== *)
(** * Virtual process and thread identifiers

    [VirtualIdTable] (include/virtualidtable.h) at [IdType = pid_t], its
    process-wide instance [VirtualPidTable] (src/plugin/pid/virtualpidtable.cpp),
    the environment variables that carry the identifiers across exec
    (src/util_exec.cpp), and the entry points of src/plugin/pid/pid.cpp.  The
    table lock covers each operation, so an operation is one transition. *)

From Stdlib Require Import ZArith Lia Ascii.
From stdpp Require Import base gmap strings numbers list.
From S2P Require Import Prelude CText Identity SharedArea.
Import Convert.
Open Scope Z_scope.

(** ** The interface to the directory of the other processes *)

Class PidDirectory (D : Type) : Type := {
  pd_lookup : D -> Z -> option Z;
  pd_ready : D -> Prop;
  pd_getRealPid : Z -> M D Z;
  pd_setPidMap : Z -> Z -> M D unit;
  pd_getRealPid_spec : forall d v, pd_ready d -> pd_getRealPid v d = Ok (default (-1) (pd_lookup d v)) d
}.

#[export] Instance Area_PidDirectory : PidDirectory Area := {|
  pd_lookup a v := id_view (h_pidMap (a_header a)) !! v;
  pd_ready a := a_mapped a = true /\ id_table_wf (h_pidMap (a_header a));
  pd_getRealPid := SharedArea.getRealPid;
  pd_setPidMap := SharedArea.setPidMap;
  pd_getRealPid_spec a v H := getRealPid_view a v (proj1 H) (proj2 H)
|}.

(** ** The table *)

Record VirtualIdTable : Type := mk_VirtualIdTable {
  idMapTable : gmap Z Z;
  base : Z;             (* IdType *)
  max : Z;              (* size_t *)
  nextVirtualId : Z     (* IdType *)
}.
#[export] Instance eta_VirtualIdTable : Settable VirtualIdTable :=
  {| eta_of t := mk_VirtualIdTable (idMapTable t) (base t) (max t) (nextVirtualId t) |}.

Definition MAX_VIRTUAL_ID : Z := 999.

(** [(IdType)((unsigned long)x + 1)] at [pid_t]. *)
Definition next_id (x : Z) : Z := to_int32 (to_uint64 (to_uint64 x + 1)).

Definition resetNextVirtualId (t : VirtualIdTable) : VirtualIdTable :=
  t <| nextVirtualId := next_id (base t) |>.

Definition VirtualIdTable_new (b m : Z) : VirtualIdTable := resetNextVirtualId (mk_VirtualIdTable ∅ b m 0).

Definition addOneToNextVirtualId (t : VirtualIdTable) : Z * VirtualIdTable :=
  let ret := nextVirtualId t in
  let t := t <| nextVirtualId := next_id (nextVirtualId t) |> in
  (ret, if to_uint64 (to_uint64 (base t) + max t) <=? to_uint64 (nextVirtualId t)
        then resetNextVirtualId t else t).

Definition vt_size (t : VirtualIdTable) : Z := Z.of_nat (size (idMapTable t)).
Definition vt_clear (t : VirtualIdTable) : VirtualIdTable := resetNextVirtualId (t <| idMapTable := ∅ |>).
Definition vt_postRestart (t : VirtualIdTable) : VirtualIdTable := resetNextVirtualId (t <| idMapTable := ∅ |>).
Definition vt_resetOnFork (newBase : Z) (t : VirtualIdTable) : VirtualIdTable :=
  resetNextVirtualId (t <| base := newBase |>).

(** The loop of [getNewVirtualId]; [++count == _max] ends it, so [_max] rounds
    of fuel are enough. *)
Fixpoint getNewVirtualId_loop (fuel : nat) (count : Z) (t : VirtualIdTable) : option Z * VirtualIdTable :=
  match fuel with
  | O => (None, t)
  | S fuel' =>
      let (newId, t) := addOneToNextVirtualId t in
      match idMapTable t !! newId with
      | None => (Some newId, t)
      | Some _ =>
          if count + 1 =? max t then (None, t) else getNewVirtualId_loop fuel' (count + 1) t
      end
  end.

(** [getNewVirtualId(&id)]: [Some id] is the result [true]. *)
Definition getNewVirtualId (t : VirtualIdTable) : option Z * VirtualIdTable :=
  if vt_size t <? max t then getNewVirtualId_loop (Z.to_nat (max t)) 0 t else (None, t).

Definition isIdCreatedByCurrentProcess (t : VirtualIdTable) (id : Z) : bool :=
  (to_uint64 (base t) <? to_uint64 id) && (to_uint64 id <=? to_uint64 (to_uint64 (base t) + max t)).

Definition virtualIdExists (t : VirtualIdTable) (id : Z) : bool := bool_decide (is_Some (idMapTable t !! id)).
Definition vt_updateMapping (virtualId realId : Z) (t : VirtualIdTable) : VirtualIdTable :=
  t <| idMapTable ::= <[virtualId := realId]> |>.
Definition vt_erase (virtualId : Z) (t : VirtualIdTable) : VirtualIdTable :=
  t <| idMapTable ::= delete virtualId |>.
Definition vt_virtualToReal (t : VirtualIdTable) (virtualId : Z) : option Z := idMapTable t !! virtualId.

(** The order in which an [unordered_map] is walked is not specified: [iter]. *)
Section iteration.
Context (iter : gmap Z Z -> list (Z * Z)).

Definition realIdExists (t : VirtualIdTable) (id : Z) : bool :=
  existsb (fun kv => snd kv =? id) (iter (idMapTable t)).
Definition getIdVector (t : VirtualIdTable) : list Z := fst <$> iter (idMapTable t).

Fixpoint first_with (realId : Z) (l : list (Z * Z)) : option Z :=
  match l with
  | [] => None
  | (v, r) :: l' => if realId =? r then Some v else first_with realId l'
  end.
Definition vt_realToVirtual (t : VirtualIdTable) (realId : Z) : Z :=
  default realId (first_with realId (iter (idMapTable t))).
End iteration.

(** ** Environment variables *)

(** [Util::parseInteger<pid_t>], that is [std::from_chars] over the whole text. *)
Definition parseInteger (s : string) : option Z :=
  let (neg, s1) := match s with
                   | String c s' => if Ascii.eqb c "-" then (true, s') else (false, s)
                   | EmptyString => (false, s)
                   end in
  match scan_digits 10 s1 0 false with
  | (v, true, EmptyString) =>
      let z := if neg : bool then - v else v in if in_int32 z then Some z else None
  | _ => None
  end.

(** [%031d]. *)
Definition padded31 (v : Z) : string :=
  if v <? 0 then String "-"%char (pad_left 30 (digits 10 (- v))) else pad_left 31 (digits 10 v).

Definition Env : Type := gmap string string.

(** [setPidEnvVar]: a first value is padded, later ones are written in place. *)
Definition setPidEnvVar (name : string) (v : Z) (env : Env) : Env :=
  match env !! name with
  | None => <[name := padded31 v]> env
  | Some _ => <[name := XToString v]> env
  end.

Definition getPidEnvVar (name : string) (env : Env) : option Z := s ← env !! name; parseInteger s.

Definition ENV_VAR_VIRTUAL_PID : string := "DMTCP_VIRTUAL_PID".
Definition ENV_VAR_REAL_PID : string := "DMTCP_REAL_PID".
Definition ENV_VAR_VIRTUAL_PPID : string := "DMTCP_VIRTUAL_PPID".
Definition ENV_VAR_REAL_PPID : string := "DMTCP_REAL_PPID".

Definition setVirtualPidEnvVar (virtPid realPid virtPpid realPpid : Z) (env : Env) : Env :=
  setPidEnvVar ENV_VAR_REAL_PPID realPpid
    (setPidEnvVar ENV_VAR_VIRTUAL_PPID virtPpid
       (setPidEnvVar ENV_VAR_REAL_PID realPid
          (setPidEnvVar ENV_VAR_VIRTUAL_PID virtPid env))).

(** [None]: a variable is missing or malformed and the process exits. *)
Definition getVirtualPidFromEnvVar (env : Env) : option (Z * Z * Z * Z) :=
  vPid ← getPidEnvVar ENV_VAR_VIRTUAL_PID env;
  rPid ← getPidEnvVar ENV_VAR_REAL_PID env;
  vPpid ← getPidEnvVar ENV_VAR_VIRTUAL_PPID env;
  rPpid ← getPidEnvVar ENV_VAR_REAL_PPID env;
  Some (vPid, rPid, vPpid, rPpid).

(** ** The process-wide instance *)

(** What the kernel answers: [tgkill(getpid(), tid, 0) != -1] is [os_alive tid]. *)
Record PidOS : Type := mk_PidOS {
  os_getpid : Z; os_getppid : Z; os_gettid : Z; os_alive : Z -> bool
}.

Record Pids (D : Type) : Type := mk_Pids {
  vp_inst : option VirtualIdTable;   (* virtPidTableInst *)
  vp_pid : Z;
  vp_ppid : Z;
  vp_realPid : Z;
  vp_realPpid : Z;
  vp_tid : Z;                        (* of the calling thread *)
  vp_numTids : Z;
  vp_restartInProgress : bool;
  vp_exitedChildTids : list Z;
  vp_env : Env;
  vp_dir : D
}.
Arguments mk_Pids {D}.
Arguments vp_inst {D}.
Arguments vp_pid {D}.
Arguments vp_ppid {D}.
Arguments vp_realPid {D}.
Arguments vp_realPpid {D}.
Arguments vp_tid {D}.
Arguments vp_numTids {D}.
Arguments vp_restartInProgress {D}.
Arguments vp_exitedChildTids {D}.
Arguments vp_env {D}.
Arguments vp_dir {D}.
#[export] Instance eta_Pids D : Settable (Pids D) :=
  {| eta_of s := mk_Pids (vp_inst s) (vp_pid s) (vp_ppid s) (vp_realPid s) (vp_realPpid s) (vp_tid s)
       (vp_numTids s) (vp_restartInProgress s) (vp_exitedChildTids s) (vp_env s) (vp_dir s) |}.

Definition DMTCP_FAIL_RC : Z := 99.

Section instance.
Context {D : Type} `{PidDirectory D} (iter : gmap Z Z -> list (Z * Z)) (os : PidOS).
Abbreviation P := (M (Pids D)).

(** Running an operation of the directory on its part of the state. *)
Definition on_dir {A} (m : M D A) : P A := fun s =>
  match m (vp_dir s) with
  | Ok a d => Ok a (s <| vp_dir := d |>)
  | Exit c d => Exit c (s <| vp_dir := d |>)
  | Fault f d => Fault f (s <| vp_dir := d |>)
  end.

Definition readEnv : P unit :=
  env ← gets vp_env;
  match getVirtualPidFromEnvVar env with
  | Some (vPid, rPid, vPpid, rPpid) =>
      modify (fun s => s <| vp_pid := vPid |> <| vp_realPid := rPid |>
                         <| vp_ppid := vPpid |> <| vp_realPpid := rPpid |>)
  | None => exitM DMTCP_FAIL_RC
  end.

(** [instance()]: the table is made on the first use, at the base [_dmtcp_pid]. *)
Definition instance : P VirtualIdTable :=
  i ← gets vp_inst;
  match i with
  | Some t => mret t
  | None =>
      readEnv;;
      pid ← gets vp_pid;
      let t := VirtualIdTable_new pid MAX_VIRTUAL_ID in
      modify (fun s => s <| vp_inst := Some t |>);;
      mret t
  end.

Definition upd (f : VirtualIdTable -> VirtualIdTable) : P unit :=
  t ← instance;
  modify (fun s => s <| vp_inst := Some (f t) |>).

(** [VirtualPidTable::updateMapping] ignores identifiers that are not positive. *)
Definition updateMapping (virtualId realId : Z) : P unit :=
  whenM ((0 <? virtualId) && (0 <? realId)) (upd (vt_updateMapping virtualId realId)).

Definition resetPidPpid : P unit :=
  readEnv;;
  rpid ← gets vp_realPid;
  whenM (rpid =? 0) (modify (fun s => s <| vp_realPid := os_getpid os |>));;
  s ← gets id;
  updateMapping (vp_pid s) (vp_realPid s);;
  updateMapping (vp_ppid s) (vp_realPpid s).

Definition resetTid (tid : Z) : P unit :=
  modify (fun s => s <| vp_tid := tid |>);;
  updateMapping tid (os_gettid os).

Definition getpid : P Z :=
  pid ← gets vp_pid;
  whenM (pid =? -1) resetPidPpid;;
  gets vp_pid.

(** [virtualToReal]: own table, then the shared directory, then the identifier
    itself; a negative identifier names a process group. *)
Definition virtualToReal (virtualId : Z) : P Z :=
  if (virtualId =? -1) || (virtualId =? 0) then mret virtualId
  else
    id ← (if virtualId <? -1 then
            if in_int32 (- virtualId) then mret (- virtualId) else faultM (SignedOverflow "abs")
          else mret virtualId);
    t ← instance;
    realId ← (match vt_virtualToReal t id with
              | Some r => mret r
              | None =>
                  r ← on_dir (pd_getRealPid id);
                  mret (if r =? -1 then id else r)
              end);
    mret (if virtualId <? -1 then - realId else realId).

Definition realToVirtual (realPid : Z) : P Z :=
  if (realPid =? -1) || (realPid =? 0) then mret realPid
  else
    t ← instance;
    mret (vt_realToVirtual iter t realPid).

Definition getppid : P Z :=
  ppid ← gets vp_ppid;
  whenM (ppid =? -1) resetPidPpid;;
  ppid ← gets vp_ppid;
  r ← virtualToReal ppid;
  whenM (negb (os_getppid os =? r)) (modify (fun s => s <| vp_ppid := os_getppid os |>));;
  gets vp_ppid.

Definition gettid : P Z :=
  tid ← gets vp_tid;
  whenM (tid =? -1)
    (pid ← getpid;
     modify (fun s => s <| vp_tid := pid |>);;
     assertM (os_gettid os =? os_getpid os) "initial thread real tid/pid mismatch");;
  gets vp_tid.

(** [postRestart]: the order of the calls is the code's. *)
Definition postRestart : P unit :=
  ppid ← gets vp_ppid;
  whenM (negb (ppid =? 1)) (updateMapping ppid (os_getppid os));;
  upd vt_postRestart;;
  pid ← getpid;
  upd (vt_updateMapping pid (os_getpid os)).

(** [refresh]: forget own identifiers whose thread is gone. *)
Definition refresh : P unit :=
  pid ← getpid;
  assertM (negb (pid =? -1)) "virtual pid is not initialized";;
  upd (fun t => foldl (fun t kv =>
         if isIdCreatedByCurrentProcess t (fst kv) && negb (os_alive os (snd kv)) then vt_erase (fst kv) t else t)
         t (iter (idMapTable t))).

Definition newId : P (option Z) :=
  t ← instance;
  let (r, t') := getNewVirtualId t in
  modify (fun s => s <| vp_inst := Some t' |>);;
  mret r.

(** [getNewVirtualTid]: the ASSERT asks again, also after a success. *)
Definition assertNewId : P Z :=
  r ← newId;
  optM (AssertFailed "exceeded maximum number of threads allowed") r.
Definition getNewVirtualTid : P Z :=
  r ← newId;
  whenM (match r with None => true | Some _ => false end) refresh;;
  assertNewId.

Definition resetOnFork : P unit :=
  resetPidPpid;;
  pid ← getpid;
  resetTid pid;;
  pid ← getpid;
  upd (vt_resetOnFork pid);;
  modify (fun s => s <| vp_numTids := 1 |>);;
  pid ← getpid;
  upd (vt_updateMapping pid (os_getpid os));;
  refresh.

(** ** Entry points of the plugin (src/plugin/pid/pid.cpp), plugin enabled *)

Definition dmtcp_pid_update_mapping (virtualPid realPid : Z) : P unit :=
  updateMapping virtualPid realPid;; on_dir (pd_setPidMap virtualPid realPid).

Definition dmtcp_update_virtual_to_real_tid (tid : Z) : P Z :=
  v ← realToVirtual tid;
  virtualTid ← (if (v =? tid) && (os_gettid os =? os_getpid os) then getpid else mret v);
  busy ← gets vp_restartInProgress;
  whenM (negb busy) (modify (fun s => s <| vp_restartInProgress := true |>);; postRestart);;
  updateMapping virtualTid (os_gettid os);;
  mret virtualTid.

(** [removeExitedChildTids]: keep the threads that still exist. *)
Fixpoint removeExited (tids : list Z) : P (list Z) :=
  match tids with
  | [] => mret []
  | tid :: tids' =>
      realTid ← virtualToReal tid;
      if os_alive os realTid then (rest ← removeExited tids'; mret (tid :: rest))
      else (upd (vt_erase tid);; removeExited tids')
  end.
Definition removeExitedChildTids : P unit :=
  tids ← gets vp_exitedChildTids;
  rest ← removeExited tids;
  modify (fun s => s <| vp_exitedChildTids := rest |>).

Definition dmtcp_init_virtual_tid : P unit :=
  removeExitedChildTids;;
  virtualTid ← getNewVirtualTid;
  resetTid virtualTid.

(** [pidVirt_PrepareForExec]: the identifiers go to the environment. *)
Definition pidVirt_PrepareForExec : P unit :=
  virtPid ← getpid;
  realPid ← virtualToReal virtPid;
  virtPpid ← getppid;
  realPpid ← virtualToReal virtPpid;
  modify (fun s => s <| vp_env ::= setVirtualPidEnvVar virtPid realPid virtPpid realPpid |>).
End instance.

(** ** Facts about the table *)

(** Identifiers a table hands out: above its base, below base + max. *)
Definition in_window (t : VirtualIdTable) (id : Z) : Prop := base t < id < base t + max t.

Definition vt_wf (t : VirtualIdTable) : Prop :=
  0 <= base t /\ 2 <= max t /\ base t + max t < 2 ^ 31 /\ in_window t (nextVirtualId t).

(** The cursor after one step. *)
Definition cursor_next (t : VirtualIdTable) (x : Z) : Z :=
  if base t + max t <=? x + 1 then base t + 1 else x + 1.

Lemma next_id_small x : 0 <= x < 2 ^ 31 - 1 -> next_id x = x + 1.
Proof.
  intros H. unfold next_id, to_int32, to_uint64.
  rewrite (wrap_u_small 64 x), (wrap_u_small 64 (x + 1)) by lia. apply wrap_s_small; lia.
Qed.

Lemma addOne_spec t : vt_wf t ->
  addOneToNextVirtualId t = (nextVirtualId t, t <| nextVirtualId := cursor_next t (nextVirtualId t) |>).
Proof.
  intros (Hb & Hm & Hs & Hw). unfold in_window in Hw. unfold addOneToNextVirtualId, cursor_next, resetNextVirtualId.
  rsimpl. rewrite !next_id_small by lia. unfold to_uint64. rewrite !wrap_u_small by (rewrite ?wrap_u_small; lia).
  destruct (_ <=? _); [|done]. by destruct t.
Qed.

Lemma cursor_window t x : vt_wf t -> in_window t x -> in_window t (cursor_next t x).
Proof. intros (Hb & Hm & Hs & _). unfold in_window, cursor_next. destruct (Z.leb_spec (base t + max t) (x + 1)); lia. Qed.

Lemma vt_wf_cursor t x : vt_wf t -> in_window t x -> vt_wf (t <| nextVirtualId := x |>).
Proof. by intros (Hb & Hm & Hs & _) Hx. Qed.

Lemma loop_spec fuel : forall count t, vt_wf t -> count + Z.of_nat fuel = max t ->
  exists x, in_window t x /\
  match getNewVirtualId_loop fuel count t with
  | (Some id, t') => t' = t <| nextVirtualId := x |> /\ in_window t id /\ idMapTable t !! id = None
  | (None, t') => t' = t <| nextVirtualId := x |> /\
      forall k, (k < fuel)%nat -> is_Some (idMapTable t !! Nat.iter k (cursor_next t) (nextVirtualId t))
  end.
Proof.
  induction fuel as [|fuel IH]; intros count t Hwf Hc; cbn [getNewVirtualId_loop].
  { exists (nextVirtualId t). split; [apply Hwf|]. split; [by destruct t|lia]. }
  rewrite addOne_spec by done. rsimpl.
  set (t1 := t <| nextVirtualId := _ |>).
  assert (Hw1 : in_window t (cursor_next t (nextVirtualId t))) by (apply cursor_window; [done|apply Hwf]).
  destruct (idMapTable t !! nextVirtualId t) as [r|] eqn:E.
  2:{ exists (cursor_next t (nextVirtualId t)). split_and!; try done; by apply Hwf. }
  change (max t1) with (max t). destruct (Z.eqb_spec (count + 1) (max t)) as [He|Hne].
  - exists (cursor_next t (nextVirtualId t)). split_and!; [by apply Hw1..|done|].
    intros k Hk. assert (k = 0)%nat as -> by lia. cbn. by rewrite E.
  - destruct (IH (count + 1) t1) as (x & Hx & Hr); [by apply vt_wf_cursor|change (max t1) with (max t); lia|].
    exists x. split; [done|]. destruct (getNewVirtualId_loop fuel (count + 1) t1) as [[id|] t'].
    + destruct Hr as (-> & Hid & Hnone). split_and!; try done; apply Hid.
    + destruct Hr as [-> Hk]. split; [done|]. intros [|k] Hlt; [cbn; by rewrite E|].
      specialize (Hk k ltac:(lia)). rewrite Nat.iter_succ_r. exact Hk.
Qed.

(** The cursor visits the whole window within [max - 1] steps. *)
Lemma cursor_iter t x k : in_window t x -> x + Z.of_nat k < base t + max t ->
  Nat.iter k (cursor_next t) x = x + Z.of_nat k.
Proof.
  intros Hx. induction k as [|k IH]; intros Hk; [cbn; lia|]. cbn [Nat.iter nat_rect].
  change (nat_rect _ _ _ k) with (Nat.iter k (cursor_next t) x). rewrite IH by lia.
  unfold cursor_next. destruct (Z.leb_spec (base t + max t) (x + Z.of_nat k + 1)); lia.
Qed.

Lemma cursor_covers t id : vt_wf t -> in_window t id ->
  exists k, Z.of_nat k < max t - 1 /\ Nat.iter k (cursor_next t) (nextVirtualId t) = id.
Proof.
  intros (Hb & Hm & Hs & Hn) Hid. unfold in_window in *. set (x := nextVirtualId t) in *.
  destruct (Z_le_gt_dec x id).
  - exists (Z.to_nat (id - x)). split; [lia|]. rewrite cursor_iter by (unfold in_window; lia). lia.
  - set (k1 := Z.to_nat (base t + max t - 1 - x)). set (k2 := Z.to_nat (id - (base t + 1))).
    exists (k2 + S k1)%nat. split; [lia|]. rewrite Nat.iter_add, Nat.iter_succ.
    rewrite (cursor_iter t x k1) by (unfold in_window; lia).
    assert (E : cursor_next t (x + Z.of_nat k1) = base t + 1).
    { unfold cursor_next. destruct (Z.leb_spec (base t + max t) (x + Z.of_nat k1 + 1)); lia. }
    rewrite E, cursor_iter by (unfold in_window; lia). lia.
Qed.

(** [getNewVirtualId] finds a free identifier of the window when there is one. *)
Lemma getNewVirtualId_spec t : vt_wf t -> vt_size t < max t ->
  exists x, in_window t x /\ (getNewVirtualId t).2 = t <| nextVirtualId := x |> /\
  match (getNewVirtualId t).1 with
  | Some id => in_window t id /\ idMapTable t !! id = None
  | None => forall id, in_window t id -> is_Some (idMapTable t !! id)
  end.
Proof.
  intros Hwf Hsz. unfold getNewVirtualId. apply Z.ltb_lt in Hsz as ->.
  destruct (loop_spec (Z.to_nat (max t)) 0 t Hwf) as (x & Hx & Hr); [destruct Hwf as (? & ? & _); lia|].
  exists x. destruct (getNewVirtualId_loop _ _ _) as [[id|] t']; destruct Hr as [-> Hr]; split_and!; try done; try apply Hx.
  intros id Hid. destruct (cursor_covers t id Hwf Hid) as (k & Hk & <-). apply Hr. lia.
Qed.

(** ** Translation *)

Section iteration_facts.
Context (iter : gmap Z Z -> list (Z * Z)).
Hypothesis iter_perm : forall m, iter m ≡ₚ map_to_list m.

Lemma iter_elem m v r : (v, r) ∈ iter m <-> m !! v = Some r.
Proof using iter_perm. by rewrite iter_perm, elem_of_map_to_list. Qed.

Lemma first_with_Some r l v : first_with r l = Some v -> (v, r) ∈ l.
Proof.
  induction l as [|[a b] l IH]; [done|]. cbn. destruct (Z.eqb_spec r b) as [->|].
  - intros [= ->]. apply list_elem_of_here.
  - intros H. apply list_elem_of_further. by apply IH.
Qed.

Lemma first_with_None r l : first_with r l = None -> forall v, (v, r) ∉ l.
Proof.
  induction l as [|[a b] l IH]; intros H v; [apply not_elem_of_nil|]. cbn in H.
  destruct (Z.eqb_spec r b) as [->|Hne]; [done|]. rewrite elem_of_cons. intros [[= -> ->]|Hin]; [done|].
  by apply (IH H v).
Qed.

(** [realToVirtual] inverts the table, and is the identity off its range. *)
Lemma realToVirtual_cases t r :
  idMapTable t !! vt_realToVirtual iter t r = Some r \/
  (vt_realToVirtual iter t r = r /\ forall v, idMapTable t !! v <> Some r).
Proof using iter_perm.
  unfold vt_realToVirtual. destruct (first_with r (iter (idMapTable t))) as [v|] eqn:E.
  - left. cbn. by apply iter_elem, first_with_Some.
  - right. split; [done|]. intros v Hv%iter_elem. by apply (first_with_None _ _ E v).
Qed.

Lemma realToVirtual_inj t v r :
  (forall v1 v2 x, idMapTable t !! v1 = Some x -> idMapTable t !! v2 = Some x -> v1 = v2) ->
  idMapTable t !! v = Some r -> vt_realToVirtual iter t r = v.
Proof using iter_perm.
  intros Hinj Hv. destruct (realToVirtual_cases t r) as [H|[_ H]]; [by eapply Hinj|]. by destruct (H v).
Qed.

End iteration_facts.

(** ** Facts about the instance *)

(** What [refresh] drops: the identifiers of this process whose thread is gone. *)
Definition dead (os : PidOS) (t : VirtualIdTable) (kv : Z * Z) : bool :=
  isIdCreatedByCurrentProcess t (fst kv) && negb (os_alive os (snd kv)).

Definition purge (os : PidOS) (t : VirtualIdTable) : VirtualIdTable :=
  t <| idMapTable ::= filter (fun kv => dead os t kv = false) |>.

Section instance_facts.
Context {D : Type} `{PidDirectory D} (iter : gmap Z Z -> list (Z * Z)) (os : PidOS).
Hypothesis iter_perm : forall m, iter m ≡ₚ map_to_list m.

Lemma refresh_fold l : forall t t0, base t = base t0 -> max t = max t0 ->
  let t' := foldl (fun t kv => if isIdCreatedByCurrentProcess t (fst kv) && negb (os_alive os (snd kv))
                               then vt_erase (fst kv) t else t) t l in
  base t' = base t0 /\ max t' = max t0 /\ nextVirtualId t' = nextVirtualId t /\
  forall v, idMapTable t' !! v =
    if existsb (fun kv => (fst kv =? v) && dead os t0 kv) l then None else idMapTable t !! v.
Proof.
  induction l as [|[v r] l IH]; intros t t0 Hb Hm t'; [done|]. subst t'. cbn [foldl existsb fst snd].
  assert (Hd : isIdCreatedByCurrentProcess t v && negb (os_alive os r) = dead os t0 (v, r))
    by (unfold dead, isIdCreatedByCurrentProcess; cbn [fst snd]; by rewrite Hb, Hm).
  rewrite Hd. destruct (dead os t0 (v, r)).
  - destruct (IH (vt_erase v t) t0 Hb Hm) as (H1 & H2 & H3 & H4). split_and!; try done.
    intros w. rewrite H4. rewrite andb_true_r. unfold vt_erase. rsimpl.
    destruct (Z.eqb_spec v w) as [->|Hne]; cbn [orb].
    + rewrite lookup_delete_eq. by destruct (existsb _ l).
    + by rewrite lookup_delete_ne.
  - destruct (IH t t0 Hb Hm) as (H1 & H2 & H3 & H4). split_and!; try done.
    intros w. rewrite H4, andb_false_r. done.
Qed.

Lemma refresh_purge t :
  foldl (fun t kv => if isIdCreatedByCurrentProcess t (fst kv) && negb (os_alive os (snd kv))
                     then vt_erase (fst kv) t else t) t (iter (idMapTable t)) = purge os t.
Proof using iter_perm.
  destruct (refresh_fold (iter (idMapTable t)) t t eq_refl eq_refl) as (H1 & H2 & H3 & H4).
  match goal with |- ?x = _ => set (t' := x) in * end.
  assert (E : idMapTable t' = filter (fun kv => dead os t kv = false) (idMapTable t)).
  { apply map_eq. intros v. rewrite H4.
    destruct (existsb _ _) eqn:Ex.
    - apply existsb_exists in Ex as ([w r] & Hin%list_elem_of_In & [Hw%Z.eqb_eq Hd]%andb_prop).
      cbn in Hin, Hw. subst w. apply iter_elem in Hin; [|done]. symmetry. apply map_lookup_filter_None. right.
      intros x Hx. cbn in *. rewrite Hx in Hin. injection Hin as ->. by rewrite Hd.
    - symmetry. destruct (idMapTable t !! v) as [r|] eqn:Ev.
      + apply map_lookup_filter_Some. split; [done|].
        destruct (dead os t (v, r)) eqn:Ed; [|done]. exfalso.
        assert (true = false); [|done]. rewrite <- Ex. symmetry. apply existsb_exists. exists (v, r).
        split; [by apply list_elem_of_In, iter_elem|]. cbn. by rewrite Z.eqb_refl.
      + apply map_lookup_filter_None. by left. }
  destruct t' as [m b x n]. cbn in *. subst. by destruct t.
Qed.

Lemma purge_wf t : vt_wf t -> vt_wf (purge os t).
Proof. done. Qed.

Lemma purge_sub t v r : idMapTable (purge os t) !! v = Some r -> idMapTable t !! v = Some r.
Proof. unfold purge. rsimpl. by intros [? _]%map_lookup_filter_Some. Qed.

Context (s : Pids D) (t : VirtualIdTable).
Hypothesis Hinst : vp_inst s = Some t.

Lemma instance_some : instance s = Ok t s.
Proof using Hinst. unfold instance, gets, mbind, M_bind. by rewrite Hinst. Qed.

Lemma upd_some f : upd f s = Ok tt (s <| vp_inst := Some (f t) |>).
Proof using Hinst. unfold upd. by rewrite (bind_ok _ _ _ _ _ instance_some). Qed.

Lemma newId_some : newId s = Ok (getNewVirtualId t).1 (s <| vp_inst := Some (getNewVirtualId t).2 |>).
Proof using Hinst.
  unfold newId. rewrite (bind_ok _ _ _ _ _ instance_some). by destruct (getNewVirtualId t).
Qed.

Lemma getpid_known : vp_pid s <> -1 -> getpid os s = Ok (vp_pid s) s.
Proof.
  intros Hp. unfold getpid, gets, mbind, M_bind. by destruct (Z.eqb_spec (vp_pid s) (-1)).
Qed.

Lemma refresh_some : vp_pid s <> -1 -> refresh iter os s = Ok tt (s <| vp_inst := Some (purge os t) |>).
Proof using Hinst iter_perm.
  intros Hp. unfold refresh. rewrite (bind_ok _ _ _ _ _ (getpid_known Hp)).
  destruct (Z.eqb_spec (vp_pid s) (-1)); [done|]. erewrite (bind_ok (assertM _ _)) by reflexivity.
  rewrite upd_some. by rewrite refresh_purge.
Qed.
End instance_facts.

Section tid_facts.
Context {D : Type} `{PidDirectory D} (iter : gmap Z Z -> list (Z * Z)) (os : PidOS).
Hypothesis iter_perm : forall m, iter m ≡ₚ map_to_list m.

Lemma vt_cursor_spec t x : vt_wf t -> in_window t x ->
  vt_wf (t <| nextVirtualId := x |>) /\ vt_size (t <| nextVirtualId := x |>) = vt_size t.
Proof. intros. split; [by apply vt_wf_cursor|done]. Qed.

Lemma getNewVirtualId_full t : max t <= vt_size t -> getNewVirtualId t = (None, t).
Proof. intros Hsz. unfold getNewVirtualId. by apply Z.ltb_ge in Hsz as ->. Qed.

Lemma assertNewId_spec (s : Pids D) t : vp_inst s = Some t -> vt_wf t ->
  match assertNewId s with
  | Ok id s' => in_window t id /\ exists t', vp_inst s' = Some t' /\ idMapTable t' !! id = None /\
      idMapTable t' = idMapTable t /\ vt_wf t' /\ base t' = base t
  | Fault f _ => f = AssertFailed "exceeded maximum number of threads allowed" /\
      (max t <= vt_size t \/ forall id, in_window t id -> is_Some (idMapTable t !! id))
  | Exit _ _ => False
  end.
Proof.
  intros Hi Hwf. unfold assertNewId. rewrite (bind_ok _ _ _ _ _ (newId_some s t Hi)).
  destruct (Z_lt_le_dec (vt_size t) (max t)) as [Hsz|Hsz].
  - destruct (getNewVirtualId_spec t Hwf Hsz) as (x & Hx & Ht & Hr).
    destruct (getNewVirtualId t).1 as [id|]; cbn; [|by split; [|right]].
    destruct Hr as [Hw Hn]. split; [done|]. exists (t <| nextVirtualId := x |>). rewrite Ht.
    split_and!; try done; try apply Hwf; try apply Hx. by apply vt_wf_cursor.
  - rewrite getNewVirtualId_full by done. cbn. by split; [|left].
Qed.

(** What [getNewVirtualTid] guarantees. *)
Lemma getNewVirtualTid_spec (s : Pids D) t :
  vp_inst s = Some t -> vt_wf t -> vp_pid s <> -1 ->
  match getNewVirtualTid iter os s with
  | Ok id s' => in_window t id /\ exists t', vp_inst s' = Some t' /\ idMapTable t' !! id = None /\
      (idMapTable t' = idMapTable t \/ idMapTable t' = idMapTable (purge os t)) /\ vt_wf t' /\ base t' = base t
  | Fault f _ => f = AssertFailed "exceeded maximum number of threads allowed" /\
      (max t <= vt_size (purge os t) \/ forall id, in_window t id -> is_Some (idMapTable (purge os t) !! id))
  | Exit _ _ => False
  end.
Proof using iter_perm.
  intros Hi Hwf Hp. unfold getNewVirtualTid. rewrite (bind_ok _ _ _ _ _ (newId_some s t Hi)).
  set (s1 := s <| vp_inst := Some (getNewVirtualId t).2 |>).
  assert (Hpre : exists t1, vp_inst s1 = Some t1 /\ vt_wf t1 /\ idMapTable t1 = idMapTable t /\ base t1 = base t /\
                  max t1 = max t /\
                  (is_Some (getNewVirtualId t).1 -> vt_size t < max t /\ exists id, in_window t id /\ idMapTable t !! id = None)).
  { destruct (Z_lt_le_dec (vt_size t) (max t)) as [Hsz|Hsz].
    - destruct (getNewVirtualId_spec t Hwf Hsz) as (x & Hx & Ht & Hr). exists (t <| nextVirtualId := x |>).
      unfold s1. rsimpl. rewrite Ht. split_and!; try done; try apply Hwf; try apply Hx; [by apply vt_wf_cursor|].
      intros [id Hid]. rewrite Hid in Hr. split; [done|]. by exists id.
    - exists t. unfold s1. rsimpl. rewrite getNewVirtualId_full by done. split_and!; try done; try apply Hwf.
      intros [? [=]]. }
  destruct Hpre as (t1 & Hi1 & Hwf1 & Hm1 & Hb1 & Hx1 & Hfree).
  destruct (getNewVirtualId t).1 as [id0|] eqn:E1; cbn [whenM].
  - erewrite (bind_ok (mret tt)) by reflexivity. pose proof (assertNewId_spec s1 t1 Hi1 Hwf1) as Hlast.
    unfold in_window in *. rewrite Hb1, Hx1 in Hlast. destruct (assertNewId s1) as [id s'| |f s']; [|done|].
    + destruct Hlast as (Hw & t' & ? & ? & E & ? & ?). split; [done|]. exists t'. rewrite Hm1 in E. eauto 10.
    + exfalso. destruct Hlast as [_ Hl]. destruct Hfree as (Hsz & id & Hw & Hn); [by eexists|].
      unfold vt_size in *. rewrite Hm1 in Hl. destruct Hl as [Hl|Hl]; [lia|].
      destruct (Hl id Hw) as [? Hs]. congruence.
  - rewrite (bind_ok _ _ _ _ _ (refresh_some iter os iter_perm s1 t1 Hi1 Hp)).
    pose proof (assertNewId_spec (s1 <| vp_inst := Some (purge os t1) |>) (purge os t1) eq_refl Hwf1) as Hlast.
    unfold in_window in *. change (base (purge os t1)) with (base t1) in Hlast.
    change (max (purge os t1)) with (max t1) in Hlast. rewrite Hb1, Hx1 in Hlast.
    assert (Hpm : idMapTable (purge os t1) = idMapTable (purge os t)).
    { unfold purge. rsimpl. rewrite Hm1. apply map_filter_ext. intros v r _.
      unfold dead, isIdCreatedByCurrentProcess. by rewrite Hb1, Hx1. }
    unfold vt_size in *. rewrite Hpm in Hlast.
    destruct (assertNewId (s1 <| vp_inst := Some (purge os t1) |>)) as [id s'| |f s']; [|done|exact Hlast].
    destruct Hlast as (Hw & t' & ? & ? & E & ? & ?). split; [done|]. exists t'. rewrite E in *. eauto 10.
Qed.
End tid_facts.

(** ** Facts about the environment variables *)

Lemma scan_zeros k s acc seen :
  scan_digits 10 (String.concat EmptyString (replicate k "0") +:+ s) acc seen =
  scan_digits 10 s (acc * 10 ^ Z.of_nat k) (seen || (0 <? k)%nat).
Proof.
  revert acc seen. induction k as [|k IH]; intros acc seen.
  { cbn. by rewrite Z.mul_1_r, orb_false_r. }
  assert (E : String.concat EmptyString (replicate (S k) "0") +:+ s =
              String "0" (String.concat EmptyString (replicate k "0") +:+ s)).
  { destruct k; [done|]. cbn [replicate String.concat]. by rewrite str_app_assoc, !str_app_cons, !str_app_nil_l. }
  rewrite E. cbn [scan_digits]. change (digit_in 10 "0") with (Some 0). cbv iota beta. rewrite IH.
  replace (acc * 10 + 0) with (acc * 10) by lia.
  rewrite orb_true_r. rewrite Nat2Z.inj_succ, Z.pow_succ_r by lia. by rewrite Z.mul_assoc.
Qed.

Lemma scan_digits_seen base s acc seen v b rest :
  scan_digits base s acc seen = (v, b, rest) ->
  exists b', scan_digits base s acc true = (v, b', rest) /\ (b = true -> b' = true).
Proof.
  destruct seen; [by exists b|]. destruct s as [|c s]; cbn.
  - intros [= <- <- <-]. by exists true.
  - destruct (digit_in base c); [by exists b|]. intros [= <- <- <-]. by exists true.
Qed.

Lemma parse_digits k n : 0 <= n ->
  scan_digits 10 (String.concat EmptyString (replicate k "0") +:+ digits 10 n) 0 false = (n, true, EmptyString).
Proof.
  intros Hn. rewrite scan_zeros, Z.mul_0_l.
  pose proof (scan_digits_digits 10 n ltac:(lia) Hn) as E. cbn [orb].
  destruct (0 <? k)%nat; [|done]. apply scan_digits_seen in E as (b & E & Hb). by rewrite E, Hb.
Qed.

Lemma digits_not_minus n s : 0 <= n -> digits 10 n <> String "-" s.
Proof. intros Hn E. pose proof (digits_not_dash n EmptyString s Hn) as H. by rewrite str_app_nil_r in H. Qed.

Lemma parse_padded k n : 0 <= n -> in_int32 n = true ->
  parseInteger (pad_left k (digits 10 n)) = Some n.
Proof.
  intros Hn Hr. unfold parseInteger, pad_left.
  pose proof (parse_digits (k - String.length (digits 10 n)) n Hn) as E.
  destruct (String.concat EmptyString (replicate (k - String.length (digits 10 n)) "0") +:+ digits 10 n)
    as [|c s] eqn:Es; [done|].
  destruct (Ascii.eqb_spec c "-") as [->|_]; [|by rewrite E, Hr].
  exfalso. destruct (k - String.length (digits 10 n))%nat as [|j].
  - cbn in Es. rewrite str_app_nil_l in Es. by apply (digits_not_minus n s).
  - destruct j; cbn [replicate String.concat] in Es; rewrite ?str_app_cons in Es; discriminate Es.
Qed.

Lemma parse_minus k n : 0 < n -> in_int32 (- n) = true ->
  parseInteger (String "-" (pad_left k (digits 10 n))) = Some (- n).
Proof.
  intros Hn Hr. unfold parseInteger, pad_left. cbn [Ascii.eqb Bool.eqb].
  rewrite parse_digits by lia. by rewrite Hr.
Qed.

Lemma parse_pid_texts v : in_int32 v = true ->
  parseInteger (padded31 v) = Some v /\ parseInteger (XToString v) = Some v.
Proof.
  intros Hr. unfold padded31, XToString. destruct (Z.ltb_spec v 0) as [Hneg|Hpos].
  - split; [|change (digits 10 (- v)) with (pad_left 0 (digits 10 (- v)))];
      rewrite parse_minus; rewrite ?Z.opp_involutive; done || lia.
  - split; [|change (digits 10 v) with (pad_left 0 (digits 10 v))]; by apply parse_padded.
Qed.

Lemma get_set_env name v env : in_int32 v = true -> getPidEnvVar name (setPidEnvVar name v env) = Some v.
Proof.
  intros Hr. destruct (parse_pid_texts v Hr) as [H1 H2]. unfold getPidEnvVar, setPidEnvVar.
  by destruct (env !! name); unfold Env; rewrite lookup_insert_eq.
Qed.

Lemma get_set_env_ne name name' v env : name <> name' ->
  getPidEnvVar name (setPidEnvVar name' v env) = getPidEnvVar name env.
Proof. intros Hne. unfold getPidEnvVar, setPidEnvVar. by destruct (env !! name'); unfold Env; rewrite lookup_insert_ne. Qed.

(** ** Theorems *)

(** [getNewVirtualId] is correct and complete: it always returns; with
    fewer entries than [_max] it returns an identifier above the base and below
    base + max that is not in the table whenever there is one, reports failure only
    when every such identifier is taken, and changes only the cursor. *)
Theorem getNewVirtualId_correct t :
  vt_wf t -> vt_size t < max t ->
  exists x, in_window t x /\ (getNewVirtualId t).2 = t <| nextVirtualId := x |> /\
  match (getNewVirtualId t).1 with
  | Some id => in_window t id /\ idMapTable t !! id = None
  | None => forall id, in_window t id -> is_Some (idMapTable t !! id)
  end.
Proof. apply getNewVirtualId_spec. Qed.

Lemma getNewVirtualId_correct_witness :
  (getNewVirtualId (vt_updateMapping 40001 77 (VirtualIdTable_new 40000 MAX_VIRTUAL_ID))).1 = Some 40002.
Proof.
  destruct (getNewVirtualId_correct (vt_updateMapping 40001 77 (VirtualIdTable_new 40000 MAX_VIRTUAL_ID)))
    as (x & _ & _ & _).
  - repeat split; discriminate.
  - reflexivity.
  - vm_compute. reflexivity.
Defined.

(** Allocating a thread identifier: [getNewVirtualTid] returns an
    identifier of the process's own window that no entry of the table it leaves
    uses, after dropping at most the entries of this process's finished threads,
    and it fails its ASSERT only when, with those dropped, the table is still full
    or the window exhausted.  Identifiers of two processes whose bases are one
    VIRTUAL_PID_STEP apart or more never collide, nor do they hit a base. *)
Theorem virtual_tid_allocation {D1 D2} `{PidDirectory D1} `{PidDirectory D2} iter os1 os2
    (s1 : Pids D1) (s2 : Pids D2) t1 t2 :
  (forall m, iter m ≡ₚ map_to_list m) ->
  vp_inst s1 = Some t1 -> vt_wf t1 -> vp_pid s1 <> -1 ->
  vp_inst s2 = Some t2 -> vt_wf t2 -> vp_pid s2 <> -1 ->
  max t1 = MAX_VIRTUAL_ID -> max t2 = MAX_VIRTUAL_ID -> base t1 + 1000 <= base t2 ->
  match getNewVirtualTid iter os1 s1 with
  | Ok id s1' => in_window t1 id /\
      (exists t', vp_inst s1' = Some t' /\ idMapTable t' !! id = None /\
         (idMapTable t' = idMapTable t1 \/ idMapTable t' = idMapTable (purge os1 t1)) /\ vt_wf t') /\
      (forall id2 s2', getNewVirtualTid iter os2 s2 = Ok id2 s2' -> id <> id2 /\ id <> base t2 /\ id2 <> base t1)
  | Fault f _ => f = AssertFailed "exceeded maximum number of threads allowed" /\
      (max t1 <= vt_size (purge os1 t1) \/
       forall id, in_window t1 id -> is_Some (idMapTable (purge os1 t1) !! id))
  | Exit _ _ => False
  end.
Proof.
  intros Hit Hi1 Hwf1 Hp1 Hi2 Hwf2 Hp2 Hm1 Hm2 Hb.
  pose proof (getNewVirtualTid_spec iter os1 Hit s1 t1 Hi1 Hwf1 Hp1) as S1.
  pose proof (getNewVirtualTid_spec iter os2 Hit s2 t2 Hi2 Hwf2 Hp2) as S2.
  destruct (getNewVirtualTid iter os1 s1) as [id s1'| |f s1']; [|done|exact S1].
  destruct S1 as (Hw & t' & H1 & H2 & H3 & H4 & _). split; [done|]. split; [by exists t'|].
  intros id2 s2' E. rewrite E in S2. destruct S2 as [Hw2 _]. unfold in_window, MAX_VIRTUAL_ID in *. lia.
Qed.

Definition example_os : PidOS := mk_PidOS 500 400 500 (fun _ => true).
Definition example_pids (b : Z) : Pids Area :=
  mk_Pids (Some (VirtualIdTable_new b MAX_VIRTUAL_ID)) b 1 500 400 b 1 false [] ∅ example_area.

Lemma virtual_tid_allocation_witness :
  exists s', getNewVirtualTid map_to_list example_os (example_pids 40000) = Ok 40002 s' /\ 40002 <> 41002.
Proof.
  pose proof (virtual_tid_allocation map_to_list example_os example_os (example_pids 40000) (example_pids 41000)
    (VirtualIdTable_new 40000 MAX_VIRTUAL_ID) (VirtualIdTable_new 41000 MAX_VIRTUAL_ID)) as T.
  destruct (getNewVirtualTid map_to_list example_os (example_pids 40000)) as [id s'| |] eqn:E;
    vm_compute in E; try discriminate E.
  injection E as <- <-. eexists. split; [reflexivity|].
  refine (proj1 (proj2 (proj2 (T _ _ _ _ _ _ _ _ _ _)) 41002 _ _));
    try reflexivity; try (repeat split; discriminate); try discriminate.
Defined.

(** Translation: 0 and -1 stand for themselves, a negative number names
    the group of its absolute value, and an identifier goes to its own table
    entry, else to the entry of the directory the processes share, else to itself;
    translating back through a table without duplicates returns the virtual
    identifier, and a real identifier in no entry is its own. *)
Theorem pid_translation_correct {D} `{PidDirectory D} iter (s : Pids D) t v :
  (forall m, iter m ≡ₚ map_to_list m) ->
  vp_inst s = Some t -> pd_ready (vp_dir s) -> - 2 ^ 31 < v < 2 ^ 31 ->
  let local_or_shared id :=
    default (let r := default (-1) (pd_lookup (vp_dir s) id) in if r =? -1 then id else r) (idMapTable t !! id) in
  virtualToReal v s =
    Ok (if (v =? -1) || (v =? 0) then v else if v <? 0 then - local_or_shared (- v) else local_or_shared v) s /\
  (forall r, (forall v1 v2 x, idMapTable t !! v1 = Some x -> idMapTable t !! v2 = Some x -> v1 = v2) ->
     r <> 0 -> r <> -1 ->
     (idMapTable t !! v = Some r -> realToVirtual iter r s = Ok v s) /\
     ((forall w, idMapTable t !! w <> Some r) -> realToVirtual iter r s = Ok r s)).
Proof.
  intros Hit Hi Hd Hv lookup. split.
  - unfold virtualToReal. destruct ((v =? -1) || (v =? 0)) eqn:E; [done|].
    apply orb_false_iff in E as [E1%Z.eqb_neq E2%Z.eqb_neq].
    assert (Hb : forall id, (r ← match vt_virtualToReal t id with
               | Some r => mret r
               | None => r ← on_dir (pd_getRealPid id); mret (if r =? -1 then id else r)
               end; mret (if v <? -1 then - r else r)) s = Ok (if v <? -1 then - lookup id else lookup id) s).
    { intros id. unfold lookup, vt_virtualToReal. destruct (idMapTable t !! id); [done|].
      unfold on_dir, mbind, M_bind. rewrite pd_getRealPid_spec by done. cbn. by destruct s. }
    destruct (Z.ltb_spec v (-1)) as [Hn|Hn].
    + assert (in_int32 (- v) = true) as -> by (unfold in_int32; apply andb_true_intro; split; apply Z.leb_le; lia).
      erewrite (bind_ok (mret _)) by reflexivity. rewrite (bind_ok _ _ _ _ _ (instance_some s t Hi)), Hb.
      destruct (Z.ltb_spec v 0); [done|lia].
    + erewrite (bind_ok (mret _)) by reflexivity. rewrite (bind_ok _ _ _ _ _ (instance_some s t Hi)), Hb.
      destruct (Z.ltb_spec v 0); [lia|done].
  - intros r Hinj H0 H1. unfold realToVirtual.
    destruct (Z.eqb_spec r (-1)); [done|]. destruct (Z.eqb_spec r 0); [done|]. cbn [orb].
    rewrite (bind_ok _ _ _ _ _ (instance_some s t Hi)). split; intros Hr.
    + by rewrite (realToVirtual_inj iter Hit t v r Hinj Hr).
    + destruct (realToVirtual_cases iter Hit t r) as [E|[-> _]]; [by destruct (Hr _ E)|done].
Qed.

Lemma pid_translation_correct_witness :
  virtualToReal (-40000) (example_pids 40000) = Ok (-40000) (example_pids 40000).
Proof.
  refine (proj1 (pid_translation_correct map_to_list (example_pids 40000)
                   (VirtualIdTable_new 40000 MAX_VIRTUAL_ID) (-40000) _ _ _ _)).
  - reflexivity.
  - reflexivity.
  - split; [reflexivity|apply NoDup_nil_2].
  - split; reflexivity.
Defined.

(** [VirtualPidTable::postRestart] records the real parent and then clears
    the table, so after a restart the table holds this process only and the
    parent's mapping is lost: the parent's virtual identifier translates to what
    the shared directory says, or to itself. *)
Theorem postRestart_forgets_parent {D} `{PidDirectory D} os (s : Pids D) t :
  vp_inst s = Some t -> vp_pid s <> -1 ->
  exists s' t', postRestart os s = Ok tt s' /\ vp_inst s' = Some t' /\
    idMapTable t' = {[ vp_pid s := os_getpid os ]} /\
    (vp_ppid s <> vp_pid s -> idMapTable t' !! vp_ppid s = None).
Proof.
  intros Hi Hp. unfold postRestart. erewrite (bind_ok (gets _)) by reflexivity.
  assert (H1 : exists t1, whenM (negb (vp_ppid s =? 1)) (updateMapping (vp_ppid s) (os_getppid os)) s =
                 Ok tt (s <| vp_inst := Some t1 |>)).
  { unfold updateMapping. destruct (negb (vp_ppid s =? 1)); cbn [whenM];
      [destruct ((0 <? vp_ppid s) && (0 <? os_getppid os)); cbn [whenM]|].
    - rewrite (upd_some s t Hi). eauto.
    - exists t. rewrite <- Hi. by destruct s.
    - exists t. rewrite <- Hi. by destruct s. }
  destruct H1 as [t1 H1]. rewrite (bind_ok _ _ _ _ _ H1).
  set (s1 := s <| vp_inst := Some t1 |>).
  rewrite (bind_ok _ _ _ _ _ (upd_some s1 t1 eq_refl vt_postRestart)).
  set (s2 := s1 <| vp_inst := Some (vt_postRestart t1) |>).
  rewrite (bind_ok _ _ _ _ _ (getpid_known os s2 Hp)).
  rewrite (upd_some s2 (vt_postRestart t1) eq_refl).
  do 2 eexists. split_and!; [reflexivity|reflexivity| |].
  - unfold vt_updateMapping, vt_postRestart, resetNextVirtualId. rsimpl. by rewrite insert_empty.
  - intros Hne. unfold vt_updateMapping, vt_postRestart, resetNextVirtualId. rsimpl.
    by rewrite lookup_insert_ne.
Qed.

Lemma postRestart_forgets_parent_witness :
  exists s' t', postRestart example_os (example_pids 40000) = Ok tt s' /\ vp_inst s' = Some t' /\
    idMapTable t' !! 1 = None.
Proof.
  destruct (postRestart_forgets_parent example_os (example_pids 40000)
              (VirtualIdTable_new 40000 MAX_VIRTUAL_ID)) as (s' & t' & H1 & H2 & _ & H3).
  - reflexivity.
  - discriminate.
  - exists s', t'. split; [exact H1|]. split; [exact H2|]. apply H3. discriminate.
Defined.

(** The identifiers written to the environment before an exec, padded or in place, are
    read back, whatever the environment held before. *)
Lemma pid_env_read_back env virtPid realPid virtPpid realPpid :
  in_int32 virtPid = true -> in_int32 realPid = true -> in_int32 virtPpid = true -> in_int32 realPpid = true ->
  getVirtualPidFromEnvVar (setVirtualPidEnvVar virtPid realPid virtPpid realPpid env) =
    Some (virtPid, realPid, virtPpid, realPpid).
Proof.
  intros H1 H2 H3 H4. unfold getVirtualPidFromEnvVar, setVirtualPidEnvVar.
  rewrite !(get_set_env_ne ENV_VAR_VIRTUAL_PID), (get_set_env ENV_VAR_VIRTUAL_PID) by done.
  rewrite !(get_set_env_ne ENV_VAR_REAL_PID), (get_set_env ENV_VAR_REAL_PID) by done.
  rewrite !(get_set_env_ne ENV_VAR_VIRTUAL_PPID), (get_set_env ENV_VAR_VIRTUAL_PPID) by done.
  by rewrite (get_set_env ENV_VAR_REAL_PPID).
Qed.
