(* ===== verification/Serialize.v ===== *)
(** * Binary serialisation

    [JBinarySerializer] (jalib/jserialize.h, jalib/jserialize.cpp): one method
    [serialize] per type, which writes the value when the serializer is a writer
    and replaces it when the serializer is a reader.  The model keeps that: an
    operation is a function of the [Stream], whose mode decides, and returns the
    value the C++ reference holds afterwards.

    The class [Wire] states what an operation promises: a writer that has room
    appends the encoding of the value and leaves the value alone, a reader that
    stands before the encoding of a value returns that value and stands behind it,
    and what a reader does depends only on the bytes it has read.  Integers are in
    the byte order of the machine, little endian. *)

From Stdlib Require Import ZArith Lia Ascii.
From stdpp Require Import base gmap strings numbers list.
From S2P Require Import Prelude CText.
Open Scope Z_scope.

(** ** The stream: a file descriptor, its file and its offset *)

Record Stream : Type := mk_Stream {
  sr_reader : bool;     (* isReader() *)
  sr_data : string;     (* the content of the file *)
  sr_pos : nat;         (* the offset of the descriptor *)
  sr_room : nat;        (* a write that ends beyond this offset fails *)
  sr_bytes : nat        (* _bytes *)
}.
#[export] Instance eta_Stream : Settable Stream :=
  {| eta_of s := mk_Stream (sr_reader s) (sr_data s) (sr_pos s) (sr_room s) (sr_bytes s) |}.

Definition isReader : M Stream bool := gets sr_reader.
Definition isWriter : M Stream bool := r ← isReader; mret (negb r).
Definition rewind : M Stream unit := modify (fun s => s <| sr_pos := 0%nat |>).
Definition isempty : M Stream bool := gets (fun s => Nat.eqb (String.length (sr_data s)) 0).
Definition isEOF : M Stream bool := gets (fun s => Nat.eqb (sr_pos s) (String.length (sr_data s))).

(** The file after [n] bytes [buf] are written at offset [pos]. *)
Definition overwrite (data : string) (pos : nat) (buf : string) : string :=
  str_take pos data +:+ buf +:+ str_drop (pos + String.length buf) data.

Definition rest (s : Stream) : string := str_drop (sr_pos s) (sr_data s).
Definition advanced (n : nat) (s : Stream) : Stream :=
  s <| sr_pos := (sr_pos s + n)%nat |> <| sr_bytes := (sr_bytes s + n)%nat |>.

(** [readOrWrite(buffer, len)]: the buffer afterwards. *)
Definition readOrWrite (buf : string) : M Stream string := fun s =>
  let len := String.length buf in
  if sr_reader s then
    let got := str_take len (rest s) in
    if Nat.eqb (String.length got) len then Ok got (advanced len s)
    else Fault (AssertFailed "read() failed") s
  else
    if Nat.leb (sr_pos s + len) (sr_room s)
    then Ok buf (advanced len s <| sr_data := overwrite (sr_data s) (sr_pos s) buf |>)
    else Fault (AssertFailed "write() failed") s.

(** ** The operations *)

(** [JSERIALIZE_ASSERT_POINT]: the text with its terminator; the comparison reads
    the array as a C string. *)
Definition ASSERT_POINT (str : string) : M Stream unit :=
  versionCheck ← readOrWrite (str +:+ NUL_str);
  match c_str versionCheck with
  | Some got => assertM (String.eqb got str) "invalid file format"
  | None => faultM (OutOfBounds "versionCheck is not terminated")
  end.

Fixpoint le_bytes (n : nat) (z : Z) : string :=
  match n with
  | O => EmptyString
  | S n' => String (byte_of z) (le_bytes n' (z / 256))
  end.

Fixpoint le_val (s : string) : Z :=
  match s with
  | EmptyString => 0
  | String c s' => byte_val c + 256 * le_val s'
  end.

(** [serialize(T &t)]: the object representation of a [T]. *)
Definition serialize_raw {T} (raw : T -> string) (of_raw : string -> T) (t : T) : M Stream T :=
  b ← readOrWrite (raw t); mret (of_raw b).

(** At an unsigned, a signed integer of [n] bytes. *)
Definition serialize_uint (n : nat) : Z -> M Stream Z := serialize_raw (le_bytes n) le_val.
Definition serialize_int (n : nat) : Z -> M Stream Z :=
  serialize_raw (le_bytes n) (fun b => wrap_s (8 * Z.of_nat n) (le_val b)).

Definition str_resize (n : nat) (s : string) : string :=
  str_take n s +:+ String.string_of_list_ascii (replicate (n - String.length s) "?"%char).

Definition serialize_string (t : string) : M Stream string :=
  len ← serialize_uint 4 (Z.of_nat (String.length t));
  readOrWrite (str_resize (Z.to_nat len) t).

Section containers.
Context {T : Type} (dflt : T) (ser : T -> M Stream T).

Definition vec_resize (n : nat) (l : list T) : list T := take n l ++ replicate (n - length l) dflt.

Fixpoint serialize_elements (l : list T) : M Stream (list T) :=
  match l with
  | [] => mret []
  | x :: l' =>
      ASSERT_POINT "[";;
      y ← ser x;
      ASSERT_POINT "]";;
      ys ← serialize_elements l';
      mret (y :: ys)
  end.

Definition serialize_vector (t : list T) : M Stream (list T) :=
  ASSERT_POINT "vector:";;
  len ← serialize_uint 4 (Z.of_nat (length t));
  t ← serialize_elements (vec_resize (Z.to_nat len) t);
  ASSERT_POINT "end::vector";;
  mret t.
End containers.

Section maps.
Context {K V : Type} `{Countable K} (serK : K -> M Stream K) (serV : V -> M Stream V).
(** What the local variables [K key; V val;] hold before the first entry is read. *)
Context (key0 : K) (val0 : V).
(** The order in which the container is walked. *)
Context (iter : gmap K V -> list (K * V)).

Definition serializePair (key : K) (val : V) : M Stream (K * V) :=
  ASSERT_POINT "[";;
  key ← serK key;
  ASSERT_POINT ",";;
  val ← serV val;
  ASSERT_POINT "]";;
  mret (key, val).

(** The loop of the reader: [key] and [val] live across the rounds. *)
Fixpoint read_entries (n : nat) (key : K) (val : V) (t : gmap K V) : M Stream (gmap K V) :=
  match n with
  | O => mret t
  | S n' =>
      kv ← serializePair key val;
      read_entries n' (fst kv) (snd kv) (<[fst kv := snd kv]> t)
  end.

Definition write_entries (l : list (K * V)) : M Stream unit :=
  forM l (fun kv => serializePair (fst kv) (snd kv);; mret tt).

Definition serialize_entries (t : gmap K V) : M Stream (gmap K V) :=
  len ← serialize_uint 4 (Z.of_nat (size t));
  r ← isReader;
  if r : bool then read_entries (Z.to_nat len) key0 val0 t
  else write_entries (iter t);; mret t.

Definition serialize_map (t : gmap K V) : M Stream (gmap K V) :=
  ASSERT_POINT "map:";;
  t ← serialize_entries t;
  ASSERT_POINT "end::map";;
  mret t.

Definition serialize_unordered_map (t : gmap K V) : M Stream (gmap K V) :=
  ASSERT_POINT "unordered_map:";;
  t ← serialize_entries t;
  ASSERT_POINT "end::unordered_map";;
  mret t.
End maps.

(** ** What an operation promises *)

(** A writer at the end of its file with room for [n] bytes more. *)
Definition writing (n : nat) (s : Stream) : Prop :=
  sr_reader s = false /\ sr_pos s = String.length (sr_data s) /\ (sr_pos s + n <= sr_room s)%nat.
Definition wrote (e : string) (s : Stream) : Stream :=
  advanced (String.length e) s <| sr_data := sr_data s +:+ e |>.

(** [emits m a e]: as a writer, [m] appends [e] and returns [a].
    [accepts m e a]: as a reader in front of [e], [m] returns [a] behind [e].
    [local m]: a successful read stays inside the file and does not depend on what
    follows the bytes it read. *)
Definition emits {A} (m : M Stream A) (a : A) (e : string) : Prop :=
  forall s, writing (String.length e) s -> m s = Ok a (wrote e s).
Definition accepts {A} (m : M Stream A) (e : string) (a : A) : Prop :=
  forall s k, sr_reader s = true -> rest s = e +:+ k -> m s = Ok a (advanced (String.length e) s).
Definition local {A} (m : M Stream A) : Prop :=
  forall s a s', sr_reader s = true -> m s = Ok a s' ->
  sr_reader s' = true /\ sr_data s' = sr_data s /\
  (exists n, s' = advanced n s /\ (n <= String.length (rest s))%nat) /\
  forall x, m (s <| sr_data := sr_data s +:+ x |>) = Ok a (s' <| sr_data := sr_data s +:+ x |>).

Class Wire {A : Type} (ser : A -> M Stream A) (ok : A -> Prop) (enc : A -> string) : Prop := {
  wire_write : forall a, ok a -> emits (ser a) a (enc a);
  wire_read : forall a old, ok a -> accepts (ser old) (enc a) a;
  wire_local : forall old, local (ser old)
}.

(** *** Streams *)

Lemma writing_wrote m e s : writing (String.length e + m) s -> writing m (wrote e s).
Proof.
  intros (Hr & Hp & Hl). unfold writing, wrote, advanced. rsimpl. rewrite str_app_length. repeat split; [done|lia..].
Qed.

Lemma wrote_wrote e f s : wrote f (wrote e s) = wrote (e +:+ f) s.
Proof.
  unfold wrote, advanced, set_field. cbn. rewrite str_app_assoc, str_app_length. f_equal; lia.
Qed.

Lemma wrote_nil s : wrote EmptyString s = s.
Proof.
  destruct s. unfold wrote, advanced, set_field. cbn. rewrite str_app_nil_r, !Nat.add_0_r. done.
Qed.

Lemma advanced_advanced n m s : advanced m (advanced n s) = advanced (n + m) s.
Proof. unfold advanced, set_field. cbn. f_equal; lia. Qed.

Lemma advanced_0 s : advanced 0 s = s.
Proof. destruct s. unfold advanced, set_field. cbn. by rewrite !Nat.add_0_r. Qed.

Lemma rest_advanced n s : rest (advanced n s) = str_drop n (rest s).
Proof. unfold rest, advanced. rsimpl. by rewrite str_drop_drop. Qed.

Lemma str_drop_all n s : (String.length s <= n)%nat -> str_drop n s = EmptyString.
Proof. revert n. induction s as [|c s IH]; intros [|n] H; cbn in *; try done; try lia. apply IH. lia. Qed.

Lemma str_take_length n s : String.length (str_take n s) = Nat.min n (String.length s).
Proof. revert n. induction s as [|c s IH]; intros [|n]; cbn; try done. by rewrite IH. Qed.

Lemma str_take_app_le n a b : (n <= String.length a)%nat -> str_take n (a +:+ b) = str_take n a.
Proof. revert n. induction a as [|c a IH]; intros [|n] H; try (cbn in H; lia); try done. cbn in H. rewrite str_app_cons. cbn [str_take]. by rewrite IH by lia. Qed.

Lemma str_drop_app_le n a b : (n <= String.length a)%nat -> str_drop n (a +:+ b) = str_drop n a +:+ b.
Proof. revert n. induction a as [|c a IH]; intros [|n] H; try (cbn in H; lia); try done. cbn in H. apply IH. lia. Qed.

(** *** Composition *)

Lemma emits_ret {A} (a : A) : emits (mret a) a EmptyString.
Proof. intros s _. by rewrite wrote_nil. Qed.

Lemma emits_bind {A B} (m : M Stream A) (k : A -> M Stream B) a b e f :
  emits m a e -> emits (k a) b f -> emits (m ≫= k) b (e +:+ f).
Proof.
  intros Hm Hk s Hs. rewrite str_app_length in Hs. rewrite (bind_ok m k s a (wrote e s)).
  - rewrite Hk, wrote_wrote; [done|]. by apply writing_wrote.
  - apply Hm. destruct Hs as (? & ? & ?). repeat split; [done..|lia].
Qed.

Lemma emits_eq {A} (m : M Stream A) a e f : emits m a e -> e = f -> emits m a f.
Proof. by intros H <-. Qed.

Lemma accepts_ret {A} (a : A) : accepts (mret a) EmptyString a.
Proof. intros s k _ _. cbn. by rewrite advanced_0. Qed.

Lemma accepts_bind {A B} (m : M Stream A) (k : A -> M Stream B) a b e f :
  accepts m e a -> accepts (k a) f b -> accepts (m ≫= k) (e +:+ f) b.
Proof.
  intros Hm Hk s r Hs Hr. rewrite str_app_assoc in Hr. erewrite bind_ok by (eapply Hm; done).
  erewrite Hk; [|done|]; [by rewrite advanced_advanced, str_app_length|].
  by rewrite rest_advanced, Hr, str_drop_app.
Qed.

Lemma accepts_eq {A} (m : M Stream A) a e f : accepts m e a -> e = f -> accepts m f a.
Proof. by intros H <-. Qed.

Lemma local_ret {A} (a : A) : local (mret a).
Proof.
  intros s b s' Hr H. injection H as <- <-. split_and!; [done..| |].
  - exists 0%nat. split; [by rewrite advanced_0|lia].
  - intros x. done.
Qed.

Lemma local_bind {A B} (m : M Stream A) (k : A -> M Stream B) :
  local m -> (forall a, local (k a)) -> local (m ≫= k).
Proof.
  intros Hm Hk s b s' Hr H. apply bind_ok_inv in H as (a & s1 & H1 & H2).
  destruct (Hm _ _ _ Hr H1) as (Hr1 & Hd1 & (n & -> & Hn) & Hx1).
  destruct (Hk a _ _ _ Hr1 H2) as (Hr2 & Hd2 & (n2 & -> & Hn2) & Hx2).
  split_and!; [done|congruence| |].
  - exists (n + n2)%nat. rewrite advanced_advanced. split; [done|].
    rewrite rest_advanced, str_drop_length in Hn2. lia.
  - intros x. rewrite (bind_ok _ _ _ _ _ (Hx1 x)). apply (Hx2 x).
Qed.

Lemma local_fault {A} f : local (@faultM Stream A f).
Proof. intros s a s' _ H. done. Qed.

Lemma local_assert b w : local (assertM b w).
Proof. destruct b; [apply local_ret|apply local_fault]. Qed.

Lemma local_isReader : local isReader.
Proof.
  intros s a s' Hr H. injection H as <- <-. split_and!; [done..| |done].
  exists 0%nat. split; [by rewrite advanced_0|lia].
Qed.

#[export] Hint Resolve emits_ret accepts_ret local_ret local_bind local_fault local_assert local_isReader : dmtcp.

(** *** The raw operations *)

Lemma readOrWrite_emits buf : emits (readOrWrite buf) buf buf.
Proof.
  intros s (Hr & Hp & Hl). unfold readOrWrite. rewrite Hr.
  destruct (Nat.leb_spec (sr_pos s + String.length buf) (sr_room s)); [|lia].
  unfold wrote, overwrite. rewrite Hp, str_take_all, str_drop_all, str_app_nil_r by lia. done.
Qed.

Lemma readOrWrite_accepts buf e : String.length buf = String.length e -> accepts (readOrWrite buf) e e.
Proof.
  intros Hl s k Hr Hk. unfold readOrWrite. rewrite Hr, Hk, Hl, str_take_app, Nat.eqb_refl. done.
Qed.

Lemma readOrWrite_local buf : local (readOrWrite buf).
Proof.
  intros s a s' Hr H. unfold readOrWrite in *. rewrite Hr in H.
  destruct (Nat.eqb_spec (String.length (str_take (String.length buf) (rest s))) (String.length buf)) as [E|];
    [|done]. injection H as <- <-.
  pose proof E as E'. rewrite str_take_length in E'.
  split_and!; [done..| |].
  - eexists. split; [done|]. lia.
  - intros x. rsimpl. rewrite Hr.
    assert (Hx : str_take (String.length buf) (rest (s <| sr_data := sr_data s +:+ x |>)) =
                 str_take (String.length buf) (rest s)).
    { unfold rest in *. rsimpl. rewrite str_drop_length in E'.
      destruct (Nat.le_gt_cases (sr_pos s) (String.length (sr_data s))).
      - rewrite str_drop_app_le by done. apply str_take_app_le. rewrite str_drop_length. lia.
      - assert (String.length buf = 0%nat) as -> by lia. done. }
    rewrite Hx, E, Nat.eqb_refl. done.
Qed.

Lemma ASSERT_POINT_emits str : no_NUL str = true -> emits (ASSERT_POINT str) tt (str +:+ NUL_str).
Proof.
  intros Hs. eapply emits_eq; [eapply emits_bind; [apply readOrWrite_emits|]|apply str_app_nil_r].
  unfold NUL_str. rewrite c_str_app, String.eqb_refl by done. apply emits_ret.
Qed.

Lemma ASSERT_POINT_accepts str : no_NUL str = true -> accepts (ASSERT_POINT str) (str +:+ NUL_str) tt.
Proof.
  intros Hs. eapply accepts_eq; [eapply accepts_bind; [by apply readOrWrite_accepts|]|apply str_app_nil_r].
  unfold NUL_str. rewrite c_str_app, String.eqb_refl by done. apply accepts_ret.
Qed.

Lemma ASSERT_POINT_local str : local (ASSERT_POINT str).
Proof.
  apply local_bind; [apply readOrWrite_local|]. intros v.
  destruct (c_str v); [apply local_assert|apply local_fault].
Qed.

(** Behind a mark at least one byte has been read. *)
Lemma point_progress {A} str (k : unit -> M Stream A) s a s' :
  (forall u, local (k u)) -> sr_reader s = true -> (ASSERT_POINT str ≫= k) s = Ok a s' ->
  exists n, (0 < n <= String.length (rest s))%nat /\ s' = advanced n s.
Proof.
  intros Hk Hr H. destruct (local_bind _ _ (ASSERT_POINT_local str) Hk s a s' Hr H) as (_ & _ & (n & -> & Hn) & _).
  apply bind_ok_inv in H as (u & s1 & H1 & H2). apply bind_ok_inv in H1 as (b & s2 & H0 & H1).
  assert (s1 = s2) as ->.
  { destruct (c_str b); [|done]. unfold assertM in H1. destruct (String.eqb _ _); [|done]. by injection H1. }
  unfold readOrWrite in H0. rewrite Hr in H0. destruct (Nat.eqb _ _); [|done]. injection H0 as <- <-.
  apply Hk in H2 as (_ & _ & (n2 & E & _) & _); [|done]. rewrite advanced_advanced in E.
  apply (f_equal sr_pos) in E. unfold advanced, set_field in E. cbn in E.
  rewrite str_app_length in E. cbn in E. exists n. split; [lia|done].
Qed.

#[export] Hint Resolve readOrWrite_emits readOrWrite_local ASSERT_POINT_local : dmtcp.
#[export] Hint Extern 1 (emits (ASSERT_POINT _) _ _) => apply ASSERT_POINT_emits; reflexivity : dmtcp.
#[export] Hint Extern 1 (accepts (ASSERT_POINT _) _ _) => apply ASSERT_POINT_accepts; reflexivity : dmtcp.

(** *** Integers *)

Lemma le_bytes_length n z : String.length (le_bytes n z) = n.
Proof. revert z. induction n as [|n IH]; intros z; cbn; [done|]. by rewrite IH. Qed.

Lemma byte_val_of z : byte_val (byte_of z) = z mod 256.
Proof.
  unfold byte_val, byte_of. pose proof (Z.mod_pos_bound z 256 ltac:(lia)).
  rewrite N_ascii_embedding by lia. lia.
Qed.

Lemma le_val_bytes n z : le_val (le_bytes n z) = z mod 2 ^ (8 * Z.of_nat n).
Proof.
  revert z. induction n as [|n IH]; intros z; [by rewrite Z.mod_1_r|].
  cbn [le_bytes le_val]. rewrite IH, byte_val_of.
  replace (8 * Z.of_nat (S n)) with (8 + 8 * Z.of_nat n) by lia.
  rewrite Z.pow_add_r by lia. change (2 ^ 8) with 256.
  rewrite (Z.rem_mul_r z 256) by lia. done.
Qed.

Lemma le_bytes_val s : le_bytes (String.length s) (le_val s) = s.
Proof.
  induction s as [|c s IH]; [done|]. cbn [String.length le_val le_bytes].
  pose proof (byte_val_range c). f_equal.
  - unfold byte_of. rewrite (Z.mul_comm 256), Z.mod_add, Z.mod_small by lia.
    unfold byte_val. rewrite N2Z.id. apply ascii_N_embedding.
  - rewrite (Z.mul_comm 256), Z.div_add, Z.div_small by lia. apply IH.
Qed.

Lemma Wire_raw {T} (raw : T -> string) of_raw (ok : T -> Prop) n :
  (forall a, String.length (raw a) = n) -> (forall a, ok a -> of_raw (raw a) = a) ->
  Wire (serialize_raw raw of_raw) ok raw.
Proof.
  intros Hn Hr. split.
  - intros v Hv. eapply emits_eq; [eapply emits_bind; [apply readOrWrite_emits|]|apply str_app_nil_r].
    rewrite Hr by done. apply emits_ret.
  - intros v old Hv. eapply accepts_eq; [eapply accepts_bind|apply str_app_nil_r].
    + apply (readOrWrite_accepts _ (raw v)). by rewrite !Hn.
    + rewrite Hr by done. apply accepts_ret.
  - intros old. unfold serialize_raw. eauto with dmtcp.
Qed.

#[export] Instance Wire_uint n :
  Wire (serialize_uint n) (fun v => 0 <= v < 2 ^ (8 * Z.of_nat n)) (le_bytes n).
Proof. apply (Wire_raw _ _ _ n); [apply le_bytes_length|]. intros v Hv. by rewrite le_val_bytes, Z.mod_small. Qed.

Lemma wrap_s_mod w v : 1 <= w -> - 2 ^ (w - 1) <= v < 2 ^ (w - 1) -> wrap_s w (v mod 2 ^ w) = v.
Proof.
  intros Hw Hv. unfold wrap_s. rewrite Z.add_mod_idemp_l by lia. by apply wrap_s_small.
Qed.

(** The integers of [n] bytes. *)
Definition in_sint (n : nat) (v : Z) : Prop := - 2 ^ (8 * Z.of_nat n - 1) <= v < 2 ^ (8 * Z.of_nat n - 1).

#[export] Instance Wire_int n : Wire (serialize_int (S n)) (in_sint (S n)) (le_bytes (S n)).
Proof.
  apply (Wire_raw _ _ _ (S n)); [apply le_bytes_length|]. intros v Hv.
  rewrite le_val_bytes, wrap_s_mod by (try done; lia). done.
Qed.

(** A field at the front of an object representation. *)
Lemma take_le n v k : str_take n (le_bytes n v +:+ k) = le_bytes n v.
Proof. rewrite <- (le_bytes_length n v) at 1. apply str_take_app. Qed.

Lemma drop_le n v k : str_drop n (le_bytes n v +:+ k) = k.
Proof. rewrite <- (le_bytes_length n v) at 1. apply str_drop_app. Qed.

(** The mark of an ASSERT_POINT. *)
Definition mark (str : string) : string := str +:+ NUL_str.

(** Two encodings with the same parts; the encodings are unfolded by the base [wire]. *)
Create HintDb wire.
#[export] Hint Unfold mark : wire.
Ltac wire_eq :=
  try (autounfold with wire; cbn [foldr]; rewrite ?str_app_assoc, ?str_app_nil_r, ?str_app_nil_l; reflexivity).

(** A sequence of operations: each part is solved by [tac] or the hints. *)
Tactic Notation "wire_chain" tactic3(tac) :=
  lazymatch goal with
  | |- emits _ _ _ =>
      eapply emits_eq;
      [repeat (lazymatch goal with |- emits (mbind _ _) _ _ => idtac end; eapply emits_bind; [first [solve [eauto with dmtcp] | tac] | cbn beta iota]);
       first [solve [eauto with dmtcp] | tac]
      |wire_eq]
  | |- accepts _ _ _ =>
      eapply accepts_eq;
      [repeat (lazymatch goal with |- accepts (mbind _ _) _ _ => idtac end; eapply accepts_bind; [first [solve [eauto with dmtcp] | tac] | cbn beta iota]);
       first [solve [eauto with dmtcp] | tac]
      |wire_eq]
  | |- local _ =>
      repeat (lazymatch goal with |- local (mbind _ _) => idtac end; apply local_bind; [first [solve [eauto with dmtcp] | tac] | intros ?]);
      first [solve [eauto with dmtcp] | tac]
  end.

(** One step of a sequence, where the parts are given one by one. *)
Tactic Notation "wire_step" tactic3(tac) :=
  first [eapply emits_bind | eapply accepts_bind]; [first [solve [eauto with dmtcp] | tac] | cbn beta iota].

Definition u32 (n : nat) : string := le_bytes 4 (Z.of_nat n).
Definition fits32 (n : nat) : Prop := Z.of_nat n < 2 ^ 32.

Lemma u32_emits n : fits32 n -> emits (serialize_uint 4 (Z.of_nat n)) (Z.of_nat n) (u32 n).
Proof. intros H. apply (wire_write (Z.of_nat n)). unfold fits32 in H. change (2 ^ (8 * Z.of_nat 4)) with (2 ^ 32). lia. Qed.

Lemma u32_accepts n old : fits32 n -> accepts (serialize_uint 4 old) (u32 n) (Z.of_nat n).
Proof. intros H. apply (wire_read (Z.of_nat n)). unfold fits32 in H. change (2 ^ (8 * Z.of_nat 4)) with (2 ^ 32). lia. Qed.

Lemma str_resize_same s : str_resize (String.length s) s = s.
Proof. unfold str_resize. rewrite Nat.sub_diag, str_take_all by lia. apply str_app_nil_r. Qed.

Lemma string_of_list_length l : String.length (String.string_of_list_ascii l) = length l.
Proof. induction l as [|c l IH]; cbn; [done|]. by rewrite IH. Qed.

Lemma str_resize_length n s : String.length (str_resize n s) = n.
Proof.
  unfold str_resize. rewrite str_app_length, str_take_length, string_of_list_length, length_replicate. lia.
Qed.

#[export] Instance Wire_string :
  Wire serialize_string (fun t => fits32 (String.length t)) (fun t => u32 (String.length t) +:+ t).
Proof.
  split.
  - intros t Ht. unfold serialize_string. eapply emits_bind; [by apply u32_emits|].
    rewrite Nat2Z.id, str_resize_same. apply readOrWrite_emits.
  - intros t old Ht. unfold serialize_string. eapply accepts_bind; [by apply u32_accepts|].
    rewrite Nat2Z.id. apply readOrWrite_accepts. apply str_resize_length.
  - intros old. unfold serialize_string. wire_chain (apply wire_local).
Qed.

(** *** Vectors *)

Section vector_laws.
Context {T : Type} (dflt : T) (ser : T -> M Stream T) (ok : T -> Prop) (enc : T -> string).
Context `{!Wire ser ok enc}.

Definition enc_element (x : T) : string := mark "[" +:+ enc x +:+ mark "]".
Definition enc_elements (l : list T) : string := foldr (fun x acc => enc_element x +:+ acc) EmptyString l.
Definition enc_vector (l : list T) : string :=
  mark "vector:" +:+ u32 (length l) +:+ enc_elements l +:+ mark "end::vector".
#[local] Hint Unfold enc_vector enc_elements enc_element : wire.

Lemma elements_emits l : Forall ok l -> emits (serialize_elements ser l) l (enc_elements l).
Proof.
  induction 1 as [|x l Hx _ IH]; [apply emits_ret|]. cbn [serialize_elements].
  wire_chain (first [by apply wire_write | apply IH]).
Qed.

Lemma elements_accepts l old : Forall ok l -> length old = length l ->
  accepts (serialize_elements ser old) (enc_elements l) l.
Proof.
  intros H. revert old. induction H as [|x l Hx _ IH]; intros [|y old] Hl; try done; [apply accepts_ret|].
  injection Hl as Hl. cbn [serialize_elements]. wire_chain (first [by eapply (wire_read x) | by apply IH]).
Qed.

Lemma elements_local l : local (serialize_elements ser l).
Proof. induction l as [|x l IH]; cbn [serialize_elements]; [apply local_ret|]. wire_chain (first [apply wire_local|apply IH]). Qed.

Lemma vec_resize_same l : vec_resize dflt (length l) l = l.
Proof. unfold vec_resize. rewrite Nat.sub_diag, take_ge by lia. apply app_nil_r. Qed.

Lemma vec_resize_length n l : length (vec_resize dflt n l) = n.
Proof. unfold vec_resize. rewrite length_app, length_take, length_replicate. lia. Qed.

#[export] Instance Wire_vector :
  Wire (serialize_vector dflt ser) (fun l => Forall ok l /\ fits32 (length l)) enc_vector.
Proof.
  split.
  - intros l [Hok Hl]. unfold serialize_vector.
    wire_chain (first [by apply u32_emits | rewrite Nat2Z.id, vec_resize_same; by apply elements_emits]).
  - intros l old [Hok Hl]. unfold serialize_vector.
    wire_chain (first [by apply u32_accepts |
      rewrite Nat2Z.id; apply elements_accepts; [done|apply vec_resize_length]]).
  - intros old. unfold serialize_vector. wire_chain (first [apply wire_local | apply elements_local]).
Qed.
End vector_laws.

(** *** Maps *)

Section map_laws.
Context {K V : Type} `{Countable K} (serK : K -> M Stream K) (okK : K -> Prop) (encK : K -> string).
Context (serV : V -> M Stream V) (okV : V -> Prop) (encV : V -> string).
Context `{!Wire serK okK encK, !Wire serV okV encV}.
Context (key0 : K) (val0 : V) (iter : gmap K V -> list (K * V)).

Definition enc_pair (kv : K * V) : string :=
  mark "[" +:+ encK (fst kv) +:+ mark "," +:+ encV (snd kv) +:+ mark "]".
Definition enc_entries (l : list (K * V)) : string :=
  u32 (length l) +:+ foldr (fun kv acc => enc_pair kv +:+ acc) EmptyString l.
Definition entry_ok (kv : K * V) : Prop := okK (fst kv) /\ okV (snd kv).
#[local] Hint Unfold enc_pair enc_entries : wire.

Lemma pair_emits k v : entry_ok (k, v) -> emits (serializePair serK serV k v) (k, v) (enc_pair (k, v)).
Proof. intros [Hk Hv]. unfold serializePair. cbn in Hk, Hv. wire_chain (by apply wire_write). Qed.

Lemma pair_accepts kv k0 v0 : entry_ok kv -> accepts (serializePair serK serV k0 v0) (enc_pair kv) kv.
Proof.
  destruct kv as [k v]. intros [Hk Hv]. unfold serializePair. cbn in Hk, Hv.
  wire_chain (first [by eapply (wire_read k)|by eapply (wire_read v)]).
Qed.

Lemma pair_local k v : local (serializePair serK serV k v).
Proof. unfold serializePair. wire_chain (apply wire_local). Qed.

Lemma write_entries_emits l : Forall entry_ok l ->
  emits (write_entries serK serV l) tt (foldr (fun kv acc => enc_pair kv +:+ acc) EmptyString l).
Proof.
  unfold write_entries. induction 1 as [|[k v] l Hx _ IH]; cbn [forM]; [apply emits_ret|].
  wire_chain (first [apply IH | wire_chain (by apply pair_emits)]).
Qed.

Definition insert_all (t : gmap K V) (l : list (K * V)) : gmap K V :=
  foldl (fun t kv => <[fst kv := snd kv]> t) t l.

Lemma read_entries_accepts l k0 v0 t : Forall entry_ok l ->
  accepts (read_entries serK serV (length l) k0 v0 t)
    (foldr (fun kv acc => enc_pair kv +:+ acc) EmptyString l) (insert_all t l).
Proof.
  intros H0. revert k0 v0 t. induction H0 as [|x l Hx _ IH]; intros k0 v0 t; cbn; [apply accepts_ret|].
  wire_chain (first [by apply (pair_accepts x) | apply IH]).
Qed.

Lemma read_entries_local n k0 v0 t : local (read_entries serK serV n k0 v0 t).
Proof.
  revert k0 v0 t. induction n as [|n IH]; intros k0 v0 t; cbn; [apply local_ret|].
  wire_chain (first [apply pair_local | apply IH]).
Qed.

Lemma isReader_emits : emits isReader false EmptyString.
Proof. intros s (Hr & _). rewrite wrote_nil. unfold isReader, gets. by rewrite Hr. Qed.

Lemma isReader_accepts : accepts isReader EmptyString true.
Proof. intros s k Hr _. rewrite advanced_0. unfold isReader, gets. by rewrite Hr. Qed.

(** The order of the walk is any order of the entries. *)
Definition walks (t : gmap K V) : Prop := iter t ≡ₚ map_to_list t.
Definition table_ok (t : gmap K V) : Prop :=
  fits32 (size t) /\ map_Forall (fun k v => entry_ok (k, v)) t /\ walks t.

Lemma walk_length t : walks t -> length (iter t) = size t.
Proof. intros Hw. rewrite (Permutation_length Hw). apply length_map_to_list. Qed.

Lemma walk_ok t : table_ok t -> Forall entry_ok (iter t).
Proof.
  intros (_ & Hok & Hw). unfold walks in Hw. rewrite Hw. apply Forall_forall. intros [k v] Hkv.
  apply elem_of_map_to_list in Hkv. by apply (Hok k v).
Qed.

Lemma insert_all_union l t : NoDup (fst <$> l) -> insert_all t l = list_to_map l ∪ t.
Proof.
  unfold insert_all. revert t. induction l as [|[k v] l IH]; intros t Hnd; cbn.
  - by rewrite (left_id_L ∅ (∪)).
  - apply NoDup_cons in Hnd as [Hk Hnd]. rewrite IH by done.
    rewrite <- insert_union_l. symmetry. apply insert_union_r. by apply not_elem_of_list_to_map_1.
Qed.

Lemma insert_all_walk t old : walks t -> insert_all old (iter t) = t ∪ old.
Proof.
  intros Hw. unfold walks in Hw. assert (Hnd : NoDup (fst <$> iter t)) by (rewrite Hw; apply NoDup_fst_map_to_list).
  rewrite insert_all_union by done. f_equal.
  rewrite (list_to_map_proper (M := gmap K) _ _ Hnd Hw). apply list_to_map_to_list.
Qed.

Lemma entries_emits t : table_ok t ->
  emits (serialize_entries serK serV key0 val0 iter t) t (enc_entries (iter t)).
Proof.
  intros Ht. pose proof Ht as (Hf & _ & Hw). unfold serialize_entries.
  wire_chain (first [by apply u32_emits | apply isReader_emits | apply write_entries_emits; by apply walk_ok]).
  autounfold with wire. rewrite walk_length by done. rewrite ?str_app_nil_l, ?str_app_nil_r. done.
Qed.

Lemma entries_accepts t old : table_ok t ->
  accepts (serialize_entries serK serV key0 val0 iter old) (enc_entries (iter t)) (t ∪ old).
Proof.
  intros Ht. pose proof Ht as (Hf & _ & Hw). unfold serialize_entries, enc_entries.
  rewrite walk_length by done.
  eapply accepts_bind; [by apply u32_accepts|].
  eapply accepts_eq; [eapply accepts_bind; [apply isReader_accepts|]|apply str_app_nil_l]. rewrite Nat2Z.id, <- insert_all_walk by done.
  rewrite <- walk_length by done. apply read_entries_accepts. by apply walk_ok.
Qed.

Lemma entries_local old : local (serialize_entries serK serV key0 val0 iter old).
Proof.
  unfold serialize_entries. apply local_bind; [apply wire_local|]. intros len s a s' Hr H'.
  unfold mbind, M_bind, isReader, gets in *. rewrite Hr in H'. cbn in *.
  destruct (read_entries_local _ _ _ _ _ _ _ Hr H') as (A & B & C & D). split_and!; [done..|].
  intros x. rsimpl. rewrite Hr. apply D.
Qed.

Definition enc_map (t : gmap K V) : string := mark "map:" +:+ enc_entries (iter t) +:+ mark "end::map".
Definition enc_unordered_map (t : gmap K V) : string :=
  mark "unordered_map:" +:+ enc_entries (iter t) +:+ mark "end::unordered_map".
#[local] Hint Unfold enc_map enc_unordered_map : wire.
#[local] Hint Resolve entries_emits entries_accepts entries_local : dmtcp.

(** A map is written whole and read on top of what the reader already has. *)
Lemma map_wire t : table_ok t ->
  emits (serialize_map serK serV key0 val0 iter t) t (enc_map t) /\
  (forall old, accepts (serialize_map serK serV key0 val0 iter old) (enc_map t) (t ∪ old)).
Proof.
  intros Ht. unfold serialize_map. split; [|intros old]; wire_chain fail.
Qed.

Lemma unordered_map_wire t : table_ok t ->
  emits (serialize_unordered_map serK serV key0 val0 iter t) t (enc_unordered_map t) /\
  (forall old, accepts (serialize_unordered_map serK serV key0 val0 iter old) (enc_unordered_map t) (t ∪ old)).
Proof.
  intros Ht. unfold serialize_unordered_map. split; [|intros old]; wire_chain fail.
Qed.

Lemma map_local old : local (serialize_map serK serV key0 val0 iter old).
Proof. unfold serialize_map. wire_chain fail. Qed.

Lemma unordered_map_progress old s a s' : sr_reader s = true ->
  serialize_unordered_map serK serV key0 val0 iter old s = Ok a s' ->
  exists n, (0 < n <= String.length (rest s))%nat /\ s' = advanced n s.
Proof. apply point_progress. intros _. wire_chain fail. Qed.

Lemma unordered_map_local old : local (serialize_unordered_map serK serV key0 val0 iter old).
Proof. unfold serialize_unordered_map. wire_chain fail. Qed.
End map_laws.

(** A file that ends inside an encoding is refused. *)
Lemma truncated_read_fails {A} (m : M Stream A) e a p q s :
  local m -> accepts m e a -> e = p +:+ q -> q <> EmptyString ->
  sr_reader s = true -> (sr_pos s <= String.length (sr_data s))%nat -> rest s = p ->
  forall b s', m s <> Ok b s'.
Proof.
  intros Hl Ha He Hq Hr Hpos Hp b s' Hm. destruct (Hl _ _ _ Hr Hm) as (_ & _ & (n & -> & Hn) & Hx).
  specialize (Hx q). rewrite (Ha _ EmptyString) in Hx; [|done|].
  - injection Hx as _ Hx _. unfold advanced in *. cbn in Hx.
    assert (H : String.length e = n) by lia. rewrite He, str_app_length in H. rewrite Hp in Hn.
    destruct q; [done|]. cbn in H. lia.
  - unfold rest in *. rsimpl. rewrite str_app_nil_r, He, <- Hp. by apply str_drop_app_le.
Qed.
