(* ===== verification/PidFiles.v ===== *)
(** * The virtual-identifier tables on files

    How the tables of [VirtualIds] travel: through the file an exec hands over
    ([VirtualIdTable::serialize], [pidVirt_PrepareForExec], [pidVirt_PostExec]) and
    through the map file the processes of a host share at restart
    ([writeMapsToFile], [readMapsFromFile], [pidVirt_PostRestart]); and the
    identity of the process through the same file ([UniquePid::serialize]). *)

From Stdlib Require Import ZArith Lia Ascii.
From stdpp Require Import base gmap strings numbers list.
From S2P Require Import Prelude CText Identity SharedArea VirtualIds Serialize.
Open Scope Z_scope.

(** The serializers a descriptor is wrapped in. *)
Definition as_writer : M Stream unit := modify (fun s => s <| sr_reader := false |> <| sr_bytes := 0%nat |>).
Definition as_reader : M Stream unit := modify (fun s => s <| sr_reader := true |> <| sr_bytes := 0%nat |>).
Definition seek_end : M Stream unit := modify (fun s => s <| sr_pos := String.length (sr_data s) |>).

Section tables.
Context (iter : gmap Z Z -> list (Z * Z)) (key0 val0 : Z).

(** [o & _idMapTable] at [IdType = pid_t]. *)
Definition serialize_idMap : gmap Z Z -> M Stream (gmap Z Z) :=
  serialize_unordered_map (serialize_int 4) (serialize_int 4) key0 val0 iter.

Definition vt_serialize (t : VirtualIdTable) : M Stream VirtualIdTable :=
  ASSERT_POINT "VirtualIdTable:";;
  m ← serialize_idMap (idMapTable t);
  ASSERT_POINT "EOF";;
  mret (t <| idMapTable := m |>).

(** [mapFile] is what the link /proc/self/fd/<fd> resolves to. *)
Definition writeMapsToFile (mapFile : string) (t : VirtualIdTable) : M Stream unit :=
  assertM (Nat.ltb 0 (String.length mapFile)) "failed to resolve virtual-id map fd path";;
  seek_end;;
  as_writer;;
  serialize_idMap (idMapTable t);;
  mret tt.

(** The loop over the tables in the file.  Every round reads at least one byte or
    fails, so one round per byte is enough. *)
Fixpoint readMaps_loop (fuel : nat) (m : gmap Z Z) : M Stream (gmap Z Z) :=
  eof ← isEOF;
  if eof : bool then mret m
  else match fuel with
       | O => faultM (Blocked "readMapsFromFile")
       | S fuel' => m ← serialize_idMap m; readMaps_loop fuel' m
       end.

Definition readMapsFromFile (mapFile : string) (t : VirtualIdTable) : M Stream VirtualIdTable :=
  assertM (Nat.ltb 0 (String.length mapFile)) "failed to resolve virtual-id map fd path";;
  as_reader;;
  rewind;;
  n ← gets (fun s => String.length (sr_data s));
  m ← readMaps_loop n (idMapTable t);
  mret (t <| idMapTable := m |>).

(** The processes of a host write their tables to one file, one after the other
    under the file lock; each has its own descriptor, at offset [pos]. *)
Fixpoint writeAllMaps (mapFile : string) (room : nat) (ts : list (VirtualIdTable * nat)) (data : string)
    : option string :=
  match ts with
  | [] => Some data
  | (t, pos) :: ts' =>
      match writeMapsToFile mapFile t (mk_Stream false data pos room 0) with
      | Ok _ s => writeAllMaps mapFile room ts' (sr_data s)
      | _ => None
      end
  end.
End tables.

(** ** The identity of the process *)

(** [UniquePid] is four fields without a gap between them: [uint64_t _hostid],
    [uint64_t _time], [pid_t _pid], [uint32_t _computation_generation]. *)

Definition up_raw (u : UniquePid) : string :=
  le_bytes 8 (up_hostid u) +:+ le_bytes 8 (up_time u) +:+ le_bytes 4 (up_pid u) +:+ le_bytes 4 (up_generation u).
Definition up_of_raw (b : string) : UniquePid :=
  mk_UniquePid (le_val (str_take 8 b)) (wrap_s 32 (le_val (str_take 4 (str_drop 16 b))))
               (le_val (str_take 8 (str_drop 8 b))) (le_val (str_drop 20 b)).
Definition serialize_upid : UniquePid -> M Stream UniquePid := serialize_raw up_raw up_of_raw.

(** [UniquePid::serialize]: [g1] and [g2] are what the uninitialised generations of
    the two local objects hold; [ThisProcess] may compute the identity. *)
Definition UniquePid_serialize (g1 g2 : Z) (e : ProcEnv) (p : ProcIds) : M Stream ProcIds :=
  w ← isWriter;
  let '(cur, par, p) :=
    if w : bool then let (this, p) := ThisProcess e p in (this, parentProcess p, p)
    else (UniquePid_default g1, UniquePid_default g2, p) in
  cur ← serialize_upid cur;
  par ← serialize_upid par;
  r ← isReader;
  mret (if r : bool then p <| theProcess := cur |> <| parentProcess := par |> else p).

(** ** Exec and restart in the plugin *)

Section hooks.
Context {D : Type} `{PidDirectory D} (iter : gmap Z Z -> list (Z * Z)) (key0 val0 : Z) (os : PidOS).
Abbreviation X := (M (Pids D * Stream)).

Definition on_pids {A} (m : M (Pids D) A) : X A := zoom fst (fun p s => (p, snd s)) m.
Definition on_file {A} (m : M Stream A) : X A := zoom snd (fun f s => (fst s, f)) m.

(** The statics of virtualpidtable.cpp in a process that has just started. *)
Definition Pids_new (env : Env) (d : D) : Pids D :=
  mk_Pids None (-1) (-1) (-1) (-1) (-1) 1 false [] env d.

Definition table_through (op : VirtualIdTable -> M Stream VirtualIdTable) : X unit :=
  t ← on_pids instance;
  t' ← on_file (op t);
  on_pids (upd (fun _ => t')).

(** [pidVirt_PrepareForExec] and [pidVirt_PostExec] with the file of the exec. *)
Definition PrepareForExec : X unit :=
  on_pids (pidVirt_PrepareForExec os);;
  on_file as_writer;;
  table_through (vt_serialize iter key0 val0).

Definition PostExec : X unit :=
  on_file as_reader;;
  table_through (vt_serialize iter key0 val0);;
  on_pids (refresh iter os).

(** [pidVirt_PostRestart] before and after the local barrier, on the shared map file. *)
Definition PostRestart_write (mapFile : string) : X unit :=
  table_through (fun t => writeMapsToFile iter key0 val0 mapFile t;; mret t).
Definition PostRestart_read (mapFile : string) : X unit :=
  table_through (readMapsFromFile iter key0 val0 mapFile).

(** [pidVirt_ThreadExit], [pidVirt_ThreadResume]. *)
Definition pidVirt_ThreadExit : M (Pids D) unit :=
  tid ← gettid os;
  modify (fun s => s <| vp_exitedChildTids ::= fun l => l ++ [tid] |>).
Definition pidVirt_ThreadResume : M (Pids D) unit :=
  virtualTid ← gettid os;
  updateMapping virtualTid (os_gettid os).
End hooks.

(** ** Facts *)

Section table_facts.
Context (iter : gmap Z Z -> list (Z * Z)) (key0 val0 : Z).

Definition enc_idMap : gmap Z Z -> string := enc_unordered_map (le_bytes 4) (le_bytes 4) iter.
Definition idMap_ok : gmap Z Z -> Prop := table_ok (in_sint 4) (in_sint 4) iter.

Lemma idMap_emits m : idMap_ok m -> emits (serialize_idMap iter key0 val0 m) m (enc_idMap m).
Proof. intros Hm. apply (unordered_map_wire (serialize_int 4) (in_sint 4) (le_bytes 4)
  (serialize_int 4) (in_sint 4) (le_bytes 4) key0 val0 iter m Hm). Qed.

Lemma idMap_accepts m old : idMap_ok m -> accepts (serialize_idMap iter key0 val0 old) (enc_idMap m) (m ∪ old).
Proof. intros Hm. apply (unordered_map_wire (serialize_int 4) (in_sint 4) (le_bytes 4)
  (serialize_int 4) (in_sint 4) (le_bytes 4) key0 val0 iter m Hm). Qed.

Lemma idMap_local old : local (serialize_idMap iter key0 val0 old).
Proof. eapply unordered_map_local; apply Wire_int. Qed.
#[local] Hint Resolve idMap_emits idMap_accepts idMap_local : dmtcp.

(** Every table takes at least one byte. *)
Lemma idMap_progress m s a s' : sr_reader s = true -> serialize_idMap iter key0 val0 m s = Ok a s' ->
  exists n, (0 < n <= String.length (rest s))%nat /\ s' = advanced n s.
Proof. eapply unordered_map_progress; apply Wire_int. Qed.

Lemma isEOF_rest s : (sr_pos s <= String.length (sr_data s))%nat ->
  isEOF s = Ok (Nat.eqb (String.length (rest s)) 0) s.
Proof.
  intros H. unfold isEOF, gets, rest. rewrite str_drop_length. f_equal.
  destruct (Nat.eqb_spec (sr_pos s) (String.length (sr_data s))), (Nat.eqb_spec (String.length (sr_data s) - sr_pos s) 0); lia.
Qed.

Lemma advanced_pos n s : (n <= String.length (rest s))%nat -> (sr_pos s <= String.length (sr_data s))%nat ->
  (sr_pos (advanced n s) <= String.length (sr_data (advanced n s)))%nat.
Proof. unfold rest, advanced. rsimpl. rewrite str_drop_length. lia. Qed.

(** One round per byte is enough: more fuel changes nothing. *)
Lemma readMaps_loop_fuel fuel : forall fuel' m s, sr_reader s = true ->
  (sr_pos s <= String.length (sr_data s))%nat -> (String.length (rest s) <= fuel)%nat ->
  (fuel <= fuel')%nat -> readMaps_loop iter key0 val0 fuel' m s = readMaps_loop iter key0 val0 fuel m s.
Proof.
  induction fuel as [|fuel IH]; intros fuel' m s Hr Hp Hl Hle.
  - destruct fuel'; cbn [readMaps_loop]; [done|]. rewrite !(bind_ok _ _ _ _ _ (isEOF_rest s Hp)).
    destruct (String.length (rest s)); [done|lia].
  - destruct fuel' as [|fuel']; [lia|]. cbn [readMaps_loop]. rewrite !(bind_ok _ _ _ _ _ (isEOF_rest s Hp)).
    destruct (Nat.eqb_spec (String.length (rest s)) 0) as [|Hne]; [done|].
    unfold mbind, M_bind. destruct (serialize_idMap iter key0 val0 m s) as [a s'|c s'|f s'] eqn:E; [|done..].
    destruct (idMap_progress m s a s' Hr E) as (n & Hn & ->). apply IH; [done| | |lia].
    + apply advanced_pos; [lia|done].
    + rewrite rest_advanced, str_drop_length. lia.
Qed.

(** The contents of a map file. *)
Definition enc_tables (ms : list (gmap Z Z)) : string := foldr (fun m acc => enc_idMap m +:+ acc) EmptyString ms.
Definition merge (old : gmap Z Z) (ms : list (gmap Z Z)) : gmap Z Z := foldl (fun t m => m ∪ t) old ms.

Lemma enc_idMap_nonempty m : (0 < String.length (enc_idMap m))%nat.
Proof. unfold enc_idMap, enc_unordered_map, mark. rewrite !str_app_length. cbn. lia. Qed.

(** Reading the tables in front of [k]; what is left is up to the rest of the loop. *)
Lemma readMaps_loop_tables ms k : Forall idMap_ok ms -> forall fuel old s, sr_reader s = true ->
  (sr_pos s <= String.length (sr_data s))%nat -> rest s = enc_tables ms +:+ k ->
  (String.length (rest s) <= fuel)%nat ->
  exists fuel', (String.length k <= fuel')%nat /\
  readMaps_loop iter key0 val0 fuel old s =
  readMaps_loop iter key0 val0 fuel' (merge old ms) (advanced (String.length (enc_tables ms)) s).
Proof.
  induction 1 as [|m ms Hm Hms IH]; intros fuel old s Hr Hp Hk Hf.
  { exists fuel. rewrite Hk in Hf. change (enc_tables []) with EmptyString in *. rewrite str_app_nil_l in Hf. cbn [merge foldl String.length]. rewrite advanced_0. done. }
  cbn [enc_tables foldr] in Hk. rewrite str_app_assoc in Hk. pose proof (enc_idMap_nonempty m) as Hne.
  assert (Hlen : String.length (rest s) = (String.length (enc_idMap m) + String.length (enc_tables ms +:+ k))%nat)
    by (rewrite Hk; apply str_app_length).
  destruct fuel as [|fuel]; [lia|]. cbn [readMaps_loop]. rewrite (bind_ok _ _ _ _ _ (isEOF_rest s Hp)).
  destruct (Nat.eqb_spec (String.length (rest s)) 0) as [|_]; [lia|].
  rewrite (bind_ok _ _ _ _ _ (idMap_accepts m old Hm s _ Hr Hk)).
  assert (Hk' : rest (advanced (String.length (enc_idMap m)) s) = enc_tables ms +:+ k)
    by (by rewrite rest_advanced, Hk, str_drop_app).
  destruct (IH fuel (m ∪ old) (advanced (String.length (enc_idMap m)) s)) as (fuel' & Hf' & E); [done| |done|rewrite Hk'; lia|].
  { apply advanced_pos; [lia|done]. }
  exists fuel'. split; [done|]. rewrite E, advanced_advanced. cbn [enc_tables foldr merge foldl].
  by rewrite str_app_length.
Qed.

Lemma writeMaps_ok mapFile t data pos room : mapFile <> EmptyString -> idMap_ok (idMapTable t) ->
  (String.length data + String.length (enc_idMap (idMapTable t)) <= room)%nat ->
  exists s, writeMapsToFile iter key0 val0 mapFile t (mk_Stream false data pos room 0) = Ok tt s /\
            sr_data s = data +:+ enc_idMap (idMapTable t).
Proof.
  intros Hf Hm Hroom. unfold writeMapsToFile.
  destruct (Nat.ltb_spec 0 (String.length mapFile)) as [_|H]; [|destruct mapFile; [done|cbn in H; lia]].
  erewrite (bind_ok (assertM _ _)) by reflexivity. erewrite (bind_ok seek_end) by reflexivity.
  erewrite (bind_ok as_writer) by reflexivity.
  erewrite bind_ok by (apply (idMap_emits _ Hm); split_and!; rsimpl; rsimpl; cbn [sr_pos sr_data sr_room]; first [done|lia]).
  eexists. split; [done|]. done.
Qed.

Lemma writeAllMaps_ok mapFile room ts data : mapFile <> EmptyString ->
  (forall x, x ∈ ts -> idMap_ok (idMapTable (fst x))) ->
  (String.length data + String.length (enc_tables ((fun x => idMapTable (fst x)) <$> ts)) <= room)%nat ->
  writeAllMaps iter key0 val0 mapFile room ts data =
  Some (data +:+ enc_tables ((fun x => idMapTable (fst x)) <$> ts)).
Proof.
  intros Hf. revert data. induction ts as [|[t pos] ts IH]; intros data Hok Hroom; [by rewrite str_app_nil_r|].
  change (enc_tables ((fun x : VirtualIdTable * nat => idMapTable (fst x)) <$> (t, pos) :: ts)) with
    (enc_idMap (idMapTable t) +:+ enc_tables ((fun x : VirtualIdTable * nat => idMapTable (fst x)) <$> ts)) in *.
  rewrite str_app_length in Hroom.
  destruct (writeMaps_ok mapFile t data pos room Hf) as (s & E & Es).
  - apply (Hok (t, pos)). left.
  - lia.
  - cbn [writeAllMaps]. rewrite E, Es, IH, str_app_assoc; [done| |].
    + intros x Hx. apply Hok. by right.
    + rewrite str_app_length. lia.
Qed.

(** A reading process stands at the start of the file. *)
Lemma readMapsFromFile_unfold mapFile t s : mapFile <> EmptyString ->
  let s0 := s <| sr_reader := true |> <| sr_bytes := 0%nat |> <| sr_pos := 0%nat |> in
  readMapsFromFile iter key0 val0 mapFile t s =
  (m ← readMaps_loop iter key0 val0 (String.length (sr_data s)) (idMapTable t);
   mret (t <| idMapTable := m |>)) s0.
Proof.
  intros Hf s0. unfold readMapsFromFile.
  destruct (Nat.ltb_spec 0 (String.length mapFile)) as [_|H]; [|destruct mapFile; [done|cbn in H; lia]]. done.
Qed.

Lemma readMaps_ok mapFile own s ms : mapFile <> EmptyString -> Forall idMap_ok ms ->
  sr_data s = enc_tables ms ->
  exists s', readMapsFromFile iter key0 val0 mapFile own s =
             Ok (own <| idMapTable := merge (idMapTable own) ms |>) s'.
Proof.
  intros Hf Hms Hd. rewrite readMapsFromFile_unfold by done.
  match goal with |- context [(_ ≫= _) ?x] => set (s0 := x) end.
  assert (Hrest : rest s0 = enc_tables ms +:+ EmptyString) by (rewrite str_app_nil_r; exact Hd).
  destruct (readMaps_loop_tables ms EmptyString Hms (String.length (sr_data s)) (idMapTable own) s0)
    as (fuel' & _ & E); [done|apply Nat.le_0_l|done|rewrite Hrest, str_app_nil_r, Hd; done|].
  eexists. erewrite bind_ok; [reflexivity|]. rewrite E.
  assert (Hpos : sr_pos (advanced (String.length (enc_tables ms)) s0) = String.length (sr_data s))
    by (rewrite Hd; done).
  destruct fuel'; cbn [readMaps_loop]; unfold isEOF, gets, mbind, M_bind;
    rewrite Hpos; change (sr_data (advanced _ s0)) with (sr_data s); rewrite Nat.eqb_refl; done.
Qed.

Lemma readMaps_cut mapFile own s ms m p q : mapFile <> EmptyString -> Forall idMap_ok ms -> idMap_ok m ->
  enc_idMap m = p +:+ q -> p <> EmptyString -> q <> EmptyString -> sr_data s = enc_tables ms +:+ p ->
  forall r s', readMapsFromFile iter key0 val0 mapFile own s <> Ok r s'.
Proof.
  intros Hf Hms Hm Hpq Hp Hq Hd r s'. rewrite readMapsFromFile_unfold by done.
  match goal with |- context [(_ ≫= _) ?x] => set (s0 := x) end. intros H.
  apply bind_ok_inv in H as (m' & s1 & H & _).
  assert (Hrest : rest s0 = enc_tables ms +:+ p) by done.
  destruct (readMaps_loop_tables ms p Hms (String.length (sr_data s)) (idMapTable own) s0)
    as (fuel' & Hfuel & E); [done|apply Nat.le_0_l|done|rewrite Hrest, Hd; done|].
  rewrite E in H. set (s2 := advanced _ s0) in *.
  assert (Hr2 : rest s2 = p) by (unfold s2; by rewrite rest_advanced, Hrest, str_drop_app).
  assert (Hp2 : (sr_pos s2 <= String.length (sr_data s2))%nat)
    by (apply advanced_pos; [rewrite Hrest, str_app_length; lia|apply Nat.le_0_l]).
  destruct fuel' as [|fuel']; [destruct p; [done|cbn in Hfuel; lia]|].
  cbn [readMaps_loop] in H. rewrite (bind_ok _ _ _ _ _ (isEOF_rest s2 Hp2)), Hr2 in H.
  destruct p as [|c p]; [done|]. cbn [String.length Nat.eqb] in H.
  apply bind_ok_inv in H as (a & s3 & H & _).
  by eapply (truncated_read_fails _ _ _ _ _ s2 (idMap_local _) (idMap_accepts m _ Hm) Hpq Hq).
Qed.

(** An identifier on which the tables agree keeps its value. *)
Lemma merge_agree ms old v r : (exists m, m ∈ ms /\ m !! v = Some r) ->
  (forall m r', m ∈ ms -> m !! v = Some r' -> r' = r) -> merge old ms !! v = Some r.
Proof.
  intros Hex Hag.
  assert (G : forall old, (old !! v = Some r \/ exists m, m ∈ ms /\ m !! v = Some r) ->
              (forall m r', m ∈ ms -> m !! v = Some r' -> r' = r) -> merge old ms !! v = Some r); [|by apply G; [right|]].
  clear. induction ms as [|m ms IH]; intros old Hex Hag.
  { destruct Hex as [?|(m & Hm & _)]; [done|]. by apply elem_of_nil in Hm. }
  cbn. apply IH; [|intros m' r' Hm' Hr'; apply (Hag m'); [by right|done]].
  rewrite lookup_union. destruct (m !! v) as [r'|] eqn:Em.
  - left. rewrite (Hag m r'); [by rewrite union_Some_l|apply list_elem_of_here|done].
  - rewrite (left_id_L None (∪)). destruct Hex as [?|(m' & [->|Hm']%elem_of_cons & Hr')]; [by left|congruence|].
    right. eauto.
Qed.
End table_facts.

Lemma vt_serialize_wire iter key0 val0 t old : idMap_ok iter (idMapTable t) ->
  let e := mark "VirtualIdTable:" +:+ enc_idMap iter (idMapTable t) +:+ mark "EOF" in
  emits (vt_serialize iter key0 val0 t) t e /\
  accepts (vt_serialize iter key0 val0 old) e (old <| idMapTable := idMapTable t ∪ idMapTable old |>).
Proof.
  intros Hok e. unfold vt_serialize. split.
  - assert (Et : t <| idMapTable := idMapTable t |> = t) by (by destruct t).
    enough (G : emits (vt_serialize iter key0 val0 t) (t <| idMapTable := idMapTable t |>) e) by (by rewrite Et in G).
    unfold vt_serialize. wire_chain (by apply idMap_emits).
  - wire_chain (by apply idMap_accepts).
Qed.

(** *** The object representation of an identity *)

Definition up_ok (u : UniquePid) : Prop :=
  0 <= up_hostid u < 2 ^ 64 /\ in_sint 4 (up_pid u) /\ 0 <= up_time u < 2 ^ 64 /\ 0 <= up_generation u < 2 ^ 32.

#[export] Instance Wire_upid : Wire serialize_upid up_ok up_raw.
Proof.
  apply (Wire_raw _ _ _ 24).
  - intros u. unfold up_raw. by rewrite !str_app_length, !le_bytes_length.
  - intros [h p t g] (Hh & Hp & Ht & Hg). unfold up_of_raw, up_raw. cbn [up_hostid up_pid up_time up_generation] in *.
    assert (E16 : forall b, str_drop 16 b = str_drop 8 (str_drop 8 b)) by (intros b; by rewrite str_drop_drop).
    assert (E20 : forall b, str_drop 20 b = str_drop 4 (str_drop 8 (str_drop 8 b))) by (intros b; by rewrite !str_drop_drop).
    rewrite E16, E20, !drop_le, !take_le.
    rewrite !le_val_bytes. change (8 * Z.of_nat 8) with 64. change (8 * Z.of_nat 4) with 32.
    rewrite (wrap_s_mod 32), !Z.mod_small by (try apply Hp; lia). done.
Qed.

(** *** Lifting *)

Section hook_facts.
Context {D : Type} `{PidDirectory D}.

Lemma on_pids_ok {A} (m : M (Pids D) A) p f a p' :
  m p = Ok a p' -> on_pids m (p, f) = Ok a (p', f).
Proof. intros E. unfold on_pids. by rewrite (zoom_ok fst _ m (p, f) _ _ E). Qed.

Lemma on_file_ok {A} (m : M Stream A) (p : Pids D) f a f' :
  m f = Ok a f' -> on_file m (p, f) = Ok a (p, f').
Proof. intros E. unfold on_file. by rewrite (zoom_ok snd _ m (p, f) _ _ E). Qed.

Lemma table_through_ok op (p : Pids D) p1 f t t' f' : instance p = Ok t p1 -> vp_inst p1 = Some t ->
  op t f = Ok t' f' -> table_through op (p, f) = Ok tt (p1 <| vp_inst := Some t' |>, f').
Proof.
  intros Hi Hp1 Ho. unfold table_through. rewrite (bind_ok _ _ _ _ _ (on_pids_ok _ _ f _ _ Hi)).
  rewrite (bind_ok _ _ _ _ _ (on_file_ok _ p1 _ _ _ Ho)). apply on_pids_ok. by apply (upd_some _ t).
Qed.

(** [instance] in a fresh process reads the four identifiers. *)
Lemma instance_new env (d : D) vPid rPid vPpid rPpid :
  getVirtualPidFromEnvVar env = Some (vPid, rPid, vPpid, rPpid) ->
  exists p, instance (Pids_new env d) = Ok (VirtualIdTable_new vPid MAX_VIRTUAL_ID) p /\
    vp_inst p = Some (VirtualIdTable_new vPid MAX_VIRTUAL_ID) /\
    vp_pid p = vPid /\ vp_realPid p = rPid /\ vp_ppid p = vPpid /\ vp_realPpid p = rPpid.
Proof.
  intros E. eexists. split.
  - unfold instance. erewrite (bind_ok (gets _)) by reflexivity. cbn [Pids_new vp_inst].
    erewrite (bind_ok readEnv).
    2:{ unfold readEnv. erewrite (bind_ok (gets _)) by reflexivity. change (vp_env (Pids_new env d)) with env. rewrite E. reflexivity. }
    reflexivity.
  - split_and!; reflexivity.
Qed.
End hook_facts.

(** What [pidVirt_PrepareForExec] does in a process that knows its identifiers and whose
    parent is the one it has recorded. *)
Lemma PrepareForExec_env {D} `{PidDirectory D} os (s : Pids D) t rp rq :
  vp_inst s = Some t -> 0 < vp_pid s -> 0 < vp_ppid s ->
  idMapTable t !! vp_pid s = Some rp -> idMapTable t !! vp_ppid s = Some rq -> os_getppid os = rq ->
  pidVirt_PrepareForExec os s =
  Ok tt (s <| vp_env ::= setVirtualPidEnvVar (vp_pid s) rp (vp_ppid s) rq |>).
Proof.
  intros Hi Hp Hq Ep Eq Hos.
  assert (V : forall v r, 0 < v -> idMapTable t !! v = Some r -> virtualToReal v s = Ok r s).
  { intros v r Hv Ev. unfold virtualToReal.
    destruct (Z.eqb_spec v (-1)); [lia|]. destruct (Z.eqb_spec v 0); [lia|]. cbn [orb].
    destruct (Z.ltb_spec v (-1)); [lia|]. erewrite (bind_ok (mret v)) by reflexivity.
    rewrite (bind_ok _ _ _ _ _ (instance_some s t Hi)). unfold vt_virtualToReal. by rewrite Ev. }
  unfold pidVirt_PrepareForExec.
  rewrite (bind_ok _ _ _ _ _ (getpid_known os s ltac:(lia))).
  rewrite (bind_ok _ _ _ _ _ (V _ _ Hp Ep)).
  assert (G : getppid os s = Ok (vp_ppid s) s).
  { unfold getppid. erewrite (bind_ok (gets _)) by reflexivity.
    destruct (Z.eqb_spec (vp_ppid s) (-1)); [lia|]. erewrite (bind_ok (whenM _ _)) by reflexivity.
    erewrite (bind_ok (gets _)) by reflexivity. rewrite (bind_ok _ _ _ _ _ (V _ _ Hq Eq)).
    rewrite Hos, Z.eqb_refl. done. }
  rewrite (bind_ok _ _ _ _ _ G), (bind_ok _ _ _ _ _ (V _ _ Hq Eq)). done.
Qed.

(** Identifiers survive exec.  The old program image writes the four identifiers to
    the environment and its table to the file of the exec, behind what is there already;
    the new image, which starts with nothing, reads them: it has the same virtual and
    real identifiers of itself and its parent, and exactly the entries of the table that
    do not name a thread which is gone. *)
Theorem exec_keeps_identifiers {D} `{PidDirectory D} iter key0 val0 os (s : Pids D) t rp rq f k :
  let e := mark "VirtualIdTable:" +:+ enc_idMap iter (idMapTable t) +:+ mark "EOF" in
  (forall m, iter m ≡ₚ map_to_list m) -> idMap_ok iter (idMapTable t) ->
  vp_inst s = Some t -> 0 < vp_pid s -> 0 < vp_ppid s ->
  idMapTable t !! vp_pid s = Some rp -> idMapTable t !! vp_ppid s = Some rq -> os_getppid os = rq ->
  sr_pos f = String.length (sr_data f) -> (sr_pos f + String.length e <= sr_room f)%nat ->
  exists s' f', PrepareForExec iter key0 val0 os (s, f) = Ok tt (s', f') /\
  exists n f'', PostExec iter key0 val0 os
      (Pids_new (vp_env s') (vp_dir s'), mk_Stream true (sr_data f' +:+ k) (sr_pos f) 0 0) = Ok tt (n, f'') /\
    (vp_pid n, vp_realPid n, vp_ppid n, vp_realPpid n) = (vp_pid s, rp, vp_ppid s, rq) /\
    rest f'' = k /\
    exists t', vp_inst n = Some t' /\ base t' = vp_pid s /\
      forall v r, idMapTable t' !! v = Some r <->
                  idMapTable t !! v = Some r /\ dead os (VirtualIdTable_new (vp_pid s) MAX_VIRTUAL_ID) (v, r) = false.
Proof.
  intros e Hiter Hok Hi Hp Hq Ep Eq Hos Hpos Hroom.
  pose proof Hok as (_ & Hr & _). destruct (Hr _ _ Ep) as [Rp Rrp]. destruct (Hr _ _ Eq) as [Rq Rrq].
  assert (I32 : forall v, in_sint 4 v -> in_int32 v = true).
  { intros v [Hv1 Hv2]. change (8 * Z.of_nat 4 - 1) with 31 in *. unfold in_int32.
    apply andb_true_intro. split; apply Z.leb_le; lia. }
  set (s1 := s <| vp_env ::= setVirtualPidEnvVar (vp_pid s) rp (vp_ppid s) rq |>).
  destruct (vt_serialize_wire iter key0 val0 t (VirtualIdTable_new (vp_pid s) MAX_VIRTUAL_ID) Hok) as [Hem Hac].
  set (f0 := f <| sr_reader := false |> <| sr_bytes := 0%nat |>).
  eexists _, (wrote e f0). split.
  { unfold PrepareForExec.
    rewrite (bind_ok _ _ _ _ _ (on_pids_ok _ _ f _ _ (PrepareForExec_env os s t rp rq Hi Hp Hq Ep Eq Hos))).
    erewrite (bind_ok (on_file as_writer)) by reflexivity.
    apply (table_through_ok _ s1 s1 f0 t t (wrote e f0)); [by apply instance_some|done|]. apply Hem. done. }
  set (fr := mk_Stream true (sr_data (wrote e f0) +:+ k) (sr_pos f) 0 0).
  set (tn := VirtualIdTable_new (vp_pid s) MAX_VIRTUAL_ID) in *.
  destruct (instance_new (vp_env s1) (vp_dir s) (vp_pid s) rp (vp_ppid s) rq) as (p & Hinst & Hpi & Hv1 & Hv2 & Hv3 & Hv4).
  { apply pid_env_read_back; by apply I32. }
  assert (Hrest : rest fr = e +:+ k).
  { change (rest fr) with (str_drop (sr_pos f) ((sr_data f +:+ e) +:+ k)).
    rewrite str_app_assoc, Hpos. apply str_drop_app. }
  set (t1 := tn <| idMapTable := idMapTable t ∪ idMapTable tn |>).
  eexists _, (advanced (String.length e) fr). split_and!.
  { unfold PostExec. erewrite (bind_ok (on_file as_reader)) by reflexivity.
    erewrite (bind_ok (table_through _)).
    2:{ apply (table_through_ok _ _ p fr tn t1 (advanced (String.length e) fr) Hinst Hpi). by apply (Hac fr k). }
    apply on_pids_ok. apply (refresh_some iter os Hiter _ t1); [done|]. rsimpl. lia. }
  - rsimpl. by rewrite Hv1, Hv2, Hv3, Hv4.
  - by rewrite rest_advanced, Hrest, str_drop_app.
  - eexists. split_and!; [reflexivity|reflexivity|]. intros v r. unfold purge. rsimpl.
    rewrite map_lookup_filter_Some. unfold t1. rsimpl. change (idMapTable tn) with (∅ : gmap Z Z).
    by rewrite (right_id_L ∅ (∪)).
Qed.

(** At a restart the processes of a host write their tables to one file and then each
    reads the file.  The writes succeed, in any order and from any offset; a reader
    ends with all tables merged over its own, so that an identifier known to some
    process, on which the tables agree, is known to all; the loop over the file ends
    after at most one round per byte; and a file that was cut off inside a table is
    refused. *)
Theorem restart_maps_merged iter key0 val0 mapFile room ts :
  let ms := (fun x => idMapTable (fst x)) <$> ts in
  mapFile <> EmptyString -> Forall (idMap_ok iter) ms -> (String.length (enc_tables iter ms) <= room)%nat ->
  writeAllMaps iter key0 val0 mapFile room ts EmptyString = Some (enc_tables iter ms) /\
  (forall own s, sr_data s = enc_tables iter ms -> exists s',
     readMapsFromFile iter key0 val0 mapFile own s = Ok (own <| idMapTable := merge (idMapTable own) ms |>) s') /\
  (forall own v r, (exists m, m ∈ ms /\ m !! v = Some r) ->
     (forall m r', m ∈ ms -> m !! v = Some r' -> r' = r) -> merge own ms !! v = Some r) /\
  (forall fuel m s, sr_reader s = true -> (sr_pos s <= String.length (sr_data s))%nat ->
     (String.length (rest s) <= fuel)%nat ->
     readMaps_loop iter key0 val0 fuel m s = readMaps_loop iter key0 val0 (String.length (rest s)) m s) /\
  (forall ms1 m ms2 p q own s r s', ms = ms1 ++ m :: ms2 -> enc_idMap iter m = p +:+ q ->
     p <> EmptyString -> q <> EmptyString -> sr_data s = enc_tables iter ms1 +:+ p ->
     readMapsFromFile iter key0 val0 mapFile own s <> Ok r s').
Proof.
  intros ms Hf Hok Hroom. split_and!.
  - apply (writeAllMaps_ok iter key0 val0 mapFile room ts EmptyString); [done| |done].
    intros x Hx. rewrite Forall_forall in Hok. apply Hok. apply list_elem_of_fmap. by exists x.
  - intros own s Hs. by apply readMaps_ok.
  - intros own v r. apply merge_agree.
  - intros fuel m s Hr Hp Hl. by apply readMaps_loop_fuel.
  - intros ms1 m ms2 p q own s r s' Hms Hpq Hp Hq Hs. rewrite Hms in Hok.
    apply Forall_app in Hok as [Hok1 [Hok2 _]%Forall_cons]. by eapply readMaps_cut.
Qed.

Lemma idMap_ok_small iter (m : gmap Z Z) : iter m ≡ₚ map_to_list m -> Z.of_nat (size m) < 2 ^ 32 ->
  Forall (fun kv => in_sint 4 (fst kv) /\ in_sint 4 (snd kv)) (map_to_list m) -> idMap_ok iter m.
Proof.
  intros Hw Hs Hf. split_and!; [done| |done]. intros k v Hkv. rewrite Forall_forall in Hf.
  apply (Hf (k, v)). by apply elem_of_map_to_list.
Qed.

Definition walk : gmap Z Z -> list (Z * Z) := map_to_list.

Definition example_tables : list (VirtualIdTable * nat) :=
  [(mk_VirtualIdTable {[40000 := 71; 40001 := 72]} 40000 999 40002, 0%nat);
   (mk_VirtualIdTable {[41000 := 81; 40000 := 71]} 41000 999 41001, 3%nat)].

Lemma restart_maps_merged_witness :
  exists data s', writeAllMaps walk 0 0 "map" 1000 example_tables EmptyString = Some data /\
  readMapsFromFile walk 0 0 "map" (mk_VirtualIdTable {[41000 := 81]} 41000 999 41001)
    (mk_Stream true data 0 0 0) =
  Ok (mk_VirtualIdTable (merge {[41000 := 81]} ((fun x => idMapTable (fst x)) <$> example_tables)) 41000 999 41001) s'.
Proof.
  destruct (restart_maps_merged walk 0 0 "map" 1000 example_tables) as (H1 & H2 & _).
  - discriminate.
  - unfold example_tables. cbn [fmap list_fmap fst idMapTable].
    constructor; [|constructor; [|constructor]];
      (apply idMap_ok_small; [apply Permutation_refl|vm_compute; reflexivity|]);
      unfold in_sint; refine (bool_decide_unpack _ _); vm_compute; exact I.
  - vm_compute. lia.
  - destruct (H2 (mk_VirtualIdTable {[41000 := 81]} 41000 999 41001)
      (mk_Stream true _ 0 0 0) eq_refl) as [s' E].
    eexists. exists s'. split; [exact H1|exact E].
Defined.

(** A process 40000 (really 500) with a parent 39000 (really 400) and a finished thread. *)
Definition example_exec_os : PidOS := mk_PidOS 500 400 500 (fun r => negb (r =? 501)).
Definition example_exec_table : VirtualIdTable :=
  mk_VirtualIdTable {[40000 := 500; 39000 := 400; 40001 := 501]} 40000 999 40002.
Definition example_exec_pids : Pids Area :=
  mk_Pids (Some example_exec_table) 40000 39000 500 400 40000 1 false [] ∅ example_area.
Definition example_exec_file : Stream := mk_Stream false "other plugins" 13 1000 0.

Lemma exec_keeps_identifiers_witness :
  exists s' f' n f'', PrepareForExec walk 0 0 example_exec_os (example_exec_pids, example_exec_file) = Ok tt (s', f') /\
  PostExec walk 0 0 example_exec_os
    (Pids_new (vp_env s') (vp_dir s'), mk_Stream true (sr_data f' +:+ "rest") 13 0 0) = Ok tt (n, f'') /\
  (vp_pid n, vp_realPid n, vp_ppid n, vp_realPpid n) = (40000, 500, 39000, 400) /\ rest f'' = "rest".
Proof.
  destruct (exec_keeps_identifiers walk 0 0 example_exec_os example_exec_pids example_exec_table 500 400
              example_exec_file "rest") as (s' & f' & H1 & n & f'' & H2 & H3 & H4 & _).
  - intros m. apply Permutation_refl.
  - apply idMap_ok_small; [apply Permutation_refl|vm_compute; reflexivity|].
    unfold in_sint. refine (bool_decide_unpack _ _). vm_compute. exact I.
  - reflexivity.
  - reflexivity.
  - reflexivity.
  - vm_compute. reflexivity.
  - vm_compute. reflexivity.
  - reflexivity.
  - reflexivity.
  - apply Nat.leb_le. vm_compute. reflexivity.
  - exists s', f', n, f''. exact (conj H1 (conj H2 (conj H3 H4))).
Defined.

(** The identity of a process and of its parent go through the file of an exec
    unchanged; a first use of the identity computes it before it is written. *)
Theorem identity_file_roundtrip g1 g2 e p q f k :
  let this := fst (ThisProcess e p) in
  let enc := up_raw this +:+ up_raw (parentProcess p) in
  up_ok this -> up_ok (parentProcess p) -> writing (String.length enc) f ->
  UniquePid_serialize g1 g2 e p f = Ok (snd (ThisProcess e p)) (wrote enc f) /\
  forall r, sr_reader r = true -> rest r = enc +:+ k ->
  UniquePid_serialize g1 g2 e q r =
    Ok (q <| theProcess := this |> <| parentProcess := parentProcess p |>) (advanced (String.length enc) r).
Proof.
  intros this enc Ht Hp Hf. split.
  - unfold UniquePid_serialize. erewrite (bind_ok isWriter) by reflexivity.
    destruct Hf as (Hr & Hf). rewrite Hr. cbn [negb].
    assert (Epp : parentProcess (snd (ThisProcess e p)) = parentProcess p) by (unfold ThisProcess; by destruct (up_eqb _ _)).
    fold this in Ht. destruct (ThisProcess e p) as [u p'] eqn:E. cbn [fst snd] in *.
    rewrite (bind_ok _ _ _ _ _ (wire_write u Ht f ltac:(split_and!; [done|apply Hf|];
      destruct Hf as [_ Hl]; unfold enc in Hl; rewrite str_app_length in Hl; subst this; cbn [fst] in Hl; lia))).
    rewrite Epp.
    erewrite bind_ok; [|apply (wire_write (parentProcess p) Hp); apply writing_wrote; split; [done|];
      unfold enc in Hf; rewrite str_app_length in Hf; exact Hf].
    rewrite wrote_wrote. rewrite (bind_ok isReader _ _ false (wrote enc f)); [done|].
    unfold isReader, gets. by change (sr_reader (wrote _ f)) with (sr_reader f); rewrite Hr.
  - intros r Hr Hk. unfold UniquePid_serialize. erewrite (bind_ok isWriter) by reflexivity. rewrite Hr. cbn [negb].
    unfold enc in *. rewrite str_app_assoc in Hk.
    rewrite (bind_ok _ _ _ _ _ (wire_read this _ Ht r _ Hr Hk)).
    erewrite bind_ok; [|apply (wire_read (parentProcess p) _ Hp _ k); [done|by rewrite rest_advanced, Hk, str_drop_app]].
    rewrite advanced_advanced, <- str_app_length. rewrite (bind_ok isReader _ _ true (advanced (String.length enc) r)); [done|].
    unfold isReader, gets. by change (sr_reader (advanced _ r)) with (sr_reader r); rewrite Hr.
Qed.
