(* ===== verification/ConnList.v ===== *)
(** * Connections and the tables of file descriptors

    [ConnectionIdentifier] (src/plugin/connectionidentifier.cpp), [Connection]
    (src/plugin/connection.cpp) and the tables of [ConnectionList]
    (src/plugin/connectionlist.cpp), which the file, socket and event plugins use to
    know which descriptors of the process name the same connection.

    The two tables hold pointers to shared [Connection] objects.  The model has the
    objects on a heap: [delete] removes one and any later use of it is a fault.  The
    fields of the derived classes are a type [Sub] of the section, with the virtual
    methods the base class calls as a class [ConnMethods]. *)

From Stdlib Require Import ZArith Lia Ascii.
From stdpp Require Import base gmap strings numbers list.
From S2P Require Import Prelude CText Identity Serialize.
Import Convert.
Open Scope Z_scope.

(** ** Identifiers *)

Record ConnectionIdentifier : Type := mk_ConnectionIdentifier { ci_upid : UniquePid; ci_id : Z }.
#[export] Instance ConnectionIdentifier_eq_dec : EqDecision ConnectionIdentifier.
Proof. solve_decision. Defined.

Definition CONNECTION_ID_START : Z := 99000.

(** [operator<] does not look at the generation, [operator==] does. *)
Definition ci_ltb (a b : ConnectionIdentifier) : bool :=
  let (u, v) := (ci_upid a, ci_upid b) in
  if negb (up_hostid u =? up_hostid v) then up_hostid u <? up_hostid v
  else if negb (up_pid u =? up_pid v) then up_pid u <? up_pid v
  else if negb (up_time u =? up_time v) then up_time u <? up_time v
  else ci_id a <? ci_id b.

Definition ci_eqb (a b : ConnectionIdentifier) : bool :=
  upid_eqb (ci_upid a) (ci_upid b) && (ci_id a =? ci_id b).

Definition ci_isNull (a : ConnectionIdentifier) : bool := ci_id a <? 0.

(** [operator<<]. *)
Definition ci_str (a : ConnectionIdentifier) : string :=
  hex_str (up_hostid (ci_upid a)) +:+ "-" +:+ XToString (up_pid (ci_upid a)) +:+ "-" +:+
  hex_str (up_time (ci_upid a)) +:+ "(" +:+ XToString (ci_id a) +:+ ")".

(** What an ordered map distinguishes: the fields [operator<] compares. *)
Definition ConKey : Type := Z * Z * Z * Z.
Definition ckey (a : ConnectionIdentifier) : ConKey :=
  (up_hostid (ci_upid a), up_pid (ci_upid a), up_time (ci_upid a), ci_id a).

(** ** Connections and their list *)

Section connections.
Context {Sub : Type}.

Record Connection : Type := mk_Connection {
  con_id : ConnectionIdentifier;
  con_type : Z;           (* uint32_t *)
  con_fcntlFlags : Z;     (* int64_t, as are the next two *)
  con_fcntlOwner : Z;
  con_fcntlSignal : Z;
  con_hasLock : bool;
  con_fds : list Z;       (* vector<int32_t> *)
  con_sub : Sub           (* the fields of the derived class *)
}.
#[export] Instance eta_Connection : Settable Connection :=
  {| eta_of c := mk_Connection (con_id c) (con_type c) (con_fcntlFlags c) (con_fcntlOwner c)
                   (con_fcntlSignal c) (con_hasLock c) (con_fds c) (con_sub c) |}.

Record ConnectionList : Type := mk_ConnectionList {
  cl_heap : gmap nat Connection;                              (* the live objects *)
  cl_connections : gmap ConKey (ConnectionIdentifier * nat);  (* _connections: key as stored, pointer *)
  cl_fdToCon : gmap Z nat;                                    (* _fdToCon *)
  cl_numIncomingCons : nat;
  cl_nextConId : Z;                                           (* the static _nextConId *)
  cl_upid : UniquePid                                         (* dmtcp_get_uniquepid() *)
}.
#[export] Instance eta_ConnectionList : Settable ConnectionList :=
  {| eta_of c := mk_ConnectionList (cl_heap c) (cl_connections c) (cl_fdToCon c) (cl_numIncomingCons c)
                   (cl_nextConId c) (cl_upid c) |}.

Abbreviation CL := (M ConnectionList).

Definition deref (p : nat) : CL Connection :=
  h ← gets cl_heap; optM (UseAfterFree "Connection") (h !! p).
Definition store (p : nat) (c : Connection) : CL unit :=
  deref p;; modify (fun s => s <| cl_heap ::= <[p := c]> |>).
Definition delete_con (p : nat) : CL unit :=
  deref p;; modify (fun s => s <| cl_heap ::= delete p |>).

(** [ConnectionIdentifier::create]. *)
Definition ci_create : CL ConnectionIdentifier :=
  id ← gets cl_nextConId;
  (if in_int32 (id + 1) then mret tt else faultM (SignedOverflow "_nextConId"));;
  modify (fun s => s <| cl_nextConId := id + 1 |>);;
  u ← gets cl_upid;
  mret (mk_ConnectionIdentifier u id).

(** [new] of a derived class: [Connection(t)] with the derived fields [sub]. *)
Definition Connection_new (t : Z) (sub : Sub) : CL nat :=
  id ← ci_create;
  h ← gets cl_heap;
  let p := fresh (dom h) in
  modify (fun s => s <| cl_heap ::= <[p := mk_Connection id t (-1) (-1) (-1) false [] sub]> |>);;
  mret p.

(** [addFd], [removeFd]. *)
Definition addFd (fd : Z) (c : Connection) : Connection := c <| con_fds ::= fun l => l ++ [fd] |>.

Definition removeFd {S} (fd : Z) (c : Connection) : M S Connection :=
  match con_fds c with
  | [] => faultM (AssertFailed "connection has no fds during remove")
  | [fd0] => assertM (fd0 =? fd) "removing wrong sole connection fd";; mret (c <| con_fds := [] |>)
  | fds => mret (c <| con_fds := filter (fun x => x <> fd) fds |>)
  end.

(** [getConnection]: by identifier, by descriptor. *)
Definition getConnection (id : ConnectionIdentifier) : CL (option nat) :=
  m ← gets cl_connections; mret (snd <$> m !! ckey id).
Definition getConnection_fd (fd : Z) : CL (option nat) :=
  m ← gets cl_fdToCon; mret (m !! fd).

(** The end of [processCloseWork] and of a round of [deleteStaleConnections]; [key] is
    what the map is erased at. *)
Definition drop_fd (key : Connection -> ConKey) (p : nat) (fd : Z) : CL unit :=
  con ← deref p;
  con ← removeFd fd con;
  store p con;;
  if Nat.eqb (length (con_fds con)) 0 then
    modify (fun s => s <| cl_connections ::= delete (key con) |>);;
    delete_con p
  else mret tt.

Definition processCloseWork (fd : Z) : CL unit :=
  m ← gets cl_fdToCon;
  p ← optM (AssertFailed "fd missing from connection table during close") (m !! fd);
  modify (fun s => s <| cl_fdToCon ::= delete fd |>);;
  drop_fd (fun con => ckey (con_id con)) p fd.

Definition processClose (fd : Z) : CL unit :=
  m ← gets cl_fdToCon;
  whenM (bool_decide (is_Some (m !! fd))) (processCloseWork fd).

(** [add]: the descriptor [fd] names the connection at [c]. *)
Definition add (fd : Z) (c : nat) : CL unit :=
  m ← gets cl_fdToCon;
  if bool_decide (m !! fd = Some c) then mret tt
  else
    whenM (bool_decide (is_Some (m !! fd))) (processCloseWork fd);;
    con ← deref c;
    cs ← gets cl_connections;
    whenM (negb (bool_decide (is_Some (cs !! ckey (con_id con)))))
      (modify (fun s => s <| cl_connections ::= <[ckey (con_id con) := (con_id con, c)]> |>));;
    store c (addFd fd con);;
    modify (fun s => s <| cl_fdToCon ::= <[fd := c]> |>).

Definition processDup (oldfd newfd : Z) : CL unit :=
  if oldfd =? newfd then mret tt
  else
    m ← gets cl_fdToCon;
    if bool_decide (is_Some (m !! newfd) /\ m !! oldfd = m !! newfd) then mret tt
    else
      whenM (bool_decide (is_Some (m !! newfd))) (processCloseWork newfd);;
      m ← gets cl_fdToCon;
      match m !! oldfd with
      | Some p =>
          modify (fun s => s <| cl_fdToCon ::= <[newfd := p]> |>);;
          con ← deref p;
          store p (addFd newfd con)
      | None => mret tt
      end.

(** ** Walks over the tables *)

Section walks.
(** The orders in which [_connections] and [_fdToCon] are walked. *)
Context (iterC : gmap ConKey (ConnectionIdentifier * nat) -> list (ConKey * (ConnectionIdentifier * nat))).
Context (iterF : gmap Z nat -> list (Z * nat)).
(** [_isBadFd]. *)
Context (isBadFd : Z -> bool).

(** One descriptor of the search of [deleteStaleConnections]: [acc] is [seenFds] and
    [staleFds]. *)
Definition note_fd (id : ConnectionIdentifier) (acc : list Z * list (ConnectionIdentifier * Z)) (fd : Z)
    : list Z * list (ConnectionIdentifier * Z) :=
  if isBadFd fd && negb (bool_decide (fd ∈ fst acc)) then (fd :: fst acc, snd acc ++ [(id, fd)]) else acc.

Fixpoint stale_of_connections (l : list (ConKey * (ConnectionIdentifier * nat)))
    (acc : list Z * list (ConnectionIdentifier * Z)) : CL (list Z * list (ConnectionIdentifier * Z)) :=
  match l with
  | [] => mret acc
  | (_, (id, p)) :: l' =>
      con ← deref p;
      stale_of_connections l' (foldl (note_fd id) acc (con_fds con))
  end.

Fixpoint stale_of_fds (l : list (Z * nat)) (acc : list Z * list (ConnectionIdentifier * Z))
    : CL (list Z * list (ConnectionIdentifier * Z)) :=
  match l with
  | [] => mret acc
  | (fd, p) :: l' =>
      (if isBadFd fd && negb (bool_decide (fd ∈ fst acc)) then
         con ← deref p; stale_of_fds l' (note_fd (con_id con) acc fd)
       else stale_of_fds l' acc)
  end.

Definition delete_stale (x : ConnectionIdentifier * Z) : CL unit :=
  cs ← gets cl_connections;
  match cs !! ckey (fst x) with
  | None => mret tt
  | Some (_, p) =>
      m ← gets cl_fdToCon;
      if bool_decide (m !! snd x = Some p) then processClose (snd x)
      else drop_fd (fun _ => ckey (fst x)) p (snd x)
  end.

Definition deleteStaleConnections : CL unit :=
  cs ← gets cl_connections;
  acc ← stale_of_connections (iterC cs) ([], []);
  m ← gets cl_fdToCon;
  acc ← stale_of_fds (iterF m) acc;
  forM (snd acc) delete_stale.
End walks.
End connections.
Arguments Connection : clear implicits.
Arguments ConnectionList : clear implicits.

(** ** The abstract table: which connection a descriptor names *)

Section facts.
Context {Sub : Type}.
Implicit Types (s : ConnectionList Sub) (c : Connection Sub).

(** The tables and the objects agree. *)
Record cl_wf (s : ConnectionList Sub) : Prop := {
  wf_fd : forall fd p, cl_fdToCon s !! fd = Some p -> exists c i, cl_heap s !! p = Some c /\
    fd ∈ con_fds c /\ cl_connections s !! ckey (con_id c) = Some (i, p);
  wf_con : forall k i p, cl_connections s !! k = Some (i, p) -> exists c, cl_heap s !! p = Some c /\
    ckey (con_id c) = k /\ con_fds c <> [] /\ NoDup (con_fds c) /\
    forall fd, fd ∈ con_fds c -> cl_fdToCon s !! fd = Some p;
  wf_key : forall k i p, cl_connections s !! k = Some (i, p) -> ckey i = k
}.

(** The abstract state: a descriptor is mapped to the identifier of its connection. *)
Definition cl_view (s : ConnectionList Sub) : gmap Z ConnectionIdentifier :=
  omap (fun p => con_id <$> cl_heap s !! p) (cl_fdToCon s).

Lemma cl_view_lookup s fd : cl_view s !! fd = (p ← cl_fdToCon s !! fd; con_id <$> cl_heap s !! p).
Proof. unfold cl_view. by rewrite lookup_omap. Qed.

Lemma deref_ok s p c : cl_heap s !! p = Some c -> deref p s = Ok c s.
Proof. intros H. unfold deref, gets, mbind, M_bind. by rewrite H. Qed.

Lemma store_ok s p c c' : cl_heap s !! p = Some c -> store p c' s = Ok tt (s <| cl_heap ::= <[p := c']> |>).
Proof. intros H. unfold store. by rewrite (bind_ok _ _ _ _ _ (deref_ok s p c H)). Qed.

(** Under the invariant [removeFd] succeeds and removes the descriptor. *)
Lemma removeFd_ok {S} fd c (st : S) : fd ∈ con_fds c -> NoDup (con_fds c) ->
  removeFd fd c st = Ok (c <| con_fds := filter (fun x => x <> fd) (con_fds c) |>) st.
Proof.
  intros Hin Hnd. unfold removeFd. destruct (con_fds c) as [|x [|y l]] eqn:E.
  - by apply elem_of_nil in Hin.
  - apply list_elem_of_singleton in Hin as ->. rewrite Z.eqb_refl.
    erewrite (bind_ok (assertM _ _)) by reflexivity. rewrite filter_cons_False by tauto. done.
  - done.
Qed.

(** The state after the descriptor [fd] of the object [c] at [p] is closed. *)
Definition without_fd c (fd : Z) : Connection Sub := c <| con_fds := filter (fun x => x <> fd) (con_fds c) |>.
Definition closed (p : nat) c (fd : Z) s : ConnectionList Sub :=
  let s := s <| cl_fdToCon ::= delete fd |> <| cl_heap ::= <[p := without_fd c fd]> |> in
  if Nat.eqb (length (con_fds (without_fd c fd))) 0
  then s <| cl_connections ::= delete (ckey (con_id c)) |> <| cl_heap ::= delete p |>
  else s.

Lemma processCloseWork_ok s fd p c : cl_wf s -> cl_fdToCon s !! fd = Some p -> cl_heap s !! p = Some c ->
  processCloseWork fd s = Ok tt (closed p c fd s).
Proof.
  intros Hwf Hfd Hp. destruct (wf_fd s Hwf _ _ Hfd) as (c0 & i & Hc0 & Hin & Hk). simplify_eq.
  destruct (wf_con s Hwf _ _ _ Hk) as (c0 & Hc1 & _ & _ & Hnd & _). simplify_eq.
  unfold processCloseWork. erewrite (bind_ok (gets _)) by reflexivity. rewrite Hfd.
  erewrite (bind_ok (optM _ _)) by reflexivity. erewrite (bind_ok (modify _)) by reflexivity.
  unfold drop_fd. erewrite (bind_ok (deref p)) by (apply deref_ok; exact Hp).
  rewrite (bind_ok _ _ _ _ _ (removeFd_ok fd c _ Hin Hnd)). fold (without_fd c fd).
  erewrite (bind_ok (store p _)) by (eapply store_ok; exact Hp).
  unfold closed. destruct (Nat.eqb _ 0); [|done].
  erewrite (bind_ok (modify _)) by reflexivity. unfold delete_con.
  erewrite bind_ok; [reflexivity|]. apply deref_ok. rsimpl. apply lookup_insert_eq.
Qed.

Lemma elem_without c fd x : x ∈ con_fds (without_fd c fd) <-> x <> fd /\ x ∈ con_fds c.
Proof. unfold without_fd. rsimpl. by rewrite list_elem_of_filter. Qed.

Lemma closed_fdToCon p c fd s : cl_fdToCon (closed p c fd s) = delete fd (cl_fdToCon s).
Proof. unfold closed. by destruct (Nat.eqb _ 0). Qed.

(** What another object keeps. *)
Lemma closed_heap_ne p c fd s p' : p' <> p -> cl_heap (closed p c fd s) !! p' = cl_heap s !! p'.
Proof.
  intros Hne. unfold closed. destruct (Nat.eqb _ 0); rsimpl; rsimpl.
  - by rewrite lookup_delete_ne, lookup_insert_ne by done.
  - by rewrite lookup_insert_ne by done.
Qed.

Lemma closed_connections_ne p c fd s k : k <> ckey (con_id c) ->
  cl_connections (closed p c fd s) !! k = cl_connections s !! k.
Proof. intros Hne. unfold closed. destruct (Nat.eqb _ 0); rsimpl; rsimpl; [by rewrite lookup_delete_ne|done]. Qed.

(** The object itself lives exactly as long as it has another descriptor. *)
Lemma closed_self p c fd s x : x ∈ con_fds c -> x <> fd ->
  cl_heap (closed p c fd s) !! p = Some (without_fd c fd) /\ cl_connections (closed p c fd s) = cl_connections s.
Proof.
  intros Hx Hne. unfold closed. destruct (Nat.eqb_spec (length (con_fds (without_fd c fd))) 0) as [E|_].
  - apply length_zero_iff_nil in E. assert (Hi : x ∈ con_fds (without_fd c fd)) by (by apply elem_without).
    rewrite E in Hi. by apply elem_of_nil in Hi.
  - rsimpl. rsimpl. split; [apply lookup_insert_eq|done].
Qed.

Lemma closed_key p c fd s k i q : cl_wf s -> cl_heap s !! p = Some c ->
  cl_connections (closed p c fd s) !! k = Some (i, q) ->
  cl_connections s !! k = Some (i, q) /\ (k = ckey (con_id c) -> exists x, x ∈ con_fds c /\ x <> fd).
Proof.
  intros Hwf Hp. unfold closed. destruct (Nat.eqb_spec (length (con_fds (without_fd c fd))) 0) as [E|E];
    rsimpl; rsimpl; intros H.
  - apply lookup_delete_Some in H as [? ?]. done.
  - split; [done|]. intros _. destruct (con_fds (without_fd c fd)) as [|x l] eqn:El; [done|].
    exists x. assert (Hi : x ∈ con_fds (without_fd c fd)) by (rewrite El; left). apply elem_without in Hi. tauto.
Qed.

Lemma closed_wf s fd p c : cl_wf s -> cl_fdToCon s !! fd = Some p -> cl_heap s !! p = Some c ->
  cl_wf (closed p c fd s).
Proof.
  intros Hwf Hfd Hp. destruct (wf_fd s Hwf _ _ Hfd) as (c0 & i & Hc0 & Hin & Hk). simplify_eq.
  destruct (wf_con s Hwf _ _ _ Hk) as (c0 & Hc1 & _ & _ & Hnd & Hall). simplify_eq. split.
  - intros fd' q. rewrite closed_fdToCon. intros [Hne Hq]%lookup_delete_Some.
    destruct (wf_fd s Hwf _ _ Hq) as (c' & j & Hc' & Hin' & Hk').
    destruct (decide (q = p)) as [->|Hqp].
    + simplify_eq. destruct (closed_self p c fd s fd' Hin') as [Hs1 Hs2]; [done|]. exists (without_fd c fd), i.
      split_and!; [done|by apply elem_without|]. by rewrite Hs2.
    + exists c', j. rewrite closed_heap_ne by done. split_and!; [done..|].
      rewrite closed_connections_ne; [done|]. intros E. rewrite E, Hk in Hk'. by simplify_eq.
  - intros k j q Hkq. destruct (closed_key p c fd s k j q Hwf Hp Hkq) as [Hkq' Hex].
    destruct (wf_con s Hwf _ _ _ Hkq') as (c' & Hc' & Hk' & Hne' & Hnd' & Hall').
    destruct (decide (q = p)) as [->|Hqp].
    + simplify_eq. destruct (Hex eq_refl) as (x & Hx & Hxfd). destruct (closed_self p c fd s x Hx Hxfd) as [Hs1 Hs2].
      exists (without_fd c fd). split_and!; [done|done| | |].
      * intros E. assert (Hi : x ∈ con_fds (without_fd c fd)) by (by apply elem_without). rewrite E in Hi. by apply elem_of_nil in Hi.
      * unfold without_fd. rsimpl. by apply NoDup_filter.
      * intros x' [Hx' Hx'']%elem_without. rewrite closed_fdToCon, lookup_delete_ne by done. by apply Hall'.
    + exists c'. rewrite closed_heap_ne by done. split_and!; [done..|].
      intros x Hx. rewrite closed_fdToCon, lookup_delete_ne; [by apply Hall'|].
      intros <-. specialize (Hall' _ Hx). congruence.
  - intros k j q Hkq. destruct (closed_key p c fd s k j q Hwf Hp Hkq) as [Hkq' _]. by eapply wf_key.
Qed.

Lemma closed_view s fd p c : cl_wf s -> cl_fdToCon s !! fd = Some p -> cl_heap s !! p = Some c ->
  cl_view (closed p c fd s) = delete fd (cl_view s).
Proof.
  intros Hwf Hfd Hp. apply map_eq. intros fd'. rewrite cl_view_lookup, closed_fdToCon.
  destruct (decide (fd' = fd)) as [->|Hne]; [by rewrite !lookup_delete_eq|].
  rewrite !lookup_delete_ne, cl_view_lookup by done. destruct (cl_fdToCon s !! fd') as [q|] eqn:Eq; [|done]. cbn.
  destruct (decide (q = p)) as [->|Hqp]; [|by rewrite closed_heap_ne].
  destruct (wf_fd s Hwf _ _ Eq) as (c' & j & Hc' & Hin' & _). simplify_eq.
  destruct (closed_self p c fd s fd' Hin') as [Hs _]; [done|]. by rewrite Hs, Hp.
Qed.

(** *** Adding a descriptor *)

(** The object [c] at [p], with identifier entry [cs], gets the free descriptor [fd]. *)
Definition attached (p : nat) c (fd : Z) cs s : ConnectionList Sub :=
  s <| cl_connections := cs |> <| cl_heap ::= <[p := addFd fd c]> |> <| cl_fdToCon ::= <[fd := p]> |>.

Lemma attached_wf s fd p c cs i : cl_wf s -> cl_heap s !! p = Some c -> cl_fdToCon s !! fd = None ->
  cs = cl_connections s /\ cs !! ckey (con_id c) = Some (i, p) \/
  cs = <[ckey (con_id c) := (i, p)]> (cl_connections s) /\ cl_connections s !! ckey (con_id c) = None /\ con_fds c = [] /\ i = con_id c ->
  cl_wf (attached p c fd cs s).
Proof.
  intros Hwf Hp Hfd Hcs.
  assert (Hc : cs !! ckey (con_id c) = Some (i, p)) by (destruct Hcs as [[_ ?]|[-> _]]; [done|apply lookup_insert_eq]).
  assert (Hcne : forall k, k <> ckey (con_id c) -> cs !! k = cl_connections s !! k).
  { intros k Hk. destruct Hcs as [[-> _]|[-> _]]; [done|by rewrite lookup_insert_ne]. }
  assert (Hown : NoDup (con_fds c) /\ forall x, x ∈ con_fds c -> cl_fdToCon s !! x = Some p).
  { destruct Hcs as [[-> Hk]|(_ & _ & -> & _)].
    - destruct (wf_con s Hwf _ _ _ Hk) as (c' & Hc' & _ & _ & Hnd & Hall). by simplify_eq.
    - split; [constructor|]. intros x Hx. by apply elem_of_nil in Hx. }
  destruct Hown as [Hnd Hall]. unfold attached.
  split; rsimpl; rsimpl; rsimpl.
  - intros fd' q. destruct (decide (fd' = fd)) as [->|Hne].
    + rewrite lookup_insert_eq. intros [= <-]. exists (addFd fd c), i. rewrite lookup_insert_eq. split_and!; [done| |done].
      unfold addFd. rsimpl. apply elem_of_app. right. left.
    + rewrite lookup_insert_ne by done. intros Hq. destruct (wf_fd s Hwf _ _ Hq) as (c' & j & Hc' & Hin' & Hk').
      destruct (decide (q = p)) as [->|Hqp].
      * simplify_eq. exists (addFd fd c), i. rewrite lookup_insert_eq. split_and!; [done| |done].
        unfold addFd. rsimpl. apply elem_of_app. by left.
      * exists c', j. rewrite lookup_insert_ne by done. split_and!; [done..|]. rewrite Hcne; [done|].
        intros E. rewrite E in Hk'. destruct Hcs as [[-> Hk]|(_ & Hk & _ & _)]; congruence.
  - intros k j q Hkq. destruct (decide (k = ckey (con_id c))) as [->|Hne].
    + assert (q = p) as -> by congruence. exists (addFd fd c). rewrite lookup_insert_eq. unfold addFd. rsimpl.
      split_and!; [done|done| | |].
      * intros E. by apply app_nil in E as [_ ?].
      * apply NoDup_app. split_and!; [done| |apply NoDup_singleton].
        intros x Hx ->%list_elem_of_singleton. rewrite (Hall _ Hx) in Hfd. done.
      * intros x [Hx| ->%list_elem_of_singleton]%elem_of_app; [|apply lookup_insert_eq].
        rewrite lookup_insert_ne; [by apply Hall|]. intros <-. rewrite (Hall _ Hx) in Hfd. done.
    + rewrite Hcne in Hkq by done. destruct (wf_con s Hwf _ _ _ Hkq) as (c' & Hc' & Hk' & Hne' & Hnd' & Hall').
      assert (Hqp : q <> p) by (intros ->; congruence). exists c'. rewrite lookup_insert_ne by done. split_and!; [done..|].
      intros x Hx. rewrite lookup_insert_ne; [by apply Hall'|]. intros <-. rewrite (Hall' _ Hx) in Hfd. done.
  - intros k j q Hkq. destruct Hcs as [[-> _]|(-> & _ & _ & ->)]; [by eapply wf_key|].
    apply lookup_insert_Some in Hkq as [[<- [= <- <-]]|[_ Hkq]]; [done|by eapply wf_key].
Qed.

Lemma attached_view s fd p c cs : cl_heap s !! p = Some c ->
  cl_view (attached p c fd cs s) = <[fd := con_id c]> (cl_view s).
Proof.
  intros Hp. apply map_eq. intros fd'. rewrite cl_view_lookup. unfold attached. rsimpl. rsimpl. rsimpl.
  destruct (decide (fd' = fd)) as [->|Hne].
  { rewrite !lookup_insert_eq. cbn. by rewrite lookup_insert_eq. }
  rewrite !lookup_insert_ne, cl_view_lookup by done. destruct (cl_fdToCon s !! fd') as [q|]; [|done]. cbn.
  destruct (decide (q = p)) as [->|Hqp]; [by rewrite lookup_insert_eq, Hp|by rewrite lookup_insert_ne].
Qed.

(** *** The operations *)

(** Closing [fd] if it is there. *)
Lemma close_if s fd : cl_wf s -> exists s',
  whenM (bool_decide (is_Some (cl_fdToCon s !! fd))) (processCloseWork fd) s = Ok tt s' /\ cl_wf s' /\
  cl_view s' = delete fd (cl_view s) /\ cl_fdToCon s' = delete fd (cl_fdToCon s) /\
  cl_nextConId s' = cl_nextConId s /\ cl_upid s' = cl_upid s /\
  (forall k, cl_connections s' !! k = None \/ cl_connections s' !! k = cl_connections s !! k) /\
  (forall p, cl_fdToCon s !! fd <> Some p -> cl_heap s' !! p = cl_heap s !! p) /\
  (forall k i p, cl_fdToCon s !! fd <> Some p -> cl_connections s !! k = Some (i, p) -> cl_connections s' !! k = Some (i, p)).
Proof.
  intros Hwf. destruct (cl_fdToCon s !! fd) as [p|] eqn:Hfd.
  - destruct (wf_fd s Hwf _ _ Hfd) as (c & i & Hp & Hin & Hk).
    exists (closed p c fd s). rewrite bool_decide_eq_true_2 by done. cbn [whenM].
    split_and!; [by apply processCloseWork_ok|by apply closed_wf|by apply closed_view|apply closed_fdToCon|..].
    + unfold closed. by destruct (Nat.eqb _ 0).
    + unfold closed. by destruct (Nat.eqb _ 0).
    + intros k. destruct (decide (k = ckey (con_id c))) as [->|]; [|right; by apply closed_connections_ne].
      unfold closed. destruct (Nat.eqb _ 0); rsimpl; rsimpl; [left; apply lookup_delete_eq|by right].
    + intros q Hq. apply closed_heap_ne. congruence.
    + intros k j q Hq Hkq. rewrite closed_connections_ne; [done|]. intros ->. congruence.
  - exists s. rewrite bool_decide_eq_false_2 by (intros [? ?]; congruence). cbn [whenM].
    split_and!; try done; [|by rewrite delete_id|by right].
    rewrite delete_id; [done|]. by rewrite cl_view_lookup, Hfd.
Qed.

Lemma processClose_ok s fd : cl_wf s -> exists s', processClose fd s = Ok tt s' /\ cl_wf s' /\
  cl_view s' = delete fd (cl_view s) /\ cl_nextConId s' = cl_nextConId s /\ cl_upid s' = cl_upid s /\
  (forall k, cl_connections s' !! k = None \/ cl_connections s' !! k = cl_connections s !! k).
Proof.
  intros Hwf. destruct (close_if s fd Hwf) as (s' & H1 & H2 & H3 & _ & H5 & H6 & H7 & _). exists s'.
  split_and!; [|done..]. unfold processClose. by erewrite (bind_ok (gets _)) by reflexivity.
Qed.

(** [add] of an object that is in the tables, or of a new one. *)
Lemma add_ok s fd p c i : cl_wf s -> cl_heap s !! p = Some c ->
  cl_connections s !! ckey (con_id c) = Some (i, p) \/
  cl_connections s !! ckey (con_id c) = None /\ con_fds c = [] ->
  exists s', add fd p s = Ok tt s' /\ cl_wf s' /\ cl_view s' = <[fd := con_id c]> (cl_view s) /\
    cl_nextConId s' = cl_nextConId s /\ cl_upid s' = cl_upid s /\
    (forall k, cl_connections s' !! k = None \/ cl_connections s' !! k = cl_connections s !! k \/ k = ckey (con_id c)).
Proof.
  intros Hwf Hp Hk. unfold add. erewrite (bind_ok (gets _)) by reflexivity.
  destruct (decide (cl_fdToCon s !! fd = Some p)) as [E|Hne].
  { rewrite bool_decide_eq_true_2 by done. exists s. split_and!; try done; [|by right; left].
    symmetry. apply insert_id. by rewrite cl_view_lookup, E; cbn; rewrite Hp. }
  rewrite bool_decide_eq_false_2 by done.
  destruct (close_if s fd Hwf) as (s1 & H1 & Hwf1 & Hv1 & Hf1 & Hn1 & Hu1 & Hc1 & Hh1 & Hk1).
  rewrite (bind_ok _ _ _ _ _ H1). assert (Hp1 : cl_heap s1 !! p = Some c) by (by rewrite Hh1).
  rewrite (bind_ok _ _ _ _ _ (deref_ok s1 p c Hp1)). erewrite (bind_ok (gets _)) by reflexivity.
  assert (Hfd1 : cl_fdToCon s1 !! fd = None) by (rewrite Hf1; apply lookup_delete_eq).
  destruct Hk as [Hk|[Hk Hempty]].
  - assert (Hk' : cl_connections s1 !! ckey (con_id c) = Some (i, p)) by (by apply Hk1).
    rewrite bool_decide_eq_true_2 by (by rewrite Hk'). erewrite (bind_ok (whenM _ _)) by reflexivity.
    erewrite (bind_ok (store p _)) by (eapply store_ok; exact Hp1).
    exists (attached p c fd (cl_connections s1) s1). split_and!.
    + unfold attached, modify, set_field. reflexivity.
    + eapply attached_wf; try done. by left.
    + by rewrite attached_view, Hv1, insert_delete_eq.
    + done.
    + done.
    + intros k. destruct (Hc1 k) as [?|?]; [by left|by right; left].
  - assert (Hk' : cl_connections s1 !! ckey (con_id c) = None) by (destruct (Hc1 (ckey (con_id c))) as [?|E]; congruence).
    rewrite bool_decide_eq_false_2 by (rewrite Hk'; by intros [? ?]). erewrite (bind_ok (whenM _ _)) by reflexivity.
    erewrite (bind_ok (store p _)) by (eapply store_ok; exact Hp1).
    exists (attached p c fd (<[ckey (con_id c) := (con_id c, p)]> (cl_connections s1)) s1). split_and!.
    + unfold attached, modify, set_field. reflexivity.
    + eapply attached_wf; try done. by right.
    + by rewrite attached_view, Hv1, insert_delete_eq.
    + done.
    + done.
    + intros k. unfold attached. rsimpl. destruct (decide (k = ckey (con_id c))) as [->|Hne']; [by right; right|].
      rewrite lookup_insert_ne by done. destruct (Hc1 k) as [?|?]; [by left|by right; left].
Qed.

(** What [dup2] means for the abstract table. *)
Definition abs_dup (oldfd newfd : Z) (v : gmap Z ConnectionIdentifier) : gmap Z ConnectionIdentifier :=
  if oldfd =? newfd then v
  else match v !! oldfd with Some i => <[newfd := i]> v | None => delete newfd v end.

Lemma processDup_ok s oldfd newfd : cl_wf s -> exists s', processDup oldfd newfd s = Ok tt s' /\ cl_wf s' /\
  cl_view s' = abs_dup oldfd newfd (cl_view s) /\ cl_nextConId s' = cl_nextConId s /\ cl_upid s' = cl_upid s /\
  (forall k, cl_connections s' !! k = None \/ cl_connections s' !! k = cl_connections s !! k).
Proof.
  intros Hwf. unfold processDup, abs_dup. destruct (Z.eqb_spec oldfd newfd) as [_|Hne].
  { exists s. split_and!; try done. by right. }
  erewrite (bind_ok (gets _)) by reflexivity.
  assert (Hv : forall fd p c, cl_fdToCon s !! fd = Some p -> cl_heap s !! p = Some c -> cl_view s !! fd = Some (con_id c))
    by (intros fd p c H1 H2; by rewrite cl_view_lookup, H1; cbn; rewrite H2).
  destruct (decide (is_Some (cl_fdToCon s !! newfd) /\ cl_fdToCon s !! oldfd = cl_fdToCon s !! newfd)) as [[[p Hp] E]|Hno].
  { rewrite bool_decide_eq_true_2 by (split; [by exists p|done]). exists s. split_and!; try done; [|by right].
    destruct (wf_fd s Hwf _ _ Hp) as (c & i & Hc & _). rewrite Hp in E.
    rewrite (Hv _ _ _ E Hc). symmetry. apply insert_id. by apply (Hv _ p). }
  rewrite bool_decide_eq_false_2 by done.
  destruct (close_if s newfd Hwf) as (s1 & H1 & Hwf1 & Hv1 & Hf1 & Hn1 & Hu1 & Hc1 & Hh1 & Hk1).
  rewrite (bind_ok _ _ _ _ _ H1). erewrite (bind_ok (gets _)) by reflexivity.
  rewrite Hf1, lookup_delete_ne by done. destruct (cl_fdToCon s !! oldfd) as [p|] eqn:Eold.
  - destruct (wf_fd s Hwf _ _ Eold) as (c & i & Hp & Hin & Hk). rewrite (Hv _ _ _ Eold Hp).
    assert (Hnew : cl_fdToCon s !! newfd <> Some p) by (intros E; apply Hno; rewrite E; by split; [exists p|]).
    assert (Hp1 : cl_heap s1 !! p = Some c) by (by rewrite Hh1).
    erewrite (bind_ok (modify _)) by reflexivity.
    erewrite (bind_ok (deref p)) by (apply deref_ok; exact Hp1).
    exists (attached p c newfd (cl_connections s1) s1). split_and!.
    + erewrite store_ok by exact Hp1. unfold attached, set_field. reflexivity.
    + eapply (attached_wf _ _ _ _ _ i); try done; [rewrite Hf1; apply lookup_delete_eq|]. left. split; [done|by apply Hk1].
    + by rewrite attached_view, Hv1, insert_delete_eq.
    + done.
    + done.
    + apply Hc1.
  - exists s1. split_and!; try done. rewrite Hv1, cl_view_lookup, Eold. done.
Qed.

(** *** Stale descriptors *)

Section stale.
Context (isBadFd : Z -> bool) (s : ConnectionList Sub) (Hwf : cl_wf s).

Abbreviation Acc := (list Z * list (ConnectionIdentifier * Z))%type.

(** A pair found by the search names a bad descriptor and its connection. *)
Definition legit (v : gmap Z ConnectionIdentifier) (x : ConnectionIdentifier * Z) : Prop :=
  exists id, v !! snd x = Some id /\ ckey (fst x) = ckey id.
Definition acc_ok (acc : Acc) : Prop :=
  (forall fd, fd ∈ fst acc <-> fd ∈ snd <$> snd acc) /\ NoDup (snd <$> snd acc) /\
  Forall (fun x => isBadFd (snd x) = true /\ legit (cl_view s) x) (snd acc).

Lemma note_fd_ok id acc fd : acc_ok acc -> (exists id', cl_view s !! fd = Some id' /\ ckey id = ckey id') ->
  acc_ok (note_fd isBadFd id acc fd) /\ (forall x, x ∈ fst acc -> x ∈ fst (note_fd isBadFd id acc fd)) /\
  (isBadFd fd = true -> fd ∈ fst (note_fd isBadFd id acc fd)).
Proof.
  intros (Hin & Hnd & Hall) Hv. unfold note_fd. destruct (isBadFd fd) eqn:Eb; cbn [andb].
  2:{ split; [exact (conj Hin (conj Hnd Hall))|]. by split. }
  destruct (decide (fd ∈ fst acc)) as [Hi|Hi].
  { rewrite bool_decide_eq_true_2 by done. cbn [negb]. split; [exact (conj Hin (conj Hnd Hall))|]. by split. }
  rewrite bool_decide_eq_false_2 by done. cbn [negb fst snd]. split; [|split].
  - unfold acc_ok. split_and!; cbn [fst snd]; [|rewrite fmap_app; apply NoDup_app; split_and!|].
    + intros x. rewrite elem_of_cons, fmap_app, elem_of_app, <- Hin. cbn. rewrite list_elem_of_singleton. tauto.
    + done.
    + intros x Hx ->%list_elem_of_singleton. cbn in *. apply Hi. by apply Hin.
    + apply NoDup_singleton.
    + apply Forall_app. split; [done|]. constructor; [|constructor]. by split.
  - intros x Hx. by right.
  - intros _. left.
Qed.

Lemma note_fds_ok id fds : forall acc, acc_ok acc ->
  (forall fd, fd ∈ fds -> exists id', cl_view s !! fd = Some id' /\ ckey id = ckey id') ->
  acc_ok (foldl (note_fd isBadFd id) acc fds).
Proof.
  induction fds as [|fd fds IH]; intros acc Hacc Hfds; [done|]. cbn. apply IH.
  - apply note_fd_ok; [done|]. apply Hfds. left.
  - intros x Hx. apply Hfds. by right.
Qed.

Lemma stale_of_connections_ok l : (forall x, x ∈ l -> cl_connections s !! fst x = Some (snd x) /\ ckey (fst (snd x)) = fst x) ->
  forall acc, acc_ok acc -> exists acc', stale_of_connections isBadFd l acc s = Ok acc' s /\ acc_ok acc'.
Proof using Hwf.
  induction l as [|[k [i p]] l IH]; intros Hl acc Hacc; [by exists acc|]. cbn [stale_of_connections].
  destruct (Hl (k, (i, p)) (list_elem_of_here _ _)) as [Hk Hi]. cbn in Hk, Hi.
  destruct (wf_con s Hwf _ _ _ Hk) as (c & Hp & Hck & _ & _ & Hall).
  rewrite (bind_ok _ _ _ _ _ (deref_ok s p c Hp)). apply IH; [intros x Hx; apply Hl; by right|].
  apply note_fds_ok; [done|]. intros fd Hfd. exists (con_id c). rewrite cl_view_lookup, (Hall _ Hfd). cbn.
  rewrite Hp. split; [done|congruence].
Qed.

Lemma stale_of_fds_ok l : (forall x, x ∈ l -> cl_fdToCon s !! fst x = Some (snd x)) ->
  forall acc, acc_ok acc -> exists acc', stale_of_fds isBadFd l acc s = Ok acc' s /\ acc_ok acc' /\
    (forall x, x ∈ fst acc -> x ∈ fst acc') /\ (forall x, x ∈ l -> isBadFd (fst x) = true -> fst x ∈ fst acc').
Proof using Hwf.
  induction l as [|[fd p] l IH]; intros Hl acc Hacc.
  { exists acc. split_and!; try done. intros x Hx. by apply elem_of_nil in Hx. }
  cbn [stale_of_fds]. pose proof (Hl (fd, p) (list_elem_of_here _ _)) as Hfd. cbn in Hfd.
  destruct (wf_fd s Hwf _ _ Hfd) as (c & i & Hp & _).
  assert (Hv : exists id', cl_view s !! fd = Some id' /\ ckey (con_id c) = ckey id')
    by (exists (con_id c); by rewrite cl_view_lookup, Hfd; cbn; rewrite Hp).
  assert (Hl' : forall x, x ∈ l -> cl_fdToCon s !! fst x = Some (snd x)) by (intros x Hx; apply Hl; by right).
  destruct (isBadFd fd && negb (bool_decide (fd ∈ fst acc))) eqn:Eb.
  - rewrite (bind_ok _ _ _ _ _ (deref_ok s p c Hp)).
    destruct (note_fd_ok (con_id c) acc fd Hacc Hv) as (Ha & Hm & Hnew).
    destruct (IH Hl' _ Ha) as (acc' & E & Hok & Hmono & Hc). exists acc'. split_and!; [done..| |].
    + intros x Hx. by apply Hmono, Hm.
    + intros x [->|Hx]%elem_of_cons Hbad; [by apply Hmono, Hnew|by apply Hc].
  - destruct (IH Hl' _ Hacc) as (acc' & E & Hok & Hmono & Hc). exists acc'. split_and!; [done..|].
    intros x [->|Hx]%elem_of_cons Hbad; [|by apply Hc]. cbn in *. apply Hmono. rewrite Hbad in Eb. cbn in Eb.
    apply negb_false_iff, bool_decide_eq_true_1 in Eb. done.
Qed.
End stale.

Lemma delete_stale_ok s x : cl_wf s -> legit (cl_view s) x ->
  exists s', delete_stale x s = Ok tt s' /\ cl_wf s' /\ cl_view s' = delete (snd x) (cl_view s) /\
    cl_nextConId s' = cl_nextConId s /\ cl_upid s' = cl_upid s /\
    (forall k, cl_connections s' !! k = None \/ cl_connections s' !! k = cl_connections s !! k).
Proof.
  intros Hwf (id & Hv & Hkey). rewrite cl_view_lookup in Hv.
  destruct (cl_fdToCon s !! snd x) as [p|] eqn:Hfd; [|done]. cbn in Hv.
  destruct (wf_fd s Hwf _ _ Hfd) as (c & i & Hp & _ & Hk). rewrite Hp in Hv. injection Hv as Hv.
  unfold delete_stale. erewrite (bind_ok (gets _)) by reflexivity. rewrite Hkey, <- Hv, Hk.
  erewrite (bind_ok (gets _)) by reflexivity. rewrite bool_decide_eq_true_2 by done. by apply processClose_ok.
Qed.

Lemma delete_stales_ok l : forall s, cl_wf s -> NoDup (snd <$> l) -> Forall (legit (cl_view s)) l ->
  exists s', forM l delete_stale s = Ok tt s' /\ cl_wf s' /\
    (forall fd, cl_view s' !! fd = if bool_decide (fd ∈ snd <$> l) then None else cl_view s !! fd) /\
    cl_nextConId s' = cl_nextConId s /\ cl_upid s' = cl_upid s /\
    (forall k, cl_connections s' !! k = None \/ cl_connections s' !! k = cl_connections s !! k).
Proof.
  induction l as [|x l IH]; intros s Hwf Hnd Hl.
  { exists s. split_and!; try done. by right. }
  apply Forall_cons in Hl as [Hx Hl]. apply NoDup_cons in Hnd as [Hxl Hnd]. cbn [forM].
  destruct (delete_stale_ok s x Hwf Hx) as (s1 & H1 & Hwf1 & Hv1 & Hn1 & Hu1 & Hc1).
  rewrite (bind_ok _ _ _ _ _ H1). destruct (IH s1 Hwf1 Hnd) as (s2 & H2 & Hwf2 & Hv2 & Hn2 & Hu2 & Hc2).
  { eapply Forall_impl; [eapply Forall_and; split; [exact Hl|apply Forall_forall; intros y Hy; exact Hy]|].
    intros y [(id & Hy & Hk) Hyl]. exists id. split; [|done]. rewrite Hv1, lookup_delete_ne; [done|].
    intros E. apply Hxl. rewrite E. apply list_elem_of_fmap. by exists y. }
  exists s2. split_and!; [done..| |congruence|congruence|].
  - intros fd. rewrite Hv2, Hv1. cbn [fmap list_fmap].
    destruct (decide (fd ∈ snd <$> l)) as [Hi|Hi].
    + rewrite !bool_decide_eq_true_2; [done|by right|done].
    + rewrite bool_decide_eq_false_2 by done. destruct (decide (fd = snd x)) as [->|Hne].
      * rewrite lookup_delete_eq, bool_decide_eq_true_2; [done|left].
      * rewrite lookup_delete_ne, bool_decide_eq_false_2; [done| |done]. intros [?|?]%elem_of_cons; done.
  - intros k. destruct (Hc2 k) as [?|E]; [by left|]. rewrite E. apply Hc1.
Qed.

Lemma deleteStale_ok iterC iterF isBadFd s :
  (forall m, iterC m ≡ₚ map_to_list m) -> (forall m, iterF m ≡ₚ map_to_list m) -> cl_wf s ->
  exists s', deleteStaleConnections iterC iterF isBadFd s = Ok tt s' /\ cl_wf s' /\
    cl_view s' = filter (fun x => isBadFd (fst x) = false) (cl_view s) /\
    cl_nextConId s' = cl_nextConId s /\ cl_upid s' = cl_upid s /\
    (forall k, cl_connections s' !! k = None \/ cl_connections s' !! k = cl_connections s !! k).
Proof.
  intros HC HF Hwf. unfold deleteStaleConnections. erewrite (bind_ok (gets _)) by reflexivity.
  destruct (stale_of_connections_ok isBadFd s Hwf (iterC (cl_connections s))) with (acc := ([] : list Z, [] : list (ConnectionIdentifier * Z)))
    as (acc1 & E1 & Hacc1).
  { intros [k [i p]] Hx. rewrite HC in Hx. apply elem_of_map_to_list in Hx. cbn. split; [done|by eapply wf_key]. }
  { unfold acc_ok. split_and!; [done|constructor|constructor]. }
  rewrite (bind_ok _ _ _ _ _ E1). erewrite (bind_ok (gets _)) by reflexivity.
  destruct (stale_of_fds_ok isBadFd s Hwf (iterF (cl_fdToCon s))) with (acc := acc1) as (acc2 & E2 & Hacc2 & _ & Hall); [|done|].
  { intros [fd p] Hx. rewrite HF in Hx. by apply elem_of_map_to_list in Hx. }
  rewrite (bind_ok _ _ _ _ _ E2). destruct Hacc2 as (Hin & Hnd & Hleg).
  destruct (delete_stales_ok (snd acc2) s Hwf Hnd) as (s' & H1 & H2 & H3 & H4 & H5 & H6).
  { eapply Forall_impl; [exact Hleg|]. by intros x [_ ?]. }
  exists s'. split_and!; [done|done| |done..].
  apply map_eq. intros fd. rewrite H3, map_lookup_filter.
  destruct (decide (fd ∈ snd <$> snd acc2)) as [Hi|Hi].
  - rewrite bool_decide_eq_true_2 by done. apply list_elem_of_fmap in Hi as (x & -> & Hx).
    rewrite Forall_forall in Hleg. destruct (Hleg x Hx) as [Hbad _].
    destruct (cl_view s !! snd x); [|done]. cbn. rewrite option_guard_False; [done|]. cbn. congruence.
  - rewrite bool_decide_eq_false_2 by done. destruct (cl_view s !! fd) as [id|] eqn:Ev; [|done]. cbn.
    rewrite option_guard_True; [done|]. cbn. destruct (isBadFd fd) eqn:Eb; [|done]. exfalso. apply Hi, Hin.
    rewrite cl_view_lookup in Ev. destruct (cl_fdToCon s !! fd) as [p|] eqn:Ep; [|done].
    apply (Hall (fd, p)); [|done]. rewrite HF. by apply elem_of_map_to_list.
Qed.

(** *** Sequences of operations *)

(** A new connection on a descriptor, a close, a dup2, a search for stale descriptors
    when the descriptors in [bad] are closed in the kernel. *)
Inductive cl_op : Type :=
| OpOpen (fd t : Z) (sub : Sub) | OpClose (fd : Z) | OpDup (oldfd newfd : Z) | OpStale (bad : Z -> bool).

Definition cl_init (u : UniquePid) : ConnectionList Sub := mk_ConnectionList ∅ ∅ ∅ 0 CONNECTION_ID_START u.

Section runs.
Context (iterC : gmap ConKey (ConnectionIdentifier * nat) -> list (ConKey * (ConnectionIdentifier * nat))).
Context (iterF : gmap Z nat -> list (Z * nat)).

Definition run_op (op : cl_op) : M (ConnectionList Sub) unit :=
  match op with
  | OpOpen fd t sub => p ← Connection_new t sub; add fd p
  | OpClose fd => processClose fd
  | OpDup a b => processDup a b
  | OpStale bad => deleteStaleConnections iterC iterF bad
  end.

(** The abstract table with the next identifier. *)
Definition abs_op (u : UniquePid) (a : gmap Z ConnectionIdentifier * Z) (op : cl_op)
    : gmap Z ConnectionIdentifier * Z :=
  match op with
  | OpOpen fd _ _ => (<[fd := mk_ConnectionIdentifier u (snd a)]> (fst a), snd a + 1)
  | OpClose fd => (delete fd (fst a), snd a)
  | OpDup x y => (abs_dup x y (fst a), snd a)
  | OpStale bad => (filter (fun kv => bad (fst kv) = false) (fst a), snd a)
  end.

Definition cl_inv s : Prop :=
  cl_wf s /\ forall k i p, cl_connections s !! k = Some (i, p) -> snd k < cl_nextConId s.

Lemma cl_inv_mono s s' : cl_inv s -> cl_wf s' -> cl_nextConId s <= cl_nextConId s' ->
  (forall k, cl_connections s' !! k = None \/ cl_connections s' !! k = cl_connections s !! k \/ snd k < cl_nextConId s') ->
  cl_inv s'.
Proof.
  intros [_ Hid] Hwf Hn Hc. split; [done|]. intros k i p Hk. destruct (Hc k) as [?|[E|?]]; [congruence| |done].
  rewrite E in Hk. specialize (Hid _ _ _ Hk). lia.
Qed.

(** A new object: nothing in the tables points to it. *)
Lemma Connection_new_ok s t sub : cl_inv s -> in_int32 (cl_nextConId s + 1) = true ->
  exists s' p c, Connection_new t sub s = Ok p s' /\ cl_wf s' /\ cl_view s' = cl_view s /\
    cl_heap s' !! p = Some c /\ con_id c = mk_ConnectionIdentifier (cl_upid s) (cl_nextConId s) /\ con_fds c = [] /\
    cl_connections s' = cl_connections s /\ cl_connections s' !! ckey (con_id c) = None /\
    cl_nextConId s' = cl_nextConId s + 1 /\ cl_upid s' = cl_upid s.
Proof.
  intros [Hwf Hid] Hn. set (p := fresh (dom (cl_heap s))).
  assert (Hp : cl_heap s !! p = None) by (apply not_elem_of_dom, is_fresh).
  set (id := mk_ConnectionIdentifier (cl_upid s) (cl_nextConId s)).
  set (c := mk_Connection id t (-1) (-1) (-1) false [] sub).
  set (s' := s <| cl_nextConId := cl_nextConId s + 1 |> <| cl_heap ::= <[p := c]> |>).
  assert (Hh : forall q c', cl_heap s !! q = Some c' -> cl_heap s' !! q = Some c').
  { intros q c' Hq. unfold s'. rsimpl. rsimpl. rewrite lookup_insert_ne; [done|congruence]. }
  exists s', p, c. split_and!; try done.
  - unfold Connection_new, ci_create. erewrite bind_ok; [|erewrite bind_ok by reflexivity; rewrite Hn; reflexivity].
    reflexivity.
  - split.
    + intros fd q Hq. destruct (wf_fd s Hwf _ _ Hq) as (c' & i & Hc' & ? & ?). exists c', i. split_and!; [by apply Hh|done..].
    + intros k i q Hk. destruct (wf_con s Hwf _ _ _ Hk) as (c' & Hc' & ?). exists c'. split; [by apply Hh|done].
    + intros k i q Hk. by eapply (wf_key s Hwf).
  - apply map_eq. intros fd. rewrite !cl_view_lookup. change (cl_fdToCon s') with (cl_fdToCon s).
    destruct (cl_fdToCon s !! fd) as [q|] eqn:Eq; [|done]. cbn.
    destruct (wf_fd s Hwf _ _ Eq) as (c' & i & Hc' & _). by rewrite Hc', (Hh _ _ Hc').
  - unfold s'. rsimpl. apply lookup_insert_eq.
  - change (cl_connections s') with (cl_connections s).
    destruct (cl_connections s !! ckey (con_id c)) as [[i q]|] eqn:E; [|done].
    specialize (Hid _ _ _ E). cbn in Hid. lia.
Qed.

Lemma run_op_ok s op : (forall m, iterC m ≡ₚ map_to_list m) -> (forall m, iterF m ≡ₚ map_to_list m) ->
  cl_inv s -> in_int32 (cl_nextConId s + 1) = true ->
  exists s', run_op op s = Ok tt s' /\ cl_inv s' /\ (cl_view s', cl_nextConId s') = abs_op (cl_upid s) (cl_view s, cl_nextConId s) op /\
    cl_upid s' = cl_upid s.
Proof.
  intros HC HF Hinv Hn. pose proof Hinv as [Hwf Hid]. destruct op as [fd t sub|fd|a b|bad]; cbn [run_op abs_op fst snd].
  - destruct (Connection_new_ok s t sub Hinv Hn) as (s1 & p & c & E1 & Hwf1 & Hv1 & Hp & Hcid & Hfds & Hcs & Hnone & Hn1 & Hu1).
    rewrite (bind_ok _ _ _ _ _ E1).
    destruct (add_ok s1 fd p c (con_id c) Hwf1 Hp) as (s2 & E2 & Hwf2 & Hv2 & Hn2 & Hu2 & Hc2); [by right|].
    exists s2. split_and!; [done| |by rewrite Hv2, Hv1, Hn2, Hn1, Hcid|congruence].
    apply (cl_inv_mono s); [done..|lia|]. intros k. destruct (Hc2 k) as [?|[?| ->]]; [by left|right; left; by rewrite <- Hcs|].
    right; right. rewrite Hcid. cbn. lia.
  - destruct (processClose_ok s fd Hwf) as (s' & E & Hwf' & Hv & Hn' & Hu & Hc). exists s'.
    split_and!; [done| |by rewrite Hv, Hn'|done]. apply (cl_inv_mono s); [done..|lia|]. intros k. destruct (Hc k); tauto.
  - destruct (processDup_ok s a b Hwf) as (s' & E & Hwf' & Hv & Hn' & Hu & Hc). exists s'.
    split_and!; [done| |by rewrite Hv, Hn'|done]. apply (cl_inv_mono s); [done..|lia|]. intros k. destruct (Hc k); tauto.
  - destruct (deleteStale_ok iterC iterF bad s HC HF Hwf) as (s' & E & Hwf' & Hv & Hn' & Hu & Hc). exists s'.
    split_and!; [done| |by rewrite Hv, Hn'|done]. apply (cl_inv_mono s); [done..|lia|]. intros k. destruct (Hc k); tauto.
Qed.

(** The objects in the table are those a descriptor names. *)
Lemma cl_live s : cl_wf s -> forall k, is_Some (cl_connections s !! k) <->
  exists fd id, cl_view s !! fd = Some id /\ ckey id = k.
Proof.
  intros Hwf k. split.
  - intros [[i p] Hk]. destruct (wf_con s Hwf _ _ _ Hk) as (c & Hp & Hck & Hne & _ & Hall).
    destruct (con_fds c) as [|fd l] eqn:E; [done|]. exists fd, (con_id c). split; [|done].
    rewrite cl_view_lookup, (Hall fd (list_elem_of_here _ _)). cbn. by rewrite Hp.
  - intros (fd & id & Hv & <-). rewrite cl_view_lookup in Hv. destruct (cl_fdToCon s !! fd) as [p|] eqn:E; [|done].
    cbn in Hv. destruct (wf_fd s Hwf _ _ E) as (c & i & Hp & _ & Hk). rewrite Hp in Hv. injection Hv as <-. by exists (i, p).
Qed.
End runs.
End facts.
Arguments cl_op : clear implicits.

Lemma run_ops_ok {Sub} iterC iterF u :
  (forall m, iterC m ≡ₚ map_to_list m) -> (forall m, iterF m ≡ₚ map_to_list m) ->
  forall (ops : list (cl_op Sub)) s, CONNECTION_ID_START <= cl_nextConId s ->
  cl_nextConId s + Z.of_nat (length ops) < 2 ^ 31 -> cl_inv s -> cl_upid s = u ->
  exists s', forM ops (run_op iterC iterF) s = Ok tt s' /\ cl_inv s' /\
    (cl_view s', cl_nextConId s') = foldl (abs_op u) (cl_view s, cl_nextConId s) ops.
Proof.
  intros HC HF. induction ops as [|op ops IH]; intros s Hlo Hn Hinv Hu; [by exists s|]. cbn [length] in Hn.
  destruct (run_op_ok iterC iterF s op HC HF Hinv) as (s1 & E1 & Hinv1 & Ha1 & Hu1).
  { unfold in_int32, CONNECTION_ID_START in *. apply andb_true_intro. split; apply Z.leb_le; lia. }
  assert (Hstep : cl_nextConId s <= cl_nextConId s1 <= cl_nextConId s + 1).
  { apply (f_equal snd) in Ha1. cbn [snd] in Ha1. rewrite Ha1. destruct op; cbn; lia. }
  destruct (IH s1) as (s2 & E2 & Hinv2 & Ha2); [lia|lia|done|congruence|].
  exists s2. cbn [forM foldl]. rewrite (bind_ok _ _ _ _ _ E1). split_and!; [done..|].
  rewrite Ha2, Ha1, Hu. done.
Qed.

Lemma cl_inv_init {Sub} u : @cl_inv Sub (cl_init u).
Proof. split; [split|]; intros *; unfold cl_init; cbn; by rewrite lookup_empty. Qed.

(** C19: The two tables with their shared objects implement one table from descriptors to
    connections.  Over any sequence of new connections, closes, dup2s and searches for
    stale descriptors no object is used after it was deleted and no ASSERT fails; the
    descriptors name exactly the connections that the abstract operations give them;
    and an object is kept exactly while a descriptor names it. *)
Theorem conn_list_refines_table {Sub} iterC iterF u (ops : list (cl_op Sub)) :
  (forall m, iterC m ≡ₚ map_to_list m) -> (forall m, iterF m ≡ₚ map_to_list m) ->
  CONNECTION_ID_START + Z.of_nat (length ops) < 2 ^ 31 ->
  exists s, forM ops (run_op iterC iterF) (cl_init u) = Ok tt s /\
    (cl_view s, cl_nextConId s) = foldl (abs_op u) (∅, CONNECTION_ID_START) ops /\ cl_wf s /\
    (forall k, is_Some (cl_connections s !! k) <-> exists fd id, cl_view s !! fd = Some id /\ ckey id = k).
Proof.
  intros HC HF Hlen.
  destruct (run_ops_ok iterC iterF u HC HF ops (cl_init u)) as (s & E & [Hwf _] & Ha); [done|done|apply cl_inv_init|done|].
  exists s. split_and!; [done|exact Ha|done|by apply cl_live].
Qed.

Definition example_ops : list (cl_op unit) :=
  [OpOpen 3 0x20000 tt; OpOpen 4 0x10000 tt; OpDup 3 7; OpDup 4 3; OpClose 4; OpStale (fun fd => fd =? 7); OpOpen 3 0 tt].

Lemma conn_list_refines_table_witness : exists s,
  forM example_ops (run_op map_to_list map_to_list) (cl_init nullProcess) = Ok tt s /\
  (cl_view s, cl_nextConId s) = foldl (abs_op nullProcess) (∅, CONNECTION_ID_START) example_ops.
Proof.
  destruct (conn_list_refines_table map_to_list map_to_list nullProcess example_ops) as (s & H1 & H2 & _).
  - intros m. apply Permutation_refl.
  - intros m. apply Permutation_refl.
  - reflexivity.
  - exists s. exact (conj H1 H2).
Defined.
