(* ===== verification/ConnSerial.v ===== *)
(** * Connections across exec

    [ConnectionList::serialize] (src/plugin/connectionlist.cpp), [Connection::serialize]
    (src/plugin/connection.cpp), [ConnectionIdentifier::serialize], and the derived
    classes of the socket and file plugins with their [serializeSubClass]
    (src/plugin/socket/socketconnection.cpp, src/plugin/file/fileconnection.cpp).

    Before an exec the list of connections is written to a file; the new program image
    reads it into an empty list.  A connection is created there by
    [createDummyConnection], whose fields are not initialised: [dummy] values of the
    model are arbitrary. *)

From Stdlib Require Import ZArith Lia Ascii.
From stdpp Require Import base gmap strings numbers list.
From S2P Require Import Prelude CText Identity SharedArea VirtualIds Serialize PidFiles ConnList.
Open Scope Z_scope.

(** ** Types of connections *)

Definition TCP : Z := 0x10000.
Definition RAW : Z := 0x11000.
Definition PTY : Z := 0x20000.
Definition FILE : Z := 0x21000.
Definition STDIO : Z := 0x22000.
Definition FIFO : Z := 0x24000.
Definition EPOLL : Z := 0x30000.
Definition EVENTFD : Z := 0x31000.
Definition SIGNALFD : Z := 0x32000.
Definition INOTIFY : Z := 0x34000.
Definition POSIXMQ : Z := 0x40000.
Definition TYPEMASK : Z :=
  foldl Z.lor 0 [TCP; RAW; PTY; FILE; STDIO; FIFO; EPOLL; EVENTFD; SIGNALFD; INOTIFY; POSIXMQ].
Definition conType {Sub} (c : Connection Sub) : Z := Z.land (con_type c) TYPEMASK.

(** ** The derived classes *)

(** [SocketConnection]; [_bindAddr] is a [sockaddr_storage] of 128 bytes. *)
Record SocketFields : Type := mk_SocketFields {
  so_domain : Z; so_type : Z; so_protocol : Z;            (* int64_t *)
  so_peerType : Z;                                        (* uint32_t *)
  so_listenBacklog : Z;                                   (* int32_t *)
  so_bindAddrlen : Z;                                     (* socklen_t *)
  so_bindAddr : string;
  so_remotePeerId : ConnectionIdentifier;
  so_options : gmap Z (gmap Z string)                     (* level, option, value *)
}.
#[export] Instance eta_SocketFields : Settable SocketFields :=
  {| eta_of s := mk_SocketFields (so_domain s) (so_type s) (so_protocol s) (so_peerType s) (so_listenBacklog s)
                   (so_bindAddrlen s) (so_bindAddr s) (so_remotePeerId s) (so_options s) |}.

(** [FileConnection]. *)
Record FileFields : Type := mk_FileFields {
  fi_path : string; fi_savedFilePath : string; fi_rel_path : string; fi_ckptFilesDir : string;
  fi_ckpted_file : Z; fi_allow_overwrite : Z; fi_fileAlreadyExists : Z; fi_rmtype : Z;   (* int32_t *)
  fi_mode : Z; fi_offset : Z;                                                            (* int64_t *)
  fi_st_dev : Z; fi_st_ino : Z;                                                          (* uint64_t *)
  fi_st_size : Z                                                                         (* int64_t *)
}.
#[export] Instance eta_FileFields : Settable FileFields :=
  {| eta_of f := mk_FileFields (fi_path f) (fi_savedFilePath f) (fi_rel_path f) (fi_ckptFilesDir f)
       (fi_ckpted_file f) (fi_allow_overwrite f) (fi_fileAlreadyExists f) (fi_rmtype f) (fi_mode f) (fi_offset f)
       (fi_st_dev f) (fi_st_ino f) (fi_st_size f) |}.

(** [FifoConnection]. *)
Record FifoFields : Type := mk_FifoFields {
  ff_path : string; ff_rel_path : string; ff_savedRelativePath : string;
  ff_flags : Z; ff_mode : Z;                              (* int64_t *)
  ff_in_data : list Z                                     (* vector<char> *)
}.
#[export] Instance eta_FifoFields : Settable FifoFields :=
  {| eta_of f := mk_FifoFields (ff_path f) (ff_rel_path f) (ff_savedRelativePath f) (ff_flags f) (ff_mode f) (ff_in_data f) |}.

(** [PosixMQConnection]; [_attr] is a [struct mq_attr] of 64 bytes. *)
Record MQFields : Type := mk_MQFields { mq_name : string; mq_oflag : Z; mq_mode : Z; mq_attr : string }.
#[export] Instance eta_MQFields : Settable MQFields :=
  {| eta_of f := mk_MQFields (mq_name f) (mq_oflag f) (mq_mode f) (mq_attr f) |}.

Inductive Derived : Type :=
| TcpConnection (s : SocketFields) | RawSocketConnection (s : SocketFields)
| FileConnection (f : FileFields) | FifoConnection (f : FifoFields) | StdioConnection
| PosixMQConnection (f : MQFields).

(** ** Raw representations *)

Definition ci_raw (i : ConnectionIdentifier) : string := up_raw (ci_upid i) +:+ le_bytes 8 (ci_id i).
Definition ci_of_raw (b : string) : ConnectionIdentifier :=
  mk_ConnectionIdentifier (up_of_raw (str_take 24 b)) (wrap_s 64 (le_val (str_drop 24 b))).
Definition serialize_ci : ConnectionIdentifier -> M Stream ConnectionIdentifier := serialize_raw ci_raw ci_of_raw.

(** An object of [n] bytes whose content is not interpreted. *)
Definition bytes_raw (n : nat) (b : string) : string := str_resize n b.
Definition serialize_bytes (n : nat) : string -> M Stream string := serialize_raw (bytes_raw n) id.

(** ** serializeSubClass *)

Section derived.
(** The orders in which the maps of the socket options are walked. *)
Context (iterL : gmap Z (gmap Z string) -> list (Z * gmap Z string)) (iterO : gmap Z string -> list (Z * string)).

(** [readOrWrite(buffer.data(), bufLen)]. *)
Definition write_option (kv : Z * string) : M Stream unit :=
  ASSERT_POINT "Opt";;
  serialize_int 8 (fst kv);;
  serialize_int 8 (Z.of_nat (String.length (snd kv)));;
  readOrWrite (snd kv);;
  mret tt.

Definition write_level (kv : Z * gmap Z string) : M Stream unit :=
  ASSERT_POINT "Lvl";;
  serialize_int 8 (fst kv);;
  serialize_uint 8 (Z.of_nat (size (snd kv)));;
  forM (iterO (snd kv)) write_option.

(** [_sockOptions[lvlVal][optType] = buffer]. *)
Definition set_option (lvl opt : Z) (buf : string) (m : gmap Z (gmap Z string)) : gmap Z (gmap Z string) :=
  <[lvl := <[opt := buf]> (default ∅ (m !! lvl))]> m.

Fixpoint read_options (n : nat) (lvl : Z) (m : gmap Z (gmap Z string)) : M Stream (gmap Z (gmap Z string)) :=
  match n with
  | O => mret m
  | S n' =>
      ASSERT_POINT "Opt";;
      optType ← serialize_int 8 (-1);
      bufLen ← serialize_int 8 (-1);
      assertM (0 <=? bufLen) "invalid socket option buffer length";;
      buf ← readOrWrite (str_resize (Z.to_nat bufLen) EmptyString);
      read_options n' lvl (set_option lvl optType buf m)
  end.

Fixpoint read_levels (n : nat) (m : gmap Z (gmap Z string)) : M Stream (gmap Z (gmap Z string)) :=
  match n with
  | O => mret m
  | S n' =>
      ASSERT_POINT "Lvl";;
      lvlVal ← serialize_int 8 (-1);
      numOpts ← serialize_int 8 0;
      m ← read_options (Z.to_nat numOpts) lvlVal m;
      read_levels n' m
  end.

(** [SocketConnection::serialize]. *)
Definition socket_serialize (s : SocketFields) : M Stream SocketFields :=
  ASSERT_POINT "SocketConnection";;
  domain ← serialize_int 8 (so_domain s);
  type ← serialize_int 8 (so_type s);
  protocol ← serialize_int 8 (so_protocol s);
  peerType ← serialize_uint 4 (so_peerType s);
  ASSERT_POINT "SocketOptions:";;
  serialize_uint 8 (Z.of_nat (size (so_options s)));;
  w ← isWriter;
  opts ← (if w : bool then
            serialize_uint 8 (Z.of_nat (size (so_options s)));;
            forM (iterL (so_options s)) write_level;;
            mret (so_options s)
          else
            numLvl ← serialize_uint 8 0;
            read_levels (Z.to_nat numLvl) (so_options s));
  ASSERT_POINT "EndSockOpts";;
  mret (mk_SocketFields domain type protocol peerType (so_listenBacklog s) (so_bindAddrlen s) (so_bindAddr s)
          (so_remotePeerId s) opts).

(** [TcpConnection::serializeSubClass]. *)
Definition tcp_serialize (s : SocketFields) : M Stream SocketFields :=
  ASSERT_POINT "TcpConnection";;
  backlog ← serialize_int 4 (so_listenBacklog s);
  len ← serialize_uint 4 (so_bindAddrlen s);
  addr ← serialize_bytes 128 (so_bindAddr s);
  peer ← serialize_ci (so_remotePeerId s);
  socket_serialize (s <| so_listenBacklog := backlog |> <| so_bindAddrlen := len |> <| so_bindAddr := addr |>
                      <| so_remotePeerId := peer |>).

Definition raw_serialize (s : SocketFields) : M Stream SocketFields :=
  ASSERT_POINT "RawSocketConnection";;
  socket_serialize s.

Definition file_serialize (f : FileFields) : M Stream FileFields :=
  ASSERT_POINT "FileConnection";;
  path ← serialize_string (fi_path f);
  rel ← serialize_string (fi_rel_path f);
  mode ← serialize_int 8 (fi_mode f);
  offset ← serialize_int 8 (fi_offset f);
  dev ← serialize_uint 8 (fi_st_dev f);
  ino ← serialize_uint 8 (fi_st_ino f);
  size ← serialize_int 8 (fi_st_size f);
  ckpted ← serialize_int 4 (fi_ckpted_file f);
  rmtype ← serialize_int 4 (fi_rmtype f);
  mret (mk_FileFields path (fi_savedFilePath f) rel (fi_ckptFilesDir f) ckpted (fi_allow_overwrite f)
          (fi_fileAlreadyExists f) rmtype mode offset dev ino size).

Definition fifo_serialize (f : FifoFields) : M Stream FifoFields :=
  ASSERT_POINT "FifoConnection";;
  path ← serialize_string (ff_path f);
  rel ← serialize_string (ff_rel_path f);
  saved ← serialize_string (ff_savedRelativePath f);
  mode ← serialize_int 8 (ff_mode f);
  data ← serialize_vector 0 (serialize_int 1) (ff_in_data f);
  mret (mk_FifoFields path rel saved (ff_flags f) mode data).

Definition mq_serialize (f : MQFields) : M Stream MQFields :=
  ASSERT_POINT "PosixMQConnection";;
  name ← serialize_string (mq_name f);
  oflag ← serialize_int 8 (mq_oflag f);
  mode ← serialize_int 8 (mq_mode f);
  attr ← serialize_bytes 64 (mq_attr f);
  mret (mk_MQFields name oflag mode attr).

(** The virtual method; [Connection::serializeSubClass] does nothing. *)
Definition serializeSubClass (d : Derived) : M Stream Derived :=
  match d with
  | TcpConnection s => s ← tcp_serialize s; mret (TcpConnection s)
  | RawSocketConnection s => s ← raw_serialize s; mret (RawSocketConnection s)
  | FileConnection f => f ← file_serialize f; mret (FileConnection f)
  | FifoConnection f => f ← fifo_serialize f; mret (FifoConnection f)
  | StdioConnection => mret StdioConnection
  | PosixMQConnection f => f ← mq_serialize f; mret (PosixMQConnection f)
  end.

(** [Connection::serialize]. *)
Definition Connection_serialize (c : Connection Derived) : M Stream (Connection Derived) :=
  ASSERT_POINT "Connection";;
  id ← serialize_ci (con_id c);
  type ← serialize_uint 4 (con_type c);
  flags ← serialize_int 8 (con_fcntlFlags c);
  owner ← serialize_int 8 (con_fcntlOwner c);
  signal ← serialize_int 8 (con_fcntlSignal c);
  fds ← serialize_vector 0 (serialize_int 4) (con_fds c);
  d ← serializeSubClass (con_sub c);
  mret (mk_Connection id type flags owner signal (con_hasLock c) fds d).

(** ** The list *)

(** [ConnectionIdentifier::serialize], on the static [_nextConId]. *)
Definition nextConId_serialize (n : Z) : M Stream Z :=
  ASSERT_POINT "ConnectionIdentifier:";;
  n ← serialize_int 4 n;
  assertM (CONNECTION_ID_START <=? n) "invalid next connection id";;
  mret n.

(** [createDummyConnection] of [SocketConnList] and [FileConnList]; what [new] leaves
    in the fields is the argument. *)
Record Dummies : Type := mk_Dummies {
  du_con : Connection Derived; du_sock : SocketFields; du_file : FileFields; du_fifo : FifoFields;
  du_key : ConnectionIdentifier
}.
Context (du : Dummies).

Definition socket_createDummyConnection (type : Z) : option Derived :=
  if type =? TCP then Some (TcpConnection ((du_sock du) <| so_options := ∅ |>))
  else if type =? RAW then Some (RawSocketConnection ((du_sock du) <| so_options := ∅ |>))
  else None.

Definition file_createDummyConnection (type : Z) : option Derived :=
  if type =? FILE then Some (FileConnection ((du_file du) <| fi_mode := 0 |>))
  else if type =? FIFO then Some (FifoConnection ((du_fifo du) <| ff_in_data := [] |>))
  else if type =? STDIO then Some StdioConnection
  else None.

(** The list of the socket plugin or that of the file plugin, and the virtual method. *)
Inductive conn_plugin : Type := SocketConnList | FileConnList.
Definition plugin_createDummyConnection (pl : conn_plugin) : Z -> option Derived :=
  match pl with SocketConnList => socket_createDummyConnection | FileConnList => file_createDummyConnection end.

Context (createDummyConnection : Z -> option Derived).
Context (iterC : gmap ConKey (ConnectionIdentifier * nat) -> list (ConKey * (ConnectionIdentifier * nat))).
Abbreviation X := (M (ConnectionList Derived * Stream)).

Definition on_list {A} (m : M (ConnectionList Derived) A) : X A := zoom fst (fun l s => (l, snd s)) m.
Definition on_stream {A} (m : M Stream A) : X A := zoom snd (fun f s => (fst s, f)) m.

(** One round of the writer's loop. *)
Definition write_connection (x : ConKey * (ConnectionIdentifier * nat)) : X unit :=
  let '(key, p) := snd x in
  con ← on_list (deref p);
  on_stream (ASSERT_POINT "[StartConnection]");;
  on_stream (serialize_ci key);;
  on_stream (serialize_uint 4 (conType con));;
  con ← on_stream (Connection_serialize con);
  on_list (store p con);;
  on_stream (ASSERT_POINT "[EndConnection]").

(** [_connections[key] = con] and [_fdToCon[fds[i]] = con]; an entry of the map that
    exists keeps the key it has. *)
Definition install (key : ConnectionIdentifier) (con : Connection Derived) : M (ConnectionList Derived) unit :=
  h ← gets cl_heap;
  let p := fresh (dom h) in
  modify (fun s => s <| cl_heap ::= <[p := con]> |>);;
  modify (fun s => s <| cl_connections ::= fun m =>
            <[ckey key := (default key (fst <$> m !! ckey key), p)]> m |>);;
  modify (fun s => s <| cl_fdToCon ::= fun m => foldl (fun m fd => <[fd := p]> m) m (con_fds con) |>).

(** One round of the reader's loop. *)
Definition read_head : M Stream (ConnectionIdentifier * Connection Derived) :=
  ASSERT_POINT "[StartConnection]";;
  key ← serialize_ci (du_key du);
  type ← serialize_int 4 (-1);
  d ← optM (AssertFailed "failed to create dummy connection") (createDummyConnection type);
  con ← Connection_serialize ((du_con du) <| con_fds := [] |> <| con_sub := d |>);
  mret (key, con).

Fixpoint read_connections (n : nat) : X unit :=
  match n with
  | O => mret tt
  | S n' =>
      kc ← on_stream read_head;
      on_list (install (fst kc) (snd kc));;
      on_stream (ASSERT_POINT "[EndConnection]");;
      read_connections n'
  end.

Definition ConnectionList_serialize : X unit :=
  on_stream (ASSERT_POINT "dmtcp-serialized-connection-table!v0.07");;
  on_stream (ASSERT_POINT "ConnectionIdentifier:");;
  n ← on_list (gets cl_nextConId);
  n ← on_stream (nextConId_serialize n);
  on_list (modify (fun s => s <| cl_nextConId := n |>));;
  on_stream (ASSERT_POINT "ConnectionList:");;
  cs ← on_list (gets cl_connections);
  numCons ← on_stream (serialize_uint 4 (Z.of_nat (size cs)));
  w ← on_stream isWriter;
  (if w : bool then forM (iterC cs) write_connection else read_connections (Z.to_nat numCons));;
  on_stream (ASSERT_POINT "EOF").
End derived.

(** ** Facts *)

Definition ci_ok (i : ConnectionIdentifier) : Prop := up_ok (ci_upid i) /\ in_sint 8 (ci_id i).

Lemma up_raw_length u : String.length (up_raw u) = 24%nat.
Proof. unfold up_raw. by rewrite !str_app_length, !le_bytes_length. Qed.

Lemma up_of_raw_raw u : up_ok u -> up_of_raw (up_raw u) = u.
Proof.
  intros Hu. set (s := mk_Stream false EmptyString 0 24 0).
  assert (W : writing (String.length (up_raw u)) s) by (rewrite up_raw_length; repeat split; cbn; lia).
  pose proof (wire_write u Hu s W) as E. unfold serialize_upid, serialize_raw in E.
  rewrite (bind_ok _ _ _ _ _ (readOrWrite_emits (up_raw u) s W)) in E. by injection E.
Qed.

Lemma ci_raw_length i : String.length (ci_raw i) = 32%nat.
Proof. unfold ci_raw. by rewrite str_app_length, up_raw_length, le_bytes_length. Qed.

Lemma ci_of_raw_raw i : ci_ok i -> ci_of_raw (ci_raw i) = i.
Proof.
  destruct i as [u n]. intros [Hu Hn]. unfold ci_of_raw, ci_raw. cbn [ci_upid ci_id] in *.
  rewrite <- (up_raw_length u) at 1 2. rewrite str_take_app, str_drop_app, up_of_raw_raw by done.
  rewrite le_val_bytes. change (8 * Z.of_nat 8) with 64. rewrite wrap_s_mod by (try apply Hn; lia). done.
Qed.

#[export] Instance Wire_ci : Wire serialize_ci ci_ok ci_raw.
Proof. apply (Wire_raw _ _ _ 32); [exact ci_raw_length|exact ci_of_raw_raw]. Qed.

#[export] Instance Wire_bytes n : Wire (serialize_bytes n) (fun b => String.length b = n) (bytes_raw n).
Proof.
  apply (Wire_raw _ _ _ n).
  - intros b. apply str_resize_length.
  - intros b <-. apply str_resize_same.
Qed.

(** A field written by its own operation. *)
Ltac wire_field := first [by apply wire_write | by (eapply wire_read; done)].

Section derived_facts.
Context (iterL : gmap Z (gmap Z string) -> list (Z * gmap Z string)) (iterO : gmap Z string -> list (Z * string)).
Hypothesis iterL_perm : forall m, iterL m ≡ₚ map_to_list m.
Hypothesis iterO_perm : forall m, iterO m ≡ₚ map_to_list m.

(** *** Socket options *)

Definition enc_option (kv : Z * string) : string :=
  mark "Opt" +:+ le_bytes 8 (fst kv) +:+ le_bytes 8 (Z.of_nat (String.length (snd kv))) +:+ snd kv.
Definition enc_list {A} (enc : A -> string) (l : list A) : string := foldr (fun x acc => enc x +:+ acc) EmptyString l.
Definition enc_level (kv : Z * gmap Z string) : string :=
  mark "Lvl" +:+ le_bytes 8 (fst kv) +:+ le_bytes 8 (Z.of_nat (size (snd kv))) +:+ enc_list enc_option (iterO (snd kv)).
#[local] Hint Unfold enc_option enc_level enc_list : wire.

Definition option_ok (kv : Z * string) : Prop := in_sint 8 (fst kv) /\ Z.of_nat (String.length (snd kv)) < 2 ^ 63.
Definition level_ok (kv : Z * gmap Z string) : Prop :=
  in_sint 8 (fst kv) /\ Z.of_nat (size (snd kv)) < 2 ^ 63 /\ snd kv <> ∅ /\
  map_Forall (fun o b => option_ok (o, b)) (snd kv).
Definition options_ok (m : gmap Z (gmap Z string)) : Prop :=
  Z.of_nat (size m) < 2 ^ 64 /\ map_Forall (fun l om => level_ok (l, om)) m.

Lemma nat_sint8 n : Z.of_nat n < 2 ^ 63 -> in_sint 8 (Z.of_nat n).
Proof. intros H. unfold in_sint. change (8 * Z.of_nat 8 - 1) with 63. lia. Qed.

Lemma nat_uint8 n : Z.of_nat n < 2 ^ 64 -> 0 <= Z.of_nat n < 2 ^ (8 * Z.of_nat 8).
Proof. intros H. change (8 * Z.of_nat 8) with 64. lia. Qed.

Lemma forM_emits {A} (f : A -> M Stream unit) enc (ok : A -> Prop) l :
  (forall x, ok x -> emits (f x) tt (enc x)) -> Forall ok l -> emits (forM l f) tt (enc_list enc l).
Proof.
  intros Hf. induction 1 as [|x l Hx _ IH]; cbn [forM]; [apply emits_ret|].
  eapply emits_bind; [by apply Hf|]. exact IH.
Qed.

Lemma walk_Forall {V} (iter : gmap Z V -> list (Z * V)) (P : Z * V -> Prop) m :
  iter m ≡ₚ map_to_list m -> map_Forall (fun k v => P (k, v)) m -> Forall P (iter m).
Proof.
  intros Hp Hm. rewrite Hp. apply Forall_forall. intros [k v] Hkv. apply elem_of_map_to_list in Hkv. by apply (Hm k v).
Qed.

Lemma write_option_emits kv : option_ok kv -> emits (write_option kv) tt (enc_option kv).
Proof.
  destruct kv as [o b]. intros [Ho Hb]. cbn [fst snd] in *. unfold write_option. cbn [fst snd].
  wire_chain (first [by apply (wire_write o) | apply (wire_write (Z.of_nat (String.length b))); by apply nat_sint8]).
Qed.

Lemma write_level_emits kv : level_ok kv -> emits (write_level iterO kv) tt (enc_level kv).
Proof.
  destruct kv as [l om]. intros (Hl & Hn & _ & Hom). cbn [fst snd] in *. unfold write_level. cbn [fst snd].
  wire_chain (first [by apply (wire_write l) | apply (wire_write (Z.of_nat (size om))); apply nat_uint8; lia
    | eapply forM_emits; [apply write_option_emits|apply walk_Forall; [apply iterO_perm|exact Hom]]]).
Qed.

Lemma read_options_accepts lvl os m : Forall option_ok os ->
  accepts (read_options (length os) lvl m) (enc_list enc_option os)
    (foldl (fun m kv => set_option lvl (fst kv) (snd kv) m) m os).
Proof.
  intros H. revert m. induction H as [|[o b] os [Ho Hb] _ IH]; intros m; cbn [length read_options]; [apply accepts_ret|].
  cbn [fst snd] in *.
  eapply accepts_eq.
  { wire_step idtac. wire_step (by apply (wire_read o)).
    wire_step (apply (wire_read (Z.of_nat (String.length b))); by apply nat_sint8).
    destruct (Z.leb_spec 0 (Z.of_nat (String.length b))); [|lia]. wire_step idtac.
    wire_step (apply (readOrWrite_accepts _ b); rewrite str_resize_length; lia). apply IH. }
  wire_eq.
Qed.

Lemma read_levels_accepts ls m : Forall level_ok ls ->
  accepts (read_levels (length ls) m) (enc_list enc_level ls)
    (foldl (fun m kv => foldl (fun m o => set_option (fst kv) (fst o) (snd o) m) m (iterO (snd kv))) m ls).
Proof using iterO_perm.
  intros H. revert m. induction H as [|[l om] ls (Hl & Hn & _ & Hom) _ IH]; intros m; cbn [length read_levels]; [apply accepts_ret|].
  cbn [fst snd] in *.
  assert (Hlen : length (iterO om) = size om) by (rewrite (Permutation_length (iterO_perm om)); apply length_map_to_list).
  eapply accepts_eq.
  { wire_step idtac. wire_step (by apply (wire_read l)).
    wire_step (apply (wire_read (Z.of_nat (size om))); by apply nat_sint8).
    wire_step (rewrite Nat2Z.id, <- Hlen; apply read_options_accepts; apply walk_Forall; [apply iterO_perm|exact Hom]).
    apply IH. }
  wire_eq.
Qed.

(** Setting the options of one level one by one, and all levels. *)
Lemma set_options_level lvl os m : os <> [] ->
  foldl (fun m kv => set_option lvl (fst kv) (snd kv) m) m os =
  <[lvl := insert_all (default ∅ (m !! lvl)) os]> m.
Proof.
  revert m. induction os as [|[o b] os IH]; intros m Hne; [done|]. cbn [foldl fst snd].
  destruct os as [|x os]; [done|]. rewrite IH by done. unfold set_option.
  rewrite lookup_insert_eq, insert_insert_eq. done.
Qed.

Lemma set_options_all m : map_Forall (fun _ om => om <> ∅) m ->
  foldl (fun m kv => foldl (fun m o => set_option (fst kv) (fst o) (snd o) m) m (iterO (snd kv))) ∅ (iterL m) = m.
Proof using iterL_perm iterO_perm.
  intros Hm.
  assert (G : forall ls acc, NoDup (fst <$> ls) -> (forall x, x ∈ ls -> snd x <> ∅ /\ acc !! fst x = None) ->
    foldl (fun m kv => foldl (fun m o => set_option (fst kv) (fst o) (snd o) m) m (iterO (snd kv))) acc ls = insert_all acc ls).
  { induction ls as [|[l om] ls IH]; intros acc Hnd Hls; [done|]. cbn [foldl fst snd].
    apply NoDup_cons in Hnd as [Hl Hnd]. destruct (Hls (l, om) (list_elem_of_here _ _)) as [Hom Hacc]. cbn [fst snd] in *.
    assert (Hne : iterO om <> []).
    { intros E. apply Hom. apply map_to_list_empty_iff. rewrite <- Permutation_nil_r, <- iterO_perm, E. done. }
    rewrite set_options_level, Hacc by done. cbn [default].
    rewrite (insert_all_walk iterO om ∅ (iterO_perm om)), (right_id_L ∅ (∪)). rewrite IH; [done..|].
    intros [l' om'] Hx. destruct (Hls (l', om')) as [? ?]; [by right|]. split; [done|]. cbn in *.
    rewrite lookup_insert_ne; [done|]. intros ->. apply Hl. apply list_elem_of_fmap. by exists (l', om'). }
  rewrite G.
  - rewrite (insert_all_walk iterL m ∅ (iterL_perm m)). by rewrite (right_id_L ∅ (∪)).
  - rewrite iterL_perm. apply NoDup_fst_map_to_list.
  - intros [l om] Hx. rewrite iterL_perm in Hx. apply elem_of_map_to_list in Hx. split; [by apply (Hm l)|done].
Qed.

(** *** The derived classes *)

Definition socket_ok (s : SocketFields) : Prop :=
  in_sint 8 (so_domain s) /\ in_sint 8 (so_type s) /\ in_sint 8 (so_protocol s) /\
  (0 <= so_peerType s < 2 ^ (8 * Z.of_nat 4)) /\ options_ok (so_options s).

Definition enc_socket (s : SocketFields) : string :=
  mark "SocketConnection" +:+ le_bytes 8 (so_domain s) +:+ le_bytes 8 (so_type s) +:+ le_bytes 8 (so_protocol s) +:+
  le_bytes 4 (so_peerType s) +:+ mark "SocketOptions:" +:+ le_bytes 8 (Z.of_nat (size (so_options s))) +:+
  le_bytes 8 (Z.of_nat (size (so_options s))) +:+ enc_list enc_level (iterL (so_options s)) +:+ mark "EndSockOpts".
#[local] Hint Unfold enc_socket : wire.

Lemma isWriter_emits : emits isWriter true EmptyString.
Proof. intros s (Hr & _). rewrite wrote_nil. unfold isWriter, isReader, gets, mbind, M_bind. by rewrite Hr. Qed.
Lemma isWriter_accepts : accepts isWriter EmptyString false.
Proof. intros s k Hr _. rewrite advanced_0. unfold isWriter, isReader, gets, mbind, M_bind. by rewrite Hr. Qed.
#[local] Hint Resolve isWriter_emits isWriter_accepts : dmtcp.

(** The fields a socket gets back; the others are those of the reader's object. *)
Definition socket_restore (z s : SocketFields) : SocketFields :=
  mk_SocketFields (so_domain s) (so_type s) (so_protocol s) (so_peerType s) (so_listenBacklog z) (so_bindAddrlen z)
    (so_bindAddr z) (so_remotePeerId z) (so_options s).

Lemma socket_emits s : socket_ok s -> emits (socket_serialize iterL iterO s) s (enc_socket s).
Proof using iterL_perm iterO_perm.
  intros (H1 & H2 & H3 & H4 & [H5 H6]). pose proof (nat_uint8 _ H5) as H7.
  assert (Hl : Forall level_ok (iterL (so_options s))) by (apply walk_Forall; [apply iterL_perm|exact H6]).
  enough (G : emits (socket_serialize iterL iterO s) (socket_restore s s) (enc_socket s)) by (by destruct s).
  unfold socket_serialize. eapply emits_eq.
  { do 8 (wire_step (by apply wire_write)).
    wire_step (wire_step (by apply wire_write); wire_step (eapply forM_emits; [apply write_level_emits|exact Hl]); apply emits_ret).
    wire_step idtac. apply emits_ret. }
  wire_eq.
Qed.

Lemma socket_accepts z s : socket_ok s -> so_options z = ∅ ->
  accepts (socket_serialize iterL iterO z) (enc_socket s) (socket_restore z s).
Proof using iterL_perm iterO_perm.
  intros (H1 & H2 & H3 & H4 & [H5 H6]) Hz. pose proof (nat_uint8 _ H5) as H7.
  assert (Hl : Forall level_ok (iterL (so_options s))) by (apply walk_Forall; [apply iterL_perm|exact H6]).
  assert (Hne : map_Forall (fun _ om => om <> ∅) (so_options s)) by (intros l om E; apply (H6 l om E)).
  assert (Hlen : length (iterL (so_options s)) = size (so_options s))
    by (rewrite (Permutation_length (iterL_perm _)); apply length_map_to_list).
  unfold socket_serialize. rewrite Hz. eapply accepts_eq.
  { wire_step idtac. wire_step (by apply (wire_read (so_domain s))). wire_step (by apply (wire_read (so_type s))).
    wire_step (by apply (wire_read (so_protocol s))). wire_step (by apply (wire_read (so_peerType s))). wire_step idtac.
    wire_step (by apply (wire_read (Z.of_nat (size (so_options s))))). wire_step idtac.
    wire_step (wire_step (by apply (wire_read (Z.of_nat (size (so_options s)))));
      rewrite Nat2Z.id, <- Hlen; apply (read_levels_accepts _ _ Hl)).
    rewrite set_options_all by done. wire_step idtac. apply accepts_ret. }
  wire_eq.
Qed.

Definition tcp_ok (s : SocketFields) : Prop :=
  in_sint 4 (so_listenBacklog s) /\ (0 <= so_bindAddrlen s < 2 ^ (8 * Z.of_nat 4)) /\
  String.length (so_bindAddr s) = 128%nat /\ ci_ok (so_remotePeerId s) /\ socket_ok s.
Definition str32 (s : string) : Prop := fits32 (String.length s).
Definition uint8 (v : Z) : Prop := 0 <= v < 2 ^ (8 * Z.of_nat 8).
Definition file_ok (f : FileFields) : Prop :=
  str32 (fi_path f) /\ str32 (fi_rel_path f) /\ in_sint 8 (fi_mode f) /\ in_sint 8 (fi_offset f) /\
  uint8 (fi_st_dev f) /\ uint8 (fi_st_ino f) /\ in_sint 8 (fi_st_size f) /\ in_sint 4 (fi_ckpted_file f) /\
  in_sint 4 (fi_rmtype f).
Definition fifo_ok (f : FifoFields) : Prop :=
  str32 (ff_path f) /\ str32 (ff_rel_path f) /\ str32 (ff_savedRelativePath f) /\ in_sint 8 (ff_mode f) /\
  (Forall (in_sint 1) (ff_in_data f) /\ fits32 (length (ff_in_data f))).
Definition mq_ok (f : MQFields) : Prop :=
  str32 (mq_name f) /\ in_sint 8 (mq_oflag f) /\ in_sint 8 (mq_mode f) /\ String.length (mq_attr f) = 64%nat.

Definition derived_ok (d : Derived) : Prop :=
  match d with
  | TcpConnection s => tcp_ok s | RawSocketConnection s => socket_ok s | FileConnection f => file_ok f
  | FifoConnection f => fifo_ok f | StdioConnection => True | PosixMQConnection f => mq_ok f
  end.

Definition enc_str (s : string) : string := u32 (String.length s) +:+ s.
Definition enc_derived (d : Derived) : string :=
  match d with
  | TcpConnection s =>
      mark "TcpConnection" +:+ le_bytes 4 (so_listenBacklog s) +:+ le_bytes 4 (so_bindAddrlen s) +:+
      bytes_raw 128 (so_bindAddr s) +:+ ci_raw (so_remotePeerId s) +:+ enc_socket s
  | RawSocketConnection s => mark "RawSocketConnection" +:+ enc_socket s
  | FileConnection f =>
      mark "FileConnection" +:+ enc_str (fi_path f) +:+ enc_str (fi_rel_path f) +:+ le_bytes 8 (fi_mode f) +:+
      le_bytes 8 (fi_offset f) +:+ le_bytes 8 (fi_st_dev f) +:+ le_bytes 8 (fi_st_ino f) +:+ le_bytes 8 (fi_st_size f) +:+
      le_bytes 4 (fi_ckpted_file f) +:+ le_bytes 4 (fi_rmtype f)
  | FifoConnection f =>
      mark "FifoConnection" +:+ enc_str (ff_path f) +:+ enc_str (ff_rel_path f) +:+ enc_str (ff_savedRelativePath f) +:+
      le_bytes 8 (ff_mode f) +:+ enc_vector (le_bytes 1) (ff_in_data f)
  | StdioConnection => EmptyString
  | PosixMQConnection f =>
      mark "PosixMQConnection" +:+ enc_str (mq_name f) +:+ le_bytes 8 (mq_oflag f) +:+ le_bytes 8 (mq_mode f) +:+
      bytes_raw 64 (mq_attr f)
  end.
#[local] Hint Unfold enc_str : wire.

(** What is read into the object [z] of the same class where [d] was written.  A TCP
    socket and a message queue get every field back; the others keep some of [z]. *)
Definition restore (z d : Derived) : option Derived :=
  match z, d with
  | TcpConnection z, TcpConnection s => Some (TcpConnection s)
  | RawSocketConnection z, RawSocketConnection s => Some (RawSocketConnection (socket_restore z s))
  | FileConnection z, FileConnection f =>
      Some (FileConnection (mk_FileFields (fi_path f) (fi_savedFilePath z) (fi_rel_path f) (fi_ckptFilesDir z)
        (fi_ckpted_file f) (fi_allow_overwrite z) (fi_fileAlreadyExists z) (fi_rmtype f) (fi_mode f) (fi_offset f)
        (fi_st_dev f) (fi_st_ino f) (fi_st_size f)))
  | FifoConnection z, FifoConnection f =>
      Some (FifoConnection (mk_FifoFields (ff_path f) (ff_rel_path f) (ff_savedRelativePath f) (ff_flags z) (ff_mode f)
        (ff_in_data f)))
  | StdioConnection, StdioConnection => Some StdioConnection
  | PosixMQConnection z, PosixMQConnection f => Some (PosixMQConnection f)
  | _, _ => None
  end.

(** An object as [createDummyConnection] makes it: no options yet. *)
Definition blank (z : Derived) : Prop :=
  match z with TcpConnection z | RawSocketConnection z => so_options z = ∅ | _ => True end.

Lemma derived_emits d : derived_ok d -> emits (serializeSubClass iterL iterO d) d (enc_derived d).
Proof using iterL_perm iterO_perm.
  destruct d as [s|s|f|f| |f]; cbn [derived_ok serializeSubClass enc_derived].
  - intros (H1 & H2 & H3 & H4 & H5). eapply emits_eq.
    { wire_step (unfold tcp_serialize; do 5 (wire_step (by apply wire_write));
        enough (E : s <| so_listenBacklog := so_listenBacklog s |> <| so_bindAddrlen := so_bindAddrlen s |>
               <| so_bindAddr := so_bindAddr s |> <| so_remotePeerId := so_remotePeerId s |> = s)
          by (rewrite E; by apply socket_emits); by destruct s).
      apply emits_ret. }
    wire_eq.
  - intros Hs. eapply emits_eq.
    { wire_step (unfold raw_serialize; wire_step idtac; by apply socket_emits). apply emits_ret. }
    wire_eq.
  - intros (H1 & H2 & H3 & H4 & H5 & H6 & H7 & H8 & H9). eapply emits_eq.
    { wire_step (unfold file_serialize; do 10 (wire_step (by apply wire_write)); apply emits_ret).
      destruct f. apply emits_ret. }
    wire_eq.
  - intros (H1 & H2 & H3 & H4 & H5). eapply emits_eq.
    { wire_step (unfold fifo_serialize; do 5 (wire_step (by apply wire_write));
        wire_step (by apply (wire_write (ff_in_data f))); apply emits_ret).
      destruct f. apply emits_ret. }
    wire_eq.
  - intros _. apply emits_ret.
  - intros (H1 & H2 & H3 & H4). eapply emits_eq.
    { wire_step (unfold mq_serialize; do 5 (wire_step (by apply wire_write)); apply emits_ret). destruct f. apply emits_ret. }
    wire_eq.
Qed.

Lemma derived_accepts z d r : derived_ok d -> blank z -> restore z d = Some r ->
  accepts (serializeSubClass iterL iterO z) (enc_derived d) r.
Proof using iterL_perm iterO_perm.
  destruct d as [s|s|f|f| |f], z as [z|z|z|z| |z]; cbn [derived_ok serializeSubClass enc_derived restore blank]; try done.
  - intros (H1 & H2 & H3 & H4 & H5) Hz [= <-]. eapply accepts_eq.
    { wire_step (unfold tcp_serialize; wire_step idtac; wire_step (by apply (wire_read (so_listenBacklog s)));
        wire_step (by apply (wire_read (so_bindAddrlen s))); wire_step (by apply (wire_read (so_bindAddr s)));
        wire_step (by apply (wire_read (so_remotePeerId s))); apply socket_accepts; [done|]; by rsimpl; rsimpl; rsimpl; rsimpl).
      destruct s. apply accepts_ret. }
    wire_eq.
  - intros Hs Hz [= <-]. eapply accepts_eq.
    { wire_step (unfold raw_serialize; wire_step idtac; by apply (socket_accepts z s)). apply accepts_ret. }
    wire_eq.
  - intros (H1 & H2 & H3 & H4 & H5 & H6 & H7 & H8 & H9) _ [= <-]. eapply accepts_eq.
    { wire_step (unfold file_serialize; wire_step idtac; wire_step (by apply (wire_read (fi_path f)));
        wire_step (by apply (wire_read (fi_rel_path f))); wire_step (by apply (wire_read (fi_mode f)));
        wire_step (by apply (wire_read (fi_offset f))); wire_step (by apply (wire_read (fi_st_dev f)));
        wire_step (by apply (wire_read (fi_st_ino f))); wire_step (by apply (wire_read (fi_st_size f)));
        wire_step (by apply (wire_read (fi_ckpted_file f))); wire_step (by apply (wire_read (fi_rmtype f))); apply accepts_ret).
      apply accepts_ret. }
    wire_eq.
  - intros (H1 & H2 & H3 & H4 & H5) _ [= <-]. eapply accepts_eq.
    { wire_step (unfold fifo_serialize; wire_step idtac; wire_step (by apply (wire_read (ff_path f)));
        wire_step (by apply (wire_read (ff_rel_path f))); wire_step (by apply (wire_read (ff_savedRelativePath f)));
        wire_step (by apply (wire_read (ff_mode f))); wire_step (by apply (wire_read (ff_in_data f))); apply accepts_ret).
      apply accepts_ret. }
    wire_eq.
  - intros _ _ [= <-]. apply accepts_ret.
  - intros (H1 & H2 & H3 & H4) _ [= <-]. eapply accepts_eq.
    { wire_step (unfold mq_serialize; wire_step idtac; wire_step (by apply (wire_read (mq_name f)));
        wire_step (by apply (wire_read (mq_oflag f))); wire_step (by apply (wire_read (mq_mode f)));
        wire_step (by apply (wire_read (mq_attr f))); apply accepts_ret).
      destruct f. apply accepts_ret. }
    wire_eq.
Qed.

(** *** One connection *)

Definition con_ok (c : Connection Derived) : Prop :=
  ci_ok (con_id c) /\ (0 <= con_type c < 2 ^ (8 * Z.of_nat 4)) /\ in_sint 8 (con_fcntlFlags c) /\
  in_sint 8 (con_fcntlOwner c) /\ in_sint 8 (con_fcntlSignal c) /\
  (Forall (in_sint 4) (con_fds c) /\ fits32 (length (con_fds c))) /\ derived_ok (con_sub c).

Definition enc_con (c : Connection Derived) : string :=
  mark "Connection" +:+ ci_raw (con_id c) +:+ le_bytes 4 (con_type c) +:+ le_bytes 8 (con_fcntlFlags c) +:+
  le_bytes 8 (con_fcntlOwner c) +:+ le_bytes 8 (con_fcntlSignal c) +:+ enc_vector (le_bytes 4) (con_fds c) +:+
  enc_derived (con_sub c).
Definition con_restore (z c : Connection Derived) (d : Derived) : Connection Derived :=
  mk_Connection (con_id c) (con_type c) (con_fcntlFlags c) (con_fcntlOwner c) (con_fcntlSignal c) (con_hasLock z)
    (con_fds c) d.
#[local] Hint Unfold enc_con : wire.

Lemma con_emits c : con_ok c -> emits (Connection_serialize iterL iterO c) c (enc_con c).
Proof using iterL_perm iterO_perm.
  intros (H1 & H2 & H3 & H4 & H5 & H6 & H7). unfold Connection_serialize.
  enough (G : emits (Connection_serialize iterL iterO c) (con_restore c c (con_sub c)) (enc_con c)) by (by destruct c).
  unfold Connection_serialize. eapply emits_eq.
  { do 6 (wire_step (by apply wire_write)). wire_step (by apply (wire_write (con_fds c))).
    wire_step (by apply derived_emits). apply emits_ret. }
  wire_eq.
Qed.

Lemma con_accepts z c r : con_ok c -> blank (con_sub z) -> restore (con_sub z) (con_sub c) = Some r ->
  accepts (Connection_serialize iterL iterO z) (enc_con c) (con_restore z c r).
Proof using iterL_perm iterO_perm.
  intros (H1 & H2 & H3 & H4 & H5 & H6 & H7) Hz Hr. unfold Connection_serialize. eapply accepts_eq.
  { wire_step idtac. wire_step (by apply (wire_read (con_id c))). wire_step (by apply (wire_read (con_type c))).
    wire_step (by apply (wire_read (con_fcntlFlags c))). wire_step (by apply (wire_read (con_fcntlOwner c))).
    wire_step (by apply (wire_read (con_fcntlSignal c))). wire_step (by apply (wire_read (con_fds c))).
    wire_step (by apply (derived_accepts _ (con_sub c) r)). apply accepts_ret. }
  wire_eq.
Qed.

(** *** The entries of the list *)

Lemma conType_range (c : Connection Derived) : 0 <= con_type c -> 0 <= conType c < 2 ^ 31.
Proof.
  intros H. unfold conType. set (m := TYPEMASK). assert (Hm : m = TYPEMASK) by done. vm_compute in Hm.
  assert (Hz : 0 <= Z.land (con_type c) m) by (apply Z.land_nonneg; lia). split; [done|].
  assert (Hb : Z.land (con_type c) m = Z.land (con_type c) m mod 2 ^ 31).
  { symmetry. rewrite <- Z.land_ones by lia. rewrite <- Z.land_assoc. f_equal. }
  rewrite Hb. apply Z.mod_pos_bound. lia.
Qed.

Definition enc_head (i : ConnectionIdentifier) (c : Connection Derived) : string :=
  mark "[StartConnection]" +:+ ci_raw i +:+ le_bytes 4 (conType c) +:+ enc_con c.
Definition enc_entry (e : ConnectionIdentifier * Connection Derived) : string :=
  enc_head (fst e) (snd e) +:+ mark "[EndConnection]".
#[local] Hint Unfold enc_head enc_entry : wire.

Context (du : Dummies) (createDummyConnection : Z -> option Derived).

Lemma read_head_accepts i c z r : ci_ok i -> con_ok c -> createDummyConnection (conType c) = Some z -> blank z ->
  restore z (con_sub c) = Some r ->
  accepts (read_head iterL iterO du createDummyConnection) (enc_head i c) (i, con_restore (du_con du) c r).
Proof using iterL_perm iterO_perm.
  intros Hi Hc Hz Hb Hr. pose proof Hc as (_ & [H0 _] & _). pose proof (conType_range c H0) as Ht.
  unfold read_head. eapply accepts_eq.
  { wire_step idtac. wire_step (by apply (wire_read i)).
    wire_step (apply (wire_read (conType c)); unfold in_sint; change (8 * Z.of_nat 4 - 1) with 31; lia).
    rewrite Hz. wire_step (apply accepts_ret). wire_step (by apply (con_accepts _ c r)). apply accepts_ret. }
  wire_eq.
Qed.

(** A type that no connection is created for stops the reader. *)
Lemma read_head_unknown i c s k : ci_ok i -> con_ok c -> createDummyConnection (conType c) = None ->
  sr_reader s = true -> rest s = enc_head i c +:+ k ->
  exists s', read_head iterL iterO du createDummyConnection s = Fault (AssertFailed "failed to create dummy connection") s'.
Proof.
  intros Hi Hc Hz Hr Hk. pose proof Hc as (_ & [H0 _] & _). pose proof (conType_range c H0) as Ht.
  unfold enc_head in Hk. rewrite !str_app_assoc in Hk. unfold read_head.
  rewrite (bind_ok _ _ _ _ _ (ASSERT_POINT_accepts "[StartConnection]" eq_refl s _ Hr Hk)).
  set (s1 := advanced _ s). assert (Hk1 : rest s1 = ci_raw i +:+ le_bytes 4 (conType c) +:+ enc_con c +:+ k)
    by (unfold s1; by rewrite rest_advanced, Hk, str_drop_app).
  rewrite (bind_ok _ _ _ _ _ (wire_read i (du_key du) Hi s1 _ Hr Hk1)).
  set (s2 := advanced _ s1). assert (Hk2 : rest s2 = le_bytes 4 (conType c) +:+ enc_con c +:+ k)
    by (unfold s2; by rewrite rest_advanced, Hk1, str_drop_app).
  assert (Hin : in_sint 4 (conType c)) by (unfold in_sint; change (8 * Z.of_nat 4 - 1) with 31; lia).
  rewrite (bind_ok _ _ _ _ _ (wire_read (conType c) (-1) Hin s2 _ Hr Hk2)). rewrite Hz. eexists. reflexivity.
Qed.
End derived_facts.

(** ** Installing what was read *)

Section install_facts.
Implicit Types (l : ConnectionList Derived) (c : Connection Derived).

Definition insert_fds (p : nat) (fds : list Z) (m : gmap Z nat) : gmap Z nat := foldl (fun m fd => <[fd := p]> m) m fds.

Lemma insert_fds_lookup p fds m fd : insert_fds p fds m !! fd = if bool_decide (fd ∈ fds) then Some p else m !! fd.
Proof.
  unfold insert_fds. revert m. induction fds as [|x fds IH]; intros m; [done|]. cbn [foldl]. rewrite IH.
  destruct (decide (fd ∈ fds)) as [Hi|Hi].
  - rewrite !bool_decide_eq_true_2; [done|by right|done].
  - rewrite bool_decide_eq_false_2 by done. destruct (decide (fd = x)) as [->|Hne].
    + rewrite lookup_insert_eq, bool_decide_eq_true_2; [done|left].
    + rewrite lookup_insert_ne, bool_decide_eq_false_2; [done| |done]. intros [?|?]%elem_of_cons; done.
Qed.

(** The state after [install] of a connection whose key is new. *)
Definition installed (key : ConnectionIdentifier) c l : ConnectionList Derived :=
  let p := fresh (dom (cl_heap l)) in
  l <| cl_heap ::= <[p := c]> |> <| cl_connections ::= <[ckey key := (key, p)]> |>
    <| cl_fdToCon ::= insert_fds p (con_fds c) |>.

Lemma install_ok key c l : cl_connections l !! ckey key = None -> install key c l = Ok tt (installed key c l).
Proof.
  intros Hk. unfold install. do 3 (erewrite bind_ok by reflexivity). unfold modify, installed. f_equal.
  cbv beta iota delta [set_field set_with]. cbn [cl_heap cl_connections cl_fdToCon cl_numIncomingCons cl_nextConId cl_upid].
  by rewrite Hk.
Qed.

(** A connection fits a list when neither its key nor its descriptors are taken. *)
Definition fits (e : ConnectionIdentifier * Connection Derived) l : Prop :=
  ckey (fst e) = ckey (con_id (snd e)) /\ con_fds (snd e) <> [] /\ NoDup (con_fds (snd e)) /\
  cl_connections l !! ckey (fst e) = None /\ forall fd, fd ∈ con_fds (snd e) -> cl_fdToCon l !! fd = None.

Lemma installed_facts key c l : cl_wf l -> fits (key, c) l ->
  let l' := installed key c l in
  cl_wf l' /\
  (exists p, cl_connections l' !! ckey key = Some (key, p) /\ cl_heap l' !! p = Some c) /\
  (forall k i p c', cl_connections l !! k = Some (i, p) -> cl_heap l !! p = Some c' ->
     cl_connections l' !! k = Some (i, p) /\ cl_heap l' !! p = Some c') /\
  (forall k, k <> ckey key -> cl_connections l' !! k = cl_connections l !! k) /\
  (forall fd, fd ∉ con_fds c -> cl_fdToCon l' !! fd = cl_fdToCon l !! fd) /\
  (forall fd, cl_view l' !! fd = if bool_decide (fd ∈ con_fds c) then Some (con_id c) else cl_view l !! fd) /\
  cl_nextConId l' = cl_nextConId l.
Proof.
  intros Hwf (Hkey & Hne & Hnd & Hnew & Hfree) l'. cbn [fst snd] in *.
  set (p := fresh (dom (cl_heap l))). assert (Hp : cl_heap l !! p = None) by (apply not_elem_of_dom, is_fresh).
  assert (Hh : forall q c', cl_heap l !! q = Some c' -> q <> p /\ cl_heap l' !! q = Some c').
  { intros q c' Hq. assert (q <> p) by congruence. split; [done|]. unfold l', installed. rsimpl. rsimpl. rsimpl.
    fold p. by rewrite lookup_insert_ne. }
  assert (Hp' : cl_heap l' !! p = Some c) by (unfold l', installed; rsimpl; rsimpl; rsimpl; apply lookup_insert_eq).
  assert (Hc' : forall k, cl_connections l' !! k = if bool_decide (k = ckey key) then Some (key, p) else cl_connections l !! k).
  { intros k. unfold l', installed. rsimpl. rsimpl. rsimpl. destruct (decide (k = ckey key)) as [->|Hk].
    - by rewrite lookup_insert_eq, bool_decide_eq_true_2.
    - by rewrite lookup_insert_ne, bool_decide_eq_false_2. }
  assert (Hf' : forall fd, cl_fdToCon l' !! fd = if bool_decide (fd ∈ con_fds c) then Some p else cl_fdToCon l !! fd).
  { intros fd. unfold l', installed. rsimpl. apply insert_fds_lookup. }
  split_and!.
  - split.
    + intros fd q. rewrite Hf'. case_bool_decide as Hfd.
      * intros [= <-]. exists c, key. rewrite Hc', Hkey, bool_decide_eq_true_2 by done. done.
      * intros Hq. destruct (wf_fd l Hwf _ _ Hq) as (c' & i & Hcq & Hin & Hk). destruct (Hh _ _ Hcq) as [_ Hcq'].
        exists c', i. split_and!; [done..|]. rewrite Hc', bool_decide_eq_false_2; [done|]. intros E. congruence.
    + intros k i q. rewrite Hc'. case_bool_decide as Hk.
      * intros [= <- <-]. subst k. exists c. split_and!; [done..|]. intros fd Hfd. by rewrite Hf', bool_decide_eq_true_2.
      * intros Hq. destruct (wf_con l Hwf _ _ _ Hq) as (c' & Hcq & Hck & Hne' & Hnd' & Hall).
        destruct (Hh _ _ Hcq) as [_ Hcq']. exists c'. split_and!; [done..|]. intros fd Hfd.
        rewrite Hf', bool_decide_eq_false_2; [by apply Hall|]. intros Hi.
        specialize (Hall fd Hfd). rewrite (Hfree _ Hi) in Hall. done.
    + intros k i q. rewrite Hc'. case_bool_decide as Hk; [by intros [= <- <-]|by apply (wf_key l Hwf)].
  - exists p. split; [|done]. by rewrite Hc', bool_decide_eq_true_2.
  - intros k i q c' Hk Hq. split; [|by apply Hh]. rewrite Hc', bool_decide_eq_false_2; [done|]. congruence.
  - intros k Hk. by rewrite Hc', bool_decide_eq_false_2.
  - intros fd Hfd. by rewrite Hf', bool_decide_eq_false_2.
  - intros fd. rewrite cl_view_lookup, Hf'. case_bool_decide as Hfd; [cbn; by rewrite Hp'|].
    rewrite cl_view_lookup. destruct (cl_fdToCon l !! fd) as [q|] eqn:Eq; [|done]. cbn.
    destruct (wf_fd l Hwf _ _ Eq) as (c' & i & Hcq & _). destruct (Hh _ _ Hcq) as [_ Hcq']. by rewrite Hcq, Hcq'.
  - done.
Qed.

Definition installs (es : list (ConnectionIdentifier * Connection Derived)) l : ConnectionList Derived :=
  foldl (fun l e => installed (fst e) (snd e) l) l es.

(** The entries of a list have different keys and no descriptor in common. *)
Definition separate (es : list (ConnectionIdentifier * Connection Derived)) : Prop :=
  NoDup ((fun e => ckey (fst e)) <$> es) /\ NoDup (es ≫= (fun e => con_fds (snd e))).

(** After the first entry is installed the others still fit. *)
Lemma separate_step key c es l : cl_wf l -> separate ((key, c) :: es) -> (forall e, e ∈ (key, c) :: es -> fits e l) ->
  cl_wf (installed key c l) /\ separate es /\ (forall e, e ∈ es -> fits e (installed key c l)) /\
  (forall fd e, fd ∈ con_fds c -> e ∈ es -> fd ∉ con_fds (snd e)).
Proof.
  intros Hwf [Hnd1 Hnd2] Hfit.
  apply NoDup_cons in Hnd1 as [Hk1 Hnd1]. cbn [mbind list_bind] in Hnd2. apply NoDup_app in Hnd2 as (Hnc & Hdisj & Hnd2).
  destruct (installed_facts key c l Hwf (Hfit _ (list_elem_of_here _ _))) as (W1 & _ & _ & C1 & F1 & _).
  assert (Hd : forall fd e, fd ∈ con_fds c -> e ∈ es -> fd ∉ con_fds (snd e)).
  { intros fd e Hfd He Hi. apply (Hdisj fd Hfd). apply list_elem_of_bind. by exists e. }
  split; [done|]. split; [by split|]. split; [|done].
  intros e He. destruct (Hfit e) as (A & B & C & D & E); [by right|]. repeat split; [done..| |].
  - rewrite C1; [done|]. intros Ek. apply Hk1. apply list_elem_of_fmap. exists e. cbn [fst]. by rewrite Ek.
  - intros fd Hfd. rewrite F1; [by apply E|]. intros Hi. by apply (Hd fd e).
Qed.

Lemma installs_facts es : forall l, cl_wf l -> separate es -> (forall e, e ∈ es -> fits e l) ->
  let l' := installs es l in
  cl_wf l' /\
  (forall e, e ∈ es -> exists p, cl_connections l' !! ckey (fst e) = Some (fst e, p) /\ cl_heap l' !! p = Some (snd e)) /\
  (forall k i p c, cl_connections l !! k = Some (i, p) -> cl_heap l !! p = Some c ->
     cl_connections l' !! k = Some (i, p) /\ cl_heap l' !! p = Some c) /\
  (forall e fd, e ∈ es -> fd ∈ con_fds (snd e) -> cl_view l' !! fd = Some (con_id (snd e))) /\
  (forall fd, (forall e, e ∈ es -> fd ∉ con_fds (snd e)) -> cl_view l' !! fd = cl_view l !! fd) /\
  cl_nextConId l' = cl_nextConId l.
Proof.
  induction es as [|[key c] es IH]; intros l Hwf Hsep Hfit l'.
  { split_and!; try done; intros e; [|intros fd]; intros He; by apply elem_of_nil in He. }
  destruct (separate_step key c es l Hwf Hsep Hfit) as (W1 & Hsep' & Hfit' & Hdisj).
  destruct (installed_facts key c l Hwf (Hfit _ (list_elem_of_here _ _))) as (_ & (p & P1 & P2) & K1 & C1 & F1 & V1 & N1).
  destruct (IH (installed key c l) W1 Hsep' Hfit') as (W & E & K & V & U & N).
  unfold l'. cbn [installs foldl fst snd]. split_and!; [done| | | | |].
  - intros e [->|He]%elem_of_cons; [|by apply E]. exists p. cbn [fst snd]. by apply K.
  - intros k i q c' Hk Hq. destruct (K1 k i q c' Hk Hq). by apply K.
  - intros e fd [->|He]%elem_of_cons Hfd; [|by apply V]. cbn [snd] in *. rewrite U.
    + rewrite V1, bool_decide_eq_true_2; done.
    + intros e He. by apply Hdisj.
  - intros fd Hfd. rewrite U by (intros e He; apply Hfd; by right). rewrite V1, bool_decide_eq_false_2; [done|].
    apply (Hfd (key, c)). left.
  - by rewrite <- N1.
Qed.
End install_facts.

(** ** The whole list *)

Section list_facts.
Context (iterL : gmap Z (gmap Z string) -> list (Z * gmap Z string)) (iterO : gmap Z string -> list (Z * string)).
Context (iterC : gmap ConKey (ConnectionIdentifier * nat) -> list (ConKey * (ConnectionIdentifier * nat))).
Hypothesis iterL_perm : forall m, iterL m ≡ₚ map_to_list m.
Hypothesis iterO_perm : forall m, iterO m ≡ₚ map_to_list m.
Hypothesis iterC_perm : forall m, iterC m ≡ₚ map_to_list m.
Context (du : Dummies) (createDummyConnection : Z -> option Derived).
Implicit Types (l : ConnectionList Derived) (c : Connection Derived).

Lemma step_write {A B} (m : M Stream A) (k : A -> M (ConnectionList Derived * Stream) B) l f a e n :
  emits m a e -> writing (String.length e + n) f -> (on_stream m ≫= k) (l, f) = k a (l, wrote e f).
Proof.
  intros Hm Hw. erewrite bind_ok; [reflexivity|].
  unfold on_stream, zoom. cbn [snd]. rewrite Hm; [done|]. destruct Hw as (? & ? & ?). repeat split; [done..|lia].
Qed.

Lemma step_read {A B} (m : M Stream A) (k : A -> M (ConnectionList Derived * Stream) B) l f a e r :
  accepts m e a -> sr_reader f = true -> rest f = e +:+ r ->
  (on_stream m ≫= k) (l, f) = k a (l, advanced (String.length e) f).
Proof.
  intros Hm Hr Hk. erewrite bind_ok; [reflexivity|].
  unfold on_stream, zoom. cbn [snd]. by rewrite (Hm f r Hr Hk).
Qed.

Lemma rest_step f e r : rest f = e +:+ r -> rest (advanced (String.length e) f) = r.
Proof. intros Hk. by rewrite rest_advanced, Hk, str_drop_app. Qed.

Lemma last_write (m : M Stream unit) l f e : emits m tt e -> writing (String.length e) f ->
  on_stream m (l, f) = Ok tt (l, wrote e f).
Proof. intros Hm Hw. unfold on_stream, zoom. cbn [snd]. by rewrite Hm. Qed.

(** What a walk writes: the entries in its order. *)
Definition entries l : list (ConnectionIdentifier * Connection Derived) :=
  omap (fun x => c ← cl_heap l !! snd (snd x); Some (fst (snd x), c)) (iterC (cl_connections l)).
Definition enc_table l : string :=
  mark "dmtcp-serialized-connection-table!v0.07" +:+ mark "ConnectionIdentifier:" +:+ mark "ConnectionIdentifier:" +:+
  le_bytes 4 (cl_nextConId l) +:+ mark "ConnectionList:" +:+ u32 (size (cl_connections l)) +:+
  enc_list (enc_entry iterL iterO) (entries l) +:+ mark "EOF".

Lemma elem_entries l i c : cl_wf l -> (i, c) ∈ entries l <->
  exists p, cl_connections l !! ckey i = Some (i, p) /\ cl_heap l !! p = Some c.
Proof using iterC_perm.
  intros Hwf. unfold entries. rewrite list_elem_of_omap. split.
  - intros ([k [j p]] & Hx & E). rewrite iterC_perm in Hx. apply elem_of_map_to_list in Hx. cbn in E.
    destruct (cl_heap l !! p) as [c'|] eqn:Ep; [|done]. cbn in E. injection E as -> ->. exists p. split; [|done].
    by rewrite (wf_key l Hwf _ _ _ Hx).
  - intros (p & Hk & Hp). exists (ckey i, (i, p)). split; [rewrite iterC_perm; by apply elem_of_map_to_list|]. cbn. by rewrite Hp.
Qed.

Lemma write_connection_ok l f k i p c : cl_heap l !! p = Some c -> ci_ok i -> con_ok c ->
  writing (String.length (enc_entry iterL iterO (i, c))) f ->
  write_connection iterL iterO (k, (i, p)) (l, f) = Ok tt (l, wrote (enc_entry iterL iterO (i, c)) f).
Proof using iterL_perm iterO_perm.
  intros Hp Hi Hc Hw. unfold write_connection. cbn [snd fst].
  erewrite bind_ok by (unfold on_list, zoom; cbn [fst]; rewrite (deref_ok l p c Hp); reflexivity). cbn [snd].
  assert (Ht : 0 <= conType c < 2 ^ (8 * Z.of_nat 4)).
  { destruct Hc as (_ & [H0 _] & _). pose proof (conType_range c H0). change (8 * Z.of_nat 4) with 32. lia. }
  unfold enc_entry, enc_head in *. cbn [fst snd] in *. rewrite !str_app_assoc, !str_app_length in Hw.
  rewrite !str_app_assoc, <- !wrote_wrote.
  rewrite (step_write _ _ l f tt _ _ (ASSERT_POINT_emits "[StartConnection]" eq_refl) Hw). apply writing_wrote in Hw.
  rewrite (step_write _ _ l _ i _ _ (wire_write i Hi) Hw). apply writing_wrote in Hw.
  rewrite (step_write _ _ l _ _ _ _ (wire_write (conType c) Ht) Hw). apply writing_wrote in Hw.
  rewrite (step_write _ _ l _ _ _ _ (con_emits iterL iterO iterL_perm iterO_perm c Hc) Hw). apply writing_wrote in Hw.
  erewrite bind_ok; [|unfold on_list, zoom; cbn [fst]; rewrite (store_ok l p c c Hp); reflexivity]. cbn [snd].
  assert (El : l <| cl_heap ::= <[p := c]> |> = l).
  { destruct l. unfold set_field. cbn in *. by rewrite insert_id. }
  rewrite El. apply last_write; [by apply ASSERT_POINT_emits|exact Hw].
Qed.

Lemma write_connections_ok l xs : (forall x, x ∈ xs -> exists c, cl_heap l !! snd (snd x) = Some c /\ ci_ok (fst (snd x)) /\ con_ok c) ->
  forall f, let e := enc_list (enc_entry iterL iterO)
                       (omap (fun x => c ← cl_heap l !! snd (snd x); Some (fst (snd x), c)) xs) in
  writing (String.length e) f -> forM xs (write_connection iterL iterO) (l, f) = Ok tt (l, wrote e f).
Proof using iterL_perm iterO_perm.
  induction xs as [|[k [i p]] xs IH]; intros Hx f e Hw; [unfold e; cbn; by rewrite wrote_nil|].
  destruct (Hx (k, (i, p)) (list_elem_of_here _ _)) as (c & Hp & Hi & Hc). cbn [fst snd] in *.
  unfold e in *. cbn [omap list_omap fst snd] in *. rewrite Hp in *. cbn [mbind option_bind enc_list foldr] in *.
  rewrite str_app_length in Hw. cbn [forM].
  erewrite bind_ok; [|apply (write_connection_ok l f k i p c Hp Hi Hc); destruct Hw as (? & ? & ?); repeat split; [done..|lia]].
  rewrite <- wrote_wrote. apply IH; [intros x Hxx; apply Hx; by right|]. by apply writing_wrote.
Qed.

(** How an entry that was written comes back. *)
Definition restored (e r : ConnectionIdentifier * Connection Derived) : Prop :=
  fst r = fst e /\ exists z d, createDummyConnection (conType (snd e)) = Some z /\ blank z /\
  restore z (con_sub (snd e)) = Some d /\ snd r = con_restore (du_con du) (snd e) d.

Lemma read_connections_ok es rs : Forall2 restored es rs -> Forall (fun e => ci_ok (fst e) /\ con_ok (snd e)) es ->
  forall l f k, sr_reader f = true -> rest f = enc_list (enc_entry iterL iterO) es +:+ k ->
  cl_wf l -> separate rs -> (forall e, e ∈ rs -> fits e l) ->
  read_connections iterL iterO du createDummyConnection (length es) (l, f) =
  Ok tt (installs rs l, advanced (String.length (enc_list (enc_entry iterL iterO) es)) f).
Proof using iterL_perm iterO_perm.
  induction 1 as [|[i c] [i' c'] es rs [Hi' (z & d & Hz & Hb & Hd & Hc')] Hes IH]; intros Hok l f k Hr Hk Hwf Hsep Hfit.
  { cbn. by rewrite advanced_0. }
  apply Forall_cons in Hok as [[Hi Hc] Hok]. cbn [fst snd] in *. subst i' c'.
  cbn [length read_connections enc_list foldr] in *. unfold enc_entry at 1 in Hk. cbn [fst snd] in Hk.
  rewrite !str_app_assoc in Hk.
  rewrite (step_read _ _ l f _ _ _ (read_head_accepts iterL iterO iterL_perm iterO_perm du createDummyConnection i c z d Hi Hc Hz Hb Hd) Hr Hk).
  apply rest_step in Hk. cbn [fst snd]. set (r := con_restore (du_con du) c d) in *. set (f1 := advanced _ f) in *.
  assert (Hnone : cl_connections l !! ckey i = None) by (apply (Hfit (i, r)); left).
  erewrite bind_ok; [|unfold on_list, zoom; cbn [fst]; rewrite (install_ok i r l Hnone); reflexivity]. cbn [snd].
  rewrite (step_read _ _ (installed i r l) f1 _ _ _ (ASSERT_POINT_accepts "[EndConnection]" eq_refl) Hr Hk).
  apply rest_step in Hk. destruct (separate_step i r rs l Hwf Hsep Hfit) as (W1 & Hsep' & Hfit' & _).
  rewrite (IH Hok (installed i r l) (advanced (String.length ("[EndConnection]" +:+ NUL_str)) f1) k Hr Hk W1 Hsep' Hfit').
  unfold f1. rewrite !advanced_advanced.
  assert (E : (String.length (enc_head iterL iterO i c) + String.length ("[EndConnection]" +:+ NUL_str) +
               String.length (enc_list (enc_entry iterL iterO) es))%nat =
              String.length (enc_entry iterL iterO (i, c) +:+ enc_list (enc_entry iterL iterO) es)).
  { unfold enc_entry at 2, mark. cbn [fst snd]. by rewrite !str_app_length. }
  cbn [installs foldl fst snd]. unfold enc_list in *. rewrite <- E, Nat.add_assoc. done.
Qed.

(** A list that can be written: every connection in range. *)
Definition table_in_range l : Prop :=
  cl_wf l /\ CONNECTION_ID_START <= cl_nextConId l /\ in_sint 4 (cl_nextConId l) /\ fits32 (size (cl_connections l)) /\
  Forall (fun e => ci_ok (fst e) /\ con_ok (snd e)) (entries l).

Lemma entries_length l : cl_wf l -> length (entries l) = size (cl_connections l).
Proof using iterC_perm.
  intros Hwf. unfold entries. rewrite <- length_map_to_list, <- (Permutation_length (iterC_perm (cl_connections l))).
  assert (H : forall x, x ∈ iterC (cl_connections l) -> exists c, cl_heap l !! snd (snd x) = Some c).
  { intros [k [i p]] Hx. rewrite iterC_perm in Hx. apply elem_of_map_to_list in Hx.
    destruct (wf_con l Hwf _ _ _ Hx) as (c & Hp & _). by exists c. }
  induction (iterC (cl_connections l)) as [|x xs IH]; [done|]. cbn [omap list_omap].
  destruct (H x (list_elem_of_here _ _)) as [c ->]. cbn. f_equal. apply IH. intros y Hy. apply H. by right.
Qed.

Lemma nextConId_emits n : CONNECTION_ID_START <= n -> in_sint 4 n ->
  emits (nextConId_serialize n) n (mark "ConnectionIdentifier:" +:+ le_bytes 4 n).
Proof.
  intros H1 H2. unfold nextConId_serialize. eapply emits_eq.
  { wire_step idtac. wire_step (by apply wire_write). apply Z.leb_le in H1 as ->. wire_step idtac. apply emits_ret. }
  wire_eq.
Qed.

Lemma nextConId_accepts n old : CONNECTION_ID_START <= n -> in_sint 4 n ->
  accepts (nextConId_serialize old) (mark "ConnectionIdentifier:" +:+ le_bytes 4 n) n.
Proof.
  intros H1 H2. unfold nextConId_serialize. eapply accepts_eq.
  { wire_step idtac. wire_step (by apply (wire_read n)). apply Z.leb_le in H1 as ->. wire_step idtac. apply accepts_ret. }
  wire_eq.
Qed.

Lemma table_write l f : table_in_range l -> writing (String.length (enc_table l)) f ->
  ConnectionList_serialize iterL iterO du createDummyConnection iterC (l, f) = Ok tt (l, wrote (enc_table l) f).
Proof using iterL_perm iterO_perm iterC_perm.
  intros (Hwf & Hn1 & Hn2 & Hsz & Hok) Hw. unfold ConnectionList_serialize, enc_table in *.
  rewrite !str_app_length in Hw. rewrite <- !wrote_wrote.
  rewrite (step_write _ _ l f tt _ _ (ASSERT_POINT_emits "dmtcp-serialized-connection-table!v0.07" eq_refl) Hw). apply writing_wrote in Hw.
  rewrite (step_write _ _ l _ tt _ _ (ASSERT_POINT_emits "ConnectionIdentifier:" eq_refl) Hw). apply writing_wrote in Hw.
  erewrite (bind_ok (on_list (gets cl_nextConId))) by reflexivity. cbn [fst snd].
  rewrite Nat.add_assoc, <- str_app_length in Hw.
  rewrite (step_write _ _ l _ _ _ _ (nextConId_emits _ Hn1 Hn2) Hw). apply writing_wrote in Hw.
  erewrite (bind_ok (on_list (modify _))) by reflexivity. cbn [fst snd].
  assert (El : l <| cl_nextConId := cl_nextConId l |> = l) by (by destruct l). rewrite El.
  rewrite (step_write _ _ l _ tt _ _ (ASSERT_POINT_emits "ConnectionList:" eq_refl) Hw). apply writing_wrote in Hw.
  erewrite (bind_ok (on_list (gets cl_connections))) by reflexivity. cbn [fst snd].
  rewrite (step_write _ _ l _ _ _ _ (u32_emits _ Hsz) Hw). apply writing_wrote in Hw.
  rewrite (step_write isWriter _ l _ true EmptyString _ isWriter_emits Hw), wrote_nil.
  erewrite (bind_ok (forM _ _)).
  2:{ apply (write_connections_ok l).
      - intros [k [i p]] Hx. rewrite iterC_perm in Hx. apply elem_of_map_to_list in Hx.
        destruct (wf_con l Hwf _ _ _ Hx) as (c & Hp & _). exists c. split; [done|].
        rewrite Forall_forall in Hok. apply (Hok (i, c)). apply elem_entries; [done|].
        exists p. by rewrite (wf_key l Hwf _ _ _ Hx).
      - destruct Hw as (? & ? & ?). repeat split; [done..|]. unfold entries in *. lia. }
  apply writing_wrote in Hw.
  rewrite <- (wrote_wrote (mark "ConnectionIdentifier:") (le_bytes 4 (cl_nextConId l))) in Hw |- *.
  apply last_write; [by apply ASSERT_POINT_emits|exact Hw].
Qed.

Lemma entries_separate l : cl_wf l -> separate (entries l).
Proof using iterC_perm.
  intros Hwf. unfold separate.
  assert (Hk : (fun e => ckey (fst e)) <$> entries l = fst <$> iterC (cl_connections l)).
  { unfold entries.
    assert (H : forall x, x ∈ iterC (cl_connections l) -> exists c, cl_heap l !! snd (snd x) = Some c /\ ckey (fst (snd x)) = fst x).
    { intros [k [i p]] Hx. rewrite iterC_perm in Hx. apply elem_of_map_to_list in Hx.
      destruct (wf_con l Hwf _ _ _ Hx) as (c & Hp & _). exists c. split; [done|]. by eapply wf_key. }
    induction (iterC (cl_connections l)) as [|x xs IH]; [done|]. cbn [omap list_omap].
    destruct (H x (list_elem_of_here _ _)) as (c & -> & E). cbn. rewrite E. f_equal. apply IH. intros y Hy. apply H. by right. }
  assert (Hnd : NoDup ((fun e => ckey (fst e)) <$> entries l)).
  { rewrite Hk, iterC_perm. apply NoDup_fst_map_to_list. }
  split; [done|]. apply NoDup_bind.
  - intros [i1 c1] [i2 c2] fd H1 H2 F1 F2. cbn [snd] in *.
    apply elem_entries in H1 as (p1 & K1 & P1); [|done]. apply elem_entries in H2 as (p2 & K2 & P2); [|done].
    destruct (wf_con l Hwf _ _ _ K1) as (c1' & Hc1 & E1 & _ & _ & A1). destruct (wf_con l Hwf _ _ _ K2) as (c2' & Hc2 & E2 & _ & _ & A2).
    assert (c1' = c1) as -> by congruence. assert (c2' = c2) as -> by congruence.
    specialize (A1 _ F1). specialize (A2 _ F2). assert (p2 = p1) as -> by congruence. assert (c2 = c1) as -> by congruence.
    rewrite <- E1 in K1. rewrite <- E2 in K2. congruence.
  - intros [i c] H1. apply elem_entries in H1 as (p1 & K1 & P1); [|done].
    destruct (wf_con l Hwf _ _ _ K1) as (c' & Hc & _ & _ & Hn & _). by simplify_eq.
  - by apply NoDup_fmap_1 in Hnd.
Qed.

Lemma restored_separate es rs : Forall2 restored es rs -> separate es -> separate rs.
Proof.
  intros H. unfold separate.
  assert (E1 : (fun e : ConnectionIdentifier * Connection Derived => ckey (fst e)) <$> rs = (fun e => ckey (fst e)) <$> es).
  { induction H as [|e r es rs (E & _) _ IH]; [done|]. cbn. by rewrite E, IH. }
  assert (E2 : rs ≫= (fun e : ConnectionIdentifier * Connection Derived => con_fds (snd e)) = es ≫= (fun e => con_fds (snd e))).
  { clear E1. induction H as [|e r es rs (_ & z & d & _ & _ & _ & E) _ IH]; [done|]. cbn [mbind list_bind]. rewrite E. by f_equal. }
  by rewrite E1, E2.
Qed.

(** What comes back of an entry. *)
Lemma restored_elem es rs r : Forall2 restored es rs -> r ∈ rs -> exists e, e ∈ es /\ restored e r.
Proof.
  induction 1 as [|e r' es rs H _ IH]; intros Hr; [by apply elem_of_nil in Hr|].
  apply elem_of_cons in Hr as [->|Hr]; [exists e; split; [left|done]|].
  destruct (IH Hr) as (e' & ? & ?). exists e'. split; [by right|done].
Qed.

Lemma restored_elem_inv es rs e : Forall2 restored es rs -> e ∈ es -> exists r, r ∈ rs /\ restored e r.
Proof.
  induction 1 as [|e' r' es rs H _ IH]; intros He; [by apply elem_of_nil in He|].
  apply elem_of_cons in He as [->|He]; [exists r'; split; [left|done]|].
  destruct (IH He) as (r & ? & ?). exists r. split; [by right|done].
Qed.

Lemma restored_exists es : Forall (fun e => exists z d, createDummyConnection (conType (snd e)) = Some z /\ blank z /\
  restore z (con_sub (snd e)) = Some d) es -> exists rs, Forall2 restored es rs.
Proof.
  induction 1 as [|e es (z & d & H1 & H2 & H3) _ [rs IH]]; [by exists []|].
  exists ((fst e, con_restore (du_con du) (snd e) d) :: rs). constructor; [|done]. split; [done|]. by exists z, d.
Qed.

Definition cl_start u n : ConnectionList Derived := (cl_init u) <| cl_nextConId := n |>.

Lemma fits_start l rs u n : cl_wf l -> Forall2 restored (entries l) rs -> forall r, r ∈ rs -> fits r (cl_start u n).
Proof using iterC_perm.
  intros Hwf H r Hr. destruct (restored_elem _ _ _ H Hr) as ([i c] & He & (E & z & d & _ & _ & _ & Er)).
  apply elem_entries in He as (p & Hk & Hp); [|done].
  destruct (wf_con l Hwf _ _ _ Hk) as (c0 & Hc0 & Hck & Hne & Hnd & _).
  assert (c0 = c) as -> by congruence. destruct r as [i' c']. cbn [fst snd] in *. subst i' c'.
  split_and!; cbn [fst snd con_restore con_id con_fds]; [done|done|done|apply lookup_empty|]. intros fd _. apply lookup_empty.
Qed.

Lemma start_wf u n : cl_wf (cl_start u n).
Proof. split; intros *; unfold cl_start; rsimpl; cbn; by rewrite lookup_empty. Qed.

(** Reading up to the connections. *)
Lemma table_read_head l u f k : table_in_range l -> sr_reader f = true -> rest f = enc_table l +:+ k ->
  let n := (String.length (enc_table l) - String.length (enc_list (enc_entry iterL iterO) (entries l) +:+ mark "EOF"))%nat in
  ConnectionList_serialize iterL iterO du createDummyConnection iterC (cl_init u, f) =
    (read_connections iterL iterO du createDummyConnection (length (entries l));; on_stream (ASSERT_POINT "EOF"))
      (cl_start u (cl_nextConId l), advanced n f) /\
  rest (advanced n f) = enc_list (enc_entry iterL iterO) (entries l) +:+ mark "EOF" +:+ k.
Proof using iterL_perm iterO_perm iterC_perm.
  intros (Hwf & Hn1 & Hn2 & Hsz & _) Hr Hk n. unfold ConnectionList_serialize, enc_table in *.
  rewrite !str_app_assoc in Hk.
  rewrite (step_read _ _ _ f _ _ _ (ASSERT_POINT_accepts "dmtcp-serialized-connection-table!v0.07" eq_refl) Hr Hk). apply rest_step in Hk.
  set (f1 := advanced _ f) in *.
  rewrite (step_read _ _ _ f1 _ _ _ (ASSERT_POINT_accepts "ConnectionIdentifier:" eq_refl) Hr Hk). apply rest_step in Hk.
  set (f2 := advanced _ f1) in *.
  erewrite (bind_ok (on_list (gets cl_nextConId))) by reflexivity. cbn [fst snd]. rewrite <- (str_app_assoc (mark "ConnectionIdentifier:")) in Hk.
  rewrite (step_read _ _ _ f2 _ _ _ (nextConId_accepts _ _ Hn1 Hn2) Hr Hk). apply rest_step in Hk.
  set (f3 := advanced _ f2) in *.
  erewrite (bind_ok (on_list (modify _))) by reflexivity. cbn [fst snd]. fold (cl_start u (cl_nextConId l)).
  rewrite (step_read _ _ _ f3 _ _ _ (ASSERT_POINT_accepts "ConnectionList:" eq_refl) Hr Hk). apply rest_step in Hk.
  set (f4 := advanced _ f3) in *.
  erewrite (bind_ok (on_list (gets cl_connections))) by reflexivity. cbn [fst snd].
  rewrite (step_read _ _ _ f4 _ _ _ (u32_accepts _ _ Hsz) Hr Hk). apply rest_step in Hk. set (f5 := advanced _ f4) in *.
  rewrite (step_read isWriter _ _ f5 false EmptyString _ isWriter_accepts Hr Hk). cbn [String.length]. rewrite advanced_0.
  rewrite Nat2Z.id, <- (entries_length l Hwf).
  assert (E : f5 = advanced n f).
  { unfold f5, f4, f3, f2, f1, n. rewrite !advanced_advanced. f_equal. rewrite !str_app_length. unfold mark.
    rewrite ?str_app_length. lia. }
  rewrite <- E. done.
Qed.

Lemma table_read l rs u f k : table_in_range l -> Forall2 restored (entries l) rs -> sr_reader f = true ->
  rest f = enc_table l +:+ k ->
  ConnectionList_serialize iterL iterO du createDummyConnection iterC (cl_init u, f) =
  Ok tt (installs rs (cl_start u (cl_nextConId l)), advanced (String.length (enc_table l)) f).
Proof using iterL_perm iterO_perm iterC_perm.
  intros Hl Hrs Hr Hk. destruct (table_read_head l u f k Hl Hr Hk) as [-> Hk'].
  pose proof Hl as (Hwf & _ & _ & _ & Hok). set (f5 := advanced _ f) in *.
  erewrite (bind_ok (read_connections _ _ _ _ _)).
  2:{ eapply (read_connections_ok (entries l) rs Hrs Hok _ f5 _ Hr Hk'); [apply start_wf| |exact (fits_start l rs u _ Hwf Hrs)].
      eapply restored_separate; [exact Hrs|by apply entries_separate]. }
  apply rest_step in Hk'. set (f6 := advanced _ f5) in *. unfold on_stream, zoom. cbn [fst snd].
  rewrite (ASSERT_POINT_accepts "EOF" eq_refl f6 k Hr Hk'). do 2 f_equal.
  unfold f6, f5. rewrite !advanced_advanced. f_equal. unfold enc_table. rewrite !str_app_length. unfold mark.
  rewrite ?str_app_length. lia.
Qed.

(** A connection that cannot be created stops the reader, wherever it is in the list. *)
Lemma read_connections_unknown es : Forall (fun e => ci_ok (fst e) /\ con_ok (snd e)) es ->
  Forall (fun e => createDummyConnection (conType (snd e)) = None \/ exists z d,
    createDummyConnection (conType (snd e)) = Some z /\ blank z /\ restore z (con_sub (snd e)) = Some d) es ->
  Exists (fun e => createDummyConnection (conType (snd e)) = None) es ->
  forall l f k, sr_reader f = true -> rest f = enc_list (enc_entry iterL iterO) es +:+ k ->
  exists s, read_connections iterL iterO du createDummyConnection (length es) (l, f) =
            Fault (AssertFailed "failed to create dummy connection") s.
Proof using iterL_perm iterO_perm.
  induction es as [|[i c] es IH]; intros Hok Hd Hex l f k Hr Hk; [by apply Exists_nil in Hex|].
  apply Forall_cons in Hok as [[Hi Hc] Hok]. apply Forall_cons in Hd as [Hd Hds]. cbn [fst snd] in *.
  cbn [length read_connections]. unfold enc_list in Hk. cbn [foldr] in Hk. unfold enc_entry at 1 in Hk. cbn [fst snd] in Hk.
  rewrite !str_app_assoc in Hk. destruct Hd as [Hnone|(z & d & Hz & Hb & Hd)].
  - destruct (read_head_unknown iterL iterO du createDummyConnection i c f _ Hi Hc Hnone Hr Hk) as [s' E].
    eexists. unfold mbind at 1, M_bind at 1, on_stream at 1, zoom at 1. cbn [snd]. rewrite E. reflexivity.
  - apply Exists_cons in Hex as [Hnone|Hex]; [cbn [snd] in Hnone; congruence|].
    rewrite (step_read _ _ l f _ _ _ (read_head_accepts iterL iterO iterL_perm iterO_perm du createDummyConnection i c z d Hi Hc Hz Hb Hd) Hr Hk).
    apply rest_step in Hk. set (f1 := advanced _ f) in *. cbn [fst snd].
    erewrite (bind_ok (on_list _)) by reflexivity. cbn [fst snd].
    rewrite (step_read _ _ _ f1 _ _ _ (ASSERT_POINT_accepts "[EndConnection]" eq_refl) Hr Hk).
    apply rest_step in Hk. by eapply (IH Hok Hds Hex).
Qed.
End list_facts.

(** The list survives exec when every type in it is known to [createDummyConnection]. *)
Lemma exec_keeps_known iterL iterO iterC du createDummyConnection l u f g k :
  (forall m, iterL m ≡ₚ map_to_list m) -> (forall m, iterO m ≡ₚ map_to_list m) -> (forall m, iterC m ≡ₚ map_to_list m) ->
  table_in_range iterC l ->
  Forall (fun e => exists z d, createDummyConnection (conType (snd e)) = Some z /\ blank z /\
                   restore z (con_sub (snd e)) = Some d) (entries iterC l) ->
  let e := enc_table iterL iterO iterC l in
  writing (String.length e) f -> sr_reader g = true -> rest g = e +:+ k ->
  let serialize := ConnectionList_serialize iterL iterO du createDummyConnection iterC in
  serialize (l, f) = Ok tt (l, wrote e f) /\
  exists l' g', serialize (cl_init u, g) = Ok tt (l', g') /\ rest g' = k /\
    cl_wf l' /\ cl_view l' = cl_view l /\ cl_nextConId l' = cl_nextConId l /\
    forall i c, (i, c) ∈ entries iterC l -> exists p z d,
      createDummyConnection (conType c) = Some z /\ restore z (con_sub c) = Some d /\
      cl_connections l' !! ckey i = Some (i, p) /\ cl_heap l' !! p = Some (con_restore (du_con du) c d).
Proof.
  intros HL HO HC Hl Hres e Hw Hr Hk serialize. split; [exact (table_write iterL iterO iterC HL HO HC du createDummyConnection l f Hl Hw)|].
  destruct (restored_exists du createDummyConnection _ Hres) as [rs Hrs].
  exists (installs rs (cl_start u (cl_nextConId l))), (advanced (String.length e) g).
  pose proof Hl as (Hwf & _).
  assert (Hsep : separate rs) by (eapply restored_separate; [exact Hrs|by apply entries_separate]).
  destruct (installs_facts rs (cl_start u (cl_nextConId l)) (start_wf u _) Hsep
              (fits_start iterC HC du createDummyConnection l rs u _ Hwf Hrs)) as (W & E & _ & V & U & N).
  split_and!; [exact (table_read iterL iterO iterC HL HO HC du createDummyConnection l rs u g k Hl Hrs Hr Hk)|by rewrite rest_advanced, Hk, str_drop_app|done| |done|].
  - apply map_eq. intros fd. destruct (cl_fdToCon l !! fd) as [p|] eqn:Ep.
    + destruct (wf_fd l Hwf _ _ Ep) as (c & i & Hp & Hin & Hki).
      pose proof (wf_key l Hwf _ _ _ Hki) as Hi.
      destruct (restored_elem_inv _ _ _ rs (i, c) Hrs) as (r & Hrr & (_ & z & d & _ & _ & _ & Er)).
      { apply elem_entries; [done..|]. exists p. by rewrite Hi. }
      cbn [snd] in Er. rewrite (V r fd Hrr) by (by rewrite Er). rewrite Er, cl_view_lookup, Ep. cbn. by rewrite Hp.
    + rewrite U; [by rewrite !cl_view_lookup, Ep|]. intros r Hrr Hfd.
      destruct (restored_elem _ _ _ rs r Hrs Hrr) as ([i c] & He & (_ & z & d & _ & _ & _ & Er)).
      rewrite Er in Hfd. cbn [snd con_restore con_fds] in Hfd. apply elem_entries in He as (p & Hki & Hp); [|done..].
      destruct (wf_con l Hwf _ _ _ Hki) as (c0 & Hc0 & _ & _ & _ & Hall). assert (c0 = c) as -> by congruence.
      rewrite (Hall fd Hfd) in Ep. done.
  - intros i c He. destruct (restored_elem_inv _ _ _ rs (i, c) Hrs He) as (r & Hrr & (E1 & z & d & Hz & _ & Hd & Er)).
    destruct (E r Hrr) as (p & Hkp & Hp). cbn [fst snd] in *. exists p, z, d. rewrite E1 in Hkp. by rewrite <- Er.
Qed.

(** A connection of the file plugin has the type of its class. *)
Definition file_class (c : Connection Derived) : bool :=
  match con_sub c with
  | FileConnection _ => conType c =? FILE
  | FifoConnection _ => conType c =? FIFO
  | StdioConnection => conType c =? STDIO
  | PosixMQConnection _ => conType c =? POSIXMQ
  | _ => false
  end.

Lemma file_dummy du c : file_class c = true ->
  (exists f, con_sub c = PosixMQConnection f) /\ file_createDummyConnection du (conType c) = None \/
  exists z d, file_createDummyConnection du (conType c) = Some z /\ blank z /\ restore z (con_sub c) = Some d.
Proof.
  unfold file_class. destruct (con_sub c) as [| |f|f| |f]; intros H; try done; apply Z.eqb_eq in H; rewrite H.
  - right. eexists. eexists. split; [reflexivity|]. by split.
  - right. eexists. eexists. split; [reflexivity|]. by split.
  - right. eexists. eexists. split; [reflexivity|]. by split.
  - left. split; [by exists f|done].
Qed.

Definition socket_class (c : Connection Derived) : bool :=
  match con_sub c with
  | TcpConnection _ => conType c =? TCP
  | RawSocketConnection _ => conType c =? RAW
  | _ => false
  end.
Definition plugin_class (pl : conn_plugin) : Connection Derived -> bool :=
  match pl with SocketConnList => socket_class | FileConnList => file_class end.

Lemma plugin_dummy du pl c : plugin_class pl c = true -> (forall q, con_sub c <> PosixMQConnection q) ->
  exists z d, plugin_createDummyConnection du pl (conType c) = Some z /\ blank z /\ restore z (con_sub c) = Some d.
Proof.
  intros H Hn. destruct pl; cbn in *.
  - unfold socket_class in H. destruct (con_sub c) as [s|s| | | |]; try done; apply Z.eqb_eq in H; rewrite H;
      (eexists; eexists; split; [reflexivity|by split]).
  - destruct (file_dummy du c H) as [[[q Hq] _]|?]; [by destruct (Hn q)|done].
Qed.

(** C20: The connections of the socket and the file plugin survive exec, unless a POSIX
    message queue is among them.  The list is written to the file of the exec and the new
    program image reads it into an empty list, with the objects that the plugin's
    [createDummyConnection] makes for the types it finds: every descriptor names the same
    connection as before, each connection has its identifier, type, options and
    descriptors back and of its derived class what [restore] says, identifiers go on
    where they were, and what stands behind the list in the file is left alone. *)
Theorem exec_keeps_connections iterL iterO iterC du pl l u f g k :
  (forall m, iterL m ≡ₚ map_to_list m) -> (forall m, iterO m ≡ₚ map_to_list m) -> (forall m, iterC m ≡ₚ map_to_list m) ->
  table_in_range iterC l -> Forall (fun e => plugin_class pl (snd e) = true) (entries iterC l) ->
  Forall (fun e => forall q, con_sub (snd e) <> PosixMQConnection q) (entries iterC l) ->
  let e := enc_table iterL iterO iterC l in
  writing (String.length e) f -> sr_reader g = true -> rest g = e +:+ k ->
  let serialize := ConnectionList_serialize iterL iterO du (plugin_createDummyConnection du pl) iterC in
  serialize (l, f) = Ok tt (l, wrote e f) /\
  exists l' g', serialize (cl_init u, g) = Ok tt (l', g') /\ rest g' = k /\
    cl_wf l' /\ cl_view l' = cl_view l /\ cl_nextConId l' = cl_nextConId l /\
    forall i c, (i, c) ∈ entries iterC l -> exists p z d,
      plugin_createDummyConnection du pl (conType c) = Some z /\ restore z (con_sub c) = Some d /\
      cl_connections l' !! ckey i = Some (i, p) /\ cl_heap l' !! p = Some (con_restore (du_con du) c d).
Proof.
  intros HL HO HC Hl Hcls Hmq e Hw Hr Hk. apply exec_keeps_known; try done.
  rewrite Forall_forall in Hcls, Hmq |- *. intros x Hx. apply plugin_dummy; [by apply Hcls|by apply Hmq].
Qed.

(** A list with a TCP socket on two descriptors, with one socket option, and a listening one. *)
Definition example_sock (backlog : Z) : SocketFields :=
  mk_SocketFields 2 1 0 1 backlog 16 (str_resize 128 EmptyString)
    (mk_ConnectionIdentifier (mk_UniquePid 7 40000 99 0) (-1)) {[1 := {[2 := "abcd"]}]}.
Definition example_dummies (d : Derived) : Dummies :=
  mk_Dummies (mk_Connection (mk_ConnectionIdentifier nullProcess (-1)) 5 6 7 8 true [9] d)
    (mk_SocketFields 1 2 3 4 5 6 "garbage" (mk_ConnectionIdentifier nullProcess (-1)) ∅)
    (mk_FileFields EmptyString EmptyString EmptyString EmptyString 1 2 3 4 5 6 7 8 9)
    (mk_FifoFields EmptyString EmptyString EmptyString 1 2 []) (mk_ConnectionIdentifier nullProcess (-1)).
Definition walkC : gmap ConKey (ConnectionIdentifier * nat) -> list (ConKey * (ConnectionIdentifier * nat)) := map_to_list.
Definition walkF : gmap Z nat -> list (Z * nat) := map_to_list.
Definition walkL : gmap Z (gmap Z string) -> list (Z * gmap Z string) := map_to_list.
Definition walkO : gmap Z string -> list (Z * string) := map_to_list.

Definition list_of (ops : list (cl_op Derived)) : ConnectionList Derived :=
  match forM ops (run_op walkC walkF) (cl_init (mk_UniquePid 7 40000 99 0)) with Ok _ s => s | _ => cl_init nullProcess end.

Lemma list_of_wf ops : CONNECTION_ID_START + Z.of_nat (length ops) < 2 ^ 31 -> cl_wf (list_of ops).
Proof.
  intros Hn. unfold list_of.
  destruct (run_ops_ok walkC walkF (mk_UniquePid 7 40000 99 0) ltac:(done) ltac:(done) ops (cl_init (mk_UniquePid 7 40000 99 0)))
    as (s & E & [Hwf _] & _); [done|done|apply cl_inv_init|done|]. by rewrite E.
Qed.

Definition example_sockets : list (cl_op Derived) :=
  [OpOpen 5 0x10006 (TcpConnection (example_sock (-1))); OpDup 5 7; OpOpen 6 0x10004 (TcpConnection (example_sock 10))].

(** Being in range is decidable. *)
#[export] Instance in_sint_dec n v : Decision (in_sint n v).
Proof. unfold in_sint. apply _. Defined.
#[export] Instance ci_ok_dec i : Decision (ci_ok i).
Proof. unfold ci_ok, up_ok. apply _. Defined.
#[export] Instance options_ok_dec m : Decision (options_ok m).
Proof. unfold options_ok, level_ok, option_ok. cbn [fst snd]. apply _. Defined.
#[export] Instance derived_ok_dec d : Decision (derived_ok d).
Proof.
  destruct d; cbn [derived_ok]; unfold tcp_ok, socket_ok, file_ok, fifo_ok, mq_ok, str32, uint8, fits32; apply _.
Defined.
#[export] Instance con_ok_dec c : Decision (con_ok c).
Proof. unfold con_ok, fits32. apply _. Defined.

Lemma example_in_range ops : CONNECTION_ID_START + Z.of_nat (length ops) < 2 ^ 31 ->
  (bool_decide (CONNECTION_ID_START <= cl_nextConId (list_of ops)) &&
   bool_decide (in_sint 4 (cl_nextConId (list_of ops))) &&
   bool_decide (Z.of_nat (size (cl_connections (list_of ops))) < 2 ^ 32) &&
   bool_decide (Forall (fun e => ci_ok (fst e) /\ con_ok (snd e)) (entries walkC (list_of ops)))) = true ->
  table_in_range walkC (list_of ops).
Proof.
  intros Hn [[[H1 H2]%andb_prop H3]%andb_prop H4]%andb_prop. apply bool_decide_eq_true_1 in H1, H2, H3, H4.
  split_and!; [by apply list_of_wf|done..].
Qed.

Definition is_mq (e : ConnectionIdentifier * Connection Derived) : bool :=
  match con_sub (snd e) with PosixMQConnection _ => true | _ => false end.

Lemma exec_keeps_connections_witness :
  let l := list_of example_sockets in
  let du := example_dummies StdioConnection in
  let e := enc_table walkL walkO walkC l in
  exists l' g', ConnectionList_serialize walkL walkO du (plugin_createDummyConnection du SocketConnList) walkC
      (cl_init nullProcess, mk_Stream true (e +:+ "tail") 0 0 0) = Ok tt (l', g') /\
    rest g' = "tail" /\ cl_view l' = cl_view l.
Proof.
  intros l du e.
  destruct (exec_keeps_connections walkL walkO walkC du SocketConnList l nullProcess
              (mk_Stream false EmptyString 0 2000 0) (mk_Stream true (e +:+ "tail") 0 0 0) "tail")
    as (_ & l' & g' & H1 & H2 & _ & H3 & _).
  - intros m. apply Permutation_refl.
  - intros m. apply Permutation_refl.
  - intros m. apply Permutation_refl.
  - apply example_in_range; [reflexivity|vm_compute; reflexivity].
  - refine (bool_decide_unpack _ _). vm_compute. exact I.
  - assert (E : forallb (fun e => negb (is_mq e)) (entries walkC l) = true) by (vm_compute; reflexivity).
    apply Forall_forall. intros x Hx q Hq. rewrite forallb_forall in E. specialize (E x (proj1 (list_elem_of_In _ _) Hx)).
    unfold is_mq in E. rewrite Hq in E. discriminate E.
  - split; [reflexivity|]. split; [reflexivity|]. apply Nat.leb_le. vm_compute. reflexivity.
  - reflexivity.
  - reflexivity.
  - exists l', g'. exact (conj H1 (conj H2 H3)).
Defined.

(** [mq_open] puts a [PosixMQConnection] into the list of the file plugin, whose
    [createDummyConnection] does not know the type.  A process that has a message queue
    open writes its list before an exec without complaint, and the new program image
    stops at a failed ASSERT when it reads it, whatever else is in the list. *)
Theorem exec_with_message_queue_fails iterL iterO iterC du l u f g k :
  (forall m, iterL m ≡ₚ map_to_list m) -> (forall m, iterO m ≡ₚ map_to_list m) -> (forall m, iterC m ≡ₚ map_to_list m) ->
  table_in_range iterC l -> Forall (fun e => file_class (snd e) = true) (entries iterC l) ->
  Exists (fun e => exists q, con_sub (snd e) = PosixMQConnection q) (entries iterC l) ->
  let e := enc_table iterL iterO iterC l in
  writing (String.length e) f -> sr_reader g = true -> rest g = e +:+ k ->
  let serialize := ConnectionList_serialize iterL iterO du (file_createDummyConnection du) iterC in
  serialize (l, f) = Ok tt (l, wrote e f) /\
  exists s, serialize (cl_init u, g) = Fault (AssertFailed "failed to create dummy connection") s.
Proof.
  intros HL HO HC Hl Hcls Hex e Hw Hr Hk serialize.
  split; [exact (table_write iterL iterO iterC HL HO HC du (file_createDummyConnection du) l f Hl Hw)|].
  destruct (table_read_head iterL iterO iterC HL HO HC du (file_createDummyConnection du) l u g k Hl Hr Hk) as [E Hk'].
  unfold serialize. rewrite E. pose proof Hl as (_ & _ & _ & _ & Hok).
  set (f5 := advanced _ g) in *.
  destruct (read_connections_unknown iterL iterO HL HO du (file_createDummyConnection du) (entries iterC l) Hok)
    with (l := cl_start u (cl_nextConId l)) (f := f5) (k := mark "EOF" +:+ k) as [s Es]; [| |exact Hr|exact Hk'|].
  - eapply Forall_impl; [exact Hcls|]. intros x Hx. destruct (file_dummy du (snd x) Hx) as [[_ ?]|?]; [by left|by right].
  - apply Exists_exists in Hex as (x & Hx & q & Hq). apply Exists_exists. exists x. split; [done|].
    rewrite Forall_forall in Hcls. destruct (file_dummy du (snd x) (Hcls x Hx)) as [[_ ?]|(z & d & Hz & _ & Hd)]; [done|].
    rewrite Hq in Hd. unfold file_createDummyConnection in Hz.
    destruct (_ =? FILE); [by injection Hz as <-|]. destruct (_ =? FIFO); [by injection Hz as <-|].
    destruct (_ =? STDIO); [by injection Hz as <-|]. done.
  - eexists. unfold mbind, M_bind. rewrite Es. reflexivity.
Qed.

Definition example_queue : list (cl_op Derived) :=
  [OpOpen 0 STDIO StdioConnection; OpOpen 5 POSIXMQ (PosixMQConnection (mk_MQFields "/q" 2 384 (str_resize 64 EmptyString)))].

Lemma exec_with_message_queue_fails_witness :
  let l := list_of example_queue in
  let du := example_dummies StdioConnection in
  exists s, ConnectionList_serialize walkL walkO du (file_createDummyConnection du) walkC
      (cl_init nullProcess, mk_Stream true (enc_table walkL walkO walkC l) 0 0 0) =
    Fault (AssertFailed "failed to create dummy connection") s.
Proof.
  intros l du.
  refine (proj2 (exec_with_message_queue_fails walkL walkO walkC du l nullProcess
              (mk_Stream false EmptyString 0 2000 0) (mk_Stream true (enc_table walkL walkO walkC l) 0 0 0) EmptyString
              _ _ _ _ _ _ _ _ _)).
  - intros m. apply Permutation_refl.
  - intros m. apply Permutation_refl.
  - intros m. apply Permutation_refl.
  - apply example_in_range; [reflexivity|vm_compute; reflexivity].
  - refine (bool_decide_unpack _ _). vm_compute. exact I.
  - assert (E : existsb is_mq (entries walkC l) = true) by (vm_compute; reflexivity).
    apply existsb_exists in E as (x & Hx & E). apply Exists_exists. exists x. split; [by apply list_elem_of_In|].
    unfold is_mq in E. destruct (con_sub (snd x)) as [| | | | |q]; try discriminate E. by exists q.
  - split; [reflexivity|]. split; [reflexivity|]. apply Nat.leb_le. vm_compute. reflexivity.
  - reflexivity.
  - symmetry. apply str_app_nil_r.
Defined.
