(* ===== verification/ConnElection.v ===== *)
(** * Electing the process that saves a shared descriptor

    Processes of a host may have descriptors of the same open file description.  At
    a checkpoint one of them is elected, per description, to save and restore it: each
    process makes itself the owner of the description ([fcntl(F_SETOWN)]), and after a
    barrier the one that is still the owner has the lock ([Connection::saveOptions],
    [doLocking], [checkLocking], [restoreOptions] of src/plugin/connection.cpp, called for every connection
    by the loops of src/plugin/connectionlist.cpp).

    The loops of all processes are a step relation: a step is the work on one connection or
    the passing of a barrier.  [Inv] is the invariant, [leader_election_correct] the
    result. *)

From Stdlib Require Import ZArith Lia Ascii.
From stdpp Require Import base gmap strings numbers list relations.
From S2P Require Import Prelude.
Open Scope Z_scope.

Module Election.

(** The loops over the connections of a process, with the barriers between them:
    [preLockSaveOptions], [preCkptFdLeaderElection], [drain] (which calls
    [checkLocking]), [refill] (which calls [restoreOptions]). *)
Inductive phase : Type := Save | Lock | Check | Refill.
#[export] Instance phase_eq_dec : EqDecision phase. Proof. solve_decision. Defined.
Definition rank (ph : phase) : nat := match ph with Save => 0 | Lock => 1 | Check => 2 | Refill => 3 end.
Definition next (ph : phase) : option phase :=
  match ph with Save => Some Lock | Lock => Some Check | Check => Some Refill | Refill => None end.

(** A connection: the description behind its first descriptor, [_fcntlFlags],
    [_fcntlOwner], [_fcntlSignal] and [_hasLock]. *)
Record Con : Type := mk_Con { c_desc : nat; c_flags : Z; c_owner : Z; c_signal : Z; c_hasLock : bool }.
#[export] Instance eta_Con : Settable Con :=
  {| eta_of c := mk_Con (c_desc c) (c_flags c) (c_owner c) (c_signal c) (c_hasLock c) |}.

Record Proc : Type := mk_Proc { p_pid : Z; p_cons : list Con; p_phase : phase; p_pos : nat }.
#[export] Instance eta_Proc : Settable Proc :=
  {| eta_of p := mk_Proc (p_pid p) (p_cons p) (p_phase p) (p_pos p) |}.

(** What the kernel keeps for an open file description and [fcntl] reads and sets. *)
Record Ofd : Type := mk_Ofd { f_flags : Z; f_owner : Z; f_signal : Z }.
#[export] Instance eta_Ofd : Settable Ofd := {| eta_of f := mk_Ofd (f_flags f) (f_owner f) (f_signal f) |}.

Record State : Type := mk_State { procs : list Proc; ofds : gmap nat Ofd }.
#[export] Instance eta_State : Settable State := {| eta_of s := mk_State (procs s) (ofds s) |}.

Definition ofd (d : nat) (s : State) : Ofd := default (mk_Ofd 0 0 0) (ofds s !! d).
Definition getown (d : nat) (s : State) : Z := f_owner (ofd d s).

Section election.
(** The [fcntl] wrapper translates process identifiers, [kill(pid, 0) == 0] tests for
    a process. *)
Context (to_virtual to_real : Z -> Z) (alive : Z -> bool).

(** [fcntl] of the wrapper library: F_GETFL, F_GETOWN and F_GETSIG succeed on an open
    descriptor. *)
Definition saveOptions (c : Con) (s : State) : option Con :=
  let f := ofd (c_desc c) s in
  let c := c <| c_flags := f_flags f |> <| c_owner := to_virtual (f_owner f) |> <| c_signal := f_signal f |> in
  if (0 <=? c_flags c) && negb (c_owner c =? -1) && (0 <=? c_signal c) then Some c else None.

Definition restoreOptions (c : Con) (s : State) : option (gmap nat Ofd) :=
  if (0 <=? c_flags c) && negb (c_owner c =? -1) && (0 <=? c_signal c)
  then
    let f := (ofd (c_desc c) s) <| f_flags := c_flags c |> in
    let f := if alive (c_owner c) then f <| f_owner := to_real (c_owner c) |> else f in
    Some (<[c_desc c := f <| f_signal := c_signal c |>]> (ofds s))
  else None.

Definition doLocking (realPid : Z) (c : Con) (s : State) : Con * gmap nat Ofd :=
  (c <| c_hasLock := false |>, <[c_desc c := (ofd (c_desc c) s) <| f_owner := realPid |>]> (ofds s)).

Definition checkLocking (realPid : Z) (c : Con) (s : State) : option Con :=
  let pid := getown (c_desc c) s in
  if pid =? -1 then None else Some (c <| c_hasLock := (pid =? realPid) |>).

(** What the loop of the current phase does with the connection [c] of process [p];
    [None] when an assertion fails. *)
Definition act (p : Proc) (c : Con) (s : State) : option (Con * gmap nat Ofd) :=
  match p_phase p with
  | Save => c' ← saveOptions c s; Some (c', ofds s)
  | Lock => Some (doLocking (p_pid p) c s)
  | Check => c' ← checkLocking (p_pid p) c s; Some (c', ofds s)
  | Refill => if c_hasLock c then o ← restoreOptions c s; Some (c, o) else Some (c, ofds s)
  end.

Definition arrived (ph : phase) (p : Proc) : bool :=
  Nat.ltb (rank ph) (rank (p_phase p)) || (Nat.eqb (rank ph) (rank (p_phase p)) && Nat.leb (length (p_cons p)) (p_pos p)).

(** One step of process [i]. *)
Definition step_proc (i : nat) (s : State) : option State :=
  p ← procs s !! i;
  match p_cons p !! p_pos p with
  | Some c =>
      '(c', o) ← act p c s;
      Some (mk_State (<[i := p <| p_cons := <[p_pos p := c']> (p_cons p) |> <| p_pos := S (p_pos p) |>]> (procs s)) o)
  | None =>
      ph ← next (p_phase p);
      if forallb (arrived (p_phase p)) (procs s)
      then Some (s <| procs := <[i := p <| p_phase := ph |> <| p_pos := 0%nat |>]> (procs s) |>)
      else None
  end.

Definition step (s s' : State) : Prop := exists i, step_proc i s = Some s'.

(** At the start every process is before its first loop, process identifiers are positive and
    distinct, and [fcntl] reports no error. *)
Definition good_ofd (f : Ofd) : Prop := 0 <= f_flags f /\ to_virtual (f_owner f) <> -1 /\ 0 <= f_signal f.
Definition initial (s : State) : Prop :=
  (forall i p, procs s !! i = Some p -> p_phase p = Save /\ p_pos p = 0%nat /\ 0 < p_pid p) /\
  (forall i j p q, procs s !! i = Some p -> procs s !! j = Some q -> p_pid p = p_pid q -> i = j) /\
  (forall p c, p ∈ procs s -> c ∈ p_cons p -> good_ofd (ofd (c_desc c) s)).

(** *** Invariant *)

Definition con_at (s : State) (k j : nat) (q : Proc) (c : Con) : Prop :=
  procs s !! k = Some q /\ p_cons q !! j = Some c.

(** The loop of phase [ph] has dealt with connection [j] of the process. *)
Definition past (ph : phase) (q : Proc) (j : nat) : Prop :=
  (rank ph < rank (p_phase q))%nat \/ p_phase q = ph /\ (j < p_pos q)%nat.

Definition sig (s : State) : list (Z * list nat) := (fun p => (p_pid p, c_desc <$> p_cons p)) <$> procs s.

(** [leader] gives the elected process of every description: it has a connection of it;
    the connections that were checked know whether they belong to it; it is the owner
    until a refill; the refill puts the former owner back, if there still is one. *)
Record Leader (s0 s : State) (leader : nat -> Z) : Prop := {
  l_one : forall k j q c, con_at s k j q c ->
    exists k2 j2 q2 c2, con_at s k2 j2 q2 c2 /\ c_desc c2 = c_desc c /\ leader (c_desc c) = p_pid q2;
  l_lock : forall k j q c, con_at s k j q c -> past Check q j -> c_hasLock c = (leader (c_desc c) =? p_pid q);
  l_own : (forall k q, procs s !! k = Some q -> (rank (p_phase q) <= 2)%nat) ->
    forall k j q c, con_at s k j q c -> getown (c_desc c) s = leader (c_desc c);
  l_back : forall k j q c, con_at s k j q c -> past Refill q j -> c_hasLock c = true ->
    alive (to_virtual (getown (c_desc c) s0)) = true -> getown (c_desc c) s = getown (c_desc c) s0;
  l_keep : forall k j q c, con_at s k j q c -> alive (to_virtual (getown (c_desc c) s0)) = false ->
    getown (c_desc c) s = leader (c_desc c)
}.

Definition saved (s0 : State) (c : Con) : Prop :=
  c_flags c = f_flags (ofd (c_desc c) s0) /\ c_owner c = to_virtual (getown (c_desc c) s0) /\
  c_signal c = f_signal (ofd (c_desc c) s0).

Record Inv (s0 s : State) : Prop := {
  i_pos : forall k q, procs s !! k = Some q -> (p_pos q <= length (p_cons q))%nat;
  i_bar : forall k q k2 q2, procs s !! k = Some q -> procs s !! k2 = Some q2 ->
    (rank (p_phase q) < rank (p_phase q2))%nat ->
    rank (p_phase q2) = S (rank (p_phase q)) /\ p_pos q = length (p_cons q);
  i_sig : sig s = sig s0;
  i_own0 : (forall k q, procs s !! k = Some q -> p_phase q = Save) -> ofds s = ofds s0;
  i_rest : forall d, f_flags (ofd d s) = f_flags (ofd d s0) /\ f_signal (ofd d s) = f_signal (ofd d s0);
  i_saved : forall k j q c, con_at s k j q c -> past Save q j -> saved s0 c;
  i_lock : (forall k q, procs s !! k = Some q -> (rank (p_phase q) <= 1)%nat) ->
    forall k j q c, con_at s k j q c -> past Lock q j ->
    exists k2 j2 q2 c2, con_at s k2 j2 q2 c2 /\ past Lock q2 j2 /\ c_desc c2 = c_desc c /\ getown (c_desc c) s = p_pid q2;
  i_leader : (exists k q, procs s !! k = Some q /\ (2 <= rank (p_phase q))%nat) -> exists leader, Leader s0 s leader
}.

Lemma next_rank_S ph0 ph : next ph0 = Some ph -> rank ph = S (rank ph0).
Proof. by destruct ph0; intros [= <-]. Qed.

(** The two kinds of steps, seen from the connections. *)
Section step_views.
Context (s : State) (i : nat) (p : Proc) (Hp : procs s !! i = Some p).

Section acting.
Context (c c' : Con) (o : gmap nat Ofd) (Hc : p_cons p !! p_pos p = Some c) (Hact : act p c s = Some (c', o)).
Let p' := p <| p_cons := <[p_pos p := c']> (p_cons p) |> <| p_pos := S (p_pos p) |>.
Let s' := mk_State (<[i := p']> (procs s)) o.

(** The effect of the loop bodies, by phase. *)
Definition act_effect : Prop :=
  match p_phase p with
  | Save => o = ofds s /\ c_flags c' = f_flags (ofd (c_desc c) s) /\ c_owner c' = to_virtual (getown (c_desc c) s) /\
            c_signal c' = f_signal (ofd (c_desc c) s)
  | Lock => c' = c <| c_hasLock := false |> /\ o = <[c_desc c := (ofd (c_desc c) s) <| f_owner := p_pid p |>]> (ofds s)
  | Check => c' = c <| c_hasLock := (getown (c_desc c) s =? p_pid p) |> /\ o = ofds s
  | Refill => c' = c /\ (c_hasLock c = false /\ o = ofds s \/ c_hasLock c = true /\
      o = <[c_desc c := mk_Ofd (c_flags c) (if alive (c_owner c) then to_real (c_owner c) else getown (c_desc c) s) (c_signal c)]> (ofds s))
  end.

Lemma act_spec : c_desc c' = c_desc c /\ act_effect.
Proof.
  unfold act_effect. generalize Hact. unfold act, saveOptions, doLocking, checkLocking, restoreOptions.
  destruct (p_phase p); cbn; unfold set_field; cbn.
  - destruct (_ && _); [|done]. by intros [= <- <-].
  - by intros [= <- <-].
  - destruct (_ =? -1); [done|]. by intros [= <- <-].
  - destruct (c_hasLock c); [|by intros [= <- <-]; split; [|split; [|left]]]. destruct (_ && _); [|done]. cbn. intros [= <- <-].
    split; [done|]. split; [done|]. right. split; [done|]. f_equal. by destruct (alive _).
Qed.

Lemma act_desc : c_desc c' = c_desc c.
Proof. apply act_spec. Qed.

Lemma act_proc k q : procs s' !! k = Some q ->
  exists q0, procs s !! k = Some q0 /\ p_pid q = p_pid q0 /\ p_phase q = p_phase q0 /\ length (p_cons q) = length (p_cons q0) /\
  (k = i /\ q0 = p /\ p_pos q = S (p_pos p) \/ k <> i /\ q = q0).
Proof.
  unfold s'. cbn [procs]. destruct (decide (k = i)) as [->|Hne].
  - rewrite list_lookup_insert_eq by (by eapply lookup_lt_Some). intros [= <-]. exists p. unfold p'. rsimpl. rsimpl.
    rewrite length_insert. split_and!; try done. by left.
  - rewrite list_lookup_insert_ne by done. intros Hq. exists q. split_and!; try done. by right.
Qed.

Lemma act_con k j q c2 : con_at s' k j q c2 -> exists q0 c0, con_at s k j q0 c0 /\ p_pid q = p_pid q0 /\
  p_phase q = p_phase q0 /\ c_desc c2 = c_desc c0 /\
  (k = i /\ j = p_pos p /\ q0 = p /\ c0 = c /\ c2 = c' \/
   (k <> i \/ j <> p_pos p) /\ c2 = c0 /\ forall ph, past ph q j -> past ph q0 j).
Proof.
  unfold con_at, s'. cbn [procs]. destruct (decide (k = i)) as [->|Hne].
  - rewrite list_lookup_insert_eq by (by eapply lookup_lt_Some). intros [[= <-] Hj]. revert Hj. unfold p'. rsimpl. rsimpl.
    destruct (decide (j = p_pos p)) as [->|Hj].
    + rewrite list_lookup_insert_eq by (by eapply lookup_lt_Some). intros [= <-]. exists p, c. rewrite act_desc.
      split_and!; try done. by left.
    + rewrite list_lookup_insert_ne by done. intros Hc2. exists p, c2. split_and!; try done. right. split_and!; [by right|done|].
      intros ph [H|[H1 H2]]; [by left|]. right. revert H1 H2. rsimpl. rsimpl. intros -> H2. split; [done|lia].
  - rewrite list_lookup_insert_ne by done. intros [Hq Hj]. exists q, c2. split_and!; try done. right. split_and!; [by left|done..].
Qed.

Lemma act_con_back k j q0 c0 : con_at s k j q0 c0 -> exists q c2, con_at s' k j q c2 /\ p_pid q = p_pid q0 /\
  c_desc c2 = c_desc c0 /\ (forall ph, past ph q0 j -> past ph q j) /\ (k = i -> j = p_pos p -> past (p_phase p) q j).
Proof.
  unfold con_at, s'. cbn [procs]. intros [Hq Hj]. destruct (decide (k = i)) as [->|Hne].
  - assert (q0 = p) as -> by congruence. exists p'. rewrite list_lookup_insert_eq by (by eapply lookup_lt_Some).
    assert (Hpast : forall ph, past ph p j -> past ph p' j).
    { unfold past, p'. rsimpl. rsimpl. intros ph [H|[H1 H2]]; [by left|right; split; [done|lia]]. }
    assert (Hnew : j = p_pos p -> past (p_phase p) p' j) by (unfold past, p'; rsimpl; rsimpl; intros ->; right; split; [done|lia]).
    destruct (decide (j = p_pos p)) as [->|Hjne].
    + exists c'. split_and!; try done; [|rewrite act_desc; congruence].
      unfold p'. rsimpl. rsimpl. apply list_lookup_insert_eq. by eapply lookup_lt_Some.
    + exists c0. split_and!; try done. unfold p'. rsimpl. rsimpl. by rewrite list_lookup_insert_ne.
  - exists q0, c0. rewrite list_lookup_insert_ne by done. split_and!; try done.
Qed.

Lemma act_sig : sig s' = sig s.
Proof.
  unfold sig, s'. cbn [procs]. rewrite list_fmap_insert. apply list_insert_id. rewrite list_lookup_fmap, Hp. cbn. f_equal.
  unfold p'. rsimpl. rsimpl. f_equal. rewrite list_fmap_insert. symmetry. apply list_insert_id.
  rewrite list_lookup_fmap, Hc. cbn. by rewrite act_desc.
Qed.

(** A process that works on a connection is not behind any other. *)
Context (s0 : State) (HI : Inv s0 s).

Lemma acting_max k q : procs s !! k = Some q -> (rank (p_phase q) <= rank (p_phase p))%nat.
Proof.
  intros Hq. destruct (decide (rank (p_phase q) <= rank (p_phase p))%nat) as [|Hgt]; [done|].
  destruct (i_bar _ _ HI i p k q Hp Hq) as [_ Hend]; [lia|]. apply lookup_lt_Some in Hc. lia.
Qed.

Lemma acting_past ph k j q : p_phase p <> ph -> (rank (p_phase p) <= rank ph)%nat -> procs s !! k = Some q -> past ph q j -> False.
Proof.
  intros Hne Hle Hq [H|[H1 H2]]; pose proof (acting_max k q Hq); [lia|]. subst ph.
  assert (rank (p_phase p) = rank (p_phase q)) by lia. by destruct (p_phase p), (p_phase q).
Qed.

(** What the description of the connection becomes; the others do not change. *)
Lemma act_ofd_ne d : d <> c_desc c -> ofd d s' = ofd d s.
Proof.
  intros Hne. destruct act_spec as [_ He]. unfold act_effect in He. unfold ofd, s'. cbn [ofds].
  destruct (p_phase p); [by destruct He as [-> _]|destruct He as [_ ->]|by destruct He as [_ ->]|destruct He as [_ [[_ ->]|[_ ->]]]];
    try done; by rewrite lookup_insert_ne.
Qed.

Lemma act_saved : forall k j q c2, con_at s' k j q c2 -> past Save q j -> saved s0 c2.
Proof.
  intros k j q c2 Hat Hpast. destruct (act_con k j q c2 Hat) as (q0 & c0 & Hat0 & _ & Hph & Hd & [Hnew|Hold]).
  - destruct Hnew as (-> & -> & -> & -> & ->). destruct act_spec as [_ He]. unfold act_effect in He.
    destruct (decide (p_phase p = Save)) as [Hs|Hs].
    + rewrite Hs in He. destruct He as (_ & Hf & Ho & Hg). unfold saved. rewrite Hd, Hf, Ho, Hg. unfold getown, ofd.
      rewrite (i_own0 _ _ HI); [done|]. intros k q1 Hq1. pose proof (acting_max k q1 Hq1) as Hm. rewrite Hs in Hm.
      cbn in Hm. destruct (p_phase q1); cbn in Hm; try done; lia.
    + assert (Hsv : saved s0 c) by (apply (i_saved _ _ HI i (p_pos p) p c Hat0); left; destruct (p_phase p); cbn; try done; lia).
      unfold saved in *. destruct (p_phase p); try done; destruct He as [-> _]; rsimpl; done.
  - destruct Hold as (_ & -> & Hp0). by apply (i_saved _ _ HI k j q0 c0 Hat0), Hp0.
Qed.

Lemma act_rest d : f_flags (ofd d s') = f_flags (ofd d s0) /\ f_signal (ofd d s') = f_signal (ofd d s0).
Proof.
  pose proof (i_rest _ _ HI d) as Hr. destruct (decide (d = c_desc c)) as [->|Hne]; [|by rewrite act_ofd_ne].
  destruct act_spec as [_ He]. unfold act_effect in He. unfold ofd at 1 3, s'. cbn [ofds].
  destruct (p_phase p) eqn:Hph; [by destruct He as [-> _]|destruct He as [_ ->]|by destruct He as [_ ->]|destruct He as [_ [[_ ->]|[_ ->]]]];
    try done; rewrite lookup_insert_eq; cbn [default]; [rsimpl; done|].
  destruct (i_saved _ _ HI i (p_pos p) p c) as (Hf & _ & Hg); [done|left; rewrite Hph; cbn; lia|done].
Qed.

Lemma act_lock : (forall k q, procs s' !! k = Some q -> (rank (p_phase q) <= 1)%nat) ->
  forall k j q c1, con_at s' k j q c1 -> past Lock q j ->
  exists k2 j2 q2 c2, con_at s' k2 j2 q2 c2 /\ past Lock q2 j2 /\ c_desc c2 = c_desc c1 /\ getown (c_desc c1) s' = p_pid q2.
Proof.
  intros Hall k j q c1 Hat Hpast. destruct (act_con k j q c1 Hat) as (q0 & c0 & Hat0 & Hpid & Hph & Hd & Hcase).
  destruct (act_con_back i (p_pos p) p c) as (pn & cn & Hn & Hpn & Hdn & _ & Hpastn); [done|].
  assert (Hr : forall k q, procs s !! k = Some q -> (rank (p_phase q) <= 1)%nat).
  { intros k1 q1 Hq1. destruct (decide (k1 = i)) as [->|Hne].
    - assert (q1 = p) as -> by congruence. apply (Hall i p'). unfold s'. cbn [procs].
      apply list_lookup_insert_eq. by eapply lookup_lt_Some.
    - apply (Hall k1). unfold s'. cbn [procs]. by rewrite list_lookup_insert_ne. }
  destruct (decide (p_phase p = Lock)) as [Hl|Hl].
  - destruct act_spec as [_ He]. unfold act_effect in He. rewrite Hl in He. destruct He as [Hc' Ho]. destruct (decide (c_desc c = c_desc c1)) as [Heq|Hne].
    + exists i, (p_pos p), pn, cn. split_and!; [done| |congruence|].
      * rewrite <- Hl. by apply Hpastn.
      * unfold getown, ofd, s'. cbn [ofds]. rewrite Ho, Heq, lookup_insert_eq, Hpn. cbn. by rsimpl.
    + destruct Hcase as [(-> & -> & -> & -> & ->)|(_ & -> & Hp0)]; [by rewrite act_desc in Hne|].
      destruct (i_lock _ _ HI Hr k j q0 c0 Hat0 (Hp0 _ Hpast)) as (k2 & j2 & q2 & c2 & Hat2 & Hpast2 & Hd2 & Hg).
      destruct (act_con_back k2 j2 q2 c2 Hat2) as (q3 & c3 & Hat3 & Hpid3 & Hd3 & Hp3 & _).
      exists k2, j2, q3, c3. split_and!; [done|by apply Hp3|congruence|]. rewrite Hpid3, <- Hg. unfold getown.
      by rewrite act_ofd_ne.
  - exfalso. pose proof (Hr i p Hp) as Hrp. destruct Hcase as [(-> & -> & -> & -> & ->)|(_ & -> & Hp0)].
    + destruct Hpast as [H|[H1 H2]]; rewrite Hph in *; [cbn in H; lia|done].
    + apply (acting_past Lock k j q0 Hl); [cbn; lia|apply Hat0|by apply Hp0].
Qed.

(** What is known of the elected processes once some process checks the locks. *)
Lemma act_leader : (exists k q, procs s' !! k = Some q /\ (2 <= rank (p_phase q))%nat) ->
  (forall k j q c, con_at s k j q c -> to_real (to_virtual (getown (c_desc c) s0)) = getown (c_desc c) s0) ->
  exists leader, Leader s0 s' leader.
Proof.
  intros (k1 & q1 & Hq1 & Hr1) Htr. destruct (act_proc k1 q1 Hq1) as (q1' & Hq1' & _ & Hph1 & _).
  pose proof (acting_max k1 q1' Hq1') as Hm1. rewrite <- Hph1 in Hm1.
  destruct (i_leader _ _ HI) as [leader HL]; [exists k1, q1'; rewrite <- Hph1; done|]. exists leader.
  assert (Hown : forall k j q0 c0, con_at s k j q0 c0 ->
    getown (c_desc c0) s' = getown (c_desc c0) s \/
    p_phase p = Refill /\ c_desc c0 = c_desc c /\ alive (to_virtual (getown (c_desc c) s0)) = true /\
    getown (c_desc c0) s' = getown (c_desc c0) s0).
  { intros k j q0 c0 Hat. destruct (decide (c_desc c0 = c_desc c)) as [->|Hne]; [|left; unfold getown; by rewrite act_ofd_ne].
    destruct act_spec as [_ He]. unfold act_effect in He. unfold getown at 1 4, ofd at 1 2, s'. cbn [ofds].
    destruct (p_phase p) eqn:Hph; cbn in Hm1; try lia; [destruct He as [_ ->]; by left|].
    destruct (i_saved _ _ HI i (p_pos p) p c) as (_ & Hsv & _); [done|left; rewrite Hph; cbn; lia|].
    destruct He as [_ [[_ ->]|[_ ->]]]; [by left|]. rewrite lookup_insert_eq. cbn. rewrite Hsv.
    destruct (alive (to_virtual _)) eqn:Hal; [right|by left]. split_and!; try done. by apply (Htr i (p_pos p) p c). }
  split.
  - intros k j q c2 Hat. destruct (act_con k j q c2 Hat) as (q0 & c0 & Hat0 & _ & _ & Hd & _).
    destruct (l_one _ _ _ HL k j q0 c0 Hat0) as (k2 & j2 & q2 & c3 & Hat2 & Hd2 & Hl).
    destruct (act_con_back k2 j2 q2 c3 Hat2) as (q4 & c4 & Hat4 & Hpid4 & Hd4 & _).
    exists k2, j2, q4, c4. split_and!; [done|congruence..].
  - intros k j q c2 Hat Hpast. destruct (act_con k j q c2 Hat) as (q0 & c0 & Hat0 & Hpid & Hph & Hd & [Hnew|Hold]).
    + destruct Hnew as (-> & -> & -> & -> & ->). rewrite Hd, Hpid. destruct act_spec as [_ He]. unfold act_effect in He.
      destruct (p_phase p) eqn:Hpp; cbn in Hm1; try lia; destruct He as [Hc' _].
      * rewrite Hc'. rsimpl. f_equal. apply (l_own _ _ _ HL) with i (p_pos p) p; [|done].
        intros k2 q2 Hq2. pose proof (acting_max k2 q2 Hq2) as Hm. by rewrite Hpp in Hm.
      * rewrite Hc'. apply (l_lock _ _ _ HL i (p_pos p) p c Hat0). left. rewrite Hpp. cbn. lia.
    + destruct Hold as (_ & -> & Hp0). rewrite Hpid. by apply (l_lock _ _ _ HL k j q0 c0 Hat0), Hp0.
  - intros Hall k j q c2 Hat. destruct (act_con k j q c2 Hat) as (q0 & c0 & Hat0 & Hpid & Hph & Hd & _). rewrite Hd.
    assert (Hpr : (rank (p_phase p) <= 2)%nat).
    { apply (Hall i p'). unfold s'. cbn [procs]. apply list_lookup_insert_eq. by eapply lookup_lt_Some. }
    destruct (Hown k j q0 c0 Hat0) as [->|(Hrf & _)]; [|rewrite Hrf in Hpr; cbn in Hpr; lia].
    apply (l_own _ _ _ HL) with k j q0; [|done]. intros k2 q2 Hq2. pose proof (acting_max k2 q2 Hq2). lia.
  - intros k j q c2 Hat Hpast Hlk Hal. destruct (act_con k j q c2 Hat) as (q0 & c0 & Hat0 & Hpid & Hph & Hd & Hcase).
    rewrite Hd in *. destruct (Hown k j q0 c0 Hat0) as [Hsame|(_ & _ & _ & ->)]; [|done]. rewrite Hsame.
    destruct Hcase as [(-> & -> & -> & -> & ->)|(_ & -> & Hp0)]; [|by apply (l_back _ _ _ HL k j q0 c0 Hat0); [apply Hp0|..]].
    destruct Hpast as [H|[H1 H2]]; [destruct (p_phase q); cbn in H; lia|]. rewrite Hph in H1. rewrite <- Hsame.
    destruct act_spec as [_ He]. unfold act_effect in He. rewrite H1 in He. destruct He as [-> [[Hno _]|[_ Ho]]]; [congruence|].
    destruct (i_saved _ _ HI i (p_pos p) p c Hat0) as (_ & Hsv & _); [left; rewrite H1; cbn; lia|].
    unfold getown at 1, ofd at 1, s'. cbn [ofds]. rewrite Ho, lookup_insert_eq. cbn. rewrite Hsv, Hal. by apply (Htr i (p_pos p) p c).
  - intros k j q c2 Hat Hal. destruct (act_con k j q c2 Hat) as (q0 & c0 & Hat0 & Hpid & Hph & Hd & _). rewrite Hd in *.
    destruct (Hown k j q0 c0 Hat0) as [->|(_ & Hdc & Hal' & _)]; [by apply (l_keep _ _ _ HL k j q0)|]. rewrite Hdc in Hal. congruence.
Qed.

Lemma act_inv :
  (forall k j q c, con_at s k j q c -> to_real (to_virtual (getown (c_desc c) s0)) = getown (c_desc c) s0) -> Inv s0 s'.
Proof.
  intros Htr. split; [| | | |apply act_rest|apply act_saved|apply act_lock|by intros; apply act_leader].
  - intros k q Hq. destruct (act_proc k q Hq) as (q0 & Hq0 & _ & _ & Hlen & [(-> & -> & ->)|(_ & ->)]).
    + rewrite Hlen. by apply lookup_lt_Some in Hc.
    + by apply (i_pos _ _ HI k).
  - intros k q k2 q2 Hq Hq2 Hlt.
    destruct (act_proc k q Hq) as (q0 & Hq0 & _ & Hph & Hlen & Hk), (act_proc k2 q2 Hq2) as (q02 & Hq02 & _ & Hph2 & _ & _).
    rewrite Hph, Hph2 in Hlt |- *. destruct (i_bar _ _ HI k q0 k2 q02 Hq0 Hq02 Hlt) as [-> Hend]. split; [done|].
    destruct Hk as [(-> & -> & _)|(_ & ->)]; [|done]. apply lookup_lt_Some in Hc. lia.
  - by rewrite act_sig, (i_sig _ _ HI).
  - intros Hall. assert (Hs : p_phase p = Save).
    { apply (Hall i p'). unfold s'. cbn [procs]. apply list_lookup_insert_eq. by eapply lookup_lt_Some. }
    destruct act_spec as [_ He]. unfold act_effect in He. rewrite Hs in He. destruct He as [Ho _].
    unfold s'. cbn [ofds]. rewrite Ho. apply (i_own0 _ _ HI).
    intros k q Hq. pose proof (acting_max k q Hq) as Hm. rewrite Hs in Hm. destruct (p_phase q); cbn in Hm; try done; lia.
Qed.
End acting.

Section passing.
Context (ph : phase) (Hnext : next (p_phase p) = Some ph) (Hend : p_cons p !! p_pos p = None)
  (Hall : forallb (arrived (p_phase p)) (procs s) = true) (s0 : State) (HI : Inv s0 s).
Let p' := p <| p_phase := ph |> <| p_pos := 0%nat |>.
Let s' := s <| procs := <[i := p']> (procs s) |>.

Lemma next_rank : rank ph = S (rank (p_phase p)).
Proof. exact (next_rank_S _ _ Hnext). Qed.

Lemma pass_arrived k q : procs s !! k = Some q ->
  rank (p_phase q) = S (rank (p_phase p)) \/ rank (p_phase q) = rank (p_phase p) /\ p_pos q = length (p_cons q).
Proof.
  intros Hq. pose proof (i_pos _ _ HI k q Hq). pose proof (i_bar _ _ HI i p k q Hp Hq) as Hb.
  rewrite forallb_forall in Hall. specialize (Hall q). rewrite <- list_elem_of_In in Hall.
  specialize (Hall (list_elem_of_lookup_2 _ _ _ Hq)). unfold arrived in Hall.
  apply orb_prop in Hall as [H1|H1]; [apply Nat.ltb_lt in H1; left; by apply Hb|].
  apply andb_prop in H1 as [H1 H2]. apply Nat.eqb_eq in H1. apply Nat.leb_le in H2. right. lia.
Qed.

Lemma pass_proc k q : procs s' !! k = Some q -> exists q0, procs s !! k = Some q0 /\ p_pid q = p_pid q0 /\
  p_cons q = p_cons q0 /\ (k = i /\ q0 = p /\ q = p' \/ k <> i /\ q = q0).
Proof.
  unfold s'. rsimpl. destruct (decide (k = i)) as [->|Hne].
  - rewrite list_lookup_insert_eq by (by eapply lookup_lt_Some). intros [= <-]. exists p. unfold p'. rsimpl. rsimpl.
    split_and!; try done. by left.
  - rewrite list_lookup_insert_ne by done. intros Hq. exists q. split_and!; try done. by right.
Qed.

Lemma pass_past k j c : con_at s k j p c -> forall ph2, past ph2 p' j <-> past ph2 p j.
Proof.
  intros [_ Hj] ph2. apply lookup_lt_Some in Hj. apply lookup_ge_None_1 in Hend. pose proof next_rank as Hnr. unfold past, p'. rsimpl. rsimpl.
  split; intros [H|[H1 H2]]; try lia.
  - destruct (decide (rank ph2 < rank (p_phase p))%nat); [by left|]. right. assert (rank ph2 = rank (p_phase p)) as He by lia.
    split; [|lia]. by destruct (p_phase p), ph2.
  - left. rewrite <- H1. lia.
Qed.

Lemma pass_con k j q c : con_at s' k j q c ->
  exists q0, con_at s k j q0 c /\ p_pid q = p_pid q0 /\ forall ph2, past ph2 q j <-> past ph2 q0 j.
Proof.
  intros [Hq Hj]. destruct (pass_proc k q Hq) as (q0 & Hq0 & Hpid & Hcs & Hk). exists q0. rewrite Hcs in Hj.
  split_and!; [done..|]. destruct Hk as [(-> & -> & ->)|(_ & ->)]; [by apply (pass_past i j c)|done].
Qed.

Lemma pass_con_back k j q0 c : con_at s k j q0 c ->
  exists q, con_at s' k j q c /\ p_pid q = p_pid q0 /\ forall ph2, past ph2 q j <-> past ph2 q0 j.
Proof.
  intros [Hq Hj]. unfold con_at, s'. rsimpl. destruct (decide (k = i)) as [->|Hne].
  - assert (q0 = p) as -> by congruence. exists p'. rewrite list_lookup_insert_eq by (by eapply lookup_lt_Some).
    split_and!; try done. by apply (pass_past i j c).
  - exists q0. by rewrite list_lookup_insert_ne by done.
Qed.

Lemma pass_rank k q : procs s' !! k = Some q -> exists q0, procs s !! k = Some q0 /\
  (rank (p_phase q0) <= rank (p_phase q))%nat.
Proof.
  intros Hq. destruct (pass_proc k q Hq) as (q0 & Hq0 & _ & _ & Hk). exists q0. split; [done|].
  destruct Hk as [(-> & -> & ->)|(_ & ->)]; [|done]. unfold p'. rsimpl. rsimpl. pose proof next_rank. lia.
Qed.

Lemma pass_rank_back k q0 : procs s !! k = Some q0 -> exists q, procs s' !! k = Some q /\
  (rank (p_phase q0) <= rank (p_phase q))%nat.
Proof.
  intros Hq. unfold s'. rsimpl. destruct (decide (k = i)) as [->|Hne].
  - assert (q0 = p) as -> by congruence. exists p'. rewrite list_lookup_insert_eq by (by eapply lookup_lt_Some).
    split; [done|]. unfold p'. rsimpl. rsimpl. pose proof next_rank. lia.
  - exists q0. by rewrite list_lookup_insert_ne by done.
Qed.

Lemma pass_own d : getown d s' = getown d s.
Proof. reflexivity. Qed.

(** The elected processes do not change; the first process to check the locks finds
    that every process has set itself as the owner. *)
Lemma pass_leader : (exists k q, procs s' !! k = Some q /\ (2 <= rank (p_phase q))%nat) -> exists leader, Leader s0 s' leader.
Proof.
  intros (k1 & q1 & Hq1 & Hr1).
  destruct (decide (Exists (fun q => 2 <= rank (p_phase q))%nat (procs s))) as [He|Hno].
  - apply Exists_exists in He as (q2 & Hin & Hr2). apply list_elem_of_lookup in Hin as [k2 Hq2].
    destruct (i_leader _ _ HI) as [leader HL]; [by exists k2, q2|]. exists leader. split.
    + intros k j q c Hat. destruct (pass_con k j q c Hat) as (q0 & Hat0 & _).
      destruct (l_one _ _ _ HL k j q0 c Hat0) as (k3 & j3 & q3 & c3 & Hat3 & Hd & Hl).
      destruct (pass_con_back k3 j3 q3 c3 Hat3) as (q4 & Hat4 & Hpid & _). exists k3, j3, q4, c3. split_and!; [done..|congruence].
    + intros k j q c Hat Hpast. destruct (pass_con k j q c Hat) as (q0 & Hat0 & -> & Hp0).
      by apply (l_lock _ _ _ HL k j q0 c Hat0), Hp0.
    + intros Hle k j q c Hat. destruct (pass_con k j q c Hat) as (q0 & Hat0 & _). rewrite pass_own.
      apply (l_own _ _ _ HL) with k j q0; [|done]. intros k3 q3 Hq3.
      destruct (pass_rank_back k3 q3 Hq3) as (q4 & Hq4 & Hr4). specialize (Hle k3 q4 Hq4). lia.
    + intros k j q c Hat Hpast Hlk Hal. destruct (pass_con k j q c Hat) as (q0 & Hat0 & _ & Hp0). rewrite pass_own.
      by apply (l_back _ _ _ HL k j q0 c Hat0); [apply Hp0|..].
    + intros k j q c Hat Hal. destruct (pass_con k j q c Hat) as (q0 & Hat0 & _). rewrite pass_own.
      by apply (l_keep _ _ _ HL k j q0 c Hat0).
  - assert (Hr : forall k q, procs s !! k = Some q -> (rank (p_phase q) <= 1)%nat).
    { intros k q Hq. destruct (decide (2 <= rank (p_phase q))%nat) as [Hge|]; [|lia]. exfalso. apply Hno.
      apply Exists_exists. exists q. split; [by eapply list_elem_of_lookup_2|done]. }
    assert (Hph1 : rank (p_phase p) = 1%nat).
    { destruct (pass_proc k1 q1 Hq1) as (q0 & Hq0 & _ & _ & [(-> & -> & ->)|(_ & ->)]).
      - revert Hr1. unfold p'. rsimpl. rsimpl. pose proof next_rank. pose proof (Hr i p Hp). lia.
      - pose proof (Hr k1 q0 Hq0). lia. }
    assert (Hnone : forall k j q c ph2, (2 <= rank ph2)%nat -> con_at s' k j q c -> past ph2 q j -> False).
    { intros k j q c ph2 Hge Hat Hpast. destruct (pass_con k j q c Hat) as (q0 & [Hq0 _] & _ & Hp0). apply Hp0 in Hpast.
      pose proof (Hr k q0 Hq0). destruct Hpast as [H1|[H1 _]]; [lia|subst; lia]. }
    exists (fun d => getown d s). split.
    + intros k j q c Hat. destruct (pass_con k j q c Hat) as (q0 & Hat0 & _).
      destruct (i_lock _ _ HI Hr k j q0 c Hat0) as (k3 & j3 & q3 & c3 & Hat3 & _ & Hd & Hl).
      { destruct Hat0 as [Hq0 Hj]. apply lookup_lt_Some in Hj. pose proof (Hr k q0 Hq0).
        destruct (pass_arrived k q0 Hq0) as [Hx|[Hx Hy]]; [lia|]. right. rewrite Hph1 in Hx. split; [by destruct (p_phase q0)|lia]. }
      destruct (pass_con_back k3 j3 q3 c3 Hat3) as (q4 & Hat4 & Hpid & _). exists k3, j3, q4, c3. split_and!; [done..|congruence].
    + intros k j q c Hat Hpast. destruct (Hnone k j q c Check); cbn; (lia || done).
    + done.
    + intros k j q c Hat Hpast. destruct (Hnone k j q c Refill); cbn; (lia || done).
    + done.
Qed.

Lemma pass_inv : Inv s0 s'.
Proof.
  pose proof next_rank as Hnr. split; [| | | |exact (i_rest _ _ HI)| | |apply pass_leader].
  - intros k q Hq. destruct (pass_proc k q Hq) as (q0 & Hq0 & _ & _ & [(-> & -> & ->)|(_ & ->)]); [unfold p'; rsimpl; lia|].
    by apply (i_pos _ _ HI k).
  - intros k q k2 q2 Hq Hq2 Hlt.
    destruct (pass_proc k q Hq) as (q0 & Hq0 & _ & _ & Hk), (pass_proc k2 q2 Hq2) as (q02 & Hq02 & _ & _ & Hk2).
    pose proof (pass_arrived k q0 Hq0) as Ha. pose proof (pass_arrived k2 q02 Hq02) as Ha2.
    assert (Hrp : rank (p_phase p') = S (rank (p_phase p))) by (unfold p'; rsimpl; rsimpl; done).
    destruct Hk as [(-> & -> & ->)|(_ & ->)], Hk2 as [(-> & -> & ->)|(_ & ->)].
    + lia.
    + lia.
    + destruct Ha as [Ha|[Ha ?]]; [lia|]. split; [lia|done].
    + by apply (i_bar _ _ HI k q0 k2 q02).
  - rewrite <- (i_sig _ _ HI). unfold sig, s'. rsimpl. rewrite list_fmap_insert. apply list_insert_id.
    rewrite list_lookup_fmap, Hp. done.
  - intros Hsv. exfalso. assert (p_phase p' = Save) as H0.
    { apply (Hsv i). unfold s'. rsimpl. apply list_lookup_insert_eq. by eapply lookup_lt_Some. }
    revert H0. unfold p'. rsimpl. rsimpl. intros ->. cbn in Hnr. lia.
  - intros k j q c Hat Hpast. destruct (pass_con k j q c Hat) as (q0 & Hat0 & _ & Hp0). by apply (i_saved _ _ HI k j q0 c Hat0), Hp0.
  - intros Hle k j q c Hat Hpast. destruct (pass_con k j q c Hat) as (q0 & Hat0 & _ & Hp0).
    destruct (i_lock _ _ HI) with k j q0 c as (k3 & j3 & q3 & c3 & Hat3 & Hp3 & Hd & Hl); [|done|by apply Hp0|].
    + intros k3 q3 Hq3. destruct (pass_rank_back k3 q3 Hq3) as (q4 & Hq4 & Hr4). specialize (Hle k3 q4 Hq4). lia.
    + destruct (pass_con_back k3 j3 q3 c3 Hat3) as (q4 & Hat4 & Hpid & Hp4). exists k3, j3, q4, c3.
      split_and!; [done|by apply Hp4|done|]. rewrite pass_own. congruence.
Qed.
End passing.
End step_views.

(** *** Runs *)

(** The system keeps the identifiers of the owners: what the wrapper of [fcntl] reports for an
    owner it turns back into that owner. *)
Definition owners_known (s : State) : Prop :=
  forall p c, p ∈ procs s -> c ∈ p_cons p -> to_real (to_virtual (getown (c_desc c) s)) = getown (c_desc c) s.

Lemma con_sig s s0 k j q c : sig s = sig s0 -> con_at s k j q c ->
  exists q0 c0, con_at s0 k j q0 c0 /\ p_pid q0 = p_pid q /\ c_desc c0 = c_desc c.
Proof.
  unfold sig, con_at. intros Hs [Hq Hj]. assert (Hl : (fun p => (p_pid p, c_desc <$> p_cons p)) <$> procs s0 !! k =
    Some (p_pid q, c_desc <$> p_cons q)) by (rewrite <- list_lookup_fmap, <- Hs, list_lookup_fmap, Hq; done).
  destruct (procs s0 !! k) as [q0|] eqn:Hq0; [|done]. cbn in Hl. injection Hl as Hpid Hcs.
  assert (Hd : c_desc <$> p_cons q0 !! j = Some (c_desc c)) by (rewrite <- list_lookup_fmap, Hcs, list_lookup_fmap, Hj; done).
  destruct (p_cons q0 !! j) as [c0|] eqn:Hc0; [|done]. injection Hd as Hd. by exists q0, c0.
Qed.

Lemma owners_known_at s0 s : owners_known s0 -> sig s = sig s0 -> forall k j q c, con_at s k j q c ->
  to_real (to_virtual (getown (c_desc c) s0)) = getown (c_desc c) s0.
Proof.
  intros Hk Hs k j q c Hat. destruct (con_sig _ _ k j q c Hs Hat) as (q0 & c0 & [Hq0 Hc0] & _ & <-).
  apply (Hk q0 c0); by eapply list_elem_of_lookup_2.
Qed.

Lemma step_inv s0 s s' : owners_known s0 -> Inv s0 s -> step s s' -> Inv s0 s'.
Proof.
  intros Hk HI [i Hst]. unfold step_proc in Hst. destruct (procs s !! i) as [p|] eqn:Hp; [|done]. cbn in Hst.
  destruct (p_cons p !! p_pos p) as [c|] eqn:Hc.
  - destruct (act p c s) as [[c' o]|] eqn:Hact; [|done]. injection Hst as <-.
    by eapply act_inv; [..|by apply owners_known_at, HI].
  - destruct (next (p_phase p)) as [ph|] eqn:Hn; [|done]. cbn in Hst.
    destruct (forallb _ _) eqn:Hall; [|done]. injection Hst as <-. by eapply pass_inv.
Qed.

Lemma initial_inv s : initial s -> Inv s s.
Proof.
  intros (H0 & _ & _). assert (Hp : forall k q, procs s !! k = Some q -> p_phase q = Save /\ p_pos q = 0%nat).
  { intros k q Hq. by destruct (H0 k q Hq) as (? & ? & ?). }
  assert (Hpast : forall k j q c ph, con_at s k j q c -> past ph q j -> False).
  { intros k j q c ph [Hq _] [Hr|[_ Hr]]; destruct (Hp k q Hq) as [Hs Hz]; [rewrite Hs in Hr; cbn in Hr|]; lia. }
  split; try done.
  - intros k q Hq. destruct (Hp k q Hq) as [_ ->]. lia.
  - intros k q k2 q2 Hq Hq2. destruct (Hp k q Hq) as [-> _], (Hp k2 q2 Hq2) as [-> _]. lia.
  - intros k j q c Hat Hps. by destruct (Hpast k j q c Save Hat).
  - intros _ k j q c Hat Hps. by destruct (Hpast k j q c Lock Hat).
  - intros (k & q & Hq & Hr). destruct (Hp k q Hq) as [Hs _]. rewrite Hs in Hr. cbn in Hr. lia.
Qed.

Lemma run_inv s0 s : owners_known s0 -> initial s0 -> rtc step s0 s -> Inv s0 s.
Proof.
  intros Hk Hi Hr. enough (forall s1, Inv s0 s1 -> rtc step s1 s -> Inv s0 s) by eauto using initial_inv.
  clear Hr. intros s1 HI Hr. induction Hr as [|s1 s2 s3 Hst _ IH]; [done|]. eauto using step_inv.
Qed.

(** How far a process is: every step adds one. *)
Definition progress (p : Proc) : nat := (rank (p_phase p) * S (length (p_cons p)) + p_pos p)%nat.
Definition total (s : State) : nat := sum_list_with progress (procs s).

Lemma step_progress s0 s s' : Inv s0 s -> step s s' -> total s' = S (total s).
Proof.
  intros HI [i Hst]. unfold step_proc in Hst. destruct (procs s !! i) as [p|] eqn:Hp; [|done]. cbn in Hst.
  pose proof (i_pos _ _ HI i p Hp) as Hle. unfold total. destruct (p_cons p !! p_pos p) as [c|] eqn:Hc.
  - destruct (act p c s) as [[c' o]|]; [|done]. injection Hst as <-. cbn [procs].
    match goal with |- context[<[i := ?q]> (procs s)] => pose proof (sum_insert progress (procs s) i p q Hp) as Hs end.
    revert Hs. unfold progress at 2 4. rsimpl. rsimpl. rewrite length_insert. lia.
  - destruct (next (p_phase p)) as [ph|] eqn:Hn; [|done]. cbn in Hst.
    destruct (forallb _ _); [|done]. injection Hst as <-. rsimpl.
    match goal with |- context[<[i := ?q]> (procs s)] => pose proof (sum_insert progress (procs s) i p q Hp) as Hs end.
    revert Hs. unfold progress at 2 4. rsimpl. rsimpl. apply lookup_ge_None_1 in Hc.
    pose proof (next_rank_S _ _ Hn) as Hr. rewrite Hr. lia.
Qed.

Definition done_proc (p : Proc) : Prop := p_phase p = Refill /\ p_pos p = length (p_cons p).

(** The assertions of the loop bodies hold. *)
Lemma act_total s0 s i p c : initial s0 -> Inv s0 s -> procs s !! i = Some p -> p_cons p !! p_pos p = Some c ->
  is_Some (act p c s).
Proof.
  intros (Hini & _ & Hgood) HI Hp Hc. destruct (con_sig s s0 i (p_pos p) p c (i_sig _ _ HI)) as (q0 & c0 & [Hq0 Hc0] & Hpid & Hd); [done|].
  pose proof (Hgood q0 c0 (list_elem_of_lookup_2 _ _ _ Hq0) (list_elem_of_lookup_2 _ _ _ Hc0)) as (Hf & Ho & Hg). rewrite Hd in *.
  assert (Hok : forall x y z, 0 <= x -> y <> -1 -> 0 <= z -> (0 <=? x) && negb (y =? -1) && (0 <=? z) = true).
  { intros x y z H1 H2 H3. apply Z.leb_le in H1, H3. apply Z.eqb_neq in H2. by rewrite H1, H2, H3. }
  unfold act. destruct (p_phase p) eqn:Hph; [|done| |].
  - unfold saveOptions. rewrite Hok; [done|..]; rsimpl; rsimpl; rsimpl; unfold ofd; rewrite (i_own0 _ _ HI); try done;
      intros k q Hq; pose proof (acting_max s i p Hp c Hc s0 HI k q Hq) as Hm; rewrite Hph in Hm; destruct (p_phase q); cbn in Hm; (done || lia).
  - unfold checkLocking. destruct (i_leader _ _ HI) as [leader HL]; [exists i, p; rewrite Hph; split; [done|cbn; lia]|].
    rewrite (l_own _ _ _ HL) with i (p_pos p) p c; [| |done].
    + destruct (l_one _ _ _ HL i (p_pos p) p c) as (k2 & j2 & q2 & c2 & Hat2 & _ & ->); [done|].
      destruct (con_sig s s0 k2 j2 q2 c2 (i_sig _ _ HI) Hat2) as (q3 & c3 & [Hq3 _] & <- & _).
      destruct (Hini k2 q3 Hq3) as (_ & _ & Hpos). destruct (Z.eqb_spec (p_pid q3) (-1)); [lia|done].
    + intros k q Hq. pose proof (acting_max s i p Hp c Hc s0 HI k q Hq) as Hm. by rewrite Hph in Hm.
  - destruct (c_hasLock c); [|done]. destruct (i_saved _ _ HI i (p_pos p) p c) as (Hsf & Hso & Hsg); [done|left; rewrite Hph; cbn; lia|].
    unfold restoreOptions. rewrite Hsf, Hso, Hsg, Hok; done.
Qed.

(** No process waits for ever at a barrier. *)
Lemma no_deadlock s0 s : initial s0 -> Inv s0 s -> Forall done_proc (procs s) \/ exists s', step s s'.
Proof.
  intros Hini HI. destruct (decide (Exists (fun p => is_Some (p_cons p !! p_pos p)) (procs s))) as [He|Hno].
  { right. apply Exists_exists in He as (p & Hin & c & Hc). apply list_elem_of_lookup in Hin as [i Hp].
    destruct (act_total s0 s i p c Hini HI Hp Hc) as [[c' o] Hact]. eexists. exists i. unfold step_proc. rewrite Hp. cbn. by rewrite Hc, Hact. }
  assert (Hend : forall k q, procs s !! k = Some q -> p_cons q !! p_pos q = None).
  { intros k q Hq. destruct (p_cons q !! p_pos q) eqn:Hc; [|done]. exfalso. apply Hno, Exists_exists. exists q.
    split; [by eapply list_elem_of_lookup_2|by rewrite Hc]. }
  destruct (decide (Exists (fun p => p_phase p <> Refill) (procs s))) as [He|Hall].
  - right. assert (Hmin : exists i p, procs s !! i = Some p /\ p_phase p <> Refill /\
      forall k q, procs s !! k = Some q -> (rank (p_phase p) <= rank (p_phase q))%nat).
    { apply Exists_exists in He as (p & Hin & Hph). apply list_elem_of_lookup in Hin as [i Hp].
      destruct (decide (Exists (fun q => rank (p_phase q) < rank (p_phase p))%nat (procs s))) as [Hlt|Hge].
      - apply Exists_exists in Hlt as (q & Hinq & Hlt). apply list_elem_of_lookup in Hinq as [k Hq]. exists k, q.
        destruct (i_bar _ _ HI k q i p Hq Hp Hlt) as [Hs _]. split_and!; [done|by intros Hq1; rewrite Hq1 in Hs; destruct (p_phase p)|].
        intros k2 q2 Hq2. destruct (decide (rank (p_phase q2) < rank (p_phase q))%nat) as [Hlt2|]; [|lia].
        destruct (i_bar _ _ HI k2 q2 i p Hq2 Hp); lia.
      - exists i, p. split_and!; [done..|]. intros k q Hq.
        destruct (decide (rank (p_phase q) < rank (p_phase p))%nat) as [Hlt|]; [|lia]. exfalso. apply Hge, Exists_exists.
        exists q. split; [by eapply list_elem_of_lookup_2|done]. }
    destruct Hmin as (i & p & Hp & Hph & Hmin). destruct (next (p_phase p)) as [ph|] eqn:Hn; [|by destruct (p_phase p)].
    eexists. exists i. unfold step_proc. rewrite Hp. cbn. rewrite (Hend i p Hp), Hn. cbn.
    rewrite (proj2 (forallb_forall _ _)); [done|]. intros q Hin. apply list_elem_of_In, list_elem_of_lookup in Hin as [k Hq].
    specialize (Hmin k q Hq). specialize (Hend k q Hq). apply lookup_ge_None_1 in Hend. unfold arrived.
    apply orb_true_iff. rewrite andb_true_iff, Nat.ltb_lt, Nat.eqb_eq, Nat.leb_le. lia.
  - left. apply Forall_forall. intros q Hin. apply list_elem_of_lookup in Hin as [k Hq]. split.
    + destruct (decide (p_phase q = Refill)) as [|Hne]; [done|]. exfalso. apply Hall, Exists_exists.
      exists q. split; [by eapply list_elem_of_lookup_2|done].
    + specialize (Hend k q Hq). apply lookup_ge_None_1 in Hend. pose proof (i_pos _ _ HI k q Hq). lia.
Qed.

Lemma steps_total s0 n s s' : owners_known s0 -> Inv s0 s -> nsteps step n s s' -> (total s' = n + total s)%nat /\ Inv s0 s'.
Proof.
  intros Hk HI Hn. induction Hn as [|n s1 s2 s3 Hst _ IH]; [done|].
  destruct IH as [IH1 IH2]; [by eapply step_inv|]. split; [|done]. rewrite (step_progress s0 s1 s2) in IH1 by done. lia.
Qed.

Lemma total_bound s0 s : Inv s0 s -> (total s <= sum_list_with (fun p => 4 * length (p_cons p) + 3) (procs s))%nat.
Proof.
  intros HI. pose proof (i_pos _ _ HI) as Hp. unfold total. clear HI. revert Hp. generalize (procs s) as l.
  induction l as [|p l IH]; intros Hp; [done|]. cbn [sum_list_with].
  assert (sum_list_with progress l <= sum_list_with (fun p => 4 * length (p_cons p) + 3) l)%nat
    by (apply IH; intros k q Hq; by apply (Hp (S k))).
  specialize (Hp 0%nat p eq_refl). assert (progress p <= 4 * length (p_cons p) + 3)%nat
    by (unfold progress; destruct (p_phase p); cbn [rank]; lia).
  lia.
Qed.

Lemma sig_size s s0 : sig s = sig s0 ->
  sum_list_with (fun p => 4 * length (p_cons p) + 3)%nat (procs s) = sum_list_with (fun p => 4 * length (p_cons p) + 3)%nat (procs s0).
Proof.
  unfold sig. generalize (procs s) as l, (procs s0) as l0. induction l as [|p l IH]; intros [|p0 l0] Hs; try done.
  cbn in Hs. injection Hs as _ Hc Hs. cbn [sum_list_with]. rewrite (IH l0 Hs). apply (f_equal length) in Hc. rewrite !length_fmap in Hc. lia.
Qed.

(** The lemmas together: what a run of the loops has done. *)
Definition elected (s : State) (leader : nat -> Z) : Prop :=
  (forall p c, p ∈ procs s -> c ∈ p_cons p ->
     c_hasLock c = (leader (c_desc c) =? p_pid p)) /\
  (forall p c, p ∈ procs s -> c ∈ p_cons p ->
     exists q c2, q ∈ procs s /\ c2 ∈ p_cons q /\ c_desc c2 = c_desc c /\ p_pid q = leader (c_desc c)).

Lemma in_con_at s p c : p ∈ procs s -> c ∈ p_cons p -> exists k j, con_at s k j p c.
Proof.
  intros Hp Hc. apply list_elem_of_lookup in Hp as [k Hp]. apply list_elem_of_lookup in Hc as [j Hc]. by exists k, j.
Qed.

(** A description at the end of the run. *)
Definition restored (s0 : State) (leader : nat -> Z) (d : nat) : Ofd :=
  mk_Ofd (f_flags (ofd d s0)) (if alive (to_virtual (getown d s0)) then getown d s0 else leader d) (f_signal (ofd d s0)).

Lemma inv_elected s0 s : Inv s0 s -> (exists p, p ∈ procs s /\ p_phase p = Refill) ->
  exists leader, elected s leader /\
  (Forall done_proc (procs s) -> forall p c, p ∈ procs s -> c ∈ p_cons p ->
     ofd (c_desc c) s = restored s0 leader (c_desc c)).
Proof.
  intros HI (p0 & Hin0 & Hrf). apply list_elem_of_lookup in Hin0 as [k0 Hp0].
  destruct (i_leader _ _ HI) as [leader HL]; [exists k0, p0; split; [done|rewrite Hrf; cbn; lia]|]. exists leader.
  assert (Hchk : forall k j q c, con_at s k j q c -> past Check q j).
  { intros k j q c [Hq Hj]. apply lookup_lt_Some in Hj. destruct (decide (p_phase q = Refill)) as [Hr|Hr].
    - left. rewrite Hr. cbn. lia.
    - assert (rank (p_phase q) < rank (p_phase p0))%nat as Hlt by (rewrite Hrf; destruct (p_phase q); cbn; try done; lia).
      destruct (i_bar _ _ HI k q k0 p0 Hq Hp0 Hlt) as [Hs Hend]. rewrite Hrf in Hs. right. split; [by destruct (p_phase q)|lia]. }
  assert (Hone : forall p c, p ∈ procs s -> c ∈ p_cons p ->
     exists k j q c2, con_at s k j q c2 /\ c_desc c2 = c_desc c /\ leader (c_desc c) = p_pid q).
  { intros p c Hp Hc. destruct (in_con_at s p c Hp Hc) as (k & j & Hat). exact (l_one _ _ _ HL k j p c Hat). }
  split; [split|].
  - intros p c Hp Hc. destruct (in_con_at s p c Hp Hc) as (k & j & Hat). by apply (l_lock _ _ _ HL k j p c Hat), (Hchk k j p c).
  - intros p c Hp Hc. destruct (Hone p c Hp Hc) as (k & j & q & c2 & [Hq Hj] & Hd & Hl).
    exists q, c2. split_and!; [by eapply list_elem_of_lookup_2..|done|done].
  - intros Hdone p c Hp Hc. destruct (in_con_at s p c Hp Hc) as (k & j & Hat).
    enough (getown (c_desc c) s = f_owner (restored s0 leader (c_desc c))) as Hg.
    { destruct (i_rest _ _ HI (c_desc c)) as [Hf Hs]. unfold restored, getown in *. by destruct (ofd (c_desc c) s); cbn in *; subst. }
    unfold restored. cbn [f_owner]. destruct (alive _) eqn:Hal; [|by apply (l_keep _ _ _ HL k j p c)].
    destruct (Hone p c Hp Hc) as (k2 & j2 & q & c2 & Hat2 & Hd & Hl). rewrite <- Hd in Hal |- *.
    apply (l_back _ _ _ HL k2 j2 q c2 Hat2); [| |done].
    + rewrite Forall_forall in Hdone. destruct Hat2 as [Hq Hj]. destruct (Hdone q) as [Hr Hpos]; [by eapply list_elem_of_lookup_2|].
      right. split; [done|]. apply lookup_lt_Some in Hj. lia.
    + rewrite (l_lock _ _ _ HL k2 j2 q c2 Hat2 (Hchk _ _ _ _ Hat2)), Hd, Hl. apply Z.eqb_refl.
Qed.

(** C11: the processes of a host run the loops [preLockSaveOptions], [preCkptFdLeaderElection], [drain]
    and [refill] over their connections in any interleaving, with a barrier between two loops.
    However the run goes: (1) it takes at most 4n+3 steps per process of n connections, and until every process
    has finished some process can go on; (2) as soon as a process refills, every description has exactly one elected
    process - one that has the description open - and a connection has [hasLock] exactly if its process is it;
    (3) at the end every description has the flags, the signal and the owner it had before, or its elected process as the owner
    if the former owner is gone.  No assertion of the loops fails on the way. *)
Theorem leader_election_correct (s0 s : State) (n : nat) :
  initial s0 -> owners_known s0 -> nsteps step n s0 s ->
  (n <= sum_list_with (fun p => 4 * length (p_cons p) + 3) (procs s0))%nat /\
  (Forall done_proc (procs s) \/ exists s', step s s') /\
  ((exists p, p ∈ procs s /\ p_phase p = Refill) -> exists leader, elected s leader /\
    (Forall done_proc (procs s) -> forall p c, p ∈ procs s -> c ∈ p_cons p ->
       ofd (c_desc c) s = restored s0 leader (c_desc c))).
Proof.
  intros Hi Hk Hn. destruct (steps_total s0 n s0 s Hk (initial_inv s0 Hi) Hn) as [Ht HI].
  split; [|split; [by eapply no_deadlock|by apply inv_elected]].
  rewrite <- (sig_size s s0 (i_sig _ _ HI)). pose proof (total_bound s0 s HI). lia.
Qed.
End election.

(** Two processes that share description 0, which process 900 owned before; each has a description of its own. *)
Definition two_procs : State :=
  mk_State [ mk_Proc 40 [mk_Con 0 0 0 0 false; mk_Con 1 0 0 0 false] Save 0; mk_Proc 41 [mk_Con 0 0 0 0 false; mk_Con 2 0 0 0 false] Save 0 ]
    {[ 0%nat := mk_Ofd 2 900 10 ]}.

Definition schedule : list nat := [0;0;1;1;0;1; 1;0;0;1;0;1; 1;1;0;0;0;1; 0;0;1;1]%nat.
Definition run_schedule (l : list nat) (s : State) : option State :=
  foldr (fun i r => s ← r; step_proc (fun x => x - 500) (fun x => x + 500) (fun x => 0 <? x) i s) (Some s) (rev l).

Lemma run_schedule_nsteps l s s' : run_schedule l s = Some s' ->
  nsteps (step (fun x => x - 500) (fun x => x + 500) (fun x => 0 <? x)) (length l) s s'.
Proof.
  unfold run_schedule. revert s'. induction l as [|i l IH] using rev_ind; intros s' Hr; [injection Hr as <-; constructor|].
  rewrite rev_app_distr in Hr. cbn in Hr. destruct (foldr _ _ _) as [s1|] eqn:Hs1; [|done]. rewrite length_app, Nat.add_1_r.
  apply nsteps_r with s1; [by apply IH|]. by exists i.
Qed.

Definition after_schedule : State := default two_procs (run_schedule schedule two_procs).

Lemma two_procs_initial : initial (fun x => x - 500) two_procs.
Proof.
  split_and!.
  - intros [|[|i]] p Hp; try done; injection Hp as <-; cbn; split_and!; done.
  - intros [|[|i]] [|[|j]] p q Hp Hq; try done; injection Hp as <-; injection Hq as <-; cbn; intros; lia.
  - intros p c Hp Hc. unfold two_procs in Hp. cbn in Hp. repeat (apply elem_of_cons in Hp as [->|Hp]; [cbn in Hc;
      repeat (apply elem_of_cons in Hc as [->|Hc]; [by vm_compute|]); by apply elem_of_nil in Hc|]). by apply elem_of_nil in Hp.
Qed.

(** The run of [schedule] elects process 40 for the shared description, whose owner is restored. *)
Lemma leader_election_correct_witness :
  (22 <= 22)%nat /\ (exists leader, elected after_schedule leader) /\ ofd 0 after_schedule = mk_Ofd 2 900 10.
Proof.
  destruct (leader_election_correct (fun x => x - 500) (fun x => x + 500) (fun x => 0 <? x) two_procs after_schedule 22)
    as (Hn & _ & He).
  - exact two_procs_initial.
  - intros p c Hp Hc. apply Z.sub_add.
  - apply (run_schedule_nsteps schedule). vm_compute. reflexivity.
  - split; [exact Hn|]. destruct He as (leader & Hel & Hown).
    + eexists. split; [apply list_elem_of_lookup_2 with 0%nat; vm_compute; reflexivity|reflexivity].
    + split; [by exists leader|].
      refine (Hown _ (mk_Proc 41 [mk_Con 0 2 400 10 false; mk_Con 2 0 (-500) 0 true] Refill 2) (mk_Con 0 2 400 10 false) _ _).
      * vm_compute. by repeat constructor.
      * apply list_elem_of_lookup_2 with 1%nat. vm_compute. reflexivity.
      * apply list_elem_of_lookup_2 with 0%nat. reflexivity.
Defined.
End Election.
