(* ===== verification/ConnExchange.v ===== *)
(** * Passing restored descriptors to the processes that share them

    At a restart only the elected process of a description restores it.  Each process
    registers the connections it misses in the shared area ([registerIncomingCons]); after a barrier
    the processes that have them send their descriptors and the others receive them
    ([sendReceiveMissingFds] of src/plugin/connectionlist.cpp, [sendFd] and [receiveFd] of
    include/util_ipc.h).

    The loops of all processes are a step relation with the place of each process in
    its loop and the datagrams in its socket.  [XInv] is the invariant,
    [missing_fds_exchanged] the result where sockets have room, [missing_fds_deadlock] what happens
    where they do not. *)

From Stdlib Require Import ZArith Lia Ascii.
From stdpp Require Import base gmap strings numbers list relations.
From S2P Require Import Prelude.
Open Scope Z_scope.

(** ** Passing on the restored descriptors *)

Module Exchange.

(** A connection: [hasLock], whether it is a stdio or controlling-terminal connection
    (which is not exchanged), and the description its descriptors refer to, if
    they were restored. *)
Record XCon : Type := mk_XCon { x_hasLock : bool; x_kept : bool; x_desc : option nat }.
#[export] Instance eta_XCon : Settable XCon := {| eta_of c := mk_XCon (x_hasLock c) (x_kept c) (x_desc c) |}.

(** Where a process is: before [registerIncomingCons], at the barrier before
    [sendReceiveMissingFds], at [poll], at [sendFd] (with what [poll] said of the
    incoming side), at [receiveFd], after [dmtcp_close_protected_fd]. *)
Inductive pc : Type := Registering | Collecting | Polling | Sending (pollin : bool) | Receiving | Closed.

(** [x_out] is [outgoingCons] (the entries the indices stand for), [x_in] is [numIncomingCons],
    [x_queue] the datagrams that wait in the socket of the process. *)
Record XProc : Type := mk_XProc {
  x_cons : gmap nat XCon; x_out : list (nat * nat); x_in : nat; x_queue : list (nat * nat); x_pc : pc }.
#[export] Instance eta_XProc : Settable XProc :=
  {| eta_of p := mk_XProc (x_cons p) (x_out p) (x_in p) (x_queue p) (x_pc p) |}.

(** The processes of the host, and the table of missing connections in the shared area:
    the identifier and the process whose address was registered. *)
Record XState : Type := mk_XState { x_procs : list XProc; x_maps : list (nat * nat) }.

Definition missing (c : XCon) : bool := negb (x_hasLock c) && negb (x_kept c).
Definition incoming (cs : gmap nat XCon) : list nat := (filter (fun kc => Is_true (missing kc.2)) (map_to_list cs)).*1.

Definition registerIncomingCons (i : nat) (p : XProc) : XProc * list (nat * nat) :=
  let incomingCons := incoming (x_cons p) in
  (p <| x_in := length incomingCons |> <| x_pc := Collecting |>, (fun id => (id, i)) <$> incomingCons).

Definition has_lock (cs : gmap nat XCon) (id : nat) : bool :=
  match cs !! id with Some con => x_hasLock con | None => false end.

Definition collect (maps : list (nat * nat)) (p : XProc) : XProc :=
  p <| x_out := filter (fun e => Is_true (has_lock (x_cons p) e.1)) maps |> <| x_pc := Polling |>.

Definition registered (p : XProc) : bool := match x_pc p with Registering => false | _ => true end.
Definition collected (p : XProc) : bool := match x_pc p with Registering | Collecting => false | _ => true end.

(** The head of the loop and [poll]: the socket can always be written to; [None] while
    [poll] waits. *)
Definition poll (p : XProc) : option XProc :=
  match x_out p, x_in p with
  | [], O => Some (p <| x_pc := Closed |>)
  | _, _ =>
      let pollin := Nat.ltb 0 (x_in p) && negb (bool_decide (x_queue p = [])) in
      match x_out p with
      | _ :: _ => Some (p <| x_pc := Sending pollin |>)
      | [] => if pollin then Some (p <| x_pc := Receiving |>) else None
      end
  end.

Definition receive (p : XProc) : option XProc :=
  match x_queue p with
  | (id, d) :: q =>
      con ← x_cons p !! id;
      Some (p <| x_cons := <[id := con <| x_desc := Some d |>]> (x_cons p) |>
              <| x_in := (x_in p - 1)%nat |> <| x_queue := q |> <| x_pc := Polling |>)
  | [] => None
  end.

Section exchange.
(** The queue of a datagram socket is full when it holds more than [max_dgram_qlen]
    datagrams. *)
Context (max_dgram_qlen : nat).

(** What [sendFd] sends, to whom, and the process after it; the datagram joins the queue of the
    receiver, whose socket must be open and have room. *)
Definition send (pollin : bool) (p : XProc) : option (nat * (nat * nat) * XProc) :=
  '(id, r) ← last (x_out p);
  con ← x_cons p !! id;
  d ← x_desc con;
  Some (r, (id, d), p <| x_out := removelast (x_out p) |> <| x_pc := if pollin then Receiving else Polling |>).

Definition accepts (q : XProc) : bool :=
  match x_pc q with Closed => false | _ => Nat.leb (length (x_queue q)) max_dgram_qlen end.

Definition xstep_proc (i : nat) (s : XState) : option XState :=
  p ← x_procs s !! i;
  match x_pc p with
  | Registering =>
      let (p', new) := registerIncomingCons i p in
      Some (mk_XState (<[i := p']> (x_procs s)) (x_maps s ++ new))
  | Collecting =>
      if forallb registered (x_procs s)
      then Some (mk_XState (<[i := collect (x_maps s) p]> (x_procs s)) (x_maps s)) else None
  | Polling => p' ← poll p; Some (mk_XState (<[i := p']> (x_procs s)) (x_maps s))
  | Sending b =>
      '(r, m, p') ← send b p;
      let ps := <[i := p']> (x_procs s) in
      q ← ps !! r;
      if accepts q then Some (mk_XState (<[r := q <| x_queue := x_queue q ++ [m] |>]> ps) (x_maps s)) else None
  | Receiving => p' ← receive p; Some (mk_XState (<[i := p']> (x_procs s)) (x_maps s))
  | Closed => None
  end.

Definition xstep (s s' : XState) : Prop := exists i, xstep_proc i s = Some s'.

(** *** Invariant *)

Definition at_ (s : XState) (k : nat) (p : XProc) : Prop := x_procs s !! k = Some p.
Definition lead (s : XState) (id l : nat) (q : XProc) (cl : XCon) : Prop :=
  at_ s l q /\ x_cons q !! id = Some cl /\ x_hasLock cl = true.
Definition miss (s : XState) (id r : nat) (p : XProc) (c : XCon) : Prop :=
  at_ s r p /\ x_cons p !! id = Some c /\ missing c = true.

(** Every missing connection has one process that restored it. *)
Definition led (s : XState) : Prop :=
  (forall id r p c, miss s id r p c -> exists l q cl, lead s id l q cl /\ is_Some (x_desc cl)) /\
  (forall id l q cl l' q' cl', lead s id l q cl -> lead s id l' q' cl' -> l = l').

Definition xinitial (s : XState) : Prop :=
  led s /\ x_maps s = [] /\
  (forall k p, at_ s k p -> x_pc p = Registering /\ x_out p = [] /\ x_queue p = []) /\
  (forall id r p c, miss s id r p c -> x_desc c = None).

Definition waiting (p : XProc) : gmap nat XCon :=
  filter (fun kc => Is_true (missing kc.2) /\ x_desc kc.2 = None) (x_cons p).

Record XInv (s : XState) : Prop := {
  v_led : led s;
  v_maps : forall id r, (id, r) ∈ x_maps s <-> exists p c, miss s id r p c /\ registered p = true;
  v_nodup : NoDup (x_maps s);
  v_bar : forall l q r p, at_ s l q -> collected q = true -> at_ s r p -> registered p = true;
  v_out : forall l q, at_ s l q -> NoDup (x_out q) /\ (forall id r, (id, r) ∈ x_out q ->
    (id, r) ∈ x_maps s /\ has_lock (x_cons q) id = true /\ collected q = true);
  v_sent : forall id r p c l q cl, miss s id r p c -> lead s id l q cl ->
    (collected q = true /\ (id, r) ∉ x_out q) <-> is_Some (x_desc c) \/ id ∈ (x_queue p).*1;
  v_desc : forall id r p c l q cl d, miss s id r p c -> lead s id l q cl -> x_desc c = Some d -> x_desc cl = Some d;
  v_queue : forall r p, at_ s r p -> NoDup (x_queue p).*1 /\ (forall id d, (id, d) ∈ x_queue p ->
    exists c, miss s id r p c /\ x_desc c = None /\ forall l q cl, lead s id l q cl -> x_desc cl = Some d);
  v_in : forall r p, at_ s r p -> registered p = true -> x_in p = size (waiting p);
  v_pc : forall r p, at_ s r p -> match x_pc p with
    | Sending b => x_out p <> [] /\ (b = true -> x_queue p <> [])
    | Receiving => x_queue p <> []
    | Closed => x_out p = [] /\ x_in p = O
    | _ => True end
}.

Lemma incoming_elem cs id : id ∈ incoming cs <-> exists c, cs !! id = Some c /\ missing c = true.
Proof.
  unfold incoming. rewrite list_elem_of_fmap. split.
  - intros ([k c] & -> & H). apply list_elem_of_filter in H as [H1 H2]. apply elem_of_map_to_list in H2. exists c.
    split; [done|by apply Is_true_true_1].
  - intros (c & H1 & H2). exists (id, c). split; [done|]. apply list_elem_of_filter. split; [by apply Is_true_true_2|by apply elem_of_map_to_list].
Qed.

Lemma incoming_nodup cs : NoDup (incoming cs).
Proof.
  unfold incoming. apply (sublist_NoDup _ (map_to_list cs).*1); [apply NoDup_fst_map_to_list|].
  apply fmap_sublist, sublist_filter.
Qed.

Lemma waiting_nil p id c : size (waiting p) = O -> x_cons p !! id = Some c -> missing c = true -> is_Some (x_desc c).
Proof.
  intros Hs Hc Hm. apply map_size_empty_inv in Hs. destruct (x_desc c) eqn:Hd; [done|]. exfalso.
  assert (waiting p !! id = Some c) as Hw by (apply map_lookup_filter_Some_2; [done|split; [by apply Is_true_true_2|done]]).
  by rewrite Hs in Hw.
Qed.

(** Process [i] becomes [p']. *)
Section update.
Context (s : XState) (HI : XInv s) (i : nat) (p p' : XProc) (Hp : at_ s i p) (maps' : list (nat * nat)).
Let s' := mk_XState (<[i := p']> (x_procs s)) maps'.

Lemma at_update k q : at_ s' k q <-> k = i /\ q = p' \/ k <> i /\ at_ s k q.
Proof.
  unfold at_, s'. cbn [x_procs]. destruct (decide (k = i)) as [->|Hne].
  - rewrite list_lookup_insert_eq by (by eapply lookup_lt_Some). naive_solver.
  - rewrite list_lookup_insert_ne by done. naive_solver.
Qed.

Section same_cons.
Context (Hcs : x_cons p' = x_cons p).

Lemma lead_update id l q cl : lead s' id l q cl -> exists q0, lead s id l q0 cl /\ (l = i /\ q = p' /\ q0 = p \/ l <> i /\ q = q0).
Proof.
  intros (Hq & Hc & Hl). apply at_update in Hq as [[-> ->]|[Hne Hq]].
  - exists p. rewrite Hcs in Hc. split; [done|by left].
  - exists q. split; [done|by right].
Qed.

Lemma miss_update id r q c : miss s' id r q c -> exists q0, miss s id r q0 c /\ (r = i /\ q = p' /\ q0 = p \/ r <> i /\ q = q0).
Proof.
  intros (Hq & Hc & Hl). apply at_update in Hq as [[-> ->]|[Hne Hq]].
  - exists p. rewrite Hcs in Hc. split; [done|by left].
  - exists q. split; [done|by right].
Qed.

Lemma lead_update_back id l q cl : lead s id l q cl -> exists q', lead s' id l q' cl.
Proof.
  intros (Hq & Hc & Hl). destruct (decide (l = i)) as [->|Hne].
  - assert (q = p) as -> by (unfold at_ in *; congruence). exists p'. split_and!; [by apply at_update; left|by rewrite Hcs|done].
  - exists q. split_and!; [by apply at_update; right|done|done].
Qed.

Lemma miss_update_back id r q c : miss s id r q c -> exists q', miss s' id r q' c /\ (r = i /\ q' = p' /\ q = p \/ r <> i /\ q' = q).
Proof.
  intros (Hq & Hc & Hl). destruct (decide (r = i)) as [->|Hne].
  - assert (q = p) as -> by (unfold at_ in *; congruence). exists p'. split; [split_and!; [by apply at_update; left|by rewrite Hcs|done]|by left].
  - exists q. split; [split_and!; [by apply at_update; right|done|done]|by right].
Qed.

Lemma led_update : led s'.
Proof.
  destruct (v_led _ HI) as [H1 H2]. split.
  - intros id r q c Hm. destruct (miss_update id r q c Hm) as (q0 & Hm0 & _). destruct (H1 id r q0 c Hm0) as (l & ql & cl & Hl & Hd).
    destruct (lead_update_back id l ql cl Hl) as (q' & Hl'). by exists l, q', cl.
  - intros id l q cl l' q' cl' Ha Hb. destruct (lead_update id l q cl Ha) as (q0 & Ha0 & _), (lead_update id l' q' cl' Hb) as (q0' & Hb0 & _).
    by apply (H2 id l q0 cl l' q0' cl').
Qed.

Lemma desc_update : forall id r q c l ql cl d, miss s' id r q c -> lead s' id l ql cl -> x_desc c = Some d -> x_desc cl = Some d.
Proof.
  intros id r q c l ql cl d Hm Hl. destruct (miss_update id r q c Hm) as (q0 & Hm0 & _), (lead_update id l ql cl Hl) as (ql0 & Hl0 & _).
  by apply (v_desc _ HI id r q0 c l ql0 cl).
Qed.

Lemma queue_update : x_queue p' = x_queue p -> forall r q, at_ s' r q -> NoDup (x_queue q).*1 /\ (forall id d, (id, d) ∈ x_queue q ->
    exists c, miss s' id r q c /\ x_desc c = None /\ forall l ql cl, lead s' id l ql cl -> x_desc cl = Some d).
Proof.
  intros Hqu r q Hq. assert (exists q0, at_ s r q0 /\ x_queue q0 = x_queue q /\ (r = i /\ q = p' /\ q0 = p \/ r <> i /\ q = q0)) as (q0 & Hq0 & He & Hk).
  { apply at_update in Hq as [[-> ->]|[Hne Hq]]; [exists p|exists q]; naive_solver. }
  destruct (v_queue _ HI r q0 Hq0) as [Hnd Hall]. rewrite <- He. split; [done|]. intros id d Hin.
  destruct (Hall id d Hin) as (c & Hm & Hn & Hd). exists c. split_and!; [|done|].
  - destruct (miss_update_back id r q0 c Hm) as (q' & Hm' & Hk'). assert (q' = q) as -> by naive_solver. done.
  - intros l ql cl Hl. destruct (lead_update id l ql cl Hl) as (ql0 & Hl0 & _). by apply (Hd l ql0).
Qed.

Lemma waiting_update : waiting p' = waiting p.
Proof. unfold waiting. by rewrite Hcs. Qed.
End same_cons.
End update.

(** [poll]: only the place in the loop changes. *)
Lemma poll_inv s i p p' : XInv s -> at_ s i p -> x_pc p = Polling -> poll p = Some p' ->
  XInv (mk_XState (<[i := p']> (x_procs s)) (x_maps s)).
Proof.
  intros HI Hp Hpc Hpoll.
  assert (exists c, p' = p <| x_pc := c |> /\ match c with
    | Sending b => x_out p <> [] /\ (b = true -> x_queue p <> [])
    | Receiving => x_queue p <> []
    | Closed => x_out p = [] /\ x_in p = O
    | _ => False end) as (c & -> & Hc).
  { unfold poll in Hpoll. destruct (x_out p) as [|e es] eqn:Ho, (x_in p) as [|n] eqn:Hn.
    - injection Hpoll as <-. by exists Closed.
    - case_bool_decide; cbn in Hpoll; [done|]. injection Hpoll as <-. by exists Receiving.
    - injection Hpoll as <-. eexists. split; [done|]. by cbn.
    - injection Hpoll as <-. eexists. split; [done|]. split; [done|]. cbn. by case_bool_decide. }
  assert (Hreg : registered (p <| x_pc := c |>) = true) by (unfold registered; rsimpl; by destruct c).
  assert (Hcol : collected (p <| x_pc := c |>) = true) by (unfold collected; rsimpl; by destruct c).
  assert (Hreg0 : registered p = true) by (unfold registered; by rewrite Hpc).
  assert (Hcol0 : collected p = true) by (unfold collected; by rewrite Hpc).
  set (p' := p <| x_pc := c |>) in *. assert (Hcs : x_cons p' = x_cons p) by (unfold p'; by rsimpl).
  assert (Hqu : x_queue p' = x_queue p) by (unfold p'; by rsimpl). assert (Hou : x_out p' = x_out p) by (unfold p'; by rsimpl).
  split.
  - by eapply led_update.
  - intros id r. cbn [x_maps]. rewrite (v_maps _ HI). split.
    + intros (q & c0 & Hm & Hr). destruct (miss_update_back s i p p' Hp (x_maps s) Hcs id r q c0 Hm) as (q' & Hm' & Hk).
      exists q', c0. split; [done|]. naive_solver.
    + intros (q & c0 & Hm & Hr). destruct (miss_update s i p p' Hp (x_maps s) Hcs id r q c0 Hm) as (q' & Hm' & Hk).
      exists q', c0. split; [done|]. naive_solver.
  - apply (v_nodup _ HI).
  - intros l q r q2 Hq Hc2 Hq2. pose proof (v_bar _ HI i p) as Hb.
    apply (at_update s i p p' Hp) in Hq2 as [[-> ->]|[Hne2 Hq2]]; [done|]. by apply (Hb r q2).
  - intros l q Hq. apply (at_update s i p p' Hp) in Hq as [[-> ->]|[Hne Hq]]; cbn [x_maps]; [|by apply (v_out _ HI l q)].
    rewrite Hou, Hcs. destruct (v_out _ HI i p Hp) as [Hnd Ho]. split; [done|]. intros id r Hin. by destruct (Ho id r Hin) as (? & ? & _).
  - intros id r q c0 l ql cl Hm Hl. destruct (miss_update s i p p' Hp (x_maps s) Hcs id r q c0 Hm) as (q0 & Hm0 & Hk).
    destruct (lead_update s i p p' Hp (x_maps s) Hcs id l ql cl Hl) as (ql0 & Hl0 & Hkl).
    assert (x_queue q = x_queue q0) as -> by naive_solver. rewrite <- ((v_sent _ HI) id r q0 c0 l ql0 cl Hm0 Hl0).
    destruct Hkl as [(-> & -> & ->)|(_ & ->)]; [|done]. rewrite Hou, Hcol, Hcol0. done.
  - by eapply desc_update.
  - by eapply queue_update.
  - intros r q Hq Hr. apply (at_update s i p p' Hp) in Hq as [[-> ->]|[Hne Hq]]; [|by apply (v_in _ HI r)].
    rewrite (waiting_update p p' Hcs). unfold p'. rsimpl. by apply (v_in _ HI i).
  - intros r q Hq. apply (at_update s i p p' Hp) in Hq as [[-> ->]|[Hne Hq]]; [|by apply (v_pc _ HI r)].
    unfold p'. rsimpl. by destruct c.
Qed.

Lemma incoming_size p : (forall id c, x_cons p !! id = Some c -> missing c = true -> x_desc c = None) ->
  length (incoming (x_cons p)) = size (waiting p).
Proof.
  intros Hn. rewrite <- length_map_to_list, <- (length_fmap fst (map_to_list _)). apply Permutation_length, NoDup_Permutation.
  - apply incoming_nodup.
  - apply NoDup_fst_map_to_list.
  - intros id. rewrite incoming_elem, list_elem_of_fmap. split.
    + intros (c & Hc & Hm). exists (id, c). split; [done|]. apply elem_of_map_to_list, map_lookup_filter_Some.
      split; [done|]. split; [by apply Is_true_true_2|by eapply Hn].
    + intros ([k c] & -> & Hin). apply elem_of_map_to_list, map_lookup_filter_Some in Hin as [Hc [Hm _]]. exists c.
      split; [done|by apply Is_true_true_1].
Qed.

Lemma register_inv s i p : XInv s -> at_ s i p -> x_pc p = Registering ->
  XInv (mk_XState (<[i := (registerIncomingCons i p).1]> (x_procs s)) (x_maps s ++ (registerIncomingCons i p).2)).
Proof.
  intros HI Hp Hpc. set (p' := (registerIncomingCons i p).1). set (new := (registerIncomingCons i p).2).
  assert (Hcs : x_cons p' = x_cons p) by (unfold p'; cbn; rsimpl; by rsimpl).
  assert (Hqu : x_queue p' = x_queue p) by (unfold p'; cbn; rsimpl; by rsimpl).
  assert (Hou : x_out p' = x_out p) by (unfold p'; cbn; rsimpl; by rsimpl).
  assert (Hpc' : x_pc p' = Collecting) by (unfold p'; cbn; by rsimpl).
  assert (Hreg0 : registered p = false) by (unfold registered; by rewrite Hpc).
  assert (Hnc : forall l q, at_ s l q -> collected q = false).
  { intros l q Hq. destruct (collected q) eqn:Hc; [|done]. by rewrite (v_bar _ HI l q i p Hq Hc Hp) in Hreg0. }
  assert (Hnew : forall id r, (id, r) ∈ new <-> r = i /\ exists c, x_cons p !! id = Some c /\ missing c = true).
  { intros id r. unfold new. cbn. rewrite list_elem_of_fmap. setoid_rewrite incoming_elem. naive_solver. }
  assert (Hold : forall id, (id, i) ∉ x_maps s).
  { intros id Hin. apply (v_maps _ HI) in Hin as (q & c & [Hq _] & Hr). assert (q = p) as -> by (unfold at_ in *; congruence). congruence. }
  assert (Hnone : forall id c, x_cons p !! id = Some c -> missing c = true -> x_desc c = None).
  { intros id c Hc Hm. destruct (x_desc c) eqn:Hd; [|done]. exfalso. assert (miss s id i p c) as Hmi by done.
    destruct (v_led _ HI) as [H1 _]. destruct (H1 id i p c Hmi) as (l & q & cl & Hl & _).
    destruct (v_sent _ HI id i p c l q cl Hmi Hl) as [_ Hs]. destruct Hs as [Hs _]; [left; by rewrite Hd|].
    destruct Hl as [Hq _]. by rewrite (Hnc l q Hq) in Hs. }
  split.
  - by eapply led_update.
  - intros id r. cbn [x_maps]. rewrite elem_of_app, Hnew, (v_maps _ HI). split.
    + intros [(q & c0 & Hm & Hr)|(-> & c0 & Hc & Hm)].
      * destruct (miss_update_back s i p p' Hp (x_maps s ++ new) Hcs id r q c0 Hm) as (q' & Hm' & [(-> & -> & ->)|(_ & ->)]); [congruence|].
        by exists q, c0.
      * exists p', c0. split; [|unfold registered; by rewrite Hpc']. split_and!; [by eapply at_update; [|left]|by rewrite Hcs|done].
    + intros (q & c0 & Hm & Hr). destruct (miss_update s i p p' Hp (x_maps s ++ new) Hcs id r q c0 Hm) as (q' & Hm' & [(-> & -> & ->)|(_ & ->)]).
      * right. split; [done|]. exists c0. by destruct Hm' as (_ & ? & ?).
      * left. by exists q', c0.
  - cbn [x_maps]. apply NoDup_app. split_and!; [apply (v_nodup _ HI)| |].
    + intros [id r] Hin Hin2. apply Hnew in Hin2 as [-> _]. by apply (Hold id).
    + unfold new. cbn. apply NoDup_fmap_2; [by intros ?? [=]|apply incoming_nodup].
  - intros l q r q2 Hq Hc2 Hq2. exfalso. apply (at_update s i p p' Hp) in Hq as [[-> ->]|[Hne Hq]].
    + unfold collected in Hc2. by rewrite Hpc' in Hc2.
    + by rewrite (Hnc l q Hq) in Hc2.
  - intros l q Hq. apply (at_update s i p p' Hp) in Hq as [[-> ->]|[Hne Hq]]; cbn [x_maps].
    + rewrite Hou. destruct (v_out _ HI i p Hp) as [Hnd Ho]. split; [done|]. intros id r Hin. destruct (Ho id r Hin) as (_ & _ & Hc).
      by rewrite (Hnc i p Hp) in Hc.
    + destruct (v_out _ HI l q Hq) as [Hnd Ho]. split; [done|]. intros id r Hin. destruct (Ho id r Hin) as (? & ? & ?).
      split_and!; [|done..]. apply elem_of_app. by left.
  - intros id r q c0 l ql cl Hm Hl. destruct (miss_update s i p p' Hp _ Hcs id r q c0 Hm) as (q0 & Hm0 & Hk).
    destruct (lead_update s i p p' Hp _ Hcs id l ql cl Hl) as (ql0 & Hl0 & Hkl).
    assert (x_queue q = x_queue q0) as -> by naive_solver. rewrite <- ((v_sent _ HI) id r q0 c0 l ql0 cl Hm0 Hl0).
    destruct Hkl as [(-> & -> & ->)|(_ & ->)]; [|done]. rewrite Hou. unfold collected. by rewrite Hpc, Hpc'.
  - by eapply desc_update.
  - by eapply queue_update.
  - intros r q Hq Hr. apply (at_update s i p p' Hp) in Hq as [[-> ->]|[Hne Hq]]; [|by apply (v_in _ HI r)].
    rewrite (waiting_update p p' Hcs), <- incoming_size by done. unfold p'. cbn. rsimpl. by rsimpl.
  - intros r q Hq. apply (at_update s i p p' Hp) in Hq as [[-> ->]|[Hne Hq]]; [by rewrite Hpc'|by apply (v_pc _ HI r)].
Qed.

Lemma collect_inv s i p : XInv s -> at_ s i p -> x_pc p = Collecting -> forallb registered (x_procs s) = true ->
  XInv (mk_XState (<[i := collect (x_maps s) p]> (x_procs s)) (x_maps s)).
Proof.
  intros HI Hp Hpc Hall. set (p' := collect (x_maps s) p).
  assert (Hcs : x_cons p' = x_cons p) by (unfold p', collect; rsimpl; by rsimpl).
  assert (Hqu : x_queue p' = x_queue p) by (unfold p', collect; rsimpl; by rsimpl).
  assert (Hpc' : x_pc p' = Polling) by (unfold p', collect; by rsimpl).
  assert (Hcol0 : collected p = false) by (unfold collected; by rewrite Hpc).
  assert (Hcol : collected p' = true) by (unfold collected; by rewrite Hpc').
  assert (Hregs : forall k q, at_ s k q -> registered q = true).
  { intros k q Hq. rewrite forallb_forall in Hall. apply Hall, list_elem_of_In. by eapply list_elem_of_lookup_2. }
  assert (Hreg : registered p' = true) by (unfold registered; by rewrite Hpc').
  assert (Hou : forall id r, (id, r) ∈ x_out p' <-> (id, r) ∈ x_maps s /\ has_lock (x_cons p) id = true).
  { intros id r. unfold p', collect. rsimpl. rsimpl. rewrite list_elem_of_filter. cbn [fst].
    split; intros [H1 H2]; split; try done; [by apply Is_true_true_1|by apply Is_true_true_2]. }
  split.
  - by eapply led_update.
  - intros id r. cbn [x_maps]. rewrite (v_maps _ HI). split.
    + intros (q & c0 & Hm & Hr). destruct (miss_update_back s i p p' Hp (x_maps s) Hcs id r q c0 Hm) as (q' & Hm' & Hk).
      exists q', c0. split; [done|]. naive_solver.
    + intros (q & c0 & Hm & Hr). destruct (miss_update s i p p' Hp (x_maps s) Hcs id r q c0 Hm) as (q' & Hm' & Hk).
      exists q', c0. split; [done|]. destruct Hm' as [Hq' _]. by eapply Hregs.
  - apply (v_nodup _ HI).
  - intros l q r q2 _ _ Hq2. apply (at_update s i p p' Hp) in Hq2 as [[-> ->]|[Hne Hq2]]; [done|by eapply Hregs].
  - intros l q Hq. apply (at_update s i p p' Hp) in Hq as [[-> ->]|[Hne Hq]]; cbn [x_maps]; [|by apply (v_out _ HI l q)]. split.
    + unfold p', collect. rsimpl. rsimpl. apply NoDup_filter, (v_nodup _ HI).
    + intros id r Hin. apply Hou in Hin as [H1 H2]. by rewrite Hcs.
  - intros id r q c0 l ql cl Hm Hl. destruct (miss_update s i p p' Hp _ Hcs id r q c0 Hm) as (q0 & Hm0 & Hk).
    destruct (lead_update s i p p' Hp _ Hcs id l ql cl Hl) as (ql0 & Hl0 & Hkl).
    assert (x_queue q = x_queue q0) as -> by naive_solver. rewrite <- ((v_sent _ HI) id r q0 c0 l ql0 cl Hm0 Hl0).
    destruct Hkl as [(-> & -> & ->)|(_ & ->)]; [|done]. rewrite Hcol0. split; [|by intros [? _]]. intros [_ Hno]. destruct Hno.
    apply Hou. split; [apply (v_maps _ HI); exists q0, c0; split; [done|]; destruct Hm0 as [Hq0 _]; by eapply Hregs|].
    destruct Hl0 as (_ & Hcl & Hlk). unfold has_lock. by rewrite Hcl.
  - by eapply desc_update.
  - by eapply queue_update.
  - intros r q Hq Hr. apply (at_update s i p p' Hp) in Hq as [[-> ->]|[Hne Hq]]; [|by apply (v_in _ HI r)].
    rewrite (waiting_update p p' Hcs). rewrite <- (v_in _ HI i p Hp (Hregs i p Hp)). unfold p', collect. rsimpl. by rsimpl.
  - intros r q Hq. apply (at_update s i p p' Hp) in Hq as [[-> ->]|[Hne Hq]]; [by rewrite Hpc'|by apply (v_pc _ HI r)].
Qed.

(** [sendFd]: the last outgoing entry moves to the queue of its receiver. *)
Section sending.
Context (s : XState) (HI : XInv s) (i : nat) (p : XProc) (Hp : at_ s i p) (b : bool) (Hpc : x_pc p = Sending b)
  (id r : nat) (outs : list (nat * nat)) (Hout : x_out p = outs ++ [(id, r)])
  (con : XCon) (Hcon : x_cons p !! id = Some con) (d : nat) (Hd : x_desc con = Some d).
Let p' := p <| x_out := outs |> <| x_pc := if b then Receiving else Polling |>.

Lemma send_lead : lead s id i p con.
Proof.
  split_and!; [done..|]. destruct (v_out _ HI i p Hp) as [_ Ho]. destruct (Ho id r) as (_ & Hl & _).
  { rewrite Hout, elem_of_app. right. by apply list_elem_of_singleton. }
  unfold has_lock in Hl. by rewrite Hcon in Hl.
Qed.

Lemma send_miss : exists q c, miss s id r q c /\ x_desc c = None /\ id ∉ (x_queue q).*1 /\ r <> i.
Proof.
  destruct (v_out _ HI i p Hp) as [_ Ho]. destruct (Ho id r) as (Hm & _ & _).
  { rewrite Hout, elem_of_app. right. by apply list_elem_of_singleton. }
  apply (v_maps _ HI) in Hm as (q & c & Hm & _). exists q, c.
  destruct (v_sent _ HI id r q c i p con Hm send_lead) as [_ Hs].
  assert (Hin : (id, r) ∈ x_out p) by (rewrite Hout, elem_of_app; right; by apply list_elem_of_singleton).
  split_and!; [done| | |].
  - destruct (x_desc c); [|done]. destruct Hs as [_ Hs]; [by left|done].
  - intros Hq. destruct Hs as [_ Hs]; [by right|done].
  - pose proof send_lead as (_ & Hc1 & Hl). intros ->. destruct Hm as (Hq & Hc2 & Hm). assert (q = p) as -> by (unfold at_ in *; congruence).
    assert (c = con) as -> by congruence. unfold missing in Hm. by rewrite Hl in Hm.
Qed.

Context (q : XProc) (Hq : at_ s r q) (Hopen : x_pc q <> Closed).
Let q' := q <| x_queue := x_queue q ++ [(id, d)] |>.
Let s' := mk_XState (<[r := q']> (<[i := p']> (x_procs s))) (x_maps s).

(** How a process of the new state comes from one of the old. *)
Definition sent_from (k : nat) (x x0 : XProc) : Prop :=
  x_cons x = x_cons x0 /\ x_in x = x_in x0 /\ registered x = registered x0 /\ collected x = collected x0 /\
  (k = i /\ x_out x = outs /\ x_out x0 = outs ++ [(id, r)] \/ k <> i /\ x_out x = x_out x0) /\
  (k = r /\ x_queue x = x_queue x0 ++ [(id, d)] \/ k <> r /\ x_queue x = x_queue x0) /\
  (k = i /\ x = p' \/ k <> i /\ x_pc x = x_pc x0).

Lemma sent_p : sent_from i p' p.
Proof.
  destruct send_miss as (_ & _ & _ & _ & _ & Hri). unfold sent_from, p', registered, collected. rsimpl. rsimpl. rewrite Hpc.
  split_and!; [done|done|by destruct b|by destruct b|by left|by right|by left].
Qed.

Lemma sent_q : sent_from r q' q.
Proof.
  destruct send_miss as (_ & _ & _ & _ & _ & Hri). unfold sent_from, q', registered, collected. rsimpl.
  split_and!; try done; [by right|by left|by right].
Qed.

Lemma sent_other k x : k <> i -> k <> r -> sent_from k x x.
Proof. intros H1 H2. unfold sent_from. split_and!; try done; by right. Qed.

Lemma sent_at k x : at_ s' k x -> exists x0, at_ s k x0 /\ sent_from k x x0.
Proof.
  destruct send_miss as (_ & _ & _ & _ & _ & Hri). unfold at_, s'. cbn [x_procs]. destruct (decide (k = r)) as [->|Hr].
  - rewrite list_lookup_insert_eq by (rewrite length_insert; by eapply lookup_lt_Some). intros [= <-]. exists q. split; [done|apply sent_q].
  - rewrite list_lookup_insert_ne by done. destruct (decide (k = i)) as [->|Hi].
    + rewrite list_lookup_insert_eq by (by eapply lookup_lt_Some). intros [= <-]. exists p. split; [done|apply sent_p].
    + rewrite list_lookup_insert_ne by done. intros Hx. exists x. split; [done|by apply sent_other].
Qed.

Lemma sent_at_back k x0 : at_ s k x0 -> exists x, at_ s' k x /\ sent_from k x x0.
Proof.
  destruct send_miss as (_ & _ & _ & _ & _ & Hri). unfold at_, s'. cbn [x_procs]. destruct (decide (k = r)) as [->|Hr].
  - rewrite list_lookup_insert_eq by (rewrite length_insert; by eapply lookup_lt_Some). intros Hx. assert (x0 = q) as -> by (unfold at_ in *; congruence).
    exists q'. split; [done|apply sent_q].
  - rewrite list_lookup_insert_ne by done. destruct (decide (k = i)) as [->|Hi].
    + rewrite list_lookup_insert_eq by (by eapply lookup_lt_Some). intros Hx. assert (x0 = p) as -> by (unfold at_ in *; congruence).
      exists p'. split; [done|apply sent_p].
    + rewrite list_lookup_insert_ne by done. intros Hx. exists x0. split; [done|by apply sent_other].
Qed.

Lemma sent_lead id0 l x c : lead s' id0 l x c -> exists x0, lead s id0 l x0 c /\ sent_from l x x0.
Proof. intros (Hx & Hc & Hl). destruct (sent_at l x Hx) as (x0 & Hx0 & Hs). exists x0. split; [|done]. destruct Hs as [Hs _]. unfold lead, miss. by rewrite <- Hs. Qed.

Lemma sent_miss id0 l x c : miss s' id0 l x c -> exists x0, miss s id0 l x0 c /\ sent_from l x x0.
Proof. intros (Hx & Hc & Hl). destruct (sent_at l x Hx) as (x0 & Hx0 & Hs). exists x0. split; [|done]. destruct Hs as [Hs _]. unfold lead, miss. by rewrite <- Hs. Qed.

Lemma send_inv : XInv s'.
Proof.
  destruct send_miss as (q1 & c1 & Hm1 & Hn1 & Hnq & Hri). assert (q1 = q) as -> by (destruct Hm1; unfold at_ in *; congruence).
  pose proof (v_out _ HI i p Hp) as [Hnd Ho]. rewrite Hout in Hnd, Ho. apply NoDup_app in Hnd as (Hnd & Hni & _).
  assert (Hnot : (id, r) ∉ outs) by (intros Hin; apply (Hni _ Hin); by apply list_elem_of_singleton).
  destruct (v_led _ HI) as [Hex Huni].
  split.
  - split.
    + intros id0 r0 x c Hm. destruct (sent_miss _ _ _ _ Hm) as (x0 & Hm0 & _). destruct (Hex _ _ _ _ Hm0) as (l & y & cl & (Hy & Hcl & Hlk) & Hdl).
      destruct (sent_at_back l y Hy) as (y' & Hy' & Hs & _). exists l, y', cl. split; [|done]. unfold lead. by rewrite Hs.
    + intros id0 l x cl l' x' cl' Ha Hb. destruct (sent_lead _ _ _ _ Ha) as (x0 & Ha0 & _), (sent_lead _ _ _ _ Hb) as (x0' & Hb0 & _). by eapply Huni.
  - intros id0 r0. change (x_maps s') with (x_maps s). rewrite (v_maps _ HI). split.
    + intros (x0 & c & (Hx & Hc & Hm) & Hr). destruct (sent_at_back r0 x0 Hx) as (x & Hx' & Hs & _ & Hsr & _). exists x, c.
      unfold miss. by rewrite Hs, Hsr.
    + intros (x & c & Hm & Hr). destruct (sent_miss _ _ _ _ Hm) as (x0 & Hm0 & _ & _ & Hsr & _). exists x0, c. by rewrite <- Hsr.
  - apply (v_nodup _ HI).
  - intros l x r0 y Hx Hc Hy. destruct (sent_at _ _ Hx) as (x0 & Hx0 & _ & _ & _ & Hsc & _), (sent_at _ _ Hy) as (y0 & Hy0 & _ & _ & Hsr & _).
    rewrite Hsr. rewrite Hsc in Hc. by apply (v_bar _ HI l x0 r0 y0).
  - intros l x Hx. destruct (sent_at _ _ Hx) as (x0 & Hx0 & Hs & _ & _ & Hsc & [(-> & -> & _)|(_ & ->)] & _); change (x_maps s') with (x_maps s); rewrite Hs, Hsc.
    + assert (x0 = p) as -> by (unfold at_ in *; congruence). split; [done|]. intros id0 r0 Hin. apply Ho, elem_of_app. by left.
    + by apply (v_out _ HI l).
  - intros id0 r0 x c l y cl Hm Hl. destruct (sent_miss _ _ _ _ Hm) as (x0 & Hm0 & _ & _ & _ & _ & _ & Hqu & _).
    destruct (sent_lead _ _ _ _ Hl) as (y0 & Hl0 & _ & _ & _ & Hsc & Hou & _).
    pose proof (v_sent _ HI id0 r0 x0 c l y0 cl Hm0 Hl0) as Hold. rewrite Hsc.
    destruct (decide ((id0, r0) = (id, r))) as [[= -> ->]|Hne].
    + assert (l = i) as -> by (eapply Huni; [exact Hl0|exact send_lead]).
      assert (y0 = p) as -> by (destruct Hl0; unfold at_ in *; congruence). destruct Hou as [(_ & -> & _)|[? _]]; [|done].
      destruct Hqu as [[_ ->]|[? _]]; [|done]. split; [intros _; right|intros _; split; [unfold collected; by rewrite Hpc|done]].
      rewrite fmap_app, elem_of_app. right. by apply list_elem_of_singleton.
    + assert ((id0, r0) ∉ x_out y <-> (id0, r0) ∉ x_out y0) as ->.
      { destruct Hou as [(_ & -> & ->)|(_ & ->)]; [|done]. rewrite elem_of_app, list_elem_of_singleton. naive_solver. }
      rewrite Hold. destruct Hqu as [[-> ->]|[_ ->]]; [|done]. rewrite fmap_app, elem_of_app. cbn. rewrite list_elem_of_singleton.
      assert (id0 <> id) by congruence. naive_solver.
  - intros id0 r0 x c l y cl d0 Hm Hl. destruct (sent_miss _ _ _ _ Hm) as (x0 & Hm0 & _), (sent_lead _ _ _ _ Hl) as (y0 & Hl0 & _).
    by apply (v_desc _ HI id0 r0 x0 c l y0 cl).
  - intros r0 x Hx. destruct (sent_at _ _ Hx) as (x0 & Hx0 & Hs & _ & _ & _ & _ & Hqu & _). destruct (v_queue _ HI r0 x0 Hx0) as [Hqn Hqa].
    assert (Hkeep : forall id0 d0, (id0, d0) ∈ x_queue x0 -> exists c, miss s' id0 r0 x c /\ x_desc c = None /\
      forall l y cl, lead s' id0 l y cl -> x_desc cl = Some d0).
    { intros id0 d0 Hin. destruct (Hqa id0 d0 Hin) as (c & (_ & Hc & Hm) & Hn & Hl). exists c. split_and!; [unfold miss; by rewrite Hs|done|].
      intros l y cl Hy. destruct (sent_lead _ _ _ _ Hy) as (y0 & Hy0 & _). by apply (Hl l y0). }
    destruct Hqu as [[-> ->]|[_ ->]]; [|done]. assert (x0 = q) as -> by (unfold at_ in *; congruence). split.
    + rewrite fmap_app. apply NoDup_app. split_and!; [done| |apply NoDup_singleton]. cbn. intros id0 Hin. rewrite list_elem_of_singleton. naive_solver.
    + intros id0 d0. rewrite elem_of_app, list_elem_of_singleton. intros [Hin|[= -> ->]]; [by apply Hkeep|]. exists c1.
      destruct Hm1 as (_ & Hc1 & Hm1). split_and!; [unfold miss; by rewrite Hs|done|]. intros l y cl Hy.
      destruct (sent_lead _ _ _ _ Hy) as (y0 & Hy0 & _). assert (l = i) as -> by (eapply Huni; [exact Hy0|exact send_lead]).
      destruct Hy0 as (Hy0 & Hcl & _). assert (y0 = p) as -> by (unfold at_ in *; congruence). congruence.
  - intros r0 x Hx. destruct (sent_at _ _ Hx) as (x0 & Hx0 & Hs & Hin & Hsr & _). rewrite Hsr, Hin. unfold waiting. rewrite Hs. by apply (v_in _ HI r0).
  - intros r0 x Hx. destruct (sent_at _ _ Hx) as (x0 & Hx0 & _ & Hin & _ & _ & Hou & Hqu & Hpcs).
    pose proof (v_pc _ HI r0 x0 Hx0) as Hv. destruct Hpcs as [[-> ->]|[Hne ->]].
    + assert (x0 = p) as -> by (unfold at_ in *; congruence). rewrite Hpc in Hv. unfold p'. rsimpl. rsimpl. destruct b; [|done]. by apply Hv.
    + destruct Hou as [[? _]|[_ ->]]; [done|]. destruct Hqu as [[-> ->]|[_ ->]]; [|by rewrite Hin].
      assert (x0 = q) as -> by (unfold at_ in *; congruence). destruct (x_pc q); try done; [split; [by destruct Hv|]; intros _|];
      by destruct (x_queue q).
Qed.
End sending.

(** [receiveFd] and [restoreDupFds]: the first datagram of the queue gives a connection its description. *)
Section receiving.
Context (s : XState) (HI : XInv s) (i : nat) (p : XProc) (Hp : at_ s i p) (Hpc : x_pc p = Receiving)
  (id d : nat) (tl : list (nat * nat)) (Hqu : x_queue p = (id, d) :: tl).

Lemma receive_con : exists con, x_cons p !! id = Some con /\ missing con = true /\ x_desc con = None /\
  (forall l y cl, lead s id l y cl -> x_desc cl = Some d).
Proof.
  destruct (v_queue _ HI i p Hp) as [_ Hq]. destruct (Hq id d) as (c & (_ & Hc & Hm) & Hn & Hl).
  { rewrite Hqu. apply list_elem_of_here. }
  by exists c.
Qed.

Context (con : XCon) (Hcon : x_cons p !! id = Some con).
Let p' := p <| x_cons := <[id := con <| x_desc := Some d |>]> (x_cons p) |>
            <| x_in := (x_in p - 1)%nat |> <| x_queue := tl |> <| x_pc := Polling |>.
Let s' := mk_XState (<[i := p']> (x_procs s)) (x_maps s).

Lemma received_fields : x_cons p' = <[id := con <| x_desc := Some d |>]> (x_cons p) /\ x_in p' = (x_in p - 1)%nat /\
  x_queue p' = tl /\ x_pc p' = Polling /\ x_out p' = x_out p.
Proof. unfold p'. split_and!; rsimpl; try done; rsimpl; try done; rsimpl; try done; by rsimpl. Qed.

Lemma received_con : missing con = true /\ x_desc con = None /\ (forall l y cl, lead s id l y cl -> x_desc cl = Some d).
Proof. destruct receive_con as (c & Hc & Hm). assert (c = con) as -> by congruence. done. Qed.

Lemma received_lead id0 l y cl : lead s' id0 l y cl <-> exists y0, lead s id0 l y0 cl /\ (l = i /\ y = p' /\ y0 = p \/ l <> i /\ y = y0).
Proof.
  destruct received_fields as (Hcs & _), received_con as (Hm & _). unfold lead. split.
  - intros (Hy & Hc & Hl). apply (at_update s i p p' Hp) in Hy as [[-> ->]|[Hne Hy]].
    + exists p. split; [|by left]. split_and!; [done| |done]. rewrite Hcs in Hc. destruct (decide (id0 = id)) as [->|Hne].
      * rewrite lookup_insert_eq in Hc. injection Hc as <-. revert Hl. rsimpl. unfold missing in Hm. destruct (x_hasLock con); done.
      * by rewrite lookup_insert_ne in Hc.
    + exists y. split; [done|by right].
  - intros (y0 & (Hy & Hc & Hl) & [(-> & -> & ->)|(Hne & ->)]).
    + split_and!; [by apply (at_update s i p p' Hp); left| |done]. rewrite Hcs, lookup_insert_ne; [done|].
      intros <-. assert (cl = con) as -> by congruence. unfold missing in Hm. by rewrite Hl in Hm.
    + split_and!; [by apply (at_update s i p p' Hp); right|done|done].
Qed.

(** Which connections are missing is as before; one of them has its description now. *)
Lemma received_miss id0 r y c : miss s' id0 r y c -> exists y0 c0, miss s id0 r y0 c0 /\
  (r = i /\ y = p' /\ y0 = p \/ r <> i /\ y = y0) /\
  (r = i /\ id0 = id /\ c0 = con /\ x_desc c = Some d \/ (r <> i \/ id0 <> id) /\ c = c0).
Proof.
  destruct received_fields as (Hcs & _), received_con as (Hmc & _). intros (Hy & Hc & Hm).
  apply (at_update s i p p' Hp) in Hy as [[-> ->]|[Hne Hy]].
  - rewrite Hcs in Hc. destruct (decide (id0 = id)) as [->|Hne].
    + rewrite lookup_insert_eq in Hc. injection Hc as <-. exists p, con. split_and!; [done|by left|]. left. by rsimpl.
    + rewrite lookup_insert_ne in Hc by done. exists p, c. split_and!; [done|by left|]. right. auto.
  - exists y, c. split_and!; [done|by right|]. right. auto.
Qed.

Lemma received_miss_back id0 r y0 c0 : miss s id0 r y0 c0 -> exists y c, miss s' id0 r y c /\
  (r = i /\ y = p' /\ y0 = p \/ r <> i /\ y = y0) /\ (id0 <> id \/ r <> i -> c = c0).
Proof.
  destruct received_fields as (Hcs & _). intros (Hy & Hc & Hm). destruct (decide (r = i)) as [->|Hne].
  - assert (y0 = p) as -> by (unfold at_ in *; congruence). exists p'. destruct (decide (id0 = id)) as [->|Hne].
    + assert (c0 = con) as -> by congruence. exists (con <| x_desc := Some d |>). unfold miss. rewrite Hcs, lookup_insert_eq.
      split_and!; [by apply (at_update s i p p' Hp); left|done|done|by left|by intros [|]].
    + exists c0. unfold miss. rewrite Hcs, lookup_insert_ne by done. split_and!; [by apply (at_update s i p p' Hp); left|done|done|by left|done].
  - exists y0, c0. unfold miss. split_and!; [by apply (at_update s i p p' Hp); right|done|done|by right|done].
Qed.

Lemma received_waiting : waiting p' = delete id (waiting p).
Proof.
  destruct received_fields as (Hcs & _). unfold waiting. rewrite Hcs, map_filter_insert_False; [by rewrite map_filter_delete|].
  cbn. rsimpl. by intros [_ ?].
Qed.

Lemma receive_inv : XInv s'.
Proof.
  destruct received_fields as (Hcs & Hin & Hq' & Hpc' & Hou), received_con as (Hmc & Hnc & Hdl).
  assert (Hreg : registered p' = registered p) by (unfold registered; by rewrite Hpc, Hpc').
  assert (Hcol : collected p' = collected p) by (unfold collected; by rewrite Hpc, Hpc').
  destruct (v_led _ HI) as [Hex Huni]. destruct (v_queue _ HI i p Hp) as [Hnd Hqa]. rewrite Hqu in Hnd, Hqa. cbn in Hnd.
  apply NoDup_cons in Hnd as [Hni Hnd].
  assert (Hat : forall k y, at_ s' k y -> exists y0, at_ s k y0 /\ (k = i /\ y = p' /\ y0 = p \/ k <> i /\ y = y0)).
  { intros k y Hy. apply (at_update s i p p' Hp) in Hy as [[-> ->]|[Hne Hy]]; [exists p|exists y]; naive_solver. }
  split.
  - split.
    + intros id0 r y c Hm. destruct (received_miss _ _ _ _ Hm) as (y0 & c0 & Hm0 & _). destruct (Hex _ _ _ _ Hm0) as (l & z & cl & Hl & Hd).
      destruct (decide (l = i)) as [->|Hne].
      * exists i, p', cl. split; [|done]. apply received_lead. exists z. split; [done|]. left.
        destruct Hl as (Hz & _). split_and!; [done..|]. unfold at_ in *. congruence.
      * exists l, z, cl. split; [|done]. apply received_lead. exists z. split; [done|by right].
    + intros id0 l y cl l' y' cl' Ha Hb. apply received_lead in Ha as (y0 & Ha & _), Hb as (y0' & Hb & _). by eapply Huni.
  - intros id0 r. change (x_maps s') with (x_maps s). rewrite (v_maps _ HI). split.
    + intros (y0 & c0 & Hm & Hr). destruct (received_miss_back _ _ _ _ Hm) as (y & c & Hm' & Hk & _). exists y, c. split; [done|]. naive_solver.
    + intros (y & c & Hm & Hr). destruct (received_miss _ _ _ _ Hm) as (y0 & c0 & Hm' & Hk & _). exists y0, c0. split; [done|]. naive_solver.
  - apply (v_nodup _ HI).
  - intros l y r z Hy Hc Hz. destruct (Hat _ _ Hy) as (y0 & Hy0 & Hk), (Hat _ _ Hz) as (z0 & Hz0 & Hk2).
    assert (collected y0 = true) as Hc0 by naive_solver. pose proof (v_bar _ HI l y0 r z0 Hy0 Hc0 Hz0). naive_solver.
  - intros l y Hy. destruct (Hat _ _ Hy) as (y0 & Hy0 & [(-> & -> & ->)|(_ & ->)]); [|by apply (v_out _ HI l)].
    change (x_maps s') with (x_maps s). rewrite Hou, Hcol. destruct (v_out _ HI i p Hp) as [Hon Hoa]. split; [done|].
    intros id0 r Hi0. destruct (Hoa id0 r Hi0) as (H1 & H2 & H3). split_and!; [done| |done]. unfold has_lock in *. rewrite Hcs.
    destruct (decide (id0 = id)) as [->|Hne]; [|by rewrite lookup_insert_ne]. rewrite Hcon in H2. unfold missing in Hmc. by rewrite H2 in Hmc.
  - intros id0 r y c l z cl Hm Hl. destruct (received_miss _ _ _ _ Hm) as (y0 & c0 & Hm0 & Hk & Hc). apply received_lead in Hl as (z0 & Hl0 & Hkl).
    pose proof (v_sent _ HI id0 r y0 c0 l z0 cl Hm0 Hl0) as Hold.
    assert (collected z = collected z0 /\ x_out z = x_out z0) as [-> ->] by naive_solver. rewrite Hold.
    destruct Hc as [(-> & -> & -> & Hd)|(Hne & ->)].
    + destruct Hk as [(_ & -> & ->)|[? _]]; [|done]. rewrite Hqu. split; [intros _; left; by rewrite Hd|intros _; right; apply list_elem_of_here].
    + destruct Hk as [(-> & -> & ->)|[_ ->]]; [|done]. rewrite Hq', Hqu. cbn. rewrite elem_of_cons. naive_solver.
  - intros id0 r y c l z cl d0 Hm Hl Hd0. destruct (received_miss _ _ _ _ Hm) as (y0 & c0 & Hm0 & Hk & Hc). apply received_lead in Hl as (z0 & Hl0 & _).
    destruct Hc as [(-> & -> & -> & Hd)|(_ & ->)]; [|by apply (v_desc _ HI id0 r y0 c0 l z0 cl)]. rewrite Hd in Hd0. injection Hd0 as <-. by apply (Hdl l z0).
  - intros r y Hy. destruct (Hat _ _ Hy) as (y0 & Hy0 & Hk). destruct (v_queue _ HI r y0 Hy0) as [Hqn Hqb].
    assert (Hsub : forall id0 d0, (id0, d0) ∈ x_queue y -> (id0, d0) ∈ x_queue y0 /\ (id0 <> id \/ r <> i)).
    { intros id0 d0 H0. destruct Hk as [(-> & -> & ->)|[Hne ->]]; [|auto]. rewrite Hq' in H0. rewrite Hqu. split; [by apply list_elem_of_further|].
      left. intros ->. apply Hni. apply list_elem_of_fmap. by exists (id, d0). }
    split; [destruct Hk as [(-> & -> & ->)|[_ ->]]; [by rewrite Hq'|done]|].
    intros id0 d0 H0. destruct (Hsub _ _ H0) as [H1 Hne]. destruct (Hqb id0 d0 H1) as (c & Hm & Hn & Hl).
    destruct (received_miss_back _ _ _ _ Hm) as (y' & c' & Hm' & Hk' & Hcc). assert (y' = y) as -> by naive_solver.
    rewrite (Hcc Hne) in Hm'. exists c. split_and!; [done..|]. intros l z cl Hz. apply received_lead in Hz as (z0 & Hz & _). by apply (Hl l z0).
  - intros r y Hy Hr. destruct (Hat _ _ Hy) as (y0 & Hy0 & [(-> & -> & ->)|[_ ->]]); [|by apply (v_in _ HI r)].
    rewrite received_waiting, map_size_delete_Some, Hin, (v_in _ HI i p Hp) by (try done; by rewrite <- Hreg || exists con; apply map_lookup_filter_Some_2; [done|split; [by apply Is_true_true_2|done]]).
    lia.
  - intros r y Hy. destruct (Hat _ _ Hy) as (y0 & Hy0 & [(-> & -> & ->)|[_ ->]]); [by rewrite Hpc'|by apply (v_pc _ HI r)].
Qed.
End receiving.

(** *** Runs *)

(** The steps, one case each. *)
Inductive xview (s : XState) (i : nat) (p : XProc) : XState -> Prop :=
| view_register : x_pc p = Registering ->
    xview s i p (mk_XState (<[i := (registerIncomingCons i p).1]> (x_procs s)) (x_maps s ++ (registerIncomingCons i p).2))
| view_collect : x_pc p = Collecting -> forallb registered (x_procs s) = true ->
    xview s i p (mk_XState (<[i := collect (x_maps s) p]> (x_procs s)) (x_maps s))
| view_poll p' : x_pc p = Polling -> poll p = Some p' -> xview s i p (mk_XState (<[i := p']> (x_procs s)) (x_maps s))
| view_send b id r outs con d q : x_pc p = Sending b -> x_out p = outs ++ [(id, r)] -> x_cons p !! id = Some con -> x_desc con = Some d ->
    at_ s r q -> r <> i -> x_pc q <> Closed ->
    xview s i p (mk_XState (<[r := q <| x_queue := x_queue q ++ [(id, d)] |>]>
      (<[i := p <| x_out := outs |> <| x_pc := if b then Receiving else Polling |>]> (x_procs s))) (x_maps s))
| view_receive id d tl con : x_pc p = Receiving -> x_queue p = (id, d) :: tl -> x_cons p !! id = Some con ->
    xview s i p (mk_XState (<[i := p <| x_cons := <[id := con <| x_desc := Some d |>]> (x_cons p) |>
      <| x_in := (x_in p - 1)%nat |> <| x_queue := tl |> <| x_pc := Polling |>]> (x_procs s)) (x_maps s)).

Lemma xstep_view s s' : XInv s -> xstep s s' -> exists i p, at_ s i p /\ xview s i p s'.
Proof.
  intros HI [i Hst]. unfold xstep_proc in Hst. destruct (x_procs s !! i) as [p|] eqn:Hp; [|done]. cbn in Hst. exists i, p. split; [done|].
  destruct (x_pc p) as [| | |b| |] eqn:Hpc; [| | | | |done].
  - injection Hst as <-. by apply view_register.
  - destruct (forallb _ _) eqn:Hall; [|done]. injection Hst as <-. by apply view_collect.
  - destruct (poll p) as [p'|] eqn:Hpoll; [|done]. injection Hst as <-. by apply view_poll.
  - unfold send in Hst. destruct (last (x_out p)) as [[id r]|] eqn:Hl; [|done]. cbn in Hst.
    apply last_Some in Hl as [outs Hout]. destruct (x_cons p !! id) as [con|] eqn:Hcon; [|done]. cbn in Hst.
    destruct (x_desc con) as [d|] eqn:Hd; [|done]. cbn in Hst. rewrite Hout, removelast_last in Hst.
    destruct (send_miss s HI i p Hp id r outs Hout con Hcon) as (q & c & (Hq & _) & _ & _ & Hri).
    rewrite list_lookup_insert_ne, Hq in Hst by done. cbn in Hst. destruct (accepts q) eqn:Hacc; [|done]. injection Hst as <-.
    apply view_send with con; try done. intros Hcl. unfold accepts in Hacc. by rewrite Hcl in Hacc.
  - unfold receive in Hst. destruct (x_queue p) as [|[id d] tl] eqn:Hqu; [done|]. destruct (x_cons p !! id) as [con|] eqn:Hcon; [|done].
    injection Hst as <-. by apply view_receive.
Qed.

Lemma xstep_inv s s' : XInv s -> xstep s s' -> XInv s'.
Proof.
  intros HI Hst. destruct (xstep_view s s' HI Hst) as (i & p & Hp & []).
  - by apply register_inv.
  - by apply collect_inv.
  - by eapply poll_inv.
  - by eapply send_inv.
  - by eapply receive_inv.
Qed.

Lemma xinitial_inv s : xinitial s -> XInv s.
Proof.
  intros (Hled & Hmaps & Hproc & Hnone).
  assert (Hr : forall k p, at_ s k p -> registered p = false /\ collected p = false /\ x_out p = [] /\ x_queue p = []).
  { intros k p Hp. destruct (Hproc k p Hp) as (Hpc & Ho & Hq). unfold registered, collected. by rewrite Hpc. }
  split; [done|..].
  - intros id r. rewrite Hmaps, elem_of_nil. split; [done|]. intros (p & c & [Hp _] & Hreg). destruct (Hr r p Hp) as [? _]. congruence.
  - rewrite Hmaps. apply NoDup_nil_2.
  - intros l q r p Hq Hc. destruct (Hr l q Hq) as (_ & ? & _). congruence.
  - intros l q Hq. destruct (Hr l q Hq) as (_ & _ & -> & _). split; [apply NoDup_nil_2|]. intros id r Hin. by apply elem_of_nil in Hin.
  - intros id r p c l q cl Hm (Hq & _). destruct (Hr l q Hq) as (_ & -> & _). rewrite (Hnone id r p c Hm). destruct Hm as [Hp _].
    destruct (Hr r p Hp) as (_ & _ & _ & ->). cbn. rewrite elem_of_nil. split; [by intros [? _]|by intros [[? ?]|?]].
  - intros id r p c l q cl d Hm _. by rewrite (Hnone id r p c Hm).
  - intros r p Hp. destruct (Hr r p Hp) as (_ & _ & _ & ->). split; [apply NoDup_nil_2|]. intros id d Hin. by apply elem_of_nil in Hin.
  - intros r p Hp. destruct (Hr r p Hp) as [-> _]. done.
  - intros r p Hp. destruct (Hproc r p Hp) as [-> _]. done.
Qed.

(** A connection only ever changes by getting its missing description. *)
Definition con_evolves (c c' : XCon) : Prop :=
  x_hasLock c' = x_hasLock c /\ x_kept c' = x_kept c /\ (missing c = false -> c' = c).
Definition evolves (p p' : XProc) : Prop := forall id, option_Forall2 con_evolves (x_cons p !! id) (x_cons p' !! id).

#[local] Instance con_evolves_refl : Reflexive con_evolves.
Proof. by intros c. Qed.
#[local] Instance con_evolves_trans : Transitive con_evolves.
Proof.
  intros c1 c2 c3 (H1 & H2 & H3) (H4 & H5 & H6). split_and!; [congruence..|]. intros Hm. pose proof (H3 Hm) as Hc.
  rewrite Hc in H6. by apply H6.
Qed.
#[local] Instance evolves_refl : Reflexive evolves.
Proof. intros p id. reflexivity. Qed.
#[local] Instance evolves_trans : Transitive evolves.
Proof. intros p1 p2 p3 H1 H2 id. by transitivity (x_cons p2 !! id). Qed.

Lemma same_cons_evolves p p' : x_cons p' = x_cons p -> evolves p p'.
Proof. intros Hcs id. by rewrite Hcs. Qed.

Lemma evolves_insert l i p p' : l !! i = Some p -> evolves p p' -> Forall2 evolves l (<[i := p']> l).
Proof. intros Hp He. rewrite <- (list_insert_id l i p) at 1 by done. by apply Forall2_insert. Qed.

Lemma xstep_evolves s s' : XInv s -> xstep s s' -> Forall2 evolves (x_procs s) (x_procs s').
Proof.
  intros HI Hst. destruct (xstep_view s s' HI Hst) as (i & p & Hp & []); cbn [x_procs].
  - eapply evolves_insert; [exact Hp|]. apply same_cons_evolves. cbn. rsimpl. by rsimpl.
  - eapply evolves_insert; [exact Hp|]. apply same_cons_evolves. unfold collect. rsimpl. by rsimpl.
  - eapply evolves_insert; [exact Hp|]. apply same_cons_evolves. revert H0. unfold poll.
    destruct (x_out p), (x_in p); cbn; try destruct (bool_decide _); cbn; intros [= <-]; by rsimpl.
  - transitivity (<[i := p <| x_out := outs |> <| x_pc := if b then Receiving else Polling |>]> (x_procs s)).
    + eapply evolves_insert; [exact Hp|]. apply same_cons_evolves. rsimpl. by rsimpl.
    + eapply evolves_insert; [rewrite list_lookup_insert_ne by done; exact H3|]. apply same_cons_evolves. by rsimpl.
  - eapply evolves_insert; [exact Hp|]. intros id0. rsimpl. rsimpl. rsimpl. rsimpl.
    destruct (decide (id0 = id)) as [->|Hne]; [|rewrite lookup_insert_ne by done; reflexivity]. rewrite lookup_insert_eq, H1. constructor.
    destruct (received_con s HI i p Hp id d tl H0 con H1) as (Hm & _). split_and!; [by rsimpl..|]. congruence.
Qed.

Definition lacks (p : XProc) : nat := length (incoming (x_cons p)).
Definition all_lacks (s : XState) : nat := sum_list_with lacks (x_procs s).

Lemma evolves_missing c c' : con_evolves c c' -> missing c' = missing c.
Proof. intros (H1 & H2 & _). unfold missing. by rewrite H1, H2. Qed.

Lemma evolves_lookup p p' id c : evolves p p' -> x_cons p !! id = Some c -> exists c', x_cons p' !! id = Some c' /\ con_evolves c c'.
Proof. intros He Hc. specialize (He id). rewrite Hc in He. inversion He; subst. by eexists. Qed.

Lemma evolves_lookup_back p p' id c' : evolves p p' -> x_cons p' !! id = Some c' -> exists c, x_cons p !! id = Some c /\ con_evolves c c'.
Proof. intros He Hc. specialize (He id). rewrite Hc in He. inversion He; subst. by eexists. Qed.

Lemma evolves_lacks p p' : evolves p p' -> lacks p' = lacks p.
Proof.
  intros He. apply Permutation_length, NoDup_Permutation; [apply incoming_nodup..|]. intros id. rewrite !incoming_elem. split.
  - intros (c' & Hc' & Hm). destruct (evolves_lookup_back _ _ _ _ He Hc') as (c & Hc & Hev). exists c. by rewrite <- (evolves_missing _ _ Hev).
  - intros (c & Hc & Hm). destruct (evolves_lookup _ _ _ _ He Hc) as (c' & Hc' & Hev). exists c'. by rewrite (evolves_missing _ _ Hev).
Qed.

Lemma evolves_sum (f : XProc -> nat) l l' : (forall p p', evolves p p' -> f p' = f p) -> Forall2 evolves l l' ->
  sum_list_with f l' = sum_list_with f l.
Proof. intros Hf. induction 1 as [|x y l l' Hxy _ IH]; [done|]. cbn [sum_list_with]. by rewrite IH, (Hf x y). Qed.

Lemma maps_length s : XInv s -> (length (x_maps s) <= all_lacks s)%nat.
Proof.
  intros HI. set (ls := imap (fun r p => (fun id => (id, r)) <$> incoming (x_cons p)) (x_procs s)).
  transitivity (length (mjoin ls)).
  - apply submseteq_length, NoDup_submseteq; [apply (v_nodup _ HI)|]. intros [id r] Hin.
    apply (v_maps _ HI) in Hin as (p & c & (Hp & Hc & Hm) & _). apply list_elem_of_join.
    exists ((fun id => (id, r)) <$> incoming (x_cons p)). split.
    + apply list_elem_of_fmap. exists id. split; [done|]. apply incoming_elem. by exists c.
    + by apply (elem_of_lookup_imap_2 (fun r p => (fun id => (id, r)) <$> incoming (x_cons p))).
  - rewrite length_join. unfold ls, all_lacks. clear. generalize 0%nat as n.
    enough (forall f : nat -> nat, sum_list (length <$> imap (fun r p => (fun id => (id, f r)) <$> incoming (x_cons p)) (x_procs s)) =
      sum_list_with lacks (x_procs s)) as -> by done.
    induction (x_procs s) as [|p l IH]; intros f; [done|]. cbn. rewrite length_fmap. f_equal. apply (IH (fun r => f (S r))).
Qed.

(** What a process has left to do, if there are [t] entries to send. *)
Definition remaining (t : nat) (p : XProc) : nat :=
  match x_pc p with
  | Registering => 3 + 2 * lacks p + 2 * t
  | Collecting => 2 + 2 * x_in p + 2 * t
  | Polling => 1 + 2 * x_in p + 2 * length (x_out p)
  | Sending _ | Receiving => 2 * x_in p + 2 * length (x_out p)
  | Closed => 0
  end%nat.

Lemma receiving_in s i p : XInv s -> at_ s i p -> registered p = true -> x_queue p <> [] -> (0 < x_in p)%nat.
Proof.
  intros HI Hp Hr Hq. rewrite (v_in _ HI i p Hp Hr). destruct (x_queue p) as [|[id d] tl] eqn:Hqu; [done|].
  destruct (receive_con s HI i p Hp id d tl Hqu) as (con & Hc & Hm & Hn & _).
  destruct (size (waiting p)) eqn:Hs; [|lia]. destruct (waiting_nil p id con Hs Hc Hm) as [d0 Hd0]. congruence.
Qed.

Lemma xstep_left s s' : XInv s -> xstep s s' ->
  (sum_list_with (remaining (all_lacks s)) (x_procs s') < sum_list_with (remaining (all_lacks s)) (x_procs s))%nat.
Proof.
  intros HI Hst. destruct (xstep_view s s' HI Hst) as (i & p & Hp & Hv). set (t := all_lacks s).
  assert (Hone : forall p', (remaining t p' < remaining t p)%nat ->
    (sum_list_with (remaining t) (<[i := p']> (x_procs s)) < sum_list_with (remaining t) (x_procs s))%nat).
  { intros p' Hlt. pose proof (sum_insert (remaining t) (x_procs s) i p p' Hp). lia. }
  destruct Hv as [Hpc|Hpc Hall|p' Hpc Hpoll|b id r outs con d q Hpc Hout Hcon Hd Hq Hri Hopen|id d tl con Hpc Hqu Hcon]; cbn [x_procs].
  - apply Hone. unfold remaining, registerIncomingCons. rewrite Hpc. cbn [fst]. rsimpl. rsimpl. unfold lacks. lia.
  - apply Hone. unfold remaining. rewrite Hpc. unfold collect. rsimpl. rsimpl.
    pose proof (maps_length s HI). pose proof (length_filter (fun e => Is_true (has_lock (x_cons p) e.1)) (x_maps s)). unfold t. lia.
  - apply Hone. revert Hpoll. unfold remaining, poll. rewrite Hpc.
    destruct (x_out p) eqn:Ho, (x_in p) eqn:Hin; cbn; try destruct (bool_decide _); cbn; intros [= <-]; rsimpl; rewrite ?Ho, ?Hin; cbn; lia.
  - match goal with |- context[<[r := ?y]> (<[i := ?x]> _)] => set (q' := y); set (p' := x) end.
    assert (Hq' : <[i := p']> (x_procs s) !! r = Some q) by (by rewrite list_lookup_insert_ne).
    pose proof (sum_insert (remaining t) _ r q q' Hq') as Hs. assert (remaining t q' = remaining t q) by (unfold remaining, q', lacks; by rsimpl).
    enough (sum_list_with (remaining t) (<[i := p']> (x_procs s)) < sum_list_with (remaining t) (x_procs s))%nat by lia.
    apply Hone. unfold remaining, p'. rewrite Hpc. rsimpl. rsimpl. rewrite Hout, length_app. cbn. destruct b; lia.
  - apply Hone. unfold remaining. rewrite Hpc. rsimpl. rsimpl. rsimpl. rsimpl.
    pose proof (receiving_in s i p HI Hp) as Hpos. rewrite Hqu in Hpos. unfold registered in Hpos. rewrite Hpc in Hpos. specialize (Hpos eq_refl).
    assert (0 < x_in p)%nat by (by apply Hpos). cbv beta iota. lia.
Qed.

(** A process can go on unless it waits for a datagram that is not there. *)
Definition waits (p : XProc) : Prop := x_pc p = Closed \/ x_pc p = Polling /\ x_out p = [] /\ x_queue p = [] /\ (0 < x_in p)%nat.

Lemma room s r p id c : XInv s -> miss s id r p c -> id ∉ (x_queue p).*1 -> (length (x_queue p) < lacks p)%nat.
Proof.
  intros HI (Hp & Hc & Hm) Hni. destruct (v_queue _ HI r p Hp) as [Hnd Hqa].
  assert (Hsub : id :: (x_queue p).*1 ⊆+ incoming (x_cons p)).
  { apply NoDup_submseteq; [by apply NoDup_cons|]. intros id0. rewrite elem_of_cons. intros [->|Hin]; apply incoming_elem; [by exists c|].
    apply list_elem_of_fmap in Hin as ([k d] & -> & Hin). destruct (Hqa k d Hin) as (c0 & (_ & Hc0 & Hm0) & _). by exists c0. }
  apply submseteq_length in Hsub. cbn in Hsub. rewrite length_fmap in Hsub. unfold lacks. lia.
Qed.

Lemma xstep_or_waits s i p : XInv s -> (forall k q, at_ s k q -> (lacks q <= S max_dgram_qlen)%nat) -> at_ s i p ->
  forallb registered (x_procs s) = true -> waits p \/ exists s', xstep s s'.
Proof.
  intros HI Hcap Hp Hall. destruct (x_pc p) as [| | |b| |] eqn:Hpc; [right|right| |right|right|by left; left].
  - eexists. exists i. unfold xstep_proc. rewrite Hp. cbn. by rewrite Hpc.
  - eexists. exists i. unfold xstep_proc. rewrite Hp. cbn. by rewrite Hpc, Hall.
  - destruct (poll p) as [p'|] eqn:Hpoll.
    + right. eexists. exists i. unfold xstep_proc. rewrite Hp. cbn. by rewrite Hpc, Hpoll.
    + left. right. revert Hpoll. unfold poll. destruct (x_out p), (x_in p); try done. cbn. case_bool_decide; [|done]. intros _. split_and!; (done || lia).
  - pose proof (v_pc _ HI i p Hp) as Hv. rewrite Hpc in Hv. destruct Hv as [Hne _].
    destruct (last (x_out p)) as [[id r]|] eqn:Hl; [|by apply last_None in Hl]. pose proof Hl as Hl2. apply last_Some in Hl2 as [outs Hout].
    assert (Hin : (id, r) ∈ x_out p) by (rewrite Hout, elem_of_app; right; by apply list_elem_of_singleton).
    destruct (v_out _ HI i p Hp) as [_ Ho]. destruct (Ho id r Hin) as (Hmap & Hlk & _). unfold has_lock in Hlk.
    destruct (x_cons p !! id) as [con|] eqn:Hcon; [|done].
    destruct (send_miss s HI i p Hp id r outs Hout con Hcon) as (q & c & Hm & Hn & Hnq & Hri). pose proof Hm as (Hq & Hc & Hmc).
    destruct (v_led _ HI) as [Hex Huni]. destruct (Hex _ _ _ _ Hm) as (l & y & cl & Hly & [d Hd]).
    assert (l = i) as -> by (eapply Huni; [exact Hly|by repeat split]).
    assert (cl = con) as -> by (destruct Hly as (Hy & Hcl & _); unfold at_ in *; congruence).
    eexists. exists i. unfold xstep_proc. rewrite Hp. cbn. rewrite Hpc. unfold send. rewrite Hl. cbn. rewrite Hcon. cbn. rewrite Hd. cbn.
    rewrite list_lookup_insert_ne by done. rewrite Hq. cbn. assert (accepts q = true) as ->; [|done].
    apply (v_maps _ HI) in Hmap as (q2 & c2 & [Hq2 _] & Hreg). assert (q2 = q) as -> by (unfold at_ in *; congruence).
    assert (length (x_queue q) <= max_dgram_qlen)%nat as Hlen by (pose proof (room s r q id c HI Hm Hnq); specialize (Hcap r q Hq); lia).
    unfold accepts. apply Nat.leb_le in Hlen. rewrite Hlen. destruct (x_pc q) eqn:Hpcq; try done.
    pose proof (v_pc _ HI r q Hq) as Hv. rewrite Hpcq in Hv. destruct Hv as [_ Hz]. rewrite (v_in _ HI r q Hq Hreg) in Hz.
    destruct (waiting_nil q id c Hz Hc Hmc). congruence.
  - pose proof (v_pc _ HI i p Hp) as Hv. rewrite Hpc in Hv. destruct (x_queue p) as [|[id d] tl] eqn:Hqu; [done|].
    destruct (receive_con s HI i p Hp id d tl Hqu) as (con & Hc & _). eexists. exists i. unfold xstep_proc. rewrite Hp. cbn. rewrite Hpc.
    unfold receive. by rewrite Hqu, Hc.
Qed.

Lemma forall_or {A} (P : A -> Prop) (Q : Prop) (l : list A) : (forall x, x ∈ l -> P x \/ Q) -> Forall P l \/ Q.
Proof.
  induction l as [|x l IH]; intros H; [by left|]. destruct (H x) as [Hx|]; [apply list_elem_of_here| |by right].
  destruct IH as [IH|]; [intros y Hy; apply H; by apply list_elem_of_further| |by right]. left. by constructor.
Qed.

Definition closed (p : XProc) : Prop := x_pc p = Closed.

Lemma xno_deadlock s : XInv s -> (forall k q, at_ s k q -> (lacks q <= S max_dgram_qlen)%nat) ->
  Forall closed (x_procs s) \/ exists s', xstep s s'.
Proof.
  intros HI Hcap. destruct (forallb registered (x_procs s)) eqn:Hall.
  - destruct (forall_or waits (exists s', xstep s s') (x_procs s)) as [Hw|]; [| |by right].
    { intros p Hin. apply list_elem_of_lookup in Hin as [i Hp]. by apply (xstep_or_waits s i). }
    rewrite Forall_forall in Hw. apply forall_or. intros p Hin. destruct (Hw p Hin) as [Hc|(Hpc & Ho & Hqu & Hpos)]; [by left|exfalso].
    apply list_elem_of_lookup in Hin as [r Hp]. assert (Hreg : registered p = true) by (unfold registered; by rewrite Hpc).
    rewrite (v_in _ HI r p Hp Hreg) in Hpos. destruct (map_choose (waiting p)) as (id & c & Hc); [intros He; rewrite He, map_size_empty in Hpos; lia|].
    apply map_lookup_filter_Some in Hc as [Hc [Hm Hn]]. cbn in Hm, Hn. apply Is_true_true_1 in Hm. assert (Hmi : miss s id r p c) by done.
    destruct (v_led _ HI) as [Hex _]. destruct (Hex _ _ _ _ Hmi) as (l & q & cl & Hl & _).
    destruct (v_sent _ HI id r p c l q cl Hmi Hl) as [Hs _]. destruct Hl as [Hq _].
    assert (Hsent : collected q = true /\ (id, r) ∉ x_out q).
    { destruct (Hw q (list_elem_of_lookup_2 _ _ _ Hq)) as [Hcl|(Hpq & Hoq & _)]; unfold collected.
      - pose proof (v_pc _ HI l q Hq) as Hv. rewrite Hcl in Hv |- *. destruct Hv as [-> _]. split; [done|]. apply not_elem_of_nil.
      - rewrite Hpq, Hoq. split; [done|]. apply not_elem_of_nil. }
    destruct (Hs Hsent) as [[d Hd]|Hin]; [congruence|]. rewrite Hqu in Hin. by apply elem_of_nil in Hin.
  - right. apply not_true_iff_false in Hall. destruct (forall_or (fun p => registered p = true) (exists s', xstep s s') (x_procs s)) as [Hr|]; [| |done].
    + intros p Hin. apply list_elem_of_lookup in Hin as [i Hp]. destruct (registered p) eqn:Hreg; [by left|right].
      unfold registered in Hreg. destruct (x_pc p) eqn:Hpc; try done. eexists. exists i. unfold xstep_proc. rewrite Hp. cbn. by rewrite Hpc.
    + destruct Hall. apply forallb_forall. intros p Hin. rewrite Forall_forall in Hr. apply Hr. by apply list_elem_of_In.
Qed.

Lemma xsteps s n s' : XInv s -> nsteps xstep n s s' -> XInv s' /\ Forall2 evolves (x_procs s) (x_procs s') /\
  (n + sum_list_with (remaining (all_lacks s)) (x_procs s') <= sum_list_with (remaining (all_lacks s)) (x_procs s))%nat.
Proof.
  intros HI Hn. induction Hn as [|n s1 s2 s3 Hst _ IH]; [split_and!; [done|reflexivity|lia]|].
  destruct IH as (HI3 & He & Hle); [by eapply xstep_inv|]. pose proof (xstep_evolves s1 s2 HI Hst) as He1.
  pose proof (xstep_left s1 s2 HI Hst) as Hlt. assert (all_lacks s2 = all_lacks s1) as Heq by (apply evolves_sum; [apply evolves_lacks|done]).
  rewrite Heq in Hle. split_and!; [done|by transitivity (x_procs s2)|lia].
Qed.

(** C12: after a restart the processes of a host register their missing connections, pass a barrier and
    run the send-and-receive loop of [sendReceiveMissingFds], in any interleaving.  If every missing
    connection has exactly one process that restored it, and the socket of a process has room for all it misses (at most
    [max_dgram_qlen] + 1), then no send or receive fails, until all have left the loop some process can go on, the number of steps
    is bounded, and at the end every missing connection has the description of the process
    that restored it, and every other connection is as it was. *)
Theorem missing_fds_exchanged (s0 s : XState) (n : nat) :
  xinitial s0 -> (forall p, p ∈ x_procs s0 -> (lacks p <= S max_dgram_qlen)%nat) -> nsteps xstep n s0 s ->
  (n <= sum_list_with (fun p => 3 + 2 * lacks p + 2 * all_lacks s0) (x_procs s0))%nat /\
  (Forall closed (x_procs s) \/ exists s', xstep s s') /\
  (Forall closed (x_procs s) -> forall r p0 p id c0, x_procs s0 !! r = Some p0 -> x_procs s !! r = Some p -> x_cons p0 !! id = Some c0 ->
     if missing c0
     then exists l q cl d, lead s0 id l q cl /\ x_desc cl = Some d /\ x_cons p !! id = Some (c0 <| x_desc := Some d |>)
     else x_cons p !! id = Some c0).
Proof.
  intros Hini Hcap Hn. pose proof (xinitial_inv s0 Hini) as HI0. destruct (xsteps s0 n s HI0 Hn) as (HI & Hev & Hle).
  assert (Hevk : forall k p0, x_procs s0 !! k = Some p0 -> exists p, x_procs s !! k = Some p /\ evolves p0 p).
  { intros k p0 Hk. destruct (Forall2_lookup_l _ _ _ _ _ Hev Hk) as (p & ? & ?). by exists p. }
  split_and!.
  - enough (sum_list_with (remaining (all_lacks s0)) (x_procs s0) = sum_list_with (fun p => 3 + 2 * lacks p + 2 * all_lacks s0)%nat (x_procs s0)) by lia.
    destruct Hini as (_ & _ & Hpc & _). generalize (all_lacks s0) as t. intros t. unfold at_ in Hpc. induction (x_procs s0) as [|p l IH] in Hpc |- *; [done|].
    cbn [sum_list_with]. rewrite (IH (fun k => Hpc (S k))). f_equal. unfold remaining. by rewrite (proj1 (Hpc 0%nat p eq_refl)).
  - apply xno_deadlock; [done|]. intros k q Hq. destruct (Forall2_lookup_r _ _ _ _ _ Hev Hq) as (q0 & Hq0 & He).
    rewrite (evolves_lacks _ _ He). apply Hcap. by eapply list_elem_of_lookup_2.
  - intros Hcl r p0 p id c0 Hp0 Hp Hc0. destruct (Hevk r p0 Hp0) as (p1 & Hp1 & He). assert (p1 = p) as -> by congruence.
    destruct (evolves_lookup _ _ _ _ He Hc0) as (c & Hc & (He1 & He2 & He3)). destruct (missing c0) eqn:Hm0; [|by rewrite <- (He3 eq_refl)].
    assert (Hm : miss s id r p c). { split_and!; [done..|]. unfold missing in *. by rewrite He1, He2. }
    assert (Hd : is_Some (x_desc c)).
    { rewrite Forall_forall in Hcl. pose proof (Hcl p (list_elem_of_lookup_2 _ _ _ Hp)) as Hcp. pose proof (v_pc _ HI r p Hp) as Hv. rewrite Hcp in Hv.
      destruct Hv as [_ Hz]. rewrite (v_in _ HI r p Hp) in Hz by (unfold registered; by rewrite Hcp). by apply (waiting_nil p id c Hz Hc), Hm. }
    destruct Hd as [d Hd]. destruct (v_led _ HI0) as [Hex _]. destruct (Hex id r p0 c0) as (l & q & cl & (Hq & Hcq & Hlk) & _); [done|].
    destruct (Hevk l q Hq) as (q' & Hq' & Heq). destruct (evolves_lookup _ _ _ _ Heq Hcq) as (cl' & Hcl' & (_ & _ & Hsame)).
    rewrite Hsame in Hcl' by (unfold missing; by rewrite Hlk). exists l, q, cl, d. split_and!; [done| |].
    + by apply (v_desc _ HI id r p c l q' cl).
    + rewrite Hc. f_equal. destruct c, c0. unfold set_field. cbn in *. congruence.
Qed.
End exchange.

(** *** A crowded exchange

    Process 0 restored eleven connections for process 1 and eleven for process 2, which also
    wait for one connection from each other. *)
Definition crowded : XState :=
  let locked (ids : list nat) := list_to_map ((fun id => (id, mk_XCon true false (Some (100 + id)%nat))) <$> ids) : gmap nat XCon in
  let lost (ids : list nat) := list_to_map ((fun id => (id, mk_XCon false false None)) <$> ids) : gmap nat XCon in
  let new cs := mk_XProc cs [] 0 [] Registering in
  mk_XState [ new (locked (seq 0 22));
              new (locked [30%nat] ∪ lost (31 :: seq 0 11)%nat);
              new (locked [31%nat] ∪ lost (30 :: seq 11 11)%nat) ] [].

Definition entries (s : XState) : list (nat * nat * XCon) :=
  mjoin (imap (fun r p => (fun kc => (r, kc.1, kc.2)) <$> map_to_list (x_cons p)) (x_procs s)).

Definition check_initial (s : XState) : bool :=
  bool_decide (x_maps s = []) &&
  forallb (fun p => match x_pc p, x_out p, x_queue p with Registering, [], [] => true | _, _, _ => false end) (x_procs s) &&
  forallb (fun '(_, id, c) => negb (missing c) || negb (bool_decide (is_Some (x_desc c))) &&
    existsb (fun '(_, id', c') => Nat.eqb id id' && x_hasLock c' && bool_decide (is_Some (x_desc c'))) (entries s)) (entries s) &&
  forallb (fun '(r, id, c) => forallb (fun '(r', id', c') =>
    negb (Nat.eqb id id' && x_hasLock c && x_hasLock c') || Nat.eqb r r') (entries s)) (entries s).

Lemma entries_elem s r id c : (r, id, c) ∈ entries s <-> exists p, at_ s r p /\ x_cons p !! id = Some c.
Proof.
  unfold entries. rewrite list_elem_of_join. split.
  - intros (l & Hin & Hl). apply elem_of_lookup_imap in Hl as (k & p & -> & Hp). apply list_elem_of_fmap in Hin as ([id' c'] & [= -> -> ->] & Hin).
    exists p. split; [done|by apply elem_of_map_to_list].
  - intros (p & Hp & Hc). eexists. split; [|by apply elem_of_lookup_imap; exists r, p]. apply list_elem_of_fmap. exists (id, c).
    split; [done|by apply elem_of_map_to_list].
Qed.

Lemma check_initial_sound s : check_initial s = true -> xinitial s.
Proof.
  unfold check_initial. rewrite !andb_true_iff, !forallb_forall. intros [[[Hm Hp] Hl] Hu]. setoid_rewrite <- list_elem_of_In in Hp.
  setoid_rewrite <- list_elem_of_In in Hl. setoid_rewrite <- list_elem_of_In in Hu.
  assert (Hmiss : forall id r p c, miss s id r p c -> x_desc c = None /\ exists l q cl, lead s id l q cl /\ is_Some (x_desc cl)).
  { intros id r p c (Hat & Hc & Hmc). specialize (Hl (r, id, c)). rewrite entries_elem, Hmc in Hl. cbn in Hl.
    destruct (andb_prop _ _ (Hl (ex_intro _ p (conj Hat Hc)))) as [Hn He].
    split; [by destruct (x_desc c)|]. apply existsb_exists in He as ([[l id'] cl] & Hin & Hb). apply list_elem_of_In, entries_elem in Hin as (q & Hq & Hcl).
    apply andb_prop in Hb as [Hb Hd]. apply andb_prop in Hb as [Hid Hlk]. apply Nat.eqb_eq in Hid as <-. exists l, q, cl.
    split; [done|]. by apply bool_decide_eq_true in Hd. }
  split_and!; [split|..].
  - intros id r p c Hmi. by destruct (Hmiss id r p c Hmi) as [_ ?].
  - intros id l q cl l' q' cl' (Ha & Hb & Hc) (Ha' & Hb' & Hc'). specialize (Hu (l, id, cl)). cbn in Hu. rewrite entries_elem in Hu.
    specialize (Hu (ex_intro _ q (conj Ha Hb))). rewrite forallb_forall in Hu. specialize (Hu (l', id, cl')).
    rewrite <- list_elem_of_In, entries_elem, Nat.eqb_refl, Hc, Hc' in Hu. apply Nat.eqb_eq, Hu. by exists q'.
  - by apply bool_decide_eq_true in Hm.
  - intros k p Hk. specialize (Hp p (list_elem_of_lookup_2 _ _ _ Hk)). by destruct (x_pc p), (x_out p), (x_queue p).
  - intros id r p c Hmi. by destruct (Hmiss id r p c Hmi) as [? _].
Qed.

(** Runs of the processes in the order of a schedule, or of whichever can go on. *)
Fixpoint xrun (qlen : nat) (l : list nat) (s : XState) : option XState :=
  match l with [] => Some s | i :: l => s' ← xstep_proc qlen i s; xrun qlen l s' end.

Lemma xrun_nsteps qlen l s s' : xrun qlen l s = Some s' -> nsteps (xstep qlen) (length l) s s'.
Proof.
  revert s. induction l as [|i l IH]; intros s; cbn; [intros [= ->]; constructor|].
  destruct (xstep_proc qlen i s) as [s1|] eqn:Hs; [|done]. intros Hr. apply nsteps_l with s1; [by exists i|by apply IH].
Qed.

(** All register and pass the barrier, process 0 sends its 22 descriptors and leaves, the others find that they
    can write. *)
Definition crowding : list nat := ([0; 1; 2; 0; 1; 2] ++ repeat 0 45 ++ [1; 2])%nat.
Definition jammed : XState := default crowded (xrun 10 crowding crowded).

Lemma xstuck qlen s : forallb (fun i => match xstep_proc qlen i s with None => true | _ => false end) (seq 0 (length (x_procs s))) = true ->
  forall s', ~ xstep qlen s s'.
Proof.
  intros Hb s' [i Hi]. assert (i < length (x_procs s))%nat as Hlt.
  { unfold xstep_proc in Hi. destruct (x_procs s !! i) eqn:Hp; [|done]. by eapply lookup_lt_Some. }
  rewrite forallb_forall in Hb. specialize (Hb i). rewrite in_seq in Hb. specialize (Hb ltac:(lia)). by rewrite Hi in Hb.
Qed.

(** The loop of [sendReceiveMissingFds] sends before it receives and [sendFd] waits for room in the socket of
    the receiver.  With the queue length Linux has by default (10) there is an exchange in which every missing connection has exactly
    one process that restored it, and which comes to a halt: two processes wait for room in each other's
    socket and never receive what fills it. *)
Theorem missing_fds_deadlock :
  xinitial crowded /\ (forall p, p ∈ x_procs crowded -> (lacks p <= 12)%nat) /\
  exists s, rtc (xstep 10) crowded s /\ (forall s', ~ xstep 10 s s') /\ ~ Forall closed (x_procs s).
Proof.
  split; [apply check_initial_sound; vm_compute; reflexivity|]. split; [|exists jammed; split_and!].
  - apply Forall_forall. repeat constructor; apply Nat.leb_le; vm_compute; reflexivity.
  - eapply rtc_nsteps_2, (xrun_nsteps 10 crowding). vm_compute. reflexivity.
  - apply xstuck. vm_compute. reflexivity.
  - intros Hc. rewrite Forall_forall in Hc. destruct (x_procs jammed !! 1%nat) as [p|] eqn:Hp.
    + specialize (Hc p (list_elem_of_lookup_2 _ _ _ Hp)). revert Hp Hc. vm_compute. intros [= <-]. done.
    + revert Hp. vm_compute. done.
Qed.

(** Process 0 sends, process 1 runs until it waits for process 2, which sends and, after process 1, runs to its end. *)
Definition turns : list nat := ([0; 1; 2] ++ repeat 0 46 ++ repeat 1 24 ++ repeat 2 3 ++ repeat 1 3 ++ repeat 2 24)%nat.

(** With room for twelve descriptors the same processes finish: process 1 has what process 2 restored. *)
Lemma missing_fds_exchanged_witness : exists s p,
  nsteps (xstep 11) (length turns) crowded s /\ x_procs s !! 1%nat = Some p /\ x_cons p !! 31%nat = Some (mk_XCon false false (Some 131%nat)).
Proof.
  assert (Hrun : exists s, xrun 11 turns crowded = Some s /\ Forall closed (x_procs s)).
  { destruct (xrun 11 turns crowded) as [s|] eqn:Hr; [|revert Hr; vm_compute; discriminate]. exists s. split; [done|].
    revert Hr. vm_compute. intros [= <-]. repeat constructor. }
  destruct Hrun as (s & Hr & Hcl). apply xrun_nsteps in Hr. pose proof (check_initial_sound crowded) as Hini.
  destruct (missing_fds_exchanged 11 crowded s (length turns)) as (_ & _ & Hend).
  - apply Hini. vm_compute. reflexivity.
  - apply Forall_forall. repeat constructor; apply Nat.leb_le; vm_compute; reflexivity.
  - exact Hr.
  - destruct (x_procs s !! 1%nat) as [p|] eqn:Hp.
    + exists s, p. split_and!; [done|done|]. specialize (Hend Hcl 1%nat _ p 31%nat (mk_XCon false false None) eq_refl Hp).
      destruct Hend as (l & q & cl & d & (Hq & Hcq & Hlk) & Hd & Hres); [vm_compute; reflexivity|].
      assert (d = 131)%nat as ->; [|exact Hres].
      assert (Hall : forallb (fun '(_, id, c) => negb (Nat.eqb id 31 && x_hasLock c) || bool_decide (x_desc c = Some 131%nat)) (entries crowded) = true)
        by (vm_compute; reflexivity).
      rewrite forallb_forall in Hall. specialize (Hall (l, 31%nat, cl)). rewrite <- list_elem_of_In, entries_elem, Hlk in Hall.
      specialize (Hall (ex_intro _ q (conj Hq Hcq))). apply bool_decide_eq_true in Hall. congruence.
    + exfalso. destruct (xsteps 11 crowded (length turns) s) as (_ & Hev & _); [apply xinitial_inv, Hini; vm_compute; reflexivity|done|].
      apply Forall2_length in Hev. apply lookup_ge_None_1 in Hp. cbn in Hev. lia.
Defined.
End Exchange.
