(* ===== verification/Base64.v ===== *)
(** * Base64 (include/base64.h)

    Addresses of sockets travel through the key-value service as text.  [encode] and
    [decode] work on groups of three bytes and four characters as the code does,
    with its bit operations; [decode] is [None] where the code throws. *)

From Stdlib Require Import ZArith Lia Ascii.
From stdpp Require Import base gmap strings numbers list.
From S2P Require Import Prelude CText.
Open Scope Z_scope.

Definition base64_chars (url : bool) : string :=
  "ABCDEFGHIJKLMNOPQRSTUVWXYZabcdefghijklmnopqrstuvwxyz0123456789" +:+ (if url then "-_" else "+/").

(** [base64_chars_[i]]; the indices of [encode] are below 64. *)
Definition char_at (url : bool) (i : Z) : ascii := default NUL (String.get (Z.to_nat i) (base64_chars url)).

Definition pos_of_char (chr : ascii) : option Z :=
  let v := byte_val chr in
  if (65 <=? v) && (v <=? 90) then Some (v - 65)
  else if (97 <=? v) && (v <=? 122) then Some (v - 97 + (90 - 65) + 1)
  else if (48 <=? v) && (v <=? 57) then Some (v - 48 + (90 - 65) + (122 - 97) + 2)
  else if Ascii.eqb chr "+" || Ascii.eqb chr "-" then Some 62
  else if Ascii.eqb chr "/" || Ascii.eqb chr "_" then Some 63
  else None.

Definition trailing_char (url : bool) : ascii := if url then "."%char else "="%char.

(** The four characters of one, two and three bytes. *)
Section groups.
Context (url : bool).

Definition c0 (a : Z) : ascii := char_at url (Z.shiftr (Z.land a 0xfc) 2).
Definition c1 (a b : Z) : ascii := char_at url (Z.shiftl (Z.land a 0x03) 4 + Z.shiftr (Z.land b 0xf0) 4).
Definition c2 (b c : Z) : ascii := char_at url (Z.shiftl (Z.land b 0x0f) 2 + Z.shiftr (Z.land c 0xc0) 6).
Definition c3 (c : Z) : ascii := char_at url (Z.land c 0x3f).

Fixpoint encode_loop (s : string) : string :=
  match s with
  | EmptyString => EmptyString
  | String a EmptyString =>
      String (c0 (byte_val a)) (String (c1 (byte_val a) 0)
        (String (trailing_char url) (String (trailing_char url) EmptyString)))
  | String a (String b EmptyString) =>
      String (c0 (byte_val a)) (String (c1 (byte_val a) (byte_val b))
        (String (c2 (byte_val b) 0) (String (trailing_char url) EmptyString)))
  | String a (String b (String c s')) =>
      String (c0 (byte_val a)) (String (c1 (byte_val a) (byte_val b))
        (String (c2 (byte_val b) (byte_val c)) (String (c3 (byte_val c)) (encode_loop s'))))
  end.

(** The index of the loop is a 32-bit integer: the loop ends for inputs below 4 GB. *)
Definition encode (s : string) : option string :=
  if Z.of_nat (String.length s) <? 2 ^ 32 then Some (encode_loop s) else None.
End groups.

Definition is_pad (c : ascii) : bool := Ascii.eqb c "=" || Ascii.eqb c ".".

(** [encoded_string[pos + 1]] behind the last character is the terminating zero. *)
Fixpoint decode_loop (s : string) : option string :=
  match s with
  | EmptyString => Some EmptyString
  | String a EmptyString => pos_of_char NUL ≫= fun _ => None
  | String a (String b s2) =>
      pos_of_char_1 ← pos_of_char b;
      pos_of_char_0 ← pos_of_char a;
      let byte0 := byte_of (Z.shiftl pos_of_char_0 2 + Z.shiftr (Z.land pos_of_char_1 0x30) 4) in
      match s2 with
      | EmptyString => Some (String byte0 EmptyString)
      | String c s3 =>
          if is_pad c
          then
            rest ← match s3 with EmptyString => Some EmptyString | String _ s4 => decode_loop s4 end;
            Some (String byte0 rest)
          else
            pos_of_char_2 ← pos_of_char c;
            let byte1 := byte_of (Z.shiftl (Z.land pos_of_char_1 0x0f) 4 + Z.shiftr (Z.land pos_of_char_2 0x3c) 2) in
            match s3 with
            | EmptyString => Some (String byte0 (String byte1 EmptyString))
            | String d s4 =>
                if is_pad d
                then rest ← decode_loop s4; Some (String byte0 (String byte1 rest))
                else
                  pos_of_char_3 ← pos_of_char d;
                  rest ← decode_loop s4;
                  Some (String byte0 (String byte1 (String (byte_of (Z.shiftl (Z.land pos_of_char_2 0x03) 6 + pos_of_char_3)) rest)))
            end
      end
  end.
Definition decode (s : string) : option string := decode_loop s.

(** ** The bit operations as arithmetic *)

Definition below (n : nat) : list Z := Z.of_nat <$> seq 0 n.

Lemma below_elem n z : 0 <= z < Z.of_nat n -> z ∈ below n.
Proof.
  intros Hz. unfold below. apply list_elem_of_fmap. exists (Z.to_nat z). split; [lia|]. apply elem_of_seq. lia.
Qed.

(** A check of all small numbers. *)
Lemma by_cases (f : Z -> bool) n z : forallb f (below n) = true -> 0 <= z < Z.of_nat n -> f z = true.
Proof. intros Hf Hz. rewrite forallb_forall in Hf. apply Hf, list_elem_of_In, below_elem, Hz. Qed.

Ltac small f n := intros ? ?; apply Z.eqb_eq; match goal with H : 0 <= ?z < _ |- _ => exact (by_cases f n z eq_refl H) end.

Lemma land_fc : forall z, 0 <= z < 256 -> Z.shiftr (Z.land z 0xfc) 2 = z / 4.
Proof. small (fun z => Z.shiftr (Z.land z 0xfc) 2 =? z / 4) 256%nat. Qed.
Lemma land_03 : forall z, 0 <= z < 256 -> Z.shiftl (Z.land z 0x03) 4 = 16 * (z mod 4).
Proof. small (fun z => Z.shiftl (Z.land z 0x03) 4 =? 16 * (z mod 4)) 256%nat. Qed.
Lemma land_f0 : forall z, 0 <= z < 256 -> Z.shiftr (Z.land z 0xf0) 4 = z / 16.
Proof. small (fun z => Z.shiftr (Z.land z 0xf0) 4 =? z / 16) 256%nat. Qed.
Lemma land_0f : forall z, 0 <= z < 256 -> Z.shiftl (Z.land z 0x0f) 2 = 4 * (z mod 16).
Proof. small (fun z => Z.shiftl (Z.land z 0x0f) 2 =? 4 * (z mod 16)) 256%nat. Qed.
Lemma land_c0 : forall z, 0 <= z < 256 -> Z.shiftr (Z.land z 0xc0) 6 = z / 64.
Proof. small (fun z => Z.shiftr (Z.land z 0xc0) 6 =? z / 64) 256%nat. Qed.
Lemma land_3f : forall z, 0 <= z < 256 -> Z.land z 0x3f = z mod 64.
Proof. small (fun z => Z.land z 0x3f =? z mod 64) 256%nat. Qed.
Lemma land_30 : forall z, 0 <= z < 64 -> Z.shiftr (Z.land z 0x30) 4 = z / 16.
Proof. small (fun z => Z.shiftr (Z.land z 0x30) 4 =? z / 16) 64%nat. Qed.
Lemma land_0f4 : forall z, 0 <= z < 64 -> Z.shiftl (Z.land z 0x0f) 4 = 16 * (z mod 16).
Proof. small (fun z => Z.shiftl (Z.land z 0x0f) 4 =? 16 * (z mod 16)) 64%nat. Qed.
Lemma land_3c : forall z, 0 <= z < 64 -> Z.shiftr (Z.land z 0x3c) 2 = z / 4.
Proof. small (fun z => Z.shiftr (Z.land z 0x3c) 2 =? z / 4) 64%nat. Qed.
Lemma land_036 : forall z, 0 <= z < 64 -> Z.shiftl (Z.land z 0x03) 6 = 64 * (z mod 4).
Proof. small (fun z => Z.shiftl (Z.land z 0x03) 6 =? 64 * (z mod 4)) 64%nat. Qed.

Lemma byte_of_val c : byte_of (byte_val c) = c.
Proof. unfold byte_of. rewrite Z.mod_small by apply byte_val_range. unfold byte_val. by rewrite N2Z.id, ascii_N_embedding. Qed.

Lemma pos_char_at url : forall i, 0 <= i < 64 -> pos_of_char (char_at url i) = Some i.
Proof.
  intros i Hi. enough (bool_decide (pos_of_char (char_at url i) = Some i) = true) by (by eapply bool_decide_eq_true_1).
  by destruct url; refine (by_cases (fun i => bool_decide (pos_of_char (char_at _ i) = Some i)) 64 i _ Hi); vm_compute.
Qed.

Lemma char_not_pad url : forall i, 0 <= i < 64 -> is_pad (char_at url i) = false.
Proof.
  intros i Hi. apply negb_true_iff.
  by destruct url; refine (by_cases (fun i => negb (is_pad (char_at _ i))) 64 i _ Hi); vm_compute.
Qed.

Lemma trailing_is_pad url : is_pad (trailing_char url) = true.
Proof. by destruct url. Qed.

(** ** Round trip *)

Ltac divmod := Z.to_euclidean_division_equations; lia.

Section round_trip.
Context (url : bool).

Lemma pos_c0 a : 0 <= a < 256 -> pos_of_char (c0 url a) = Some (a / 4).
Proof. intros Ha. unfold c0. rewrite land_fc by done. apply pos_char_at. divmod. Qed.
Lemma pos_c1 a b : 0 <= a < 256 -> 0 <= b < 256 -> pos_of_char (c1 url a b) = Some (16 * (a mod 4) + b / 16).
Proof. intros Ha Hb. unfold c1. rewrite land_03, land_f0 by done. apply pos_char_at. divmod. Qed.
Lemma pos_c2 b c : 0 <= b < 256 -> 0 <= c < 256 ->
  pos_of_char (c2 url b c) = Some (4 * (b mod 16) + c / 64) /\ is_pad (c2 url b c) = false.
Proof. intros Hb Hc. unfold c2. rewrite land_0f, land_c0 by done. split; [apply pos_char_at|apply char_not_pad]; divmod. Qed.
Lemma pos_c3 c : 0 <= c < 256 -> pos_of_char (c3 url c) = Some (c mod 64) /\ is_pad (c3 url c) = false.
Proof. intros Hc. unfold c3. rewrite land_3f by done. split; [apply pos_char_at|apply char_not_pad]; divmod. Qed.

(** The bytes back from their groups. *)
Lemma byte0_back x a b : byte_val x = a -> 0 <= b < 256 ->
  byte_of (Z.shiftl (a / 4) 2 + Z.shiftr (Z.land (16 * (a mod 4) + b / 16) 0x30) 4) = x.
Proof.
  intros <- Hb. pose proof (byte_val_range x). rewrite land_30, Z.shiftl_mul_pow2 by divmod.
  rewrite <- (byte_of_val x) at 3. f_equal. divmod.
Qed.
Lemma byte1_back y a b c : byte_val y = b -> 0 <= a < 256 -> 0 <= c < 256 ->
  byte_of (Z.shiftl (Z.land (16 * (a mod 4) + b / 16) 0x0f) 4 + Z.shiftr (Z.land (4 * (b mod 16) + c / 64) 0x3c) 2) = y.
Proof.
  intros <- Ha Hc. pose proof (byte_val_range y). rewrite land_0f4, land_3c by divmod.
  rewrite <- (byte_of_val y) at 3. f_equal. divmod.
Qed.
Lemma byte2_back z b c : byte_val z = c -> 0 <= b < 256 ->
  byte_of (Z.shiftl (Z.land (4 * (b mod 16) + c / 64) 0x03) 6 + c mod 64) = z.
Proof.
  intros <- Hb. pose proof (byte_val_range z). rewrite land_036 by divmod.
  rewrite <- (byte_of_val z) at 3. f_equal. divmod.
Qed.

Lemma string_ind3 (P : string -> Prop) :
  P EmptyString -> (forall a, P (String a EmptyString)) -> (forall a b, P (String a (String b EmptyString))) ->
  (forall a b c s, P s -> P (String a (String b (String c s)))) -> forall s, P s.
Proof.
  intros H0 H1 H2 H3 s. enough (P s /\ (forall a, P (String a s)) /\ (forall a b, P (String a (String b s)))) by tauto.
  induction s as [|c s (IH0 & IH1 & IH2)]; [auto|]. split_and!; auto.
Qed.

Lemma decode_encode_loop s : decode_loop (encode_loop url s) = Some s.
Proof.
  induction s as [|a|a b|a b c s IH] using string_ind3; [done|..]; cbn [encode_loop decode_loop];
    pose proof (byte_val_range a) as Ha.
  - rewrite (pos_c1 _ 0), pos_c0 by lia. cbn [mbind option_bind]. rewrite trailing_is_pad. cbn. do 2 f_equal. apply byte0_back; [done|lia].
  - pose proof (byte_val_range b) as Hb. rewrite pos_c1, pos_c0 by lia. cbn [mbind option_bind].
    destruct (pos_c2 (byte_val b) 0 Hb ltac:(lia)) as [-> ->]. cbn [mbind option_bind]. rewrite trailing_is_pad. cbn.
    rewrite (byte0_back a _ (byte_val b)) by done. do 3 f_equal. by apply (byte1_back b (byte_val a) (byte_val b) 0).
  - pose proof (byte_val_range b) as Hb. pose proof (byte_val_range c) as Hc. rewrite pos_c1, pos_c0 by lia. cbn [mbind option_bind].
    destruct (pos_c2 (byte_val b) (byte_val c) Hb Hc) as [-> ->]. cbn [mbind option_bind].
    destruct (pos_c3 (byte_val c) Hc) as [-> ->]. cbn [mbind option_bind]. rewrite IH. cbn [mbind option_bind].
    by rewrite (byte0_back a _ (byte_val b)), (byte1_back b (byte_val a) _ (byte_val c)), (byte2_back c (byte_val b)).
Qed.

Lemma encode_loop_length s : String.length (encode_loop url s) = ((String.length s + 2) / 3 * 4)%nat.
Proof.
  induction s as [|a|a b|a b c s IH] using string_ind3; [done..|]. cbn [encode_loop String.length]. rewrite IH.
  replace (S (S (S (String.length s))) + 2)%nat with (String.length s + 2 + 1 * 3)%nat by lia. rewrite Nat.div_add by done. lia.
Qed.

Lemma char_not_NUL : forall i, 0 <= i < 64 -> Ascii.eqb (char_at url i) NUL = false.
Proof.
  intros i Hi. apply negb_true_iff.
  by destruct url; refine (by_cases (fun i => negb (Ascii.eqb (char_at _ i) NUL)) 64 i _ Hi); vm_compute.
Qed.

Lemma encode_loop_no_NUL s : no_NUL (encode_loop url s) = true.
Proof.
  assert (H0 : forall a, 0 <= a < 256 -> Ascii.eqb (c0 url a) NUL = false).
  { intros a Ha. unfold c0. rewrite land_fc by done. apply char_not_NUL. divmod. }
  assert (H1 : forall a b, 0 <= a < 256 -> 0 <= b < 256 -> Ascii.eqb (c1 url a b) NUL = false).
  { intros a b Ha Hb. unfold c1. rewrite land_03, land_f0 by done. apply char_not_NUL. divmod. }
  assert (H2 : forall a b, 0 <= a < 256 -> 0 <= b < 256 -> Ascii.eqb (c2 url a b) NUL = false).
  { intros a b Ha Hb. unfold c2. rewrite land_0f, land_c0 by done. apply char_not_NUL. divmod. }
  assert (H3 : forall a, 0 <= a < 256 -> Ascii.eqb (c3 url a) NUL = false).
  { intros a Ha. unfold c3. rewrite land_3f by done. apply char_not_NUL. divmod. }
  assert (Ht : Ascii.eqb (trailing_char url) NUL = false) by (by destruct url).
  induction s as [|a|a b|a b c s IH] using string_ind3; [done|..]; cbn [encode_loop no_NUL]; pose proof byte_val_range;
    by rewrite ?H0, ?H1, ?H2, ?H3, ?Ht, ?IH by (done || lia || auto).
Qed.
End round_trip.

(** [base64::decode] inverts [base64::encode] in both alphabets for every input below 4 GB; the text has four characters
    for every three bytes begun, and contains no NUL. *)
Theorem base64_roundtrip url s : Z.of_nat (String.length s) < 2 ^ 32 ->
  exists t, encode url s = Some t /\ decode t = Some s /\ String.length t = ((String.length s + 2) / 3 * 4)%nat /\ no_NUL t = true.
Proof.
  intros Hs. exists (encode_loop url s). unfold encode. apply Z.ltb_lt in Hs. rewrite Hs.
  split_and!; [done|apply decode_encode_loop|apply encode_loop_length|apply encode_loop_no_NUL].
Qed.

Lemma base64_roundtrip_witness : exists t, encode true "dmtcp" = Some t /\ t = "ZG10Y3A." /\ decode t = Some "dmtcp".
Proof.
  destruct (base64_roundtrip true "dmtcp") as (t & H1 & H2 & _); [reflexivity|]. exists t. split_and!; [done| |done].
  revert H1. vm_compute. by intros [= <-].
Defined.
