(* ===== verification/PeerDiscovery.v ===== *)
(** * Finding the peers of sockets after a restart (src/plugin/socket/connectionrewirer.cpp)

    After a restart a process that accepted a connection listens on a restore socket and publishes
    its address in the key-value service under the identifier of the connection
    ([registerIncoming], [registerNSData]); after a barrier the process that had connected looks it up
    ([registerOutgoing], [sendQueries]) and connects again.

    The addresses travel through [Base64] and the requests through the client and the service of
    [Lookup].  The connecting and accepting itself ([doReconnect]) is system calls and is not modelled. *)

From Stdlib Require Import ZArith Lia Ascii.
From stdpp Require Import base gmap strings numbers list.
From S2P Require Import Prelude CText Identity Message Lookup Base64 ConnList.
Import Convert Kvdb.
Open Scope Z_scope.

Definition PeerDiscoveryDbRestart : string := "/plugin/socket/rst".
Definition AF_UNIX : Z := 1.
Definition AF_INET : Z := 2.
Definition AF_INET6 : Z := 10.
Definition SOCK_SEQPACKET : Z := 5.
Definition sizeof_sockaddr_storage : nat := 128.

(** A connection object: its pointer, and [baseType()]. *)
Record Con : Type := mk_Con { c_ptr : nat; c_baseType : Z }.
Definition ConnectionListT : Type := gmap ConKey (ConnectionIdentifier * Con).

(** The address of a restore socket is the first [len] bytes of the struct; none before the
    socket was opened. *)
Record Rewirer : Type := mk_Rewirer {
  rw_ip4Addr : string; rw_ip6Addr : string; rw_udsAddr : string; rw_udsSeqAddr : string;
  rw_ip4In : ConnectionListT; rw_ip6In : ConnectionListT; rw_udsIn : ConnectionListT; rw_udsSeqIn : ConnectionListT;
  rw_out : ConnectionListT;
  rw_remoteInfo : gmap ConKey string }.
#[export] Instance eta_Rewirer : Settable Rewirer :=
  {| eta_of r := mk_Rewirer (rw_ip4Addr r) (rw_ip6Addr r) (rw_udsAddr r) (rw_udsSeqAddr r)
                   (rw_ip4In r) (rw_ip6In r) (rw_udsIn r) (rw_udsSeqIn r) (rw_out r) (rw_remoteInfo r) |}.

(** [new ConnectionRewirer()]. *)
Definition Rewirer_new : Rewirer :=
  mk_Rewirer EmptyString EmptyString EmptyString EmptyString ∅ ∅ ∅ ∅ ∅ ∅.

(** [openRestoreSocket]: the system gives the opened sockets their addresses. *)
Definition openRestoreSocket (ip4 ip6 uds udsSeq : string) (hasIPv4Sock hasIPv6Sock hasUNIXSock : bool) : M Rewirer unit :=
  whenM hasIPv4Sock (modify (fun r => r <| rw_ip4Addr := ip4 |>));;
  whenM hasIPv6Sock (modify (fun r => r <| rw_ip6Addr := ip6 |>));;
  whenM hasUNIXSock (modify (fun r => r <| rw_udsAddr := uds |> <| rw_udsSeqAddr := udsSeq |>)).

(** [registerIncoming]; ENABLE_IP6_SUPPORT is not defined. *)
Definition registerIncoming (local : ConnectionIdentifier) (con : Con) (domain : Z) : M Rewirer unit :=
  assertM ((domain =? AF_INET) || (domain =? AF_INET6) || (domain =? AF_UNIX)) "Unsupported domain";;
  let entry := <[ckey local := (local, con)]> : ConnectionListT -> ConnectionListT in
  if domain =? AF_INET then modify (fun r => r <| rw_ip4In ::= entry |>)
  else if domain =? AF_INET6 then modify (fun r => r <| rw_ip4In ::= entry |>)
  else if domain =? AF_UNIX then
    if c_baseType con =? SOCK_SEQPACKET then modify (fun r => r <| rw_udsSeqIn ::= entry |>)
    else modify (fun r => r <| rw_udsIn ::= entry |>)
  else faultM (AssertFailed "Unsupported incoming connection domain").

Definition registerOutgoing (remote : ConnectionIdentifier) (con : Con) : M Rewirer unit :=
  modify (fun r => r <| rw_out ::= <[ckey remote := (remote, con)]> |>).

Section name_service.
Context (e : MsgEnv) (iter : ConnectionListT -> list (ConKey * (ConnectionIdentifier * Con))).

(** The body of the loop of [registerNSData(addr, addrLen, conList)]: the answer of the service is
    not looked at. *)
Definition publish (id : ConnectionIdentifier) (addr : string) : M LookupService.t unit :=
  addrStr ← optM (Blocked "base64::encode") (encode true addr);
  kvset e PeerDiscoveryDbRestart (ci_str id) addrStr;;
  mret tt.

Definition registerNSList (addr : string) (conList : ConnectionListT) : M LookupService.t unit :=
  forM (iter conList) (fun x => publish (fst (snd x)) addr).

Definition registerNSData (r : Rewirer) : M LookupService.t unit :=
  registerNSList (rw_ip4Addr r) (rw_ip4In r);;
  registerNSList (rw_ip6Addr r) (rw_ip6In r);;
  registerNSList (rw_udsAddr r) (rw_udsIn r);;
  registerNSList (rw_udsSeqAddr r) (rw_udsSeqIn r).

(** One turn of the loop of [sendQueries]. *)
Definition query (id : ConnectionIdentifier) : M LookupService.t string :=
  r ← kvget e PeerDiscoveryDbRestart (ci_str id);
  assertM (bool_decide (fst r = KVDB_SUCCESS)) "failed to get peer discovery data";;
  valBinary ← optM (AssertFailed "Input is not valid base64-encoded data.") (decode (default EmptyString (snd r)));
  assertM (Nat.ltb 0 (String.length valBinary)) "empty peer discovery address";;
  assertM (Nat.leb (String.length valBinary) sizeof_sockaddr_storage) "peer discovery address is too large";;
  mret valBinary.

Definition sendQueries : M (Rewirer * LookupService.t) unit :=
  r ← gets fst;
  forM (iter (rw_out r)) (fun x =>
    remote ← zoom snd (fun svc s => (fst s, svc)) (query (fst (snd x)));
    modify (fun s => ((fst s) <| rw_remoteInfo ::= <[fst x := remote]> |>, snd s))).

(** ** Lemmas *)

(** What a process publishes, in order. *)
Definition ns_calls (r : Rewirer) : list (ConnectionIdentifier * string) :=
  let with_addr addr l := (fun x : ConKey * (ConnectionIdentifier * Con) => (fst (snd x), addr)) <$> iter l in
  with_addr (rw_ip4Addr r) (rw_ip4In r) ++ with_addr (rw_ip6Addr r) (rw_ip6In r) ++
  with_addr (rw_udsAddr r) (rw_udsIn r) ++ with_addr (rw_udsSeqAddr r) (rw_udsSeqIn r).
Definition publish_all (cs : list (ConnectionIdentifier * string)) : M LookupService.t unit :=
  forM cs (fun c => publish (fst c) (snd c)).
End name_service.

Lemma forM_app {S A} (l l' : list A) (f : A -> M S unit) s : forM (l ++ l') f s = (forM l f;; forM l' f) s.
Proof.
  revert s. induction l as [|x l IH]; intros s; [done|]. change ((x :: l) ++ l') with (x :: (l ++ l')). cbn [forM]. unfold mbind at 1 2 3, M_bind at 1 2 3.
  destruct (f x s); [|done..]. by rewrite IH.
Qed.

Lemma forM_fmap {S A B} (g : A -> B) (l : list A) (f : B -> M S unit) s : forM (g <$> l) f s = forM l (fun x => f (g x)) s.
Proof. revert s. induction l as [|x l IH]; intros s; [done|]. cbn. unfold mbind, M_bind. by destruct (f (g x) s). Qed.

Lemma bind_ext {S A B} (m m' : M S A) (k k' : A -> M S B) s : m s = m' s -> (forall a s', k a s' = k' a s') -> (m ≫= k) s = (m' ≫= k') s.
Proof. intros Hm Hk. unfold mbind, M_bind. rewrite Hm. by destruct (m' s). Qed.

Lemma registerNSData_calls e iter r svc : registerNSData e iter r svc = publish_all e (ns_calls iter r) svc.
Proof.
  unfold registerNSData, publish_all, ns_calls, registerNSList. rewrite forM_app.
  apply bind_ext; [by rewrite forM_fmap|]. intros _ s1. rewrite forM_app.
  apply bind_ext; [by rewrite forM_fmap|]. intros _ s2. rewrite forM_app.
  apply bind_ext; [by rewrite forM_fmap|]. intros _ s3. by rewrite forM_fmap.
Qed.

(** *** The text of an identifier *)

Definition id_ok (id : ConnectionIdentifier) : Prop :=
  0 <= up_hostid (ci_upid id) < 2 ^ 64 /\ in_int64 (up_pid (ci_upid id)) = true /\ 0 <= up_time (ci_upid id) < 2 ^ 64 /\
  in_int64 (ci_id id) = true.

Lemma scan_paren base t acc : scan_digits base ("(" +:+ t) acc true = (acc, true, "(" +:+ t).
Proof. cbn. unfold digit_in. done. Qed.
Lemma scan_close base acc : scan_digits base ")" acc true = (acc, true, ")").
Proof. cbn. unfold digit_in. done. Qed.

Lemma ci_str_inj a b : id_ok a -> id_ok b -> ci_str a = ci_str b -> ckey a = ckey b.
Proof.
  intros (Ha & _ & Hta & _) (Hb & _ & Htb & _) E. unfold ci_str in E.
  apply hex_prefix_inj in E as [Hh E]; [|lia|lia|intros; by apply scan_dash..]. injection E as E.
  apply dec_prefix_inj in E as [Hp E]; [|intros; by apply scan_dash..]. injection E as E.
  apply hex_prefix_inj in E as [Ht E]; [|lia|lia|intros; by apply scan_paren..]. injection E as E.
  apply dec_prefix_inj in E as [Hc _]; [|intros; by apply scan_close..]. unfold ckey. congruence.
Qed.

Lemma ci_str_key a b : ckey a = ckey b -> ci_str a = ci_str b.
Proof. unfold ckey, ci_str. intros [= -> -> -> ->]. done. Qed.

Lemma no_NUL_app a b : no_NUL (a +:+ b) = no_NUL a && no_NUL b.
Proof. induction a as [|c a IH]; [done|]. rewrite str_app_cons. cbn. by rewrite IH, andb_assoc. Qed.

Lemma hex_str_no_NUL n : 0 <= n -> no_NUL (hex_str n) = true.
Proof.
  intros Hn. assert (Hs : forall t acc seen v b, scan_digits 16 t acc seen = (v, b, EmptyString) -> no_NUL t = true).
  { induction t as [|c t IH]; intros acc seen v b; [done|]. cbn [scan_digits no_NUL]. destruct (digit_in 16 c) as [d|] eqn:Hd; [|done].
    intros H. rewrite (IH _ _ _ _ H), andb_true_r. apply negb_true_iff. destruct (Ascii.eqb_spec c NUL) as [->|]; [|done]. by vm_compute in Hd. }
  eapply Hs, scan_digits_digits; lia.
Qed.

Lemma hex_str_length n : 0 <= n < 2 ^ 64 -> (String.length (hex_str n) <= 64)%nat.
Proof.
  intros Hn. unfold hex_str, digits. pose proof (digits_go_length (Z.to_nat (Z.log2 n)) 16 n EmptyString) as H. cbn [String.length] in H.
  assert (Z.log2 n <= 63) by (etransitivity; [apply (Z.log2_le_mono _ (2 ^ 64 - 1)); lia|by vm_compute]). lia.
Qed.

Lemma ci_str_args id addrStr : id_ok id -> no_NUL addrStr = true -> (String.length addrStr <= 4096)%nat ->
  kv_args_ok PeerDiscoveryDbRestart (ci_str id) addrStr.
Proof.
  intros (Hh & Hp & Ht & Hc) Hn Hl.
  assert (Hnul : no_NUL (ci_str id) = true).
  { unfold ci_str. rewrite !no_NUL_app, !hex_str_no_NUL, !XToString_no_NUL by lia. done. }
  assert (Hlen : (String.length (ci_str id) <= 300)%nat).
  { unfold ci_str. rewrite !str_app_length. pose proof (hex_str_length _ Hh). pose proof (hex_str_length _ Ht).
    pose proof (XToString_length _ Hp). pose proof (XToString_length _ Hc). cbn [String.length]. lia. }
  assert (Hne : ci_str id <> EmptyString).
  { unfold ci_str. destruct (hex_str _); [|discriminate]. cbn. discriminate. }
  unfold kv_args_ok. split_and!; try done; [cbn; lia|]. unfold DMTCP_MAX_MESSAGE_EXTRA_BYTES. lia.
Qed.

(** *** One publication, one query *)

Definition call_ok (c : ConnectionIdentifier * string) : Prop :=
  id_ok (fst c) /\ (0 < String.length (snd c) <= sizeof_sockaddr_storage)%nat.

Definition DB := PeerDiscoveryDbRestart.

Lemma encoded c : call_ok c -> exists t, encode true (snd c) = Some t /\ decode t = Some (snd c) /\ no_NUL t = true /\
  (0 < String.length t <= 4096)%nat.
Proof.
  intros [_ Hl]. unfold sizeof_sockaddr_storage in Hl. exists (encode_loop true (snd c)). unfold encode, decode.
  assert (Z.of_nat (String.length (snd c)) <? 2 ^ 32 = true) as -> by (apply Z.ltb_lt; lia).
  rewrite decode_encode_loop, encode_loop_no_NUL, encode_loop_length. split_and!; [done..| |].
  - assert (1 <= (String.length (snd c) + 2) / 3)%nat by (apply Nat.div_le_lower_bound; lia). lia.
  - assert ((String.length (snd c) + 2) / 3 <= 1000)%nat by (apply Nat.Div0.div_le_upper_bound; lia). lia.
Qed.

Lemma publish_ok e c svc : call_ok c -> kv_wf svc -> exists t svc', decode t = Some (snd c) /\ publish e (fst c) (snd c) svc = Ok tt svc' /\ kv_wf svc' /\
  svc' = LookupService.set svc DB (ci_str (fst c)) t.
Proof.
  intros Hc Hwf. destruct (encoded c Hc) as (t & He & Hd & Hn & Hl). exists t, (LookupService.set svc DB (ci_str (fst c)) t).
  assert (Hargs : kv_args_ok DB (ci_str (fst c)) t) by (apply ci_str_args; [apply Hc|done|lia]).
  assert (Hne : t <> EmptyString) by (intros ->; cbn in Hl; lia).
  assert (Hspec : kv_call_spec svc KVDB_SET DB (ci_str (fst c)) t =
    Some ((KVDB_SUCCESS, Some (default "0" (kv_lookup svc DB (ci_str (fst c))))), LookupService.set svc DB (ci_str (fst c)) t)).
  { unfold kv_call_spec. rewrite bool_decide_false by done. by destruct (kv_lookup svc DB (ci_str (fst c))). }
  pose proof (call_spec e DB (ci_str (fst c)) t Hargs KVDB_SET svc Hwf (or_intror Hne)) as Hcall. rewrite Hspec in Hcall.
  split_and!; [done| |by eapply kv_call_wf; [exact Hargs|exact Hwf|exact Hspec]|done].
  unfold publish. rewrite He. cbn [optM]. erewrite (bind_ok (mret t)) by reflexivity. unfold kvset. by rewrite (bind_ok _ _ _ _ _ Hcall).
Qed.

Lemma query_ok e id addr t svc : id_ok id -> (0 < String.length addr <= sizeof_sockaddr_storage)%nat -> kv_wf svc ->
  kv_lookup svc DB (ci_str id) = Some t -> decode t = Some addr -> query e id svc = Ok addr svc.
Proof.
  intros Hid Hl Hwf Hk Hd. assert (Hargs : kv_args_ok DB (ci_str id) EmptyString) by (apply ci_str_args; [done|done|cbn; lia]).
  pose proof (call_spec e DB (ci_str id) EmptyString Hargs KVDB_GET svc Hwf (or_introl eq_refl)) as Hcall.
  unfold kv_call_spec in Hcall. rewrite bool_decide_true in Hcall by done. unfold kv_get_spec in Hcall. rewrite Hk in Hcall.
  destruct (svc !! DB) eqn:Hdb; [|unfold kv_lookup in Hk; by rewrite Hdb in Hk].
  unfold query, kvget. rewrite (bind_ok _ _ _ _ _ Hcall). cbn [fst snd]. rewrite bool_decide_true by done.
  cbn [assertM]. erewrite (bind_ok (mret tt)) by reflexivity. change (decode _) with (decode t). rewrite Hd. cbn [optM].
  erewrite (bind_ok (mret addr)) by reflexivity. destruct (Nat.ltb_spec 0 (String.length addr)); [|lia].
  destruct (Nat.leb_spec (String.length addr) sizeof_sockaddr_storage); [done|lia].
Qed.

Lemma query_missing e id svc : id_ok id -> kv_wf svc -> kv_lookup svc DB (ci_str id) = None ->
  query e id svc = Fault (AssertFailed "failed to get peer discovery data") svc.
Proof.
  intros Hid Hwf Hk. assert (Hargs : kv_args_ok DB (ci_str id) EmptyString) by (apply ci_str_args; [done|done|cbn; lia]).
  pose proof (call_spec e DB (ci_str id) EmptyString Hargs KVDB_GET svc Hwf (or_introl eq_refl)) as Hcall.
  unfold kv_call_spec in Hcall. rewrite bool_decide_true in Hcall by done. unfold kv_get_spec in Hcall. rewrite Hk in Hcall.
  unfold query, kvget. by destruct (svc !! DB); rewrite (bind_ok _ _ _ _ _ Hcall).
Qed.

(** Publications under different identifiers do not disturb each other. *)
Lemma publish_all_ok e cs : Forall call_ok cs -> NoDup ((fun c => ckey (fst c)) <$> cs) -> forall svc, kv_wf svc ->
  exists svc', publish_all e cs svc = Ok tt svc' /\ kv_wf svc' /\
  (forall c, c ∈ cs -> exists t, kv_lookup svc' DB (ci_str (fst c)) = Some t /\ decode t = Some (snd c)) /\
  (forall k, (forall c, c ∈ cs -> ci_str (fst c) <> k) -> kv_lookup svc' DB k = kv_lookup svc DB k).
Proof.
  induction 1 as [|c cs Hc Hcs IH]; intros Hnd svc Hwf.
  - exists svc. split_and!; [done..| |done]. intros c Hin. by apply elem_of_nil in Hin.
  - cbn in Hnd. apply NoDup_cons in Hnd as [Hni Hnd]. destruct (publish_ok e c svc Hc Hwf) as (t & svc1 & Hd & Hp & Hwf1 & ->).
    destruct (IH Hnd _ Hwf1) as (svc' & Hr & Hwf' & Hall & Hkeep). exists svc'.
    assert (Hother : forall c', c' ∈ cs -> ci_str (fst c') <> ci_str (fst c)).
    { intros c' Hin E. apply Hni. apply list_elem_of_fmap. exists c'. split; [|done]. symmetry.
      rewrite Forall_forall in Hcs. apply ci_str_inj; [apply (Hcs c' Hin)|apply Hc|done]. }
    split_and!; [|done| |].
    + unfold publish_all in *. cbn [forM]. by rewrite (bind_ok _ _ _ _ _ Hp).
    + intros c' Hin. apply elem_of_cons in Hin as [->|Hin]; [|by apply Hall]. exists t. split; [|done].
      rewrite (Hkeep _ Hother). apply kv_lookup_set_same.
    + intros k Hk. rewrite Hkeep by (intros c' Hin; apply Hk; by apply list_elem_of_further).
      apply kv_lookup_set_other. intros [= E]. apply (Hk c); [apply list_elem_of_here|done].
Qed.

(** *** All queries of a process *)

Definition published (svc : LookupService.t) (id : ConnectionIdentifier) : string :=
  default EmptyString (t ← kv_lookup svc DB (ci_str id); decode t).

Definition add_remotes (svc : LookupService.t) (l : list (ConKey * (ConnectionIdentifier * Con))) (m : gmap ConKey string) : gmap ConKey string :=
  foldl (fun m x => <[fst x := published svc (fst (snd x))]> m) m l.

Lemma add_remotes_lookup svc l m k id con : NoDup (fst <$> l) -> (k, (id, con)) ∈ l -> add_remotes svc l m !! k = Some (published svc id).
Proof.
  assert (Hno : forall l m, k ∉ fst <$> l -> add_remotes svc l m !! k = m !! k).
  { clear. induction l as [|x l IH]; intros m Hk; [done|]. cbn in Hk |- *. apply not_elem_of_cons in Hk as [H1 H2].
    unfold add_remotes in *. cbn. rewrite IH by done. by rewrite lookup_insert_ne. }
  revert m. induction l as [|x l IH]; intros m Hnd Hin; [by apply elem_of_nil in Hin|]. cbn in Hnd. apply NoDup_cons in Hnd as [Hx Hnd].
  unfold add_remotes in *. cbn. apply elem_of_cons in Hin as [<-|Hin]; [|by apply IH]. cbn in Hx |- *.
  rewrite Hno by done. by rewrite lookup_insert_eq.
Qed.

Definition iter_ok (iter : ConnectionListT -> list (ConKey * (ConnectionIdentifier * Con))) : Prop := forall m, iter m ≡ₚ map_to_list m.
Definition out_wf (r : Rewirer) : Prop := forall k id con, rw_out r !! k = Some (id, con) -> k = ckey id /\ id_ok id.

Section queries.
Context (e : MsgEnv) (iter : ConnectionListT -> list (ConKey * (ConnectionIdentifier * Con))) (Hiter : iter_ok iter) (svc : LookupService.t).

Lemma queries_run l : (forall x, x ∈ l -> query e (fst (snd x)) svc = Ok (published svc (fst (snd x))) svc) -> forall r,
  forM l (fun x => remote ← zoom snd (fun svc (s : Rewirer * LookupService.t) => (fst s, svc)) (query e (fst (snd x)));
    modify (fun s => ((fst s) <| rw_remoteInfo ::= <[fst x := remote]> |>, snd s))) (r, svc) =
  Ok tt (r <| rw_remoteInfo ::= add_remotes svc l |>, svc).
Proof.
  induction l as [|x l IH]; intros Hq r.
  - cbn. do 2 f_equal. by destruct r.
  - cbn [forM]. erewrite (bind_ok (_ ≫= _)).
    2:{ erewrite bind_ok; [|apply (zoom_ok snd _ _ (r, svc)); apply Hq, list_elem_of_here]. reflexivity. }
    cbv beta. rewrite IH by (intros y Hy; apply Hq; by apply list_elem_of_further). do 2 f_equal.
Qed.

Lemma sendQueries_run r : (forall k id con, rw_out r !! k = Some (id, con) -> query e id svc = Ok (published svc id) svc) ->
  sendQueries e iter (r, svc) = Ok tt (r <| rw_remoteInfo ::= add_remotes svc (iter (rw_out r)) |>, svc).
Proof.
  intros Hq. unfold sendQueries. erewrite (bind_ok (gets fst)) by reflexivity. cbn [fst]. apply queries_run.
  intros [k [id con]] Hin. rewrite (Hiter (rw_out r)) in Hin. apply elem_of_map_to_list in Hin. by eapply Hq.
Qed.

Lemma iter_nodup m : NoDup (fst <$> iter m).
Proof. rewrite (Hiter m). apply NoDup_fst_map_to_list. Qed.
End queries.

(** After a restart the processes of the computation publish the addresses of their restore sockets, each in the order of
    its tables and interleaved in any way; after the barrier every process whose outgoing connections have a peer that published
    runs its queries without a failed assertion, leaves the service as it is, and ends up with exactly the address that the peer
    of each connection published. *)
Theorem peers_find_each_other e iter ps cs svc :
  iter_ok iter -> kv_wf svc -> cs ≡ₚ mjoin (ns_calls iter <$> ps) -> Forall call_ok cs -> NoDup ((fun c => ckey (fst c)) <$> cs) ->
  (forall r s, registerNSData e iter r s = publish_all e (ns_calls iter r) s) /\
  exists svc', publish_all e cs svc = Ok tt svc' /\
  forall r, out_wf r -> (forall k id con, rw_out r !! k = Some (id, con) -> exists c, c ∈ cs /\ ckey (fst c) = k) ->
  exists r', sendQueries e iter (r, svc') = Ok tt (r', svc') /\
    (forall id addr, (id, addr) ∈ cs -> is_Some (rw_out r !! ckey id) -> rw_remoteInfo r' !! ckey id = Some addr).
Proof.
  intros Hiter Hwf _ Hok Hnd. split; [intros; apply registerNSData_calls|].
  destruct (publish_all_ok e cs Hok Hnd svc Hwf) as (svc' & Hrun & Hwf' & Hall & _). exists svc'. split; [done|]. intros r Hr Hout.
  assert (Hpub : forall c id, c ∈ cs -> ckey (fst c) = ckey id -> id_ok id ->
    query e id svc' = Ok (snd c) svc' /\ published svc' id = snd c).
  { intros c id Hin Hk Hid. destruct (Hall c Hin) as (t & Hl & Hd). rewrite (ci_str_key _ _ Hk) in Hl. rewrite Forall_forall in Hok.
    split; [apply (query_ok e id (snd c) t); try done; apply (Hok c Hin)|]. unfold published. rewrite Hl. cbn. by rewrite Hd. }
  eexists. split; [apply sendQueries_run; [done|]|].
  - intros k id con Hk. destruct (Hr k id con Hk) as [-> Hid]. destruct (Hout _ _ _ Hk) as (c & Hin & Hck).
    destruct (Hpub c id Hin Hck Hid) as [Hq ->]. exact Hq.
  - intros id addr Hin [[id' con] Hk]. rsimpl. destruct (Hr _ _ _ Hk) as [Hkk Hid'].
    rewrite (add_remotes_lookup svc' _ _ _ id' con); [|by apply iter_nodup|rewrite (Hiter (rw_out r)); by apply elem_of_map_to_list].
    by destruct (Hpub (id, addr) id' Hin Hkk Hid') as [_ ->].
Qed.

Lemma list_of_one k x : map_to_list ({[ k := x ]} : ConnectionListT) = [(k, x)].
Proof. apply map_to_list_singleton. Qed.
Lemma list_of_none : map_to_list (∅ : ConnectionListT) = [].
Proof. apply map_to_list_empty. Qed.

(** *** Two processes *)

Definition example_id (pid con : Z) : ConnectionIdentifier := mk_ConnectionIdentifier (mk_UniquePid 7 pid 99 1) con.
Lemma example_id_ok : id_ok (example_id 40000 99001).
Proof. unfold id_ok, example_id. cbn [ci_upid ci_id up_hostid up_pid up_time]. split_and!; lia || reflexivity. Qed.
Definition server : Rewirer :=
  mk_Rewirer "addr4-of-server" EmptyString EmptyString EmptyString
    {[ ckey (example_id 40000 99001) := (example_id 40000 99001, mk_Con 1 1) ]} ∅ ∅ ∅ ∅ ∅.
Definition client : Rewirer :=
  Rewirer_new <| rw_out := {[ ckey (example_id 40000 99001) := (example_id 40000 99001, mk_Con 1 1) ]} |>.
Definition example_iter : ConnectionListT -> list (ConKey * (ConnectionIdentifier * Con)) := map_to_list.

Lemma peers_find_each_other_witness : exists svc' r',
  publish_all example_env (ns_calls example_iter server) ∅ = Ok tt svc' /\ sendQueries example_env example_iter (client, svc') = Ok tt (r', svc') /\
  rw_remoteInfo r' !! ckey (example_id 40000 99001) = Some "addr4-of-server".
Proof.
  assert (Hcalls : ns_calls example_iter server = [(example_id 40000 99001, "addr4-of-server")])
    by (unfold ns_calls, example_iter, server; cbn [rw_ip4Addr rw_ip6Addr rw_udsAddr rw_udsSeqAddr rw_ip4In rw_ip6In rw_udsIn rw_udsSeqIn];
        by rewrite list_of_one, list_of_none).
  destruct (peers_find_each_other example_env example_iter [server] (ns_calls example_iter server) ∅) as (_ & svc' & Hrun & Hq).
  - intros m. apply Permutation_refl.
  - intros id key v H. unfold kv_lookup in H. by rewrite lookup_empty in H.
  - cbn. by rewrite app_nil_r.
  - rewrite Hcalls. constructor; [|constructor]. split; [exact example_id_ok|]. split; apply Nat.leb_le; reflexivity.
  - rewrite Hcalls. apply NoDup_singleton.
  - destruct (Hq client) as (r' & Hs & Hr).
    + intros k id con Hk. unfold client in Hk. rsimpl in Hk. apply lookup_singleton_Some in Hk as [<- [= <- <-]]. split; [done|exact example_id_ok].
    + intros k id con Hk. unfold client in Hk. rsimpl in Hk. apply lookup_singleton_Some in Hk as [<- _].
      rewrite Hcalls. eexists. split; [apply list_elem_of_here|done].
    + exists svc', r'. split_and!; [done..|]. apply Hr; [rewrite Hcalls; apply list_elem_of_here|].
      unfold client. rsimpl. exists (example_id 40000 99001, mk_Con 1 1). apply lookup_singleton_eq.
Defined.

(** A process with IPv6 connections and no IPv4 socket opens the IPv6 restore socket only, but [registerIncoming] files its
    connections under IPv4: it publishes an empty address, which the service refuses without the process noticing, and
    the query of the peer fails its assertion.  Such a computation cannot be restarted. *)
Theorem ipv6_only_restart_fails e iter ip4 ip6 uds udsSeq id con svc peer :
  iter_ok iter -> kv_wf svc -> id_ok id -> kv_lookup svc DB (ci_str id) = None -> rw_out peer = {[ ckey id := (id, con) ]} ->
  exists r, (openRestoreSocket ip4 ip6 uds udsSeq false true false;; registerIncoming id con AF_INET6) Rewirer_new = Ok tt r /\
    registerNSData e iter r svc = Ok tt svc /\
    exists s, sendQueries e iter (peer, svc) = Fault (AssertFailed "failed to get peer discovery data") s.
Proof.
  intros Hiter Hwf Hid Hno Hpeer. exists (mk_Rewirer EmptyString ip6 EmptyString EmptyString {[ ckey id := (id, con) ]} ∅ ∅ ∅ ∅ ∅).
  assert (Hone : iter {[ckey id := (id, con)]} = [(ckey id, (id, con))]) by (apply Permutation_singleton_r; by rewrite (Hiter _), list_of_one).
  split; [reflexivity|]. split.
  - assert (Hnone : iter ∅ = []) by (apply Permutation_nil_r; by rewrite (Hiter ∅), list_of_none).
    rewrite registerNSData_calls. unfold ns_calls. cbn [rw_ip4Addr rw_ip6Addr rw_udsAddr rw_udsSeqAddr rw_ip4In rw_ip6In rw_udsIn rw_udsSeqIn].
    rewrite Hone, Hnone. cbn [fmap list_fmap app fst snd]. unfold publish_all, publish, kvset, call, request. cbn [forM fst snd].
    by destruct (String.eqb (ci_str id) EmptyString).
  - unfold sendQueries. erewrite (bind_ok (gets fst)) by reflexivity. cbn [fst]. rewrite Hpeer.
    rewrite Hone.
    eexists. cbn [forM fst snd]. unfold mbind at 1, M_bind at 1, mbind at 1, M_bind at 1, zoom at 1. cbn [fst snd].
    by rewrite (query_missing e id svc Hid Hwf Hno).
Qed.

Lemma ipv6_only_restart_fails_witness : exists s,
  sendQueries example_env example_iter (client, ∅) = Fault (AssertFailed "failed to get peer discovery data") s.
Proof.
  destruct (ipv6_only_restart_fails example_env example_iter EmptyString "addr6" EmptyString EmptyString (example_id 40000 99001) (mk_Con 1 1) ∅ client)
    as (r & _ & _ & Hf).
  - intros m. apply Permutation_refl.
  - intros id key v H. unfold kv_lookup in H. by rewrite lookup_empty in H.
  - exact example_id_ok.
  - unfold kv_lookup. by rewrite lookup_empty.
  - unfold client. by rsimpl.
  - exact Hf.
Defined.
