(* ===== verification/SocketDrain.v ===== *)
(** * Bytes in flight on sockets (src/plugin/socket/kernelbufferdrainer.cpp, connectionmessage.h, socketconnection.cpp)

    At a checkpoint the bytes that are under way between two sockets are in the kernel.  Each end writes a cookie behind
    everything it has sent and reads until it has seen the cookie of its peer ([KernelBufferDrainer], run by
    [JMultiSocketProgram::monitorSockets]); then, behind a barrier of the processes of one host, the ends exchange handshakes.  To go on, each end sends what it has drained to
    its peer, which echoes it ([refillAllSockets]): so the bytes are in the kernel again.

    Sockets are ends, numbered; every end has a peer and belongs to a process, which handles its ends one after
    the other.  A step moves a byte (or ends a call); a stream holds what was written and not yet read, up to a capacity, behind
    which writes block.  Before an end takes part in the phases below [hasLock] has chosen the process that handles it. *)

From Stdlib Require Import ZArith Lia Ascii String.
From stdpp Require Import base gmap strings numbers functions relations list.
From S2P Require Import Prelude CText Identity Serialize PidFiles ConnList ConnSerial.
Open Scope Z_scope.

Abbreviation bytes := (list ascii).
Definition chars (s : string) : bytes := list_ascii_of_string s.
Definition text (l : bytes) : string := string_of_list_ascii l.

(** ** [ConnMsg] *)

Inductive MsgType : Type := INVALID | HANDSHAKE | DRAIN | REFILL.
Definition type_val (t : MsgType) : Z := match t with INVALID => -1 | HANDSHAKE => 0 | DRAIN => 1 | REFILL => 2 end.

(** [sign] and [padding] are all bytes of the arrays. *)
Record ConnMsg : Type := mk_ConnMsg {
  cm_from : ConnectionIdentifier; cm_coordId : ConnectionIdentifier; cm_sign : string;
  cm_type : Z; cm_size : Z; cm_extraBytes : Z; cm_padding : string }.
#[export] Instance eta_ConnMsg : Settable ConnMsg :=
  {| eta_of m := mk_ConnMsg (cm_from m) (cm_coordId m) (cm_sign m) (cm_type m) (cm_size m) (cm_extraBytes m) (cm_padding m) |}.

Definition HANDSHAKE_SIGNATURE_MSG : string := "DMTCP_SOCK_HANDSHAKE_V0" +:+ String "010" "".
Definition CONNMSG_SIZE : nat := 112.

(** What the constructor leaves uninitialised: the rest of [sign] and [padding]. *)
Record Garbage : Type := mk_Garbage { g_sign : string; g_padding : string }.

Definition ConnMsg_new (g : Garbage) (null : ConnectionIdentifier) (t : MsgType) : ConnMsg :=
  mk_ConnMsg null null (str_resize 32 (HANDSHAKE_SIGNATURE_MSG +:+ String NUL (g_sign g))) (type_val t) (Z.of_nat CONNMSG_SIZE) 0
    (str_resize 4 (g_padding g)).

(** [assertValid]: [strcmp] stops at the first zero byte. *)
Definition cm_assertValid (t : MsgType) (m : ConnMsg) : bool :=
  bool_decide (c_str (cm_sign m) = Some HANDSHAKE_SIGNATURE_MSG) && (cm_size m =? Z.of_nat CONNMSG_SIZE) && (cm_type m =? type_val t).

(** The bytes of the struct. *)
Definition cm_raw (m : ConnMsg) : string :=
  ci_raw (cm_from m) +:+ ci_raw (cm_coordId m) +:+ cm_sign m +:+ le_bytes 4 (cm_type m) +:+ le_bytes 4 (cm_size m) +:+ le_bytes 4 (cm_extraBytes m) +:+ cm_padding m.
Definition cm_of_raw (b : string) : ConnMsg :=
  let int n := wrap_s 32 (le_val (str_take 4 (str_drop n b))) in
  mk_ConnMsg (ci_of_raw (str_take 32 b)) (ci_of_raw (str_take 32 (str_drop 32 b))) (str_take 32 (str_drop 64 b)) (int 96%nat) (int 100%nat) (int 104%nat) (str_drop 108 b).

(** ** The network *)

(** The processes and their hosts, the ends of every process in the order of the loops, the process and the peer of every end, how many bytes fit between two
    ends, the connection identifiers, the identifier of the coordinator, and the uninitialised bytes of messages. *)
Record Topology : Type := mk_Topology {
  t_procs : list nat; t_host : nat -> nat; t_ends : nat -> list nat; t_owner : nat -> nat; t_peer : nat -> nat; t_capacity : nat -> nat;
  t_id : nat -> ConnectionIdentifier; t_coord : ConnectionIdentifier; t_null : ConnectionIdentifier; t_garbage : nat -> Garbage }.

Definition all_ends (T : Topology) : list nat := p ← t_procs T; t_ends T p.

(** ** Draining *)

Definition theMagicDrainCookie : bytes := chars ("[dmtcp{v0<DRAIN!" +:+ String NUL "").
Definition CHUNK_SIZE : nat := 512.

(** What the drainer keeps for an end: what is left of the cookie to write, [_drainedData], whether the socket is poisoned. *)
Record Drainer : Type := mk_Drainer { dr_cookie : bytes; dr_data : bytes; dr_done : bool }.
#[export] Instance eta_Drainer : Settable Drainer := {| eta_of d := mk_Drainer (dr_cookie d) (dr_data d) (dr_done d) |}.

(** The bytes that can be read at each end, and the drainers. *)
Record DState : Type := mk_DState { d_in : nat -> bytes; d_of : nat -> Drainer }.

Definition beginDrainOf : Drainer := mk_Drainer theMagicDrainCookie [] false.
Definition onData (chunk : bytes) (d : Drainer) : Drainer := d <| dr_data ::= fun b => b ++ chunk |>.

Definition ends_with (b suffix : bytes) : bool := bool_decide (length suffix <= length b)%nat && bool_decide (drop (length b - length suffix) b = suffix).

(** The body of the loop of [onTimeoutInterval]. *)
Definition onTimeoutInterval (d : Drainer) : Drainer :=
  if ends_with (dr_data d) theMagicDrainCookie
  then d <| dr_data ::= fun b => take (length b - length theMagicDrainCookie) b |> <| dr_done := true |> else d.

(** An event of [monitorSockets] at an end: it can be written, it can be read ([readOnce] gets [n] bytes), the timeout. *)
Inductive devent : Type := DWrite | DRead (n : nat) | DTick.

Definition dstep (T : Topology) (e : nat) (ev : devent) (s : DState) : option DState :=
  let d := d_of s e in
  match ev with
  | DWrite =>
      match dr_cookie d with
      | b :: c =>
          if (length (d_in s (t_peer T e)) <? t_capacity T (t_peer T e))%nat
          then Some (mk_DState (<[t_peer T e := d_in s (t_peer T e) ++ [b]]> (d_in s)) (<[e := d <| dr_cookie := c |>]> (d_of s))) else None
      | [] => None
      end
  | DRead n =>
      if negb (dr_done d) && (0 <? n)%nat && (n <=? CHUNK_SIZE)%nat && (n <=? length (d_in s e))%nat
      then Some (mk_DState (<[e := drop n (d_in s e)]> (d_in s)) (<[e := onData (take n (d_in s e)) d]> (d_of s))) else None
  | DTick => if negb (dr_done d) && ends_with (dr_data d) theMagicDrainCookie then Some (mk_DState (d_in s) (<[e := onTimeoutInterval d]> (d_of s))) else None
  end.
Definition dsteps (T : Topology) (s s' : DState) : Prop := exists e ev, e ∈ all_ends T /\ dstep T e ev s = Some s'.

Definition drain_start (x : nat -> bytes) : DState := mk_DState x (fun _ => beginDrainOf).

(** [monitorSockets] returns when no socket is left to read or write.  Behind it is dmtcp_local_barrier("Socket::Drain"), which
    waits for the processes of the same host only. *)
Definition drained (T : Topology) (s : DState) (p : nat) : Prop := forall e, e ∈ t_ends T p -> dr_done (d_of s e) = true /\ dr_cookie (d_of s e) = [].
Definition barrier_open (T : Topology) (s : DState) (p : nat) : Prop := forall q, q ∈ t_procs T -> t_host T q = t_host T p -> drained T s q.

(** ** Handshakes and refilling *)

(** What a process has still to do on its sockets: write some bytes, read a message, read the bytes behind it and echo them. *)
Inductive job : Type := JSend (e : nat) (b : bytes) | JHead (e : nat) (got : bytes) | JBody (e : nat) (n : nat) (got : bytes).

Record Net : Type := mk_Net { n_in : nat -> bytes; n_jobs : nat -> list job; n_remote : nat -> ConnectionIdentifier }.

(** [recvHandshake] and the second loop of [refillAllSockets], with the message: the number of bytes that follow; [None] when an assertion fails. *)
Definition recvHandshake (T : Topology) (e : nat) (m : ConnMsg) (remote : nat -> ConnectionIdentifier) : option (Z * (nat -> ConnectionIdentifier)) :=
  if cm_assertValid HANDSHAKE m && ci_eqb (cm_coordId m) (t_coord T) then
    if ci_isNull (remote e) then if ci_isNull (cm_from m) then None else Some (0, <[e := cm_from m]> remote)
    else if ci_eqb (remote e) (cm_from m) then Some (0, remote) else None
  else None.
Definition recvRefill (m : ConnMsg) (remote : nat -> ConnectionIdentifier) : option (Z * (nat -> ConnectionIdentifier)) :=
  if cm_assertValid REFILL m then Some (cm_extraBytes m, remote) else None.
Definition receive (T : Topology) (t : MsgType) (e : nat) (m : ConnMsg) (remote : nat -> ConnectionIdentifier) : option (Z * (nat -> ConnectionIdentifier)) :=
  match t with HANDSHAKE => recvHandshake T e m remote | REFILL => recvRefill m remote | _ => None end.

Definition set_jobs (p : nat) (js : list job) (s : Net) : Net := mk_Net (n_in s) (<[p := js]> (n_jobs s)) (n_remote s).

(** One step of process [p]; [None] when it waits or an assertion fails. *)
Definition xstep (T : Topology) (t : MsgType) (p : nat) (s : Net) : option Net :=
  match n_jobs s p with
  | [] => None
  | JSend e [] :: js => Some (set_jobs p js s)
  | JSend e (b :: bs) :: js =>
      if (length (n_in s (t_peer T e)) <? t_capacity T (t_peer T e))%nat
      then Some (mk_Net (<[t_peer T e := n_in s (t_peer T e) ++ [b]]> (n_in s)) (<[p := JSend e bs :: js]> (n_jobs s)) (n_remote s)) else None
  | JHead e got :: js =>
      if (length got =? CONNMSG_SIZE)%nat then
        '(size, remote) ← receive T t e (cm_of_raw (text got)) (n_remote s);
        Some (mk_Net (n_in s) (<[p := if 0 <? size then JBody e (Z.to_nat size) [] :: js else js]> (n_jobs s)) remote)
      else match n_in s e with
      | b :: i => Some (mk_Net (<[e := i]> (n_in s)) (<[p := JHead e (got ++ [b]) :: js]> (n_jobs s)) (n_remote s))
      | [] => None
      end
  | JBody e n got :: js =>
      if (length got =? n)%nat then Some (set_jobs p (JSend e got :: js) s)
      else match n_in s e with
      | b :: i => Some (mk_Net (<[e := i]> (n_in s)) (<[p := JBody e n (got ++ [b]) :: js]> (n_jobs s)) (n_remote s))
      | [] => None
      end
  end.
Definition xsteps (T : Topology) (t : MsgType) (s s' : Net) : Prop := exists p, p ∈ t_procs T /\ xstep T t p s = Some s'.

(** The messages. *)
Definition handshake_msg (T : Topology) (e : nat) : ConnMsg :=
  (ConnMsg_new (t_garbage T e) (t_null T) HANDSHAKE) <| cm_from := t_id T e |> <| cm_coordId := t_coord T |>.
Definition refill_msg (T : Topology) (d : nat -> bytes) (e : nat) : ConnMsg :=
  (ConnMsg_new (t_garbage T e) (t_null T) REFILL) <| cm_extraBytes := Z.of_nat (length (d e)) |>.

(** First all sends, then all receives: [SocketConnList::preCkpt] and [refillAllSockets].  A process begins [preCkpt] when its
    [barrier_open]: with all processes on one host, when everything is drained. *)
Definition start (T : Topology) (msg : nat -> ConnMsg) (d : nat -> bytes) (i : nat -> bytes) (remote : nat -> ConnectionIdentifier) : Net :=
  mk_Net i (fun p => ((fun e => JSend e (chars (cm_raw (msg e)) ++ d e)) <$> t_ends T p) ++ ((fun e => JHead e []) <$> t_ends T p)) remote.
Definition preCkpt (T : Topology) : (nat -> bytes) -> (nat -> ConnectionIdentifier) -> Net := start T (handshake_msg T) (fun _ => []).
Definition refillAllSockets (T : Topology) (d : nat -> bytes) : (nat -> bytes) -> (nat -> ConnectionIdentifier) -> Net := start T (refill_msg T d) d.

(** ** Processes of several hosts

    Here a process may be behind its barrier, and send its handshakes, while a process of another host still drains: [h_hand] is what an end has still to
    send of its handshake. *)
Record HState : Type := mk_HState { h_drain : DState; h_hand : nat -> bytes }.
Definition hosts_start (T : Topology) (x : nat -> bytes) : HState := mk_HState (drain_start x) (fun e => chars (cm_raw (handshake_msg T e))).

Inductive hstep (T : Topology) (s : HState) : HState -> Prop :=
| hstep_drain d : dsteps T (h_drain s) d -> hstep T s (mk_HState d (h_hand s))
| hstep_hand p e b r : p ∈ t_procs T -> e ∈ t_ends T p -> barrier_open T (h_drain s) p -> h_hand s e = b :: r ->
    (length (d_in (h_drain s) (t_peer T e)) < t_capacity T (t_peer T e))%nat ->
    hstep T s (mk_HState (mk_DState (<[t_peer T e := d_in (h_drain s) (t_peer T e) ++ [b]]> (d_in (h_drain s))) (d_of (h_drain s))) (<[e := r]> (h_hand s))).

(** ** SOCK_SEQPACKET *)

(** A socket that keeps the boundaries of messages: what one side writes is one message, a read takes one. *)
Definition frames_out (g : Garbage) (null : ConnectionIdentifier) (frames : list bytes) : list bytes :=
  chars (cm_raw ((ConnMsg_new g null REFILL) <| cm_extraBytes := Z.of_nat (length frames) |>))
  :: (f ← frames; chars (le_bytes 4 (Z.of_nat (length f))) :: (if (0 <? length f)%nat then [f] else [])).

(** [readAll]: messages until there are [n] bytes; what does not fit is lost. *)
Fixpoint read_frames (q : list bytes) (n : nat) : option (bytes * list bytes) :=
  match n, q with
  | O, _ => Some ([], q)
  | _, [] => None
  | _, f :: q => if (n <=? length f)%nat then Some (take n f, q) else '(b, q) ← read_frames q (n - length f)%nat; Some (f ++ b, q)
  end.

(** The loop that reads the frames of the peer and echoes them: what it writes, and what is left to read. *)
Fixpoint echo_frames (count : nat) (q : list bytes) : option (list bytes * list bytes) :=
  match count with
  | O => Some ([], q)
  | S count =>
      '(len, q) ← read_frames q 4;
      let n := Z.to_nat (le_val (text len)) in
      '(out, q) ← (if (0 <? n)%nat then '(tmp, q) ← read_frames q n; Some ([len; tmp], q) else Some ([len], q));
      '(rest, q) ← echo_frames count q;
      Some (out ++ rest, q)
  end.
Definition echo_side (q : list bytes) : option (list bytes * list bytes) :=
  '(h, q) ← read_frames q CONNMSG_SIZE;
  let m := cm_of_raw (text h) in
  if cm_assertValid REFILL m then echo_frames (Z.to_nat (cm_extraBytes m)) q else None.
