(* ===== verification/SocketFlow.v ===== *)
(** * The bytes in flight survive: proofs about SocketDrain *)

From Stdlib Require Import ZArith Lia Ascii String.
From stdpp Require Import base gmap strings numbers functions relations list.
From S2P Require Import Prelude CText Identity Serialize PidFiles ConnList ConnSerial SocketDrain.
Open Scope Z_scope.

(** ** Runs *)

(** Every run is bounded and ends in a state that satisfies [Q]. *)
Definition ends_in {S} (R : S -> S -> Prop) (s : S) (Q : S -> Prop) : Prop :=
  (exists n, forall k s', nsteps R k s s' -> (k <= n)%nat) /\ forall s', rtc R s s' -> (forall s'', ~ R s' s'') -> Q s'.

Lemma ends_in_inv {S} (R : S -> S -> Prop) (I : S -> Prop) (m : S -> nat) (Q : S -> Prop) s : I s ->
  (forall s s', I s -> R s s' -> I s' /\ (m s' < m s)%nat) -> (forall s, I s -> (forall s', ~ R s s') -> Q s) -> ends_in R s Q.
Proof.
  intros Hs Hstep Hend.
  assert (Hrun : forall k s s', nsteps R k s s' -> I s -> I s' /\ (k + m s' <= m s)%nat).
  { intros k. induction k as [|k IH]; intros a b Hn Ha; inversion Hn as [|? ? y ? Hy Hrest]; subst; [by split|].
    destruct (Hstep a y Ha Hy) as [Hy' Hm]. destruct (IH y b Hrest Hy') as [Hb Hle]. split; [done|lia]. }
  split; [exists (m s); intros k s' Hk; destruct (Hrun k s s' Hk Hs); lia|].
  intros s' [k Hk]%rtc_nsteps_1 Hst. apply Hend; [|done]. by destruct (Hrun k s s' Hk Hs).
Qed.

Lemma rtc_keeps {S} (R : S -> S -> Prop) (I : S -> Prop) s s' : (forall a b, I a -> R a b -> I b) -> rtc R s s' -> I s -> I s'.
Proof. intros H. induction 1; eauto. Qed.

(** ** The topology *)

Record topo_ok (T : Topology) : Prop := {
  to_procs : NoDup (t_procs T);
  to_ends : forall p, p ∈ t_procs T -> NoDup (t_ends T p);
  to_owner : forall p e, p ∈ t_procs T -> e ∈ t_ends T p -> t_owner T e = p;
  to_peer : forall e, e ∈ all_ends T -> t_peer T e ∈ all_ends T /\ t_peer T (t_peer T e) = e /\ t_peer T e <> e;
  to_room : forall e, e ∈ all_ends T -> (0 < t_capacity T e)%nat }.

Section topology.
Context (T : Topology).
Hypothesis HT : topo_ok T.

Lemma all_ends_owner e : e ∈ all_ends T <-> t_owner T e ∈ t_procs T /\ e ∈ t_ends T (t_owner T e).
Proof.
  unfold all_ends. rewrite list_elem_of_bind. split.
  - intros (p & He & Hp). rewrite (to_owner T HT p e Hp He). done.
  - intros [Hp He]. eauto.
Qed.

Lemma all_ends_nodup : NoDup (all_ends T).
Proof.
  unfold all_ends. pose proof (to_procs T HT) as Hnd.
  assert (H : forall l, (forall p, p ∈ l -> p ∈ t_procs T) -> NoDup l -> NoDup (p ← l; t_ends T p)); [|by apply H].
  induction l as [|p l IH]; intros Hl Hn; [constructor|]. apply NoDup_cons in Hn as [Hp Hn]. cbn. apply NoDup_app. split_and!.
  - apply (to_ends T HT), Hl. left.
  - intros e He (q & Hq & Hql)%list_elem_of_bind. assert (Hpp : p ∈ t_procs T) by (apply Hl; left). assert (Hqq : q ∈ t_procs T) by (apply Hl; by right).
    rewrite <- (to_owner T HT p e Hpp He), (to_owner T HT q e Hqq Hq) in Hp. done.
  - apply IH; [|done]. intros q Hq. apply Hl. by right.
Qed.

Lemma peer_ne e e' : e ∈ all_ends T -> e' ∈ all_ends T -> e' <> t_peer T e -> t_peer T e' <> e.
Proof. intros He He' Hne H. apply Hne. destruct (to_peer T HT e' He') as (_ & E & _). by rewrite <- E, H. Qed.
End topology.

(** ** Draining *)

(** The cookie is seen behind the bytes only. *)
Definition cookie_free (x : bytes) : Prop := forall k, (k < length (x ++ theMagicDrainCookie))%nat -> ends_with (take k (x ++ theMagicDrainCookie)) theMagicDrainCookie = false.

Lemma ends_with_spec b s : ends_with b s = true <-> exists a, b = a ++ s.
Proof.
  unfold ends_with. rewrite andb_true_iff, !bool_decide_eq_true. split.
  - intros [Hl E]. exists (take (length b - length s) b). by rewrite <- E at 2; rewrite take_drop.
  - intros (a & ->). rewrite length_app. split; [lia|]. replace (length a + length s - length s)%nat with (length a) by lia. apply drop_app_length.
Qed.

(** Bytes among which the cookie does not occur are free of it: its last byte is its only zero. *)
Lemma no_cookie_free x : (forall a b, x <> a ++ theMagicDrainCookie ++ b) -> cookie_free x.
Proof.
  intros Hx k Hk. apply not_true_iff_false. intros (a & Ha)%ends_with_spec. rewrite length_app in Hk. change (length theMagicDrainCookie) with 17%nat in Hk.
  assert (Hl : length a = (k - 17)%nat /\ (17 <= k)%nat).
  { apply (f_equal length) in Ha. rewrite length_take, !length_app in Ha. change (length theMagicDrainCookie) with 17%nat in Ha. lia. }
  destruct (decide (k <= length x)%nat) as [Hkx|Hkx].
  - rewrite take_app_le in Ha by done. apply (Hx a (drop k x)). rewrite app_assoc, <- Ha. symmetry. apply take_drop.
  - assert (E : (a ++ theMagicDrainCookie) !! (k - 1)%nat = Some NUL).
    { rewrite lookup_app_r by lia. replace (k - 1 - length a)%nat with 16%nat by lia. reflexivity. }
    rewrite <- Ha, lookup_take_lt, lookup_app_r in E by lia. set (j := (k - 1 - length x)%nat) in *. assert (Hj : (j < 16)%nat) by lia. clearbody j. clear -E Hj.
    do 16 (destruct j as [|j]; [by vm_compute in E|]). lia.
Qed.

Section drain.
Context (T : Topology) (x : nat -> bytes).
Hypothesis HT : topo_ok T.
Hypothesis Hx : forall e, e ∈ all_ends T -> cookie_free (x e).

Record DInv (s : DState) : Prop := {
  di_stream : forall e, e ∈ all_ends T -> dr_done (d_of s e) = false ->
    dr_data (d_of s e) ++ d_in s e ++ dr_cookie (d_of s (t_peer T e)) = x e ++ theMagicDrainCookie;
  di_done : forall e, e ∈ all_ends T -> dr_done (d_of s e) = true ->
    dr_data (d_of s e) = x e /\ d_in s e = [] /\ dr_cookie (d_of s (t_peer T e)) = [] }.

Definition dweight (d : Drainer) : nat := (2 * length (dr_cookie d) + Nat.b2n (negb (dr_done d)))%nat.
Definition dwork (s : DState) : nat :=
  (sum_list_with (fun e => length (d_in s e)) (all_ends T) + sum_list_with (fun e => dweight (d_of s e)) (all_ends T))%nat.

Lemma sum_fn {A} (w : A -> nat) (f : nat -> A) e a : e ∈ all_ends T ->
  (sum_list_with (fun y => w (<[e := a]> f y)) (all_ends T) + w (f e) = sum_list_with (fun y => w (f y)) (all_ends T) + w a)%nat.
Proof.
  intros He. pose proof (sum_change (fun y => w (f y)) (fun y => w (<[e := a]> f y)) (all_ends T) e (all_ends_nodup T HT) He) as H.
  cbn beta in H. rewrite fn_lookup_insert in H. apply H. intros y _ Hy. by rewrite fn_lookup_insert_ne.
Qed.

(** When the cookie is seen it is behind all bytes. *)
Lemma drained_all (y rest : bytes) e : e ∈ all_ends T -> y ++ rest = x e ++ theMagicDrainCookie -> ends_with y theMagicDrainCookie = true ->
  take (length y - length theMagicDrainCookie) y = x e /\ rest = [].
Proof.
  intros He E Hy. assert (Hr : rest = []).
  { destruct rest as [|b rest]; [done|]. assert (Hk : (length y < length (x e ++ theMagicDrainCookie))%nat) by (rewrite <- E, length_app; cbn; lia).
    pose proof (Hx e He (length y) Hk) as H. rewrite <- E, take_app_length in H. congruence. }
  split; [|done]. rewrite Hr, app_nil_r in E. rewrite E, length_app, Nat.add_sub. apply take_app_length.
Qed.

(** What the event writes is behind what was written before. *)
Lemma dstep_inv s s' : DInv s -> dsteps T s s' -> DInv s'.
Proof.
  intros [I1 I2] (e & ev & He & Hs). destruct (to_peer T HT e He) as (Hp & Epp & Hne). unfold dstep in Hs. destruct ev as [|n|].
  - destruct (dr_cookie (d_of s e)) as [|b c] eqn:Ec; [done|]. destruct (_ <? _)%nat; [|done]. injection Hs as <-. split; cbn [d_in d_of]; intros a Ha Hd.
    + destruct (decide (a = t_peer T e)) as [->|Hae].
      * rewrite fn_lookup_insert, Epp, fn_lookup_insert, fn_lookup_insert_ne in * by done. cbn.
        rewrite <- (I1 (t_peer T e)), Epp, Ec by done. by rewrite <- !app_assoc.
      * rewrite (fn_lookup_insert_ne (d_in s)) by done. rewrite (fn_lookup_insert_ne (d_of s) e (t_peer T a)) by (symmetry; by apply (peer_ne T HT)).
        rewrite <- (I1 a Ha); [|by destruct (decide (a = e)) as [->|]; [rewrite fn_lookup_insert in Hd|rewrite fn_lookup_insert_ne in Hd]].
        destruct (decide (a = e)) as [->|]; [by rewrite fn_lookup_insert|by rewrite fn_lookup_insert_ne].
    + destruct (decide (a = t_peer T e)) as [->|Hae].
      * rewrite fn_lookup_insert_ne in Hd by done. destruct (I2 _ Hp Hd) as (_ & _ & E). by rewrite Epp, Ec in E.
      * rewrite (fn_lookup_insert_ne (d_in s)) by done. rewrite (fn_lookup_insert_ne (d_of s) e (t_peer T a)) by (symmetry; by apply (peer_ne T HT)).
        destruct (decide (a = e)) as [->|]; [rewrite fn_lookup_insert in *|rewrite fn_lookup_insert_ne in * by done]; by apply I2.
  - destruct (negb _ && _ && _ && _) eqn:Hc; [|done]. injection Hs as <-. assert (Hnd : dr_done (d_of s e) = false) by (by destruct (dr_done (d_of s e))).
    assert (Ek : forall a, dr_cookie (<[e := onData (take n (d_in s e)) (d_of s e)]> (d_of s) a) = dr_cookie (d_of s a))
      by (intros a; destruct (decide (a = e)) as [->|]; [by rewrite fn_lookup_insert|by rewrite fn_lookup_insert_ne]).
    split; cbn [d_in d_of]; intros a Ha Hd; rewrite Ek; (destruct (decide (a = e)) as [->|Hae]; [rewrite fn_lookup_insert in *|rewrite !fn_lookup_insert_ne in * by done; auto]).
    + rewrite fn_lookup_insert, <- (I1 e He Hnd). change (dr_data (onData ?c ?d)) with (dr_data d ++ c). by rewrite <- app_assoc, (app_assoc (take _ _)), take_drop.
    + change (dr_done (d_of s e) = true) in Hd. congruence.
  - destruct (negb _ && _) eqn:Hc; [|done]. injection Hs as <-. apply andb_true_iff in Hc as [Hnd%negb_true_iff Hc].
    assert (Ek : forall a, dr_cookie (<[e := onTimeoutInterval (d_of s e)]> (d_of s) a) = dr_cookie (d_of s a))
      by (intros a; destruct (decide (a = e)) as [->|]; [rewrite fn_lookup_insert; unfold onTimeoutInterval; by rewrite Hc|by rewrite fn_lookup_insert_ne]).
    split; cbn [d_in d_of]; intros a Ha Hd; rewrite Ek; (destruct (decide (a = e)) as [->|Hae]; [rewrite fn_lookup_insert in *|rewrite !fn_lookup_insert_ne in * by done; auto]);
      unfold onTimeoutInterval in *; rewrite Hc in *; [done|]. cbn. apply (drained_all _ _ e He (I1 e He Hnd)) in Hc as [Ht [-> ->]%app_nil]. split; [exact Ht|done].
Qed.

Lemma dstep_work s s' : dsteps T s s' -> (dwork s' < dwork s)%nat.
Proof.
  intros (e & ev & He & Hs). destruct (to_peer T HT e He) as (Hp & Epp & Hne). unfold dstep in Hs. unfold dwork. destruct ev as [|n|].
  - destruct (dr_cookie (d_of s e)) as [|b c] eqn:Ec; [done|]. destruct (_ <? _)%nat; [|done]. injection Hs as <-. cbn [d_in d_of].
    pose proof (sum_fn (fun l : bytes => length l) (d_in s) (t_peer T e) (d_in s (t_peer T e) ++ [b]) Hp) as H1.
    pose proof (sum_fn dweight (d_of s) e ((d_of s e) <| dr_cookie := c |>) He) as H2. rewrite length_app in H1. cbn [length] in H1.
    assert (dweight (d_of s e) = 2 + dweight ((d_of s e) <| dr_cookie := c |>))%nat by
      (change (dweight ((d_of s e) <| dr_cookie := c |>)) with (2 * length c + Nat.b2n (negb (dr_done (d_of s e))))%nat; unfold dweight; rewrite Ec; cbn [length]; lia). lia.
  - destruct (negb _ && _ && _ && _) eqn:Hc; [|done]. injection Hs as <-. cbn [d_in d_of].
    pose proof (sum_fn (fun l : bytes => length l) (d_in s) e (drop n (d_in s e)) He) as H1.
    pose proof (sum_fn dweight (d_of s) e (onData (take n (d_in s e)) (d_of s e)) He) as H2. rewrite length_drop in H1.
    rewrite !andb_true_iff, Nat.ltb_lt, !Nat.leb_le in Hc. change (dweight (onData ?c ?d)) with (dweight d) in H2. lia.
  - destruct (negb _ && _) eqn:Hc; [|done]. injection Hs as <-. cbn [d_in d_of]. apply andb_true_iff in Hc as [Hnd%negb_true_iff Hc].
    pose proof (sum_fn dweight (d_of s) e (onTimeoutInterval (d_of s e)) He) as H2.
    assert (dweight (d_of s e) = 1 + dweight (onTimeoutInterval (d_of s e)))%nat by
      (unfold onTimeoutInterval; rewrite Hc; unfold dweight at 1; rewrite Hnd; change (Nat.b2n (negb false)) with 1%nat; rewrite Nat.add_comm; f_equal; symmetry; by apply Nat.add_0_r). lia.
Qed.

(** While an end is not done something can be written or read, or the cookie is there. *)
Lemma drain_stuck s : DInv s -> (forall s', ~ dsteps T s s') -> forall e, e ∈ all_ends T -> dr_data (d_of s e) = x e /\ d_in s e = [].
Proof.
  intros [I1 I2] Hst e He. destruct (dr_done (d_of s e)) eqn:Hd; [by destruct (I2 e He Hd) as (? & ? & ?)|]. exfalso.
  destruct (to_peer T HT e He) as (Hp & Epp & Hne). pose proof (I1 e He Hd) as E. destruct (d_in s e) as [|b i] eqn:Ei.
  - destruct (dr_cookie (d_of s (t_peer T e))) as [|b c] eqn:Ec.
    + eapply Hst. exists e, DTick. split; [done|]. cbn. rewrite Hd. rewrite app_nil_r in E.
      replace (ends_with (dr_data (d_of s e)) theMagicDrainCookie) with true; [reflexivity|]. symmetry. apply ends_with_spec. eauto.
    + eapply Hst. exists (t_peer T e), DWrite. split; [done|]. cbn. rewrite Ec, Epp, Ei. pose proof (to_room T HT e He). destruct (t_capacity T e); [lia|]. reflexivity.
  - eapply Hst. exists e, (DRead 1). split; [done|]. cbn. rewrite Hd, Ei. reflexivity.
Qed.

(** Behind the barrier of one host everything is drained. *)
Lemma drained_behind_barrier s p : (forall p q, p ∈ t_procs T -> q ∈ t_procs T -> t_host T p = t_host T q) -> rtc (dsteps T) (drain_start x) s ->
  p ∈ t_procs T -> barrier_open T s p -> forall e, e ∈ all_ends T -> dr_data (d_of s e) = x e /\ d_in s e = [].
Proof.
  intros H1 Hs Hp Hb e He. assert (HI : DInv s).
  { refine (rtc_keeps _ _ _ _ dstep_inv Hs _). split; intros a Ha; cbn; [done|discriminate]. }
  pose proof (proj1 (all_ends_owner T HT e) He) as [Ho Hoe].
  destruct (Hb _ Ho (H1 _ _ Ho Hp) e Hoe) as [Hd _]. by destruct (di_done s HI e He Hd) as (? & ? & _).
Qed.

Lemma drain_ends : ends_in (dsteps T) (drain_start x) (fun s => forall e, e ∈ all_ends T -> dr_data (d_of s e) = x e /\ d_in s e = []).
Proof.
  apply (ends_in_inv _ DInv dwork); [|intros s s' Hs Hss'; split; [by eapply dstep_inv|by eapply dstep_work]|exact drain_stuck].
  split; intros e He; cbn; [done|discriminate].
Qed.
End drain.

(** ** Messages *)

Definition cm_ok (m : ConnMsg) : Prop :=
  ci_ok (cm_from m) /\ ci_ok (cm_coordId m) /\ String.length (cm_sign m) = 32%nat /\ in_sint 4 (cm_type m) /\ in_sint 4 (cm_size m) /\ in_sint 4 (cm_extraBytes m) /\
  String.length (cm_padding m) = 4%nat.

Lemma cm_raw_length m : String.length (cm_sign m) = 32%nat -> String.length (cm_padding m) = 4%nat -> String.length (cm_raw m) = CONNMSG_SIZE.
Proof. intros H1 H2. unfold cm_raw. by rewrite !str_app_length, !ci_raw_length, !le_bytes_length, H1, H2. Qed.

Lemma cm_of_raw_raw m : cm_ok m -> cm_of_raw (cm_raw m) = m.
Proof.
  destruct m as [f c g t z x p]. intros (Hf & Hc & Hg & Ht & Hz & Hx & Hp). cbn [cm_from cm_coordId cm_sign cm_type cm_size cm_extraBytes cm_padding] in *.
  unfold cm_of_raw, cm_raw. cbn [cm_from cm_coordId cm_sign cm_type cm_size cm_extraBytes cm_padding].
  set (k := le_bytes 4 t +:+ _).
  assert (D1 : forall k, str_drop 32 (ci_raw f +:+ k) = k) by (intros k0; rewrite <- (ci_raw_length f); apply str_drop_app).
  assert (D2 : forall k, str_drop 64 (ci_raw f +:+ ci_raw c +:+ k) = k)
    by (intros k0; change 64%nat with (32 + 32)%nat; rewrite <- str_drop_drop, D1, <- (ci_raw_length c); apply str_drop_app).
  assert (D3 : forall k, str_drop 96 (ci_raw f +:+ ci_raw c +:+ g +:+ k) = k)
    by (intros k0; change 96%nat with (64 + 32)%nat; rewrite <- str_drop_drop, D2, <- Hg; apply str_drop_app).
  assert (I : forall v, in_sint 4 v -> wrap_s 32 (le_val (le_bytes 4 v)) = v)
    by (intros v Hv; rewrite le_val_bytes; change (8 * Z.of_nat 4) with 32; apply wrap_s_mod; [lia|apply Hv]).
  assert (D4 : forall a v b k, str_drop a b = le_bytes 4 v +:+ k -> str_drop (a + 4) b = k) by (intros a v b k0 E; by rewrite <- str_drop_drop, E, drop_le).
  rewrite D1, D2, D3. pose proof (D3 k) as E3. subst k. pose proof (D4 _ _ _ _ E3) as E4. pose proof (D4 _ _ _ _ E4) as E5. pose proof (D4 _ _ _ _ E5) as E6.
  cbn [Nat.add] in E4, E5, E6. rewrite E4, E5, E6, !take_le, !I by done.
  f_equal; [|rewrite <- (ci_raw_length c), str_take_app; by apply ci_of_raw_raw|rewrite <- Hg; apply str_take_app].
  rewrite <- (ci_raw_length f), str_take_app. by apply ci_of_raw_raw.
Qed.

Lemma text_chars s : text (chars s) = s.
Proof. apply string_of_list_ascii_of_string. Qed.
Lemma chars_length s : length (chars s) = String.length s.
Proof. induction s as [|c s IH]; [done|]. cbn. by f_equal. Qed.

(** ** Exchanges *)

Section exchange.
Context (T : Topology) (t : MsgType) (msg : nat -> ConnMsg) (d : nat -> bytes) (r0 learned : nat -> ConnectionIdentifier).
Hypothesis HT : topo_ok T.

Abbreviation h e := (chars (cm_raw (msg e))).
Abbreviation peer := (t_peer T).

(** Everything that is written to end [e]. *)
Definition stream (e : nat) : bytes := h (peer e) ++ d (peer e) ++ d e.

Hypothesis Hh : forall e, e ∈ all_ends T -> length (h e) = CONNMSG_SIZE.
Hypothesis Hroom : forall e, e ∈ all_ends T -> (length (stream e) <= t_capacity T e)%nat.
Hypothesis Hrecv : forall e r, e ∈ all_ends T -> r e = r0 e ->
  exists r', receive T t e (cm_of_raw (text (h (peer e)))) r = Some (Z.of_nat (length (d (peer e))), r') /\ r' e = learned e /\ forall a, a <> e -> r' a = r a.

Definition job_end (j : job) : nat := match j with JSend e _ | JHead e _ | JBody e _ _ => e end.
Definition is_recv (j : job) : bool := match j with JSend _ _ => false | _ => true end.
Definition recvs (js : list job) : list nat := omap (fun j => if is_recv j then Some (job_end j) else None) js.
Definition heads (js : list job) : list nat := omap (fun j => match j with JHead e _ => Some e | _ => None end) js.
Fixpoint sends_first (js : list job) : bool := match js with JSend _ _ :: js => sends_first js | js => forallb is_recv js end.

(** What an end has read of its stream, and what it will still write to its peer. *)
Fixpoint consumed (e : nat) (js : list job) : bytes :=
  match js with
  | [] => h (peer e) ++ d (peer e)
  | JSend _ _ :: js => consumed e js
  | JHead a got :: js => if decide (a = e) then got else consumed e js
  | JBody a _ got :: js => if decide (a = e) then h (peer e) ++ got else consumed e js
  end.
Fixpoint out (e : nat) (js : list job) : bytes :=
  match js with
  | [] => []
  | JSend a b :: js => (if decide (a = e) then b else []) ++ out e js
  | JHead a _ :: js | JBody a _ _ :: js => (if decide (a = e) then d (peer e) else []) ++ out e js
  end.

Definition job_fits (j : job) : Prop :=
  match j with JSend _ _ => True | JHead _ got => (length got <= CONNMSG_SIZE)%nat | JBody e n got => n = length (d (peer e)) /\ (length got <= n)%nat end.

Record jobs_ok (p : nat) (js : list job) (r : nat -> ConnectionIdentifier) : Prop := {
  jo_ends : Forall (fun j => job_end j ∈ t_ends T p) js;
  jo_nodup : NoDup (recvs js);
  jo_order : sends_first js = true;
  jo_body : Forall job_fits js;
  jo_remote : forall e, e ∈ t_ends T p -> r e = if decide (e ∈ heads js) then r0 e else learned e }.

Definition consumed_at (s : Net) (e : nat) : bytes := consumed e (n_jobs s (t_owner T e)).
Definition out_at (s : Net) (e : nat) : bytes := out e (n_jobs s (t_owner T e)).

Record XInv (s : Net) : Prop := {
  xi_jobs : forall p, p ∈ t_procs T -> jobs_ok p (n_jobs s p) (n_remote s);
  xi_stream : forall e, e ∈ all_ends T -> consumed_at s e ++ n_in s e ++ out_at s (peer e) = stream e }.

Lemma consumed_none e js : e ∉ recvs js -> consumed e js = h (peer e) ++ d (peer e).
Proof.
  induction js as [|[a b|a got|a n got] js IH]; intros Hn; [done|..]; cbn in *; [by apply IH|..];
    unfold recvs in Hn; cbn in Hn; apply not_elem_of_cons in Hn as [Hne Hn]; (rewrite decide_False by done; by apply IH).
Qed.

Lemma heads_recvs e js : e ∈ heads js -> e ∈ recvs js.
Proof.
  unfold heads, recvs. rewrite !list_elem_of_omap. intros ([] & Hj & E); simplify_eq. by eexists.
Qed.

(** A step is the write of a byte, the read of a byte, or moves none. *)
Inductive moved (s s' : Net) : Prop :=
| mv_write e b : e ∈ all_ends T -> out_at s e = b :: out_at s' e -> n_in s' (peer e) = n_in s (peer e) ++ [b] ->
    (forall a, a ∈ all_ends T -> consumed_at s' a = consumed_at s a) -> (forall a, a ∈ all_ends T -> a <> e -> out_at s' a = out_at s a) ->
    (forall a, a <> peer e -> n_in s' a = n_in s a) -> moved s s'
| mv_read e b : e ∈ all_ends T -> consumed_at s' e = consumed_at s e ++ [b] -> n_in s e = b :: n_in s' e ->
    (forall a, a ∈ all_ends T -> a <> e -> consumed_at s' a = consumed_at s a) -> (forall a, a ∈ all_ends T -> out_at s' a = out_at s a) ->
    (forall a, a <> e -> n_in s' a = n_in s a) -> moved s s'
| mv_none : (forall a, a ∈ all_ends T -> consumed_at s' a = consumed_at s a) -> (forall a, a ∈ all_ends T -> out_at s' a = out_at s a) -> n_in s' = n_in s -> moved s s'.

Lemma moved_stream s s' : moved s s' -> (forall e, e ∈ all_ends T -> consumed_at s e ++ n_in s e ++ out_at s (peer e) = stream e) ->
  forall e, e ∈ all_ends T -> consumed_at s' e ++ n_in s' e ++ out_at s' (peer e) = stream e.
Proof.
  intros [e b He Eo Ei Hc Ho Hi|e b He Ec Ei Hc Ho Hi|Hc Ho Hi] I a Ha; rewrite <- (I a Ha); destruct (to_peer T HT a Ha) as (Hp & Epp & Hne).
  - rewrite (Hc a Ha). destruct (decide (a = peer e)) as [->|Hae].
    + destruct (to_peer T HT e He) as (_ & Ee & _). rewrite Ei, Ee, Eo, <- app_assoc. done.
    + rewrite Hi, (Ho (peer a)) by (try done; by apply (peer_ne T HT)). done.
  - rewrite (Ho _ Hp). destruct (decide (a = e)) as [->|Hae]; [rewrite Ec, Ei, <- app_assoc; done|]. by rewrite Hi, Hc.
  - by rewrite Hc, Ho, Hi.
Qed.

(** Only the lists of jobs of the process that steps change. *)
Lemma at_insert (f : nat -> list job -> bytes) (w : nat -> list job) p js a :
  f a ((<[p := js]> w : nat -> list job) (t_owner T a)) = if decide (t_owner T a = p) then f a js else f a (w (t_owner T a)).
Proof. destruct (decide (t_owner T a = p)) as [->|]; [by rewrite fn_lookup_insert|by rewrite fn_lookup_insert_ne]. Qed.

(** What has been read of the stream is a part of it: a message that has arrived is the one the peer sent. *)
Lemma head_complete s p e got js : XInv s -> p ∈ t_procs T -> n_jobs s p = JHead e got :: js -> e ∈ all_ends T -> t_owner T e = p ->
  length got = CONNMSG_SIZE -> got = h (peer e).
Proof.
  intros HI Hp Ej He Ho Hl. pose proof (xi_stream s HI e He) as E. unfold consumed_at in E. rewrite Ho, Ej in E. cbn in E. rewrite decide_True in E by done.
  apply (f_equal (take CONNMSG_SIZE)) in E. rewrite <- Hl, take_app_length, Hl in E. rewrite E. unfold stream.
  destruct (to_peer T HT e He) as (Hpe & _). rewrite <- (Hh (peer e) Hpe). apply take_app_length.
Qed.
Lemma body_complete s p e n got js : XInv s -> p ∈ t_procs T -> n_jobs s p = JBody e n got :: js -> e ∈ all_ends T -> t_owner T e = p ->
  length got = length (d (peer e)) -> got = d (peer e).
Proof.
  intros HI Hp Ej He Ho Hl. pose proof (xi_stream s HI e He) as E. unfold consumed_at in E. rewrite Ho, Ej in E. cbn in E. rewrite decide_True in E by done.
  unfold stream in E. rewrite <- app_assoc in E. apply app_inv_head in E. apply (f_equal (take (length got))) in E. rewrite take_app_length in E. rewrite E, Hl. apply take_app_length.
Qed.

(** The lists of jobs stay well formed. *)
Lemma recv_sends_first js : forallb is_recv js = true -> sends_first js = true.
Proof. destruct js as [|[] js]; cbn; done. Qed.

Lemma jobs_replace p j j' js r : jobs_ok p (j :: js) r -> job_end j' = job_end j -> is_recv j' = is_recv j -> heads [j'] = heads [j] ->
  job_fits j' -> jobs_ok p (j' :: js) r.
Proof.
  intros [H1 H2 H3 H4 H5] Ee Er Eh Eb. apply Forall_cons in H1 as [H1 H1']. apply Forall_cons in H4 as [H4 H4']. split.
  - apply Forall_cons. by rewrite Ee.
  - unfold recvs in *. cbn [omap list_omap] in *. by rewrite Er, Ee.
  - destruct j, j'; cbn in *; congruence.
  - by apply Forall_cons.
  - intros e He. rewrite (H5 e He). change (j' :: js) with ([j'] ++ js). change (j :: js) with ([j] ++ js). unfold heads in *. by rewrite !omap_app, Eh.
Qed.
Lemma jobs_sent p e b js r : jobs_ok p (JSend e b :: js) r -> jobs_ok p js r.
Proof. intros [H1 H2 H3 H4 H5]. apply Forall_cons in H1 as [H1 H1']. apply Forall_cons in H4 as [H4 H4']. by split. Qed.
Lemma jobs_echo p e n got b js r : jobs_ok p (JBody e n got :: js) r -> jobs_ok p (JSend e b :: js) r.
Proof.
  intros [H1 H2 H3 H4 H5]. apply Forall_cons in H1 as [H1 H1']. apply Forall_cons in H4 as [H4 H4']. split; try done.
  - by apply Forall_cons.
  - by apply NoDup_cons in H2 as [_ H2].
  - cbn in *. by apply recv_sends_first.
  - by apply Forall_cons.
Qed.
Lemma jobs_received p e got js r r' : jobs_ok p (JHead e got :: js) r -> r' e = learned e -> (forall a, a <> e -> r' a = r a) ->
  jobs_ok p js r' /\ jobs_ok p (JBody e (length (d (peer e))) [] :: js) r'.
Proof.
  intros [H1 H2 H3 H4 H5] He Ha. apply Forall_cons in H1 as [H1 H1']. apply Forall_cons in H4 as [H4 H4']. pose proof H2 as H2'. apply NoDup_cons in H2 as [Hn H2].
  cbn in Hn, H3.
  assert (R : forall a, a ∈ t_ends T p -> r' a = if decide (a ∈ heads js) then r0 a else learned a).
  { intros a Hap. destruct (decide (a = e)) as [->|Hae].
    - rewrite decide_False; [done|]. intros Hh'%heads_recvs. by apply Hn.
    - rewrite (Ha a Hae), (H5 a Hap). destruct (decide (a ∈ heads js)) as [H|H]; [rewrite decide_True by (by right); done|].
      rewrite decide_False; [done|]. by intros [->|?]%elem_of_cons. }
  split; split; try done; [by apply recv_sends_first|by apply Forall_cons|apply Forall_cons; cbn; split_and!; [done|lia|done]].
Qed.

Lemma jobs_others p js r' s : (forall q, q ∈ t_procs T -> jobs_ok q (n_jobs s q) (n_remote s)) -> jobs_ok p js r' -> (forall a, t_owner T a <> p -> r' a = n_remote s a) ->
  forall q, q ∈ t_procs T -> jobs_ok q ((<[p := js]> (n_jobs s) : nat -> list job) q) r'.
Proof.
  intros H Hp Hr q Hq. destruct (decide (q = p)) as [->|Hqp]; [by rewrite fn_lookup_insert|]. rewrite fn_lookup_insert_ne by done.
  destruct (H q Hq) as [H1 H2 H3 H4 H5]. split; try done. intros e He. rewrite Hr; [by apply H5|]. by rewrite (to_owner T HT q e Hq He).
Qed.

Definition jwork (j : job) : nat :=
  match j with
  | JSend _ b => 1 + length b
  | JHead e got => CONNMSG_SIZE - length got + 4 + 2 * length (d (peer e))
  | JBody _ n got => n - length got + 2 + n
  end%nat.
Definition xwork (s : Net) : nat := sum_list_with (fun p => sum_list_with jwork (n_jobs s p)) (t_procs T).

(** The effect of a step, without the invariant of the stream. *)
Definition steps_to (s s' : Net) (p : nat) : Prop :=
  (forall q, q ∈ t_procs T -> jobs_ok q (n_jobs s' q) (n_remote s')) /\ moved s s' /\
  (sum_list_with jwork (n_jobs s' p) < sum_list_with jwork (n_jobs s p))%nat /\ forall q, q <> p -> n_jobs s' q = n_jobs s q.

(** A step that replaces the first job of a process. *)
Lemma steps_to_intro s i r p j js js' : n_jobs s p = j :: js -> (forall q, q ∈ t_procs T -> jobs_ok q (n_jobs s q) (n_remote s)) -> jobs_ok p js' r ->
  (forall a, t_owner T a <> p -> r a = n_remote s a) -> (sum_list_with jwork js' < jwork j + sum_list_with jwork js)%nat ->
  moved s (mk_Net i (<[p := js']> (n_jobs s)) r) -> steps_to s (mk_Net i (<[p := js']> (n_jobs s)) r) p.
Proof.
  intros Ej HJ Hjs Hr Hw Hm. unfold steps_to. cbn [n_jobs n_remote n_in]. split_and!; [by apply jobs_others|done| |].
  - by rewrite fn_lookup_insert, Ej.
  - intros q Hq. by rewrite fn_lookup_insert_ne.
Qed.

(** The end of the first job. *)
Lemma first_job s p j js : XInv s -> p ∈ t_procs T -> n_jobs s p = j :: js ->
  job_end j ∈ all_ends T /\ t_owner T (job_end j) = p /\ peer (job_end j) ∈ all_ends T /\ jobs_ok p (j :: js) (n_remote s).
Proof.
  intros HI Hp Ej. pose proof (xi_jobs s HI p Hp) as Hj. rewrite Ej in Hj. pose proof (jo_ends _ _ _ Hj) as H. apply Forall_cons in H as [He _].
  pose proof (to_owner T HT p _ Hp He) as Ho. assert (Ha : job_end j ∈ all_ends T) by (apply (all_ends_owner T HT); rewrite Ho; done).
  split_and!; try done. by apply (to_peer T HT).
Qed.

(** Views of a state in which the first job of a process is another one. *)
Lemma views s p j js i r js' : n_jobs s p = j :: js ->
  (forall a, consumed_at (mk_Net i (<[p := js']> (n_jobs s)) r) a = if decide (t_owner T a = p) then consumed a js' else consumed_at s a) /\
  (forall a, out_at (mk_Net i (<[p := js']> (n_jobs s)) r) a = if decide (t_owner T a = p) then out a js' else out_at s a) /\
  (forall a, t_owner T a = p -> consumed_at s a = consumed a (j :: js) /\ out_at s a = out a (j :: js)).
Proof.
  intros Ej. unfold consumed_at, out_at. split_and!; intros a; [exact (at_insert consumed _ _ _ _)|exact (at_insert out _ _ _ _)|]. intros ->. by rewrite Ej.
Qed.

Lemma xstep_send s s' p e b js : XInv s -> p ∈ t_procs T -> n_jobs s p = JSend e b :: js -> xstep T t p s = Some s' -> steps_to s s' p.
Proof.
  intros HI Hp Ej Hs. destruct (first_job s p _ js HI Hp Ej) as (He & Ho & Hpe & Hj). cbn [job_end] in *. unfold xstep in Hs. rewrite Ej in Hs. destruct b as [|b bs].
  - injection Hs as <-. unfold set_jobs. destruct (views s p _ js (n_in s) (n_remote s) js Ej) as (V1 & V2 & V3).
    eapply steps_to_intro; [exact Ej|apply HI|by eapply jobs_sent|done|cbn; lia|].
    apply mv_none; [intros a Ha; rewrite V1; destruct (decide _) as [E|]; [|done]; by destruct (V3 a E) as [-> _]| |done].
    intros a Ha. rewrite V2. destruct (decide _) as [E|]; [|done]. destruct (V3 a E) as [_ ->]. cbn. by destruct (decide (e = a)).
  - destruct (_ <? _)%nat; [|done]. injection Hs as <-.
    destruct (views s p _ js (<[peer e := n_in s (peer e) ++ [b]]> (n_in s)) (n_remote s) (JSend e bs :: js) Ej) as (V1 & V2 & V3).
    eapply steps_to_intro; [exact Ej|apply HI|by eapply jobs_replace|done|cbn; lia|]. apply (mv_write _ _ e b); [done|..].
    + rewrite V2, decide_True by done. destruct (V3 e Ho) as [_ ->]. cbn. by rewrite !(decide_True (P := e = e)).
    + cbn. by rewrite fn_lookup_insert.
    + intros a Ha. rewrite V1. destruct (decide _) as [E|]; [|done]. by destruct (V3 a E) as [-> _].
    + intros a Ha Hae. rewrite V2. destruct (decide _) as [E|]; [|done]. destruct (V3 a E) as [_ ->]. cbn. by rewrite !(decide_False (P := e = a)).
    + intros a Ha. cbn. by rewrite fn_lookup_insert_ne.
Qed.

Lemma xstep_head s s' p e got js : XInv s -> p ∈ t_procs T -> n_jobs s p = JHead e got :: js -> xstep T t p s = Some s' -> steps_to s s' p.
Proof.
  intros HI Hp Ej Hs. destruct (first_job s p _ js HI Hp Ej) as (He & Ho & Hpe & Hj). cbn [job_end] in *. unfold xstep in Hs. rewrite Ej in Hs.
  destruct (length got =? CONNMSG_SIZE)%nat eqn:El; [|destruct (n_in s e) as [|b i] eqn:Ei; [done|]].
  - apply Nat.eqb_eq in El. pose proof (head_complete s p e got js HI Hp Ej He Ho El) as Eg. rewrite Eg in Hs.
    destruct (Hrecv e (n_remote s) He) as (r & Er & Hre & Hra).
    { rewrite (jo_remote _ _ _ Hj e), decide_True by (first [left|apply (Forall_inv (jo_ends _ _ _ Hj))]). done. }
    rewrite Er in Hs. change (Some ?a ≫= ?f) with (f a) in Hs. cbv beta iota in Hs. injection Hs as <-. destruct (jobs_received p e got js (n_remote s) r Hj Hre Hra) as [J1 J2].
    set (js' := if 0 <? _ then _ else _). destruct (views s p _ js (n_in s) r js' Ej) as (V1 & V2 & V3).
    assert (Hn : e ∉ recvs js) by (by pose proof (jo_nodup _ _ _ Hj) as H; apply NoDup_cons in H as [H _]).
    eapply steps_to_intro; [exact Ej|apply HI| |intros a Ha; apply Hra; by intros ->| |].
    + subst js'. rewrite Nat2Z.id. by destruct (0 <? _).
    + subst js'. rewrite Nat2Z.id. destruct (0 <? _); cbn; lia.
    + apply mv_none; [| |done]; intros a Ha; rewrite ?V1, ?V2; (destruct (decide _) as [E|]; [|done]); destruct (V3 a E) as [E1 E2]; rewrite ?E1, ?E2; clear E1 E2; subst js'; rewrite Nat2Z.id; cbn.
      * destruct (decide (e = a)) as [<-|Hea]; [|by destruct (0 <? _); cbn; rewrite ?decide_False]. rewrite Eg.
        destruct (Z.ltb_spec 0 (Z.of_nat (length (d (peer e))))); cbn; [rewrite decide_True by done; by rewrite app_nil_r|].
        rewrite consumed_none by done. destruct (d (peer e)); [by rewrite app_nil_r|cbn in *; lia].
      * destruct (Z.ltb_spec 0 (Z.of_nat (length (d (peer e))))); cbn; [done|]. destruct (decide (e = a)) as [<-|Hea]; [|done]. by destruct (d (peer e)).
  - injection Hs as <-. apply Nat.eqb_neq in El. destruct (views s p _ js (<[e := i]> (n_in s)) (n_remote s) (JHead e (got ++ [b]) :: js) Ej) as (V1 & V2 & V3).
    assert (Hlt : (length got < CONNMSG_SIZE)%nat) by (pose proof (Forall_inv (jo_body _ _ _ Hj)) as H; cbn in H; lia).
    eapply steps_to_intro; [exact Ej|apply HI|eapply jobs_replace; [exact Hj|done..|cbn; rewrite length_app; cbn; lia]|done|cbn; rewrite length_app; cbn; unfold CONNMSG_SIZE in *; lia|]. apply (mv_read _ _ e b); [done|..].
    + rewrite V1, decide_True by done. destruct (V3 e Ho) as [-> _]. cbn. by rewrite !decide_True.
    + cbn. by rewrite fn_lookup_insert.
    + intros a Ha Hae. rewrite V1. destruct (decide _) as [E|]; [|done]. destruct (V3 a E) as [-> _]. cbn. by rewrite !(decide_False (P := e = a)).
    + intros a Ha. rewrite V2. destruct (decide _) as [E|]; [|done]. by destruct (V3 a E) as [_ ->].
    + intros a Ha. cbn. by rewrite fn_lookup_insert_ne.
Qed.

Lemma xstep_body s s' p e n got js : XInv s -> p ∈ t_procs T -> n_jobs s p = JBody e n got :: js -> xstep T t p s = Some s' -> steps_to s s' p.
Proof.
  intros HI Hp Ej Hs. destruct (first_job s p _ js HI Hp Ej) as (He & Ho & Hpe & Hj). cbn [job_end] in *. unfold xstep in Hs. rewrite Ej in Hs.
  pose proof (Forall_inv (jo_body _ _ _ Hj)) as [En Hle].
  destruct (length got =? n)%nat eqn:El; [|destruct (n_in s e) as [|b i] eqn:Ei; [done|]].
  - apply Nat.eqb_eq in El. pose proof (body_complete s p e n got js HI Hp Ej He Ho (eq_trans El En)) as Eg. injection Hs as <-. unfold set_jobs.
    destruct (views s p _ js (n_in s) (n_remote s) (JSend e got :: js) Ej) as (V1 & V2 & V3).
    assert (Hn : e ∉ recvs js) by (by pose proof (jo_nodup _ _ _ Hj) as H; apply NoDup_cons in H as [H _]).
    eapply steps_to_intro; [exact Ej|apply HI|by eapply jobs_echo|done|cbn; lia|].
    apply mv_none; [| |done]; intros a Ha; rewrite ?V1, ?V2; (destruct (decide _) as [E|]; [|done]); destruct (V3 a E) as [E1 E2]; rewrite ?E1, ?E2; clear E1 E2; cbn.
    + destruct (decide (e = a)) as [<-|Hea]; [|done]. by rewrite consumed_none, Eg.
    + destruct (decide (e = a)) as [<-|Hea]; [|done]. by rewrite Eg.
  - injection Hs as <-. apply Nat.eqb_neq in El. destruct (views s p _ js (<[e := i]> (n_in s)) (n_remote s) (JBody e n (got ++ [b]) :: js) Ej) as (V1 & V2 & V3).
    eapply steps_to_intro; [exact Ej|apply HI|eapply jobs_replace; [exact Hj|done..|cbn; rewrite length_app; cbn; lia]|done|cbn; rewrite length_app; cbn; lia|]. apply (mv_read _ _ e b); [done|..].
    + rewrite V1, decide_True by done. destruct (V3 e Ho) as [-> _]. cbn. rewrite !decide_True by done. apply app_assoc.
    + cbn. by rewrite fn_lookup_insert.
    + intros a Ha Hae. rewrite V1. destruct (decide _) as [E|]; [|done]. destruct (V3 a E) as [-> _]. cbn. by rewrite !(decide_False (P := e = a)).
    + intros a Ha. rewrite V2. destruct (decide _) as [E|]; [|done]. by destruct (V3 a E) as [_ ->].
    + intros a Ha. cbn. by rewrite fn_lookup_insert_ne.
Qed.

Lemma exchange_step_inv s s' : XInv s -> xsteps T t s s' -> XInv s' /\ (xwork s' < xwork s)%nat.
Proof.
  intros HI (p & Hp & Hs). assert (H : steps_to s s' p).
  { pose proof Hs as Hs'. unfold xstep in Hs'. destruct (n_jobs s p) as [|[e b|e got|e n got] js] eqn:Ej; [done|..]; [by eapply xstep_send|by eapply xstep_head|by eapply xstep_body]. }
  destruct H as (HJ & Hm & Hw & Hq). split; [split; [done|by apply (moved_stream s s' Hm), HI]|]. unfold xwork.
  pose proof (sum_change (fun q => sum_list_with jwork (n_jobs s q)) (fun q => sum_list_with jwork (n_jobs s' q)) _ p (to_procs T HT) Hp) as H.
  cbn beta in H. specialize (H (fun q _ Hne => f_equal (sum_list_with jwork) (Hq q Hne))). lia.
Qed.

(** ** No deadlock *)

Lemma out_recv e js : forallb is_recv js = true -> NoDup (recvs js) -> (length (out e js) <= length (d (peer e)))%nat.
Proof.
  induction js as [|[a b|a got|a n got] js IH]; cbn; intros Hr Hn; [lia|done|..]; apply NoDup_cons in Hn as [Ha Hn]; (rewrite length_app; destruct (decide (a = e)) as [->|]; [|by apply IH]);
    (assert (E : out e js = []); [clear -Ha Hr; induction js as [|[a b|a ?|a ? ?] js IH]; cbn in *; [done|done|..]; apply not_elem_of_cons in Ha as [? Ha]; rewrite decide_False by done; by apply IH|]);
    rewrite E; cbn; lia.
Qed.

(** A process that has something to do either can do it, or waits for bytes of a peer that is not going to send any: but those bytes have been sent. *)
Lemma exchange_stuck s : XInv s -> (forall s', ~ xsteps T t s s') -> forall p, p ∈ t_procs T -> n_jobs s p = [].
Proof.
  intros HI Hst0. assert (Hst : forall p, p ∈ t_procs T -> xstep T t p s = None).
  { intros p Hp. destruct (xstep T t p s) as [s'|] eqn:E; [|done]. exfalso. apply (Hst0 s'). by exists p. }
  clear Hst0. unfold xstep in Hst.
  assert (Hfirst : forall p, p ∈ t_procs T -> forallb is_recv (n_jobs s p) = true).
  { intros p Hp. pose proof (jo_order _ _ _ (xi_jobs s HI p Hp)) as Hord. destruct (n_jobs s p) as [|[e b|e got|e n got] js] eqn:Ej; [done| |done|done]. exfalso.
    destruct (first_job s p _ js HI Hp Ej) as (He & Ho & Hpe & Hj). cbn [job_end] in *. destruct (to_peer T HT e He) as (_ & Epp & _).
    specialize (Hst p Hp). rewrite Ej in Hst. destruct b as [|b bs]; [done|].
    assert (Hb : (length (n_in s (peer e)) <? t_capacity T (peer e))%nat = true); [|by rewrite Hb in Hst]. apply Nat.ltb_lt. pose proof (xi_stream s HI _ Hpe) as E. rewrite Epp in E.
    apply (f_equal length) in E. rewrite !length_app in E. unfold out_at in E. rewrite Ho, Ej in E. cbn in E. rewrite decide_True in E by done. cbn in E.
    pose proof (Hroom _ Hpe). lia. }
  intros p Hp. pose proof (Hfirst p Hp) as Hr. destruct (n_jobs s p) as [|j js] eqn:Ej; [done|]. exfalso.
  destruct (first_job s p _ js HI Hp Ej) as (He & Ho & Hpe & Hj). destruct (to_peer T HT _ He) as (_ & Epp & _).
  pose proof (xi_stream s HI _ He) as E. apply (f_equal length) in E. unfold stream in E. rewrite !length_app in E. unfold consumed_at, out_at in E.
  rewrite Ho, Ej, (Hh _ Hpe) in E. apply (all_ends_owner T HT) in Hpe as [Hpp _].
  pose proof (out_recv (peer (job_end j)) _ (Hfirst _ Hpp) (jo_nodup _ _ _ (xi_jobs s HI _ Hpp))) as Hout. rewrite Epp in Hout.
  pose proof (Forall_inv (jo_body _ _ _ Hj)) as Hfit. destruct j as [e b|e got|e n got]; [done|..]; cbn [job_end consumed] in *; rewrite decide_True in E by done; cbn in Hfit.
  - destruct (length got =? CONNMSG_SIZE)%nat eqn:El.
    + apply Nat.eqb_eq in El. pose proof (head_complete s p e got js HI Hp Ej He Ho El) as Eg. destruct (Hrecv e (n_remote s) He) as (r & Er & _).
      { rewrite (jo_remote _ _ _ Hj e), decide_True by (first [left|apply (Forall_inv (jo_ends _ _ _ Hj))]). done. }
      specialize (Hst p Hp). by rewrite Ej, (proj2 (Nat.eqb_eq _ _) El), Eg, Er in Hst.
    + apply Nat.eqb_neq in El. destruct (n_in s e) as [|b i] eqn:Ei; [cbn [length] in E; lia|].
      specialize (Hst p Hp). by rewrite Ej, (proj2 (Nat.eqb_neq _ _) El), Ei in Hst.
  - rewrite length_app, (Hh (peer e)) in E by (by apply (to_peer T HT)). destruct (length got =? n)%nat eqn:El.
    + specialize (Hst p Hp). by rewrite Ej, El in Hst.
    + pose proof (proj1 (Nat.eqb_neq _ _) El). destruct (n_in s e) as [|b i] eqn:Ei; [cbn [length] in E; lia|].
      specialize (Hst p Hp). by rewrite Ej, El, Ei in Hst.
Qed.

(** ** The start *)

Abbreviation sends l := ((fun e => JSend e (h e ++ d e)) <$> l).
Abbreviation receives l := ((fun e => JHead e []) <$> l).

Lemma start_lists k l : recvs (sends k ++ receives l) = l /\ heads (sends k ++ receives l) = l /\ sends_first (sends k ++ receives l) = true.
Proof.
  induction k as [|e k IH]; [|exact IH]. cbn [app fmap list_fmap]. split_and!; [induction l as [|e l IH]; [done|]; cbn; by f_equal..|].
  apply recv_sends_first. induction l as [|e l IH]; [done|exact IH].
Qed.

Lemma start_consumed e k l : e ∈ l -> consumed e (sends k ++ receives l) = [].
Proof.
  intros He. induction k as [|a k IH]; [|exact IH]. cbn [app fmap list_fmap]. induction l as [|a l IH]; [by apply elem_of_nil in He|]. cbn.
  destruct (decide (a = e)) as [->|Hne]; [done|]. apply IH. apply elem_of_cons in He as [->|He]; [done|done].
Qed.

Lemma out_app e js js' : out e (js ++ js') = out e js ++ out e js'.
Proof. induction js as [|[] js IH]; [done|..]; cbn; by rewrite IH, app_assoc. Qed.
Lemma out_fmap e (f : nat -> job) (g : nat -> bytes) l : (forall a, out e [f a] = if decide (a = e) then g e else []) -> NoDup l -> e ∈ l -> out e (f <$> l) = g e.
Proof.
  intros Hf. assert (Hno : forall l0, e ∉ l0 -> out e (f <$> l0) = []).
  { induction l0 as [|a l' IH]; [done|]. intros [Ha Hl]%not_elem_of_cons. rewrite fmap_cons. change (f a :: ?k) with ([f a] ++ k). rewrite out_app, Hf, decide_False by done. by apply IH. }
  induction l as [|a l IH]; intros Hn He; [by apply elem_of_nil in He|]. apply NoDup_cons in Hn as [Ha Hn]. rewrite fmap_cons. change (f a :: ?k) with ([f a] ++ k).
  rewrite out_app, Hf. apply elem_of_cons in He as [<-|He]; [rewrite decide_True, Hno by done; apply app_nil_r|]. rewrite decide_False by (by intros ->). by apply IH.
Qed.

Lemma exchange_start_inv i : (forall e, e ∈ all_ends T -> i e = []) -> XInv (start T msg d i r0).
Proof.
  intros Hi. split.
  - intros p Hp. cbn [start n_jobs n_remote]. destruct (start_lists (t_ends T p) (t_ends T p)) as (E1 & E2 & E3). split.
    + apply Forall_app. split; apply Forall_fmap, Forall_forall; done.
    + rewrite E1. by apply (to_ends T HT).
    + done.
    + apply Forall_app. split; apply Forall_fmap, Forall_forall; intros e _; cbn; lia.
    + intros e He. rewrite E2, decide_True by done. done.
  - intros e He. destruct (to_peer T HT e He) as (Hpe & Epp & _). unfold consumed_at, out_at. cbn [start n_jobs n_in]. rewrite (Hi e He).
    apply (all_ends_owner T HT) in He as [Hp He], Hpe as [Hpp Hpe]. rewrite start_consumed by done. rewrite out_app.
    rewrite (out_fmap (peer e) _ (fun e => h e ++ d e)), (out_fmap (peer e) _ (fun e => d (peer e)));
      [|intros a; cbn; by rewrite app_nil_r|by apply (to_ends T HT)|done|intros a; cbn; rewrite app_nil_r; by destruct (decide (a = peer e)) as [->|]|by apply (to_ends T HT)|done].
    cbn [app]. unfold stream. by rewrite Epp, app_assoc.
Qed.

Lemma exchange_ends i : (forall e, e ∈ all_ends T -> i e = []) ->
  ends_in (xsteps T t) (start T msg d i r0) (fun s => (forall p, p ∈ t_procs T -> n_jobs s p = []) /\ forall e, e ∈ all_ends T -> n_in s e = d e /\ n_remote s e = learned e).
Proof.
  intros Hi. apply (ends_in_inv _ XInv xwork); [by apply exchange_start_inv|intros s s' HI Hs; by apply exchange_step_inv|]. intros s HI Hst.
  pose proof (exchange_stuck s HI Hst) as Hno. split; [done|]. intros e He. destruct (to_peer T HT e He) as (Hpe & Epp & _).
  pose proof (xi_stream s HI e He) as E. unfold consumed_at, out_at in E. apply (all_ends_owner T HT) in He as [Hp He], Hpe as [Hpp Hpe].
  rewrite (Hno _ Hp), (Hno _ Hpp) in E. cbn [consumed out] in E. rewrite app_nil_r in E. unfold stream in E. rewrite app_assoc in E. apply app_inv_head in E.
  pose proof (jo_remote _ _ _ (xi_jobs s HI _ Hp) e He) as Er. rewrite (Hno _ Hp) in Er. by rewrite decide_False in Er by (apply not_elem_of_nil).
Qed.
End exchange.

(** ** The messages of the two phases *)

Lemma new_sign g null t : cm_sign (ConnMsg_new g null t) = str_resize 32 (HANDSHAKE_SIGNATURE_MSG +:+ String NUL (g_sign g)).
Proof. done. Qed.
Lemma new_c_str g : c_str (str_resize 32 (HANDSHAKE_SIGNATURE_MSG +:+ String NUL (g_sign g))) = Some HANDSHAKE_SIGNATURE_MSG.
Proof.
  unfold str_resize. set (fill := string_of_list_ascii _). change 32%nat with (24 + 8)%nat.
  change (str_take (24 + 8) (HANDSHAKE_SIGNATURE_MSG +:+ String NUL (g_sign g))) with (HANDSHAKE_SIGNATURE_MSG +:+ String NUL (str_take 7 (g_sign g))).
  rewrite str_app_assoc. change (String NUL ?a +:+ ?b) with (String NUL (a +:+ b)). by apply c_str_app.
Qed.

Lemma new_valid g null t m : cm_sign m = cm_sign (ConnMsg_new g null t) -> cm_size m = Z.of_nat CONNMSG_SIZE -> cm_type m = type_val t -> cm_assertValid t m = true.
Proof. intros E1 E2 E3. unfold cm_assertValid. rewrite E1, new_sign, new_c_str, E2, E3, !Z.eqb_refl, bool_decide_eq_true_2 by done. done. Qed.

Lemma ci_eqb_refl i : ci_eqb i i = true.
Proof. unfold ci_eqb, upid_eqb. by rewrite !Z.eqb_refl. Qed.

(** The identifiers a network uses. *)
Record ids_ok (T : Topology) : Prop := {
  io_ids : forall e, e ∈ all_ends T -> ci_ok (t_id T e) /\ ci_isNull (t_id T e) = false;
  io_coord : ci_ok (t_coord T); io_null : ci_ok (t_null T) }.

Lemma type_in_sint t : in_sint 4 (type_val t).
Proof. destruct t; by split. Qed.

Lemma handshake_ok T e : ids_ok T -> e ∈ all_ends T -> cm_ok (handshake_msg T e).
Proof.
  intros H He. destruct (io_ids T H e He). unfold cm_ok. cbn. split_and!; try done; [apply H|apply str_resize_length|apply str_resize_length].
Qed.
Lemma refill_ok T d e : ids_ok T -> Z.of_nat (length (d e)) < 2 ^ 31 -> cm_ok (refill_msg T d e).
Proof.
  intros H He. unfold cm_ok. cbn. split_and!; try done; try apply H; try apply str_resize_length.
  change (cm_extraBytes _) with (Z.of_nat (length (d e))). unfold in_sint. change (8 * Z.of_nat 4 - 1) with 31. lia.
Qed.

(** ** The two phases *)

Lemma cm_chars_length m : cm_ok m -> length (chars (cm_raw m)) = CONNMSG_SIZE.
Proof. intros (_ & _ & H1 & _ & _ & _ & H2). rewrite chars_length. by apply cm_raw_length. Qed.

Definition quiet (T : Topology) (s : Net) : Prop := forall p, p ∈ t_procs T -> n_jobs s p = [].

Lemma handshakes_end T i remote : topo_ok T -> ids_ok T -> (forall e, e ∈ all_ends T -> i e = []) ->
  (forall e, e ∈ all_ends T -> ci_isNull (remote e) = true \/ remote e = t_id T (t_peer T e)) -> (forall e, e ∈ all_ends T -> (CONNMSG_SIZE <= t_capacity T e)%nat) ->
  ends_in (xsteps T HANDSHAKE) (preCkpt T i remote) (fun s => quiet T s /\ forall e, e ∈ all_ends T -> n_in s e = [] /\ n_remote s e = t_id T (t_peer T e)).
Proof.
  intros HT HI Hi Hr Hcap. apply (exchange_ends T HANDSHAKE _ _ remote (fun e => t_id T (t_peer T e)) HT); [..|done].
  - intros e He. by apply cm_chars_length, handshake_ok.
  - intros e He. unfold stream. cbn [app]. rewrite app_nil_r, cm_chars_length by (by apply handshake_ok, (to_peer T HT)). by apply Hcap.
  - intros e r He Hre. destruct (to_peer T HT e He) as (Hp & _). destruct (io_ids T HI _ Hp) as [_ Hnn]. rewrite text_chars, cm_of_raw_raw by (by apply handshake_ok).
    cbn [receive length]. unfold recvHandshake. rewrite (new_valid (t_garbage T (t_peer T e)) (t_null T)) by done.
    change (cm_coordId (handshake_msg T (t_peer T e))) with (t_coord T). change (cm_from (handshake_msg T (t_peer T e))) with (t_id T (t_peer T e)). rewrite ci_eqb_refl, Hre, Hnn. cbn [andb].
    destruct (ci_isNull (remote e)) eqn:Hn.
    + eexists. split; [reflexivity|]. split; [apply fn_lookup_insert|]. intros a Ha. by apply fn_lookup_insert_ne.
    + destruct (Hr e He) as [?|E]; [congruence|]. rewrite E, ci_eqb_refl. exists r. by rewrite Hre.
Qed.

Lemma refill_ends T d i remote : topo_ok T -> ids_ok T -> (forall e, e ∈ all_ends T -> i e = []) -> (forall e, e ∈ all_ends T -> Z.of_nat (length (d e)) < 2 ^ 31) ->
  (forall e, e ∈ all_ends T -> (CONNMSG_SIZE + length (d (t_peer T e)) + length (d e) <= t_capacity T e)%nat) ->
  ends_in (xsteps T REFILL) (refillAllSockets T d i remote) (fun s => quiet T s /\ forall e, e ∈ all_ends T -> n_in s e = d e /\ n_remote s e = remote e).
Proof.
  intros HT HI Hi Hd Hcap. apply (exchange_ends T REFILL _ _ remote remote HT); [..|done].
  - intros e He. by apply cm_chars_length, refill_ok, Hd.
  - intros e He. destruct (to_peer T HT e He) as (Hp & _). unfold stream. rewrite !length_app, cm_chars_length by (by apply refill_ok, Hd). pose proof (Hcap e He). lia.
  - intros e r He Hre. destruct (to_peer T HT e He) as (Hp & _). rewrite text_chars, cm_of_raw_raw by (by apply refill_ok, Hd).
    cbn [receive]. unfold recvRefill. rewrite (new_valid (t_garbage T (t_peer T e)) (t_null T)) by done. exists r. done.
Qed.

(** The same sockets with other buffers: a restart makes them anew. *)
Definition with_capacity (T : Topology) (cap : nat -> nat) : Topology :=
  mk_Topology (t_procs T) (t_host T) (t_ends T) (t_owner T) (t_peer T) cap (t_id T) (t_coord T) (t_null T) (t_garbage T).

Lemma with_capacity_ok T cap : topo_ok T -> (forall e, e ∈ all_ends T -> (0 < cap e)%nat) -> topo_ok (with_capacity T cap).
Proof. intros [] H. by split. Qed.
Lemma with_capacity_ids T cap : ids_ok T -> ids_ok (with_capacity T cap).
Proof. intros []. by split. Qed.

Lemma ends_in_mono {S} (R : S -> S -> Prop) s (Q Q' : S -> Prop) : ends_in R s Q -> (forall s', Q s' -> Q' s') -> ends_in R s Q'.
Proof. intros [H1 H2] H. split; [done|]. intros s' Hs Hst. by apply H, H2. Qed.

(** C16: the bytes in flight between processes of one host survive a checkpoint, if the cookie of the drainer does not occur in them.  Whatever the
    order in which the processes go on, however many bytes each call moves and however small the buffers are: draining ends, with the bytes that were under way to an
    end in its drainer and nothing left in the kernel; no process gets past the barrier behind it before that; then the handshakes end, after which every connection knows the identifier of its peer; then (with the buffers of the sockets after a restart, which
    must hold what is drained in both directions and a message) refilling ends, with exactly the bytes in the kernel, in order, that were there before. *)
Theorem socket_bytes_survive T cap x remote :
  topo_ok T -> ids_ok T -> (forall p q, p ∈ t_procs T -> q ∈ t_procs T -> t_host T p = t_host T q) ->
  (forall e, e ∈ all_ends T -> (forall a b, x e <> a ++ theMagicDrainCookie ++ b) /\ Z.of_nat (length (x e)) < 2 ^ 31 /\
     (CONNMSG_SIZE <= t_capacity T e)%nat /\ (CONNMSG_SIZE + length (x (t_peer T e)) + length (x e) <= cap e)%nat /\
     (ci_isNull (remote e) = true \/ remote e = t_id T (t_peer T e))) ->
  (forall s p, rtc (dsteps T) (drain_start x) s -> p ∈ t_procs T -> barrier_open T s p ->
     forall e, e ∈ all_ends T -> dr_data (d_of s e) = x e /\ d_in s e = []) /\
  ends_in (dsteps T) (drain_start x) (fun s =>
    (forall e, e ∈ all_ends T -> dr_data (d_of s e) = x e /\ d_in s e = []) /\
    ends_in (xsteps T HANDSHAKE) (preCkpt T (d_in s) remote) (fun s1 =>
      quiet T s1 /\ (forall e, e ∈ all_ends T -> n_in s1 e = [] /\ n_remote s1 e = t_id T (t_peer T e)) /\
      ends_in (xsteps (with_capacity T cap) REFILL) (refillAllSockets (with_capacity T cap) (fun e => dr_data (d_of s e)) (n_in s1) (n_remote s1)) (fun s2 =>
        quiet T s2 /\ forall e, e ∈ all_ends T -> n_in s2 e = x e /\ n_remote s2 e = t_id T (t_peer T e)))).
Proof.
  intros HT HI H1 H. split; [intros s p Hs Hp Hb; apply (drained_behind_barrier T x HT) with p; try done; intros e He; by apply no_cookie_free, H|].
  eapply ends_in_mono; [apply (drain_ends T x HT); intros e He; by apply no_cookie_free, H|]. cbn beta. intros s Hs. split; [done|].
  eapply ends_in_mono; [apply handshakes_end; try done; intros e He; by apply Hs || apply H|]. cbn beta. intros s1 [Hq1 Hs1]. split_and!; [done..|].
  assert (Hd : forall e, e ∈ all_ends T -> dr_data (d_of s e) = x e) by (intros e He; by apply Hs).
  eapply ends_in_mono.
  - apply (refill_ends (with_capacity T cap)); [apply with_capacity_ok; [done|]|by apply with_capacity_ids|..]; intros e He.
    + destruct (H e He) as (_ & _ & _ & Hc & _). unfold CONNMSG_SIZE in Hc. lia.
    + by apply Hs1.
    + rewrite Hd by done. by apply H.
    + cbn. rewrite !Hd by (try done; by apply (to_peer T HT)). by apply H.
  - cbn beta. intros s2 [Hq2 Hs2]. split; [done|]. intros e He. destruct (Hs2 e He) as [-> ->]. split; [by apply Hd|by apply Hs1].
Qed.

Section example.
Definition demo_id (n : Z) : ConnectionIdentifier := mk_ConnectionIdentifier (mk_UniquePid 5 n 77 1) n.
Definition demo : Topology :=
  mk_Topology [0; 1]%nat (fun _ => 0%nat) (fun p => [p]) id (fun e => 1 - e)%nat (fun _ => 200%nat) (fun e => demo_id (Z.of_nat e)) (demo_id 9) (demo_id (-1)) (fun _ => mk_Garbage "zz" "qqqq").
Definition demo_bytes (e : nat) : bytes := if (e =? 0)%nat then chars "in flight" else chars "[dmtcp{v0<".

Lemma demo_ends e : e ∈ all_ends demo -> e = 0%nat \/ e = 1%nat.
Proof. cbn. rewrite !elem_of_cons, elem_of_nil. tauto. Qed.
Lemma demo_topo : topo_ok demo.
Proof.
  split.
  - vm_compute. apply (bool_decide_unpack _). reflexivity.
  - intros p _. apply NoDup_singleton.
  - intros p e _ He. by apply list_elem_of_singleton in He.
  - intros e [-> | ->]%demo_ends; vm_compute; split_and!; try done; set_solver.
  - intros e _. cbn. lia.
Qed.
Lemma demo_ids : ids_ok demo.
Proof. split; [intros e [-> | ->]%demo_ends| |]; by repeat split. Qed.
End example.

Lemma socket_bytes_survive_witness : ends_in (dsteps demo) (drain_start demo_bytes) (fun s => forall e, e ∈ all_ends demo -> dr_data (d_of s e) = demo_bytes e /\ d_in s e = []).
Proof.
  eapply ends_in_mono; [apply (socket_bytes_survive demo (fun _ => 200%nat) demo_bytes (fun _ => demo_id (-1)) demo_topo demo_ids); [done|]|by intros s [Hs _]].
  intros e [-> | ->]%demo_ends; split_and!; try (apply Nat.leb_le; vm_compute; reflexivity); try (by left); try done;
    intros a b E; apply (f_equal length) in E; rewrite !length_app in E; change (length theMagicDrainCookie) with 17%nat in E; cbn in E; lia.
Defined.

(** ** Two hosts

    What the barrier of one host does not prevent: a process that has drained sends its handshake, and its peer on another host reads it behind the cookie
    before it has looked for the cookie. *)

Definition demo_hosts : Topology :=
  mk_Topology [0; 1]%nat id (fun p => [p]) id (fun e => 1 - e)%nat (fun _ => 200%nat) (fun e => demo_id (Z.of_nat e)) (demo_id 9) (demo_id (-1)) (fun _ => mk_Garbage "zz" "qqqq").

(** The bytes that come to end 1, and the state in which its drainer has read beyond the cookie. *)
Definition late_stream : bytes := theMagicDrainCookie ++ chars (cm_raw (handshake_msg demo_hosts 0)).
Record beyond (s : HState) : Prop := {
  by_cookie : dr_cookie (d_of (h_drain s) 0%nat) = [];
  by_open : dr_done (d_of (h_drain s) 1%nat) = false;
  by_read : (17 < length (dr_data (d_of (h_drain s) 1%nat)))%nat;
  by_stream : dr_data (d_of (h_drain s) 1%nat) ++ d_in (h_drain s) 1%nat ++ h_hand s 0%nat = late_stream }.

Lemma late_stream_no_cookie y z : y ++ z = late_stream -> (17 < length y)%nat -> ends_with y theMagicDrainCookie = false.
Proof.
  intros E Hl. assert (Hy : y = take (length y) late_stream) by (by rewrite <- E, take_app_length). rewrite Hy.
  assert (Hle : (length y < 130)%nat) by (apply (f_equal length) in E; rewrite length_app in E; change (length late_stream) with 129%nat in E; lia).
  assert (Hall : forallb (fun k => negb (ends_with (take k late_stream) theMagicDrainCookie)) (seq 18 112) = true) by (vm_compute; reflexivity).
  apply negb_true_iff. apply (proj1 (forallb_forall _ _) Hall). apply in_seq. lia.
Qed.

Lemma beyond_step s s' : beyond s -> hstep demo_hosts s s' -> beyond s'.
Proof.
  intros [H1 H2 H3 H4] Hs. destruct Hs as [d (e & ev & He & Hd)|p e b r Hp He _ Eh _].
  - apply demo_ends in He. unfold dstep in Hd.
    destruct He as [-> | ->], ev as [|n|]; cbn [t_peer demo_hosts Nat.sub] in Hd.
    + by rewrite H1 in Hd.
    + destruct (_ && _); [|done]. injection Hd as <-. by split.
    + destruct (_ && _); [|done]. injection Hd as <-. split; cbn; try done.
      unfold onTimeoutInterval. by destruct (ends_with _ _).
    + destruct (dr_cookie (d_of (h_drain s) 1%nat)); [done|]. destruct (_ <? _)%nat; [|done]. injection Hd as <-. by split.
    + destruct (_ && _); [|done]. injection Hd as <-. split; cbn; try done.
      * change (17 < length (dr_data (d_of (h_drain s) 1%nat) ++ take n (d_in (h_drain s) 1%nat)))%nat. rewrite length_app. lia.
      * change ((dr_data (d_of (h_drain s) 1%nat) ++ take n (d_in (h_drain s) 1%nat)) ++ drop n (d_in (h_drain s) 1%nat) ++ h_hand s 0%nat = late_stream).
        rewrite <- app_assoc, (app_assoc (take n _)), take_drop. exact H4.
    + rewrite (late_stream_no_cookie _ _ H4 H3), andb_false_r in Hd. done.
  - apply list_elem_of_singleton in He as ->. apply demo_ends in Hp as [-> | ->]; cbn [t_peer demo_hosts Nat.sub].
    + split; try done. change (dr_data (d_of (h_drain s) 1%nat) ++ (d_in (h_drain s) 1%nat ++ [b]) ++ r = late_stream).
      rewrite <- H4, Eh. by rewrite <- app_assoc.
    + by split.
Qed.

(** The schedule: both write their cookies, process 0 reads, sees the cookie and sends the first byte of its handshake, then process 1 reads. *)
Definition late_run : list (nat * option devent) :=
  replicate 17 (0%nat, Some DWrite) ++ replicate 17 (1%nat, Some DWrite) ++
  [(0%nat, Some (DRead 17)); (0%nat, Some DTick); (0%nat, None); (1%nat, Some (DRead 18))].

(** A run of such events; one that cannot happen changes nothing. *)
Fixpoint play (l : list (nat * option devent)) (s : HState) : HState :=
  match l with
  | [] => s
  | (e, Some ev) :: l => play l (match dstep demo_hosts e ev (h_drain s) with Some d => mk_HState d (h_hand s) | None => s end)
  | (e, None) :: l =>
      play l (match h_hand s e with
              | b :: r =>
                  if dr_done (d_of (h_drain s) e) && bool_decide (dr_cookie (d_of (h_drain s) e) = []) &&
                     (length (d_in (h_drain s) (1 - e)%nat) <? 200)%nat
                  then mk_HState (mk_DState (<[(1 - e)%nat := d_in (h_drain s) (1 - e)%nat ++ [b]]> (d_in (h_drain s))) (d_of (h_drain s))) (<[e := r]> (h_hand s))
                  else s
              | [] => s
              end)
  end.

Lemma play_steps l : forall s, Forall (fun x => x.1 = 0%nat \/ x.1 = 1%nat) l -> rtc (hstep demo_hosts) s (play l s).
Proof.
  induction l as [|[e o] l IH]; intros s Hl; [apply rtc_refl|]. apply Forall_cons in Hl as [He Hl]. cbn [fst] in He.
  assert (Hin : e ∈ t_procs demo_hosts) by (cbn; destruct He as [-> | ->]; set_solver).
  destruct o as [ev|]; cbn [play].
  - destruct (dstep demo_hosts e ev (h_drain s)) as [d|] eqn:Ed; [|by apply IH].
    eapply rtc_l; [|by apply IH]. apply hstep_drain. exists e, ev. split; [|done].
    unfold all_ends. apply list_elem_of_bind. exists e. split; [apply list_elem_of_singleton; done|done].
  - destruct (h_hand s e) as [|b r] eqn:Eh; [by apply IH|]. destruct (_ && _) eqn:Ec; [|by apply IH].
    rewrite !andb_true_iff, bool_decide_eq_true, Nat.ltb_lt in Ec. destruct Ec as ((Hd & Hc) & Hr).
    eapply rtc_l; [|by apply IH]. apply (hstep_hand demo_hosts s e e b r); [done|by apply list_elem_of_singleton| |done|exact Hr].
    intros q _ Hq a ->%list_elem_of_singleton. cbn in Hq. subst q. done.
Qed.

(** Then process 1 drains for ever, whatever happens: a checkpoint of a connection between two hosts can hang. *)
Lemma remote_handshake_stops_drain : exists s, rtc (hstep demo_hosts) (hosts_start demo_hosts (fun _ => [])) s /\
  forall s', rtc (hstep demo_hosts) s s' -> ~ drained demo_hosts (h_drain s') 1.
Proof.
  exists (play late_run (hosts_start demo_hosts (fun _ => []))). split.
  - apply play_steps. apply (bool_decide_unpack _). vm_compute. exact I.
  - intros s' Hs. assert (HB : beyond s').
    { refine (rtc_keeps _ _ _ _ beyond_step Hs _). split; [vm_compute; reflexivity|vm_compute; reflexivity|apply Nat.ltb_lt; vm_compute; reflexivity|].
      vm_compute. reflexivity. }
    intros H. destruct (H 1%nat) as [Hd _]; [by left|]. pose proof (by_open s' HB). congruence.
Qed.

(** ** Buffers that are too small *)

Section deadlock.
Context (T : Topology) (d : nat -> bytes) (p q e f : nat).
Hypothesis Hp : t_procs T = [p; q].
Hypothesis Hne : p <> q /\ e <> f.
Hypothesis Hpeer : t_peer T e = f /\ t_peer T f = e.
Hypothesis Hcap : (t_capacity T f < CONNMSG_SIZE + length (d e))%nat /\ (t_capacity T e < CONNMSG_SIZE + length (d f))%nat.

(** Both processes are still writing. *)
Definition writing_both (s : Net) : Prop := exists b b',
  n_jobs s p = [JSend e b; JHead e []] /\ n_jobs s q = [JSend f b'; JHead f []] /\
  (length (n_in s f) + length b = CONNMSG_SIZE + length (d e))%nat /\ (length (n_in s e) + length b' = CONNMSG_SIZE + length (d f))%nat /\
  (length (n_in s f) <= t_capacity T f)%nat /\ (length (n_in s e) <= t_capacity T e)%nat.

Lemma writing_both_step s s' : writing_both s -> xsteps T REFILL s s' -> writing_both s'.
Proof.
  destruct Hne as [Hpq Hef], Hpeer as [Ee Ef], Hcap as [C1 C2]. intros (b & b' & E1 & E2 & L1 & L2 & R1 & R2) (a & Ha & Hs). rewrite Hp in Ha. unfold xstep in Hs.
  apply elem_of_cons in Ha as [-> | ->%list_elem_of_singleton]; [rewrite E1 in Hs|rewrite E2 in Hs].
  - destruct b as [|c b]; [cbn [length] in L1; lia|]. rewrite Ee in Hs. destruct (Nat.ltb_spec (length (n_in s f)) (t_capacity T f)); [|done]. injection Hs as <-.
    exists b, b'. cbn [n_jobs n_in]. rewrite fn_lookup_insert, fn_lookup_insert_ne, fn_lookup_insert, fn_lookup_insert_ne, length_app by done. cbn [length] in *. split_and!; try done; lia.
  - destruct b' as [|c b']; [cbn [length] in L2; lia|]. rewrite Ef in Hs. destruct (Nat.ltb_spec (length (n_in s e)) (t_capacity T e)); [|done]. injection Hs as <-.
    exists b, b'. cbn [n_jobs n_in]. rewrite fn_lookup_insert, fn_lookup_insert_ne, fn_lookup_insert, fn_lookup_insert_ne, length_app by done. cbn [length] in *. split_and!; try done; lia.
Qed.
End deadlock.

Lemma refill_msg_length T d e : length (chars (cm_raw (refill_msg T d e))) = CONNMSG_SIZE.
Proof. rewrite chars_length. apply cm_raw_length; apply str_resize_length. Qed.

(** C39: [refillAllSockets] first writes everything and only then reads.  When two processes have drained more in both directions than fits, with the
    message, in the buffers of the socket that a restart has made (whose sizes are the defaults, as the options of the socket are set afterwards), then
    neither process ever comes to its first read: the restart hangs. *)
Theorem refill_deadlock T d i remote p q e f s : t_procs T = [p; q] -> p <> q /\ e <> f -> t_ends T p = [e] /\ t_ends T q = [f] -> t_peer T e = f /\ t_peer T f = e ->
  i e = [] /\ i f = [] -> (t_capacity T f < CONNMSG_SIZE + length (d e))%nat /\ (t_capacity T e < CONNMSG_SIZE + length (d f))%nat ->
  rtc (xsteps T REFILL) (refillAllSockets T d i remote) s -> exists b b', n_jobs s p = [JSend e b; JHead e []] /\ n_jobs s q = [JSend f b'; JHead f []].
Proof.
  intros Hp Hne [He Hf] Hpeer [Ie If] Hcap Hs. assert (W : writing_both T d p q e f s).
  { refine (rtc_keeps _ _ _ _ (writing_both_step T d p q e f Hp Hne Hpeer Hcap) Hs _). eexists _, _. cbn [refillAllSockets start n_jobs n_in]. rewrite He, Hf, Ie, If.
    split_and!; [reflexivity|reflexivity|..]; rewrite ?length_app, ?refill_msg_length; cbn; lia. }
  destruct W as (b & b' & E1 & E2 & _). eauto.
Qed.

Lemma refill_deadlock_witness : exists b b',
  n_jobs (refillAllSockets (with_capacity demo (fun _ => 115%nat)) demo_bytes (fun _ => []) (fun _ => demo_id 0)) 0 = [JSend 0 b; JHead 0 []] /\
  n_jobs (refillAllSockets (with_capacity demo (fun _ => 115%nat)) demo_bytes (fun _ => []) (fun _ => demo_id 0)) 1 = [JSend 1 b'; JHead 1 []].
Proof. eapply (refill_deadlock (with_capacity demo (fun _ => 115%nat)) demo_bytes); [..|apply rtc_refl]; cbn; try done; lia. Defined.

(** ** SOCK_SEQPACKET *)

Definition framed (f : bytes) : list bytes := chars (le_bytes 4 (Z.of_nat (length f))) :: (if (0 <? length f)%nat then [f] else []).

Lemma read_one f q : read_frames (f :: q) (length f) = if (0 <? length f)%nat then Some (f, q) else Some ([], f :: q).
Proof. destruct f as [|b f]; [done|]. cbn [read_frames length]. rewrite Nat.leb_refl, take_ge by done. done. Qed.

Lemma echo_frames_out frames q : Forall (fun f => Z.of_nat (length f) < 2 ^ 32) frames ->
  echo_frames (length frames) ((f ← frames; framed f) ++ q) = Some (f ← frames; framed f, q).
Proof.
  induction 1 as [|f frames Hf Hfs IH]; [done|]. cbn [length echo_frames]. change (_ ← f :: frames; _) with (framed f ++ (f ← frames; framed f)).
  rewrite <- app_assoc. set (k := (f ← frames; framed f) ++ q) in *.
  change (framed f) with (chars (le_bytes 4 (Z.of_nat (length f))) :: (if (0 <? length f)%nat then [f] else [])). cbn [app].
  pose proof (read_one (chars (le_bytes 4 (Z.of_nat (length f)))) ((if (0 <? length f)%nat then [f] else []) ++ k)) as E.
  rewrite chars_length, le_bytes_length in E. change (0 <? 4)%nat with true in E. cbv iota in E. rewrite E. change (Some ?a ≫= ?g) with (g a). cbv beta iota zeta.
  rewrite text_chars, le_val_bytes, Z.mod_small, Nat2Z.id by (change (8 * Z.of_nat 4) with 32; lia).
  destruct (0 <? length f)%nat eqn:El; cbn [app]; [rewrite (read_one f k), El; change (Some ?a ≫= ?g) with (g a)|]; cbn [mbind option_bind]; rewrite IH; done.
Qed.

Lemma framed_more frames : frames <> [] -> (sum_list_with length frames < sum_list_with length (f ← frames; framed f))%nat.
Proof.
  assert (H : forall frames, (sum_list_with length frames + 4 * length frames = sum_list_with length (f ← frames; framed f))%nat).
  { induction frames0 as [|f fs IH]; [done|]. change (_ ← f :: fs; _) with (framed f ++ (f ← fs; framed f)). rewrite sum_list_with_app, <- IH. unfold framed. cbn [sum_list_with length].
    rewrite chars_length, le_bytes_length. destruct (Nat.ltb_spec 0 (length f)); cbn [sum_list_with]; lia. }
  intros Hne. rewrite <- H. destruct frames; [done|cbn [length]; lia].
Qed.

(** C40: messages on a SOCK_SEQPACKET socket do not survive a checkpoint.  What the peer sends back is read by the application: for every message
    that was drained it gets the four bytes of its length as a message of its own, in front of it.  So whatever was in flight, the application reads something else. *)
Theorem seqpacket_refill_adds_frames g null frames : ci_ok null -> Z.of_nat (length frames) < 2 ^ 31 -> Forall (fun f => Z.of_nat (length f) < 2 ^ 32) frames -> frames <> [] ->
  echo_side (frames_out g null frames) = Some (f ← frames; framed f, []) /\ (f ← frames; framed f) <> frames.
Proof.
  intros Hn Hc Hf Hne. split; [|intros E; pose proof (framed_more frames Hne) as H; rewrite E in H; lia].
  unfold echo_side, frames_out. set (m := set_field _ _ _). assert (Hm : cm_ok m).
  { unfold cm_ok. cbn. split_and!; try done; try apply str_resize_length. change (cm_extraBytes _) with (Z.of_nat (length frames)). unfold in_sint. change (8 * Z.of_nat 4 - 1) with 31. lia. }
  pose proof (read_one (chars (cm_raw m)) (f ← frames; framed f)) as E. rewrite (cm_chars_length m Hm) in E. 
  change (read_frames (chars (cm_raw m) :: _) CONNMSG_SIZE) with (read_frames (chars (cm_raw m) :: (f ← frames; framed f)) CONNMSG_SIZE). rewrite E.
  change (0 <? CONNMSG_SIZE)%nat with true. cbn [mbind option_bind]. rewrite text_chars, cm_of_raw_raw by done. rewrite (new_valid g null) by done.
  change (cm_extraBytes m) with (Z.of_nat (length frames)). rewrite Nat2Z.id. pose proof (echo_frames_out frames [] Hf) as H. rewrite app_nil_r in H. exact H.
Qed.

Lemma seqpacket_refill_adds_frames_witness :
  echo_side (frames_out (mk_Garbage "" "") (demo_id (-1)) [chars "hello"; []]) =
  Some ([chars (String "005" (String NUL (String NUL (String NUL EmptyString)))); chars "hello"; [NUL; NUL; NUL; NUL]], []).
Proof. apply (seqpacket_refill_adds_frames (mk_Garbage "" "") (demo_id (-1)) [chars "hello"; []]); [by repeat split|done|by repeat constructor|done]. Defined.
