(* ===== verification/ProcMaps.v ===== *)
(** * Reader of /proc/self/maps (src/procselfmaps.cpp)

    [ProcSelfMaps] holds the text of /proc/self/maps and reads one memory area after another
    from it.  The state is the text and the index; reading an index behind the
    text is the fault [OutOfBounds] (the rest of the buffer is not initialised).  [line] is the text
    the kernel prints for an area, which the reader is proved to invert. *)

From Stdlib Require Import ZArith Lia Ascii.
From stdpp Require Import base gmap strings numbers list.
From S2P Require Import Prelude CText.
Import Convert.
Open Scope Z_scope.

(** ** Data (include/procmapsarea.h, include/procselfmaps.h) *)

Definition FILENAMESIZE : nat := Z.to_nat 1024.
Definition PROT_READ : Z := 1.
Definition PROT_WRITE : Z := 2.
Definition PROT_EXEC : Z := 4.
Definition MAP_SHARED : Z := 1.
Definition MAP_PRIVATE : Z := 2.
Definition MAP_FIXED : Z := 16.
Definition MAP_ANONYMOUS : Z := 32.

Record ProcMapsArea : Type := mk_Area {
  a_addr : Z; a_endAddr : Z; a_size : Z; a_offset : Z; a_prot : Z; a_flags : Z; a_devmajor : Z; a_devminor : Z;
  a_inodenum : Z; a_mmapFileSize : Z; a_properties : Z; a_name : string }.

Record ProcSelfMaps : Type := mk_Maps { pm_data : string; pm_dataIdx : nat; pm_numAreas : nat }.
#[export] Instance eta_ProcSelfMaps : Settable ProcSelfMaps :=
  {| eta_of s := mk_Maps (pm_data s) (pm_dataIdx s) (pm_numAreas s) |}.

Definition numBytes (s : ProcSelfMaps) : nat := String.length (pm_data s).
Definition unread (s : ProcSelfMaps) : string := str_drop (pm_dataIdx s) (pm_data s).
Definition skip (n : nat) (s : ProcSelfMaps) : ProcSelfMaps := s <| pm_dataIdx := (pm_dataIdx s + n)%nat |>.

Fixpoint count_char (c : ascii) (t : string) : nat :=
  match t with
  | EmptyString => 0
  | String x t' => if Ascii.eqb x c then S (count_char c t') else count_char c t'
  end.

Definition newline : ascii := byte_of 10.

(** The constructor: a first pass measures the text, the second reads what there is then into
    a buffer that is a page larger. *)
Definition ProcSelfMaps_new (first second : string) : option ProcSelfMaps :=
  let size := (String.length first + 4096)%nat in
  let data := str_take size second in
  if (Nat.ltb 0 (String.length data)) && (Nat.ltb (String.length data) size)
  then Some (mk_Maps data 0 (count_char newline data)) else None.

(** ** Reading *)

Definition past_end {S A} : M S A := faultM (OutOfBounds "ProcSelfMaps::data").

(** [data[dataIdx]] and [data[dataIdx++]]. *)
Definition peek : M ProcSelfMaps ascii := fun s =>
  match unread s with String c _ => Ok c s | EmptyString => past_end s end.
Definition getc : M ProcSelfMaps ascii := c ← peek; modify (skip 1);; mret c.

(** [readDec] and [readHex]: the value, modulo 2^64, and the number of characters. *)
Fixpoint read_loop (base : Z) (t : string) (v : Z) (n : nat) : option (Z * nat) :=
  match t with
  | EmptyString => None
  | String c t' =>
      match digit_in base c with
      | Some d => read_loop base t' (to_uint64 (v * base + d)) (S n)
      | None => Some (v, n)
      end
  end.

Definition read_number (base : Z) : M ProcSelfMaps Z := fun s =>
  match read_loop base (unread s) 0 0 with
  | Some (v, n) => Ok v (skip n s)
  | None => past_end s
  end.
Definition readDec : M ProcSelfMaps Z := read_number 10.
Definition readHex : M ProcSelfMaps Z := read_number 16.

(** [sep = data[dataIdx++]; ASSERT(sep == c)]. *)
Definition expect (c : ascii) (what : string) : M ProcSelfMaps unit :=
  sep ← getc; assertM (Ascii.eqb sep c) what.

(** One of the four permission characters: whether it is [yes]. *)
Definition flag (yes no : ascii) (what : string) : M ProcSelfMaps bool :=
  c ← getc; assertM (Ascii.eqb c yes || Ascii.eqb c no) what;; mret (Ascii.eqb c yes).

(** [while (data[dataIdx] == ' ')]. *)
Fixpoint blanks (t : string) (n : nat) : option nat :=
  match t with
  | EmptyString => None
  | String c t' => if Ascii.eqb c " " then blanks t' (S n) else Some n
  end.
Definition skip_blanks : M ProcSelfMaps unit := fun s =>
  match blanks (unread s) 0 with Some n => Ok tt (skip n s) | None => past_end s end.

(** The name, up to the end of the line; the array has [FILENAMESIZE] characters. *)
Fixpoint name_loop (t : string) (i : nat) (acc : string) : fault + (string * nat) :=
  match t with
  | EmptyString => inl (OutOfBounds "ProcSelfMaps::data")
  | String c t' =>
      if Ascii.eqb c newline then inr (acc, i)
      else if Nat.ltb (S i) FILENAMESIZE then name_loop t' (S i) (acc +:+ String c EmptyString)
      else inl (AssertFailed "proc maps entry name is too long")
  end.
Definition read_name : M ProcSelfMaps string := fun s =>
  match name_loop (unread s) 0 EmptyString with
  | inr (name, n) => Ok name (skip n s)
  | inl f => faultM f s
  end.

Definition prot_of (r w x : bool) : Z :=
  Z.lor (Z.lor (if r then PROT_READ else 0) (if w then PROT_WRITE else 0)) (if x then PROT_EXEC else 0).
Definition is_anonymous (name : string) : bool :=
  match name with EmptyString => true | String c _ => Ascii.eqb c NUL || Ascii.eqb c "[" end.
Definition flags_of (shared : bool) (name : string) : Z :=
  Z.lor (Z.lor MAP_FIXED (if shared then MAP_SHARED else MAP_PRIVATE)) (if is_anonymous name then MAP_ANONYMOUS else 0).

(** [dataIdx >= numBytes || data[dataIdx] == 0]. *)
Definition at_end (s : ProcSelfMaps) : bool :=
  match unread s with EmptyString => true | String c _ => Ascii.eqb c NUL end.

(** The body of [getNextArea], which reads one line. *)
Definition read_area : M ProcSelfMaps (option ProcMapsArea) :=
  addr ← readHex;
  assertM (negb (addr =? 0)) "proc maps entry has a null start address";;
  expect "-" "malformed proc maps entry: expected '-'";;
  endAddr ← readHex;
  assertM (negb (endAddr =? 0)) "proc maps entry has a null end address";;
  expect " " "malformed proc maps entry: expected space after end address";;
  assertM (addr <=? endAddr) "proc maps entry has descending address range";;
  r ← flag "r" "-" "invalid read permission";
  w ← flag "w" "-" "invalid write permission";
  x ← flag "x" "-" "invalid execute permission";
  sh ← flag "s" "p" "invalid sharing flag";
  expect " " "malformed proc maps entry: expected space before offset";;
  offset ← readHex;
  expect " " "malformed proc maps entry: expected space after offset";;
  devmajor ← readHex;
  expect ":" "malformed proc maps entry: expected ':' after device major";;
  devminor ← readHex;
  expect " " "malformed proc maps entry: expected space after device minor";;
  inodenum ← readDec;
  skip_blanks;;
  name ← read_name;
  expect newline "malformed proc maps entry: expected newline";;
  mret (Some (mk_Area addr endAddr (endAddr - addr) offset (prot_of r w x) (flags_of sh name) devmajor devminor inodenum (-1) 0 name)).

Definition getNextArea : M ProcSelfMaps (option ProcMapsArea) :=
  e ← gets at_end;
  if (e : bool) then mret None else read_area.

(** [getStackInfo]: the area around a stack frame.  The fuel is one more than the bytes of the text; every
    area takes at least one. *)
Fixpoint stack_loop (fuel : nat) (frame : Z) : M ProcSelfMaps ProcMapsArea :=
  match fuel with
  | O => faultM (Blocked "getStackInfo")
  | S fuel' =>
      a ← getNextArea;
      match (a : option ProcMapsArea) with
      | Some area => if (a_addr area <? frame) && (frame <? a_endAddr area) then mret area else stack_loop fuel' frame
      | None => faultM (AssertFailed "failed to find stack segment")
      end
  end.
Definition getStackInfo (frame : Z) : M ProcSelfMaps ProcMapsArea :=
  i ← gets pm_dataIdx;
  assertM (Nat.eqb i 0) "getStackInfo requires fresh iterator";;
  n ← gets numBytes;
  stack_loop (S n) frame.

(** All areas, the way the callers iterate. *)
Fixpoint all_areas (fuel : nat) : M ProcSelfMaps (list ProcMapsArea) :=
  match fuel with
  | O => faultM (Blocked "getNextArea")
  | S fuel' =>
      a ← getNextArea;
      match (a : option ProcMapsArea) with Some area => rest ← all_areas fuel'; mret (area :: rest) | None => mret [] end
  end.

(** ** What the kernel prints (proc_pid_maps(5)) *)

Record MapsLine : Type := mk_Line {
  l_start : Z; l_end : Z; l_r : bool; l_w : bool; l_x : bool; l_shared : bool; l_offset : Z; l_major : Z; l_minor : Z;
  l_inode : Z; l_pad : nat; l_name : string }.

Definition chr (c : ascii) : string := String c EmptyString.
Definition spaces (n : nat) : string := Nat.iter n (String " ") EmptyString.
Definition flag_char (b : bool) (yes no : ascii) : string := chr (if b then yes else no).

Definition line (l : MapsLine) : string :=
  pad_left 8 (hex_str (l_start l)) +:+ "-" +:+ pad_left 8 (hex_str (l_end l)) +:+ " " +:+
  flag_char (l_r l) "r" "-" +:+ flag_char (l_w l) "w" "-" +:+ flag_char (l_x l) "x" "-" +:+ flag_char (l_shared l) "s" "p" +:+ " " +:+
  pad_left 8 (hex_str (l_offset l)) +:+ " " +:+ pad_left 2 (hex_str (l_major l)) +:+ ":" +:+ pad_left 2 (hex_str (l_minor l)) +:+ " " +:+
  XToString (l_inode l) +:+ spaces (S (l_pad l)) +:+ l_name l +:+ chr newline.

Definition area_of (l : MapsLine) : ProcMapsArea :=
  mk_Area (l_start l) (l_end l) (l_end l - l_start l) (l_offset l) (prot_of (l_r l) (l_w l) (l_x l)) (flags_of (l_shared l) (l_name l))
    (l_major l) (l_minor l) (l_inode l) (-1) 0 (l_name l).

Definition uint64 (v : Z) : Prop := 0 <= v < 2 ^ 64.

(** A mapping is not at address 0 and not empty; line feeds in names are printed as an escape
    sequence. *)
Definition line_ok (l : MapsLine) : Prop :=
  0 < l_start l < l_end l /\ l_end l < 2 ^ 64 /\ uint64 (l_offset l) /\ uint64 (l_major l) /\ uint64 (l_minor l) /\ uint64 (l_inode l) /\
  count_char newline (l_name l) = 0%nat /\ (String.length (l_name l) < FILENAMESIZE)%nat /\
  match l_name l with String c _ => c <> " "%char | EmptyString => True end.

Definition text (ls : list MapsLine) : string := foldr (fun l t => line l +:+ t) EmptyString ls.

(** ** The reader inverts the printer *)

Lemma skip_skip m n s : skip n (skip m s) = skip (m + n) s.
Proof. unfold skip. destruct s. unfold set_field. cbn. by rewrite Nat.add_assoc. Qed.

Lemma skip_0 s : skip 0 s = s.
Proof. unfold skip. destruct s. unfold set_field. cbn. by rewrite Nat.add_0_r. Qed.

Lemma unread_skip s t u : unread s = t +:+ u -> unread (skip (String.length t) s) = u.
Proof. intros H. unfold unread, skip in *. rsimpl. rewrite <- str_drop_drop, H. apply str_drop_app. Qed.

(** [m] returns [a] after reading [t], if what comes next satisfies [follow]. *)
Definition consumes {A} (m : M ProcSelfMaps A) (t : string) (a : A) (follow : string -> Prop) : Prop :=
  forall s u, unread s = t +:+ u -> follow u -> m s = Ok a (skip (String.length t) s).

Lemma consumes_bind {A B} (m : M ProcSelfMaps A) (k : A -> M ProcSelfMaps B) t1 t2 a b (f1 f2 : string -> Prop) :
  consumes m t1 a f1 -> (forall u, f2 u -> f1 (t2 +:+ u)) -> consumes (k a) t2 b f2 -> consumes (m ≫= k) (t1 +:+ t2) b f2.
Proof.
  intros Hm Hf Hk s u Hs Hu. rewrite str_app_assoc in Hs. rewrite (bind_ok m k _ _ _ (Hm s _ Hs (Hf u Hu))).
  rewrite (Hk _ u); [|by apply unread_skip|done]. by rewrite skip_skip, str_app_length.
Qed.

Lemma consumes_bind0 {A B} (m : M ProcSelfMaps A) (k : A -> M ProcSelfMaps B) t a b (f : string -> Prop) :
  (forall s, m s = Ok a s) -> consumes (k a) t b f -> consumes (m ≫= k) t b f.
Proof. intros Hm Hk s u Hs Hu. rewrite (bind_ok m k _ _ _ (Hm s)). by apply (Hk s u). Qed.

Lemma consumes_ret {A} (a : A) : consumes (mret a) EmptyString a (fun _ => True).
Proof. intros s u _ _. cbn. by rewrite skip_0. Qed.

Definition any (u : string) : Prop := True.
Definition nondigit (base : Z) (u : string) : Prop := match u with String c _ => digit_in base c = None | EmptyString => False end.
Definition nonblank (u : string) : Prop := match u with String c _ => c <> " "%char | EmptyString => False end.
Definition at_newline (u : string) : Prop := match u with String c _ => c = newline | EmptyString => False end.

Lemma getc_consumes c : consumes getc (chr c) c any.
Proof.
  intros s u Hs _. unfold getc, peek. unfold mbind, M_bind. rewrite Hs. cbn. reflexivity.
Qed.

Lemma expect_consumes c what : consumes (expect c what) (chr c) tt any.
Proof.
  intros s u Hs Hu. unfold expect. rewrite (bind_ok getc _ _ _ _ (getc_consumes c s u Hs Hu)). by rewrite Ascii.eqb_refl.
Qed.

Lemma flag_consumes b yes no what : yes <> no -> consumes (flag yes no what) (flag_char b yes no) b any.
Proof.
  intros Hne s u Hs Hu. unfold flag, flag_char in *. rewrite (bind_ok getc _ _ _ _ (getc_consumes _ s u Hs Hu)).
  destruct b; rewrite Ascii.eqb_refl; [done|]. rewrite orb_true_r. cbn. by rewrite (proj2 (Ascii.eqb_neq no yes)) by congruence.
Qed.

Lemma digit_in_range base c d : digit_in base c = Some d -> 0 <= d < base.
Proof.
  assert (Hk : forall lo hi k, (lo <=? byte_val c) && (byte_val c <=? hi) = true -> k <= lo ->
    (if byte_val c - k <? base then Some (byte_val c - k) else None) = Some d -> 0 <= d < base).
  { intros lo hi k H1 Hk. apply andb_prop in H1 as [H1 _]. apply Z.leb_le in H1. destruct (Z.ltb_spec (byte_val c - k) base); intros [= <-]. lia. }
  unfold digit_in, digit_value. cbv zeta. destruct ((48 <=? _) && _) eqn:H1; [by apply (Hk 48 57 48)|].
  destruct ((97 <=? _) && _) eqn:H2; [apply (Hk 97 122 87); [done|lia]|]. destruct ((65 <=? _) && _) eqn:H3; [apply (Hk 65 90 55); [done|lia]|done].
Qed.

Lemma scan_digits_ge base t acc seen v seen' r : 1 <= base -> 0 <= acc -> scan_digits base t acc seen = (v, seen', r) -> acc <= v.
Proof.
  intros Hb. revert acc seen. induction t as [|c t IH]; intros acc seen Ha; cbn; [by intros [= <- _ _]|].
  destruct (digit_in base c) as [d|] eqn:Hd; [|by intros [= <- _ _]]. apply digit_in_range in Hd. intros H. apply IH in H; nia.
Qed.

Lemma read_loop_scan base t u acc seen v seen' n : 1 <= base -> 0 <= acc -> v < 2 ^ 64 -> nondigit base u ->
  scan_digits base t acc seen = (v, seen', EmptyString) -> read_loop base (t +:+ u) acc n = Some (v, (n + String.length t)%nat).
Proof.
  intros Hb Ha Hv Hu. revert acc seen n Ha. induction t as [|c t IH]; intros acc seen n Ha; cbn [scan_digits].
  - intros [= <- _]. rewrite str_app_nil_l. cbn. destruct u as [|c u]; [done|]. cbn in Hu |- *. rewrite Hu. by rewrite Nat.add_0_r.
  - destruct (digit_in base c) as [d|] eqn:Hd; [|done]. intros H. rewrite str_app_cons. cbn [read_loop String.length]. rewrite Hd.
    pose proof (digit_in_range base c d Hd). assert (0 <= acc * base + d) as Hnn by nia.
    pose proof (scan_digits_ge base t _ _ _ _ _ Hb Hnn H). unfold to_uint64. rewrite wrap_u_small by (split; [done|lia]). rewrite (IH _ _ _ Hnn H). by rewrite Nat.add_succ_r.
Qed.

Lemma scan_pad base w t v : 2 <= base <= 16 -> scan_digits base t 0 false = (v, true, EmptyString) ->
  exists b, scan_digits base (pad_left w t) 0 false = (v, b, EmptyString).
Proof.
  intros Hb H. unfold pad_left. generalize (w - String.length t)%nat as k. intros k.
  assert (Hz : forall b, scan_digits base t 0 b = (v, true, EmptyString)).
  { intros b. destruct t as [|c t]; [by cbn in H; congruence|]. cbn in H |- *. by destruct (digit_in base c). }
  enough (forall b, scan_digits base (String.concat EmptyString (replicate k "0") +:+ t) 0 b = (v, true, EmptyString)) by eauto.
  induction k as [|k IH]; intros b; [apply Hz|].
  assert (String.concat EmptyString (replicate (S k) "0") = String "0" (String.concat EmptyString (replicate k "0"))) as -> by (by destruct k).
  rewrite str_app_cons. cbn [scan_digits]. assert (digit_in base "0" = Some 0) as -> by (change "0"%char with (digit_char 0); apply digit_in_char; lia).
  apply IH.
Qed.

Lemma number_consumes base t v b : 1 <= base -> v < 2 ^ 64 -> scan_digits base t 0 false = (v, b, EmptyString) ->
  consumes (read_number base) t v (nondigit base).
Proof.
  intros Hb Hv H s u Hs Hu. unfold read_number. rewrite Hs, (read_loop_scan base t u 0 false v b 0) by (done || lia). done.
Qed.

Lemma hex_consumes w v : uint64 v -> consumes readHex (pad_left w (hex_str v)) v (nondigit 16).
Proof.
  intros Hv. destruct (scan_pad 16 w (hex_str v) v) as [b Hb]; [lia|apply scan_digits_digits; unfold uint64 in Hv; lia|].
  apply (number_consumes 16 _ _ b); [lia|apply Hv|done].
Qed.

Lemma dec_consumes v : uint64 v -> consumes readDec (XToString v) v (nondigit 10).
Proof.
  intros Hv. unfold XToString. destruct (Z.ltb_spec v 0); [unfold uint64 in Hv; lia|].
  apply (number_consumes 10 _ _ true); [lia|apply Hv|]. apply scan_digits_digits; lia.
Qed.

Lemma blanks_spaces k u n : nonblank u -> blanks (spaces k +:+ u) n = Some (n + k)%nat.
Proof.
  intros Hu. revert n. induction k as [|k IH]; intros n.
  - rewrite Nat.add_0_r. destruct u as [|c u]; [done|]. change (spaces 0 +:+ String c u) with (String c u). cbn. cbn in Hu.
    by rewrite (proj2 (Ascii.eqb_neq _ _)).
  - change (spaces (S k) +:+ u) with (String " " (spaces k +:+ u)). cbn [blanks Ascii.eqb]. cbn. rewrite IH. by rewrite Nat.add_succ_r.
Qed.

Lemma spaces_length k : String.length (spaces k) = k.
Proof. induction k as [|k IH]; [done|]. change (spaces (S k)) with (String " " (spaces k)). cbn. by rewrite IH. Qed.

Lemma blanks_consumes k : consumes skip_blanks (spaces k) tt nonblank.
Proof. intros s u Hs Hu. unfold skip_blanks. by rewrite Hs, blanks_spaces, spaces_length. Qed.

Lemma name_loop_spec t u i acc : count_char newline t = 0%nat -> (i + String.length t < FILENAMESIZE)%nat -> at_newline u ->
  name_loop (t +:+ u) i acc = inr (acc +:+ t, (i + String.length t)%nat).
Proof.
  intros Hc Hl Hu. revert i acc Hl. induction t as [|c t IH]; intros i acc Hl.
  - rewrite str_app_nil_l, str_app_nil_r, Nat.add_0_r. destruct u as [|c u]; [done|]. cbn in Hu |- *. by rewrite Hu, Ascii.eqb_refl.
  - rewrite str_app_cons. cbn [name_loop count_char String.length] in *. destruct (Ascii.eqb c newline); [done|].
    destruct (Nat.ltb_spec (S i) FILENAMESIZE); [|lia]. rewrite IH by (done || lia). rewrite str_app_assoc. by rewrite Nat.add_succ_r.
Qed.

Lemma name_consumes t : count_char newline t = 0%nat -> (String.length t < FILENAMESIZE)%nat -> consumes read_name t t at_newline.
Proof. intros Hc Hl s u Hs Hu. unfold read_name. rewrite Hs, (name_loop_spec t u 0) by done. done. Qed.

Lemma consumes_weaken {A} (m : M ProcSelfMaps A) t a (f g : string -> Prop) : consumes m t a f -> (forall u, g u -> f u) -> consumes m t a g.
Proof. intros H Hw s u Hs Hu. apply (H s u Hs), Hw, Hu. Qed.

(** One step along the line: what is read, what must follow. *)
Ltac eat lem := eapply consumes_bind; [lem| |cbv beta].
Ltac follows := intros ? _; rewrite ?str_app_cons; (exact Logic.I || reflexivity || idtac).

Lemma at_end_line l u s : line_ok l -> unread s = line l +:+ u -> at_end s = false.
Proof.
  intros (Hs & He & _) Hu. unfold line in Hu. rewrite str_app_assoc in Hu.
  assert (Hr : readHex s = Ok (l_start l) (skip (String.length (pad_left 8 (hex_str (l_start l)))) s)).
  { eapply hex_consumes; [unfold uint64; lia|exact Hu|reflexivity]. }
  unfold readHex, read_number in Hr. unfold at_end. destruct (unread s) as [|c t]; [done|].
  destruct (Ascii.eqb_spec c NUL) as [->|]; [|done]. cbn in Hr. injection Hr as Hv _. lia.
Qed.

Lemma consumes_assert {B} (b : bool) what (k : unit -> M ProcSelfMaps B) t r (f : string -> Prop) :
  b = true -> consumes (k tt) t r f -> consumes (assertM b what ≫= k) t r f.
Proof. intros ->. by apply (consumes_bind0 (mret tt)). Qed.

Lemma read_area_line l : line_ok l -> consumes read_area (line l) (Some (area_of l)) any.
Proof.
  intros (Hse & He & Ho & Hmaj & Hmin & Hino & Hnl & Hlen & Hsp). unfold line, read_area.
  assert (Hst : uint64 (l_start l)) by (unfold uint64; lia). assert (Hen : uint64 (l_end l)) by (unfold uint64; lia).
  eat ltac:(apply hex_consumes; exact Hst); [follows|].
  apply consumes_assert; [destruct (Z.eqb_spec (l_start l) 0); [lia|done]|].
  eat ltac:(apply (expect_consumes "-")); [follows|]. eat ltac:(apply hex_consumes; exact Hen); [follows|].
  apply consumes_assert; [destruct (Z.eqb_spec (l_end l) 0); [lia|done]|].
  eat ltac:(apply (expect_consumes " ")); [follows|]. apply consumes_assert; [apply Z.leb_le; lia|].
  do 4 (eat ltac:(by apply flag_consumes); [follows|]).
  eat ltac:(apply (expect_consumes " ")); [follows|]. eat ltac:(apply hex_consumes; exact Ho); [follows|].
  eat ltac:(apply (expect_consumes " ")); [follows|]. eat ltac:(apply hex_consumes; exact Hmaj); [follows|].
  eat ltac:(apply (expect_consumes ":")); [follows|]. eat ltac:(apply hex_consumes; exact Hmin); [follows|].
  eat ltac:(apply (expect_consumes " ")); [follows|]. eat ltac:(apply dec_consumes; exact Hino); [follows|].
  eat ltac:(apply blanks_consumes).
  { intros u _. destruct (l_name l) as [|c t]; [done|]. rewrite !str_app_cons. exact Hsp. }
  eat ltac:(by apply name_consumes); [follows|]. rewrite <- (str_app_nil_r (chr newline)).
  eat ltac:(apply expect_consumes); [follows|]. apply consumes_ret.
Qed.

Lemma getNextArea_line l : line_ok l -> consumes getNextArea (line l) (Some (area_of l)) any.
Proof.
  intros Hok s u Hs Hu. unfold getNextArea, mbind, M_bind. cbn [gets]. rewrite (at_end_line l u s Hok Hs).
  by apply (read_area_line l Hok s u).
Qed.

Lemma all_areas_text ls : Forall line_ok ls -> forall fuel s, unread s = text ls -> (length ls < fuel)%nat ->
  all_areas fuel s = Ok (area_of <$> ls) (skip (String.length (text ls)) s).
Proof.
  induction 1 as [|l ls Hl _ IH]; intros fuel s Hs Hf; (destruct fuel as [|fuel]; [cbn in Hf; lia|]); cbn [all_areas].
  - unfold getNextArea, mbind, M_bind. cbn [gets]. unfold at_end. rewrite Hs. cbn. by rewrite skip_0.
  - cbn [text foldr] in *. rewrite (bind_ok _ _ _ _ _ (getNextArea_line l Hl s _ Hs Logic.I)). cbv beta iota.
    erewrite bind_ok; [|apply IH; [by apply unread_skip|cbn in Hf; lia]]. by rewrite skip_skip, str_app_length.
Qed.

Definition inside (frame : Z) (a : ProcMapsArea) : bool := (a_addr a <? frame) && (frame <? a_endAddr a).

Lemma stack_loop_text ls frame : Forall line_ok ls -> forall fuel s, unread s = text ls -> (length ls < fuel)%nat ->
  match find (inside frame) (area_of <$> ls) with
  | Some a => exists s', stack_loop fuel frame s = Ok a s'
  | None => exists what s', stack_loop fuel frame s = Fault (AssertFailed what) s'
  end.
Proof.
  induction 1 as [|l ls Hl _ IH]; intros fuel s Hs Hf; (destruct fuel as [|fuel]; [cbn in Hf; lia|]); cbn [stack_loop fmap list_fmap find].
  - unfold getNextArea, mbind, M_bind. cbn [gets]. unfold at_end. rewrite Hs. cbn. by eexists _, _.
  - cbn [text foldr] in *. rewrite (bind_ok _ _ _ _ _ (getNextArea_line l Hl s _ Hs Logic.I)). cbv beta iota.
    fold (inside frame (area_of l)). destruct (inside frame (area_of l)); [by eexists|]. apply IH; [by apply unread_skip|cbn in Hf; lia].
Qed.

Lemma count_app c t u : count_char c (t +:+ u) = (count_char c t + count_char c u)%nat.
Proof. induction t as [|x t IH]; [done|]. rewrite str_app_cons. cbn. rewrite IH. by destruct (Ascii.eqb x c). Qed.

Lemma count_scan base t acc seen v b : scan_digits base t acc seen = (v, b, EmptyString) -> count_char newline t = 0%nat.
Proof.
  revert acc seen. induction t as [|c t IH]; intros acc seen; [done|]. cbn [scan_digits count_char].
  destruct (digit_in base c) as [d|] eqn:Hd; [|done]. intros H. apply IH in H.
  destruct (Ascii.eqb_spec c newline) as [->|]; [|done]. by vm_compute in Hd.
Qed.

Lemma count_hex w v : uint64 v -> count_char newline (pad_left w (hex_str v)) = 0%nat.
Proof.
  intros Hv. destruct (scan_pad 16 w (hex_str v) v) as [b Hb]; [lia|apply scan_digits_digits; unfold uint64 in Hv; lia|].
  by eapply count_scan.
Qed.

Lemma count_spaces k : count_char newline (spaces k) = 0%nat.
Proof. by induction k. Qed.

Lemma count_line l : line_ok l -> count_char newline (line l) = 1%nat.
Proof.
  intros (Hse & He & Ho & Hmaj & Hmin & Hino & Hnl & _). unfold line. rewrite !count_app, !count_hex, count_spaces, Hnl by (done || unfold uint64; lia).
  assert (count_char newline (XToString (l_inode l)) = 0%nat) as ->.
  { unfold XToString. destruct (Z.ltb_spec (l_inode l) 0); [unfold uint64 in Hino; lia|].
    eapply count_scan, scan_digits_digits; lia. }
  by destruct (l_r l), (l_w l), (l_x l), (l_shared l).
Qed.

Lemma count_text ls : Forall line_ok ls -> count_char newline (text ls) = length ls.
Proof. induction 1 as [|l ls Hl _ IH]; [done|]. change (text (l :: ls)) with (line l +:+ text ls). by rewrite count_app, count_line, IH. Qed.

(** C24: what the kernel prints for the mappings of a process - any number of areas, any padding before the
    names - is read back by [ProcSelfMaps] as exactly those areas in order, with the number of areas, sizes, protections and flags
    they have, if the text did not grow by a page or more between the two readings; [getStackInfo] finds the first area
    around the frame, and fails if there is none. *)
Theorem maps_text_roundtrip first ls frame : ls <> [] -> Forall line_ok ls -> (String.length (text ls) < String.length first + 4096)%nat ->
  exists s, ProcSelfMaps_new first (text ls) = Some s /\ pm_numAreas s = length ls /\
    all_areas (S (numBytes s)) s = Ok (area_of <$> ls) (skip (numBytes s) s) /\
    match find (inside frame) (area_of <$> ls) with
    | Some a => exists s', getStackInfo frame s = Ok a s'
    | None => exists what s', getStackInfo frame s = Fault (AssertFailed what) s'
    end.
Proof.
  intros Hne Hls Hsize. exists (mk_Maps (text ls) 0 (length ls)).
  assert (Hlen : (length ls <= String.length (text ls))%nat).
  { clear -Hls. induction Hls as [|l ls Hl _ IH]; [done|]. change (text (l :: ls)) with (line l +:+ text ls). cbn [length]. rewrite str_app_length.
    enough (0 < String.length (line l))%nat by lia. pose proof (count_line l Hl) as Hc. destruct (line l); [done|]. cbn. lia. }
  split_and!.
  - unfold ProcSelfMaps_new. cbv zeta. rewrite str_take_all by lia. rewrite count_text by done.
    destruct (Nat.ltb_spec 0 (String.length (text ls))); [|destruct ls; [done|cbn [length] in *; lia]].
    by destruct (Nat.ltb_spec (String.length (text ls)) (String.length first + 4096)); [|lia].
  - done.
  - unfold numBytes. cbn [pm_data]. apply (all_areas_text ls Hls); [done|lia].
  - unfold getStackInfo, numBytes, mbind, M_bind. cbn [gets assertM pm_dataIdx Nat.eqb pm_data mret M_ret].
    apply (stack_loop_text ls frame Hls); [done|lia].
Qed.

Definition example_lines : list MapsLine :=
  [ mk_Line 4194304 4198400 true false true false 0 8 1 1234 10 "/usr/bin/true";
    mk_Line 140737488330752 140737488351232 true true false false 0 0 0 0 0 "[stack]";
    mk_Line 140737488351232 140737488355328 true true false true 4096 0 5 77 0 EmptyString ].

Lemma maps_text_roundtrip_witness : exists s, ProcSelfMaps_new (text example_lines) (text example_lines) = Some s /\ pm_numAreas s = 3%nat /\
  exists s', getStackInfo 140737488330800 s = Ok (area_of (mk_Line 140737488330752 140737488351232 true true false false 0 0 0 0 0 "[stack]")) s'.
Proof.
  destruct (maps_text_roundtrip (text example_lines) example_lines 140737488330800) as (s & Hnew & Hn & _ & Hst).
  - discriminate.
  - repeat constructor; try (vm_compute; congruence); vm_compute; lia.
  - vm_compute. lia.
  - exists s. split_and!; [done|done|]. exact Hst.
Defined.

(** ** Arbitrary text: the reader stays inside it *)

Fixpoint ends_nl (t : string) : Prop :=
  match t with
  | EmptyString => False
  | String c EmptyString => c = newline
  | String _ t' => ends_nl t'
  end.

(** The rest of the text is not empty and ends with a line feed. *)
Definition N (s : ProcSelfMaps) : Prop := ends_nl (unread s).
(** The rest of the text is empty or ends with a line feed. *)
Definition N0 (s : ProcSelfMaps) : Prop := unread s = EmptyString \/ N s.

Definition forward (k : nat) (s s' : ProcSelfMaps) : Prop :=
  pm_data s' = pm_data s /\ (pm_dataIdx s + k <= pm_dataIdx s' <= Nat.max (pm_dataIdx s) (numBytes s))%nat.

(** [m], started in the text, either fails an assertion or moves at least [k] bytes forward and ends in [Q]. *)
Definition stays {A} (k : nat) (m : M ProcSelfMaps A) (Q : A -> ProcSelfMaps -> Prop) : Prop :=
  forall s, N s -> match m s with
  | Ok a s' => Q a s' /\ forward k s s'
  | Fault (AssertFailed _) _ => True
  | _ => False
  end.

Lemma forward_trans k l s1 s2 s3 : forward k s1 s2 -> forward l s2 s3 -> forward (k + l) s1 s3.
Proof. unfold forward, numBytes. intros [H1 H2] [H3 H4]. rewrite H1 in *. split; [congruence|lia]. Qed.

Lemma forward_weaken k s s' : forward k s s' -> forward 0 s s'.
Proof. intros [H1 H2]. split; [done|lia]. Qed.

Lemma stays_bind {A B} k l (m : M ProcSelfMaps A) (f : A -> M ProcSelfMaps B) (P : A -> Prop) Q :
  stays k m (fun a s => P a /\ N s) -> (forall a, P a -> stays l (f a) Q) -> stays (k + l) (m ≫= f) Q.
Proof.
  intros Hm Hf s Hs. specialize (Hm s Hs). unfold mbind, M_bind. destruct (m s) as [a s1|c s1|fl s1]; [|done|by destruct fl].
  destruct Hm as [[Ha Hs1] Hf1]. specialize (Hf a Ha s1 Hs1). destruct (f a s1) as [b s2|c s2|fl s2]; [|done|by destruct fl].
  destruct Hf as [HQ Hf2]. split; [done|by eapply forward_trans].
Qed.

Lemma stays_assert {B} l (b : bool) what (f : unit -> M ProcSelfMaps B) Q :
  (b = true -> stays l (f tt) Q) -> stays l (assertM b what ≫= f) Q.
Proof. intros Hf s Hs. destruct b; [by apply Hf|done]. Qed.

Lemma ends_nl_drop n t : (n < String.length t)%nat -> ends_nl t -> ends_nl (str_drop n t).
Proof.
  revert t. induction n as [|n IH]; intros [|c t] Hn Ht; try done; cbn in Hn; try lia. cbn [str_drop].
  apply IH; [lia|]. destruct t; [cbn in Hn; lia|done].
Qed.

Lemma skip_N n s : N s -> (n < String.length (unread s))%nat -> N (skip n s) /\ forward n s (skip n s).
Proof.
  intros Hs Hn. split.
  - unfold N, unread, skip in *. rsimpl. rewrite <- str_drop_drop. by apply ends_nl_drop.
  - unfold forward, skip, unread, numBytes in *. rsimpl. rewrite str_drop_length in Hn. split; [done|lia].
Qed.

Lemma skip_N0 n s : N s -> (n <= String.length (unread s))%nat -> N0 (skip n s) /\ forward n s (skip n s).
Proof.
  intros Hs Hn. destruct (decide (n = String.length (unread s))) as [->|Hne].
  - split.
    + left. unfold unread at 1, skip. rsimpl. rewrite <- str_drop_drop. fold (unread s). generalize (unread s) as t. by induction t.
    + unfold forward, skip, unread, numBytes in *. rsimpl. rewrite str_drop_length in *. split; [done|lia].
  - destruct (skip_N n s Hs) as [H1 H2]; [lia|]. split; [by right|done].
Qed.

Lemma ends_nl_cons c t : ends_nl (String c t) -> c <> newline -> ends_nl t.
Proof. destruct t; [by intros ->|done]. Qed.

Lemma read_loop_in base t v n : base = 16 \/ base = 10 -> ends_nl t -> 0 <= v < 2 ^ 64 ->
  exists v' k, read_loop base t v n = Some (v', (n + k)%nat) /\ (k < String.length t)%nat /\ uint64 v'.
Proof.
  intros Hb. revert v n. induction t as [|c t IH]; intros v n Ht Hv; [done|]. cbn [read_loop String.length].
  destruct (digit_in base c) as [d|] eqn:Hd.
  - assert (c <> newline) as Hc. { intros ->. by destruct Hb as [-> | ->]; vm_compute in Hd. }
    destruct (IH (to_uint64 (v * base + d)) (S n) (ends_nl_cons c t Ht Hc)) as (v' & k & -> & Hk & Hv'); [apply wrap_u_range; lia|].
    exists v', (S k). rewrite Nat.add_succ_r. split_and!; [done|lia|apply Hv'..].
  - exists v, 0%nat. rewrite Nat.add_0_r. split_and!; [done|lia|apply Hv..].
Qed.

Lemma number_stays base : base = 16 \/ base = 10 -> stays 0 (read_number base) (fun v s => uint64 v /\ N s).
Proof.
  intros Hb s Hs. unfold read_number. destruct (read_loop_in base (unread s) 0 0 Hb Hs) as (v & k & -> & Hk & Hv); [done|].
  destruct (skip_N k s Hs Hk) as [H1 H2]. split; [done|]. exact (forward_weaken _ _ _ H2).
Qed.

Lemma getc_stays (c : ascii) : c <> newline -> stays 1 getc (fun x s => x = c -> N s).
Proof.
  intros Hc s Hs. unfold getc, peek, mbind, M_bind. pose proof Hs as Hs'. unfold N in Hs'. destruct (unread s) as [|x t] eqn:Hu; [done|]. cbn.
  split; [|].
  - intros ->. apply skip_N; [done|]. rewrite Hu. cbn. destruct t; [by cbn in Hs'; subst|cbn; lia].
  - apply skip_N0; [done|]. rewrite Hu. cbn. lia.
Qed.

Lemma expect_stays c what : c <> newline -> stays 1 (expect c what) (fun _ s => N s).
Proof.
  intros Hc s Hs. unfold expect. pose proof (getc_stays c Hc s Hs) as H. unfold mbind, M_bind.
  destruct (getc s) as [x s1|?|fl ?]; [|done|by destruct fl]. destruct H as [H1 H2].
  destruct (Ascii.eqb_spec x c); [|done]. cbn. auto.
Qed.

Lemma flag_stays yes no what : yes <> newline -> no <> newline -> stays 1 (flag yes no what) (fun _ s => N s).
Proof.
  intros Hy Hn s Hs. unfold flag. pose proof (getc_stays yes Hy s Hs) as H. pose proof (getc_stays no Hn s Hs) as H'. unfold mbind, M_bind.
  destruct (getc s) as [x s1|?|fl ?]; [|done|by destruct fl]. destruct H as [H1 H2], H' as [H1' _].
  destruct (Ascii.eqb_spec x yes) as [->|]; [by cbn; auto|]. destruct (Ascii.eqb_spec x no) as [->|]; [by cbn; auto|done].
Qed.

Lemma newline_stays what : stays 1 (expect newline what) (fun _ s => N0 s).
Proof.
  intros s Hs. unfold expect, getc, peek, mbind, M_bind. pose proof Hs as Hs'. unfold N in Hs'. destruct (unread s) as [|x t] eqn:Hu; [done|]. cbn.
  destruct (Ascii.eqb_spec x newline); [|done]. cbn. apply skip_N0; [done|]. rewrite Hu. cbn. lia.
Qed.

Lemma blanks_in t n : ends_nl t -> exists k, blanks t n = Some (n + k)%nat /\ (k < String.length t)%nat.
Proof.
  revert n. induction t as [|c t IH]; intros n Ht; [done|]. cbn [blanks String.length]. destruct (Ascii.eqb_spec c " ") as [->|].
  - destruct (IH (S n) (ends_nl_cons _ t Ht ltac:(discriminate))) as (k & -> & Hk). exists (S k). rewrite Nat.add_succ_r. split; [done|lia].
  - exists 0%nat. rewrite Nat.add_0_r. split; [done|lia].
Qed.

Lemma blanks_stays : stays 0 skip_blanks (fun _ s => N s).
Proof.
  intros s Hs. unfold skip_blanks. destruct (blanks_in (unread s) 0 Hs) as (k & -> & Hk).
  destruct (skip_N k s Hs Hk) as [H1 H2]. split; [done|]. exact (forward_weaken _ _ _ H2).
Qed.

Lemma name_loop_in t i acc : ends_nl t -> (i < FILENAMESIZE)%nat -> String.length acc = i ->
  match name_loop t i acc with
  | inr (name, n) => (String.length name < FILENAMESIZE)%nat /\ (i <= n)%nat /\ (n - i < String.length t)%nat
  | inl (AssertFailed _) => True
  | inl _ => False
  end.
Proof.
  revert i acc. induction t as [|c t IH]; intros i acc Ht Hi Ha; [done|]. cbn [name_loop].
  destruct (Ascii.eqb_spec c newline) as [->|Hc]; [cbn; split_and!; lia|]. destruct (Nat.ltb_spec (S i) FILENAMESIZE) as [Hs|]; [|done].
  specialize (IH (S i) (acc +:+ String c EmptyString) (ends_nl_cons c t Ht Hc) Hs). rewrite str_app_length in IH. cbn in IH.
  specialize (IH ltac:(lia)). destruct (name_loop _ _ _) as [f|[name n]]; [done|]. cbn. split_and!; [apply IH|lia|lia].
Qed.

Lemma name_stays : stays 0 read_name (fun name s => (String.length name < FILENAMESIZE)%nat /\ N s).
Proof.
  intros s Hs. unfold read_name. pose proof (name_loop_in (unread s) 0 EmptyString Hs ltac:(unfold FILENAMESIZE; lia) eq_refl) as H.
  destruct (name_loop _ _ _) as [f|[name n]]; [by destruct f|]. destruct H as (H1 & _ & H3).
  destruct (skip_N n s Hs) as [H4 H5]; [lia|]. split; [done|]. exact (forward_weaken _ _ _ H5).
Qed.

Lemma stays_seq {A B} k l (m : M ProcSelfMaps A) (f : A -> M ProcSelfMaps B) Q :
  stays k m (fun _ s => N s) -> (forall a, stays l (f a) Q) -> stays (k + l) (m ≫= f) Q.
Proof.
  intros Hm Hf. apply (stays_bind k l m f (fun _ => True)); [|by intros a _].
  intros s Hs. specialize (Hm s Hs). destruct (m s) as [a s1|c s1|fl s1]; [|done|by destruct fl]. by destruct Hm.
Qed.

Definition area_ok (a : ProcMapsArea) : Prop :=
  0 < a_addr a <= a_endAddr a /\ a_endAddr a < 2 ^ 64 /\ a_size a = a_endAddr a - a_addr a /\
  uint64 (a_offset a) /\ uint64 (a_devmajor a) /\ uint64 (a_devminor a) /\ uint64 (a_inodenum a) /\
  (String.length (a_name a) < FILENAMESIZE)%nat.

Ltac stay lem := eapply stays_bind; [lem|cbv beta; intros ? ?].
Ltac stay_seq lem := eapply stays_seq; [lem|cbv beta; intros ?].

(** Reading a line moves the index forward. *)
Lemma read_area_stays : exists k, stays (S k) read_area (fun r s => N0 s /\ exists a, r = Some a /\ area_ok a).
Proof.
  assert (Hex : forall k Q, stays k read_area Q -> (0 < k)%nat -> exists k, stays (S k) read_area Q).
  { intros [|k] Q H Hk; [lia|by exists k]. }
  eapply Hex.
  - unfold read_area. stay ltac:(apply number_stays; by left). apply stays_assert. intros Hnz.
    stay_seq ltac:(by apply expect_stays). stay ltac:(apply number_stays; by left). apply stays_assert. intros _.
    stay_seq ltac:(by apply expect_stays). apply stays_assert. intros Hle.
    do 4 (stay_seq ltac:(by apply flag_stays)). stay_seq ltac:(by apply expect_stays).
    stay ltac:(apply number_stays; by left). stay_seq ltac:(by apply expect_stays).
    stay ltac:(apply number_stays; by left). stay_seq ltac:(by apply expect_stays).
    stay ltac:(apply number_stays; by left). stay_seq ltac:(by apply expect_stays).
    stay ltac:(apply number_stays; by right). stay_seq ltac:(apply blanks_stays). stay ltac:(apply name_stays).
    intros s Hs. pose proof (newline_stays "malformed proc maps entry: expected newline" s Hs) as Hn.
    unfold mbind, M_bind. destruct (expect newline _ s) as [u s1|c s1|fl s1]; [|done|by destruct fl]. destruct Hn as [Hn Hf].
    split; [|exact Hf]. split; [exact Hn|]. eexists. split; [reflexivity|]. unfold area_ok, uint64 in *. cbn.
    apply negb_true_iff, Z.eqb_neq in Hnz. apply Z.leb_le in Hle. split_and!; try done; lia.
  - lia.
Qed.

Lemma getNextArea_stays s : N0 s -> match getNextArea s with
  | Ok None s' => s' = s
  | Ok (Some a) s' => area_ok a /\ N0 s' /\ forward 1 s s'
  | Fault (AssertFailed _) _ => True
  | _ => False
  end.
Proof.
  intros Hs. unfold getNextArea, mbind, M_bind. cbn [gets]. destruct (at_end s) eqn:He; [done|].
  destruct Hs as [Hs|Hs]; [unfold at_end in He; by rewrite Hs in He|]. destruct read_area_stays as [k Hk]. specialize (Hk s Hs).
  destruct (read_area s) as [r s1|c s1|fl s1]; [|done|by destruct fl]. destruct Hk as [[Hn (a & -> & Ha)] Hf].
  split_and!; [done..|]. unfold forward in *. destruct Hf. split; [done|lia].
Qed.

Lemma all_areas_stays fuel : forall s, N0 s -> (numBytes s - pm_dataIdx s < fuel)%nat -> match all_areas fuel s with
  | Ok areas s' => Forall area_ok areas /\ forward 0 s s'
  | Fault (AssertFailed _) _ => True
  | _ => False
  end.
Proof.
  induction fuel as [|fuel IH]; intros s Hs Hf; [lia|]. cbn [all_areas]. pose proof (getNextArea_stays s Hs) as Hg. unfold mbind, M_bind.
  destruct (getNextArea s) as [[a|] s1|c s1|fl s1]; [| |done|by destruct fl].
  - destruct Hg as (Ha & Hn & Hfw). assert (Hlt : (numBytes s1 - pm_dataIdx s1 < fuel)%nat).
    { unfold forward, numBytes in *. destruct Hfw as [-> Hi]. lia. }
    specialize (IH s1 Hn Hlt). destruct (all_areas fuel s1) as [l s2|c s2|fl s2]; [|done|by destruct fl]. cbn.
    destruct IH as [Hl Hf2]. split; [by constructor|]. exact (forward_weaken _ _ _ (forward_trans _ _ _ _ _ Hfw Hf2)).
  - cbn. subst. split; [done|]. unfold forward. split; [done|lia].
Qed.

(** C23: whatever the text is, if it ends with a line feed then reading all its areas terminates, never reads behind the
    end of the text and never writes outside the name array: it either fails an assertion or returns areas with an ascending range
    of 64-bit addresses, the size of that range, and a name that fits with its terminating zero. *)
Theorem maps_read_in_bounds data n : ends_nl data ->
  match all_areas (S (String.length data)) (mk_Maps data 0 n) with
  | Ok areas s' => Forall area_ok areas /\ pm_data s' = data /\ (pm_dataIdx s' <= String.length data)%nat
  | Fault (AssertFailed _) _ => True
  | _ => False
  end.
Proof.
  intros Hd. pose proof (all_areas_stays (S (String.length data)) (mk_Maps data 0 n)) as H.
  destruct (all_areas _ _) as [l s'|c s'|fl s']; [|apply H; [by right|unfold numBytes; cbn; lia]..].
  destruct H as [Hl [H1 H2]]; [by right|unfold numBytes; cbn; lia|]. unfold numBytes in H2. cbn in *. split_and!; [done..|lia].
Qed.

(** A line whose range descends: it is read up to the end of its addresses, where an assertion fails. *)
Definition descending_line : string := "1000-800 rw-p 0 0:0 0" +:+ chr newline.

Lemma maps_read_in_bounds_witness : ends_nl descending_line /\
  match all_areas (S (String.length descending_line)) (mk_Maps descending_line 0 1) with
  | Ok areas s' => Forall area_ok areas /\ pm_data s' = descending_line /\ (pm_dataIdx s' <= String.length descending_line)%nat
  | Fault (AssertFailed _) _ => True
  | _ => False
  end.
Proof. split; [vm_compute; reflexivity|]. apply maps_read_in_bounds. vm_compute. reflexivity. Defined.
