(* ===== verification/PageScan.v ===== *)
(** * The memory of a process and the page scans of src/util_misc.cpp

    [Memory] is what the kernel keeps for an address space, byte by byte: what a mapping holds, what it would
    hold again after its page is dropped, which pages are resident, which are guard pages, and the
    protection.  On it: [areZeroPages], which reads the contents in groups of eight words,
    and [scanOccupiedRangeBatch] and [scanNextGuardRange], which ask the kernel (the
    PAGEMAP_SCAN ioctl, or reads of /proc/self/pagemap) and touch no page. *)

From Stdlib Require Import ZArith Lia.
From stdpp Require Import base gmap strings numbers list.
From S2P Require Import Prelude.
Open Scope Z_scope.

(** ** The memory *)

Definition PAGE : Z := 4096.
Definition page_of (a : Z) : Z := a - a mod PAGE.

Record Memory : Type := mk_Memory {
  m_mapped : Z -> bool;
  m_data : Z -> option Z;      (* the byte of the mapping; [None]: past the end of the file *)
  m_back : Z -> option Z;      (* the byte after the page is dropped and touched again *)
  m_present : Z -> bool;       (* the page is in memory or in the swap *)
  m_swapped : Z -> bool;       (* ... in the swap *)
  m_guard : Z -> bool;         (* MADV_GUARD_INSTALL *)
  m_prot : Z -> Z }.

Definition READABLE : Z := 0.
Definition WRITABLE : Z := 1.

(** A load of the process; [None] is a signal (or EFAULT in a system call). *)
Definition read_byte (m : Memory) (a : Z) : option Z :=
  if m_mapped m a && negb (m_guard m a) && Z.testbit (m_prot m a) READABLE then m_data m a else None.

Fixpoint read_bytes (m : Memory) (a : Z) (n : nat) : option (list Z) :=
  match n with
  | O => Some []
  | S n => b ← read_byte m a; bs ← read_bytes m (a + 1) n; Some (b :: bs)
  end.

(** What the kernel guarantees: it handles whole pages, and a page that is not there is read again from where it came. *)
Record kernel_ok (m : Memory) : Prop := {
  k_present : forall a, m_present m a = m_present m (page_of a);
  k_guard : forall a, m_guard m a = m_guard m (page_of a);
  k_absent : forall a, m_present m a = false -> m_data m a = m_back m a;
  k_byte : forall a b, m_data m a = Some b -> 0 <= b < 256;
  k_back : forall a b, m_back m a = Some b -> 0 <= b < 256 }.

(** ** [Util::areZeroPages] *)

(** A load of eight bytes. *)
Definition read_word (m : Memory) (a : Z) : option Z :=
  bs ← read_bytes m a 8; Some (foldr (fun b acc => b + 256 * acc) 0 bs).

Fixpoint lor_words (m : Memory) (a : Z) (n : nat) : option Z :=
  match n with
  | O => Some 0
  | S n => w ← read_word m a; r ← lor_words m (a + 8) n; Some (Z.lor w r)
  end.

(** The loop, with the groups of eight words that are left. *)
Fixpoint zero_groups (m : Memory) (a : Z) (groups : nat) : option bool :=
  match groups with
  | O => Some true
  | S g => res ← lor_words m a 8; if res =? 0 then zero_groups m (a + 64) g else Some false
  end.

Definition areZeroPages (m : Memory) (addr : Z) (numPages : nat) : option bool :=
  zero_groups m addr (numPages * Z.to_nat (PAGE / 64)).

(** ** The pagemap *)

(** How many of the [n] pages from [a] on pass the test, up to the first that does not. *)
Fixpoint run (p : Z -> bool) (a : Z) (n : nat) : nat :=
  match n with
  | O => O
  | S n => if p a then S (run p (a + PAGE) n) else O
  end.

Definition PAGE_IS_PRESENT : Z := 8.
Definition PAGE_IS_SWAPPED : Z := 16.
Definition PAGE_IS_GUARD : Z := 256.

(** The categories of a page in the return mask, PAGE_IS_PRESENT | PAGE_IS_SWAPPED or PAGE_IS_GUARD; 0: the
    page does not match. *)
Definition occupied_category (m : Memory) (a : Z) : Z :=
  if m_present m a then if m_swapped m a then PAGE_IS_SWAPPED else PAGE_IS_PRESENT else 0.
Definition guard_category (m : Memory) (a : Z) : Z := if m_guard m a then PAGE_IS_GUARD else 0.

(** ioctl(PAGEMAP_SCAN) with room for one region: the first pages that match, as many as there are with the
    same categories; a region ends where the categories change. *)
Definition PAGEMAP_SCAN (cat : Z -> Z) (start : Z) (n : nat) : option (Z * Z) :=
  let k := run (fun a => cat a =? 0) start n in
  if (k =? n)%nat then None
  else let s := start + Z.of_nat k * PAGE in Some (s, s + Z.of_nat (run (fun a => cat a =? cat s) s (n - k)) * PAGE).

(** What is there: /proc/self/pagemap can be opened, the ioctl works (and is not disabled), it knows
    guard pages, and how many of the entries asked for a read gets. *)
Record Pagemap : Type := mk_Pagemap { pe_open : bool; pe_scan : bool; pe_guards : bool; pe_read : Z -> nat -> nat }.

Definition PAGEMAP_BATCH_SIZE : nat := 1024.

(** The loop over the entries of one batch: the number of entries up to the first that differs from the leading
    one, and the leading one. *)
Fixpoint scan_entries (m : Memory) (a : Z) (n : nat) (lead : option bool) : option bool * option nat :=
  match n with
  | O => (lead, None)
  | S n =>
      let is_occupied := m_present m a in
      match lead with
      | None => let '(l, r) := scan_entries m (a + PAGE) n (Some is_occupied) in (l, option_map S r)
      | Some l =>
          if Bool.eqb is_occupied l
          then let '(l, r) := scan_entries m (a + PAGE) n lead in (l, option_map S r)
          else (lead, Some O)
      end
  end.

(** The loop over the batches; every batch gets at least one entry or ends it, so the pages are enough fuel. *)
Fixpoint scan_batches (env : Pagemap) (m : Memory) (fuel : nat) (start current endAddr : Z) (lead : option bool) : bool * Z :=
  let finish :=
    match lead with
    | None => (false, endAddr - start)
    | Some l => (negb l, (if endAddr <=? current then endAddr else current) - start)
    end in
  match fuel with
  | O => finish
  | S fuel =>
      if current <? endAddr then
        let pages_to_read := Nat.min (Z.to_nat ((endAddr - current) / PAGE)) PAGEMAP_BATCH_SIZE in
        let actual := Nat.min (pe_read env current pages_to_read) pages_to_read in
        if (actual =? 0)%nat then finish
        else match scan_entries m current actual lead with
             | (Some l, Some i) => (negb l, current + Z.of_nat i * PAGE - start)
             | (lead, _) => scan_batches env m fuel start (current + Z.of_nat actual * PAGE) endAddr lead
             end
      else finish
  end.

(** [true]: the leading pages are absent; with the length of the leading run. *)
Definition scanOccupiedRangeBatch (env : Pagemap) (m : Memory) (start stop : Z) : bool * Z :=
  let startAddr := page_of start in
  let endAddr := page_of (stop + PAGE - 1) in
  let n := Z.to_nat ((endAddr - startAddr) / PAGE) in
  if endAddr <=? startAddr then (false, 0)
  else if negb (pe_open env) then (false, endAddr - start)
  else if pe_scan env then
    match PAGEMAP_SCAN (occupied_category m) startAddr n with
    | None => (true, endAddr - start)
    | Some (s, e) => if s <=? startAddr then (false, e - start) else (true, s - start)
    end
  else scan_batches env m n start startAddr endAddr None.

(** [Util::guardPagesSupported]: a scan of one page succeeds. *)
Definition guardPagesSupported (env : Pagemap) : bool := pe_open env && pe_guards env.

(** [Util::scanNextGuardRange]: the result of the scan is in range. *)
Definition scanNextGuardRange (env : Pagemap) (m : Memory) (start stop : Z) : option (Z * Z) :=
  let startAddr := page_of start in
  let endAddr := page_of (stop + PAGE - 1) in
  if endAddr <=? startAddr then None
  else if negb (guardPagesSupported env) then None
  else PAGEMAP_SCAN (guard_category m) startAddr (Z.to_nat ((endAddr - startAddr) / PAGE)).

(** ** Pages *)

Definition aligned (a : Z) : Prop := a mod PAGE = 0.

Lemma aligned_add a b : aligned a -> aligned b -> aligned (a + b).
Proof. unfold aligned, PAGE. intros Ha Hb. rewrite Z.add_mod, Ha, Hb by lia. done. Qed.

Lemma aligned_sub a b : aligned a -> aligned b -> aligned (a - b).
Proof. unfold aligned, PAGE. intros Ha Hb. rewrite Zminus_mod, Ha, Hb. done. Qed.

Lemma aligned_pages k : aligned (k * PAGE).
Proof. unfold aligned, PAGE. apply Z.mod_mul. lia. Qed.

Create HintDb pages.
#[export] Hint Resolve aligned_add aligned_sub aligned_pages : pages.

Lemma page_aligned a : aligned a -> page_of a = a.
Proof. unfold aligned, page_of. lia. Qed.

Lemma page_of_aligned a : aligned (page_of a).
Proof. unfold aligned, page_of, PAGE. rewrite Zminus_mod_idemp_r. by replace (a - a) with 0 by lia. Qed.

Lemma page_of_bounds a : page_of a <= a < page_of a + PAGE.
Proof. unfold page_of, PAGE. pose proof (Z.mod_pos_bound a 4096). lia. Qed.

(** Two addresses of pages that differ are a page apart. *)
Lemma aligned_lt a b : aligned a -> aligned b -> a < b -> a + PAGE <= b.
Proof.
  unfold aligned, PAGE. intros Ha Hb Hab. apply Z.mod_divide in Ha as [x ->]; [|lia]. apply Z.mod_divide in Hb as [y ->]; [|lia]. nia.
Qed.

Lemma page_up a : aligned a -> page_of (a + PAGE - 1) = a.
Proof.
  intros Ha. unfold page_of. replace (a + PAGE - 1) with (PAGE - 1 + a) by lia. unfold aligned, PAGE in *.
  rewrite <- Z.add_mod_idemp_r, Ha by lia. change ((4096 - 1 + 0) mod 4096) with 4095. lia.
Qed.

(** Between two addresses of pages an address lies with its page. *)
Lemma page_within a lo hi : aligned lo -> aligned hi -> lo <= a < hi -> lo <= page_of a < hi /\ aligned (page_of a).
Proof.
  intros Hlo Hhi H. pose proof (page_of_bounds a). pose proof (page_of_aligned a) as Hp. split; [|done]. split; [|lia].
  destruct (Z_lt_le_dec (page_of a) lo) as [Hlt|]; [|done]. apply aligned_lt in Hlt; [lia|done..].
Qed.

Lemma pages_between a b : aligned a -> aligned b -> a <= b -> exists n, b = a + Z.of_nat n * PAGE /\ Z.to_nat ((b - a) / PAGE) = n.
Proof.
  intros Ha Hb Hab. exists (Z.to_nat ((b - a) / PAGE)). split; [|done].
  assert (aligned (b - a)) as H by auto with pages. unfold aligned, PAGE in *. rewrite Z2Nat.id by (apply Z.div_pos; lia).
  pose proof (Z.div_mod (b - a) 4096). lia.
Qed.

(** ** Runs of pages *)

Lemma run_le p a n : (run p a n <= n)%nat.
Proof. revert a. induction n as [|n IH]; intros a; cbn; [done|]. destruct (p a); [|lia]. specialize (IH (a + PAGE)). lia. Qed.

Lemma run_page p a n i : (i < run p a n)%nat -> p (a + Z.of_nat i * PAGE) = true.
Proof.
  revert a i. induction n as [|n IH]; intros a i; cbn; [lia|]. destruct (p a) eqn:E; [|lia]. intros Hi. destruct i as [|i].
  - by replace (a + Z.of_nat 0 * PAGE) with a by lia.
  - replace (a + Z.of_nat (S i) * PAGE) with (a + PAGE + Z.of_nat i * PAGE) by lia. apply IH. lia.
Qed.

Lemma run_stops p a n : (run p a n < n)%nat -> p (a + Z.of_nat (run p a n) * PAGE) = false.
Proof.
  revert a. induction n as [|n IH]; intros a; cbn; [lia|]. destruct (p a) eqn:E.
  - intros H. replace (a + Z.of_nat (S (run p (a + PAGE) n)) * PAGE) with (a + PAGE + Z.of_nat (run p (a + PAGE) n) * PAGE) by lia. apply IH. lia.
  - intros _. by replace (a + Z.of_nat 0 * PAGE) with a by lia.
Qed.

(** The pages of a run, by address. *)
Lemma run_pages p a n x : aligned a -> aligned x -> a <= x < a + Z.of_nat (run p a n) * PAGE -> p x = true.
Proof.
  intros Ha Hx H. destruct (pages_between a x Ha Hx) as (i & -> & _); [lia|]. apply (run_page _ _ n). unfold PAGE in *. lia.
Qed.

(** ** The scan for resident pages *)

(** The leading pages of a range, all occupied (resident or swapped) or all not; and as many as there are. *)
Definition leading_run (m : Memory) (start stop : Z) (r : bool * Z) : Prop :=
  let '(z, size) := r in 0 < size <= stop - start /\ aligned size /\
  forall x, aligned x -> start <= x < start + size -> m_present m x = negb z.
Definition leading (m : Memory) (start stop : Z) (r : bool * Z) : Prop :=
  leading_run m start stop r /\ (snd r = stop - start \/ m_present m (start + snd r) = fst r).

Lemma leading_kind m start stop r1 r2 : aligned start -> leading_run m start stop r1 -> leading_run m start stop r2 -> fst r1 = fst r2.
Proof.
  destruct r1 as [z1 n1], r2 as [z2 n2]. intros Hs (H1 & A1 & P1) (H2 & A2 & P2).
  pose proof (P1 start Hs ltac:(lia)) as E1. pose proof (P2 start Hs ltac:(lia)) as E2. rewrite E1 in E2. by destruct z1, z2.
Qed.

(** No leading run is longer than the one with as many pages as there are. *)
Lemma leading_longest m start stop r1 r2 : aligned start -> leading_run m start stop r1 -> leading m start stop r2 -> snd r1 <= snd r2.
Proof.
  intros Hs H1 [H2 M2]. pose proof (leading_kind m start stop r1 r2 Hs H1 H2) as Ek. destruct r1 as [z1 n1], r2 as [z2 n2].
  destruct H1 as (H1 & A1 & P1), H2 as (H2 & A2 & P2). cbn [fst snd] in *. subst z1.
  destruct (Z_lt_le_dec n2 n1) as [Hlt|]; [|done]. destruct M2 as [?|M2]; [lia|]. rewrite P1 in M2; [by destruct z2|auto with pages|lia].
Qed.

Lemma occupied_zero m a : (occupied_category m a =? 0) = negb (m_present m a).
Proof. unfold occupied_category. destruct (m_present m a), (m_swapped m a); done. Qed.
Lemma occupied_same m a b : (occupied_category m a =? occupied_category m b) = true -> m_present m a = m_present m b.
Proof. unfold occupied_category. by destruct (m_present m a), (m_present m b), (m_swapped m a), (m_swapped m b). Qed.

(** What the scan of the ioctl means: a run of absent pages is the longest, one of occupied pages is, unless some are swapped. *)
Definition scanned (start stop : Z) (o : option (Z * Z)) : bool * Z :=
  match o with
  | None => (true, stop - start)
  | Some (s, e) => if s <=? start then (false, e - start) else (true, s - start)
  end.

Lemma scan_leading m start n : aligned start -> (0 < n)%nat -> let stop := start + Z.of_nat n * PAGE in
  let r := scanned start stop (PAGEMAP_SCAN (occupied_category m) start n) in
  leading_run m start stop r /\
  (fst r = true \/ (forall x, aligned x -> start <= x < stop -> m_swapped m x = false) -> leading m start stop r).
Proof.
  intros Hs Hn stop r. subst stop r. unfold PAGEMAP_SCAN. set (abs := fun a => occupied_category m a =? 0). set (k := run abs start n).
  pose proof (run_le abs start n) as Hk. fold k in Hk.
  assert (Habs : forall x, aligned x -> start <= x < start + Z.of_nat k * PAGE -> m_present m x = false).
  { intros x Hx H. apply negb_true_iff. rewrite <- occupied_zero. by apply (run_pages abs start n). }
  destruct (Nat.eqb_spec k n) as [Hkn|Hkn].
  { unfold scanned. set (sz := start + Z.of_nat n * PAGE - start).
    assert (Hsz : sz = Z.of_nat n * PAGE) by (unfold sz; lia).
    assert (L : leading_run m start (start + Z.of_nat n * PAGE) (true, sz)).
    { unfold leading_run. fold sz. split_and!; [unfold PAGE in *; lia|lia|rewrite Hsz; apply aligned_pages|].
      intros x Hx H. apply Habs; [done|]. rewrite Hkn. lia. }
    split; [done|]. intros _. split; [done|by left]. }
  set (s := start + Z.of_nat k * PAGE). set (same := fun a => occupied_category m a =? occupied_category m s). set (r := run same s (n - k)).
  pose proof (run_stops abs start n ltac:(lia)) as Hst. fold k s in Hst. unfold abs in Hst. rewrite occupied_zero in Hst. apply negb_false_iff in Hst.
  assert (Hr : (0 < r <= n - k)%nat).
  { pose proof (run_le same s (n - k)) as Hr. fold r in Hr. split; [|done].
    unfold r. destruct (n - k)%nat eqn:E; [lia|]. cbn. unfold same at 1. rewrite Z.eqb_refl. lia. }
  unfold scanned. destruct (Z.leb_spec s start) as [Hle|Hgt].
  - assert (k = 0%nat) as Hk0 by (unfold s, PAGE in *; lia). assert (Es : s = start) by (unfold s; rewrite Hk0; lia).
    replace (s + Z.of_nat r * PAGE - start) with (Z.of_nat r * PAGE) by lia.
    assert (L : leading_run m start (start + Z.of_nat n * PAGE) (false, Z.of_nat r * PAGE)).
    { split_and!; [unfold PAGE in *; lia|unfold PAGE in *; lia|apply aligned_pages|]. intros x Hx H. cbn [negb]. rewrite <- Hst. apply occupied_same.
      apply (run_pages same s (n - k)); [by rewrite Es|done|]. fold r. lia. }
    split; [done|]. cbn [fst]. intros [?|Hno]; [done|]. split; [done|]. cbn [fst snd].
    destruct (decide (r = n)) as [->|Hrn]; [left; lia|right].
    pose proof (run_stops same s (n - k)) as Hend. fold r in Hend. specialize (Hend ltac:(lia)). rewrite Es in Hend. unfold same, occupied_category in Hend.
    assert (W1 : m_swapped m (start + Z.of_nat r * PAGE) = false) by (apply Hno; [auto with pages|unfold PAGE in *; lia]).
    assert (W2 : m_swapped m s = false) by (apply Hno; [by rewrite Es|unfold PAGE in *; lia]). rewrite Hst, W1, W2 in Hend.
    destruct (m_present m (start + Z.of_nat r * PAGE)); [done|done].
  - replace (s - start) with (Z.of_nat k * PAGE) in * by (unfold s; lia).
    assert (L : leading_run m start (start + Z.of_nat n * PAGE) (true, Z.of_nat k * PAGE)).
    { split_and!; [unfold s, PAGE in *; lia|unfold PAGE in *; lia|apply aligned_pages|done]. }
    split; [done|]. intros _. split; [done|]. right. cbn [fst snd]. exact Hst.
Qed.

(** The reads of the pagemap. *)
Definition like (m : Memory) (l : bool) (a : Z) : bool := Bool.eqb (m_present m a) l.

Lemma like_true m l a : like m l a = true <-> m_present m a = l.
Proof. unfold like. apply Bool.eqb_true_iff. Qed.

Lemma scan_entries_lead m a n l : scan_entries m a n (Some l) =
  (Some l, if (run (like m l) a n =? n)%nat then None else Some (run (like m l) a n)).
Proof.
  revert a. induction n as [|n IH]; intros a; [done|]. cbn [scan_entries run]. fold (like m l a).
  destruct (like m l a) eqn:E; [|done]. rewrite IH. cbn. destruct (Nat.eqb _ n); done.
Qed.

Lemma scan_entries_first m a n : (0 < n)%nat -> scan_entries m a n None = scan_entries m a n (Some (m_present m a)).
Proof. destruct n as [|n]; [lia|]. intros _. cbn. by rewrite Bool.eqb_reflx. Qed.

(** What the loop returns when the pages before [current] are alike. *)
Lemma scan_batches_ok env m fuel start current endAddr l :
  aligned start -> aligned current -> aligned endAddr -> start < current <= endAddr ->
  (forall x, aligned x -> start <= x < current -> m_present m x = l) ->
  let '(z, size) := scan_batches env m fuel start current endAddr (Some l) in
  z = negb l /\ 0 < size <= endAddr - start /\ aligned size /\ (forall x, aligned x -> start <= x < start + size -> m_present m x = l) /\
  ((forall a n, (n <= pe_read env a n)%nat) -> (Z.to_nat ((endAddr - current) / PAGE) <= fuel)%nat ->
   size = endAddr - start \/ m_present m (start + size) = negb l).
Proof.
  intros Hs. revert current. induction fuel as [|fuel IH]; intros current Hc He Hb Hp; cbn [scan_batches].
  - assert (E : (if endAddr <=? current then endAddr else current) = current) by (destruct (Z.leb_spec endAddr current); lia).
    rewrite E. split_and!; [done|lia|lia|auto with pages|intros x Hx H; apply Hp; [done|lia]|].
    intros _ Hf. left. destruct (pages_between current endAddr Hc He) as (k & -> & Hk); [lia|]. rewrite Hk in Hf.
    assert (k = 0%nat) as -> by lia. lia.
  - destruct (Z.ltb_spec current endAddr) as [Hlt|Hge].
    2:{ assert (E : (if endAddr <=? current then endAddr else current) = endAddr) by (destruct (Z.leb_spec endAddr current); lia).
        rewrite E. split_and!; [done|lia|lia|auto with pages|intros x Hx H; apply Hp; [done|lia]|by left]. }
    destruct (pages_between current endAddr Hc He) as (k & Ek & Hk); [lia|]. rewrite Hk.
    assert (0 < k)%nat by (unfold PAGE in *; lia).
    set (want := Nat.min k PAGEMAP_BATCH_SIZE). set (actual := Nat.min (pe_read env current want) want).
    assert (Hw : (0 < want <= k)%nat) by (unfold want, PAGEMAP_BATCH_SIZE; lia).
    destruct (Nat.eqb_spec actual 0) as [H0|H0].
    + assert (E : (if endAddr <=? current then endAddr else current) = current) by (destruct (Z.leb_spec endAddr current); lia).
      rewrite E. split_and!; [done|lia|lia|auto with pages|intros x Hx H'; apply Hp; [done|lia]|].
      intros Hfull _. specialize (Hfull current want). unfold actual in H0. lia.
    + rewrite scan_entries_lead. pose proof (run_le (like m l) current actual) as Hr.
      destruct (Nat.eqb_spec (run (like m l) current actual) actual) as [Er|Er].
      * specialize (IH (current + Z.of_nat actual * PAGE)).
        destruct (scan_batches env m fuel start (current + Z.of_nat actual * PAGE) endAddr (Some l)) as [z size].
        destruct IH as (H1 & H2 & H3 & H4 & H5); [auto with pages|done|unfold actual, PAGE in *; lia| |].
        { intros x Hx Hin. destruct (Z_lt_le_dec x current) as [?|?]; [apply Hp; [done|lia]|].
          apply like_true. apply (run_pages _ current actual); [done|done|]. rewrite Er. lia. }
        split_and!; try done; [lia|lia|]. intros Hfull Hf. apply H5; [done|].
        destruct (pages_between (current + Z.of_nat actual * PAGE) endAddr) as (k' & E' & Hk'); [auto with pages|done|unfold actual, PAGE in *; lia|].
        rewrite Hk'. unfold PAGE in *. lia.
      * set (i := run (like m l) current actual) in *.
        split_and!; [done|unfold actual, PAGE in *; lia|unfold actual, PAGE in *; lia|auto 7 with pages| |].
        -- intros x Hx Hin. destruct (Z_lt_le_dec x current) as [?|?]; [apply Hp; [done|lia]|].
           apply like_true. apply (run_pages _ current actual); [done|done|]. fold i. lia.
        -- intros _ _. right. replace (start + (current + Z.of_nat i * PAGE - start)) with (current + Z.of_nat i * PAGE) by lia.
           pose proof (run_stops (like m l) current actual) as Hst. fold i in Hst. unfold like in Hst.
           rewrite Bool.eqb_false_iff in Hst. specialize (Hst ltac:(lia)). destruct (m_present m (current + Z.of_nat i * PAGE)), l; done.
Qed.

Lemma scan_batches_first env m n start : aligned start -> (0 < n)%nat ->
  let '(z, size) := scan_batches env m n start start (start + Z.of_nat n * PAGE) None in
  0 < size <= Z.of_nat n * PAGE /\ aligned size /\ (z = true -> forall x, aligned x -> start <= x < start + size -> m_present m x = false) /\
  ((forall a k, (k <= pe_read env a k)%nat) -> leading m start (start + Z.of_nat n * PAGE) (z, size)).
Proof.
  intros Hs Hn. destruct n as [|n]; [lia|]. cbn [scan_batches].
  destruct (Z.ltb_spec start (start + Z.of_nat (S n) * PAGE)) as [Hlt|Hge]; [|unfold PAGE in *; lia].
  destruct (pages_between start (start + Z.of_nat (S n) * PAGE)) as (k & Ek & Hk); [done|auto with pages|lia|]. rewrite Hk.
  assert (k = S n) as -> by (unfold PAGE in *; lia).
  set (want := Nat.min (S n) PAGEMAP_BATCH_SIZE). set (actual := Nat.min (pe_read env start want) want).
  assert (Hw : (0 < want <= S n)%nat) by (unfold want, PAGEMAP_BATCH_SIZE; lia).
  destruct (Nat.eqb_spec actual 0) as [H0|H0].
  - replace (start + Z.of_nat (S n) * PAGE - start) with (Z.of_nat (S n) * PAGE) by lia.
    split_and!; [unfold PAGE in *; lia|unfold PAGE in *; lia|auto with pages|done|].
    intros Hfull. specialize (Hfull start want). unfold actual in H0. lia.
  - rewrite scan_entries_first, scan_entries_lead by lia. set (l := m_present m start).
    pose proof (run_le (like m l) start actual) as Hr.
    assert (Hr0 : (0 < run (like m l) start actual)%nat).
    { destruct actual as [|j]; [lia|]. cbn. unfold like, l. rewrite Bool.eqb_reflx. lia. }
    destruct (Nat.eqb_spec (run (like m l) start actual) actual) as [Er|Er].
    + pose proof (scan_batches_ok env m n start (start + Z.of_nat actual * PAGE) (start + Z.of_nat (S n) * PAGE) l) as H.
      destruct (scan_batches env m n start (start + Z.of_nat actual * PAGE) (start + Z.of_nat (S n) * PAGE) (Some l)) as [z size].
      destruct H as (H1 & H2 & H3 & H4 & H5); [done|auto with pages|auto with pages|unfold actual, PAGE in *; lia| |].
      { intros x Hx Hin. apply like_true. apply (run_pages _ start actual); [done|done|]. rewrite Er. lia. }
      split_and!; [lia|lia|done| |].
      * intros -> x Hx Hin. rewrite (H4 x Hx Hin). by destruct l.
      * intros Hfull. split; [split_and!; [lia|lia|done|]|].
        -- intros x Hx Hin. rewrite (H4 x Hx Hin), H1. by destruct l.
        -- cbn [fst snd]. rewrite H1. apply H5; [done|].
           destruct (pages_between (start + Z.of_nat actual * PAGE) (start + Z.of_nat (S n) * PAGE)) as (k' & E' & Hk'); [auto with pages|auto with pages|unfold actual, PAGE in *; lia|].
           rewrite Hk'. unfold PAGE in *. lia.
    + set (i := run (like m l) start actual) in *. replace (start + Z.of_nat i * PAGE - start) with (Z.of_nat i * PAGE) by lia.
      assert (Hin : forall x, aligned x -> start <= x < start + Z.of_nat i * PAGE -> m_present m x = l).
      { intros x Hx H. apply like_true. by apply (run_pages _ start actual). }
      assert (Hi : (i <= S n)%nat) by (unfold actual in *; lia).
      split_and!; [unfold PAGE in *; lia|unfold PAGE in *; lia|apply aligned_pages| |].
      * intros Hz x Hx H. rewrite (Hin x Hx H). by destruct l.
      * intros _. split; [split_and!; [unfold PAGE in *; lia|unfold PAGE in *; lia|apply aligned_pages|]|].
        -- intros x Hx H. rewrite (Hin x Hx H). by destruct l.
        -- right. cbn [fst snd]. pose proof (run_stops (like m l) start actual) as Hst. fold i in Hst. unfold like in Hst.
           rewrite Bool.eqb_false_iff in Hst. specialize (Hst ltac:(lia)). destruct (m_present m (start + Z.of_nat i * PAGE)), l; done.
Qed.

(** What a caller relies on: the scan makes progress, stays in the range, and never calls a resident page empty. *)
Lemma scanOccupied_sound env m start stop : aligned start -> aligned stop -> start < stop ->
  let '(z, size) := scanOccupiedRangeBatch env m start stop in
  0 < size <= stop - start /\ aligned size /\ (z = true -> forall x, aligned x -> start <= x < start + size -> m_present m x = false).
Proof.
  intros Hs He Hlt. unfold scanOccupiedRangeBatch. rewrite (page_aligned start), (page_up stop) by done.
  destruct (pages_between start stop Hs He) as (n & -> & Hn); [lia|]. rewrite Hn.
  destruct (Z.leb_spec (start + Z.of_nat n * PAGE) start) as [?|_]; [lia|].
  assert (Hn0 : (0 < n)%nat) by (unfold PAGE in *; lia).
  destruct (pe_open env); cbn [negb].
  2:{ split_and!; [lia|lia|auto with pages|done]. }
  destruct (pe_scan env).
  - destruct (scan_leading m start n Hs Hn0) as [H _]. fold (scanned start (start + Z.of_nat n * PAGE) (PAGEMAP_SCAN (occupied_category m) start n)).
    destruct (scanned _ _ _) as [z size].
    destruct H as (H1 & H2 & H3). split_and!; [lia|lia|done|]. intros -> x Hx Hin. by apply H3.
  - pose proof (scan_batches_first env m n start Hs Hn0) as H. destruct (scan_batches env m n start start (start + Z.of_nat n * PAGE) None) as [z size].
    destruct H as (H1 & H2 & H3 & _). split_and!; [lia|lia|done|done].
Qed.

(** The walk over a range that the scan is made for: the caller goes on behind the leading run and calls again.  The result is what it takes
    each page for; every call moves on by a page at least, so the pages are enough fuel. *)
Fixpoint walk (env : Pagemap) (m : Memory) (fuel : nat) (start stop : Z) : list bool :=
  match fuel with
  | O => []
  | S fuel =>
      if start <? stop then
        let '(z, size) := scanOccupiedRangeBatch env m start stop in
        replicate (Z.to_nat (size / PAGE)) (negb z) ++ walk env m fuel (start + size) stop
      else []
  end.

(** Which pages are in memory or in the swap. *)
Fixpoint occupancy (m : Memory) (start : Z) (n : nat) : list bool :=
  match n with O => [] | S n => m_present m start :: occupancy m (start + PAGE) n end.

Lemma occupancy_run m b start k n : (k <= n)%nat -> aligned start -> (forall x, aligned x -> start <= x < start + Z.of_nat k * PAGE -> m_present m x = b) ->
  occupancy m start n = replicate k b ++ occupancy m (start + Z.of_nat k * PAGE) (n - k).
Proof.
  revert start n. induction k as [|k IH]; intros start n Hk Ha Hb; [cbn; by rewrite Z.add_0_r, Nat.sub_0_r|].
  destruct n as [|n]; [lia|]. cbn [occupancy replicate app]. f_equal; [apply Hb; [done|unfold PAGE in *; lia]|].
  rewrite (IH (start + PAGE) n); [|lia|by apply aligned_add|intros x Hx H; apply Hb; [done|unfold PAGE in *; lia]].
  replace (start + Z.of_nat (S k) * PAGE) with (start + PAGE + Z.of_nat k * PAGE) by lia. done.
Qed.

Lemma page_walk_ok env m n start : (forall start stop, aligned start -> aligned stop -> start < stop -> leading_run m start stop (scanOccupiedRangeBatch env m start stop)) ->
  aligned start -> walk env m n start (start + Z.of_nat n * PAGE) = occupancy m start n.
Proof.
  intros Hlead. assert (H : forall fuel start k, aligned start -> (k <= fuel)%nat -> walk env m fuel start (start + Z.of_nat k * PAGE) = occupancy m start k);
    [|intros Ha; by apply H].
  induction fuel as [|fuel IH]; intros s k Ha Hk; [by assert (k = 0%nat) as -> by lia|]. cbn [walk].
  destruct (Z.ltb_spec s (s + Z.of_nat k * PAGE)) as [Hlt|Hge]; [|by assert (k = 0%nat) as -> by (unfold PAGE in *; lia)].
  pose proof (Hlead s (s + Z.of_nat k * PAGE) Ha ltac:(auto with pages) Hlt) as Hr. destruct (scanOccupiedRangeBatch env m s (s + Z.of_nat k * PAGE)) as [z size].
  destruct Hr as (Hsz & Hal & Hp). destruct (pages_between 0 size) as (j & Ej & Hj); [done|done|lia|]. rewrite Z.sub_0_r in Hj. rewrite Hj.
  assert (Es : size = Z.of_nat j * PAGE) by lia. assert (Hjk : (0 < j <= k)%nat) by (unfold PAGE in *; lia).
  rewrite (occupancy_run m (negb z) s j k); [|lia|done|intros x Hx H; apply Hp; [done|lia]]. f_equal. rewrite Es.
  replace (s + Z.of_nat k * PAGE) with (s + Z.of_nat j * PAGE + Z.of_nat (k - j) * PAGE) by (unfold PAGE; lia). apply IH; [auto with pages|lia].
Qed.

(** The scan of either way, as [leading_run] or [leading] of the range. *)
Lemma scan_by_ioctl env m start stop : aligned start -> aligned stop -> start < stop -> pe_open env = true -> pe_scan env = true ->
  leading_run m start stop (scanOccupiedRangeBatch env m start stop) /\
  (fst (scanOccupiedRangeBatch env m start stop) = true \/ (forall x, aligned x -> start <= x < stop -> m_swapped m x = false) ->
   leading m start stop (scanOccupiedRangeBatch env m start stop)).
Proof.
  intros Hs He Hlt Ho Hsc. unfold scanOccupiedRangeBatch. rewrite (page_aligned start), (page_up stop), Ho, Hsc by done. cbn [negb].
  destruct (pages_between start stop Hs He) as (n & -> & Hn); [lia|]. rewrite Hn.
  destruct (Z.leb_spec (start + Z.of_nat n * PAGE) start) as [?|_]; [lia|]. apply scan_leading; [done|unfold PAGE in *; lia].
Qed.

Lemma scan_by_reads env m start stop : aligned start -> aligned stop -> start < stop -> pe_open env = true -> pe_scan env = false ->
  (forall a n, (n <= pe_read env a n)%nat) -> leading m start stop (scanOccupiedRangeBatch env m start stop).
Proof.
  intros Hs He Hlt Ho Hsc Hfull. unfold scanOccupiedRangeBatch. rewrite (page_aligned start), (page_up stop), Ho, Hsc by done. cbn [negb].
  destruct (pages_between start stop Hs He) as (n & -> & Hn); [lia|]. rewrite Hn.
  destruct (Z.leb_spec (start + Z.of_nat n * PAGE) start) as [?|_]; [lia|].
  pose proof (scan_batches_first env m n start Hs ltac:(unfold PAGE in *; lia)) as H.
  destruct (scan_batches env m n start start (start + Z.of_nat n * PAGE) None) as [z size]. by apply H.
Qed.

(** C30: the PAGEMAP_SCAN ioctl and the reads of /proc/self/pagemap are worth the same, as long as no read is cut short.  For
    any range of pages both say whether it starts with absent or with occupied pages, and where absent ones end; the run of occupied pages
    that the ioctl gives may be shorter, as it ends where resident pages change to swapped ones, and is the same when no page is
    swapped.  So a caller that walks over the range with either takes exactly the same pages for occupied: those in memory or in the swap. *)
Theorem scan_paths_agree env m start n : aligned start -> (0 < n)%nat -> (forall a k, (k <= pe_read env a k)%nat) ->
  let stop := start + Z.of_nat n * PAGE in
  let way b := mk_Pagemap true b (pe_guards env) (pe_read env) in
  let scan b := scanOccupiedRangeBatch (way b) m start stop in
  leading m start stop (scan false) /\ leading_run m start stop (scan true) /\
  fst (scan true) = fst (scan false) /\ snd (scan true) <= snd (scan false) /\
  (fst (scan true) = true \/ (forall x, aligned x -> start <= x < stop -> m_swapped m x = false) -> scan true = scan false) /\
  walk (way true) m n start stop = occupancy m start n /\ walk (way false) m n start stop = occupancy m start n.
Proof.
  intros Ha Hn Hfull stop way scan. assert (He : aligned stop) by (unfold stop; auto with pages).
  assert (Hlt : start < stop) by (unfold stop, PAGE; lia).
  destruct (scan_by_ioctl (way true) m start stop) as [H1 H1']; [done..|]. fold (scan true) in H1, H1'.
  pose proof (scan_by_reads (way false) m start stop Ha He Hlt eq_refl eq_refl Hfull) as H2. fold (scan false) in H2.
  pose proof (leading_kind m start stop _ _ Ha H1 (proj1 H2)) as Ek. pose proof (leading_longest m start stop _ _ Ha H1 H2) as El.
  split_and!; [done..| | |].
  - intros H. pose proof (leading_longest m start stop _ _ Ha (proj1 H2) (H1' H)) as El'.
    destruct (scan true) as [z1 n1], (scan false) as [z2 n2]. cbn [fst snd] in *. f_equal; [done|lia].
  - apply page_walk_ok; [|done]. intros a b Hb Hb' Hl. exact (proj1 (scan_by_ioctl (way true) m a b Hb Hb' Hl eq_refl eq_refl)).
  - apply page_walk_ok; [|done]. intros a b Hb Hb' Hl. exact (proj1 (scan_by_reads (way false) m a b Hb Hb' Hl eq_refl eq_refl Hfull)).
Qed.

(** A page in memory, one in the swap, then one that is not there: the ioctl stops at the second, the reads do not. *)
Lemma scan_paths_agree_witness :
  let m := mk_Memory (fun _ => true) (fun _ => Some 0) (fun _ => Some 0) (fun x => x <? 12288) (fun x => 8192 <=? x) (fun _ => false) (fun _ => 3) in
  let way b := mk_Pagemap true b true (fun _ n => n) in
  scanOccupiedRangeBatch (way true) m 4096 16384 = (false, 4096) /\ scanOccupiedRangeBatch (way false) m 4096 16384 = (false, 8192) /\
  walk (way true) m 3 4096 16384 = [true; true; false] /\ walk (way false) m 3 4096 16384 = [true; true; false].
Proof.
  intros m way. split; [vm_compute; reflexivity|]. split; [vm_compute; reflexivity|].
  destruct (scan_paths_agree (way true) m 4096 3) as (_ & _ & _ & _ & _ & H1 & H2); [reflexivity|lia|intros a k; cbn; lia|].
  exact (conj H1 H2).
Defined.

(** ** The scan of the contents *)

Lemma read_bytes_lookup m a n bs : read_bytes m a n = Some bs <->
  length bs = n /\ forall i b, bs !! i = Some b -> read_byte m (a + Z.of_nat i) = Some b.
Proof.
  revert a bs. induction n as [|n IH]; intros a bs; cbn.
  - split; [intros [= <-]; split; [done|by intros i b]|]. intros [Hl _]. by destruct bs.
  - split.
    + destruct (read_byte m a) as [b0|] eqn:E; [|done]. cbn. destruct (read_bytes m (a + 1) n) as [bs'|] eqn:E'; [|done]. cbn. intros [= <-].
      apply IH in E' as [Hl Hb]. split; [cbn; by rewrite Hl|]. intros [|i] b; cbn.
      * intros [= <-]. by rewrite Z.add_0_r.
      * intros H. replace (a + Z.of_nat (S i)) with (a + 1 + Z.of_nat i) by lia. by apply Hb.
    + intros [Hl Hb]. destruct bs as [|b0 bs']; [done|]. cbn in Hl. pose proof (Hb 0%nat b0 eq_refl) as H0. rewrite Z.add_0_r in H0. rewrite H0. cbn.
      assert (read_bytes m (a + 1) n = Some bs') as ->; [|done]. apply IH. split; [lia|]. intros i b Hi.
      specialize (Hb (S i) b Hi). by replace (a + 1 + Z.of_nat i) with (a + Z.of_nat (S i)) by lia.
Qed.

(** All bytes of a range can be read, and all are zero. *)
Definition readable (m : Memory) (a n : Z) : Prop := forall x, a <= x < a + n -> is_Some (read_byte m x).
Definition zero (m : Memory) (a n : Z) : Prop := forall x, a <= x < a + n -> read_byte m x = Some 0.

Lemma read_bytes_total m a n : readable m a (Z.of_nat n) -> exists bs, read_bytes m a n = Some bs.
Proof.
  revert a. induction n as [|n IH]; intros a H; cbn; [by eexists|].
  destruct (H a ltac:(lia)) as [b ->]. cbn. destruct (IH (a + 1)) as [bs ->]; [|by eexists]. intros x Hx. apply H. lia.
Qed.

Section contents.
Context (m : Memory).
Hypothesis Hm : kernel_ok m.

Lemma read_byte_range a b : read_byte m a = Some b -> 0 <= b < 256.
Proof. unfold read_byte. destruct (_ && _); [|done]. apply (k_byte m Hm). Qed.

Lemma fold_bytes_zero bs : (forall b, b ∈ bs -> 0 <= b < 256) ->
  0 <= foldr (fun b acc => b + 256 * acc) 0 bs /\ (foldr (fun b acc => b + 256 * acc) 0 bs = 0 <-> forall b, b ∈ bs -> b = 0).
Proof.
  induction bs as [|b bs IH]; intros Hb; cbn; [split; [lia|]; split; [by intros _ b ?%elem_of_nil|done]|].
  destruct IH as [H1 H2]; [intros x Hx; apply Hb; by right|]. pose proof (Hb b (list_elem_of_here _ _)).
  split; [lia|]. split.
  - intros E x [->|Hx]%elem_of_cons; [lia|]. apply H2; [lia|done].
  - intros H'. rewrite (H' b (list_elem_of_here _ _)). rewrite (proj2 H2); [done|]. intros x Hx. apply H'. by right.
Qed.

Lemma read_word_zero a w : read_word m a = Some w -> 0 <= w /\ (w = 0 <-> zero m a 8).
Proof.
  unfold read_word. destruct (read_bytes m a 8) as [bs|] eqn:E; [|done]. cbn. intros [= <-].
  apply read_bytes_lookup in E as [Hl Hb].
  destruct (fold_bytes_zero bs) as [H1 H2].
  { intros b (i & Hi)%list_elem_of_lookup_1. by eapply read_byte_range, Hb. }
  split; [done|]. rewrite H2. split.
  - intros Hz x Hx. assert (is_Some (bs !! Z.to_nat (x - a))) as [b Hi] by (apply lookup_lt_is_Some; lia).
    specialize (Hb _ _ Hi). replace (a + Z.of_nat (Z.to_nat (x - a))) with x in Hb by lia. rewrite Hb. f_equal. apply Hz.
    by eapply list_elem_of_lookup_2.
  - intros Hz b (i & Hi)%list_elem_of_lookup_1. pose proof (lookup_lt_Some _ _ _ Hi). specialize (Hb _ _ Hi).
    rewrite Hz in Hb by lia. congruence.
Qed.

Lemma lor_zero x y : 0 <= x -> 0 <= y -> Z.lor x y = 0 <-> x = 0 /\ y = 0.
Proof. intros _ _. apply Z.lor_eq_0_iff. Qed.

Lemma zero_split a n k : 0 <= n -> 0 <= k -> zero m a (n + k) <-> zero m a n /\ zero m (a + n) k.
Proof.
  intros Hn Hk. split; [intros H; split; intros x Hx; apply H; lia|]. intros [H1 H2] x Hx.
  destruct (Z_lt_le_dec x (a + n)); [apply H1; lia|apply H2; lia].
Qed.

Lemma lor_words_zero a n r : lor_words m a n = Some r -> 0 <= r /\ (r = 0 <-> zero m a (8 * Z.of_nat n)).
Proof.
  revert a r. induction n as [|n IH]; intros a r; cbn [lor_words].
  - intros [= <-]. split; [done|]. split; [intros _ x; lia|done].
  - destruct (read_word m a) as [w|] eqn:Ew; [|done]. cbn. destruct (lor_words m (a + 8) n) as [r'|] eqn:Er; [|done]. cbn. intros [= <-].
    apply read_word_zero in Ew as [Hw1 Hw2]. apply IH in Er as [Hr1 Hr2]. split; [by apply Z.lor_nonneg|].
    replace (8 * Z.of_nat (S n)) with (8 + 8 * Z.of_nat n) by lia. rewrite zero_split by lia. rewrite Z.lor_eq_0_iff. tauto.
Qed.

Lemma lor_words_total a n : readable m a (8 * Z.of_nat n) -> is_Some (lor_words m a n).
Proof.
  revert a. induction n as [|n IH]; intros a H; cbn [lor_words]; [by eexists|].
  destruct (read_bytes_total m a 8) as [bs Hbs]; [intros x Hx; apply H; lia|]. unfold read_word. rewrite Hbs. cbn.
  destruct (IH (a + 8)) as [r ->]; [intros x Hx; apply H; lia|]. by eexists.
Qed.

Lemma zero_groups_ok a g : readable m a (64 * Z.of_nat g) ->
  exists b, zero_groups m a g = Some b /\ (b = true <-> zero m a (64 * Z.of_nat g)).
Proof.
  revert a. induction g as [|g IH]; intros a H; cbn [zero_groups]; [exists true; split; [done|]; split; [intros _ x; lia|done]|].
  destruct (lor_words_total a 8) as [r Hr]; [intros x Hx; apply H; lia|]. rewrite Hr. cbn [mbind option_bind].
  apply lor_words_zero in Hr as [_ Hr]. pose proof (zero_split a 64 (64 * Z.of_nat g) ltac:(lia) ltac:(lia)) as Hsp.
  replace (64 * Z.of_nat (S g)) with (64 + 64 * Z.of_nat g) by lia. change (8 * Z.of_nat 8) with 64 in Hr. destruct (Z.eqb_spec r 0) as [->|Hne].
  - destruct (IH (a + 64)) as (b & Hb & Hz); [intros x Hx; apply H; lia|]. exists b. split; [done|]. tauto.
  - exists false. split; [done|]. split; [done|]. intros Hz. apply Hsp in Hz as [Hz _]. by apply Hr in Hz.
Qed.

(** The scan reads every byte of the pages, and answers whether all are zero. *)
Lemma areZeroPages_ok addr n : readable m addr (Z.of_nat n * PAGE) ->
  exists b, areZeroPages m addr n = Some b /\ (b = true <-> zero m addr (Z.of_nat n * PAGE)).
Proof.
  intros H. unfold areZeroPages. pose proof (zero_groups_ok addr (n * Z.to_nat (PAGE / 64))) as G.
  replace (64 * Z.of_nat (n * Z.to_nat (PAGE / 64))) with (Z.of_nat n * PAGE) in G by (unfold PAGE; change (Z.to_nat (4096 / 64)) with 64%nat; lia).
  by apply G.
Qed.
End contents.

(** ** The scan for guard pages *)

Lemma guard_zero m a : (guard_category m a =? 0) = negb (m_guard m a).
Proof. unfold guard_category. by destruct (m_guard m a). Qed.
Lemma guard_same m a b : (guard_category m a =? guard_category m b) = true -> m_guard m a = m_guard m b.
Proof. unfold guard_category. by destruct (m_guard m a), (m_guard m b). Qed.

Lemma PAGEMAP_SCAN_ok m start n : aligned start ->
  match PAGEMAP_SCAN (guard_category m) start n with
  | None => forall x, aligned x -> start <= x < start + Z.of_nat n * PAGE -> m_guard m x = false
  | Some (s, e) => aligned s /\ aligned e /\ start <= s < e /\ e <= start + Z.of_nat n * PAGE /\
      (forall x, aligned x -> start <= x < s -> m_guard m x = false) /\ (forall x, aligned x -> s <= x < e -> m_guard m x = true)
  end.
Proof.
  intros Hs. unfold PAGEMAP_SCAN. set (no := fun a => guard_category m a =? 0). set (k := run no start n).
  pose proof (run_le no start n) as Hk. fold k in Hk.
  assert (Hno : forall x, aligned x -> start <= x < start + Z.of_nat k * PAGE -> m_guard m x = false).
  { intros x Hx H. apply negb_true_iff. rewrite <- guard_zero. by apply (run_pages no start n). }
  destruct (Nat.eqb_spec k n) as [Hkn|Hkn]; [intros x Hx H; apply Hno; [done|by rewrite Hkn]|].
  set (s := start + Z.of_nat k * PAGE). set (same := fun a => guard_category m a =? guard_category m s).
  pose proof (run_stops no start n ltac:(lia)) as Hst. fold k s in Hst. unfold no in Hst. rewrite guard_zero in Hst. apply negb_false_iff in Hst.
  set (r := run same s (n - k)). pose proof (run_le same s (n - k)) as Hr. fold r in Hr.
  assert (0 < r)%nat by (unfold r; destruct (n - k)%nat eqn:E; [lia|]; cbn; unfold same at 1; rewrite Z.eqb_refl; lia).
  assert (aligned s) by (unfold s; auto with pages).
  split_and!; [done|auto with pages|unfold s, PAGE in *; lia|unfold s, PAGE in *; lia|unfold s, PAGE in *; lia|done|].
  intros x Hx Hin. rewrite <- Hst. apply guard_same. by apply (run_pages same s (n - k)).
Qed.
