(* ===== verification/GuardPages.v ===== *)
(** * Guard pages (src/guardpages.cpp)

    Lightweight guard pages (madvise(MADV_GUARD_INSTALL)) cannot be read and are not in /proc/self/maps.  Before
    the image is written [record] notes those of every area; the writers ask [nextRangeAfter] where the next one
    is, and after a restart [reinstall] installs them again.  The list is a vector that grows at its end;
    [None] is the null pointer. *)

From Stdlib Require Import ZArith Lia Sorted.
From stdpp Require Import base gmap strings numbers list.
From S2P Require Import Prelude PageScan.
Open Scope Z_scope.

Definition Ranges : Type := option (list (Z * Z)).

(** ** The operations *)

Definition addRange (start stop : Z) : M Ranges unit :=
  assertM (start <? stop) "empty guard range";;
  g ← gets id;
  l ← optM (OutOfBounds "guardRanges") g;
  match last l with
  | Some (s, e) =>
      assertM (e <=? start) "guard range overlaps or precedes the previous one";;
      if start =? e then modify (fun _ => Some (removelast l ++ [(s, stop)]))
      else modify (fun _ => Some (l ++ [(start, stop)]))
  | None => modify (fun _ => Some (l ++ [(start, stop)]))
  end.

Definition beginRecording (env : Pagemap) : M Ranges bool :=
  modify (fun g => match g with Some _ => Some [] | None => None end);;
  if negb (guardPagesSupported env) then mret false
  else modify (fun g => match g with None => Some [] | _ => g end);; mret true.

(** [record], for the area from [addr] to [areaEnd]; every turn gets past a page. *)
Fixpoint record_loop (env : Pagemap) (m : Memory) (fuel : nat) (addr areaEnd : Z) : M Ranges unit :=
  match fuel with
  | O => mret tt
  | S fuel =>
      if addr <? areaEnd then
        match scanNextGuardRange env m addr areaEnd with
        | None => mret tt
        | Some (s, e) => addRange s e;; record_loop env m fuel e areaEnd
        end
      else mret tt
  end.
Definition record (env : Pagemap) (m : Memory) (addr areaEnd : Z) : M Ranges unit :=
  record_loop env m (Z.to_nat (areaEnd - addr)) addr areaEnd.

Fixpoint find_range (l : list (Z * Z)) (addr : Z) : option (Z * Z) :=
  match l with
  | [] => None
  | (s, e) :: l => if addr <? e then Some (s, e) else find_range l addr
  end.
Definition nextRangeAfter (g : Ranges) (addr : Z) : option (Z * Z) := l ← g; find_range l addr.

(** [madvise(MADV_GUARD_INSTALL)]: the pages are dropped and cannot be accessed any more.  It fails where something is
    not mapped; the failures are counted. *)
Definition in_range (s e x : Z) : bool := (s <=? x) && (x <? e).
Definition guard_install (s e : Z) (m : Memory) : Memory :=
  mk_Memory (m_mapped m) (fun x => if in_range s e x then m_back m x else m_data m x) (m_back m)
    (fun x => if in_range s e x then false else m_present m x) (fun x => if in_range s e x then false else m_swapped m x)
    (fun x => if in_range s e x then true else m_guard m x) (m_prot m).

Definition reinstall_one (ok : Z -> Z -> bool) (r : Z * Z) (st : Memory * nat) : Memory * nat :=
  let '(s, e) := r in let '(m, failed) := st in
  if ok s e then (guard_install s e m, failed) else (m, S failed).
Definition reinstall (ok : Z -> Z -> bool) (g : Ranges) (m : Memory) : Memory * nat :=
  match g with
  | None => (m, O)
  | Some l => foldl (fun st r => reinstall_one ok r st) (m, O) l
  end.

(** ** What the list holds *)

Definition covered (l : list (Z * Z)) (x : Z) : bool := existsb (fun r => in_range (fst r) (snd r) x) l.

Definition range_ok (r : Z * Z) : Prop := aligned (fst r) /\ aligned (snd r) /\ fst r < snd r.
Definition before (r1 r2 : Z * Z) : Prop := snd r1 < fst r2.
Definition ranges_ok (l : list (Z * Z)) : Prop := Forall range_ok l /\ StronglySorted before l.
Definition below (l : list (Z * Z)) (hi : Z) : Prop := Forall (fun r => snd r <= hi) l.

Lemma in_range_spec s e x : in_range s e x = true <-> s <= x < e.
Proof. unfold in_range. rewrite andb_true_iff, Z.leb_le, Z.ltb_lt. done. Qed.

Lemma covered_cons s e l x : covered ((s, e) :: l) x = in_range s e x || covered l x.
Proof. done. Qed.

Lemma covered_app l k x : covered (l ++ k) x = covered l x || covered k x.
Proof. apply existsb_app. Qed.

Lemma below_covered l hi x : below l hi -> hi <= x -> covered l x = false.
Proof.
  unfold covered. induction l as [|[s e] l IH]; intros Hb Hx; [done|]. apply Forall_cons in Hb as [Hs Hb]. cbn in *. rewrite IH by done.
  rewrite orb_false_r. apply not_true_iff_false. rewrite in_range_spec. lia.
Qed.

Lemma ranges_ok_snoc l r : ranges_ok l -> range_ok r -> Forall (fun r' => snd r' < fst r) l -> ranges_ok (l ++ [r]).
Proof.
  intros [Hf Hs] Hr Hb. split; [by apply Forall_app_2; [|apply Forall_singleton]|].
  induction l as [|x l IH]; cbn; [repeat constructor|]. apply Forall_cons in Hf as [_ Hf]. apply Forall_cons in Hb as [Hx Hb].
  inversion Hs as [|? ? Hs1 Hs2]; subst. constructor; [by apply IH|]. apply Forall_app_2; [done|]. by apply Forall_singleton.
Qed.

Lemma last_split {A} (l : list A) x : last l = Some x -> l = removelast l ++ [x].
Proof.
  intros (k & ->)%last_Some. by rewrite removelast_last.
Qed.

(** Adding a range that is not before the others. *)
Lemma addRange_ok l s e : ranges_ok l -> below l s -> range_ok (s, e) ->
  exists l', addRange s e (Some l) = Ok tt (Some l') /\ ranges_ok l' /\ below l' e /\ forall x, covered l' x = covered l x || in_range s e x.
Proof.
  intros Hl Hb [Hs [He Hse]]. cbn in Hs, He, Hse. unfold addRange, mbind, M_bind, assertM, gets, optM, modify, mret, M_ret.
  destruct (Z.ltb_spec s e); [|lia]. cbn.
  assert (Hpush : Forall (fun r => snd r < s) l -> ranges_ok (l ++ [(s, e)]) /\ below (l ++ [(s, e)]) e /\
    forall x, covered (l ++ [(s, e)]) x = covered l x || in_range s e x).
  { intros Hlt. split_and!; [by apply ranges_ok_snoc| |intros x; rewrite covered_app; cbn; by rewrite orb_false_r].
    apply Forall_app_2; [eapply Forall_impl; [exact Hb|]; cbn; intros; lia|apply Forall_singleton; cbn; lia]. }
  destruct (last l) as [[s0 e0]|] eqn:El.
  - pose proof (last_split l _ El) as Ell. assert (e0 <= s) as Hle.
    { rewrite Ell in Hb. apply Forall_app in Hb as [_ Hb]. by inversion Hb. }
    destruct (Z.leb_spec e0 s); [|lia]. destruct (Z.eqb_spec s e0) as [->|Hne].
    + eexists. split; [done|]. set (k := removelast l) in *. clearbody k. subst l. destruct Hl as [Hf Hss].
      apply Forall_app in Hf as [Hf1 Hf2]. apply Forall_singleton in Hf2 as (Ha & _ & Hb0). cbn in Ha, Hb0.
      assert (Hbk : Forall (fun r => snd r < s0) k).
      { clear -Hss. induction k as [|y k IH]; [constructor|]. cbn in Hss. inversion Hss as [|? ? H1 H2]; subst. constructor; [|by apply IH].
        apply Forall_app in H2 as [_ H2]. exact (Forall_inv H2). }
      assert (ranges_ok k) as Hk.
      { split; [done|]. clear -Hss. induction k as [|y k IH]; [constructor|]. cbn in Hss. inversion Hss as [|? ? H1 H2]; subst.
        constructor; [by apply IH|]. by apply Forall_app in H2 as [H2 _]. }
      split_and!.
      * apply ranges_ok_snoc; [done|split_and!; cbn; [done|done|lia]|done].
      * apply Forall_app_2; [eapply Forall_impl; [exact Hbk|]; cbn; intros; lia|apply Forall_singleton; cbn; lia].
      * intros x. rewrite !covered_app. cbn. rewrite !orb_false_r, <- orb_assoc. f_equal.
        apply eq_true_iff_eq. rewrite orb_true_iff, !in_range_spec. lia.
    + eexists. split; [done|]. apply Hpush. rewrite Ell. rewrite Ell in Hl, Hb. set (k := removelast l) in *. clearbody k.
      apply Forall_app in Hb as [Hb1 Hb2]. apply Forall_app_2; [|apply Forall_singleton; cbn; lia].
      destruct Hl as [Hf Hss]. apply Forall_app in Hf as [_ Hf]. apply Forall_singleton in Hf as (_ & _ & Hf). cbn in Hf.
      clear -Hss Hf Hle. induction k as [|y k IH]; [constructor|]. cbn in Hss. inversion Hss as [|? ? H1 H2]; subst. constructor; [|by apply IH].
      apply Forall_app in H2 as [_ H2]. pose proof (Forall_inv H2) as H3. unfold before in H3. simpl in H3. lia.
  - eexists. split; [done|]. apply Hpush. destruct l as [|y l]; [constructor|]. exfalso. by apply last_None in El.
Qed.

(** ** Recording an area *)

(** The guard pages between two addresses are in the list. *)
Definition noted (m : Memory) (l : list (Z * Z)) (lo hi : Z) : Prop := forall x, lo <= x < hi -> covered l x = m_guard m x.

Lemma record_ok env m l addr areaEnd : kernel_ok m -> guardPagesSupported env = true -> ranges_ok l -> below l addr ->
  aligned addr -> aligned areaEnd -> addr <= areaEnd ->
  exists l', record env m addr areaEnd (Some l) = Ok tt (Some l') /\ ranges_ok l' /\ below l' areaEnd /\
    noted m l' addr areaEnd /\ forall x, x < addr -> covered l' x = covered l x.
Proof.
  intros Hm Hsup. unfold record. assert (Hfuel : (Z.to_nat (areaEnd - addr) <= Z.to_nat (areaEnd - addr))%nat) by lia. revert Hfuel.
  generalize (Z.to_nat (areaEnd - addr)) at 2 3 as fuel. intros fuel. revert l addr.
  induction fuel as [|fuel IH]; intros l addr Hfuel Hl Hb Ha He Hle; cbn [record_loop].
  { assert (addr = areaEnd) as -> by lia. exists l. split_and!; try done. intros x Hx. lia. }
  destruct (Z.ltb_spec addr areaEnd) as [Hlt|Hge].
  2:{ assert (addr = areaEnd) as -> by lia. exists l. split_and!; try done. intros x Hx. lia. }
  unfold scanNextGuardRange. rewrite (page_aligned addr), (page_up areaEnd), Hsup by done. destruct (Z.leb_spec areaEnd addr); [lia|].
  destruct (pages_between addr areaEnd Ha He Hle) as (n & En & Hn). cbn [negb]. rewrite Hn.
  pose proof (PAGEMAP_SCAN_ok m addr n Ha) as Hscan. rewrite <- En in Hscan.
  destruct (PAGEMAP_SCAN (guard_category m) addr n) as [[s e]|].
  - destruct Hscan as (Hs & He' & Hse & Hee & Hno & Hyes).
    destruct (addRange_ok l s e Hl) as (l1 & E1 & Hl1 & Hb1 & Hc1); [eapply Forall_impl; [exact Hb|]; cbn; intros; lia|by split_and!; cbn; try lia|].
    unfold mbind, M_bind. rewrite E1. destruct (IH l1 e) as (l2 & E2 & Hl2 & Hb2 & Hn2 & Hk2); [lia|done|done|done|done|lia|].
    exists l2. split_and!; try done.
    + intros x Hx. destruct (Z_lt_le_dec x e) as [Hxe|Hxe]; [|apply Hn2; lia]. rewrite Hk2, Hc1 by lia.
      rewrite (below_covered l addr x Hb) by lia. cbn. rewrite (k_guard m Hm x).
      destruct (Z_lt_le_dec x s) as [Hxs|Hxs].
      * destruct (page_within x addr s) as [? ?]; [done|done|lia|]. rewrite Hno by (done || lia). apply not_true_iff_false. rewrite in_range_spec. lia.
      * destruct (page_within x s e) as [? ?]; [done|done|lia|]. rewrite Hyes by (done || lia). apply in_range_spec. lia.
    + intros x Hx. rewrite Hk2, Hc1 by lia. assert (in_range s e x = false) as ->; [|by rewrite orb_false_r].
      apply not_true_iff_false. rewrite in_range_spec. lia.
  - exists l. split_and!; try done.
    + eapply Forall_impl; [exact Hb|]. cbn. intros; lia.
    + intros x Hx. rewrite (below_covered l addr x Hb) by lia. rewrite (k_guard m Hm x).
      destruct (page_within x addr areaEnd) as [? ?]; [done|done|lia|]. symmetry. by apply Hscan.
Qed.

(** ** Looking up the next range *)

Lemma find_range_ok l addr : ranges_ok l ->
  match find_range l addr with
  | Some (s, e) => range_ok (s, e) /\ addr < e /\ (forall x, addr <= x < s -> covered l x = false) /\ (forall x, s <= x < e -> covered l x = true)
  | None => forall x, addr <= x -> covered l x = false
  end.
Proof.
  intros [Hf Hs]. induction Hs as [|[s e] l Hs IH Hb]; cbn [find_range]; [done|].
  apply Forall_cons in Hf as [Hr Hf]. specialize (IH Hf). destruct (Z.ltb_spec addr e) as [Hlt|Hge].
  - split_and!; try done; intros x Hx; rewrite covered_cons.
    + assert (in_range s e x = false) as -> by (apply not_true_iff_false; rewrite in_range_spec; lia). cbn.
      destruct Hr as (_ & _ & Hr). cbn in Hr. apply not_true_iff_false. intros (r & Hin & Hr')%existsb_exists. apply in_range_spec in Hr'.
      apply Forall_forall with (x := r) in Hb; [|by apply list_elem_of_In]. unfold before in Hb. cbn in Hb. lia.
    + by rewrite (proj2 (in_range_spec s e x)).
  - assert (Hout : forall x, addr <= x -> covered ((s, e) :: l) x = covered l x).
    { intros x Hx. rewrite covered_cons. assert (in_range s e x = false) as ->; [|done]. apply not_true_iff_false. rewrite in_range_spec. lia. }
    assert (Hin : forall x, covered l x = true -> covered ((s, e) :: l) x = true) by (intros x Hx; rewrite covered_cons; by rewrite Hx, orb_true_r).
    destruct (find_range l addr) as [[s' e']|]; [|intros x Hx; rewrite Hout by done; by apply IH].
    destruct IH as (H1 & H2 & H3 & H4). split_and!; try done.
    + intros x Hx. rewrite Hout by lia. by apply H3.
    + intros x Hx. by apply Hin, H4.
Qed.

(** After a restart all recorded pages are guard pages again, if the kernel lets them. *)
Lemma reinstall_ok l m : exists m', reinstall (fun _ _ => true) (Some l) m = (m', O) /\
  (forall x, m_guard m' x = covered l x || m_guard m x) /\ (forall x, covered l x = false -> m_data m' x = m_data m x /\ m_prot m' x = m_prot m x /\ m_mapped m' x = m_mapped m x).
Proof.
  cbn [reinstall]. revert m. induction l as [|[s e] l IH]; intros m; cbn [foldl].
  - exists m. split_and!; try done.
  - destruct (IH (guard_install s e m)) as (m' & E & H1 & H2). exists m'. split; [exact E|]. split.
    + intros x. rewrite H1, covered_cons. cbn. destruct (in_range s e x), (covered l x); cbn; done.
    + intros x Hx. rewrite covered_cons in Hx. apply orb_false_iff in Hx as [Hx1 Hx2]. destruct (H2 x Hx2) as (-> & -> & ->). cbn. by rewrite Hx1.
Qed.
