(* ===== verification/CkptWrite.v ===== *)
(** * Writing the memory of a process to the checkpoint image (src/writeckpt.cpp)

    [mtcp_writememoryareas] goes over the areas of /proc/self/maps and writes for each a header and its
    contents.  Anonymous memory is written as a parent header without data and a sequence of child headers: runs of
    zero (or absent) pages without data, which are also given back to the kernel, and other runs with
    their data; guard pages are never read.  A mapped file is one header and one block of data.

    The image is a list of [cell]s: a header is the [sizeof(Area)] bytes of the struct, written and
    read as one.  The state is the image, the memory (PageScan) and the recorded guard pages (GuardPages); what the
    code asks the system about ([stat], [sbrk], the plugins) is in [Env]. *)

From Stdlib Require Import ZArith Lia Ascii.
From stdpp Require Import base gmap strings numbers list.
From S2P Require Import Prelude CText ProcMaps PageScan GuardPages.
Open Scope Z_scope.

Abbreviation Area := ProcMapsArea.
#[export] Instance eta_Area : Settable Area :=
  {| eta_of a := mk_Area (a_addr a) (a_endAddr a) (a_size a) (a_offset a) (a_prot a) (a_flags a) (a_devmajor a) (a_devminor a)
       (a_inodenum a) (a_mmapFileSize a) (a_properties a) (a_name a) |}.

Definition DMTCP_ZERO_PAGE : Z := 1.
Definition DMTCP_ZERO_PAGE_PARENT_HEADER : Z := 2.
Definition DMTCP_ZERO_PAGE_CHILD_HEADER : Z := 4.

Inductive cell : Type := Header (a : Area) | Data (b : Z).

Record Writer : Type := mk_Writer { w_image : list cell; w_mem : Memory; w_guards : Ranges }.
#[export] Instance eta_Writer : Settable Writer := {| eta_of w := mk_Writer (w_image w) (w_mem w) (w_guards w) |}.

(** The plugins' [dmtcp_skip_memory_region_ckpting], if there is one; [stat] gives whether the file is a regular one, and its size. *)
Record Env : Type := mk_Env {
  e_restoreBuf : Z; e_sharedData : Z; e_vdso : Z; e_brk : Z; e_infiniband : bool; e_madvise : bool;
  e_stat : string -> option (bool * Z); e_exists : string -> bool; e_pagemap : Pagemap; e_skip : option (Area -> bool * Z) }.

(** ** Output *)

Definition emit (cs : list cell) : M Writer unit := modify (fun w => w <| w_image ::= fun i => i ++ cs |>).

Definition writeCkptAll (addr count : Z) : M Writer unit :=
  m ← gets w_mem;
  bs ← optM (AssertFailed "failed to write checkpoint data") (read_bytes m addr (Z.to_nat count));
  emit (Data <$> bs).

Fixpoint zeros_loop (fuel : nat) (count : Z) : M Writer unit :=
  match fuel with
  | O => mret tt
  | S fuel =>
      if 0 <? count then
        let chunk := Z.min count 4096 in
        emit (replicate (Z.to_nat chunk) (Data 0));; zeros_loop fuel (count - chunk)
      else mret tt
  end.
Definition writeCkptZeros (count : Z) : M Writer unit := zeros_loop (Z.to_nat count) count.

Fixpoint skipping_loop (fuel : nat) (cur stop : Z) : M Writer unit :=
  match fuel with
  | O => mret tt
  | S fuel =>
      g ← gets w_guards;
      match (if cur <? stop then nextRangeAfter g cur else None) with
      | Some (s, e) =>
          if stop <=? s then writeCkptAll cur (stop - cur)
          else
            let guardStart := Z.max s cur in
            let guardEnd := Z.min e stop in
            writeCkptAll cur (guardStart - cur);;
            writeCkptZeros (guardEnd - guardStart);;
            skipping_loop fuel guardEnd stop
      | None => writeCkptAll cur (stop - cur)
      end
  end.
Definition writeCkptSkippingGuards (addr count : Z) : M Writer unit := skipping_loop (S (Z.to_nat count)) addr (addr + count).

Definition writeAreaHeader (a : Area) : M Writer unit :=
  assertM (a_addr a + a_size a =? a_endAddr a) "invalid checkpoint area bounds";;
  emit [Header a].

(** [madvise(MADV_DONTNEED)]. *)
Definition dontneed (s e : Z) (m : Memory) : Memory :=
  mk_Memory (m_mapped m) (fun x => if in_range s e x then m_back m x else m_data m x) (m_back m)
    (fun x => if in_range s e x then false else m_present m x) (fun x => if in_range s e x then false else m_swapped m x) (m_guard m) (m_prot m).
Definition mprotect (s e prot : Z) (m : Memory) : Memory :=
  mk_Memory (m_mapped m) (m_data m) (m_back m) (m_present m) (m_swapped m) (m_guard m) (fun x => if in_range s e x then prot else m_prot m x).

(** ** Anonymous memory *)

Definition one_MB : Z := 1024 * 1024.

Fixpoint page_range_loop (m : Memory) (fuel : nat) (pg stop : Z) (is_zero : bool) (size : Z) : option Z :=
  match fuel with
  | O => Some size
  | S fuel =>
      if pg <? stop then
        let minsize := Z.min one_MB (stop - pg) in
        z ← areZeroPages m pg (Z.to_nat (minsize / PAGE));
        if Bool.eqb is_zero z then page_range_loop m fuel (pg + one_MB) stop is_zero (size + minsize) else Some size
      else Some size
  end.

(** The size of the run and whether it is zero; [None]: reading raised a signal. *)
Definition mtcp_get_next_page_range (m : Memory) (addr size : Z) : option (Z * bool) :=
  if size <? one_MB then Some (size, false)
  else
    is_zero ← areZeroPages m addr (Z.to_nat (one_MB / PAGE));
    n ← page_range_loop m (Z.to_nat (size / one_MB) + 1) (addr + one_MB) (addr + size) is_zero one_MB;
    Some (n, is_zero).

Definition child (area : Area) (size : Z) (is_zero : bool) : Area :=
  area <| a_properties := Z.lor (if is_zero then DMTCP_ZERO_PAGE else 0) DMTCP_ZERO_PAGE_CHILD_HEADER |>
       <| a_size := size |> <| a_endAddr := a_addr area + size |>.

Definition past (area : Area) (size : Z) : Area := area <| a_addr ::= Z.add size |> <| a_size ::= fun s => s - size |>.

(** How the next run is found between [addr] and [chunkEnd]. *)
Definition next_run (env : Env) (resid : bool) (m : Memory) (addr chunkEnd : Z) : option (Z * bool) :=
  if e_infiniband env then Some (chunkEnd - addr, false)
  else if resid then
    let '(z, n) := scanOccupiedRangeBatch (e_pagemap env) m addr chunkEnd in
    if n =? 0 then Some (chunkEnd - addr, false) else Some (n, z)
  else mtcp_get_next_page_range m addr (chunkEnd - addr).

Fixpoint anonymous_loop (env : Env) (resid : bool) (fuel : nat) (area : Area) (guard : option (Z * Z)) : M Writer unit :=
  match fuel with
  | O => faultM (Blocked "mtcp_write_anonymous_pages")
  | S fuel =>
      if 0 <? a_size area then
        let addr := a_addr area in
        let areaEnd := addr + a_size area in
        g ← gets w_guards;
        let guard := match guard with Some (_, e) => if e <=? addr then nextRangeAfter g addr else guard | None => None end in
        let found := match guard with Some (s, e) => s <=? addr | None => false end in
        if found then
          let size := match guard with Some (_, e) => Z.min (a_size area) (e - addr) | None => 0 end in
          writeAreaHeader (child area size true);;
          anonymous_loop env resid fuel (past area size) guard
        else
          let chunkEnd := match guard with Some (s, _) => if s <? areaEnd then s else areaEnd | None => areaEnd end in
          assertM (addr <? chunkEnd) "guard-bounded chunk made no progress";;
          m ← gets w_mem;
          r ← optM (OutOfBounds "page scan") (next_run env resid m addr chunkEnd);
          let size := fst (r : Z * bool) in
          let a := child area size (snd r) in
          writeAreaHeader a;;
          (if snd r then whenM (e_madvise env) (modify (fun w => w <| w_mem := dontneed addr (addr + size) (w_mem w) |>))
           else writeCkptAll addr size);;
          anonymous_loop env resid fuel (past area size) guard
      else mret tt
  end.

Definition mtcp_write_anonymous_pages (env : Env) (area : Area) (resid : bool) : M Writer unit :=
  let area := area <| a_properties ::= Z.lor DMTCP_ZERO_PAGE_PARENT_HEADER |> in
  writeAreaHeader area;;
  let area := area <| a_properties ::= Z.lxor DMTCP_ZERO_PAGE_PARENT_HEADER |> in
  g ← gets w_guards;
  anonymous_loop env resid (S (Z.to_nat (a_size area))) area (nextRangeAfter g (a_addr area)).

(** ** One area *)

Definition isNscdArea (a : Area) : bool :=
  strStartsWith (a_name a) "/run/nscd" || strStartsWith (a_name a) "/var/run/nscd" || strStartsWith (a_name a) "/var/cache/nscd"
  || strStartsWith (a_name a) "/var/db/nscd" || strStartsWith (a_name a) "/ram/var/run/nscd".
Definition isSysVShmArea (a : Area) : bool := strStartsWith (a_name a) "/SYSV".
Definition isIBShmArea (a : Area) : bool := strStartsWith (a_name a) "/dev/infiniband/uverbs".

Definition has (bits v : Z) : bool := negb (Z.land bits v =? 0).
Definition unnamed (a : Area) : bool := String.eqb (a_name a) "".

Definition areaStat (env : Env) (a : Area) : option (bool * Z) :=
  if negb (unnamed a) && negb (has (a_flags a) MAP_ANONYMOUS) then e_stat env (a_name a) else None.
Definition offsetPastEof (env : Env) (a : Area) : bool :=
  match areaStat env a with Some (regular, size) => regular && (size <=? a_offset a) | None => false end.
Definition residencyScanSafe (env : Env) (a : Area) : bool :=
  offsetPastEof env a || (unnamed a && has (a_flags a) MAP_PRIVATE && negb (has (a_flags a) MAP_SHARED)).

Definition HIGHEST_VA : Z := 0x7f00000000.

(** The early returns. *)
Definition not_saved (env : Env) (a : Area) : bool :=
  (a_addr a =? e_restoreBuf env) || (a_addr a =? e_sharedData env)
  || ((HIGHEST_VA <=? a_addr a) && (a_addr a =? 0xffffe000)) || ((HIGHEST_VA <=? a_addr a) && (a_addr a =? 0xffffffffff600000))
  || (a_size a =? 0)
  || String.eqb (a_name a) "[vsyscall]" || String.eqb (a_name a) "[vectors]" || String.eqb (a_name a) "[vvar]" || String.eqb (a_name a) "[vvar_vclock]"
  || (a_addr a =? e_vdso env).

Definition as_anonymous (a : Area) : Area := a <| a_flags := Z.lor MAP_PRIVATE MAP_ANONYMOUS |> <| a_name := "" |>.

(** What becomes of the other areas: saved, perhaps as anonymous memory, or only a header, or nothing. *)
Inductive treatment : Type := Save (a : Area) | HeaderOnly (a : Area) | Nothing.

Definition reclassify (env : Env) (a : Area) : treatment :=
  if strStartsWith (a_name a) "/dev/zero (deleted)" || strStartsWith (a_name a) "/dev/null (deleted)" then Save (as_anonymous a)
  else if isSysVShmArea a then Save (as_anonymous a)
  else if offsetPastEof env a then Save ((as_anonymous a) <| a_offset := 0 |> <| a_mmapFileSize := -1 |>)
  else if isNscdArea a then
    HeaderOnly (a <| a_prot := Z.lor PROT_READ PROT_WRITE |> <| a_properties ::= Z.lor DMTCP_ZERO_PAGE |> <| a_flags := Z.lor MAP_PRIVATE MAP_ANONYMOUS |>)
  else if isIBShmArea a then Nothing
  else Save a.

Definition label_heap (env : Env) (a : Area) : Area :=
  if unnamed a && (a_addr a <? e_brk env) && (e_brk env <=? a_addr a + a_size a) then a <| a_name := "[heap]" |> else a.

(** How much of a mapped file is written. *)
Definition with_mmapFileSize (st : option (bool * Z)) (a : Area) : Area :=
  match st with
  | Some (_, st_size) =>
      if has (a_prot a) PROT_WRITE || (a_offset a + a_size a <? st_size) then a <| a_mmapFileSize := a_size a |>
      else a <| a_mmapFileSize := Z.max 0 (st_size - a_offset a) |>
  | None => a
  end.

Definition write_file (env : Env) (st : option (bool * Z)) (a : Area) : M Writer unit :=
  assertM (negb (unnamed a)) "checkpoint file-backed area has an empty path";;
  let a := with_mmapFileSize st a in
  writeAreaHeader a;;
  writeCkptSkippingGuards (a_addr a) (if 0 <? a_mmapFileSize a then a_mmapFileSize a else a_size a).

Definition write_saved (env : Env) (st : option (bool * Z)) (resid : bool) (a : Area) : M Writer unit :=
  let setprot p := modify (fun w => w <| w_mem ::= mprotect (a_addr a) (a_addr a + a_size a) p |>) in
  whenM (negb (has (a_prot a) PROT_READ)) (setprot (Z.lor (a_prot a) PROT_READ));;
  (if has (a_flags a) MAP_ANONYMOUS then mtcp_write_anonymous_pages env a resid
   else if negb (e_exists env (a_name a)) then mtcp_write_anonymous_pages env a resid
   else write_file env st a);;
  whenM (negb (has (a_prot a) PROT_READ)) (setprot (a_prot a)).

Definition writememoryarea (env : Env) (a : Area) : M Writer unit :=
  let st := areaStat env a in
  let resid := residencyScanSafe env a in
  if not_saved env a then mret tt
  else match reclassify env a with
  | Nothing => mret tt
  | HeaderOnly a => writeAreaHeader a
  | Save a => write_saved env st resid (label_heap env a)
  end.

(** ** All areas *)

(** [Util::getNextNonSkipArea]: the next part of the area that is to be saved, and the rest. *)
Fixpoint getNextNonSkipArea {S} (env : Env) (fuel : nat) (unchecked : Area) : M S (option (Area * Area)) :=
  match fuel with
  | O => mret None
  | Datatypes.S fuel =>
      if a_size unchecked =? 0 then mret None
      else
        let '(skip, uncheckedAddr) := match e_skip env with Some f => f unchecked | None => (false, a_endAddr unchecked) end in
        assertM ((a_addr unchecked <? uncheckedAddr) && (uncheckedAddr <=? a_endAddr unchecked)) "uncheckedAddr outside the area";;
        let next := unchecked <| a_endAddr := uncheckedAddr |> <| a_size := uncheckedAddr - a_addr unchecked |> in
        let rest := unchecked <| a_addr := uncheckedAddr |> <| a_size := a_endAddr unchecked - uncheckedAddr |> in
        let rest := if has (a_flags unchecked) MAP_ANONYMOUS then rest else rest <| a_offset ::= Z.add (a_size next) |> in
        if (skip : bool) then getNextNonSkipArea env fuel rest else mret (Some (next, rest))
  end.

(** The loop over the parts of an area. *)
Fixpoint for_parts {S} (env : Env) (fuel : nat) (f : Area -> M S unit) (unchecked : Area) : M S unit :=
  match fuel with
  | O => mret tt
  | Datatypes.S fuel =>
      r ← getNextNonSkipArea env (Datatypes.S (Z.to_nat (a_size unchecked))) unchecked;
      match r with
      | None => mret tt
      | Some (next, rest) => f next;; for_parts env fuel f rest
      end
  end.
Definition parts_fuel (a : Area) : nat := Datatypes.S (Z.to_nat (a_size a)).

Definition zoom_guards (r : M Ranges unit) : M Writer unit := zoom w_guards (fun g w => w <| w_guards := g |>) r.

Definition recordGuardPages (env : Env) (areas : list Area) : M Writer unit :=
  recordGuards ← zoom w_guards (fun g w => w <| w_guards := g |>) (beginRecording (e_pagemap env));
  whenM recordGuards (forM areas (fun a =>
    m ← gets w_mem;
    for_parts env (parts_fuel a) (fun p => zoom_guards (record (e_pagemap env) m (a_addr p) (a_endAddr p))) a)).

(** [remap_nscd_areas]: [munmap] and [mmap] of fresh pages in its place. *)
Definition mmap_zero (s e prot : Z) (m : Memory) : Memory :=
  mk_Memory (fun x => in_range s e x || m_mapped m x) (fun x => if in_range s e x then Some 0 else m_data m x)
    (fun x => if in_range s e x then Some 0 else m_back m x) (fun x => if in_range s e x then false else m_present m x) (fun x => if in_range s e x then false else m_swapped m x)
    (fun x => if in_range s e x then false else m_guard m x) (fun x => if in_range s e x then prot else m_prot m x).
Definition remap_nscd_areas (areas : list Area) : M Writer unit :=
  forM areas (fun a => modify (fun w => w <| w_mem ::= mmap_zero (a_addr a) (a_addr a + a_size a) (a_prot a) |>)).

Definition end_marker (a : Area) : Area := a <| a_addr := 0 |> <| a_size := 2 ^ 64 - 1 |>.

Definition mtcp_writememoryareas (env : Env) (areas : list Area) (last_area : Area) : M Writer unit :=
  recordGuardPages env areas;;
  forM areas (fun a => for_parts env (parts_fuel a) (writememoryarea env) a);;
  remap_nscd_areas (filter (fun a => isNscdArea a = true) areas);;
  emit [Header (end_marker last_area)].
