(* ===== verification/CkptRestore.v ===== *)
(** * Rebuilding the memory from the image (src/mtcp/mtcp_restart.c)

    [mtcp_readmemoryareas] reads one header after another.  A header that is not a child's is mapped at its old
    address, where nothing may be mapped yet; then its data, if it has any, is read into place, and pages that were
    not writable are protected again.  The state is the unread part of the image, the memory and the calls of
    [mmap] so far. *)

From Stdlib Require Import ZArith Lia Ascii.
From stdpp Require Import base gmap strings numbers list.
From S2P Require Import Prelude CText ProcMaps PageScan GuardPages CkptWrite.
Open Scope Z_scope.

Definition MAP_GROWSDOWN : Z := 256.
Definition MAP_NORESERVE : Z := 16384.
Definition MAP_FIXED_NOREPLACE : Z := 0x100000.
Definition MAP_NORESERVE_SIZE_THRESHOLD : Z := 1024 * 1024 * 1024.

(** A file as it is at the restart: its size and its bytes. *)
Record File : Type := mk_File { f_size : Z; f_byte : Z -> Z }.

Record MmapCall : Type := mk_MmapCall { mm_addr : Z; mm_len : Z; mm_prot : Z; mm_flags : Z; mm_file : option string; mm_offset : Z }.

Record Reader : Type := mk_Reader { r_image : list cell; r_mem : Memory; r_mmaps : list MmapCall }.
#[export] Instance eta_Reader : Settable Reader := {| eta_of r := mk_Reader (r_image r) (r_mem r) (r_mmaps r) |}.

(** The files that can be opened, the end of the stack from the header of the image, and what is in the
    local variable [area] before it is read. *)
Record REnv : Type := mk_REnv { re_open : string -> option File; re_endOfStack : Z; re_garbage : Area }.

(** ** Input *)

(** [mtcp_readfile] into a header; nothing is read at the end of the file. *)
Definition read_header (env : REnv) : M Reader Area :=
  i ← gets r_image;
  match i with
  | [] => mret (re_garbage env)
  | Header a :: rest => modify (fun r => r <| r_image := rest |>);; mret a
  | Data _ :: _ => faultM (OutOfBounds "data where a header is expected")
  end.

(** The data cells at the head, [n] at most. *)
Fixpoint take_data (n : nat) (i : list cell) : option (list Z * list cell) :=
  match n, i with
  | O, _ => Some ([], i)
  | S n, [] => Some ([], [])
  | S n, Data b :: i => '(bs, rest) ← take_data n i; Some (b :: bs, rest)
  | S n, Header _ :: _ => None
  end.

Definition can_write (m : Memory) (x : Z) : bool :=
  m_mapped m x && negb (m_guard m x) && Z.testbit (m_prot m x) WRITABLE && bool_decide (is_Some (m_data m x)).

Fixpoint all_writable (m : Memory) (a : Z) (n : nat) : bool :=
  match n with O => true | S n => can_write m a && all_writable m (a + 1) n end.

Definition store_bytes (m : Memory) (a : Z) (bs : list Z) : Memory :=
  mk_Memory (m_mapped m) (fun x => if in_range a (a + Z.of_nat (length bs)) x then bs !! Z.to_nat (x - a) else m_data m x) (m_back m)
    (fun x => in_range a (a + Z.of_nat (length bs)) x || m_present m x)
    (fun x => if in_range a (a + Z.of_nat (length bs)) x then false else m_swapped m x) (m_guard m) (m_prot m).

(** [mtcp_readfile] into memory: a fault of the copy aborts. *)
Definition mtcp_readfile (addr size : Z) : M Reader unit :=
  r ← gets id;
  match take_data (Z.to_nat size) (r_image r) with
  | None => faultM (OutOfBounds "a header where data is expected")
  | Some (bs, rest) =>
      if all_writable (r_mem r) addr (length bs)
      then modify (fun r => r <| r_image := rest |> <| r_mem := store_bytes (r_mem r) addr bs |>)
      else faultM (AssertFailed "error reading checkpoint")
  end.

(** ** Mapping *)

Definition mapping (s e prot : Z) (contents : Z -> option Z) (m : Memory) : Memory :=
  mk_Memory (fun x => in_range s e x || m_mapped m x) (fun x => if in_range s e x then contents x else m_data m x)
    (fun x => if in_range s e x then contents x else m_back m x) (fun x => if in_range s e x then false else m_present m x) (fun x => if in_range s e x then false else m_swapped m x)
    (fun x => if in_range s e x then false else m_guard m x) (fun x => if in_range s e x then prot else m_prot m x).

(** A private mapping of a file: the rest of its last page is zero, behind it there is nothing. *)
Definition file_contents (f : File) (addr offset : Z) (x : Z) : option Z :=
  let o := offset + (x - addr) in
  if o <? f_size f then Some (f_byte f o) else if o <? page_of (f_size f + PAGE - 1) then Some 0 else None.

(** It fails if a page is already mapped, or if there is neither a file nor the flag for anonymous memory. *)
Definition mmap_fixed_noreplace (addr len prot flags : Z) (fd : option (string * File)) (offset : Z) : M Reader bool :=
  let flags := Z.lor (if has flags MAP_FIXED then Z.lxor flags MAP_FIXED else flags) MAP_FIXED_NOREPLACE in
  m ← gets r_mem;
  let pages := Z.to_nat (len / PAGE) in
  if (run (fun a => negb (m_mapped m a)) addr pages =? pages)%nat && (has flags MAP_ANONYMOUS || bool_decide (fd <> None)) then
    modify (fun r => r <| r_mem ::= mapping addr (addr + len) prot
                            (match fd with Some (_, f) => file_contents f addr offset | None => fun _ => Some 0 end) |>
                       <| r_mmaps ::= fun l => l ++ [mk_MmapCall addr len prot flags (option_map fst fd) offset] |>);;
    mret true
  else mret false.

Definition mtcp_mprotect (a : Area) : M Reader unit :=
  modify (fun r => r <| r_mem ::= mprotect (a_addr a) (a_addr a + a_size a) (a_prot a) |>).

(** ** One header *)

Fixpoint strstr (s pattern : string) : bool :=
  str_prefix pattern s || match s with EmptyString => false | String _ s => strstr s pattern end.

Definition starts_with_slash (a : Area) : bool := match a_name a with String c _ => Ascii.eqb c "/" | EmptyString => false end.

Definition grows_down (env : REnv) (a : Area) : bool :=
  (negb (unnamed a) && negb (starts_with_slash a) && strstr (a_name a) "stack") || (a_endAddr a =? re_endOfStack env).

Definition adjust_flags (env : REnv) (a : Area) : Area :=
  let a := if grows_down env a then a <| a_flags ::= Z.lor MAP_GROWSDOWN |> else a in
  if has (a_flags a) MAP_SHARED
  then a <| a_flags ::= fun f => Z.lor (Z.lor (Z.lxor f MAP_SHARED) MAP_PRIVATE) MAP_ANONYMOUS |> else a.

(** The file to map, if there is one that is long enough. *)
Definition open_file (env : REnv) (a : Area) : option (string * File) * Area :=
  if starts_with_slash a && negb (has (a_flags a) MAP_ANONYMOUS) then
    match re_open env (a_name a) with
    | Some f =>
        if (f_size f <? a_offset a + a_size a) && has (a_prot a) PROT_WRITE
        then (None, a <| a_offset := 0 |> <| a_flags ::= Z.lor MAP_ANONYMOUS |>)
        else (Some (a_name a, f), a)
    | None => (None, a)
    end
  else (None, a).

Definition map_area (env : REnv) (a : Area) : M Reader Area :=
  let '(imagefd, a) := open_file env a in
  let a := if bool_decide (imagefd = None) && has (a_flags a) MAP_PRIVATE then a <| a_flags ::= Z.lor MAP_ANONYMOUS |> else a in
  let noreserve := has (a_flags a) MAP_ANONYMOUS && (MAP_NORESERVE_SIZE_THRESHOLD <=? a_size a) in
  let mmapFlags := if noreserve then Z.lor (a_flags a) MAP_NORESERVE else a_flags a in
  assertM (negb (has (a_flags a) MAP_ANONYMOUS) || bool_decide (imagefd = None)) "anonymous memory region";;
  ok ← mmap_fixed_noreplace (a_addr a) (a_size a) (Z.lor (a_prot a) PROT_WRITE) mmapFlags imagefd (a_offset a);
  assertM ok "mmappedat == area.addr";;
  mret a.

Definition read_contents (a : Area) : M Reader unit :=
  (if (0 <? a_mmapFileSize a) && starts_with_slash a then mtcp_readfile (a_addr a) (a_mmapFileSize a) else mtcp_readfile (a_addr a) (a_size a));;
  whenM (negb (has (a_prot a) PROT_WRITE)) (mtcp_mprotect a).

(** [true]: another header may follow. *)
Definition restore_area (env : REnv) (a : Area) : M Reader bool :=
  if a_addr a =? 0 then mret false
  else
    let a := adjust_flags env a in
    if has (a_properties a) DMTCP_ZERO_PAGE then whenM (negb (has (a_prot a) PROT_WRITE)) (mtcp_mprotect a);; mret true
    else
      a ← (if has (a_properties a) DMTCP_ZERO_PAGE_CHILD_HEADER then mret a else map_area env a);
      whenM (negb (has (a_properties a) DMTCP_ZERO_PAGE_PARENT_HEADER)) (read_contents a);;
      mret true.

Definition read_one_memory_area (env : REnv) : M Reader bool := a ← read_header env; restore_area env a.

(** One turn per header is enough; past the end of the image the turns may never end. *)
Fixpoint readmemoryareas_loop (env : REnv) (fuel : nat) : M Reader unit :=
  match fuel with
  | O => faultM (Blocked "mtcp_readmemoryareas")
  | S fuel =>
      more ← read_one_memory_area env;
      if (more : bool) then readmemoryareas_loop env fuel else mret tt
  end.
Definition mtcp_readmemoryareas (env : REnv) : M Reader unit :=
  n ← gets (fun r => length (r_image r));
  readmemoryareas_loop env (S n).
