(* ===== verification/CkptImage.v ===== *)
(** * The checkpoint image: what is written is what is restored

    The facts about the writer (CkptWrite) and the reader (CkptRestore), and the theorems that join them.  [child_cells]
    is what the writer emits for anonymous memory, [saved_cells] for any area; the reader is proved to rebuild from them
    every byte that could be read. *)

From Stdlib Require Import ZArith Lia Ascii Sorted.
From stdpp Require Import base gmap strings numbers list.
From S2P Require Import Prelude CText ProcMaps PageScan GuardPages CkptWrite CkptRestore.
Open Scope Z_scope.

(** ** Output *)

Lemma emit_ok cs i m g : emit cs (mk_Writer i m g) = Ok tt (mk_Writer (i ++ cs) m g).
Proof. done. Qed.

Lemma writeAreaHeader_ok a i m g : a_addr a + a_size a = a_endAddr a -> writeAreaHeader a (mk_Writer i m g) = Ok tt (mk_Writer (i ++ [Header a]) m g).
Proof. intros H. unfold writeAreaHeader, assertM. apply Z.eqb_eq in H. by rewrite H. Qed.

Lemma writeCkptAll_ok addr n bs i m g : read_bytes m addr (Z.to_nat n) = Some bs ->
  writeCkptAll addr n (mk_Writer i m g) = Ok tt (mk_Writer (i ++ (Data <$> bs)) m g).
Proof. intros H. unfold writeCkptAll, gets, mbind, M_bind. cbn [w_mem]. by rewrite H. Qed.

Lemma writeCkptZeros_ok count i m g : 0 <= count ->
  writeCkptZeros count (mk_Writer i m g) = Ok tt (mk_Writer (i ++ replicate (Z.to_nat count) (Data 0)) m g).
Proof.
  intros Hc. unfold writeCkptZeros. assert (Hf : (Z.to_nat count <= Z.to_nat count)%nat) by lia. revert Hf.
  generalize (Z.to_nat count) at 2 3 as fuel. intros fuel. revert i count Hc. induction fuel as [|fuel IH]; intros i count Hc Hf; cbn [zeros_loop].
  - assert (count = 0) as -> by lia. cbn. by rewrite app_nil_r.
  - destruct (Z.ltb_spec 0 count) as [Hlt|Hge].
    + unfold mbind, M_bind. rewrite emit_ok, IH by lia. do 2 f_equal. rewrite <- app_assoc, <- replicate_add. do 2 f_equal. lia.
    + assert (count = 0) as -> by lia. cbn. by rewrite app_nil_r.
Qed.

(** ** Finding the next run of pages *)

Definition reliable (p : Pagemap) : Prop := pe_open p = true /\ (pe_scan p = true \/ forall a n, (n <= pe_read p a n)%nat).

(** A byte that is no guard page's can be saved: it can be read (and it is zero if its page is absent and absent pages
    are taken for zeros), or it is behind the end of a file and the pagemap tells that nothing is there. *)
Definition savable (env : Env) (resid : bool) (m : Memory) (x : Z) : Prop :=
  m_mapped m x = true /\ Z.testbit (m_prot m x) READABLE = true /\
  (is_Some (m_data m x) /\ (resid = true -> m_present m x = false -> m_data m x = Some 0) \/
   m_data m x = None /\ m_present m x = false /\ resid = true /\ e_infiniband env = false /\ reliable (e_pagemap env)).

Lemma savable_readable env resid m x v : savable env resid m x -> m_guard m x = false -> m_data m x = Some v -> read_byte m x = Some v.
Proof. intros (H1 & H2 & _) Hg Hd. unfold read_byte. by rewrite H1, H2, Hg. Qed.

Lemma leading_of_scan env m start stop : reliable env -> aligned start -> aligned stop -> start < stop ->
  leading_run m start stop (scanOccupiedRangeBatch env m start stop).
Proof.
  intros [Ho Hr] Hs He Hlt. destruct (pe_scan env) eqn:Es; [exact (proj1 (scan_by_ioctl env m start stop Hs He Hlt Ho Es))|].
  destruct Hr as [?|Hr]; [done|]. exact (proj1 (scan_by_reads env m start stop Hs He Hlt Ho Es Hr)).
Qed.

Lemma page_range_loop_ok m fuel pg stop z size : kernel_ok m -> readable m pg (stop - pg) -> aligned pg -> aligned stop -> aligned size -> pg <= stop ->
  exists n, page_range_loop m fuel pg stop z size = Some n /\ size <= n <= size + (stop - pg) /\ aligned n /\
    (z = true -> zero m pg (n - size)).
Proof.
  intros Hm. revert pg size. induction fuel as [|fuel IH]; intros pg size Hr Hp Hs Hz Hle; cbn [page_range_loop].
  { exists size. split_and!; [done|lia|lia|done|intros _ x; lia]. }
  destruct (Z.ltb_spec pg stop) as [Hlt|Hge]; [|exists size; split_and!; [done|lia|lia|done|intros _ x; lia]].
  set (ms := Z.min one_MB (stop - pg)).
  assert (Hms : aligned ms) by (unfold ms; destruct (Z.min_spec one_MB (stop - pg)) as [[_ ->]|[_ ->]]; [done|auto with pages]).
  assert (Hms0 : 0 < ms <= stop - pg) by (unfold ms, one_MB; lia).
  destruct (pages_between 0 ms) as (k & Ek & Hk); [done|done|lia|]. rewrite Z.sub_0_r in Hk. rewrite Hk.
  destruct (areZeroPages_ok m Hm pg k) as (b & Eb & Hb); [intros x Hx; apply Hr; lia|]. rewrite Eb. cbn [mbind option_bind].
  replace (Z.of_nat k * PAGE) with ms in Hb by lia.
  destruct (Bool.eqb_spec z b) as [<-|Hne]; [|exists size; split_and!; [done|lia|lia|done|intros _ x; lia]].
  destruct (Z_lt_le_dec (stop - pg) one_MB) as [Hlast|Hmore].
  - (* the last piece *)
    assert (Ems : ms = stop - pg) by (unfold ms; lia). exists (size + ms). destruct fuel as [|fuel]; cbn [page_range_loop].
    + split_and!; [done|lia|lia|auto with pages|intros Hzt; replace (size + ms - size) with ms by lia; by apply Hb].
    + destruct (Z.ltb_spec (pg + one_MB) stop); [unfold one_MB in *; lia|].
      split_and!; [done|lia|lia|auto with pages|intros Hzt; replace (size + ms - size) with ms by lia; by apply Hb].
  - assert (Ems : ms = one_MB) by (unfold ms; lia).
    destruct (IH (pg + one_MB) (size + ms)) as (n & En & Hn & Ha & Hzr); [intros x Hx; apply Hr; unfold one_MB in *; lia|by apply aligned_add|done|by apply aligned_add|lia|].
    exists n. split_and!; [done|lia|lia|done|]. intros Hzt. replace (n - size) with (one_MB + (n - (size + ms))) by lia.
    apply zero_split; [unfold one_MB; lia|lia|]. split; [rewrite <- Ems; by apply Hb|by apply Hzr].
Qed.

Lemma get_next_page_range_ok m addr size : kernel_ok m -> readable m addr size -> aligned addr -> aligned size -> 0 < size ->
  exists n z, mtcp_get_next_page_range m addr size = Some (n, z) /\ 0 < n <= size /\ aligned n /\ (z = true -> zero m addr n).
Proof.
  intros Hm Hr Ha Hs H0. unfold mtcp_get_next_page_range. destruct (Z.ltb_spec size one_MB) as [Hlt|Hge].
  { exists size, false. split_and!; [done|lia|lia|done|done]. }
  assert (EMB : Z.of_nat (Z.to_nat (one_MB / PAGE)) * PAGE = one_MB) by done.
  destruct (areZeroPages_ok m Hm addr (Z.to_nat (one_MB / PAGE))) as (b & Eb & Hb); rewrite EMB in *; [intros x Hx; apply Hr; lia|].
  rewrite Eb. cbn [mbind option_bind].
  destruct (page_range_loop_ok m (Z.to_nat (size / one_MB) + 1) (addr + one_MB) (addr + size) b one_MB Hm) as (n & En & Hn & Hal & Hz);
    [intros x Hx; apply Hr; unfold one_MB in *; lia|by apply aligned_add|auto with pages|done|lia|].
  rewrite En. cbn. exists n, b. split_and!; [done|unfold one_MB in *; lia|lia|done|]. intros ->.
  replace n with (one_MB + (n - one_MB)) by lia. apply zero_split; [unfold one_MB; lia|lia|]. split; [by apply Hb|by apply Hz].
Qed.

(** A run that is called zero holds nothing but zeros (or nothing), any other can be read. *)
Lemma next_run_ok env resid m addr stop : kernel_ok m -> aligned addr -> aligned stop -> addr < stop ->
  (forall x, addr <= x < stop -> m_guard m x = false) -> (forall x, addr <= x < stop -> savable env resid m x) ->
  exists n z, next_run env resid m addr stop = Some (n, z) /\ 0 < n <= stop - addr /\ aligned n /\
    (z = true -> forall x, addr <= x < addr + n -> m_present m x = false /\ (resid = true \/ m_data m x = Some 0) \/ m_data m x = Some 0) /\
    (z = false -> readable m addr n).
Proof.
  intros Hm Ha Hs Hlt Hng Hsv. unfold next_run.
  assert (Hread : (forall x, addr <= x < stop -> is_Some (m_data m x)) -> readable m addr (stop - addr)).
  { intros H x Hx. destruct (H x) as [v Hv]; [lia|]. exists v. apply (savable_readable env resid); [apply Hsv; lia|apply Hng; lia|done]. }
  destruct (e_infiniband env) eqn:Eib.
  { exists (stop - addr), false. split_and!; [done|lia|lia|auto with pages|done|]. intros _. apply Hread. intros x Hx.
    destruct (Hsv x Hx) as (_ & _ & [[? _]|(_ & _ & _ & ? & _)]); [done|congruence]. }
  destruct resid.
  - pose proof (scanOccupied_sound (e_pagemap env) m addr stop Ha Hs Hlt) as Hsound.
    pose proof (fun H => leading_of_scan (e_pagemap env) m addr stop H Ha Hs Hlt) as Hlead.
    destruct (scanOccupiedRangeBatch (e_pagemap env) m addr stop) as [z n]. destruct Hsound as (Hn & Hal & Hz).
    destruct (Z.eqb_spec n 0) as [?|_]; [lia|]. exists n, z. split_and!; [done|lia|lia|done| |].
    + intros Hzt x Hx. left. split; [|by left]. rewrite (k_present m Hm x). destruct (page_within x addr (addr + n)) as [? ?]; [done|auto with pages|lia|].
      by apply Hz.
    + intros -> x Hx. destruct (Hsv x ltac:(lia)) as (H1 & H2 & [[[v Hv] _]|(Hd & Hp & _ & _ & Hrel)]).
      * exists v. apply (savable_readable env true); [apply Hsv; lia|apply Hng; lia|done].
      * destruct (Hlead Hrel) as (_ & _ & Hpres). rewrite (k_present m Hm x) in Hp.
        destruct (page_within x addr (addr + n)) as [? ?]; [done|auto with pages|lia|]. rewrite Hpres in Hp by (done || lia). done.
  - destruct (get_next_page_range_ok m addr (stop - addr) Hm) as (n & z & E & Hn & Hal & Hz); [|done|auto with pages|lia|].
    { apply Hread. intros x Hx. destruct (Hsv x Hx) as (_ & _ & [[? _]|(_ & _ & ? & _)]); done. }
    exists n, z. split_and!; [done|lia|lia|done| |].
    + intros Hzt x Hx. right. specialize (Hz Hzt x Hx). unfold read_byte in Hz. by destruct (_ && _).
    + intros _ x Hx. destruct (Hsv x ltac:(lia)) as (_ & _ & [[[v Hv] _]|(_ & _ & ? & _)]); [|done]. exists v.
      apply (savable_readable env false); [apply Hsv; lia|apply Hng; lia|done].
Qed.

(** ** What is written for anonymous memory *)

Definition part (area : Area) (lo hi : Z) : Area := area <| a_addr := lo |> <| a_size := hi - lo |>.

(** Nothing is lost if the byte is restored as zero. *)
Definition zero_or_none (m : Memory) (x : Z) : Prop := m_guard m x = false -> forall v, m_data m x = Some v -> v = 0.

Definition bytes_of (m : Memory) (lo : Z) (bs : list Z) : Prop := forall i b, bs !! i = Some b -> m_data m (lo + Z.of_nat i) = Some b.

Lemma read_bytes_of m lo n bs : read_bytes m lo n = Some bs -> length bs = n /\ bytes_of m lo bs.
Proof.
  intros [Hl Hb]%read_bytes_lookup. split; [done|]. intros i b Hi. specialize (Hb i b Hi). unfold read_byte in Hb. by destruct (_ && _).
Qed.

Inductive child_cells (m : Memory) (area : Area) (hi : Z) : Z -> list cell -> Prop :=
| cc_end : child_cells m area hi hi []
| cc_zero lo n cs : 0 < n -> lo + n <= hi -> (forall x, lo <= x < lo + n -> zero_or_none m x) ->
    child_cells m area hi (lo + n) cs -> child_cells m area hi lo (Header (child (part area lo hi) n true) :: cs)
| cc_data lo n bs cs : 0 < n -> lo + n <= hi -> length bs = Z.to_nat n -> bytes_of m lo bs ->
    child_cells m area hi (lo + n) cs -> child_cells m area hi lo (Header (child (part area lo hi) n false) :: (Data <$> bs) ++ cs).

(** Memory that reads the same at an address. *)
Definition same_at (m m' : Memory) (x : Z) : Prop :=
  m_mapped m' x = m_mapped m x /\ m_data m' x = m_data m x /\ m_guard m' x = m_guard m x /\ m_prot m' x = m_prot m x.

(** Memory that holds the same at an address. *)
Definition holds_same (m m' : Memory) (x : Z) : Prop := m_data m' x = m_data m x /\ m_guard m' x = m_guard m x.

Lemma same_holds m m' x : same_at m m' x -> holds_same m m' x.
Proof. by intros (_ & ? & ? & _). Qed.

Lemma child_cells_same m m' area hi lo cs : (forall x, lo <= x < hi -> holds_same m m' x) -> child_cells m' area hi lo cs -> child_cells m area hi lo cs.
Proof.
  intros Hs H. induction H as [|lo n cs Hn Hle Hz _ IH|lo n bs cs Hn Hle Hl Hr _ IH]; [constructor| |].
  - constructor; try done; [|apply IH; intros x Hx; apply Hs; lia]. intros x Hx Hg v Hv.
    destruct (Hs x ltac:(lia)) as (E2 & E3). apply (Hz x Hx); [by rewrite E3|by rewrite E2].
  - constructor; try done; [|apply IH; intros x Hx; apply Hs; lia]. intros i b Hi. pose proof (lookup_lt_Some _ _ _ Hi) as Hlt.
    rewrite <- (Hr i b Hi). symmetry. apply Hs. lia.
Qed.

(** The memory after some pages of a range were given back: what they hold may only change from zero to what is behind them. *)
Definition given_back (lo hi : Z) (m m' : Memory) : Prop :=
  (forall x, m_mapped m' x = m_mapped m x /\ m_back m' x = m_back m x /\ m_guard m' x = m_guard m x /\ m_prot m' x = m_prot m x) /\
  (forall x, ~ lo <= x < hi -> m_data m' x = m_data m x /\ m_present m' x = m_present m x) /\
  (forall x, lo <= x < hi -> m_data m' x = m_data m x \/ m_data m x = Some 0 /\ m_data m' x = m_back m x).

Lemma given_back_refl lo hi m : given_back lo hi m m.
Proof. split_and!; intros; [done..|by left]. Qed.

Lemma given_back_trans lo mid hi m1 m2 m3 : lo <= mid <= hi -> given_back lo mid m1 m2 -> given_back mid hi m2 m3 -> given_back lo hi m1 m3.
Proof.
  intros Hb (A1 & B1 & C1) (A2 & B2 & C2). split_and!.
  - intros x. destruct (A1 x) as (<- & <- & <- & <-). apply A2.
  - intros x Hx. destruct (B1 x) as [<- <-]; [lia|]. apply B2. lia.
  - intros x Hx. destruct (Z_lt_le_dec x mid).
    + destruct (B2 x) as [-> _]; [lia|]. apply C1. lia.
    + destruct (B1 x) as [<- _]; [lia|]. destruct (A1 x) as (_ & <- & _). apply C2. lia.
Qed.

Lemma given_back_same lo hi m m' x : given_back lo hi m m' -> ~ lo <= x < hi -> same_at m m' x.
Proof. intros (A & B & _) Hx. destruct (A x) as (? & _ & ? & ?), (B x Hx) as [? _]. done. Qed.

Lemma dontneed_given_back lo hi m : kernel_ok m ->
  (forall x, lo <= x < hi -> m_present m x = false \/ m_data m x = Some 0) -> given_back lo hi m (dontneed lo hi m).
Proof.
  intros Hm H. split_and!; [done| |].
  - intros x Hx. cbn. assert (in_range lo hi x = false) as ->; [|done]. apply not_true_iff_false. by rewrite in_range_spec.
  - intros x Hx. cbn. rewrite (proj2 (in_range_spec lo hi x) Hx). destruct (H x Hx) as [Hp|Hd]; [|by right].
    left. symmetry. by apply (k_absent m Hm).
Qed.

Lemma dontneed_kernel lo hi m : kernel_ok m -> aligned lo -> aligned hi -> kernel_ok (dontneed lo hi m).
Proof.
  intros [H1 H2 H3 H4 Hb] Hlo Hhi. split; cbn.
  - intros x. rewrite (H1 x). assert (in_range lo hi (page_of x) = in_range lo hi x) as ->; [|done].
    apply eq_true_iff_eq. rewrite !in_range_spec. pose proof (page_of_bounds x). split; [|intros ?; by apply page_within].
    intros [? ?]. split; [lia|]. destruct (Z_lt_le_dec x hi) as [|Hge]; [done|].
    assert (page_of x + PAGE <= hi) by (apply aligned_lt; [apply page_of_aligned|done|lia]). lia.
  - done.
  - intros x. destruct (in_range lo hi x); [done|]. apply H3.
  - intros x b. destruct (in_range lo hi x); [apply Hb|apply H4].
  - done.
Qed.

(** The next guard page as it is known to the loop. *)
Definition cov (g : Ranges) (x : Z) : bool := match g with Some l => covered l x | None => false end.
Definition cov_ok (g : Ranges) : Prop := match g with Some l => ranges_ok l | None => True end.
Definition known (g : Ranges) (guard : option (Z * Z)) (addr : Z) : Prop :=
  match guard with
  | None => forall x, addr <= x -> cov g x = false
  | Some (s, e) => range_ok (s, e) /\ (forall x, addr <= x < s -> cov g x = false) /\ (forall x, s <= x < e -> cov g x = true)
  end.

Lemma nextRangeAfter_known g addr : cov_ok g -> known g (nextRangeAfter g addr) addr /\
  match nextRangeAfter g addr with Some (_, e) => addr < e | None => True end.
Proof.
  destruct g as [l|]; [|done]. intros Hl. unfold nextRangeAfter. cbn [mbind option_bind]. pose proof (find_range_ok l addr Hl) as H.
  destruct (find_range l addr) as [[s e]|]; [|done]. destruct H as (H1 & H2 & H3 & H4). by split_and!.
Qed.

Lemma known_later g guard addr addr' : addr <= addr' -> known g guard addr -> known g guard addr'.
Proof.
  intros Hle. destruct guard as [[s e]|]; cbn; [|intros H x Hx; apply H; lia].
  intros (H1 & H2 & H3). split_and!; [done| |done]. intros x Hx. apply H2. lia.
Qed.

Lemma part_past area lo hi n : past (part area lo hi) n = part area (lo + n) hi.
Proof.
  unfold past, part, set_field. cbn. f_equal; lia.
Qed.

Lemma part_addr area lo hi : a_addr (part area lo hi) = lo.
Proof. done. Qed.
Lemma part_size area lo hi : a_size (part area lo hi) = hi - lo.
Proof. done. Qed.
Lemma child_bounds area lo hi n z : a_addr (child (part area lo hi) n z) + a_size (child (part area lo hi) n z) = a_endAddr (child (part area lo hi) n z).
Proof. done. Qed.

(** The loop writes the whole range, whatever the guard pages and the runs are. *)
Lemma anonymous_loop_ok env resid g fuel area lo hi guard i m : kernel_ok m -> cov_ok g -> aligned lo -> aligned hi -> lo <= hi ->
  (Z.to_nat (hi - lo) < fuel)%nat -> known g guard lo -> (forall x, lo <= x < hi -> cov g x = m_guard m x) ->
  (forall x, lo <= x < hi -> m_guard m x = false -> savable env resid m x) ->
  exists cs m', anonymous_loop env resid fuel (part area lo hi) guard (mk_Writer i m g) = Ok tt (mk_Writer (i ++ cs) m' g) /\
    child_cells m area hi lo cs /\ given_back lo hi m m' /\ kernel_ok m'.
Proof.
  intros Hm Hg. revert lo guard i m Hm. induction fuel as [|fuel IH]; intros lo guard i m Hm Hlo Hhi Hle Hf Hk Hcov Hsv; [lia|].
  cbn [anonymous_loop]. rewrite part_size, part_addr. destruct (Z.ltb_spec 0 (hi - lo)) as [Hlt|Hge].
  2:{ assert (lo = hi) as -> by lia. exists [], m. rewrite app_nil_r. split_and!; [done|constructor|apply given_back_refl|done]. }
  unfold mbind, M_bind, gets. cbn [w_guards w_mem].
  set (guard' := match guard with Some (_, e) => if e <=? lo then nextRangeAfter g lo else guard | None => None end).
  assert (Hg' : known g guard' lo /\ match guard' with Some (_, e) => lo < e | None => True end).
  { unfold guard'. destruct guard as [[s e]|]; [|done]. destruct (Z.leb_spec e lo); [by apply nextRangeAfter_known|done]. }
  clearbody guard'. destruct Hg' as [Hk' He'].
  replace (lo + (hi - lo)) with hi by lia.
  destruct (match guard' with Some (s, _) => s <=? lo | None => false end) eqn:Efound.
  - (* a guard page *)
    destruct guard' as [[s e]|]; [|done]. apply Z.leb_le in Efound. set (n := Z.min (hi - lo) (e - lo)).
    assert (Hn : 0 < n <= hi - lo) by lia.
    assert (Hal : aligned n).
    { destruct Hk' as ((_ & Ha & _) & _). unfold n. destruct (Z.min_spec (hi - lo) (e - lo)) as [[_ ->]|[_ ->]]; auto with pages. }
    rewrite writeAreaHeader_ok by apply child_bounds. rewrite part_past.
    destruct (IH (lo + n) (Some (s, e)) (i ++ [Header (child (part area lo hi) n true)]) m Hm) as (cs & m' & E & Hcs & Hgb & Hm');
      [auto with pages|done|lia|lia|apply (known_later _ _ lo); [lia|done]|intros x Hx; apply Hcov; lia|intros x Hx; apply Hsv; lia|].
    rewrite E, <- app_assoc. exists (Header (child (part area lo hi) n true) :: cs), m'. split_and!; [done| | |done].
    + constructor; [lia|lia| |done]. intros x Hx Hng. rewrite <- Hcov in Hng by lia.
      destruct Hk' as (_ & _ & Hin). rewrite Hin in Hng by lia. done.
    + apply (given_back_trans lo (lo + n) hi m m m'); [lia|apply given_back_refl|done].
  - (* the pages up to the next guard page *)
    set (stop := match guard' with Some (s, _) => if s <? hi then s else hi | None => hi end).
    assert (Hstop : lo < stop <= hi /\ aligned stop /\ forall x, lo <= x < stop -> cov g x = false).
    { unfold stop. destruct guard' as [[s e]|]; [|split_and!; [lia|lia|done|intros x Hx; apply Hk'; lia]].
      apply Z.leb_gt in Efound. destruct Hk' as ((Ha & _) & Hout & _). cbn in Ha.
      destruct (Z.ltb_spec s hi); (split_and!; [lia|lia|done|intros x Hx; apply Hout; lia]). }
    clearbody stop. destruct Hstop as (Hs1 & Hs2 & Hs3). unfold assertM. destruct (Z.ltb_spec lo stop); [|lia]. cbn [mret M_ret].
    destruct (next_run_ok env resid m lo stop Hm Hlo Hs2) as (n & z & En & Hn & Hal & Hz & Hr); [lia| | |].
    { intros x Hx. rewrite <- Hcov by lia. by apply Hs3. }
    { intros x Hx. apply Hsv; [lia|]. rewrite <- Hcov by lia. by apply Hs3. }
    cbn [w_mem]. rewrite En. unfold optM, mret, M_ret. cbn [fst snd]. rewrite writeAreaHeader_ok by apply child_bounds. rewrite part_past.
    destruct z.
    + (* zeros *)
      set (m1 := if e_madvise env then dontneed lo (lo + n) m else m).
      assert (E1 : whenM (e_madvise env) (modify (fun w => w <| w_mem := dontneed lo (lo + n) (w_mem w) |>)) (mk_Writer (i ++ [Header (child (part area lo hi) n true)]) m g)
        = Ok tt (mk_Writer (i ++ [Header (child (part area lo hi) n true)]) m1 g)) by (unfold m1; by destruct (e_madvise env)).
      rewrite E1.
      assert (Hm1 : kernel_ok m1 /\ given_back lo (lo + n) m m1).
      { unfold m1. destruct (e_madvise env); [|split; [done|apply given_back_refl]]. split; [apply dontneed_kernel; auto with pages|].
        apply dontneed_given_back; [done|]. intros x Hx. destruct (Hz eq_refl x Hx) as [[? _]|?]; [by left|by right]. }
      clearbody m1. destruct Hm1 as [Hm1 Hgb1].
      assert (Hsame : forall x, lo + n <= x < hi -> same_at m m1 x) by (intros x Hx; apply (given_back_same lo (lo + n)); [done|lia]).
      destruct (IH (lo + n) guard' (i ++ [Header (child (part area lo hi) n true)]) m1 Hm1) as (cs & m' & E & Hcs & Hgb & Hm');
        [auto with pages|done|lia|lia|apply (known_later _ _ lo); [lia|done]| | |].
      { intros x Hx. rewrite Hcov by lia. by destruct (Hsame x ltac:(lia)) as (_ & _ & -> & _). }
      { intros x Hx Hng. destruct (Hsame x ltac:(lia)) as (H1 & H2 & H3 & H4). destruct Hgb1 as (_ & Hpr & _). destruct (Hpr x ltac:(lia)) as [_ H5].
        unfold savable. rewrite H1, H2, H4, H5. apply Hsv; [lia|congruence]. }
      rewrite E, <- app_assoc. exists (Header (child (part area lo hi) n true) :: cs), m'. split_and!; [done| | |done].
      * constructor; [lia|lia| |eapply child_cells_same; [|done]; intros x Hx; by apply same_holds, Hsame]. intros x Hx Hng v Hv. destruct (Hz eq_refl x Hx) as [[Hp [Hres|Hd]]|Hd]; [|congruence..].
        destruct (Hsv x ltac:(lia) Hng) as (_ & _ & [[_ Hab]|(Hno & _)]); [|congruence]. rewrite Hab in Hv by done. congruence.
      * by apply (given_back_trans lo (lo + n) hi m m1 m'); [lia|..].
    + (* data *)
      destruct (read_bytes_total m lo (Z.to_nat n)) as [bs Hbs]; [intros x Hx; apply Hr; [done|lia]|].
      rewrite (writeCkptAll_ok _ _ bs) by done.
      destruct (IH (lo + n) guard' ((i ++ [Header (child (part area lo hi) n false)]) ++ (Data <$> bs)) m Hm) as (cs & m' & E & Hcs & Hgb & Hm');
        [auto with pages|done|lia|lia|apply (known_later _ _ lo); [lia|done]|intros x Hx; apply Hcov; lia|intros x Hx; apply Hsv; lia|].
      rewrite E. exists (Header (child (part area lo hi) n false) :: (Data <$> bs) ++ cs), m'. split_and!; [by rewrite <- !app_assoc| | |done].
      * apply read_bytes_of in Hbs as [Hl Hb]. constructor; [lia|lia|done|done|done].
      * apply (given_back_trans lo (lo + n) hi m m m'); [lia|apply given_back_refl|done].
Qed.

(** ** What is written for a mapped file *)

Definition copied (m : Memory) (g : Ranges) (lo : Z) (bs : list Z) : Prop :=
  forall i b, bs !! i = Some b -> if cov g (lo + Z.of_nat i) then b = 0 else m_data m (lo + Z.of_nat i) = Some b.

Lemma copied_app m g lo bs1 bs2 : copied m g lo bs1 -> copied m g (lo + Z.of_nat (length bs1)) bs2 -> copied m g lo (bs1 ++ bs2).
Proof.
  intros H1 H2 i b [Hi|[Hlt Hi]]%lookup_app_Some; [by apply H1|]. specialize (H2 _ _ Hi).
  by replace (lo + Z.of_nat (length bs1) + Z.of_nat (i - length bs1)) with (lo + Z.of_nat i) in H2 by lia.
Qed.

Lemma copied_read m g lo n bs : read_bytes m lo n = Some bs -> (forall x, lo <= x < lo + Z.of_nat n -> cov g x = false) -> copied m g lo bs.
Proof.
  intros [Hl Hb]%read_bytes_of Hc i b Hi. pose proof (lookup_lt_Some _ _ _ Hi). rewrite Hc by lia. by apply Hb.
Qed.

Lemma copied_zeros m g lo n : (forall x, lo <= x < lo + Z.of_nat n -> cov g x = true) -> copied m g lo (replicate n 0).
Proof. intros Hc i b [-> Hi]%lookup_replicate. by rewrite Hc by lia. Qed.

Lemma skipping_loop_ok g m fuel cur stop i : cov_ok g -> cur <= stop -> (Z.to_nat (stop - cur) < fuel)%nat ->
  (forall x, cur <= x < stop -> cov g x = false -> is_Some (read_byte m x)) ->
  exists bs, skipping_loop fuel cur stop (mk_Writer i m g) = Ok tt (mk_Writer (i ++ (Data <$> bs)) m g) /\
    length bs = Z.to_nat (stop - cur) /\ copied m g cur bs.
Proof.
  intros Hg. revert cur i. induction fuel as [|fuel IH]; intros cur i Hle Hf Hr; [lia|]. cbn [skipping_loop].
  unfold mbind, M_bind, gets. cbn [w_guards].
  assert (Htail : (forall x, cur <= x < stop -> cov g x = false) -> exists bs,
    writeCkptAll cur (stop - cur) (mk_Writer i m g) = Ok tt (mk_Writer (i ++ (Data <$> bs)) m g) /\ length bs = Z.to_nat (stop - cur) /\ copied m g cur bs).
  { intros Hno. destruct (read_bytes_total m cur (Z.to_nat (stop - cur))) as [bs Hbs]; [intros x Hx; apply Hr; [lia|apply Hno; lia]|].
    exists bs. split_and!; [by apply writeCkptAll_ok|by apply read_bytes_of in Hbs as [? _]|eapply copied_read; [done|]; intros x Hx; apply Hno; lia]. }
  destruct (Z.ltb_spec cur stop) as [Hlt|Hge]; [|apply Htail; intros x Hx; lia].
  destruct (nextRangeAfter_known g cur Hg) as [Hk He]. destruct (nextRangeAfter g cur) as [[s e]|]; [|apply Htail; intros x Hx; apply Hk; lia].
  destruct Hk as ((_ & _ & Hse) & Hout & Hin). cbn in Hse. destruct (Z.leb_spec stop s) as [Hs|Hs]; [apply Htail; intros x Hx; apply Hout; lia|].
  set (gs := Z.max s cur). set (ge := Z.min e stop).
  destruct (read_bytes_total m cur (Z.to_nat (gs - cur))) as [bs1 Hbs1]; [intros x Hx; apply Hr; [lia|apply Hout; lia]|].
  rewrite (writeCkptAll_ok _ _ bs1), writeCkptZeros_ok by (done || lia).
  destruct (IH ge ((i ++ (Data <$> bs1)) ++ replicate (Z.to_nat (ge - gs)) (Data 0))) as (bs2 & E & Hl2 & Hc2); [lia|lia|intros x Hx; apply Hr; lia|].
  pose proof (read_bytes_of _ _ _ _ Hbs1) as [Hl1 _].
  exists (bs1 ++ replicate (Z.to_nat (ge - gs)) 0 ++ bs2). split_and!.
  - rewrite E. do 2 f_equal. rewrite <- !app_assoc, !fmap_app, fmap_replicate. done.
  - rewrite !length_app, length_replicate. lia.
  - apply copied_app; [eapply copied_read; [done|]; intros x Hx; apply Hout; lia|].
    apply copied_app; [apply copied_zeros; intros x Hx; apply Hin; lia|]. rewrite length_replicate.
    by replace (cur + Z.of_nat (length bs1) + Z.of_nat (Z.to_nat (ge - gs))) with ge by lia.
Qed.

(** ** One area *)

Definition a_end (a : Area) : Z := a_addr a + a_size a.
Record area_fits (a : Area) : Prop := {
  af_addr : aligned (a_addr a); af_size : aligned (a_size a); af_pos : 0 < a_size a; af_end : a_endAddr a = a_end a }.

(** Written run by run. *)
Definition by_runs (env : Env) (a : Area) : bool := has (a_flags a) MAP_ANONYMOUS || negb (e_exists env (a_name a)).

Definition parent (a : Area) : Area := a <| a_properties ::= Z.lor DMTCP_ZERO_PAGE_PARENT_HEADER |>.
Definition unparent (a : Area) : Area := a <| a_properties ::= Z.lxor DMTCP_ZERO_PAGE_PARENT_HEADER |>.
Definition data_len (a : Area) : Z := if 0 <? a_mmapFileSize a then a_mmapFileSize a else a_size a.

Definition saved_cells (env : Env) (st : option (bool * Z)) (m : Memory) (g : Ranges) (a : Area) (cs : list cell) : Prop :=
  if by_runs env a then exists cs', cs = Header (parent a) :: cs' /\ child_cells m (unparent (parent a)) (a_end a) (a_addr a) cs'
  else exists bs, cs = Header (with_mmapFileSize st a) :: (Data <$> bs) /\ length bs = Z.to_nat (data_len (with_mmapFileSize st a)) /\
    copied m g (a_addr a) bs.

(** The byte can be saved once the area is readable. *)
Definition saves (env : Env) (resid : bool) (m : Memory) (x : Z) : Prop :=
  m_mapped m x = true /\
  (is_Some (m_data m x) /\ (resid = true -> m_present m x = false -> m_data m x = Some 0) \/
   m_data m x = None /\ m_present m x = false /\ resid = true /\ e_infiniband env = false /\ reliable (e_pagemap env)).

(** The memory of an area, as it must be to be saved. *)
Record area_memory (env : Env) (st : option (bool * Z)) (resid : bool) (m : Memory) (g : Ranges) (a : Area) : Prop := {
  am_prot : forall x, a_addr a <= x < a_end a -> m_prot m x = a_prot a;
  am_guard : forall x, a_addr a <= x < a_end a -> cov g x = m_guard m x;
  am_runs : by_runs env a = true -> forall x, a_addr a <= x < a_end a -> m_guard m x = false -> saves env resid m x;
  am_file : by_runs env a = false -> a_name a <> "" /\ data_len (with_mmapFileSize st a) <= a_size a /\
    forall x, a_addr a <= x < a_addr a + data_len (with_mmapFileSize st a) -> m_guard m x = false -> m_mapped m x = true /\ is_Some (m_data m x) }.

Lemma part_self a : area_fits a -> part a (a_addr a) (a_end a) = a.
Proof. intros _. destruct a. unfold part, a_end, set_field. cbn. f_equal. lia. Qed.

Lemma anonymous_pages_ok env resid g a i m : kernel_ok m -> cov_ok g -> area_fits a ->
  (forall x, a_addr a <= x < a_end a -> cov g x = m_guard m x) ->
  (forall x, a_addr a <= x < a_end a -> m_guard m x = false -> savable env resid m x) ->
  exists cs m', mtcp_write_anonymous_pages env a resid (mk_Writer i m g) = Ok tt (mk_Writer (i ++ Header (parent a) :: cs) m' g) /\
    child_cells m (unparent (parent a)) (a_end a) (a_addr a) cs /\ given_back (a_addr a) (a_end a) m m' /\ kernel_ok m'.
Proof.
  intros Hm Hg [H1 H2 H3 H4] Hcov Hsv. unfold mtcp_write_anonymous_pages. fold (parent a). unfold mbind, M_bind.
  rewrite writeAreaHeader_ok by (symmetry; exact H4). fold (unparent (parent a)). cbn [gets w_guards].
  assert (area_fits (unparent (parent a))) as Hfit by (split; [exact H1|exact H2|exact H3|exact H4]).
  destruct (anonymous_loop_ok env resid g (S (Z.to_nat (a_size a))) (unparent (parent a)) (a_addr a) (a_end a) (nextRangeAfter g (a_addr a))
    (i ++ [Header (parent a)]) m Hm Hg) as (cs & m' & E & Hcs & Hgb & Hm'); [done|unfold a_end; auto with pages|unfold a_end; lia|unfold a_end; lia|by apply nextRangeAfter_known|done|done|].
  pose proof (part_self _ Hfit) as Hself. change (part (unparent (parent a)) (a_addr a) (a_end a) = unparent (parent a)) in Hself. rewrite Hself in E.
  exists cs, m'. split_and!; [|done..]. rewrite <- app_assoc in E. exact E.
Qed.

(** A flag is a bit. *)
Lemma has_bit p k : 0 <= k -> has p (2 ^ k) = Z.testbit p k.
Proof.
  intros Hk. unfold has. apply eq_true_iff_eq. rewrite negb_true_iff, Z.eqb_neq. split.
  - intros H. destruct (Z.testbit p k) eqn:E; [done|]. destruct H. apply Z.bits_inj'. intros n Hn. rewrite Z.land_spec, Z.bits_0.
    destruct (decide (n = k)) as [->|Hne]; [by rewrite E|]. rewrite Z.pow2_bits_false by lia. by rewrite andb_false_r.
  - intros H E. apply (f_equal (fun z => Z.testbit z k)) in E. rewrite Z.land_spec, H, Z.bits_0, Z.pow2_bits_true in E by done. done.
Qed.

Lemma has_read p : has p PROT_READ = Z.testbit p READABLE.
Proof. by apply (has_bit p 0). Qed.

Lemma has_priv p : has p MAP_PRIVATE = Z.testbit p 1.
Proof. by apply (has_bit p 1). Qed.

Lemma has_shared p : has p MAP_SHARED = Z.testbit p 0.
Proof. by apply (has_bit p 0). Qed.

Lemma has_anon p : has p MAP_ANONYMOUS = Z.testbit p 5.
Proof. by apply (has_bit p 5). Qed.

Lemma mprotect_kernel lo hi p m : kernel_ok m -> kernel_ok (mprotect lo hi p m).
Proof. by intros [? ? ? ? ?]. Qed.

Lemma write_saved_ok env st resid g a i m : kernel_ok m -> cov_ok g -> area_fits a -> area_memory env st resid m g a ->
  exists cs m', write_saved env st resid a (mk_Writer i m g) = Ok tt (mk_Writer (i ++ cs) m' g) /\
    saved_cells env st m g a cs /\ given_back (a_addr a) (a_end a) m m' /\ kernel_ok m' /\
    (by_runs env a = false -> forall x, m_data m' x = m_data m x /\ m_present m' x = m_present m x).
Proof.
  intros Hm Hg Hfit [Hp Hcov Hrun Hfile]. unfold write_saved. fold (a_end a).
  set (lacks := negb (has (a_prot a) PROT_READ)).
  set (m1 := if lacks then mprotect (a_addr a) (a_end a) (Z.lor (a_prot a) PROT_READ) m else m).
  assert (Hm1 : kernel_ok m1) by (unfold m1; destruct lacks; [by apply mprotect_kernel|done]).
  assert (Hrd : forall x, a_addr a <= x < a_end a -> Z.testbit (m_prot m1 x) READABLE = true).
  { intros x Hx. unfold m1, lacks. destruct (has (a_prot a) PROT_READ) eqn:E; cbn [negb m_prot mprotect].
    - by rewrite (Hp x Hx), <- has_read.
    - rewrite (proj2 (in_range_spec _ _ x) Hx), Z.lor_spec. apply orb_true_r. }
  assert (Hsame : (forall x, m_mapped m1 x = m_mapped m x /\ m_data m1 x = m_data m x /\ m_back m1 x = m_back m x /\ m_present m1 x = m_present m x /\ m_guard m1 x = m_guard m x) /\
    forall x, ~ a_addr a <= x < a_end a -> m_prot m1 x = m_prot m x).
  { unfold m1. destruct lacks; [|done]. split; [done|]. intros x Hx. cbn. assert (in_range (a_addr a) (a_end a) x = false) as ->; [|done].
    apply not_true_iff_false. by rewrite in_range_spec. }
  assert (E1 : forall w, w_mem w = m -> whenM lacks (modify (fun w => w <| w_mem ::= mprotect (a_addr a) (a_end a) (Z.lor (a_prot a) PROT_READ) |>)) w
    = Ok tt (w <| w_mem := m1 |>)).
  { intros [i0 m0 g0] Em. cbn in Em. subst m0. unfold m1. by destruct lacks. }
  unfold mbind, M_bind. rewrite E1 by done. change ((mk_Writer i m g) <| w_mem := m1 |>) with (mk_Writer i m1 g).
  assert (Hbody : exists cs m2, (if has (a_flags a) MAP_ANONYMOUS then mtcp_write_anonymous_pages env a resid
    else if negb (e_exists env (a_name a)) then mtcp_write_anonymous_pages env a resid else write_file env st a) (mk_Writer i m1 g)
    = Ok tt (mk_Writer (i ++ cs) m2 g) /\ saved_cells env st m g a cs /\ given_back (a_addr a) (a_end a) m1 m2 /\ kernel_ok m2 /\ (by_runs env a = false -> m2 = m1)).
  { destruct Hsame as [Hsame _]. unfold saved_cells. assert (Hby : by_runs env a = has (a_flags a) MAP_ANONYMOUS || negb (e_exists env (a_name a))) by done.
    destruct (by_runs env a) eqn:Eby.
    - destruct (anonymous_pages_ok env resid g a i m1 Hm1 Hg Hfit) as (cs & m2 & E & Hcs & Hgb & Hm2).
      { intros x Hx. rewrite (Hcov x Hx). symmetry. apply Hsame. }
      { intros x Hx Hng. destruct (Hsame x) as (S1 & S2 & S3 & S4 & S5). rewrite S5 in Hng. destruct (Hrun eq_refl x Hx Hng) as [Hmap Hd].
        unfold savable. rewrite S1, S2, S4. split_and!; [done|by apply Hrd|done]. }
      exists (Header (parent a) :: cs), m2. split_and!; [|exists cs; split; [done|]|done|done|done].
      + destruct (has (a_flags a) MAP_ANONYMOUS); [done|]. destruct (negb (e_exists env (a_name a))); done.
      + eapply child_cells_same; [|done]. intros x _. destruct (Hsame x) as (_ & ? & _ & _ & ?). done.
    - symmetry in Hby. apply orb_false_iff in Hby as [-> ->]. destruct (Hfile eq_refl) as (Hname & Hlen & Hbytes).
      unfold write_file, mbind, M_bind, assertM. unfold unnamed. rewrite (proj2 (String.eqb_neq _ _) Hname). cbn [negb mret M_ret].
      set (a' := with_mmapFileSize st a) in *.
      assert (Ha' : a_addr a' = a_addr a /\ a_size a' = a_size a /\ a_endAddr a' = a_endAddr a).
      { unfold a', with_mmapFileSize. destruct st as [[? ?]|]; [|done]. by destruct (_ || _). }
      destruct Ha' as (Ea & Es & Ee). rewrite writeAreaHeader_ok by (rewrite Ea, Es, Ee; symmetry; apply Hfit).
      fold (data_len a'). unfold writeCkptSkippingGuards. rewrite Ea.
      assert (0 <= data_len a') by (unfold data_len; destruct (Z.ltb_spec 0 (a_mmapFileSize a')); [lia|]; rewrite Es; pose proof (af_pos a Hfit); lia).
      destruct (skipping_loop_ok g m1 (S (Z.to_nat (data_len a'))) (a_addr a) (a_addr a + data_len a') (i ++ [Header a'])) as (bs & E & Hl & Hc);
        [done|lia|lia| |].
      { intros x Hx Hnc. rewrite (Hcov x) in Hnc by (unfold a_end; lia). destruct (Hbytes x Hx Hnc) as [Hmap [v Hv]]. exists v.
        destruct (Hsame x) as (S1 & S2 & S3 & S4 & S5). unfold read_byte. rewrite S1, S5, Hmap, Hnc, Hrd, S2 by (unfold a_end; lia). done. }
      rewrite E. exists (Header a' :: (Data <$> bs)), m1. split_and!; [by rewrite <- app_assoc| |apply given_back_refl|done|done].
      exists bs. split_and!; [done|rewrite Hl; f_equal; lia|]. intros j b Hj. specialize (Hc j b Hj).
      destruct (Hsame (a_addr a + Z.of_nat j)) as (_ & S2 & _). by rewrite S2 in Hc. }
  destruct Hbody as (cs & m2 & E & Hcs & Hgb & Hm2 & Hkept). rewrite E.
  exists cs, (if lacks then mprotect (a_addr a) (a_end a) (a_prot a) m2 else m2). split_and!; [by destruct lacks|done| |by destruct lacks; [apply mprotect_kernel|]|].
  2:{ intros Hf x. rewrite (Hkept Hf). destruct Hsame as [Hsame _], (Hsame x) as (_ & <- & _ & <- & _). by destruct lacks. }
  destruct Hsame as [Hsame Hout], Hgb as (A & B & C). split_and!.
  - intros x. destruct (Hsame x) as (S1 & _ & S3 & _ & S5), (A x) as (A1 & A2 & A3 & A4).
    split_and!; [destruct lacks; cbn; congruence..|]. destruct (decide (a_addr a <= x < a_end a)) as [Hx|Hx].
    + destruct lacks eqn:El; cbn; [rewrite (proj2 (in_range_spec _ _ x) Hx); symmetry; by apply Hp|]. rewrite A4. unfold m1. done.
    + destruct lacks; cbn; [|rewrite A4; by apply Hout]. assert (in_range (a_addr a) (a_end a) x = false) as ->; [|rewrite A4; by apply Hout].
      apply not_true_iff_false. by rewrite in_range_spec.
  - intros x Hx. destruct (Hsame x) as (_ & <- & _ & <- & _), (B x Hx) as [B1 B2]. by destruct lacks.
  - intros x Hx. destruct (Hsame x) as (_ & <- & <- & _), (C x Hx) as [C1|C1]; [left|right]; by destruct lacks.
Qed.

(** ** Reading back *)

(** [k] turns of the loop take the reader from one state to another. *)
Definition reads (env : REnv) (k : nat) (r r' : Reader) : Prop :=
  forall fuel, readmemoryareas_loop env (k + fuel) r = readmemoryareas_loop env fuel r'.

Lemma reads_one env r r' : read_one_memory_area env r = Ok true r' -> reads env 1 r r'.
Proof. intros H fuel. cbn [plus readmemoryareas_loop]. unfold mbind, M_bind. by rewrite H. Qed.

Lemma read_header_ok env a i m mm : read_one_memory_area env (mk_Reader (Header a :: i) m mm) = restore_area env a (mk_Reader i m mm).
Proof. done. Qed.

Lemma reads_trans env j k r1 r2 r3 : reads env j r1 r2 -> reads env k r2 r3 -> reads env (j + k) r1 r3.
Proof. intros H1 H2 fuel. rewrite <- Nat.add_assoc, H1. apply H2. Qed.

Lemma take_data_ok bs rest : take_data (length bs) ((Data <$> bs) ++ rest) = Some (bs, rest).
Proof. induction bs as [|b bs IH]; [by destruct rest as [|[]]|]. cbn [length fmap list_fmap app take_data]. by rewrite IH. Qed.

Lemma all_writable_ok m a n : (forall x, a <= x < a + Z.of_nat n -> can_write m x = true) -> all_writable m a n = true.
Proof.
  revert a. induction n as [|n IH]; intros a H; [done|]. cbn. rewrite H by lia. cbn. apply IH. intros x Hx. apply H. lia.
Qed.

Lemma readfile_ok addr size bs rest m mm : length bs = Z.to_nat size -> (forall x, addr <= x < addr + Z.of_nat (length bs) -> can_write m x = true) ->
  mtcp_readfile addr size (mk_Reader ((Data <$> bs) ++ rest) m mm) = Ok tt (mk_Reader rest (store_bytes m addr bs) mm).
Proof.
  intros Hl Hw. unfold mtcp_readfile, gets, mbind, M_bind. cbn [id r_image r_mem]. rewrite <- Hl, take_data_ok, all_writable_ok by done. done.
Qed.

Lemma has_write p : has p PROT_WRITE = Z.testbit p WRITABLE.
Proof. by apply (has_bit p 1). Qed.

Lemma writable_lor p : Z.testbit (Z.lor p PROT_WRITE) WRITABLE = true.
Proof. unfold PROT_WRITE, WRITABLE. rewrite Z.lor_spec. by rewrite orb_true_r. Qed.

Lemma lor_writable p : has p PROT_WRITE = true -> Z.lor p PROT_WRITE = p.
Proof.
  rewrite has_write. intros H. apply Z.bits_inj'. intros n Hn. rewrite Z.lor_spec. unfold PROT_WRITE. change 2 with (2 ^ 1).
  destruct (decide (n = 1)) as [->|Hne]; [unfold WRITABLE in H; by rewrite H|]. rewrite Z.pow2_bits_false by lia. apply orb_false_r.
Qed.

Lemma adjust_flags_same env a : a_addr (adjust_flags env a) = a_addr a /\ a_size (adjust_flags env a) = a_size a /\ a_prot (adjust_flags env a) = a_prot a /\
  a_name (adjust_flags env a) = a_name a /\ a_properties (adjust_flags env a) = a_properties a /\ a_mmapFileSize (adjust_flags env a) = a_mmapFileSize a /\
  a_offset (adjust_flags env a) = a_offset a.
Proof. unfold adjust_flags. destruct (grows_down env a); destruct (has _ MAP_SHARED); done. Qed.

(** The protection once the contents are in place. *)
Definition protected (a : Area) (m : Memory) : Memory :=
  if has (a_prot a) PROT_WRITE then m else mprotect (a_addr a) (a_addr a + a_size a) (a_prot a) m.

Lemma protect_ok a i m mm : whenM (negb (has (a_prot a) PROT_WRITE)) (mtcp_mprotect a) (mk_Reader i m mm) = Ok tt (mk_Reader i (protected a m) mm).
Proof. unfold protected. by destruct (has (a_prot a) PROT_WRITE). Qed.

Lemma protected_at a m x : m_mapped (protected a m) x = m_mapped m x /\ m_data (protected a m) x = m_data m x /\ m_guard (protected a m) x = m_guard m x /\
  (~ a_addr a <= x < a_addr a + a_size a -> m_prot (protected a m) x = m_prot m x) /\
  (a_addr a <= x < a_addr a + a_size a -> m_prot m x = Z.lor (a_prot a) PROT_WRITE -> m_prot (protected a m) x = a_prot a).
Proof.
  unfold protected. destruct (has (a_prot a) PROT_WRITE) eqn:E; cbn.
  - split_and!; try done. intros _ ->. by apply lor_writable.
  - split_and!; try done; intros Hx.
    + assert (in_range (a_addr a) (a_addr a + a_size a) x = false) as ->; [|done]. apply not_true_iff_false. by rewrite in_range_spec.
    + by rewrite (proj2 (in_range_spec _ _ x) Hx).
Qed.

(** Fresh anonymous memory, writable for the reader. *)
Definition fresh (a : Area) (m : Memory) (x : Z) : Prop :=
  m_mapped m x = true /\ m_guard m x = false /\ m_prot m x = Z.lor (a_prot a) PROT_WRITE /\ m_data m x = Some 0.

(** The byte is back, in its area. *)
Definition back_at (m : Memory) (a : Area) (m' : Memory) (x : Z) : Prop :=
  m_mapped m' x = true /\ m_guard m' x = false /\ m_prot m' x = a_prot a /\ (m_guard m x = false -> forall v, m_data m x = Some v -> m_data m' x = Some v).

Lemma child_fields area lo hi n z : a_addr (child (part area lo hi) n z) = lo /\ a_size (child (part area lo hi) n z) = n /\ a_prot (child (part area lo hi) n z) = a_prot area /\
  a_name (child (part area lo hi) n z) = a_name area /\ a_mmapFileSize (child (part area lo hi) n z) = a_mmapFileSize area /\
  a_properties (child (part area lo hi) n z) = if z then 5 else 4.
Proof. by destruct z. Qed.

Lemma store_at m a bs x : a <= x < a + Z.of_nat (length bs) -> m_data (store_bytes m a bs) x = bs !! Z.to_nat (x - a).
Proof. intros H. cbn. by rewrite (proj2 (in_range_spec _ _ x) H). Qed.

Lemma store_out m a bs x : ~ a <= x < a + Z.of_nat (length bs) -> same_at m (store_bytes m a bs) x.
Proof.
  intros H. split_and!; try done. cbn. assert (in_range a (a + Z.of_nat (length bs)) x = false) as ->; [|done].
  apply not_true_iff_false. by rewrite in_range_spec.
Qed.

(** Data over fresh memory. *)
Lemma store_fresh m area a lo bs mr x : (forall y, lo <= y < lo + Z.of_nat (length bs) -> fresh area mr y) -> bytes_of m lo bs ->
  a_addr a = lo -> a_size a = Z.of_nat (length bs) -> a_prot a = a_prot area -> lo <= x < lo + Z.of_nat (length bs) ->
  back_at m area (protected a (store_bytes mr lo bs)) x.
Proof.
  intros Hf Hb Ea Es Ep Hx. destruct (protected_at a (store_bytes mr lo bs) x) as (P1 & P2 & P3 & _ & P5).
  destruct (Hf x Hx) as (F1 & F2 & F3 & _). unfold back_at. rewrite P1, P2, P3, P5, Ep, store_at by (rewrite ?Ea, ?Es, ?Ep; done).
  split_and!; try done. intros _ v Hv. assert (is_Some (bs !! Z.to_nat (x - lo))) as [b Hi] by (apply lookup_lt_is_Some; lia).
  specialize (Hb _ _ Hi). replace (lo + Z.of_nat (Z.to_nat (x - lo))) with x in Hb by lia. rewrite Hi. congruence.
Qed.

Lemma children_ok env m area hi lo cs rest mr mm : child_cells m area hi lo cs -> 0 < lo -> ~ (0 < a_mmapFileSize area /\ starts_with_slash area = true) ->
  (forall x, lo <= x < hi -> fresh area mr x) ->
  exists k mr', (k <= length cs)%nat /\ reads env k (mk_Reader (cs ++ rest) mr mm) (mk_Reader rest mr' mm) /\
    (forall x, ~ lo <= x < hi -> same_at mr mr' x) /\ (forall x, lo <= x < hi -> back_at m area mr' x).
Proof.
  intros H Hlo Hms. revert mr Hlo. induction H as [|lo n cs Hn Hle Hz _ IH|lo n bs cs Hn Hle Hl Hb _ IH]; intros mr Hlo Hf.
  - exists 0%nat, mr. split_and!; [done|by intros fuel|done|intros x Hx; lia].
  - (* a run of zeros *)
    set (c := child (part area lo hi) n true). destruct (child_fields area lo hi n true) as (C1 & C2 & C3 & C4 & C5 & C6). fold c in C1, C2, C3, C4, C5, C6.
    destruct (adjust_flags_same env c) as (A1 & A2 & A3 & A4 & A5 & A6 & _).
    set (c' := adjust_flags env c) in *. set (mr1 := protected c' mr).
    assert (E1 : read_one_memory_area env (mk_Reader (Header c :: cs ++ rest) mr mm) = Ok true (mk_Reader (cs ++ rest) mr1 mm)).
    { rewrite read_header_ok. unfold restore_area, mbind, M_bind, mret, M_ret. rewrite C1. destruct (Z.eqb_spec lo 0); [lia|]. fold c'. rewrite A5, C6. change (has 5 DMTCP_ZERO_PAGE) with true. cbn iota.
      cbv beta. by rewrite protect_ok. }
    assert (Hout : forall x, ~ lo <= x < lo + n -> same_at mr mr1 x).
    { intros x Hx. destruct (protected_at c' mr x) as (P1 & P2 & P3 & P4 & _). rewrite A1, A2, C1, C2 in P4. unfold same_at, mr1. rewrite P1, P2, P3, P4; done. }
    destruct (IH mr1) as (k & mr' & Hk & Hr & Hs & Hba); [lia| |].
    { intros x Hx. destruct (Hout x) as (S1 & S2 & S3 & S4); [lia|]. unfold fresh. rewrite S1, S2, S3, S4. apply Hf. lia. }
    exists (1 + k)%nat, mr'. split_and!; [cbn; lia|by eapply reads_trans; [apply reads_one|]| |].
    + intros x Hx. destruct (Hs x) as (T1 & T2 & T3 & T4); [lia|]. destruct (Hout x) as (S1 & S2 & S3 & S4); [lia|]. unfold same_at. by rewrite T1, T2, T3, T4.
    + intros x Hx. destruct (Z_lt_le_dec x (lo + n)) as [Hlt|]; [|apply Hba; lia].
      destruct (Hs x) as (T1 & T2 & T3 & T4); [lia|]. destruct (Hf x Hx) as (F1 & F2 & F3 & F4).
      destruct (protected_at c' mr x) as (P1 & P2 & P3 & _ & P5). rewrite A1, A2, A3, C1, C2, C3 in P5. fold mr1 in P1, P2, P3, P5.
      unfold back_at. rewrite T1, T2, T3, T4, P1, P2, P3, P5 by (done || lia). split_and!; try done.
      intros Hng v Hv. rewrite F4. f_equal. symmetry. by apply (Hz x ltac:(lia) Hng).
  - (* data *)
    set (c := child (part area lo hi) n false). destruct (child_fields area lo hi n false) as (C1 & C2 & C3 & C4 & C5 & C6). fold c in C1, C2, C3, C4, C5, C6.
    destruct (adjust_flags_same env c) as (A1 & A2 & A3 & A4 & A5 & A6 & _). set (c' := adjust_flags env c) in *.
    set (mr1 := protected c' (store_bytes mr lo bs)).
    assert (E1 : read_one_memory_area env (mk_Reader (Header c :: ((Data <$> bs) ++ cs) ++ rest) mr mm) = Ok true (mk_Reader (cs ++ rest) mr1 mm)).
    { rewrite read_header_ok. unfold restore_area, mbind, M_bind, mret, M_ret. rewrite C1. destruct (Z.eqb_spec lo 0); [lia|]. fold c'. rewrite A5, C6. change (has 4 DMTCP_ZERO_PAGE) with false.
      change (has 4 DMTCP_ZERO_PAGE_CHILD_HEADER) with true. cbv beta iota. rewrite A5, C6. change (has 4 DMTCP_ZERO_PAGE_PARENT_HEADER) with false. cbn [negb whenM]. cbv beta.
      unfold read_contents, mbind, M_bind. rewrite A6, C5.
      assert ((0 <? a_mmapFileSize area) && starts_with_slash c' = false) as ->.
      { apply not_true_iff_false. rewrite andb_true_iff, Z.ltb_lt. unfold starts_with_slash in *. rewrite A4, C4. done. }
      rewrite A1, A2, C1, C2, <- app_assoc, readfile_ok; [|done|].
      2:{ intros x Hx. destruct (Hf x) as (F1 & F2 & F3 & F4); [lia|]. unfold can_write. rewrite F1, F2, F3, F4. cbn [negb andb]. rewrite writable_lor.
          by rewrite bool_decide_true. }
      by rewrite protect_ok. }
    assert (Hout : forall x, ~ lo <= x < lo + n -> same_at mr mr1 x).
    { intros x Hx. destruct (protected_at c' (store_bytes mr lo bs) x) as (P1 & P2 & P3 & P4 & _). rewrite A1, A2, C1, C2 in P4.
      destruct (store_out mr lo bs x) as (S1 & S2 & S3 & S4); [lia|]. unfold same_at, mr1. rewrite P1, P2, P3, P4; done. }
    destruct (IH mr1) as (k & mr' & Hk & Hr & Hs & Hba); [lia| |].
    { intros x Hx. destruct (Hout x) as (S1 & S2 & S3 & S4); [lia|]. unfold fresh. rewrite S1, S2, S3, S4. apply Hf. lia. }
    exists (1 + k)%nat, mr'. split_and!; [cbn; rewrite length_app; lia|by eapply reads_trans; [apply reads_one; exact E1|]| |].
    + intros x Hx. destruct (Hs x) as (T1 & T2 & T3 & T4); [lia|]. destruct (Hout x) as (S1 & S2 & S3 & S4); [lia|]. unfold same_at. by rewrite T1, T2, T3, T4.
    + intros x Hx. destruct (Z_lt_le_dec x (lo + n)) as [Hlt|]; [|apply Hba; lia].
      destruct (Hs x) as (T1 & T2 & T3 & T4); [lia|].
      pose proof (store_fresh m area c' lo bs mr x) as Hst. unfold back_at. rewrite T1, T2, T3, T4.
      apply Hst; [intros y Hy; apply Hf; lia|done|by rewrite A1|rewrite A2, C2; lia|by rewrite A3|lia].
Qed.

(** ** Mapping an area *)

Lemma free_run mr lo n : aligned lo -> (forall x, lo <= x < lo + Z.of_nat n * PAGE -> m_mapped mr x = false) ->
  (run (fun a => negb (m_mapped mr a)) lo n =? n)%nat = true.
Proof.
  intros Hlo Hf. apply Nat.eqb_eq. pose proof (run_le (fun a => negb (m_mapped mr a)) lo n) as Hle.
  destruct (decide (run (fun a => negb (m_mapped mr a)) lo n = n)) as [|Hne]; [done|].
  pose proof (run_stops (fun a => negb (m_mapped mr a)) lo n ltac:(lia)) as Hst. cbv beta in Hst. rewrite Hf in Hst; [done|]. unfold PAGE. lia.
Qed.

Lemma mapping_out s e p c m x : ~ s <= x < e -> same_at m (mapping s e p c m) x.
Proof.
  intros H. unfold same_at, mapping. cbn [m_mapped m_data m_guard m_prot].
  assert (in_range s e x = false) as ->; [apply not_true_iff_false; by rewrite in_range_spec|done].
Qed.

(** What is mapped before the data is read. *)
Definition contents (env : REnv) (a : Area) (x : Z) : option Z :=
  match fst (open_file env a) with Some (_, f) => file_contents f (a_addr a) (a_offset a) x | None => Some 0 end.

Definition same_header (a a' : Area) : Prop := a_addr a' = a_addr a /\ a_size a' = a_size a /\ a_prot a' = a_prot a /\ a_name a' = a_name a /\
  a_properties a' = a_properties a /\ a_mmapFileSize a' = a_mmapFileSize a.

Lemma map_area_ok env a i mr mm : aligned (a_addr a) -> aligned (a_size a) -> 0 < a_size a -> has (a_flags a) MAP_PRIVATE = true ->
  (forall x, a_addr a <= x < a_end a -> m_mapped mr x = false) ->
  exists a' mr' mm', map_area env a (mk_Reader i mr mm) = Ok a' (mk_Reader i mr' mm') /\ same_header a a' /\
    (forall x, ~ a_addr a <= x < a_end a -> same_at mr mr' x) /\
    (forall x, a_addr a <= x < a_end a -> m_mapped mr' x = true /\ m_guard mr' x = false /\ m_prot mr' x = Z.lor (a_prot a) PROT_WRITE /\
       m_data mr' x = contents env a x).
Proof.
  intros Ha Hs H0 Hpriv Hfree. unfold map_area, contents. destruct (open_file env a) as [fd a1] eqn:Eo. cbn [fst].
  assert (Ho : same_header a a1 /\ has (a_flags a1) MAP_PRIVATE = true /\ (fd <> None -> has (a_flags a1) MAP_ANONYMOUS = false /\ a_offset a1 = a_offset a)).
  { unfold open_file in Eo. destruct (starts_with_slash a && negb (has (a_flags a) MAP_ANONYMOUS)) eqn:Ec; [|injection Eo as <- <-; done].
    apply andb_true_iff in Ec as [_ Ec]. apply negb_true_iff in Ec. destruct (re_open env (a_name a)) as [f|]; [|injection Eo as <- <-; done].
    destruct (_ && _); injection Eo as <- <-; [|done]. split_and!; try done. unfold set_field. cbn. rewrite has_priv in *. by rewrite Z.lor_spec, Hpriv, orb_true_r. }
  destruct Ho as ((O1 & O2 & O3 & O4 & O5 & O6) & Hpriv1 & Hfd).
  set (a2 := if bool_decide (fd = None) && has (a_flags a1) MAP_PRIVATE then a1 <| a_flags ::= Z.lor MAP_ANONYMOUS |> else a1).
  assert (H2 : same_header a a2 /\ (fd = None -> has (a_flags a2) MAP_ANONYMOUS = true) /\ (fd <> None -> has (a_flags a2) MAP_ANONYMOUS = false /\ a_offset a2 = a_offset a)).
  { unfold a2. rewrite Hpriv1, andb_true_r. case_bool_decide as Hn.
    - split_and!; try done. intros _. unfold set_field. cbn. rewrite has_anon. rewrite Z.lor_spec. done.
    - split_and!; try done; by apply Hfd. }
  clearbody a2. destruct H2 as ((A1 & A2 & A3 & A4 & A5 & A6) & Hn2 & Hfd2).
  unfold mbind, M_bind, assertM.
  assert (negb (has (a_flags a2) MAP_ANONYMOUS) || bool_decide (fd = None) = true) as ->.
  { destruct fd as [f|]; [|by rewrite orb_true_r]. destruct Hfd2 as [-> _]; done. }
  cbn [mret M_ret]. unfold mmap_fixed_noreplace, gets, mbind, M_bind. cbn [r_mem]. rewrite A1, A2.
  destruct (pages_between (a_addr a) (a_end a)) as (n & En & Hn); [done|unfold a_end; auto with pages|unfold a_end; lia|].
  replace (a_end a - a_addr a) with (a_size a) in Hn by (unfold a_end; lia). rewrite Hn.
  rewrite free_run; [|done|intros x Hx; apply Hfree; lia].
  match goal with |- context [has ?f MAP_ANONYMOUS || bool_decide (fd <> None)] => assert (Hanon : has f MAP_ANONYMOUS || bool_decide (fd <> None) = true) end.
  { destruct fd as [f|]; [apply orb_true_r|]. rewrite has_anon. specialize (Hn2 eq_refl). rewrite has_anon in Hn2. apply orb_true_iff. left.
    rewrite Z.lor_spec. apply orb_true_iff. left. destruct (_ && _); destruct (has _ MAP_FIXED); rewrite ?Z.lxor_spec, ?Z.lor_spec, Hn2; done. }
  rewrite Hanon. cbn [andb]. fold (a_end a). eexists a2, _, _. split; [reflexivity|]. split; [done|]. split.
  - intros x Hx. by apply mapping_out.
  - intros x Hx. unfold set_field. cbn [set_with r_mem mapping m_mapped m_guard m_prot m_data]. rewrite (proj2 (in_range_spec _ _ x) Hx), A3. split_and!; try done. destruct fd as [[s f]|]; [|done].
    destruct Hfd2 as [_ ->]; done.
Qed.

(** ** Reading one area *)

(** What the restart needs: memory saved run by run is not mapped from a file that has come into being, and a mapped file is
    still long enough to hold the data that is copied over it. *)
Definition restorable (env : Env) (renv : REnv) (st : option (bool * Z)) (a : Area) : Prop :=
  if by_runs env a then fst (open_file renv (adjust_flags renv (parent a))) = None
  else let a' := with_mmapFileSize st a in
    starts_with_slash a = true /\ forall x, a_addr a <= x < a_addr a + data_len a' -> is_Some (contents renv (adjust_flags renv a') x).

(** An area as the parser and the writer leave it. *)
Record area_plain (a : Area) : Prop := {
  ap_fits : area_fits a; ap_addr : 0 < a_addr a; ap_props : a_properties a = 0; ap_mfs : a_mmapFileSize a = -1;
  ap_flags : has (a_flags a) MAP_PRIVATE = true \/ has (a_flags a) MAP_SHARED = true }.

Definition saved_len (env : Env) (st : option (bool * Z)) (a : Area) : Z := if by_runs env a then a_size a else data_len (with_mmapFileSize st a).

Lemma adjust_private env a : has (a_flags a) MAP_PRIVATE = true \/ has (a_flags a) MAP_SHARED = true -> has (a_flags (adjust_flags env a)) MAP_PRIVATE = true.
Proof.
  intros H. unfold adjust_flags. set (a1 := if grows_down env a then a <| a_flags ::= Z.lor MAP_GROWSDOWN |> else a).
  assert (H1 : has (a_flags a1) MAP_PRIVATE = true \/ has (a_flags a1) MAP_SHARED = true).
  { unfold a1. destruct (grows_down env a); [|done]. unfold set_field. cbn. rewrite has_priv, has_shared in *. rewrite !Z.lor_spec.
    destruct H as [->| ->]; [left|right]; apply orb_true_r. }
  clearbody a1. destruct (has (a_flags a1) MAP_SHARED) eqn:E.
  - unfold set_field. cbn. rewrite has_priv, !Z.lor_spec. change (Z.testbit MAP_PRIVATE 1) with true. by rewrite orb_true_r.
  - destruct H1 as [?|?]; [done|congruence].
Qed.

Lemma header_mapped env h i mr mm : area_fits h -> 0 < a_addr h -> has (a_flags h) MAP_PRIVATE = true \/ has (a_flags h) MAP_SHARED = true ->
  has (a_properties h) DMTCP_ZERO_PAGE = false -> has (a_properties h) DMTCP_ZERO_PAGE_CHILD_HEADER = false ->
  (forall x, a_addr h <= x < a_end h -> m_mapped mr x = false) ->
  exists h' mr' mm', same_header h h' /\
    restore_area env h (mk_Reader i mr mm) =
      (whenM (negb (has (a_properties h) DMTCP_ZERO_PAGE_PARENT_HEADER)) (read_contents h');; mret true) (mk_Reader i mr' mm') /\
    (forall x, ~ a_addr h <= x < a_end h -> same_at mr mr' x) /\
    (forall x, a_addr h <= x < a_end h -> m_mapped mr' x = true /\ m_guard mr' x = false /\ m_prot mr' x = Z.lor (a_prot h) PROT_WRITE /\
       m_data mr' x = contents env (adjust_flags env h) x).
Proof.
  intros [F1 F2 F3 _] Hpos Hfl Hz Hc Hfree. destruct (adjust_flags_same env h) as (A1 & A2 & A3 & A4 & A5 & A6 & _).
  destruct (map_area_ok env (adjust_flags env h) i mr mm) as (h' & mr' & mm' & E & (S1 & S2 & S3 & S4 & S5 & S6) & Hout & Hin);
    [by rewrite A1|by rewrite A2|by rewrite A2|by apply adjust_private|unfold a_end; rewrite A1, A2; done|].
  unfold a_end in Hout, Hin. rewrite A1, A2 in Hout, Hin. rewrite A3 in Hin.
  exists h', mr', mm'. split; [split_and!; congruence|]. split; [|done].
  unfold restore_area. destruct (Z.eqb_spec (a_addr h) 0); [lia|]. rewrite A5, Hz, Hc. unfold mbind at 1, M_bind at 1. rewrite E. by rewrite S5, A5.
Qed.

Lemma read_saved_ok env renv st m g a cs rest mr mm : saved_cells env st m g a cs -> area_plain a -> restorable env renv st a ->
  (forall x, a_addr a <= x < a_end a -> cov g x = m_guard m x) -> saved_len env st a <= a_size a ->
  (forall x, a_addr a <= x < a_end a -> m_mapped mr x = false) ->
  exists k mr' mm', (k <= length cs)%nat /\ reads renv k (mk_Reader (cs ++ rest) mr mm) (mk_Reader rest mr' mm') /\
    (forall x, ~ a_addr a <= x < a_end a -> same_at mr mr' x) /\
    (forall x, a_addr a <= x < a_end a -> m_mapped mr' x = true /\ m_guard mr' x = false /\ m_prot mr' x = a_prot a) /\
    (forall x, a_addr a <= x < a_addr a + saved_len env st a -> back_at m a mr' x).
Proof.
  intros Hcs [Hfit Hpos Hpr Hmfs Hfl] Hrest Hcov Hlen Hfree. unfold saved_cells, restorable, saved_len in *. destruct (by_runs env a).
  - destruct Hcs as (cs' & -> & Hcc).
    destruct (header_mapped renv (parent a) (cs' ++ rest) mr mm) as (h' & mr1 & mm1 & Hsh & E & Hout & Hin).
    { split; apply Hfit. } { done. } { done. }
    { change (a_properties (parent a)) with (Z.lor DMTCP_ZERO_PAGE_PARENT_HEADER (a_properties a)). by rewrite Hpr. }
    { change (a_properties (parent a)) with (Z.lor DMTCP_ZERO_PAGE_PARENT_HEADER (a_properties a)). by rewrite Hpr. }
    { done. }
    change (a_properties (parent a)) with (Z.lor DMTCP_ZERO_PAGE_PARENT_HEADER (a_properties a)) in E. rewrite Hpr in E.
    change (negb (has (Z.lor DMTCP_ZERO_PAGE_PARENT_HEADER 0) DMTCP_ZERO_PAGE_PARENT_HEADER)) with false in E.
    change (a_addr (parent a)) with (a_addr a) in *. change (a_end (parent a)) with (a_end a) in *. change (a_prot (parent a)) with (a_prot a) in *.
    destruct (children_ok renv m (unparent (parent a)) (a_end a) (a_addr a) cs' rest mr1 mm1 Hcc Hpos) as (k & mr2 & Hk & Hr & Hout2 & Hin2).
    { change (a_mmapFileSize (unparent (parent a))) with (a_mmapFileSize a). rewrite Hmfs. lia. }
    { intros x Hx. destruct (Hin x Hx) as (I1 & I2 & I3 & I4). unfold contents in I4. rewrite Hrest in I4. done. }
    exists (1 + k)%nat, mr2, mm1. split_and!; [cbn; lia| | | |].
    + eapply reads_trans; [|exact Hr]. apply reads_one. cbn [app]. rewrite read_header_ok. by rewrite E.
    + intros x Hx. destruct (Hout2 x Hx) as (T1 & T2 & T3 & T4), (Hout x Hx) as (S1 & S2 & S3 & S4). unfold same_at. by rewrite T1, T2, T3, T4.
    + intros x Hx. destruct (Hin2 x Hx) as (B1 & B2 & B3 & _). done.
    + intros x Hx. apply Hin2. unfold a_end. lia.
  - destruct Hcs as (bs & -> & Hl & Hcp). set (h := with_mmapFileSize st a) in *.
    assert (Hh : a_addr h = a_addr a /\ a_size h = a_size a /\ a_endAddr h = a_endAddr a /\ a_prot h = a_prot a /\ a_name h = a_name a /\ a_properties h = 0 /\ a_flags h = a_flags a).
    { unfold h, with_mmapFileSize. destruct st as [[? ?]|]; [|done]. by destruct (_ || _). }
    destruct Hh as (H1 & H2 & H3 & H4 & H5 & H6 & H7). destruct Hrest as [Hslash Hcont].
    assert (Hfith : area_fits h) by (split; unfold a_end; rewrite ?H1, ?H2, ?H3; apply Hfit).
    assert (Eend : a_end h = a_end a) by (unfold a_end; by rewrite H1, H2).
    destruct (header_mapped renv h ((Data <$> bs) ++ rest) mr mm) as (h' & mr1 & mm1 & (S1 & S2 & S3 & S4 & S5 & S6) & E & Hout & Hin);
      [done|by rewrite H1|by rewrite H7|by rewrite H6|by rewrite H6|rewrite H1, Eend; done|].
    rewrite H1, Eend in Hout, Hin. rewrite H4 in Hin. rewrite H6 in E. change (negb (has 0 DMTCP_ZERO_PAGE_PARENT_HEADER)) with true in E.
    assert (Hsl : starts_with_slash h' = true) by (unfold starts_with_slash in *; by rewrite S4, H5).
    assert (Erd : (if (0 <? a_mmapFileSize h') && starts_with_slash h' then mtcp_readfile (a_addr h') (a_mmapFileSize h') else mtcp_readfile (a_addr h') (a_size h'))
      = mtcp_readfile (a_addr a) (data_len h)).
    { rewrite Hsl, andb_true_r, S1, S2, S6, H1. unfold data_len. by destruct (0 <? a_mmapFileSize h). }
    assert (Hpos0 : 0 <= data_len h) by (unfold data_len; destruct (Z.ltb_spec 0 (a_mmapFileSize h)); [lia|]; rewrite H2; pose proof (af_pos a Hfit); lia).
    assert (Hbl : Z.of_nat (length bs) = data_len h) by lia.
    set (mr2 := protected h' (store_bytes mr1 (a_addr a) bs)).
    exists 1%nat, mr2, mm1. split_and!; [cbn; lia| | | |].
    + apply reads_one. cbn [app]. rewrite read_header_ok, E. cbn [whenM]. unfold mbind at 1, M_bind at 1. unfold read_contents. unfold mbind, M_bind. rewrite Erd.
      rewrite readfile_ok; [by rewrite protect_ok|done|]. intros x Hx. destruct (Hin x) as (I1 & I2 & I3 & I4); [unfold a_end; lia|].
      unfold can_write. rewrite I1, I2, I3, I4, writable_lor. cbn [negb andb]. apply bool_decide_true. apply Hcont. lia.
    + intros x Hx. destruct (protected_at h' (store_bytes mr1 (a_addr a) bs) x) as (P1 & P2 & P3 & P4 & _).
      destruct (store_out mr1 (a_addr a) bs x) as (T1 & T2 & T3 & T4); [unfold a_end in Hx; lia|]. destruct (Hout x Hx) as (U1 & U2 & U3 & U4).
      unfold same_at, mr2. rewrite P1, P2, P3, P4, T1, T2, T3, T4; [done|]. rewrite S1, S2, H1, H2. done.
    + intros x Hx. destruct (Hin x Hx) as (I1 & I2 & I3 & _).
      destruct (protected_at h' (store_bytes mr1 (a_addr a) bs) x) as (P1 & P2 & P3 & _ & P5). unfold mr2. rewrite P1, P3, P5, S3, H4; [done|by rewrite S1, S2, H1, H2|].
      rewrite S3, H4. exact I3.
    + intros x Hx. destruct (Hin x) as (I1 & I2 & I3 & _); [unfold a_end; lia|].
      destruct (protected_at h' (store_bytes mr1 (a_addr a) bs) x) as (P1 & P2 & P3 & _ & P5). unfold back_at, mr2.
      rewrite P1, P2, P3, P5, S3, H4, store_at; [|lia|rewrite S1, S2, H1, H2; unfold a_end in *; lia|rewrite S3, H4; exact I3].
      split_and!; try done. intros Hng v Hv. assert (is_Some (bs !! Z.to_nat (x - a_addr a))) as [b Hi] by (apply lookup_lt_is_Some; lia).
      specialize (Hcp _ _ Hi). replace (a_addr a + Z.of_nat (Z.to_nat (x - a_addr a))) with x in Hcp by lia.
      rewrite Hcov, Hng in Hcp by (unfold a_end; lia). rewrite Hi. congruence.
Qed.

(** ** All areas: writing *)

(** The area as it is saved, if it is. *)
Definition target (env : Env) (a : Area) : option Area :=
  if not_saved env a then None else match reclassify env a with Save a' => Some (label_heap env a') | _ => None end.

Lemma target_plain env a b : area_plain a -> target env a = Some b ->
  area_plain b /\ a_addr b = a_addr a /\ a_size b = a_size a /\ a_prot b = a_prot a.
Proof.
  intros [[F1 F2 F3 F4] P1 P2 P3 P4]. unfold target. destruct (not_saved env a); [done|]. destruct (reclassify env a) as [a'|a'|] eqn:E; [|done..].
  intros [= <-]. assert (Ha' : a_addr a' = a_addr a /\ a_size a' = a_size a /\ a_endAddr a' = a_endAddr a /\ a_prot a' = a_prot a /\ a_properties a' = a_properties a /\
    a_mmapFileSize a' = -1 /\ (has (a_flags a') MAP_PRIVATE = true \/ has (a_flags a') MAP_SHARED = true)).
  { unfold reclassify in E. repeat (case_match; [simplify_eq; split_and!; try done; by left|]). simplify_eq. done. }
  destruct Ha' as (A1 & A2 & A3 & A4 & A5 & A6 & A7). unfold label_heap.
  destruct (unnamed a' && _ && _); (split; [split; [split|..]|]; unfold set_field, a_end in *; cbn; rewrite ?A1, ?A2, ?A3, ?A4, ?A5, ?A6; done).
Qed.

(** The memory of an area that is to be saved. *)
Record area_mem (env : Env) (m : Memory) (a b : Area) : Prop := {
  me_prot : forall x, a_addr b <= x < a_end b -> m_prot m x = a_prot b;
  me_runs : by_runs env b = true -> forall x, a_addr b <= x < a_end b -> m_guard m x = false -> saves env (residencyScanSafe env a) m x;
  me_file : by_runs env b = false -> a_name b <> "" /\ data_len (with_mmapFileSize (areaStat env a) b) <= a_size b /\
    forall x, a_addr b <= x < a_addr b + data_len (with_mmapFileSize (areaStat env a) b) -> m_guard m x = false -> m_mapped m x = true /\ is_Some (m_data m x) }.

Definition area_cells (env : Env) (m : Memory) (g : Ranges) (a : Area) (cs : list cell) : Prop :=
  match target env a with
  | Some b => saved_cells env (areaStat env a) m g b cs
  | None => cs = [] \/ exists h, reclassify env a = HeaderOnly h /\ cs = [Header h]
  end.

(** Pages of a set were given back. *)
Definition given_back_in (P : Z -> Prop) (m m' : Memory) : Prop :=
  (forall x, m_mapped m' x = m_mapped m x /\ m_back m' x = m_back m x /\ m_guard m' x = m_guard m x /\ m_prot m' x = m_prot m x) /\
  (forall x, ~ P x -> m_data m' x = m_data m x /\ m_present m' x = m_present m x) /\
  (forall x, m_data m' x = m_data m x \/ m_data m x = Some 0 /\ m_data m' x = m_back m x).

Definition within (a : Area) (x : Z) : Prop := a_addr a <= x < a_end a.

Lemma given_back_area a m m' : given_back (a_addr a) (a_end a) m m' -> given_back_in (within a) m m'.
Proof.
  intros (A & B & C). split_and!; [done|done|]. intros x. destruct (decide (a_addr a <= x < a_end a)) as [Hx|Hx]; [by apply C|].
  left. by destruct (B x Hx).
Qed.

Lemma given_back_in_trans (P Q : Z -> Prop) m1 m2 m3 : (forall x, P x -> Q x -> False) -> given_back_in P m1 m2 -> given_back_in Q m2 m3 ->
  given_back_in (fun x => P x \/ Q x) m1 m3.
Proof.
  intros Hd (A1 & B1 & C1) (A2 & B2 & C2). split_and!.
  - intros x. destruct (A1 x) as (<- & <- & <- & <-). apply A2.
  - intros x Hx. destruct (B1 x) as [<- <-]; [tauto|]. apply B2. tauto.
  - intros x. destruct (C2 x) as [->|[Hz E]]; [apply C1|]. destruct (A1 x) as (_ & <- & _). destruct (C1 x) as [<-|[Hz' E']]; [by right|].
    right. split; [done|]. destruct (A1 x) as (_ & Hb & _). rewrite E. by rewrite Hb.
Qed.

Lemma area_mem_kept env m m' (P : Z -> Prop) a b : area_plain b -> given_back_in P m m' -> (forall x, within b x -> ~ P x) -> area_mem env m a b -> area_mem env m' a b.
Proof.
  intros Hpl (A & B & _) Hd [H1 H2 H3]. split.
  - intros x Hx. destruct (A x) as (_ & _ & _ & ->). by apply H1.
  - intros Hb x Hx. destruct (A x) as (E1 & _ & -> & _), (B x) as [E2 E3]; [by apply Hd|]. intros Hng. unfold saves. rewrite E1, E2, E3. by apply H2.
  - intros Hb. destruct (H3 Hb) as (? & Hl & H). split_and!; [done|done|]. intros x Hx. destruct (A x) as (-> & _ & -> & _), (B x) as [-> _]; [|by apply H].
    apply Hd. unfold within, a_end. lia.
Qed.

Lemma saved_cells_kept env st m m' (P : Z -> Prop) g a cs : given_back_in P m m' -> (forall x, within a x -> ~ P x) -> (by_runs env a = false -> saved_len env st a <= a_size a) ->
  saved_cells env st m' g a cs -> saved_cells env st m g a cs.
Proof.
  intros (A & B & _) Hd Hlen. unfold saved_cells, saved_len in *. destruct (by_runs env a).
  - intros (cs' & -> & H). exists cs'. split; [done|]. eapply child_cells_same; [|exact H]. intros x Hx.
    destruct (A x) as (_ & _ & ? & _), (B x) as [? _]; [by apply Hd|]. done.
  - intros (bs & -> & Hl & H). exists bs. split_and!; [done|done|]. intros i b Hi. specialize (H i b Hi). pose proof (lookup_lt_Some _ _ _ Hi) as Hlt.
    destruct (B (a_addr a + Z.of_nat i)) as [<- _]; [|done]. apply Hd. unfold within, a_end. specialize (Hlen eq_refl). lia.
Qed.

Lemma mret_bind {S} (m : M S unit) s s' : m s = Ok tt s' -> (m;; mret tt) s = Ok tt s'.
Proof. intros H. unfold mbind, M_bind. by rewrite H. Qed.

(** The bytes whose pages the writer may give back: those of the areas it writes run by run. *)
Definition given_up (env : Env) (a : Area) (x : Z) : Prop := exists b, target env a = Some b /\ by_runs env b = true /\ within b x.

Lemma given_up_within env a x : area_plain a -> given_up env a x -> within a x.
Proof.
  intros Hpl (b & Ht & _ & Hx). destruct (target_plain env a b Hpl Ht) as (_ & T1 & T2 & _). unfold within, a_end in *. by rewrite T1, T2 in Hx.
Qed.

Lemma given_back_none (P : Z -> Prop) m : given_back_in P m m.
Proof. split_and!; intros; [done..|by left]. Qed.

(** Without plugins an area is one part. *)
Lemma for_parts_one {S} env (f : Area -> M S unit) a s s' : e_skip env = None -> area_fits a -> f a s = Ok tt s' ->
  for_parts env (parts_fuel a) f a s = Ok tt s'.
Proof.
  intros Hsk [_ _ Hpos Hend] Hf. unfold parts_fuel. destruct (Z.to_nat (a_size a)) as [|k] eqn:Ek; [lia|].
  cbn [for_parts getNextNonSkipArea]. rewrite Hsk. unfold mbind, M_bind, assertM. destruct (Z.eqb_spec (a_size a) 0); [lia|]. rewrite Hend. unfold a_end.
  destruct (Z.ltb_spec (a_addr a) (a_addr a + a_size a)); [|lia]. destruct (Z.leb_spec (a_addr a + a_size a) (a_addr a + a_size a)); [|lia]. cbn [andb mret M_ret].
  assert (Ha : a <| a_endAddr := a_addr a + a_size a |> <| a_size := a_addr a + a_size a - a_addr a |> = a).
  { destruct a. unfold a_end, set_field in *. cbn in *. subst. f_equal; lia. }
  rewrite Ha, Hf. set (rest := if has (a_flags a) MAP_ANONYMOUS then _ else _).
  assert (a_size rest = 0) as Hr by (unfold rest; destruct (has _ _); unfold set_field; cbn; lia).
  cbn [for_parts getNextNonSkipArea]. rewrite Hr. done.
Qed.

Lemma writememoryarea_ok env g a i m : kernel_ok m -> cov_ok g -> area_plain a -> (forall x, within a x -> cov g x = m_guard m x) ->
  (forall b, target env a = Some b -> area_mem env m a b) ->
  exists cs m', writememoryarea env a (mk_Writer i m g) = Ok tt (mk_Writer (i ++ cs) m' g) /\
    area_cells env m g a cs /\ given_back_in (given_up env a) m m' /\ kernel_ok m'.
Proof.
  intros Hm Hg Hpl Hcov Hmem. pose proof (target_plain env a) as Ht. unfold writememoryarea, area_cells, given_up. unfold target in *. destruct (not_saved env a).
  { exists [], m. rewrite app_nil_r. split_and!; [done|by left|apply given_back_none|done]. }
  destruct (reclassify env a) as [a'|h|] eqn:E.
  - destruct (Ht _ Hpl eq_refl) as (Hb & E1 & E2 & E3). set (b := label_heap env a') in *. destruct (Hmem b eq_refl) as [M1 M2 M3].
    assert (Hw : forall x, within b x <-> within a x) by (intros x; unfold within, a_end; by rewrite E1, E2).
    destruct (write_saved_ok env (areaStat env a) (residencyScanSafe env a) g b i m Hm Hg (ap_fits b Hb)) as (cs & m' & Hwr & Hcs & Hgb & Hm' & Hkept).
    { split; [done| |done|done]. intros x Hx. apply Hcov, Hw, Hx. }
    exists cs, m'. split_and!; [done|done| |done]. apply given_back_area in Hgb. destruct Hgb as (A & B & C). split_and!; [done| |done].
    intros x Hx. destruct (by_runs env b) eqn:Eb; [|by apply Hkept]. apply B. intros Hx'. apply Hx. by exists b.
  - assert (Hh : a_addr h + a_size h = a_endAddr h).
    { unfold reclassify in E. repeat (case_match; simplify_eq). destruct Hpl as [[_ _ _ F] _ _ _ _]. symmetry. exact F. }
    exists [Header h], m. rewrite writeAreaHeader_ok by done. split_and!; [done|right; eauto|apply given_back_none|done].
  - exists [], m. rewrite app_nil_r. split_and!; [done|by left|apply given_back_none|done].
Qed.

Definition before_area (a b : Area) : Prop := a_end a <= a_addr b.

(** The areas one after another. *)
Lemma write_all_ok env g areas i m : e_skip env = None -> kernel_ok m -> cov_ok g -> Forall area_plain areas -> StronglySorted before_area areas ->
  (forall a, a ∈ areas -> forall x, within a x -> cov g x = m_guard m x) -> (forall a b, a ∈ areas -> target env a = Some b -> area_mem env m a b) ->
  exists css m', forM areas (fun a => for_parts env (parts_fuel a) (writememoryarea env) a) (mk_Writer i m g) = Ok tt (mk_Writer (i ++ concat css) m' g) /\
    Forall2 (area_cells env m g) areas css /\ given_back_in (fun x => exists a, a ∈ areas /\ given_up env a x) m m' /\ kernel_ok m'.
Proof.
  intros Hsk Hm Hg Hpl Hso. revert i m Hm Hpl. induction Hso as [|a areas Hso IH Hlater]; intros i m Hm Hpl Hcov Hmem.
  { exists [], m. cbn. rewrite app_nil_r. split_and!; [done|constructor| |done]. split_and!; intros; [done|done|by left]. }
  apply Forall_cons in Hpl as [Ha Hpl].
  destruct (writememoryarea_ok env g a i m Hm Hg Ha) as (cs & m1 & E1 & Hcs & Hgb1 & Hm1); [apply Hcov; left|intros b; apply Hmem; left|].
  assert (Hdis : forall b x, b ∈ areas -> within b x -> ~ within a x).
  { intros b x Hb Hx1 Hx2. rewrite Forall_forall in Hlater. specialize (Hlater b Hb). unfold before_area, within in *. lia. }
  assert (Htarget : forall b c x, b ∈ areas -> target env b = Some c -> within c x -> within b x).
  { intros b c x Hb Hc Hx. rewrite Forall_forall in Hpl. destruct (target_plain env b c (Hpl b Hb) Hc) as (_ & T1 & T2 & _).
    unfold within, a_end in *. by rewrite T1, T2 in Hx. }
  destruct (IH (i ++ cs) m1 Hm1 Hpl) as (css & m2 & E2 & Hcss & Hgb2 & Hm2).
  { intros b Hb x Hx. rewrite (Hcov b (list_elem_of_further _ _ _ Hb) x Hx). destruct Hgb1 as (A & _). by destruct (A x) as (_ & _ & -> & _). }
  { intros b c Hb Hc. rewrite Forall_forall in Hpl. eapply area_mem_kept; [apply (target_plain env b c (Hpl b Hb) Hc)|exact Hgb1| |apply Hmem; [by right|done]].
    intros x Hx Hu. eapply Hdis; [exact Hb|by eapply Htarget|by eapply given_up_within]. }
  exists (cs :: css), m2. split_and!; [| | |done].
  - cbn [forM]. unfold mbind, M_bind. rewrite (for_parts_one env _ a _ _ Hsk (ap_fits a Ha) E1), E2. cbn [concat]. by rewrite app_assoc.
  - constructor; [done|]. clear IH E2 Hgb2. assert (Hall : forall b, b ∈ areas -> forall cs, area_cells env m1 g b cs -> area_cells env m g b cs).
    { intros b Hb cs' Hc. unfold area_cells in *. destruct (target env b) as [c|] eqn:Et; [|done]. eapply saved_cells_kept; [exact Hgb1| | |exact Hc].
      - intros x Hx Hu. eapply Hdis; [exact Hb|by eapply Htarget|by eapply given_up_within].
      - intros Hr. unfold saved_len. rewrite Hr. apply (me_file env m b c); [apply Hmem; [by right|done]|done]. }
    clear -Hcss Hall. induction Hcss as [|b cs' areas css Hb _ IH]; constructor; [apply Hall; [left|done]|]. apply IH. intros c Hc. apply Hall. by right.
  - destruct (given_back_in_trans (given_up env a) (fun x => exists b, b ∈ areas /\ given_up env b x) m m1 m2) as (A & B & C); [|done|done|].
    { intros x Hx (b & Hb & Hx'). rewrite Forall_forall in Hpl. eapply Hdis; [exact Hb|eapply given_up_within; [by apply Hpl|done]|by eapply given_up_within]. }
    split_and!; [done| |done]. intros x Hx. apply B. intros [Hx1|(b & Hb & Hx1)]; apply Hx; [exists a; split; [left|done]|exists b; split; [by right|done]].
Qed.

(** ** Recording the guard pages of all areas *)

Lemma record_areas_ok env areas i m l : e_skip env = None -> kernel_ok m -> guardPagesSupported (e_pagemap env) = true -> Forall area_plain areas ->
  StronglySorted before_area areas -> ranges_ok l -> (forall a, a ∈ areas -> below l (a_addr a)) ->
  exists l', forM areas (fun a => m ← gets w_mem; for_parts env (parts_fuel a) (fun p => zoom_guards (record (e_pagemap env) m (a_addr p) (a_endAddr p))) a)
      (mk_Writer i m (Some l)) = Ok tt (mk_Writer i m (Some l')) /\ ranges_ok l' /\
    (forall a x, a ∈ areas -> within a x -> covered l' x = m_guard m x) /\
    (forall x, (forall a, a ∈ areas -> x < a_addr a) -> covered l' x = covered l x).
Proof.
  intros Hsk Hm Hsup Hpl Hso. revert l Hpl. induction Hso as [|a areas Hso IH Hlater]; intros l Hpl Hl Hb.
  { exists l. split_and!; [done|done|intros ? ? ?%elem_of_nil; done|done]. }
  apply Forall_cons in Hpl as [[[F1 F2 F3 F4] P1 P2 P3 P4] Hpl].
  destruct (record_ok (e_pagemap env) m l (a_addr a) (a_endAddr a)) as (l1 & E1 & Hl1 & Hb1 & Hn1 & Hk1);
    [done|done|done|apply Hb; left|done|rewrite F4; unfold a_end; auto with pages|rewrite F4; unfold a_end; lia|].
  rewrite Forall_forall in Hlater.
  destruct (IH l1 Hpl Hl1) as (l2 & E2 & Hl2 & Hn2 & Hk2).
  { intros b Hbb. eapply Forall_impl; [exact Hb1|]. cbn. intros r Hr. specialize (Hlater b Hbb). unfold before_area in Hlater. rewrite F4 in Hr. lia. }
  assert (Hearly : forall x, within a x -> covered l2 x = covered l1 x).
  { intros x Hx. apply Hk2. intros b Hbb. specialize (Hlater b Hbb). unfold before_area, within in *. lia. }
  exists l2. split_and!; [|done| |].
  - cbn [forM]. unfold mbind at 1, M_bind at 1. unfold mbind at 1, M_bind at 1. unfold gets at 1. cbn [w_mem].
    rewrite (for_parts_one env _ a _ (mk_Writer i m (Some l1)) Hsk); [exact E2|by split|].
    unfold zoom_guards, zoom. cbn [w_guards]. by rewrite E1.
  - intros b x [->|Hbb]%elem_of_cons Hx; [|by eapply Hn2]. rewrite Hearly by done. apply Hn1. rewrite F4. exact Hx.
  - intros x Hx. assert (x < a_addr a) by (apply Hx; left). rewrite Hk2 by (intros b Hbb; apply Hx; by right). apply Hk1. lia.
Qed.

(** Guard pages are found if the kernel tells about them. *)
Lemma recordGuardPages_ok env areas i m g0 : e_skip env = None -> kernel_ok m ->
  (guardPagesSupported (e_pagemap env) = true \/ forall x, m_guard m x = false) -> Forall area_plain areas -> StronglySorted before_area areas ->
  exists g, recordGuardPages env areas (mk_Writer i m g0) = Ok tt (mk_Writer i m g) /\ cov_ok g /\
    forall a x, a ∈ areas -> within a x -> cov g x = m_guard m x.
Proof.
  intros Hsk Hm Hsup Hpl Hso. unfold recordGuardPages, beginRecording. unfold mbind at 1, M_bind at 1. unfold zoom. cbn [w_guards].
  unfold mbind, M_bind, modify. destruct (guardPagesSupported (e_pagemap env)) eqn:Es; cbn [negb mret M_ret whenM].
  - destruct (record_areas_ok env areas i m []) as (l & E & Hl & Hn & _); try done; [split; constructor|intros a _; constructor|].
    exists (Some l). split_and!; [|done|done]. by destruct g0.
  - destruct Hsup as [?|Hno]; [done|]. exists (match g0 with Some _ => Some [] | None => None end). split_and!; [done|by destruct g0; [split; constructor|]|].
    intros a x _ _. rewrite Hno. by destruct g0.
Qed.

(** ** All areas: reading *)

Lemma header_only_ok env renv a h i mr mm : reclassify env a = HeaderOnly h -> area_plain a ->
  read_one_memory_area renv (mk_Reader (Header h :: i) mr mm) = Ok true (mk_Reader i mr mm).
Proof.
  intros E Hpl. rewrite read_header_ok.
  assert (Hh : a_addr h = a_addr a /\ a_prot h = 3 /\ has (a_properties h) DMTCP_ZERO_PAGE = true).
  { unfold reclassify in E. repeat (case_match; simplify_eq). unfold set_field. cbn. rewrite (ap_props a Hpl). done. }
  destruct Hh as (H1 & H2 & H3). destruct (adjust_flags_same renv h) as (A1 & A2 & A3 & A4 & A5 & A6 & _). unfold restore_area. rewrite H1, A5, H3.
  destruct (Z.eqb_spec (a_addr a) 0) as [E0|_]; [pose proof (ap_addr a Hpl); lia|]. unfold mbind, M_bind. rewrite A3, H2. done.
Qed.

(** The areas that are to be restored: what the restart needs for them. *)
Definition all_restorable (env : Env) (renv : REnv) (areas : list Area) : Prop :=
  forall a b, a ∈ areas -> target env a = Some b -> restorable env renv (areaStat env a) b.

Definition area_back (env : Env) (m : Memory) (a : Area) (mr : Memory) : Prop :=
  forall b, target env a = Some b ->
    (forall x, within b x -> m_mapped mr x = true /\ m_guard mr x = false /\ m_prot mr x = a_prot a) /\
    (forall x, a_addr a <= x < a_addr a + saved_len env (areaStat env a) b -> back_at m a mr x).

Lemma read_all_ok env renv g areas css rest m mr mm : Forall2 (area_cells env m g) areas css -> Forall area_plain areas -> StronglySorted before_area areas ->
  all_restorable env renv areas -> (forall a, a ∈ areas -> forall x, within a x -> cov g x = m_guard m x) ->
  (forall a b, a ∈ areas -> target env a = Some b -> area_mem env m a b) ->
  (forall a b x, a ∈ areas -> target env a = Some b -> within b x -> m_mapped mr x = false) ->
  exists k mr' mm', (k <= length (concat css))%nat /\ reads renv k (mk_Reader (concat css ++ rest) mr mm) (mk_Reader rest mr' mm') /\
    (forall x, (forall a b, a ∈ areas -> target env a = Some b -> ~ within b x) -> same_at mr mr' x) /\
    (forall a, a ∈ areas -> area_back env m a mr').
Proof.
  intros H. revert mr mm. induction H as [|a cs areas css Hc Hcs IH]; intros mr mm Hpl Hso Hres Hcov Hmem Hfree.
  { exists 0%nat, mr, mm. split_and!; [done|by intros fuel|done|by intros ? ?%elem_of_nil]. }
  apply Forall_cons in Hpl as [Ha Hpl]. inversion Hso as [|? ? Hso1 Hso2]; subst. rewrite Forall_forall in Hso2, Hpl.
  assert (Hdis : forall b c x, b ∈ areas -> target env b = Some c -> within c x -> ~ within a x).
  { intros b c x Hb Hc' Hx1 Hx2. destruct (target_plain env b c (Hpl b Hb) Hc') as (_ & T1 & T2 & _). specialize (Hso2 b Hb).
    unfold before_area, within, a_end in *. lia. }
  cbn [concat]. rewrite <- app_assoc.
  assert (Hstep : exists k mr1 mm1, (k <= length cs)%nat /\ reads renv k (mk_Reader (cs ++ concat css ++ rest) mr mm) (mk_Reader (concat css ++ rest) mr1 mm1) /\
    (forall x, (forall b, target env a = Some b -> ~ within b x) -> same_at mr mr1 x) /\ area_back env m a mr1).
  { unfold area_cells in Hc. destruct (target env a) as [b|] eqn:Et.
    - destruct (target_plain env a b Ha Et) as (Hb & T1 & T2 & T3). pose proof (Hmem a b (list_elem_of_here _ _) Et) as [M1 M2 M3].
      destruct (read_saved_ok env renv (areaStat env a) m g b cs (concat css ++ rest) mr mm Hc Hb) as (k & mr1 & mm1 & Hk & Hr & Hout & Hin & Hba).
      { apply (Hres a b); [left|done]. }
      { intros x Hx. apply (Hcov a (list_elem_of_here _ _)). unfold within, a_end in *. by rewrite T1, T2 in Hx. }
      { unfold saved_len. destruct (by_runs env b); [done|]. by apply M3. }
      { intros x Hx. apply (Hfree a b); [left|done|done]. }
      exists k, mr1, mm1. split_and!; [done|done|intros x Hx; apply Hout; by apply (Hx b)|]. intros b' Et'. rewrite Et in Et'. injection Et' as <-. split.
      + intros x Hx. rewrite <- T3. by apply Hin.
      + intros x Hx. rewrite <- T1 in Hx. destruct (Hba x Hx) as (B1 & B2 & B3 & B4). unfold back_at. rewrite <- T3. done.
    - assert (Hnone : area_back env m a mr) by (intros b Hb; by rewrite Et in Hb).
      destruct Hc as [->|(h & Eh & ->)].
      + exists 0%nat, mr, mm. split_and!; [done|by intros fuel|done|done].
      + exists 1%nat, mr, mm. split_and!; [cbn; lia|apply reads_one; by eapply header_only_ok|done|done]. }
  destruct Hstep as (k1 & mr1 & mm1 & Hk1 & Hr1 & Hout1 & Hba1).
  destruct (IH mr1 mm1) as (k2 & mr2 & mm2 & Hk2 & Hr2 & Hout2 & Hba2); [by apply Forall_forall|done|..].
  { intros b c Hb. apply Hres. by right. } { intros b Hb. apply Hcov. by right. } { intros b c Hb. apply Hmem. by right. }
  { intros b c x Hb Hc' Hx. destruct (Hout1 x) as (-> & _); [|apply (Hfree b c); [by right|done|done]].
    intros a' Ha' Hx'. destruct (target_plain env a a' Ha Ha') as (_ & T1 & T2 & _). eapply (Hdis b c x Hb Hc' Hx). unfold within, a_end in *. by rewrite T1, T2 in Hx'. }
  exists (k1 + k2)%nat, mr2, mm2. split_and!; [rewrite length_app; lia|by eapply reads_trans| |].
  - intros x Hx. destruct (Hout1 x) as (S1 & S2 & S3 & S4); [intros b; apply (Hx a b); left|].
    destruct (Hout2 x) as (T1 & T2 & T3 & T4); [intros b c Hb; apply Hx; by right|]. unfold same_at. by rewrite T1, T2, T3, T4.
  - intros b [->|Hb]%elem_of_cons; [|by apply Hba2]. intros c Hc'. destruct (Hba1 c Hc') as [B1 B2].
    destruct (target_plain env a c Ha Hc') as (Hc2 & T1 & T2 & _). pose proof (Hmem a c (list_elem_of_here _ _) Hc') as [M1 M2 M3].
    assert (Hsl : saved_len env (areaStat env a) c <= a_size a) by (unfold saved_len; destruct (by_runs env c); [lia|]; rewrite <- T2; by apply M3).
    assert (Hkeep : forall x, within a x -> same_at mr1 mr2 x).
    { intros x Hx. apply Hout2. intros b d Hb Hd Hx'. by apply (Hdis b d x Hb Hd Hx'). }
    split.
    + intros x Hx. destruct (Hkeep x) as (-> & _ & -> & ->); [unfold within, a_end in *; by rewrite T1, T2 in Hx|]. by apply B1.
    + intros x Hx. destruct (Hkeep x) as (K1 & K2 & K3 & K4); [unfold within, a_end; lia|]. unfold back_at. rewrite K1, K2, K3, K4. by apply B2.
Qed.

(** ** The properties *)

(** What the image is made from: the areas of /proc/self/maps as they are listed, and the memory behind those that are saved. *)
Record process_ok (env : Env) (areas : list Area) (m : Memory) : Prop := {
  po_skip : e_skip env = None;
  po_kernel : kernel_ok m;
  po_guards : guardPagesSupported (e_pagemap env) = true \/ forall x, m_guard m x = false;
  po_plain : Forall area_plain areas;
  po_sorted : StronglySorted before_area areas;
  po_memory : forall a b, a ∈ areas -> target env a = Some b -> area_mem env m a b }.

Definition unmap_ready (env : Env) (areas : list Area) (mr : Memory) : Prop :=
  forall a b x, a ∈ areas -> target env a = Some b -> within b x -> m_mapped mr x = false.

(** The nscd areas are replaced when everything is written. *)
Definition is_nscd (areas : list Area) (x : Z) : Prop := exists a, a ∈ areas /\ isNscdArea a = true /\ within a x.

Lemma remap_ok areas i m g : exists m', remap_nscd_areas areas (mk_Writer i m g) = Ok tt (mk_Writer i m' g) /\
  forall x, (forall a, a ∈ areas -> ~ within a x) -> m_back m' x = m_back m x /\ same_at m m' x.
Proof.
  unfold remap_nscd_areas. revert m. induction areas as [|a areas IH]; intros m; [exists m; done|]. cbn [forM]. unfold mbind, M_bind, modify.
  destruct (IH (mmap_zero (a_addr a) (a_addr a + a_size a) (a_prot a) m)) as (m' & E & H). exists m'. split; [exact E|].
  intros x Hx. destruct (H x) as (Hb & S1 & S2 & S3 & S4); [intros b Hb; apply Hx; by right|].
  assert (Hr : in_range (a_addr a) (a_addr a + a_size a) x = false) by (apply not_true_iff_false; rewrite in_range_spec; apply (Hx a); left).
  unfold mmap_zero in *. cbn [m_back m_mapped m_data m_guard m_prot] in *. rewrite Hr in *. cbn [orb] in S1. done.
Qed.

Lemma write_image_ok env areas last_area m g0 : process_ok env areas m -> exists css m1 m2 g,
  mtcp_writememoryareas env areas last_area (mk_Writer [] m g0) = Ok tt (mk_Writer (concat css ++ [Header (end_marker last_area)]) m2 g) /\
  Forall2 (area_cells env m g) areas css /\ cov_ok g /\ (forall a, a ∈ areas -> forall x, within a x -> cov g x = m_guard m x) /\
  given_back_in (fun x => exists a, a ∈ areas /\ given_up env a x) m m1 /\
  (forall x, ~ is_nscd areas x -> m_back m2 x = m_back m1 x /\ same_at m1 m2 x).
Proof.
  intros [Hsk Hm Hsup Hpl Hso Hmem]. unfold mtcp_writememoryareas.
  destruct (recordGuardPages_ok env areas [] m g0 Hsk Hm Hsup Hpl Hso) as (g & E1 & Hg & Hcov).
  destruct (write_all_ok env g areas [] m Hsk Hm Hg Hpl Hso) as (css & m1 & E2 & Hcss & Hgb & Hm1); [intros a Ha x Hx; by eapply Hcov|done|].
  destruct (remap_ok (filter (fun a => isNscdArea a = true) areas) ([] ++ concat css) m1 g) as (m2 & E3 & H3).
  exists css, m1, m2, g. split_and!; [|done|done|intros a Ha x Hx; by eapply Hcov|done|].
  - unfold mbind, M_bind. rewrite E1, E2, E3. done.
  - intros x Hx. apply H3. intros a [Hn Ha]%list_elem_of_filter Hw. apply Hx. exists a. done.
Qed.

Lemma read_image_ok env renv g areas css last_area m mr : Forall2 (area_cells env m g) areas css -> process_ok env areas m ->
  all_restorable env renv areas -> (forall a, a ∈ areas -> forall x, within a x -> cov g x = m_guard m x) -> unmap_ready env areas mr ->
  exists mr' mm', mtcp_readmemoryareas renv (mk_Reader (concat css ++ [Header (end_marker last_area)]) mr []) = Ok tt (mk_Reader [] mr' mm') /\
    (forall x, (forall a b, a ∈ areas -> target env a = Some b -> ~ within b x) -> same_at mr mr' x) /\ (forall a, a ∈ areas -> area_back env m a mr').
Proof.
  intros Hcss [Hsk Hm Hsup Hpl Hso Hmem] Hres Hcov Hun.
  destruct (read_all_ok env renv g areas css [Header (end_marker last_area)] m mr [] Hcss Hpl Hso Hres Hcov Hmem Hun) as (k & mr' & mm' & Hk & Hr & Hout & Hba).
  exists mr', mm'. split_and!; [|done|done]. unfold mtcp_readmemoryareas, mbind at 1, M_bind at 1, gets. cbn [r_image].
  rewrite length_app. cbn [length]. replace (S (length (concat css) + 1)) with (k + S (S (length (concat css) - k)))%nat by lia. rewrite Hr.
  cbn [readmemoryareas_loop]. unfold mbind at 1, M_bind at 1. rewrite read_header_ok. done.
Qed.

(** C8: round trip of a process that can be saved.  [process_ok]: no plugin takes parts out of the image, the kernel tells about guard pages
    or there are none, and every byte that the writer copies is there, which is not so of a writable mapping that goes past the end of its file
    ([writable_mapping_past_eof_fails]).  [all_restorable]: the mapped files are still long enough at the restart.  [unmap_ready]: the restart program
    has nothing mapped at the saved areas.  Then the image is written and read to its end, and the memory is rebuilt: every saved area is mapped again with its
    protection; of the bytes that the image holds of it ([saved_len]: the whole area, or of a mapped file the part that the file has), every one that
    could be read at the checkpoint is read again with the same value; guard pages are guard pages again once they are reinstalled; nothing else is touched. *)
Theorem image_restores_memory env renv areas last_area m g0 mr : process_ok env areas m -> all_restorable env renv areas -> unmap_ready env areas mr ->
  exists w r, mtcp_writememoryareas env areas last_area (mk_Writer [] m g0) = Ok tt w /\
    mtcp_readmemoryareas renv (mk_Reader (w_image w) mr []) = Ok tt r /\ r_image r = [] /\
    let final := fst (reinstall (fun _ _ => true) (w_guards w) (r_mem r)) in
    (forall a b x, a ∈ areas -> target env a = Some b -> within b x ->
       m_mapped final x = true /\ m_prot final x = a_prot a /\ m_guard final x = m_guard m x) /\
    (forall a b x v, a ∈ areas -> target env a = Some b -> a_addr b <= x < a_addr b + saved_len env (areaStat env a) b ->
       read_byte m x = Some v -> read_byte final x = Some v) /\
    (forall x, (forall a b, a ∈ areas -> target env a = Some b -> ~ within b x) -> same_at mr (r_mem r) x).
Proof.
  intros Hpo Hres Hun. destruct (write_image_ok env areas last_area m g0 Hpo) as (css & m1 & m2 & g & E & Hcss & Hg & Hcov & _ & _).
  destruct (read_image_ok env renv g areas css last_area m mr Hcss Hpo Hres Hcov Hun) as (mr' & mm' & Er & Hout & Hba).
  eexists _, _. split; [exact E|]. split; [exact Er|]. split; [done|]. cbn [w_guards r_mem].
  assert (Hre : exists final, fst (reinstall (fun _ _ => true) g mr') = final /\ (forall x, m_guard final x = cov g x || m_guard mr' x) /\
    forall x, m_prot final x = m_prot mr' x /\ m_mapped final x = m_mapped mr' x /\ (cov g x = false -> m_data final x = m_data mr' x)).
  { destruct g as [l|]; [|exists mr'; done]. cbn [cov]. destruct (reinstall_ok l mr') as (f & Ef & H1 & H2). exists f. rewrite Ef. split_and!; [done|done|].
    clear -Ef H2. intros x. assert (H : m_prot f x = m_prot mr' x /\ m_mapped f x = m_mapped mr' x).
    { clear H2. cbn [reinstall] in Ef. revert Ef. generalize O at 2 as n'. generalize O as n. revert mr'.
      induction l as [|[s e] l IH]; intros mr' n n' Ef; [by injection Ef as -> _|]. cbn [foldl reinstall_one] in Ef. by apply IH in Ef. }
    destruct H. split_and!; [done|done|]. intros Hc. by apply H2. }
  destruct Hre as (final & -> & Hfg & Hf). split_and!; [| |exact Hout].
  - intros a b x Ha Ht Hx. destruct (Hba a Ha b Ht) as [B _]. destruct (B x Hx) as (B1 & B2 & B3), (Hf x) as (F1 & F2 & _).
    rewrite Hfg, F1, F2, B1, B2, B3, orb_false_r. split_and!; try done. apply (Hcov a Ha).
    destruct (target_plain env a b) as (_ & T1 & T2 & _); [by eapply Forall_forall; [apply Hpo|]|done|]. unfold within, a_end in *. by rewrite T1, T2 in Hx.
  - intros a b x v Ha Ht Hx Hv. destruct (Hba a Ha b Ht) as [_ B].
    destruct (target_plain env a b) as (Hb & T1 & T2 & T3); [by eapply Forall_forall; [apply Hpo|]|done|].
    assert (Hw : within a x).
    { pose proof (po_memory env areas m Hpo a b Ha Ht) as [_ _ M3]. unfold within, a_end. unfold saved_len in Hx. rewrite <- T1, <- T2.
      destruct (by_runs env b); [lia|]. destruct (M3 eq_refl) as (_ & M & _). lia. }
    rewrite T1 in Hx. destruct (B x Hx) as (B1 & B2 & B3 & B4), (Hf x) as (F1 & F2 & F3). unfold read_byte in *.
    destruct (m_mapped m x && negb (m_guard m x) && Z.testbit (m_prot m x) READABLE) eqn:Ec; [|done].
    apply andb_true_iff in Ec as [[_ Eg]%andb_true_iff Ep]. apply negb_true_iff in Eg. pose proof (Hcov a Ha x Hw) as Hc. rewrite Eg in Hc.
    rewrite F2, Hfg, F1, B1, B2, B3, Hc. assert (Z.testbit (a_prot a) READABLE = true) as ->.
    { rewrite <- T3, <- (me_prot env m a b (po_memory env areas m Hpo a b Ha Ht) x); [done|]. unfold within, a_end in *. by rewrite T1, T2. }
    cbn. rewrite (F3 Hc). by apply B4.
Qed.

(** C29: the process goes on after a checkpoint with the memory it had, the nscd areas apart: only pages of zeros of areas written run by
    run (anonymous memory, and mappings whose file is gone) are given back to the kernel, and that changes no byte that can be read, as long as
    zeros are what the kernel has behind the zeros of these areas. Nothing is asked of the memory that is written as a file. *)
Theorem checkpoint_keeps_memory env areas last_area m g0 : process_ok env areas m ->
  (forall a x, a ∈ areas -> given_up env a x -> m_data m x = Some 0 -> m_back m x = Some 0) ->
  exists w, mtcp_writememoryareas env areas last_area (mk_Writer [] m g0) = Ok tt w /\
    forall x, ~ is_nscd areas x -> read_byte (w_mem w) x = read_byte m x.
Proof.
  intros Hpo Hback. destruct (write_image_ok env areas last_area m g0 Hpo) as (css & m1 & m2 & g & E & _ & _ & _ & (A & B & C) & H2).
  eexists. split; [exact E|]. cbn [w_mem]. intros x Hx. destruct (H2 x Hx) as (_ & S1 & S2 & S3 & S4), (A x) as (A1 & A2 & A3 & A4).
  unfold read_byte. rewrite S1, S2, S3, S4, A1, A3, A4. destruct (_ && _); [|done].
  destruct (C x) as [->|[Hz Hb]]; [done|]. destruct (decide (m_back m x = Some 0)) as [Ez|Hne]; [congruence|].
  assert (Hn : ~ exists a, a ∈ areas /\ given_up env a x) by (intros (a & Ha & Hu); exact (Hne (Hback a x Ha Hu Hz))).
  by destruct (B x Hn) as [-> _].
Qed.

(** The memory of the name service cache daemon is not rebuilt: its header has no parent, so nothing is mapped where
    it was, and the process that is restarted has a hole there. *)
Theorem nscd_area_not_restored env renv areas last_area m g0 mr a h : process_ok env areas m -> all_restorable env renv areas -> unmap_ready env areas mr ->
  a ∈ areas -> not_saved env a = false -> reclassify env a = HeaderOnly h -> (forall x, within a x -> m_mapped mr x = false) ->
  exists w r, mtcp_writememoryareas env areas last_area (mk_Writer [] m g0) = Ok tt w /\ mtcp_readmemoryareas renv (mk_Reader (w_image w) mr []) = Ok tt r /\
    forall x, within a x -> m_mapped (r_mem r) x = false.
Proof.
  intros Hpo Hres Hun Ha Hns Hh Hfree. destruct (write_image_ok env areas last_area m g0 Hpo) as (css & m1 & m2 & g & E & Hcss & Hg & Hcov & _ & _).
  destruct (read_image_ok env renv g areas css last_area m mr Hcss Hpo Hres Hcov Hun) as (mr' & mm' & Er & Hout & _).
  eexists _, _. split; [exact E|]. split; [exact Er|]. intros x Hx. cbn [r_mem]. destruct (Hout x) as (-> & _); [|by apply Hfree].
  intros b c Hb Hc Hx'. destruct (target_plain env b c) as (_ & T1 & T2 & _); [by eapply Forall_forall; [apply Hpo|]|done|].
  assert (Hne : a <> b) by (intros ->; unfold target in Hc; by rewrite Hns, Hh in Hc).
  assert (Hxb : within b x) by (unfold within, a_end in *; by rewrite T1, T2 in Hx').
  pose proof (po_sorted env areas m Hpo) as Hso. clear -Hso Ha Hb Hne Hx Hxb. induction Hso as [|y l _ IH Hy]; [by apply elem_of_nil in Ha|].
  rewrite Forall_forall in Hy. unfold before_area, within in *.
  apply elem_of_cons in Ha as [->|Ha]; apply elem_of_cons in Hb as [->|Hb]; [done|..|by apply IH].
  - specialize (Hy b Hb). lia.
  - specialize (Hy a Ha). lia.
Qed.

(** ** A small process *)

(** Three areas: three pages of anonymous memory (one page of data, one never touched, one guard page), the cache of nscd, and a
    file of 4196 bytes mapped read-only on two pages. *)
Definition ex_anon : Area := mk_Area 65536 77824 12288 0 (Z.lor PROT_READ PROT_WRITE) (Z.lor MAP_PRIVATE MAP_ANONYMOUS) 0 0 0 (-1) 0 "".
Definition ex_nscd : Area := mk_Area 131072 135168 4096 0 PROT_READ MAP_SHARED 8 1 77 (-1) 0 "/var/run/nscd/passwd".
Definition ex_file : Area := mk_Area 196608 204800 8192 0 PROT_READ MAP_PRIVATE 8 1 78 (-1) 0 "/lib/libx.so".
Definition ex_areas : list Area := [ex_anon; ex_nscd; ex_file].
Definition ex_env : Env :=
  mk_Env 4096 8192 12288 0 false true (fun s => if String.eqb s "/lib/libx.so" then Some (true, 4196) else None) (String.eqb "/lib/libx.so")
    (mk_Pagemap true true true (fun _ n => n)) None.
Definition ex_contents (x : Z) : option Z :=
  if in_range 65536 69632 x then Some (x mod 251) else if in_range 196608 200804 x then Some (x mod 7) else if in_range 204800 (2 ^ 47) x then None else Some 0.
Definition ex_back (x : Z) : option Z := if in_range 65536 69632 x then Some 0 else if in_range 196608 204800 x then Some 5 else ex_contents x.
Definition ex_mem : Memory :=
  mk_Memory (fun x => in_range 65536 77824 x || in_range 131072 135168 x || in_range 196608 204800 x) ex_contents ex_back
    (fun x => in_range 65536 69632 x || in_range 196608 204800 x) (fun _ => false) (in_range 73728 77824)
    (fun x => if in_range 65536 77824 x then Z.lor PROT_READ PROT_WRITE else PROT_READ).
Definition ex_renv : REnv :=
  mk_REnv (fun s => if String.eqb s "/lib/libx.so" then Some (mk_File 4196 (fun o => o mod 7)) else None) (2 ^ 47) ex_anon.
Definition ex_empty : Memory := mk_Memory (fun _ => false) (fun _ => None) (fun _ => None) (fun _ => false) (fun _ => false) (fun _ => false) (fun _ => 0).

Lemma in_range_page s e x : aligned s -> aligned e -> in_range s e x = in_range s e (page_of x).
Proof.
  intros Hs He. apply eq_true_iff_eq. rewrite !in_range_spec. split; intros H; [by apply (page_within x s e)|].
  pose proof (page_of_bounds x). destruct (Z_lt_le_dec x e) as [|Hge]; [lia|]. destruct (page_within e (page_of x) (page_of x + PAGE)) as [[? ?] ?];
  [apply page_of_aligned|apply aligned_add; [apply page_of_aligned|done]|lia|]. rewrite (page_aligned e He) in *. pose proof (aligned_lt (page_of x) e (page_of_aligned x) He). lia.
Qed.

Lemma ex_kernel : kernel_ok ex_mem.
Proof.
  split.
  - intros x. cbn. f_equal; apply in_range_page; done.
  - intros x. apply in_range_page; done.
  - intros x. cbn. unfold ex_back. by intros [-> ->]%orb_false_iff.
  - intros x b. cbn. unfold ex_contents. repeat case_match; intros [= <-]; pose proof (Z.mod_pos_bound x 251); pose proof (Z.mod_pos_bound x 7); lia.
  - intros x b. cbn. unfold ex_back, ex_contents. repeat case_match; intros [= <-]; pose proof (Z.mod_pos_bound x 251); pose proof (Z.mod_pos_bound x 7); lia.
Qed.

Lemma ex_targets a b : a ∈ ex_areas -> target ex_env a = Some b -> a = ex_anon /\ b = ex_anon \/ a = ex_file /\ b = ex_file.
Proof.
  unfold ex_areas. rewrite !elem_of_cons, elem_of_nil. intros [->|[->|[->|[]]]] E; vm_compute in E; [left|done|right]; by injection E as <-.
Qed.

Lemma ex_process : process_ok ex_env ex_areas ex_mem.
Proof.
  split; [done|apply ex_kernel|by left| | |].
  - unfold ex_areas. repeat constructor; cbn; try done; try (by left); by right.
  - unfold ex_areas. repeat constructor; cbn; unfold before_area, a_end; cbn; lia.
  - intros a b Ha Hb. destruct (ex_targets a b Ha Hb) as [[-> ->]|[-> ->]].
    + split; [| |done]; unfold a_end; cbn; intros *.
      * intros Hx. by rewrite (proj2 (in_range_spec _ _ x)) by lia.
      * intros _ x Hx _. split; [cbn; by rewrite (proj2 (in_range_spec _ _ x)) by lia|]. left. cbn. unfold ex_contents.
        destruct (in_range 65536 69632 x); [done|]. rewrite !(not_true_is_false (in_range _ _ x)); [done|rewrite in_range_spec; lia..].
    + split; [|done|]; unfold a_end; cbn.
      * intros x Hx. rewrite (not_true_is_false (in_range _ _ x)); [done|rewrite in_range_spec; lia].
      * intros _. split; [done|]. split; [done|]. intros x Hx _. change (data_len _) with 4196 in Hx. split.
        -- rewrite (proj2 (in_range_spec 196608 204800 x)) by lia. by rewrite orb_true_r.
        -- unfold ex_contents. rewrite (proj2 (in_range_spec 196608 200804 x)) by lia. by destruct (in_range _ _ _).
Qed.

Lemma ex_restorable : all_restorable ex_env ex_renv ex_areas.
Proof.
  intros a b Ha Hb. destruct (ex_targets a b Ha Hb) as [[-> ->]|[-> ->]]; [done|]. unfold restorable.
  replace (by_runs ex_env ex_file) with false by done. split; [done|]. intros x. change (data_len _) with 4196. cbn -[file_contents page_of]. intros Hx.
  change (is_Some (file_contents (mk_File 4196 (fun o => o mod 7)) 196608 0 x)). unfold file_contents. cbn [f_size f_byte].
  rewrite (proj2 (Z.ltb_lt _ _)) by lia. by eexists.
Qed.

(** The page of data comes back, the page of zeros and the guard page as well. *)
Lemma image_restores_memory_witness : exists w r,
  mtcp_writememoryareas ex_env ex_areas ex_file (mk_Writer [] ex_mem None) = Ok tt w /\
  mtcp_readmemoryareas ex_renv (mk_Reader (w_image w) ex_empty []) = Ok tt r /\
  let final := fst (reinstall (fun _ _ => true) (w_guards w) (r_mem r)) in
  read_byte final 65600 = Some 89 /\ read_byte final 196610 = Some 1 /\ m_guard final 73728 = true.
Proof.
  destruct (image_restores_memory ex_env ex_renv ex_areas ex_file ex_mem None ex_empty) as (w & r & E1 & E2 & _ & H1 & H2 & _);
    [exact ex_process|exact ex_restorable|done|].
  exists w, r. split; [exact E1|]. split; [exact E2|]. split; [|split].
  - apply (H2 ex_anon ex_anon 65600 89); [by left|done| |done]. change (saved_len _ _ _) with 12288. cbn. lia.
  - apply (H2 ex_file ex_file 196610 1); [by right; right; left|done| |done]. change (saved_len _ _ _) with 4196. cbn. lia.
  - destruct (H1 ex_anon ex_anon 73728) as (_ & _ & ->); [by left|done| |done]. unfold within, a_end. cbn. lia.
Defined.

(** The page of the file that holds zeros of the process keeps them, although the file has other bytes there. *)
Lemma checkpoint_keeps_memory_witness : exists w,
  mtcp_writememoryareas ex_env ex_areas ex_file (mk_Writer [] ex_mem None) = Ok tt w /\
  read_byte (w_mem w) 65600 = Some 89 /\ m_data ex_mem 196609 = Some 0 /\ m_back ex_mem 196609 = Some 5 /\ read_byte (w_mem w) 196609 = Some 0.
Proof.
  destruct (checkpoint_keeps_memory ex_env ex_areas ex_file ex_mem None) as (w & E & H); [exact ex_process| |].
  - intros a x Ha (b & Hb & Hr & Hx). destruct (ex_targets a b Ha Hb) as [[-> ->]|[-> ->]]; [|done]. cbn. unfold ex_back, within, a_end in *. cbn in Hx.
    intros Hz. destruct (in_range 65536 69632 x); [done|]. by rewrite (not_true_is_false (in_range _ _ x)) by (rewrite in_range_spec; lia).
  - assert (Hn : forall x, ~ 131072 <= x < 135168 -> ~ is_nscd ex_areas x).
    { intros x Hx (a & Ha & Hn & Hw). unfold ex_areas in Ha. rewrite !elem_of_cons, elem_of_nil in Ha.
      destruct Ha as [->|[->|[->|[]]]]; [discriminate Hn|exact (Hx Hw)|discriminate Hn]. }
    exists w. split; [exact E|]. rewrite (H 65600), (H 196609) by (apply Hn; lia). clear. repeat split; reflexivity.
Defined.

Lemma nscd_area_not_restored_witness : exists w r,
  mtcp_writememoryareas ex_env ex_areas ex_file (mk_Writer [] ex_mem None) = Ok tt w /\
  mtcp_readmemoryareas ex_renv (mk_Reader (w_image w) ex_empty []) = Ok tt r /\ m_mapped (r_mem r) 131072 = false.
Proof.
  destruct (nscd_area_not_restored ex_env ex_renv ex_areas ex_file ex_mem None ex_empty ex_nscd
    (ex_nscd <| a_prot := 3 |> <| a_properties := 1 |> <| a_flags := 34 |>)) as (w & r & E1 & E2 & H);
    [exact ex_process|exact ex_restorable|done|by right; left|done|done|done|].
  exists w, r. split; [exact E1|]. split; [exact E2|]. apply H. unfold within, a_end. cbn. lia.
Defined.

(** ** Two areas that are not kept *)

(** A megabyte of zeros is one run. *)
Lemma zero_megabyte_run m addr : kernel_ok m -> zero m addr one_MB -> mtcp_get_next_page_range m addr one_MB = Some (one_MB, true).
Proof.
  intros Hm Hz. unfold mtcp_get_next_page_range. destruct (areZeroPages_ok m Hm addr (Z.to_nat (one_MB / PAGE))) as (b & Eb & Hb);
    [intros x Hx; by eexists; apply Hz|]. change (Z.of_nat (Z.to_nat (one_MB / PAGE)) * PAGE) with one_MB in Hb.
  rewrite Eb, (proj2 Hb Hz), Z.ltb_irrefl. cbn -[page_range_loop one_MB].
  change (Z.to_nat (one_MB / one_MB) + 1)%nat with 2%nat. cbn [page_range_loop]. by rewrite Z.ltb_irrefl.
Qed.

Lemma zero_megabyte_loop env n a i m : kernel_ok m -> a_size a = one_MB -> e_infiniband env = false -> e_madvise env = true -> zero m (a_addr a) one_MB ->
  anonymous_loop env false (S (S n)) a None (mk_Writer i m None)
  = Ok tt (mk_Writer (i ++ [Header (child a one_MB true)]) (dontneed (a_addr a) (a_addr a + one_MB) m) None).
Proof.
  intros Hm Hsz Hib Hmad Hz. remember (S n) as k eqn:Ek. cbn [anonymous_loop]. rewrite Hsz. change (0 <? one_MB) with true. cbv iota zeta.
  unfold mbind, M_bind, gets, assertM. cbn [w_guards w_mem]. rewrite (proj2 (Z.ltb_lt _ _)) by (unfold one_MB; lia). cbv iota.
  unfold mret, M_ret. cbn [w_mem]. unfold next_run. rewrite Hib.
  replace (a_addr a + one_MB - a_addr a) with one_MB by lia. rewrite (zero_megabyte_run m _ Hm Hz). cbn [optM].
  unfold mret, M_ret. cbn [fst snd]. rewrite writeAreaHeader_ok by done. rewrite Hmad. cbn [whenM modify].
  subst k. cbn [anonymous_loop]. rewrite (proj2 (Z.ltb_ge 0 _)); [done|]. change (a_size (past a one_MB)) with (a_size a - one_MB). lia.
Qed.

(** C37: a private mapping of a file that does not exist any more is written like anonymous memory: where the process wrote zeros over a
    megabyte of it, the pages are taken for empty and given back, and the process that goes on reads the bytes of the
    file again. *)
Theorem zero_run_lost_on_resume env a m : kernel_ok m -> area_plain a -> a_size a = one_MB -> target env a = Some a -> by_runs env a = true ->
  residencyScanSafe env a = false -> e_infiniband env = false -> e_madvise env = true -> has (a_prot a) PROT_READ = true ->
  zero m (a_addr a) one_MB ->
  exists w, writememoryarea env a (mk_Writer [] m None) = Ok tt w /\ forall x, within a x -> read_byte (w_mem w) x = m_back m x.
Proof.
  intros Hm [[F1 F2 F3 F4] P1 P2 P3 P4] Hsz Ht Hby Hre Hib Hmad Hpr Hz.
  exists (mk_Writer ([Header (parent a)] ++ [Header (child (unparent (parent a)) one_MB true)]) (dontneed (a_addr a) (a_addr a + one_MB) m) None).
  split.
  - unfold target in Ht. unfold writememoryarea. destruct (not_saved env a); [done|]. destruct (reclassify env a) as [b|b|]; [|done..].
    injection Ht as Ht. rewrite Ht. unfold write_saved. rewrite Hpr, Hre. cbn [negb whenM].
    replace (if has (a_flags a) MAP_ANONYMOUS then _ else _) with (mtcp_write_anonymous_pages env a false).
    2:{ unfold by_runs in Hby. destruct (has (a_flags a) MAP_ANONYMOUS); [done|]. cbn [orb] in Hby. by rewrite Hby. }
    unfold mtcp_write_anonymous_pages, mbind, M_bind, gets, mret, M_ret. rewrite writeAreaHeader_ok by (symmetry; exact F4).
    cbn [w_guards nextRangeAfter mbind option_bind app]. fold (parent a). fold (unparent (parent a)).
    change (a_size (unparent (parent a))) with (a_size a). rewrite Hsz. destruct (Z.to_nat one_MB) as [|n] eqn:En; [unfold one_MB in En; lia|].
    by rewrite zero_megabyte_loop.
  - intros x Hx. unfold within, a_end in Hx. rewrite Hsz in Hx. pose proof (Hz x Hx) as Hr. unfold read_byte in *. cbn [w_mem dontneed m_mapped m_guard m_prot m_data].
    destruct (_ && _); [|done]. by rewrite (proj2 (in_range_spec _ _ x) Hx).
Qed.

(** A writable mapping that extends past the last page of its file is written in full, "without st_size considerations": the write
    hits the page that is not there, and the ASSERT ends the process in the middle of the checkpoint. *)
Theorem writable_mapping_past_eof_fails env a i m x : target env a = Some a -> by_runs env a = false -> a_name a <> "" -> area_fits a ->
  has (a_prot a) PROT_READ = true -> has (a_prot a) PROT_WRITE = true -> is_Some (areaStat env a) -> within a x -> m_data m x = None ->
  exists w, writememoryarea env a (mk_Writer i m None) = Fault (AssertFailed "failed to write checkpoint data") w.
Proof.
  intros Ht Hby Hn [F1 F2 F3 F4] Hpr Hpw [[reg sz] Hst] Hx Hd. unfold target in Ht. unfold writememoryarea. destruct (not_saved env a); [done|].
  destruct (reclassify env a) as [b|b|]; [|done..]. injection Ht as Ht. rewrite Ht. unfold write_saved. rewrite Hpr. cbn [negb whenM].
  unfold by_runs in Hby. apply orb_false_iff in Hby as [-> ->]. unfold write_file. rewrite Hst. unfold with_mmapFileSize. rewrite Hpw. cbn [orb].
  assert (unnamed a = false) as -> by (unfold unnamed; by apply String.eqb_neq).
  unfold mbind, M_bind, assertM. cbn [negb]. unfold mret, M_ret. rewrite writeAreaHeader_ok by (symmetry; exact F4).
  change (a_mmapFileSize (_ <| a_mmapFileSize := _ |>)) with (a_size a). change (a_addr (_ <| a_mmapFileSize := _ |>)) with (a_addr a).
  rewrite (proj2 (Z.ltb_lt 0 (a_size a)) F3). unfold writeCkptSkippingGuards. cbn [skipping_loop]. unfold mbind, M_bind, gets.
  cbn [w_guards]. replace (match _ with Some _ => _ | None => _ end) with (writeCkptAll (a_addr a) (a_addr a + a_size a - a_addr a)) by (by destruct (_ <? _)).
  unfold writeCkptAll, mbind, M_bind, gets. cbn [w_mem]. destruct (read_bytes m (a_addr a) _) as [bs|] eqn:E; [exfalso|by eexists].
  apply read_bytes_lookup in E as [Hl Hb]. unfold within, a_end in Hx.
  assert (is_Some (bs !! Z.to_nat (x - a_addr a))) as [v Hv] by (apply lookup_lt_is_Some; lia). apply Hb in Hv.
  replace (a_addr a + Z.of_nat (Z.to_nat (x - a_addr a))) with x in Hv by lia. unfold read_byte in Hv. rewrite Hd in Hv. by destruct (_ && _).
Qed.

(** A deleted file of sevens, mapped and overwritten with zeros. *)
Definition ex_deleted : Area := mk_Area 1048576 2097152 one_MB 0 (Z.lor PROT_READ PROT_WRITE) MAP_PRIVATE 8 1 79 (-1) 0 "/tmp/data (deleted)".
Definition ex_zeroed : Memory :=
  mk_Memory (in_range 1048576 2097152) (fun _ => Some 0) (fun _ => Some 7) (fun _ => true) (fun _ => false) (fun _ => false) (fun _ => Z.lor PROT_READ PROT_WRITE).

Lemma zero_run_lost_on_resume_witness : read_byte ex_zeroed 1048576 = Some 0 /\
  exists w, writememoryarea ex_env ex_deleted (mk_Writer [] ex_zeroed None) = Ok tt w /\ read_byte (w_mem w) 1048576 = Some 7.
Proof.
  split; [vm_compute; reflexivity|].
  destruct (zero_run_lost_on_resume ex_env ex_deleted ex_zeroed) as (w & E & H); [| |vm_compute; reflexivity..| |].
  - split; cbn; try done; intros a b [= <-]; lia.
  - split; [split; vm_compute; reflexivity|reflexivity..|by left].
  - intros x Hx. change (a_addr ex_deleted) with 1048576 in Hx. unfold read_byte. cbn [ex_zeroed m_mapped m_guard m_prot m_data].
    by rewrite (proj2 (in_range_spec 1048576 2097152 x)) by (change one_MB with 1048576 in Hx; lia).
  - exists w. split; [exact E|]. rewrite H; [reflexivity|]. change (1048576 <= 1048576 < 1048576 + 1048576). lia.
Defined.

(** A file of 4196 bytes, mapped for writing on three pages. *)
Definition ex_rw_file : Area := mk_Area 196608 208896 12288 0 (Z.lor PROT_READ PROT_WRITE) MAP_PRIVATE 8 1 78 (-1) 0 "/lib/libx.so".

Lemma writable_mapping_past_eof_fails_witness :
  exists w, writememoryarea ex_env ex_rw_file (mk_Writer [] ex_mem None) = Fault (AssertFailed "failed to write checkpoint data") w.
Proof.
  apply (writable_mapping_past_eof_fails ex_env ex_rw_file [] ex_mem 204800); try reflexivity; [done| |by eexists|].
  - split; reflexivity.
  - change (196608 <= 204800 < 196608 + 12288). lia.
Defined.
