(* ===== verification/SysVObjs.v ===== *)
(** * System V semaphores and message queues: the kernel's objects and the phases of a checkpoint

    Every process that knows a semaphore set or a message queue has an object for it
    (src/plugin/svipc/sysvipc.h).  At a checkpoint one of the processes is elected to save
    the contents, at a restart it creates the set or queue again and fills it.  The objects
    work on the real identifiers, that is on the kernel, which is modelled here as far as
    the code uses it (semget(2), semop(2), semctl(2), msgget(2), msgop(2), msgctl(2)).

    A phase runs one method in every process, in any order; between two phases there is a
    barrier ([sysvipc_event_hook]).  Processes are named by their virtual pid; [real] is the
    real pid of each, which a restart changes. *)

From Stdlib Require Import ZArith Lia Ascii.
From stdpp Require Import base gmap strings numbers list.
From S2P Require Import Prelude.
Open Scope Z_scope.

(** ** The kernel *)

Definition IPC_PRIVATE : Z := 0.
Definition IPC_CREAT : Z := 512.
Definition SEM_UNDO : Z := 4096.
Definition SEMVMX : Z := 32767.
Definition has_flag (flags f : Z) : bool := negb (Z.land flags f =? 0).
(** The permission bits of the flags ([ipc_perm.mode]). *)
Definition mode_of (flags : Z) : Z := Z.land flags 511.

(** A semaphore set: key and mode, the values, who last operated on each, and the adjustments of
    the processes. *)
Record KSem : Type := mk_KSem { ks_key : Z; ks_mode : Z; ks_vals : list Z; ks_pids : list Z; ks_adj : gmap (Z * nat) Z }.
#[export] Instance eta_KSem : Settable KSem :=
  {| eta_of s := mk_KSem (ks_key s) (ks_mode s) (ks_vals s) (ks_pids s) (ks_adj s) |}.

(** A message and a queue of them: [msg_lspid] is the last process that sent, [msg_qbytes] the capacity. *)
Record Msg : Type := mk_Msg { m_type : Z; m_text : string }.
Record KMsq : Type := mk_KMsq { kq_key : Z; kq_mode : Z; kq_msgs : list Msg; kq_lspid : Z; kq_qbytes : Z }.
#[export] Instance eta_KMsq : Settable KMsq :=
  {| eta_of q := mk_KMsq (kq_key q) (kq_mode q) (kq_msgs q) (kq_lspid q) (kq_qbytes q) |}.

(** Objects by identifier; identifiers by key; and the host's map of virtual to real identifiers in the
    shared area ([SharedData::setIPCIdMap], [getRealIPCId], the subject of SharedArea). *)
Record Host : Type := mk_Host {
  k_sems : gmap Z KSem; k_semKeys : gmap Z Z; k_msqs : gmap Z KMsq; k_msqKeys : gmap Z Z; k_nextId : Z; k_msgmnb : Z; h_ipcIds : gmap Z Z }.
#[export] Instance eta_Host : Settable Host :=
  {| eta_of k := mk_Host (k_sems k) (k_semKeys k) (k_msqs k) (k_msqKeys k) (k_nextId k) (k_msgmnb k) (h_ipcIds k) |}.

(** [*get]: the object with the key, a new one, or an error. *)
Definition find_or_create {O} (objs : gmap Z O) (keys : gmap Z Z) (next key flags : Z) (new : O) : option (Z * option (gmap Z O * gmap Z Z)) :=
  match (if key =? IPC_PRIVATE then None else keys !! key) with
  | Some id => Some (id, None)
  | None =>
      if (key =? IPC_PRIVATE) || has_flag flags IPC_CREAT
      then Some (next, Some (<[next := new]> objs, if key =? IPC_PRIVATE then keys else <[key := next]> keys))
      else None
  end.

Definition semget (key : Z) (nsems : nat) (flags : Z) (k : Host) : option (Z * Host) :=
  '(id, new) ← find_or_create (k_sems k) (k_semKeys k) (k_nextId k) key flags (mk_KSem key (mode_of flags) (replicate nsems 0) (replicate nsems 0) ∅);
  Some (id, match new with
            | Some (objs, keys) => k <| k_sems := objs |> <| k_semKeys := keys |> <| k_nextId := k_nextId k + 1 |>
            | None => k
            end).

Definition msgget (key flags : Z) (k : Host) : option (Z * Host) :=
  '(id, new) ← find_or_create (k_msqs k) (k_msqKeys k) (k_nextId k) key flags (mk_KMsq key (mode_of flags) [] 0 (k_msgmnb k));
  Some (id, match new with
            | Some (objs, keys) => k <| k_msqs := objs |> <| k_msqKeys := keys |> <| k_nextId := k_nextId k + 1 |>
            | None => k
            end).

(** [semop] with one operation: [inl true] is an error, [inl false] means that the caller waits. *)
Definition semop (pid id : Z) (num : nat) (op flg : Z) (k : Host) : bool + Host :=
  match k_sems k !! id with
  | None => inl true
  | Some s =>
      match ks_vals s !! num with
      | None => inl true
      | Some v =>
          if SEMVMX <? v + op then inl true
          else if v + op <? 0 then inl false
          else
            let adj := default 0 (ks_adj s !! (pid, num)) in
            inr (k <| k_sems ::= <[id := mk_KSem (ks_key s) (ks_mode s) (<[num := v + op]> (ks_vals s)) (<[num := pid]> (ks_pids s))
                     (if has_flag flg SEM_UNDO then <[(pid, num) := adj - op]> (ks_adj s) else ks_adj s)]> |>)
      end
  end.

(** [semctl] with GETPID of semaphore 0, GETALL and SETALL (which clears the adjustments). *)
Definition sem_getpid (id : Z) (k : Host) : option Z := s ← k_sems k !! id; ks_pids s !! 0%nat.
Definition sem_getall (id : Z) (k : Host) : option (list Z) := ks_vals <$> k_sems k !! id.
Definition sem_setall (pid id : Z) (vals : list Z) (k : Host) : option Host :=
  s ← k_sems k !! id;
  if Nat.eqb (length vals) (length (ks_vals s))
  then Some (k <| k_sems ::= <[id := mk_KSem (ks_key s) (ks_mode s) vals (replicate (length vals) pid) ∅]> |>) else None.

Definition bytes_of (ms : list Msg) : Z := foldr (fun m n => Z.of_nat (String.length (m_text m)) + n) 0 ms.
Definition fits_queue (m : Msg) (q : KMsq) : bool :=
  (Z.of_nat (String.length (m_text m)) + bytes_of (kq_msgs q) <=? kq_qbytes q) && (1 + Z.of_nat (length (kq_msgs q)) <=? kq_qbytes q).

(** [msgsnd] with IPC_NOWAIT. *)
Definition msgsnd (pid id : Z) (m : Msg) (k : Host) : option Host :=
  q ← k_msqs k !! id;
  if fits_queue m q then Some (k <| k_msqs ::= <[id := q <| kq_msgs := kq_msgs q ++ [m] |> <| kq_lspid := pid |>]> |>) else None.

(** [msgrcv] of the first message, into a buffer of [size] bytes: [inl true] is an error, [inl false] means
    that there is no message. *)
Definition msgrcv (id size : Z) (k : Host) : bool + (Msg * Host) :=
  match k_msqs k !! id with
  | None => inl true
  | Some q =>
      match kq_msgs q with
      | [] => inl false
      | m :: ms =>
          if size <? Z.of_nat (String.length (m_text m)) then inl true
          else inr (m, k <| k_msqs ::= <[id := q <| kq_msgs := ms |>]> |>)
      end
  end.

(** ** The objects *)

(** [SysVObj]: the virtual and the real identifier, the key and flags, and whether the process was elected. *)
Record SysVObj : Type := mk_SysVObj { o_id : Z; o_realId : Z; o_key : Z; o_flags : Z; o_isCkptLeader : bool }.
#[export] Instance eta_SysVObj : Settable SysVObj :=
  {| eta_of o := mk_SysVObj (o_id o) (o_realId o) (o_key o) (o_flags o) (o_isCkptLeader o) |}.
(** The methods run in a process, with real pid [pid], on its object and the kernel. *)
Definition sys {O A} (f : Host -> A) : M (O * Host) A := gets (fun s => f (snd s)).
Definition self {O A} (f : O -> A) : M (O * Host) A := gets (fun s => f (fst s)).
Definition set_self {O} (f : O -> O) : M (O * Host) unit := modify (fun s => (f (fst s), snd s)).
(** A system call whose failure is asserted not to happen. *)
Definition call {O A} (what : string) (f : Host -> option (A * Host)) : M (O * Host) A := fun s =>
  match f (snd s) with Some (a, k) => Ok a (fst s, k) | None => faultM (AssertFailed what) s end.
Definition call_ {O} (what : string) (f : Host -> option Host) : M (O * Host) unit :=
  call what (fun k => k' ← f k; Some (tt, k')).
(** [semop] returns when the operation can be done. *)
Definition do_semop {O} (pid id : Z) (num : nat) (op flg : Z) : M (O * Host) bool := fun s =>
  match semop pid id num op flg (snd s) with
  | inr k => Ok true (fst s, k)
  | inl true => Ok false s
  | inl false => faultM (Blocked "semop") s
  end.

(** [SysVIPC::updateMapping], and [virtualToRealId] after the process's own table was cleared. *)
Definition updateMapping {O} (virtId realId : Z) : M (O * Host) unit :=
  modify (fun s => (fst s, (snd s) <| h_ipcIds ::= <[virtId := realId]> |>)).
Definition virtualToRealId {O} (virtId : Z) : M (O * Host) Z := sys (fun k => default (-1) (h_ipcIds k !! virtId)).

(** The flags allow an object to be created where its key is not known. *)
Definition may_create (key flags : Z) : bool := (key =? IPC_PRIVATE) || has_flag flags IPC_CREAT.

Lemma find_or_create_new {O} (objs : gmap Z O) keys next key flags new : keys !! key = None ->
  find_or_create objs keys next key flags new =
  if may_create key flags then Some (next, Some (<[next := new]> objs, if key =? IPC_PRIVATE then keys else <[key := next]> keys))
  else None.
Proof. intros Hk. unfold find_or_create, may_create. rewrite Hk. by destruct (key =? IPC_PRIVATE). Qed.

(** ** Phases: a method in every process, one after the other *)

Section phases.
Context {O : Type}.
(** The objects of the processes that share the set or queue, by virtual pid, and the host. *)
Definition World : Type := gmap Z O * Host.

Definition at_pid (m : Z -> M (O * Host) unit) (vpid : Z) : M World unit := fun w =>
  match fst w !! vpid with
  | None => faultM (Blocked "no such process") w
  | Some o =>
      match m vpid (o, snd w) with
      | Ok _ (o', k) => Ok tt (<[vpid := o']> (fst w), k)
      | Exit c (o', k) => Exit c (<[vpid := o']> (fst w), k)
      | Fault f (o', k) => Fault f (<[vpid := o']> (fst w), k)
      end
  end.

Definition phase (order : list Z) (m : Z -> M (O * Host) unit) : M World unit := forM order (at_pid m).

(** An order in which every process runs once. *)
Definition order_of (os : gmap Z O) (order : list Z) : Prop := order ≡ₚ elements (dom os).

(** What a phase does to the objects when the method does [f] to each. *)
Definition each (f : Z -> O -> O) (os : gmap Z O) : gmap Z O := map_imap (fun p o => Some (f p o)) os.

Lemma each_lookup f os p : each f os !! p = f p <$> os !! p.
Proof. unfold each. rewrite map_lookup_imap. by destruct (os !! p). Qed.

Lemma each_dom f os : dom (each f os) = dom os.
Proof. apply set_eq. intros p. rewrite !elem_of_dom, each_lookup. by rewrite fmap_is_Some. Qed.

Lemma each_each f g os : each g (each f os) = each (fun p o => g p (f p o)) os.
Proof. apply map_eq. intros p. rewrite !each_lookup. by destruct (os !! p). Qed.

Lemma each_id os : each (fun _ o => o) os = os.
Proof. apply map_eq. intros p. rewrite each_lookup. by destruct (os !! p). Qed.

Lemma order_of_each f os order : order_of (each f os) order <-> order_of os order.
Proof. unfold order_of. by rewrite each_dom. Qed.

Lemma order_of_spec os order : order_of os order -> NoDup order /\ forall p, p ∈ order <-> is_Some (os !! p).
Proof.
  intros H. split; [rewrite H; apply NoDup_elements|]. intros p. by rewrite H, elem_of_elements, elem_of_dom.
Qed.

(** The rule for a phase: [Kinv done k] holds of the host when the processes [done] have run. *)
Lemma phase_rule (m : Z -> M (O * Host) unit) (f : Z -> O -> O) (Kinv : list Z -> Host -> Prop) (os : gmap Z O) order k :
  order_of os order ->
  (forall before p after o k, order = before ++ p :: after -> os !! p = Some o -> Kinv before k ->
     exists k', m p (o, k) = Ok tt (f p o, k') /\ Kinv (before ++ [p]) k') ->
  Kinv [] k ->
  exists k', phase order m (os, k) = Ok tt (each f os, k') /\ Kinv order k'.
Proof.
  intros [Hnd Hin]%order_of_spec Hstep H0.
  assert (H : forall after before os1 k1, order = before ++ after ->
      (forall p, os1 !! p = if bool_decide (p ∈ before) then f p <$> os !! p else os !! p) -> Kinv before k1 ->
      exists os2 k2, forM after (at_pid m) (os1, k1) = Ok tt (os2, k2) /\ Kinv order k2 /\
        forall p, os2 !! p = if bool_decide (p ∈ order) then f p <$> os !! p else os !! p).
  { induction after as [|p after IH]; intros before os1 k1 E Hos Hk.
    - rewrite app_nil_r in E. subst before. by exists os1, k1.
    - assert (is_Some (os !! p)) as [o Ho] by (apply Hin; rewrite E; set_solver).
      assert (Hp : p ∉ before) by (rewrite E in Hnd; apply NoDup_app in Hnd as (_ & Hd & _); intros Hp; apply (Hd p Hp); left).
      destruct (Hstep before p after o k1 E Ho Hk) as (k' & Em & Hk').
      assert (Eo : os1 !! p = Some o) by (rewrite Hos, bool_decide_false; done).
      destruct (IH (before ++ [p]) (<[p := f p o]> os1) k') as (os2 & k2 & E2 & Hk2 & Hos2); [by rewrite E, <- app_assoc| |done|].
      + intros p'. destruct (decide (p' = p)) as [->|Hne].
        * rewrite lookup_insert_eq, bool_decide_true, Ho by set_solver. done.
        * rewrite lookup_insert_ne, Hos by done. erewrite bool_decide_ext; [done|set_solver].
      + exists os2, k2. split; [|done]. cbn [forM]. erewrite bind_ok; [exact E2|].
        unfold at_pid. cbn [fst snd]. by rewrite Eo, Em. }
  destruct (H order [] os k) as (os2 & k2 & E & Hk & Hos); [done| |done|].
  - intros p. by rewrite bool_decide_false by apply not_elem_of_nil.
  - exists k2. split; [|done]. unfold phase. rewrite E. do 2 f_equal. apply map_eq. intros p. rewrite Hos, each_lookup.
    case_bool_decide as Hp; [done|]. destruct (os !! p) eqn:Eo; [|done]. exfalso. apply Hp, Hin. eauto.
Qed.

(** A phase that leaves the host as it is. *)
Lemma phase_same (m : Z -> M (O * Host) unit) (f : Z -> O -> O) (os : gmap Z O) order k :
  order_of os order -> (forall p o, os !! p = Some o -> m p (o, k) = Ok tt (f p o, k)) ->
  phase order m (os, k) = Ok tt (each f os, k).
Proof.
  intros Ho Hm. destruct (phase_rule m f (fun _ k' => k' = k) os order k) as (k' & E & ->); [done| |done|done].
  intros before p after o k1 _ Hp ->. exists k. eauto.
Qed.

(** A phase in which only the elected process works on the host. *)
Lemma phase_leader (m : Z -> M (O * Host) unit) leader f (g : Z -> O -> O) (os : gmap Z O) order k k1 :
  order_of os order -> leader ∈ dom os ->
  (forall o, os !! leader = Some o -> m leader (o, k) = Ok tt (f o, k1)) ->
  (forall p o k', p <> leader -> os !! p = Some o -> k' = k \/ k' = k1 -> m p (o, k') = Ok tt (g p o, k')) ->
  phase order m (os, k) = Ok tt (each (fun p o => if decide (p = leader) then f o else g p o) os, k1).
Proof.
  intros Ho Hl Hm Hother. pose proof (order_of_spec _ _ Ho) as [Hnd Hin].
  destruct (phase_rule m (fun p o => if decide (p = leader) then f o else g p o)
    (fun before k' => k' = if decide (leader ∈ before) then k1 else k) os order k) as (k' & E & ->); [done| | |].
  - intros before p after o k' E Hp ->. destruct (decide (p = leader)) as [->|Hne].
    + exists k1. rewrite (decide_True (P := leader ∈ before ++ [leader])) by set_solver.
      rewrite decide_False; [by rewrite Hm|]. intros Hb. rewrite E in Hnd. apply NoDup_app in Hnd as (_ & Hd & _). apply (Hd _ Hb). left.
    + exists (if decide (leader ∈ before) then k1 else k). split; [apply Hother; [done|done|case_decide; tauto]|].
      destruct (decide (leader ∈ before)), (decide (leader ∈ before ++ [p])); set_solver.
  - by rewrite decide_False by apply not_elem_of_nil.
  - rewrite E, decide_True; [done|]. by apply Hin, elem_of_dom.
Qed.

(** A phase in which one process fails, the others leaving the host as it is. *)
Lemma phase_fault (m : Z -> M (O * Host) unit) leader (g : Z -> O -> O) err (os : gmap Z O) order k :
  order_of os order -> leader ∈ dom os ->
  (forall o, os !! leader = Some o -> exists s, m leader (o, k) = Fault err s) ->
  (forall p o, p <> leader -> os !! p = Some o -> m p (o, k) = Ok tt (g p o, k)) ->
  exists w, phase order m (os, k) = Fault err w.
Proof.
  intros Ho Hl Hm Hother. pose proof (order_of_spec _ _ Ho) as [Hnd Hin].
  assert (Hlo : leader ∈ order) by (by apply Hin, elem_of_dom).
  assert (H : forall os1, (forall p, p ∈ order -> os1 !! p = os !! p) -> exists w, forM order (at_pid m) (os1, k) = Fault err w).
  { clear Ho. assert (Hin' : forall p, p ∈ order -> is_Some (os !! p)) by naive_solver. clear Hin. revert Hnd Hlo Hin'.
    induction order as [|p order IH]; [by intros _ Hlo%elem_of_nil|]. intros [Hp Hnd]%NoDup_cons Hlo Hin os1 Hos.
    destruct (Hin p) as [o Eo]; [left|]. assert (Eo1 : os1 !! p = Some o) by (rewrite Hos; [done|left]).
    cbn [forM]. unfold mbind, M_bind, at_pid at 1. cbn [fst snd]. rewrite Eo1. destruct (decide (p = leader)) as [->|Hne].
    - destruct (Hm o Eo) as ([o' k'] & ->). eauto.
    - rewrite (Hother p o Hne Eo). apply IH; [done|set_solver|intros; apply Hin; by right|].
      intros p' Hp'. rewrite lookup_insert_ne by set_solver. apply Hos. by right. }
  by apply H.
Qed.
End phases.
Arguments World O : clear implicits.
