(* ===== verification/MsgQueues.v ===== *)
(** * System V message queues across a checkpoint (src/plugin/svipc/sysvipc.cpp, class MsgQueue)

    Every process that knows the queue sends a marker; the process that sent the last one
    takes all messages out of the queue and keeps those that were there before the markers.
    At a restart it creates the queue again and sends them.  Every method is one system
    call, or is done by one process alone, so that a phase in which the processes run one
    after the other is the general case.

    [queue_survives_restart] is the round trip of the contents through checkpoint and
    restart, [queue_lost_on_resume] and [queue_restart_without_creat_fails] are two cases in
    which the code does not keep them. *)

From Stdlib Require Import ZArith Lia Ascii.
From stdpp Require Import base gmap strings numbers list.
From S2P Require Import Prelude SysVObjs.
Open Scope Z_scope.

Record MsgQueue : Type := mk_MsgQueue { q_obj : SysVObj; q_msgInQueue : list Msg; q_qnum : nat }.
#[export] Instance eta_MsgQueue : Settable MsgQueue := {| eta_of q := mk_MsgQueue (q_obj q) (q_msgInQueue q) (q_qnum q) |}.

(** ** The methods *)

(** [MsgQueue::MsgQueue]: a process that only knows the identifier passes key -1 and asks the kernel. *)
Definition MsgQueue_new (msqid realMsqid key msgflg : Z) (k : Host) : option MsgQueue :=
  if key =? -1 then
    buf ← k_msqs k !! realMsqid;
    Some (mk_MsgQueue (mk_SysVObj msqid realMsqid (kq_key buf) (kq_mode buf) false) [] 0)
  else Some (mk_MsgQueue (mk_SysVObj msqid realMsqid key msgflg false) [] 0).

Definition isStale (o : MsgQueue) (k : Host) : bool := bool_decide (k_msqs k !! o_realId (q_obj o) = None).

(** [msgctl(IPC_STAT)]. *)
Definition stat (what : string) : M (MsgQueue * Host) KMsq :=
  id ← self (fun o => o_realId (q_obj o));
  q ← sys (fun k => k_msqs k !! id);
  optM (AssertFailed what) q.

Definition set_leader (b : bool) (o : MsgQueue) : MsgQueue := o <| q_obj := (q_obj o) <| o_isCkptLeader := b |> |>.
Definition set_realId (real : Z) (o : MsgQueue) : MsgQueue := o <| q_obj := (q_obj o) <| o_realId := real |> |>.

(** The marker has the virtual pid as type and one zero byte of text. *)
Definition marker (vpid : Z) : Msg := mk_Msg vpid (String zero EmptyString).

(** The loop that takes [n] messages from the queue. *)
Fixpoint drain_loop (n : nat) (id size : Z) : M (MsgQueue * Host) unit :=
  match n with
  | O => mret tt
  | S n' =>
      r ← sys (msgrcv id size);
      match (r : bool + (Msg * Host)) with
      | inr (m, k) =>
          modify (fun s => ((fst s) <| q_msgInQueue := q_msgInQueue (fst s) ++ [m] |>, k));;
          drain_loop n' id size
      | inl true => faultM (AssertFailed "failed to drain SysV msg queue before checkpoint")
      | inl false => faultM (Blocked "msgrcv")
      end
  end.

(** [while (msgrcv(IPC_NOWAIT) != -1) {}]; it blocks for ever if the fuel runs out. *)
Fixpoint empty_loop (n : nat) (id size : Z) : M (MsgQueue * Host) unit :=
  match n with
  | O => faultM (Blocked "msgrcv")
  | S n' =>
      r ← sys (msgrcv id size);
      match (r : bool + (Msg * Host)) with
      | inr (_, k) => modify (fun s => (fst s, k));; empty_loop n' id size
      | inl _ => mret tt
      end
  end.

Section methods.
Context (real : Z -> Z).

Definition leaderElection (vpid : Z) : M (MsgQueue * Host) unit :=
  buf ← stat "failed to stat SysV msg queue for leader election";
  set_self (fun o => o <| q_qnum := length (kq_msgs buf) |>).

Definition preCkptDrain (vpid : Z) : M (MsgQueue * Host) unit :=
  id ← self (fun o => o_realId (q_obj o));
  call_ "failed to send SysV msg leader-election marker" (msgsnd (real vpid) id (marker vpid));;
  set_self (set_leader false).

(** [preCheckpoint].  The fuel of the second loop is one more than there are messages. *)
Definition preCheckpoint (vpid : Z) : M (MsgQueue * Host) unit :=
  buf ← stat "failed to stat SysV msg queue before checkpoint";
  whenM (kq_lspid buf =? real vpid) (
    o ← self id;
    let size := bytes_of (kq_msgs buf) in
    set_self (fun o => (set_leader true o) <| q_msgInQueue := [] |>);;
    drain_loop (q_qnum o) (o_realId (q_obj o)) size;;
    n ← self (fun o => length (q_msgInQueue o));
    assertM (Nat.eqb n (q_qnum o)) "SysV msg snapshot count mismatch";;
    empty_loop (S (length (kq_msgs buf))) (o_realId (q_obj o)) size).

Definition postRestart (vpid : Z) : M (MsgQueue * Host) unit :=
  o ← self id;
  whenM (o_isCkptLeader (q_obj o)) (
    r ← call "failed to recreate SysV msg queue after restart" (msgget (o_key (q_obj o)) (o_flags (q_obj o)));
    set_self (set_realId r);;
    updateMapping (o_id (q_obj o)) r;;
    assertM (Nat.eqb (length (q_msgInQueue o)) (q_qnum o)) "SysV msg restart count mismatch").

Definition refill (vpid : Z) : M (MsgQueue * Host) unit :=
  o ← self id;
  whenM (o_isCkptLeader (q_obj o)) (
    stat "failed to stat SysV msg queue before refill";;
    forM (seq 0 (q_qnum o)) (fun i =>
      m ← optM (OutOfBounds "_msgInQueue") (q_msgInQueue o !! i);
      call_ "failed to refill SysV msg queue" (msgsnd (real vpid) (o_realId (q_obj o)) m)));;
  set_self (fun o => o <| q_msgInQueue := [] |> <| q_qnum := 0%nat |>).

(** [preResume] is empty for queues. *)
Definition preResume (vpid : Z) : M (MsgQueue * Host) unit := mret tt.

(** ** The events ([sysvipc_event_hook]): a phase ends at a barrier *)

Definition event_precheckpoint (o1 o2 o3 : list Z) : M (World MsgQueue) unit :=
  phase o1 leaderElection;; phase o2 preCkptDrain;; phase o3 preCheckpoint.
Definition event_resume (o1 : list Z) : M (World MsgQueue) unit := phase o1 preResume.
Definition event_restart (o1 o2 o3 : list Z) : M (World MsgQueue) unit :=
  phase o1 postRestart;; phase o2 refill;; phase o3 preResume.
End methods.

(** ** The host with another state of one queue *)

Definition put_queue (id : Z) (q : KMsq) (k : Host) : Host := k <| k_msqs ::= <[id := q]> |>.

Lemma put_queue_lookup id q k : k_msqs (put_queue id q k) !! id = Some q.
Proof. unfold put_queue. rsimpl. by rewrite lookup_insert_eq. Qed.

Lemma put_queue_same id q k : k_msqs k !! id = Some q -> put_queue id q k = k.
Proof. intros H. destruct k. unfold put_queue, set_field. cbn in *. by rewrite insert_id. Qed.

Lemma put_queue_twice id q q' k : put_queue id q' (put_queue id q k) = put_queue id q' k.
Proof. destruct k. unfold put_queue, set_field. cbn. by rewrite insert_insert_eq. Qed.

Lemma bytes_of_app a b : bytes_of (a ++ b) = bytes_of a + bytes_of b.
Proof. induction a as [|m a IH]; cbn; [done|]. unfold bytes_of in IH. rewrite IH. unfold bytes_of. lia. Qed.

Lemma bytes_of_nonneg a : 0 <= bytes_of a.
Proof. induction a as [|m a IH]; cbn; [done|]. unfold bytes_of in IH. lia. Qed.

Lemma bytes_of_elem m ms : m ∈ ms -> Z.of_nat (String.length (m_text m)) <= bytes_of ms.
Proof.
  intros (a & b & ->)%list_elem_of_split. rewrite bytes_of_app. cbn. fold (bytes_of b).
  pose proof (bytes_of_nonneg a). pose proof (bytes_of_nonneg b). lia.
Qed.

Lemma bytes_of_markers ps : bytes_of (marker <$> ps) = Z.of_nat (length ps).
Proof. induction ps as [|p ps IH]; [done|]. cbn. fold (bytes_of (marker <$> ps)). rewrite IH. lia. Qed.

Lemma msgrcv_first id size q m ms k : kq_msgs q = m :: ms -> Z.of_nat (String.length (m_text m)) <= size ->
  msgrcv id size (put_queue id q k) = inr (m, put_queue id (q <| kq_msgs := ms |>) k).
Proof.
  intros E Hm. unfold msgrcv. rewrite put_queue_lookup, E.
  destruct (Z.ltb_spec size (Z.of_nat (String.length (m_text m)))); [lia|].
  by fold (put_queue id (q <| kq_msgs := ms |>) (put_queue id q k)); rewrite put_queue_twice.
Qed.

Lemma msgsnd_ok pid id q m k : fits_queue m q = true ->
  msgsnd pid id m (put_queue id q k) = Some (put_queue id (q <| kq_msgs := kq_msgs q ++ [m] |> <| kq_lspid := pid |>) k).
Proof.
  intros Hf. unfold msgsnd. rewrite put_queue_lookup. cbn [mbind option_bind]. rewrite Hf. f_equal.
  fold (put_queue id (q <| kq_msgs := kq_msgs q ++ [m] |> <| kq_lspid := pid |>) (put_queue id q k)). apply put_queue_twice.
Qed.

(** The two loops of [preCheckpoint]. *)
Lemma drain_loop_run id size k : forall ms rest q o, kq_msgs q = ms ++ rest ->
  (forall m, m ∈ ms -> Z.of_nat (String.length (m_text m)) <= size) ->
  drain_loop (length ms) id size (o, put_queue id q k) =
  Ok tt (o <| q_msgInQueue := q_msgInQueue o ++ ms |>, put_queue id (q <| kq_msgs := rest |>) k).
Proof.
  induction ms as [|m ms IH]; intros rest q o E Hs.
  - cbn in E |- *. unfold mret, M_ret. rewrite app_nil_r, <- E. by destruct o, q.
  - cbn [length drain_loop]. unfold mbind at 1, M_bind, sys, gets. cbn [snd].
    rewrite (msgrcv_first _ _ _ m (ms ++ rest)) by (try done; apply Hs; left).
    unfold mbind, M_bind, modify. cbn [fst].
    rewrite (IH rest); [|done|intros m' Hm'; apply Hs; by right].
    rsimpl. rewrite <- app_assoc. done.
Qed.

Lemma empty_loop_run id size k : forall n q o, (length (kq_msgs q) < n)%nat ->
  (forall m, m ∈ kq_msgs q -> Z.of_nat (String.length (m_text m)) <= size) ->
  empty_loop n id size (o, put_queue id q k) = Ok tt (o, put_queue id (q <| kq_msgs := [] |>) k).
Proof.
  induction n as [|n IH]; intros q o Hn Hs; [lia|]. cbn [empty_loop]. unfold mbind at 1, M_bind, sys, gets. cbn [snd].
  destruct (kq_msgs q) as [|m ms] eqn:E.
  - unfold msgrcv. rewrite put_queue_lookup, E. unfold mret, M_ret. do 3 f_equal. destruct q; unfold set_field; cbn in *; congruence.
  - rewrite (msgrcv_first _ _ _ m ms) by (try done; apply Hs; left). unfold mbind, M_bind, modify. cbn [fst].
    rewrite IH; [|rsimpl; cbn in Hn; lia|rsimpl; intros m' Hm'; apply Hs; by right]. done.
Qed.

(** ** A checkpoint *)

(** The processes with objects [os] share the queue [id] (virtual identifier [vid]) of the host [k], and it
    has room for their markers. *)
Definition queue_shared (real : Z -> Z) (os : gmap Z MsgQueue) (k : Host) (id vid key : Z) (q : KMsq) : Prop :=
  k_msqs k !! id = Some q /\ os <> ∅ /\
  (forall p o, os !! p = Some o -> o_realId (q_obj o) = id /\ o_id (q_obj o) = vid /\ o_key (q_obj o) = key) /\
  (forall p p', p ∈ dom os -> p' ∈ dom os -> real p = real p' -> p = p') /\
  bytes_of (kq_msgs q) + Z.of_nat (size os) <= kq_qbytes q /\
  Z.of_nat (length (kq_msgs q) + size os) <= kq_qbytes q.

(** The object of process [p] in its image. *)
Definition image (msgs : list Msg) (leader p : Z) (o : MsgQueue) : MsgQueue :=
  mk_MsgQueue ((q_obj o) <| o_isCkptLeader := bool_decide (p = leader) |>)
    (if decide (p = leader) then msgs else q_msgInQueue o) (length msgs).

Section checkpoint.
Context (real : Z -> Z) (os : gmap Z MsgQueue) (k : Host) (id vid key : Z) (q : KMsq).
Hypothesis Hshared : queue_shared real os k id vid key q.

(** The queue after the processes [sent] have sent their markers. *)
Definition marked (sent : list Z) : KMsq :=
  q <| kq_msgs := kq_msgs q ++ (marker <$> sent) |> <| kq_lspid := default (kq_lspid q) (real <$> last sent) |>.

Lemma order_size order : order_of os order -> length order = size os.
Proof. intros H. unfold order_of in H. rewrite H. by rewrite <- size_dom. Qed.

Lemma elect_run order : order_of os order ->
  phase order leaderElection (os, k) = Ok tt (each (fun _ o => o <| q_qnum := length (kq_msgs q) |>) os, k).
Proof.
  destruct Hshared as (Hq & _ & Hos & _). intros Ho. apply phase_same; [done|]. intros p o Hp.
  destruct (Hos p o Hp) as (Hid & _). unfold leaderElection, stat, mbind, M_bind, self, sys, gets, optM. cbn [fst snd].
  by rewrite Hid, Hq.
Qed.

Lemma drain_run order (os1 := each (fun _ o => o <| q_qnum := length (kq_msgs q) |>) os) : order_of os order ->
  phase order (preCkptDrain real) (os1, k) = Ok tt (each (fun _ => set_leader false) os1, put_queue id (marked order) k).
Proof.
  destruct Hshared as (Hq & _ & Hos & _ & Hb & Hn). intros Ho.
  destruct (phase_rule (preCkptDrain real) (fun _ => set_leader false)
    (fun sent k' => k' = put_queue id (marked sent) k) os1 order k) as (k' & E & ->); [by apply order_of_each| | |done].
  - intros sent p later o k' E Hp ->. eexists. split; [|done].
    unfold os1 in Hp. rewrite each_lookup in Hp. destruct (os !! p) as [o0|] eqn:E0; [|done]. injection Hp as <-.
    destruct (Hos p o0 E0) as (Hid & _). unfold preCkptDrain, mbind, M_bind, self, gets. cbn [fst]. rsimpl. rewrite Hid.
    assert (Hfit : fits_queue (marker p) (marked sent) = true).
    { pose proof (order_size order Ho) as Hl. rewrite E, length_app in Hl. cbn [length] in Hl.
      unfold fits_queue, marked. rsimpl. rewrite bytes_of_app, bytes_of_markers, length_app, length_fmap.
      cbn [marker m_text String.length]. apply andb_true_intro. split; apply Z.leb_le; lia. }
    unfold call_, call. cbn [snd]. rewrite msgsnd_ok by exact Hfit. cbn. do 3 f_equal.
    unfold marked. rewrite fmap_app, last_snoc, app_assoc. done.
  - symmetry. apply put_queue_same. rewrite Hq. f_equal. unfold marked. cbn. rewrite app_nil_r. by destruct q.
Qed.

Lemma order_last order : order_of os order -> exists leader, last order = Some leader /\ leader ∈ dom os.
Proof.
  intros Ho. destruct (last order) as [l|] eqn:E.
  - exists l. split; [done|]. apply elem_of_dom. eapply order_of_spec; [done|]. apply last_Some in E as [pre ->]. set_solver.
  - apply last_None in E as ->. destruct Hshared as (_ & Hne & _). exfalso. apply Hne.
    apply dom_empty_inv_L. apply order_of_spec in Ho as [_ Ho]. apply set_eq. intros p. rewrite elem_of_dom, <- Ho. set_solver.
Qed.

Lemma save_run order o2 leader (os2 := each (fun _ o => set_leader false (o <| q_qnum := length (kq_msgs q) |>)) os) :
  order_of os order -> last o2 = Some leader -> leader ∈ dom os ->
  phase order (preCheckpoint real) (os2, put_queue id (marked o2) k) =
  Ok tt (each (image (kq_msgs q) leader) os, put_queue id (q <| kq_msgs := [] |> <| kq_lspid := real leader |>) k).
Proof.
  destruct Hshared as (Hq & _ & Hos & Hinj & _). intros Ho Hlast Hl.
  set (after := q <| kq_msgs := [] |> <| kq_lspid := real leader |>).
  erewrite (phase_leader (preCheckpoint real) leader (fun o => (set_leader true o) <| q_msgInQueue := kq_msgs q |>) (fun _ o => o)
    os2 order (put_queue id (marked o2) k) (put_queue id after k)); [| |by unfold os2; rewrite each_dom| |].
  - do 2 f_equal. unfold os2. rewrite each_each. apply map_eq. intros p. rewrite !each_lookup.
    destruct (os !! p) as [o|]; [|done]. cbn. f_equal. unfold image. destruct (decide (p = leader)) as [->|Hne].
    + by rewrite bool_decide_true.
    + by rewrite bool_decide_false.
  - by apply order_of_each.
  - intros o. unfold os2. rewrite each_lookup. intros (o0 & E0 & ->)%fmap_Some. destruct (Hos _ _ E0) as (Hid & _).
    unfold preCheckpoint, stat, mbind, M_bind, self, sys, gets, optM. cbn [fst snd].
    set (o1 := set_leader false _). assert (Hid1 : o_realId (q_obj o1) = id) by (unfold o1, set_leader; rsimpl; done).
    rewrite Hid1, put_queue_lookup. unfold mret, M_ret.
    replace (kq_lspid (marked o2)) with (real leader) by (unfold marked; rsimpl; by rewrite Hlast).
    change (kq_msgs (marked o2)) with (kq_msgs q ++ (marker <$> o2)).
    rewrite Z.eqb_refl. cbn [whenM]. cbv zeta. unfold set_self, modify, Datatypes.id. cbn [fst snd]. rewrite Hid1.
    change (q_qnum o1) with (length (kq_msgs q)).
    rewrite (drain_loop_run _ _ _ (kq_msgs q) (marker <$> o2)); [|done|].
    2:{ intros m Hm. apply bytes_of_elem. set_solver. }
    cbn [fst]. rsimpl. cbn [app]. rewrite Nat.eqb_refl. cbn [assertM]. unfold mret, M_ret.
    rewrite empty_loop_run.
    2:{ rsimpl. rewrite length_app. lia. }
    2:{ rsimpl. intros m Hm. apply bytes_of_elem. set_solver. }
    do 3 f_equal. unfold marked, after. by rewrite Hlast.
  - intros p o k' Hne Hp Hk'. unfold os2 in Hp. rewrite each_lookup in Hp. apply fmap_Some in Hp as (o0 & E0 & ->).
    destruct (Hos _ _ E0) as (Hid & _).
    assert (exists qq, k_msqs k' !! id = Some qq /\ kq_lspid qq = real leader) as (qq & Eq & El).
    { destruct Hk' as [->| ->]; eexists; (split; [apply put_queue_lookup|]); [|done]. unfold marked. rsimpl. by rewrite Hlast. }
    unfold preCheckpoint, stat, mbind, M_bind, self, sys, gets, optM. cbn [fst snd].
    change (o_realId (q_obj (set_leader _ _))) with (o_realId (q_obj o0)). rewrite Hid, Eq. unfold mret, M_ret. rewrite El.
    destruct (Z.eqb_spec (real leader) (real p)) as [He|_]; [|done].
    destruct Hne. symmetry. apply Hinj; [done|apply elem_of_dom; eauto|done].
Qed.

(** A checkpoint takes the messages out of the queue; the process that sent its marker last has them. *)
Lemma checkpoint_run o1 o2 o3 : order_of os o1 -> order_of os o2 -> order_of os o3 ->
  exists leader, leader ∈ dom os /\ last o2 = Some leader /\
    event_precheckpoint real o1 o2 o3 (os, k) =
    Ok tt (each (image (kq_msgs q) leader) os, put_queue id (q <| kq_msgs := [] |> <| kq_lspid := real leader |>) k).
Proof.
  intros H1 H2 H3. destruct (order_last o2 H2) as (leader & El & Hl). exists leader. split; [done|]. split; [done|].
  unfold event_precheckpoint. erewrite bind_ok by by apply elect_run. erewrite bind_ok by by apply drain_run.
  rewrite each_each. by apply save_run.
Qed.
End checkpoint.

(** ** A restart *)

Lemma msgget_new key flags k : k_msqKeys k !! key = None -> may_create key flags = true ->
  exists k', msgget key flags k = Some (k_nextId k, k') /\
    k_msqs k' = <[k_nextId k := mk_KMsq key (mode_of flags) [] 0 (k_msgmnb k)]> (k_msqs k) /\ h_ipcIds k' = h_ipcIds k.
Proof.
  intros Hk Hf. unfold msgget. rewrite find_or_create_new, Hf by done.
  eexists. split; [reflexivity|]. done.
Qed.

Lemma msgget_unknown key flags k : k_msqKeys k !! key = None -> may_create key flags = false -> msgget key flags k = None.
Proof.
  intros Hk Hf. unfold msgget. by rewrite find_or_create_new, Hf.
Qed.

(** The loop of [refill]. *)
Lemma refill_loop_run pid id k (all : list Msg) : forall n i q (o : MsgQueue), (n + i)%nat = length all ->
  kq_msgs q = take i all -> bytes_of all <= kq_qbytes q -> Z.of_nat (length all) <= kq_qbytes q ->
  exists q', forM (seq i n) (fun i =>
      m ← optM (OutOfBounds "_msgInQueue") (all !! i);
      call_ "failed to refill SysV msg queue" (msgsnd pid id m)) (o, put_queue id q k) = Ok tt (o, put_queue id q' k) /\
    kq_msgs q' = all /\ kq_key q' = kq_key q /\ kq_qbytes q' = kq_qbytes q.
Proof.
  induction n as [|n IH]; intros i q o Hn Hq Hb Hl.
  - exists q. split; [done|]. rewrite Hq, take_ge by lia. done.
  - cbn [seq forM]. destruct (lookup_lt_is_Some_2 all i) as [m Hm]; [lia|].
    pose proof (take_S_r _ _ _ Hm) as Ht.
    assert (Hfit : fits_queue m q = true).
    { pose proof (f_equal bytes_of Ht) as Hbt. rewrite bytes_of_app in Hbt. cbn in Hbt.
      pose proof (f_equal bytes_of (take_drop (S i) all)) as Hall. rewrite bytes_of_app in Hall.
      pose proof (bytes_of_nonneg (drop (S i) all)). pose proof (length_take_le all i).
      unfold fits_queue. rewrite Hq. apply andb_true_intro. split; apply Z.leb_le; lia. }
    destruct (IH (S i) (q <| kq_msgs := kq_msgs q ++ [m] |> <| kq_lspid := pid |>) o) as (q' & E & Hq');
      [lia|rsimpl; by rewrite Hq|done|done|].
    exists q'. split; [|done]. unfold mbind, M_bind. rewrite Hm. cbn [optM]. unfold mret, M_ret, call_, call. cbn [snd].
    rewrite msgsnd_ok by done. cbn. exact E.
Qed.

Definition cleared (o : MsgQueue) : MsgQueue := o <| q_msgInQueue := [] |> <| q_qnum := 0%nat |>.

Lemma refill_leader_run real2 p o k q0 : o_isCkptLeader (q_obj o) = true -> q_qnum o = length (q_msgInQueue o) ->
  k_msqs k !! o_realId (q_obj o) = Some q0 -> kq_msgs q0 = [] ->
  bytes_of (q_msgInQueue o) <= kq_qbytes q0 -> Z.of_nat (length (q_msgInQueue o)) <= kq_qbytes q0 ->
  exists q3, refill real2 p (o, k) = Ok tt (cleared o, put_queue (o_realId (q_obj o)) q3 k) /\
    kq_msgs q3 = q_msgInQueue o /\ kq_key q3 = kq_key q0.
Proof.
  intros Hl Hn Hq He Hb Hc.
  destruct (refill_loop_run (real2 p) (o_realId (q_obj o)) k (q_msgInQueue o) (length (q_msgInQueue o)) 0 q0 o)
    as (q3 & E & H3 & Hk & _); [lia|done|done|done|].
  exists q3. split; [|done]. rewrite (put_queue_same _ _ _ Hq) in E.
  unfold refill. erewrite bind_ok by reflexivity. unfold Datatypes.id. cbn [fst]. rewrite Hl. cbn [whenM].
  rewrite (bind_ok _ _ _ tt (o, put_queue (o_realId (q_obj o)) q3 k)); [reflexivity|].
  erewrite bind_ok; [|unfold stat, mbind, M_bind, self, sys, gets; cbn [fst snd]; by rewrite Hq].
  rewrite Hn. exact E.
Qed.

Lemma refill_other_run real2 p o k : o_isCkptLeader (q_obj o) = false -> refill real2 p (o, k) = Ok tt (cleared o, k).
Proof. intros Hl. unfold refill, mbind, M_bind, self, gets, Datatypes.id. cbn [fst]. by rewrite Hl. Qed.

(** What the new host knows of the queue and the processes after a restart. *)
Lemma restart_run real2 (os : gmap Z MsgQueue) (k2 : Host) (vid key leader : Z) (msgs : list Msg) r1 r2 r3
    (os1 := each (image msgs leader) os) :
  leader ∈ dom os -> order_of os r1 -> order_of os r2 -> order_of os r3 ->
  (forall p o, os !! p = Some o -> o_id (q_obj o) = vid /\ o_key (q_obj o) = key /\ may_create key (o_flags (q_obj o)) = true) ->
  k_msqKeys k2 !! key = None -> bytes_of msgs <= k_msgmnb k2 -> Z.of_nat (length msgs) <= k_msgmnb k2 ->
  exists k3 q3 os3, event_restart real2 r1 r2 r3 (os1, k2) = Ok tt (os3, k3) /\
    h_ipcIds k3 !! vid = Some (k_nextId k2) /\ kq_msgs q3 = msgs /\ kq_key q3 = key /\
    k_msqs k3 = <[k_nextId k2 := q3]> (k_msqs k2) /\
    (forall p o, os3 !! p = Some o -> exists o0, os !! p = Some o0 /\
       o_realId (q_obj o) = if decide (p = leader) then k_nextId k2 else o_realId (q_obj o0)).
Proof.
  intros Hl Ho1 Ho2 Ho3 Hos Hkey Hb Hn. apply elem_of_dom in Hl as [lo Hlo].
  destruct (Hos _ _ Hlo) as (Hvid & Hlk & Hc).
  destruct (msgget_new key (o_flags (q_obj lo)) k2 Hkey Hc) as (kg & Eg & Hmsqs & Hids).
  set (r := k_nextId k2) in *. set (q0 := mk_KMsq key _ [] 0 _) in Hmsqs.
  set (kp := kg <| h_ipcIds ::= <[vid := r]> |>).
  assert (Hkp : kp = put_queue r q0 kp).
  { symmetry. apply put_queue_same. unfold kp. rsimpl. by rewrite Hmsqs, lookup_insert_eq. }
  (* postRestart *)
  assert (E1 : phase r1 postRestart (os1, k2) =
    Ok tt (each (fun p o => if decide (p = leader) then set_realId r o else o) os1, kp)).
  { apply (phase_leader postRestart leader (set_realId r) (fun _ o => o)); [by apply order_of_each|unfold os1; rewrite each_dom; apply elem_of_dom; eauto| |].
    - intros o. unfold os1. rewrite each_lookup, Hlo. intros [= <-].
      unfold postRestart, mbind, M_bind, self, gets, Datatypes.id, image. cbn [fst q_obj q_msgInQueue q_qnum]. rsimpl.
      rewrite bool_decide_true by done. cbn [whenM]. unfold call. cbn [snd]. rewrite Hlk, Eg.
      unfold set_self, updateMapping, modify. cbn [fst snd]. rewrite Hvid, decide_True by done. rewrite Nat.eqb_refl. done.
    - intros p o k' Hne. unfold os1. rewrite each_lookup. intros (o0 & E0 & ->)%fmap_Some _.
      unfold postRestart, mbind, M_bind, self, gets, Datatypes.id, image. cbn [fst q_obj]. rsimpl.
      rewrite bool_decide_false by done. done. }
  (* refill *)
  set (os2 := each _ os1) in E1.
  set (lo2 := set_realId r (image msgs leader leader lo)).
  assert (Hlo2 : os2 !! leader = Some lo2) by (unfold os2, os1; rewrite !each_lookup, Hlo; cbn; by rewrite decide_True).
  assert (Hm2 : q_msgInQueue lo2 = msgs) by (unfold lo2, set_realId, image; rsimpl; cbn; by rewrite decide_True).
  destruct (refill_leader_run real2 leader lo2 kp q0) as (q3 & Er & Hq3 & Hk3).
  { unfold lo2, set_realId, image. rsimpl. cbn. rsimpl. by rewrite bool_decide_true. }
  { by rewrite Hm2. } { change (o_realId (q_obj lo2)) with r. rewrite Hkp. apply put_queue_lookup. }
  { done. } { by rewrite Hm2. } { by rewrite Hm2. }
  assert (E2 : phase r2 (refill real2) (os2, kp) = Ok tt (each (fun p o => if decide (p = leader) then cleared o else cleared o) os2, put_queue r q3 kp)).
  { apply (phase_leader (refill real2) leader cleared (fun _ => cleared)); [by unfold os2, os1; rewrite !order_of_each|apply elem_of_dom; eauto| |].
    - intros o. rewrite Hlo2. intros [= <-]. exact Er.
    - intros p o k' Hne. unfold os2, os1. rewrite !each_lookup. intros (o1 & (o0 & E0 & ->)%fmap_Some & ->)%fmap_Some _.
      rewrite decide_False by done. apply refill_other_run. unfold image. cbn. rsimpl. by rewrite bool_decide_false. }
  eexists (put_queue r q3 kp), q3, _. split.
  { unfold event_restart. erewrite bind_ok by exact E1. erewrite bind_ok by exact E2.
    apply (phase_same preResume (fun _ o => o)); [by unfold os2, os1; rewrite !order_of_each|done]. }
  split; [unfold kp, put_queue; rsimpl; by rewrite lookup_insert_eq|]. split; [congruence|]. split; [done|].
  split; [unfold kp, put_queue; rsimpl; by rewrite Hmsqs, insert_insert_eq|].
  intros p o Hp. unfold os2, os1 in Hp. rewrite !each_lookup in Hp. destruct (os !! p) as [o0|]; [|done].
  exists o0. split; [done|]. cbn in Hp. injection Hp as <-. destruct (decide (p = leader)); done.
Qed.

(** ** What checkpoint, resume and restart do to the contents *)

(** C21: a message queue survives a checkpoint followed by a restart on another host, if every process opened it with IPC_CREAT or as a
    private queue ([may_create]; [queue_restart_without_creat_fails] shows what happens otherwise), the queue has room for a marker of
    each process besides its messages ([queue_shared]), and the new host has no queue of that key and a large enough limit: whatever the order of the
    processes in the phases, every call succeeds, exactly one process is elected, and afterwards the virtual
    identifier stands for a new queue with the same key and the same messages in the same order. *)
Theorem queue_survives_restart real real2 os k id vid key q c1 c2 c3 r1 r2 r3 k2 :
  queue_shared real os k id vid key q ->
  (forall p o, os !! p = Some o -> may_create key (o_flags (q_obj o)) = true) ->
  Forall (order_of os) [c1; c2; c3; r1; r2; r3] ->
  k_msqKeys k2 !! key = None -> kq_qbytes q <= k_msgmnb k2 ->
  exists os1 k1 os3 k3 id' q',
    event_precheckpoint real c1 c2 c3 (os, k) = Ok tt (os1, k1) /\
    (exists! leader, exists o, os1 !! leader = Some o /\ o_isCkptLeader (q_obj o) = true) /\
    event_restart real2 r1 r2 r3 (os1, k2) = Ok tt (os3, k3) /\
    h_ipcIds k3 !! vid = Some id' /\ k_msqs k3 = <[id' := q']> (k_msqs k2) /\
    kq_key q' = key /\ kq_msgs q' = kq_msgs q.
Proof.
  intros Hs Hc HF Hk Hb.
  rewrite !Forall_cons in HF. destruct HF as (H1 & H2 & H3 & H4 & H5 & H6 & _).
  destruct (checkpoint_run _ _ _ _ _ _ _ Hs c1 c2 c3) as (leader & Hl & _ & E); [done..|].
  destruct Hs as (_ & _ & Hos & _ & Hbytes & Hnum).
  destruct (restart_run real2 os k2 vid key leader (kq_msgs q) r1 r2 r3) as (k3 & q3 & os3 & E3 & Hid & Hm & Hkey & Hq & _);
    [done..| |done|lia|lia|].
  { intros p o Hp. destruct (Hos p o Hp) as (_ & ? & ?). eauto. }
  eexists _, _, os3, k3, _, q3. split; [exact E|]. split; [|by rewrite E3].
  apply elem_of_dom in Hl as [o Ho]. exists leader. split.
  - exists (image (kq_msgs q) leader leader o). rewrite each_lookup, Ho. split; [done|]. unfold image. cbn. rsimpl. by rewrite bool_decide_true.
  - intros p (o' & Hp & Hlead). rewrite each_lookup in Hp. apply fmap_Some in Hp as (o0 & _ & ->).
    unfold image in Hlead. cbn in Hlead. rsimpl in Hlead. by apply bool_decide_eq_true in Hlead.
Qed.

(** When the processes go on after a checkpoint, the queue is empty: the messages were taken out for the
    image and the resume event sends none back. *)
Theorem queue_lost_on_resume real os k id vid key q c1 c2 c3 r1 :
  queue_shared real os k id vid key q -> Forall (order_of os) [c1; c2; c3; r1] ->
  exists os1 k1, (event_precheckpoint real c1 c2 c3;; event_resume r1) (os, k) = Ok tt (os1, k1) /\
    kq_msgs <$> k_msqs k1 !! id = Some [].
Proof.
  intros Hs HF.
  rewrite !Forall_cons in HF. destruct HF as (H1 & H2 & H3 & H4 & _).
  destruct (checkpoint_run _ _ _ _ _ _ _ Hs c1 c2 c3) as (leader & Hl & _ & E); [done..|].
  eexists _, _. split.
  - erewrite bind_ok by exact E. apply (phase_same preResume (fun _ o => o)); [by apply order_of_each|done].
  - by rewrite put_queue_lookup.
Qed.

(** If the process that sent its marker last opened the queue without IPC_CREAT (or learnt of it by its
    identifier, so that only the mode is known), the restart on a host that does not have the key fails. *)
Theorem queue_restart_without_creat_fails real real2 os k id vid key q c1 c2 c3 r1 r2 r3 k2 leader o :
  queue_shared real os k id vid key q -> Forall (order_of os) [c1; c2; c3; r1] ->
  last c2 = Some leader -> os !! leader = Some o -> may_create key (o_flags (q_obj o)) = false ->
  k_msqKeys k2 !! key = None ->
  exists os1 k1 w, event_precheckpoint real c1 c2 c3 (os, k) = Ok tt (os1, k1) /\
    event_restart real2 r1 r2 r3 (os1, k2) = Fault (AssertFailed "failed to recreate SysV msg queue after restart") w.
Proof.
  intros Hs HF Hlast Ho Hc Hk.
  rewrite !Forall_cons in HF. destruct HF as (H1 & H2 & H3 & H4 & _).
  destruct (checkpoint_run _ _ _ _ _ _ _ Hs c1 c2 c3) as (leader' & Hl & Hlast' & E); [done..|].
  assert (leader' = leader) as -> by congruence. destruct Hs as (_ & _ & Hos & _). destruct (Hos _ _ Ho) as (_ & _ & Hkey).
  destruct (phase_fault postRestart leader (fun _ o => o) (AssertFailed "failed to recreate SysV msg queue after restart")
    (each (image (kq_msgs q) leader) os) r1 k2) as (w & Ew).
  - by apply order_of_each.
  - by rewrite each_dom.
  - intros o'. rewrite each_lookup, Ho. intros [= <-]. eexists. unfold postRestart, mbind, M_bind, self, gets, Datatypes.id, image.
    cbn [fst q_obj]. rsimpl. rewrite bool_decide_true by done. cbn [whenM]. unfold call. cbn [snd].
    by rewrite Hkey, msgget_unknown.
  - intros p o' Hne. rewrite each_lookup. intros (o0 & _ & ->)%fmap_Some.
    unfold postRestart, mbind, M_bind, self, gets, Datatypes.id, image. cbn [fst q_obj]. rsimpl. by rewrite bool_decide_false.
  - eexists _, _, w. split; [exact E|]. unfold event_restart, mbind, M_bind. by rewrite Ew.
Qed.

(** After a restart the object of every process but the elected one still has the identifier of the old host:
    if no queue of the new host has it, the next checkpoint takes the queue for a removed one. *)
Theorem queue_stale_after_restart real real2 os k id vid key q c1 c2 c3 r1 r2 r3 k2 :
  queue_shared real os k id vid key q ->
  (forall p o, os !! p = Some o -> may_create key (o_flags (q_obj o)) = true) ->
  Forall (order_of os) [c1; c2; c3; r1; r2; r3] ->
  k_msqKeys k2 !! key = None -> kq_qbytes q <= k_msgmnb k2 -> k_msqs k2 !! id = None -> id <> k_nextId k2 ->
  exists leader os3 k3,
    (event_precheckpoint real c1 c2 c3;; modify (fun w => (fst w, k2));; event_restart real2 r1 r2 r3) (os, k) = Ok tt (os3, k3) /\
    forall p o, os3 !! p = Some o -> isStale o k3 = bool_decide (p <> leader).
Proof.
  intros Hs Hc HF Hk Hb Hold Hne.
  rewrite !Forall_cons in HF. destruct HF as (H1 & H2 & H3 & H4 & H5 & H6 & _).
  destruct (checkpoint_run _ _ _ _ _ _ _ Hs c1 c2 c3) as (leader & Hl & _ & E); [done..|].
  destruct Hs as (_ & _ & Hos & _ & Hbytes & Hnum).
  destruct (restart_run real2 os k2 vid key leader (kq_msgs q) r1 r2 r3) as (k3 & q3 & os3 & E3 & Hid & Hm & Hkey & Hq & Hreal);
    [done..| |done|lia|lia|].
  { intros p o Hp. destruct (Hos p o Hp) as (_ & ? & ?). eauto. }
  exists leader, os3, k3. split; [erewrite bind_ok by exact E; erewrite bind_ok by reflexivity; exact E3|].
  intros p o Hp. destruct (Hreal p o Hp) as (o0 & Ho0 & Hr). destruct (Hos _ _ Ho0) as (Hid0 & _).
  unfold isStale. rewrite Hr, Hq. destruct (decide (p = leader)) as [->|Hpl].
  - rewrite lookup_insert_eq, !bool_decide_false; [done|tauto|done].
  - rewrite Hid0, lookup_insert_ne, Hold, !bool_decide_true; done.
Qed.

(** *** An instance: two processes, a queue with two messages *)

Definition demo_obj (flags : Z) : MsgQueue := mk_MsgQueue (mk_SysVObj 40000 7 1234 flags false) [] 0.
Definition demo_os (flags : Z) : gmap Z MsgQueue := {[ 40001 := demo_obj flags; 40002 := demo_obj flags ]}.
Definition demo_queue : KMsq := mk_KMsq 1234 438 [mk_Msg 1 "first"; mk_Msg 2 "second"] 0 16384.
Definition demo_host : Host := mk_Host ∅ ∅ {[ 7 := demo_queue ]} {[ 1234 := 7 ]} 8 16384 {[ 40000 := 7 ]}.
Definition demo_new_host : Host := mk_Host ∅ ∅ ∅ ∅ 3 16384 ∅.
Definition demo_real (vpid : Z) : Z := vpid - 39000.

Lemma demo_objs flags p o : demo_os flags !! p = Some o -> o = demo_obj flags.
Proof. unfold demo_os. intros [[_ <-]|[_ [_ <-]%lookup_singleton_Some]]%lookup_insert_Some; done. Qed.

Lemma demo_shared flags : queue_shared demo_real (demo_os flags) demo_host 7 40000 1234 demo_queue.
Proof.
  split; [done|]. split; [done|]. split; [by intros p o ->%demo_objs|].
  split; [intros p p' _ _; unfold demo_real; lia|done].
Qed.

Lemma demo_order flags : order_of (demo_os flags) [40001; 40002].
Proof. unfold order_of. vm_compute. apply Permutation_refl. Qed.

Lemma demo_create p o : demo_os 950 !! p = Some o -> may_create 1234 (o_flags (q_obj o)) = true.
Proof. by intros ->%demo_objs. Qed.

Lemma queue_survives_restart_witness : exists os1 k1 os3 k3 id' q',
  event_precheckpoint demo_real [40001; 40002] [40002; 40001] [40001; 40002] (demo_os 950, demo_host) = Ok tt (os1, k1) /\
  event_restart (fun p => p) [40001; 40002] [40001; 40002] [40001; 40002] (os1, demo_new_host) = Ok tt (os3, k3) /\
  h_ipcIds k3 !! 40000 = Some id' /\ k_msqs k3 !! id' = Some q' /\ kq_msgs q' = kq_msgs demo_queue.
Proof.
  destruct (queue_survives_restart demo_real (fun p => p) (demo_os 950) demo_host 7 40000 1234 demo_queue
    [40001; 40002] [40002; 40001] [40001; 40002] [40001; 40002] [40001; 40002] [40001; 40002] demo_new_host
    (demo_shared 950) demo_create) as (os1 & k1 & os3 & k3 & id' & q' & E1 & _ & E3 & Hid & Hq & _ & Hm).
  - rewrite !Forall_cons, Forall_nil. repeat split; try apply demo_order. unfold order_of; etransitivity; [apply perm_swap|apply demo_order].
  - done.
  - done.
  - exists os1, k1, os3, k3, id', q'. exact (conj E1 (conj E3 (conj Hid (conj (eq_trans (f_equal (lookup id') Hq) (lookup_insert_eq _ _ _)) Hm)))).
Defined.

Lemma queue_lost_on_resume_witness : exists os1 k1,
  (event_precheckpoint demo_real [40001; 40002] [40001; 40002] [40001; 40002];; event_resume [40001; 40002])
    (demo_os 950, demo_host) = Ok tt (os1, k1) /\ kq_msgs <$> k_msqs k1 !! 7 = Some [].
Proof.
  apply (queue_lost_on_resume demo_real (demo_os 950) demo_host 7 40000 1234 demo_queue _ _ _ _ (demo_shared 950)).
  rewrite !Forall_cons, Forall_nil. repeat split; apply demo_order.
Defined.

Lemma queue_restart_without_creat_fails_witness : exists os1 k1 w,
  event_precheckpoint demo_real [40001; 40002] [40001; 40002] [40001; 40002] (demo_os 438, demo_host) = Ok tt (os1, k1) /\
  event_restart (fun p => p) [40001; 40002] [40001; 40002] [40001; 40002] (os1, demo_new_host) =
    Fault (AssertFailed "failed to recreate SysV msg queue after restart") w.
Proof.
  apply (queue_restart_without_creat_fails demo_real (fun p => p) (demo_os 438) demo_host 7 40000 1234 demo_queue
    _ _ _ _ _ _ demo_new_host 40002 (demo_obj 438) (demo_shared 438)); try done.
  rewrite !Forall_cons, Forall_nil. repeat split; apply demo_order.
Defined.

Lemma queue_stale_after_restart_witness : exists leader os3 k3,
  (event_precheckpoint demo_real [40001; 40002] [40001; 40002] [40001; 40002];; modify (fun w => (fst w, demo_new_host));;
   event_restart (fun p => p) [40001; 40002] [40001; 40002] [40001; 40002]) (demo_os 950, demo_host) = Ok tt (os3, k3) /\
  forall p o, os3 !! p = Some o -> isStale o k3 = bool_decide (p <> leader).
Proof.
  apply (queue_stale_after_restart demo_real (fun p => p) (demo_os 950) demo_host 7 40000 1234 demo_queue
    _ _ _ _ _ _ demo_new_host (demo_shared 950) demo_create); try done.
  rewrite !Forall_cons, Forall_nil. repeat split; apply demo_order.
Defined.
