(* ===== verification/Semaphores.v ===== *)
(** * System V semaphores across a checkpoint (src/plugin/svipc/sysvipc.cpp, class Semaphore)

    To elect the process that saves a semaphore set, every process raises and lowers
    semaphore 0, so that the kernel records one of them as the last one that operated on it.
    Whose call is last decides, so the election is interleaved call by call ([elect_run]); in the
    other phases only the elected process changes the set, or the processes only read it, or each
    leaves the values as they were, and they run one after the other.

    [semaphores_survive_restart] is the round trip of the values, [semaphore_undo_lost] shows
    that the adjustments that the kernel would make when a process ends are not restored. *)

From Stdlib Require Import ZArith Lia.
From stdpp Require Import base gmap strings numbers list.
From S2P Require Import Prelude SysVObjs.
Open Scope Z_scope.

Record Semaphore : Type := mk_Semaphore { s_obj : SysVObj; s_nsems : nat; s_semval : list Z; s_semadj : list Z }.
#[export] Instance eta_Semaphore : Settable Semaphore :=
  {| eta_of s := mk_Semaphore (s_obj s) (s_nsems s) (s_semval s) (s_semadj s) |}.

(** ** The methods *)

(** [Semaphore::Semaphore]: a process that only knows the identifier passes key -1 and asks the kernel. *)
Definition Semaphore_new (semid realSemid key : Z) (nsems : nat) (semflg : Z) (k : Host) : option Semaphore :=
  if key =? -1 then
    buf ← k_sems k !! realSemid;
    let n := length (ks_vals buf) in
    Some (mk_Semaphore (mk_SysVObj semid realSemid (ks_key buf) (ks_mode buf) false) n (replicate n 0) (replicate n 0))
  else Some (mk_Semaphore (mk_SysVObj semid realSemid key semflg false) nsems (replicate nsems 0) (replicate nsems 0)).

(** [on_semop]: the operations of a call that succeeded, with or without SEM_UNDO. *)
Definition on_semop (sops : list (nat * Z)) : M Semaphore unit :=
  forM sops (fun '(num, op) =>
    adj ← gets s_semadj;
    a ← optM (OutOfBounds "_semadj") (adj !! num);
    modify (fun s => s <| s_semadj := <[num := a - op]> adj |>)).

Definition isStale (o : Semaphore) (k : Host) : bool := bool_decide (k_sems k !! o_realId (s_obj o) = None).

Definition resetOnFork : M Semaphore unit := modify (fun s => s <| s_semadj := replicate (s_nsems s) 0 |>).

Definition set_leader (b : bool) (o : Semaphore) : Semaphore := o <| s_obj := (s_obj o) <| o_isCkptLeader := b |> |>.
Definition set_realId (real : Z) (o : Semaphore) : Semaphore := o <| s_obj := (s_obj o) <| o_realId := real |> |>.

Section methods.
Context (real : Z -> Z).

(** [leaderElection] up to the first call, and the rest. *)
Definition elect_raise (vpid : Z) : M (Semaphore * Host) bool :=
  id ← self (fun o => o_realId (s_obj o));
  assertM (negb (id =? -1)) "SysV sem has no real id during leader election";;
  do_semop (real vpid) id 0 1 0.
Definition elect_lower (vpid : Z) : M (Semaphore * Host) unit :=
  id ← self (fun o => o_realId (s_obj o));
  r ← do_semop (real vpid) id 0 (-1) 0;
  assertM r "failed to undo SysV sem leader-election increment".
Definition leaderElection (vpid : Z) : M (Semaphore * Host) unit :=
  ret ← elect_raise vpid;
  whenM ret (elect_lower vpid).

Definition preCkptDrain (vpid : Z) : M (Semaphore * Host) unit :=
  set_self (set_leader false);;
  id ← self (fun o => o_realId (s_obj o));
  last ← sys (sem_getpid id);
  whenM (bool_decide (last = Some (real vpid))) (
    vals ← sys (sem_getall id);
    v ← optM (AssertFailed "failed to snapshot SysV sem values") vals;
    set_self (fun o => set_leader true (o <| s_semval := v |>))).

Definition postRestart (vpid : Z) : M (Semaphore * Host) unit :=
  o ← self id;
  whenM (o_isCkptLeader (s_obj o)) (
    r ← call "failed to recreate SysV sem after restart" (semget (o_key (s_obj o)) (s_nsems o) (o_flags (s_obj o)));
    set_self (set_realId r);;
    updateMapping (o_id (s_obj o)) r;;
    call_ "failed to restore SysV sem values" (sem_setall (real vpid) r (s_semval o))).

(** The body of the loop of [refill]. *)
Definition refill_one (pid realId : Z) (semadj : list Z) (i : nat) : M (Semaphore * Host) unit :=
  adj ← optM (OutOfBounds "_semadj") (semadj !! i);
  if adj =? 0 then mret tt
  else
    r1 ← do_semop pid realId i (Z.abs adj) (if 0 <? adj then 0 else SEM_UNDO);
    assertM r1 "failed to restore SysV sem adjustment";;
    r2 ← do_semop pid realId i (- Z.abs adj) (if adj <? 0 then SEM_UNDO else 0);
    assertM r2 "failed to rebalance SysV sem adjustment".

Definition refill (vpid : Z) : M (Semaphore * Host) unit :=
  vid ← self (fun o => o_id (s_obj o));
  realId ← virtualToRealId vid;
  set_self (set_realId realId);;
  assertM (negb (realId =? -1)) "SysV sem virtual id has no real mapping";;
  o ← self id;
  forM (seq 0 (s_nsems o)) (refill_one (real vpid) realId (s_semadj o)).

(** [preCheckpoint] and [preResume] are empty for semaphores. *)
Definition preCheckpoint (vpid : Z) : M (Semaphore * Host) unit := mret tt.
Definition preResume (vpid : Z) : M (Semaphore * Host) unit := mret tt.

(** ** The election, call by call *)

Inductive stage : Type := NotYet | Raised | Done.

(** The next call of process [vpid]; a process that has finished waits at the barrier. *)
Definition elect_step (os : gmap Z Semaphore) (vpid : Z) : M (gmap Z stage * Host) unit := fun '(st, k) =>
  match os !! vpid, st !! vpid with
  | Some o, Some NotYet =>
      match elect_raise vpid (o, k) with
      | Ok r (_, k') => Ok tt (<[vpid := if (r : bool) then Raised else Done]> st, k')
      | Exit c (_, k') => Exit c (st, k')
      | Fault f (_, k') => Fault f (st, k')
      end
  | Some o, Some Raised =>
      match elect_lower vpid (o, k) with
      | Ok _ (_, k') => Ok tt (<[vpid := Done]> st, k')
      | Exit c (_, k') => Exit c (st, k')
      | Fault f (_, k') => Fault f (st, k')
      end
  | _, _ => Ok tt (st, k)
  end.
Definition elect_run (os : gmap Z Semaphore) (sched : list Z) : M (gmap Z stage * Host) unit := forM sched (elect_step os).
Definition elect_start (os : gmap Z Semaphore) : gmap Z stage := (fun _ => NotYet) <$> os.

(** ** The events ([sysvipc_event_hook]) after the election *)

Definition event_drain (o2 o3 : list Z) : M (World Semaphore) unit := phase o2 preCkptDrain;; phase o3 preCheckpoint.
Definition event_restart (o1 o2 o3 : list Z) : M (World Semaphore) unit :=
  phase o1 postRestart;; phase o2 refill;; phase o3 preResume.
End methods.

(** ** The host with another state of one set *)

Definition put_set (id : Z) (s : KSem) (k : Host) : Host := k <| k_sems ::= <[id := s]> |>.

Lemma put_set_lookup id s k : k_sems (put_set id s k) !! id = Some s.
Proof. unfold put_set. rsimpl. by rewrite lookup_insert_eq. Qed.

Lemma put_set_same id s k : k_sems k !! id = Some s -> put_set id s k = k.
Proof. intros H. destruct k. unfold put_set, set_field. cbn in *. by rewrite insert_id. Qed.

Lemma put_set_twice id s s' k : put_set id s' (put_set id s k) = put_set id s' k.
Proof. destruct k. unfold put_set, set_field. cbn. by rewrite insert_insert_eq. Qed.

(** The set after an operation that succeeded. *)
Definition after_op (pid : Z) (num : nat) (v op flg : Z) (s : KSem) : KSem :=
  mk_KSem (ks_key s) (ks_mode s) (<[num := v + op]> (ks_vals s)) (<[num := pid]> (ks_pids s))
    (if has_flag flg SEM_UNDO then <[(pid, num) := default 0 (ks_adj s !! (pid, num)) - op]> (ks_adj s) else ks_adj s).

Lemma do_semop_ok {O} pid id num v op flg s k (o : O) : ks_vals s !! num = Some v -> 0 <= v + op <= SEMVMX ->
  do_semop pid id num op flg (o, put_set id s k) = Ok true (o, put_set id (after_op pid num v op flg s) k).
Proof.
  intros Hv Hr. unfold do_semop, semop. cbn [snd fst]. rewrite put_set_lookup, Hv.
  destruct (Z.ltb_spec SEMVMX (v + op)); [lia|]. destruct (Z.ltb_spec (v + op) 0); [lia|].
  do 2 f_equal. apply put_set_twice.
Qed.

(** ** The election *)

(** The processes with objects [os] share the set [id] (virtual identifier [vid]) of the host [k], and semaphore
    0 is not close to its maximum. *)
Definition set_shared (real : Z -> Z) (os : gmap Z Semaphore) (k : Host) (id vid key : Z) (s : KSem) : Prop :=
  k_sems k !! id = Some s /\ id <> -1 /\ os <> ∅ /\
  (forall p o, os !! p = Some o -> o_realId (s_obj o) = id /\ o_id (s_obj o) = vid /\ o_key (s_obj o) = key /\
     s_nsems o = length (ks_vals s) /\ length (s_semadj o) = s_nsems o) /\
  (forall p p', p ∈ dom os -> p' ∈ dom os -> real p = real p' -> p = p') /\
  (exists v0, ks_vals s !! 0%nat = Some v0 /\ 0 <= v0 /\ v0 + Z.of_nat (size os) <= SEMVMX) /\
  length (ks_pids s) = length (ks_vals s).

(** Every process gets to make its two calls. *)
Definition calls (p : Z) (sched : list Z) : nat := cnt (fun x => x =? p) sched.
Definition fair (os : gmap Z Semaphore) (sched : list Z) : Prop := forall p, p ∈ dom os -> (2 <= calls p sched)%nat.

Section election.
Context (real : Z -> Z) (os : gmap Z Semaphore) (k : Host) (id vid key : Z) (s : KSem).
Hypothesis Hshared : set_shared real os k id vid key s.

Definition stage_of (n : nat) : stage := match n with O => NotYet | 1%nat => Raised | _ => Done end.
(** The processes that have raised the semaphore and not lowered it. *)
Definition raised (before : list Z) : gset Z := filter (fun p => calls p before = 1%nat) (dom os).

(** The state of the election after the calls [before]. *)
Definition elect_inv (before : list Z) (w : gmap Z stage * Host) : Prop :=
  exists s1 v0, snd w = put_set id s1 k /\ ks_vals s !! 0%nat = Some v0 /\
    ks_vals s1 = <[0%nat := v0 + Z.of_nat (size (raised before))]> (ks_vals s) /\
    length (ks_pids s1) = length (ks_vals s) /\
    dom (fst w) = dom os /\ (forall p, p ∈ dom os -> fst w !! p = Some (stage_of (calls p before))) /\
    ((exists p, p ∈ dom os /\ ks_pids s1 !! 0%nat = Some (real p)) \/ forall p, p ∈ dom os -> calls p before = 0%nat).

Lemma calls_snoc p before x : calls p (before ++ [x]) = (calls p before + Nat.b2n (x =? p)%Z)%nat.
Proof. unfold calls. rewrite cnt_app, cnt_cons, cnt_nil. lia. Qed.

Lemma raised_le before : (size (raised before) <= size os)%nat.
Proof. rewrite <- size_dom. apply subseteq_size. unfold raised. set_solver. Qed.

Lemma raised_up before p : p ∈ dom os -> calls p before = 0%nat -> size (raised (before ++ [p])) = S (size (raised before)).
Proof.
  intros Hp Hc. assert (E : raised (before ++ [p]) = {[p]} ∪ raised before).
  { apply set_eq. intros x. unfold raised. rewrite elem_of_union, elem_of_singleton, !elem_of_filter, calls_snoc.
    destruct (Z.eqb_spec p x) as [->|Hne]; cbn; [rewrite Hc; naive_solver lia|rewrite Nat.add_0_r; naive_solver]. }
  rewrite E, size_union; [by rewrite size_singleton|]. unfold raised. set_unfold. intros x -> [? _]. congruence.
Qed.

Lemma raised_down before p : p ∈ dom os -> calls p before = 1%nat -> size (raised before) = S (size (raised (before ++ [p]))).
Proof.
  intros Hp Hc. assert (E : raised before = {[p]} ∪ raised (before ++ [p])).
  { apply set_eq. intros x. unfold raised. rewrite elem_of_union, elem_of_singleton, !elem_of_filter, calls_snoc.
    destruct (Z.eqb_spec p x) as [->|Hne]; cbn; [rewrite Hc; naive_solver lia|rewrite Nat.add_0_r; naive_solver]. }
  rewrite E at 1. rewrite size_union; [by rewrite size_singleton|]. unfold raised. set_unfold. intros x -> [H _].
  rewrite calls_snoc, Z.eqb_refl, Hc in H. cbn in H. lia.
Qed.

Lemma raised_other before p : calls p before <> 0%nat -> calls p before <> 1%nat -> raised (before ++ [p]) = raised before.
Proof.
  intros H0 H1. apply set_eq. intros x. unfold raised. rewrite !elem_of_filter, calls_snoc.
  destruct (Z.eqb_spec p x) as [->|Hne]; cbn; [naive_solver lia|by rewrite Nat.add_0_r].
Qed.

Lemma raised_foreign before p : p ∉ dom os -> raised (before ++ [p]) = raised before.
Proof.
  intros H0. apply set_eq. intros x. unfold raised. rewrite !elem_of_filter, calls_snoc.
  destruct (Z.eqb_spec p x) as [->|Hne]; cbn; [naive_solver|by rewrite Nat.add_0_r].
Qed.

(** One call. *)
Lemma elect_step_inv before p w : elect_inv before w ->
  exists w', elect_step real os p w = Ok tt w' /\ elect_inv (before ++ [p]) w'.
Proof.
  destruct Hshared as (Hs & Hid & _ & Hos & _ & (v0 & Hv0 & Hge & Hmax) & Hlen).
  destruct w as [st k1]. intros (s1 & v0' & Ek & Hv0' & Hv & Hl & Hdom & Hst & Hpid). cbn [fst snd] in *. subst k1.
  assert (v0' = v0) as -> by congruence. clear Hv0'.
  assert (Hv1 : ks_vals s1 !! 0%nat = Some (v0 + Z.of_nat (size (raised before)))).
  { rewrite Hv. apply list_lookup_insert_eq. by apply lookup_lt_Some in Hv0. }
  assert (H0 : (0 < length (ks_vals s))%nat) by by apply lookup_lt_Some in Hv0.
  assert (Hext : forall st' s', ks_vals s' = <[0%nat := v0 + Z.of_nat (size (raised (before ++ [p])))]> (ks_vals s) ->
    ks_pids s' = <[0%nat := real p]> (ks_pids s1) -> p ∈ dom os -> st' = <[p := stage_of (S (calls p before))]> st ->
    elect_inv (before ++ [p]) (st', put_set id s' k)).
  { intros st' s' Hv' Hp' Hp ->. exists s', v0. cbn [fst snd]. split; [done|]. split; [done|]. split; [done|].
    split; [by rewrite Hp', length_insert|]. split; [rewrite dom_insert_L; set_solver|]. split.
    - intros x Hx. rewrite calls_snoc. destruct (Z.eqb_spec p x) as [->|Hne]; cbn.
      + rewrite lookup_insert_eq. f_equal. rewrite Nat.add_1_r. done.
      + rewrite lookup_insert_ne by done. rewrite Hst by done. by rewrite Nat.add_0_r.
    - left. exists p. split; [done|]. rewrite Hp'. apply list_lookup_insert_eq. lia. }
  unfold elect_step. destruct (os !! p) as [o|] eqn:Ho.
  2:{ exists (st, put_set id s1 k). split; [done|]. apply not_elem_of_dom in Ho.
      exists s1, v0. cbn [fst snd]. rewrite raised_foreign by done. do 5 (split; [done|]). split.
      - intros x Hx. rewrite calls_snoc, (proj2 (Z.eqb_neq p x)) by (by intros ->). cbn. by rewrite Nat.add_0_r, Hst.
      - destruct Hpid as [?|Hz]; [by left|right]. intros x Hx. rewrite calls_snoc, (proj2 (Z.eqb_neq p x)) by (by intros ->).
        cbn. by rewrite Nat.add_0_r, Hz. }
  assert (Hp : p ∈ dom os) by (apply elem_of_dom; eauto).
  destruct (Hos p o Ho) as (Hreal & _). rewrite (Hst p Hp).
  destruct (calls p before) as [|[|n]] eqn:Ec; cbn [stage_of].
  - pose proof (raised_up before p Hp Ec) as Hup. pose proof (raised_le (before ++ [p])) as Hle.
    unfold elect_raise. erewrite bind_ok by reflexivity. cbn [fst]. rewrite Hreal.
    erewrite bind_ok by (by rewrite (proj2 (Z.eqb_neq id (-1))) by done).
    rewrite (do_semop_ok _ _ _ _ 1 0 s1 k o Hv1) by lia.
    eexists. split; [done|]. apply Hext; [|done|done|done].
    cbn [after_op ks_vals]. rewrite Hv, list_insert_insert_eq. f_equal. lia.
  - pose proof (raised_down before p Hp Ec) as Hdn.
    unfold elect_lower. erewrite bind_ok by reflexivity. cbn [fst]. rewrite Hreal.
    erewrite bind_ok by (apply (do_semop_ok _ _ _ _ (-1) 0 s1 k o Hv1); pose proof (raised_le before); lia).
    eexists. split; [done|]. apply Hext; [|done|done|done].
    cbn [after_op ks_vals]. rewrite Hv, list_insert_insert_eq. f_equal. lia.
  - exists (st, put_set id s1 k). split; [done|]. exists s1, v0. cbn [fst snd]. rewrite raised_other by lia.
    do 5 (split; [done|]). split.
    + intros x Hx. rewrite calls_snoc, Hst by done. destruct (Z.eqb_spec p x) as [->|Hne]; cbn; [rewrite Ec|by rewrite Nat.add_0_r].
      by rewrite Nat.add_1_r.
    + destruct Hpid as [?|Hz]; [by left|]. rewrite Hz in Ec by done. done.
Qed.

(** However the calls are interleaved, all processes finish, the values are the ones before and one of the
    processes is the one that operated last. *)
Lemma elect_correct sched : fair os sched ->
  exists st s1 leader, elect_run real os sched (elect_start os, k) = Ok tt (st, put_set id s1 k) /\
    (forall p, p ∈ dom os -> st !! p = Some Done) /\ ks_vals s1 = ks_vals s /\
    leader ∈ dom os /\ ks_pids s1 !! 0%nat = Some (real leader).
Proof.
  intros Hfair.
  assert (Hrun : forall later before w, elect_inv before w ->
    exists w', elect_run real os later w = Ok tt w' /\ elect_inv (before ++ later) w').
  { induction later as [|p later IH]; intros before w Hw; [exists w; by rewrite app_nil_r|].
    destruct (elect_step_inv before p w Hw) as (w1 & E1 & H1). destruct (IH _ _ H1) as (w2 & E2 & H2).
    exists w2. split; [|by rewrite <- app_assoc in H2]. unfold elect_run. cbn [forM]. by erewrite bind_ok by exact E1. }
  destruct Hshared as (Hs & _ & Hne & _ & _ & (v0 & Hv0 & _) & Hlen).
  destruct (Hrun sched [] (elect_start os, k)) as ([st k'] & E & (s1 & v0' & Ek & Hv0' & Hv & _ & _ & Hst & Hpid)).
  { exists s, v0. cbn [fst snd]. split; [by rewrite put_set_same|]. split; [done|]. split.
    - replace (raised []) with (∅ : gset Z); [rewrite size_empty, Z.add_0_r; by rewrite list_insert_id|].
      symmetry. apply set_eq. intros x. unfold raised. rewrite elem_of_filter. unfold calls. rewrite cnt_nil. set_solver.
    - split; [done|]. unfold elect_start. split; [by rewrite dom_fmap_L|]. split; [|by right].
      intros p [o Ho]%elem_of_dom. by rewrite lookup_fmap, Ho. }
  cbn [fst snd app] in *. assert (v0' = v0) as -> by congruence.
  assert (Hr : raised sched = ∅).
  { apply set_eq. intros x. unfold raised. rewrite elem_of_filter. split; [|set_solver]. intros [H1 Hx].
    specialize (Hfair x Hx). lia. }
  destruct Hpid as [(leader & Hl & Hp)|Hz].
  - exists st, s1, leader. subst k'. split; [done|]. split; [|split; [|done]].
    + intros p Hp'. rewrite Hst by done. specialize (Hfair p Hp'). by destruct (calls p sched) as [|[|n]]; try lia.
    + rewrite Hv, Hr, size_empty, Z.add_0_r. by apply list_insert_id.
  - exfalso. apply Hne. apply dom_empty_inv_L. apply set_eq. intros p. split; [|set_solver]. intros Hp.
    specialize (Hfair p Hp). rewrite Hz in Hfair by done. lia.
Qed.
End election.

(** ** The rest of a checkpoint *)

(** The object of process [p] in its image. *)
Definition image (vals : list Z) (leader p : Z) (o : Semaphore) : Semaphore :=
  mk_Semaphore ((s_obj o) <| o_isCkptLeader := bool_decide (p = leader) |>) (s_nsems o)
    (if decide (p = leader) then vals else s_semval o) (s_semadj o).

Lemma sem_drain_run real os k id vid key s leader (s1 : KSem) o2 o3 (k1 := put_set id s1 k) :
  set_shared real os k id vid key s -> ks_vals s1 = ks_vals s ->
  leader ∈ dom os -> ks_pids s1 !! 0%nat = Some (real leader) -> order_of os o2 -> order_of os o3 ->
  event_drain real o2 o3 (os, k1) = Ok tt (each (image (ks_vals s) leader) os, k1).
Proof.
  intros (_ & _ & _ & Hos & Hinj & _) Hv Hl Hp Ho2 Ho3. unfold event_drain.
  assert (E : phase o2 (preCkptDrain real) (os, k1) = Ok tt (each (image (ks_vals s) leader) os, k1)).
  { apply phase_same; [done|]. intros p o Ho. destruct (Hos p o Ho) as (Hid & _).
    unfold preCkptDrain, mbind, M_bind, set_self, modify, self, sys, gets. cbn [fst snd].
    change (o_realId (s_obj (set_leader false o))) with (o_realId (s_obj o)).
    rewrite Hid. unfold sem_getpid, sem_getall, k1. rewrite put_set_lookup. cbn [mbind option_bind].
    rewrite Hp. unfold image. destruct (decide (p = leader)) as [->|Hne].
    - rewrite !bool_decide_true by done. cbn [whenM snd]. rewrite put_set_lookup.
      change (ks_vals <$> Some s1) with (Some (ks_vals s1)). by rewrite Hv.
    - rewrite !bool_decide_false; [by destruct o| |]; [done|]. intros [= He]. apply Hne. symmetry. apply Hinj; [done| |done].
      apply elem_of_dom; eauto. }
  erewrite bind_ok by exact E. rewrite <- each_id at 2. by apply phase_same; [apply order_of_each|].
Qed.

(** ** A restart *)

Lemma semget_new key n flags k : k_semKeys k !! key = None -> may_create key flags = true ->
  exists k', semget key n flags k = Some (k_nextId k, k') /\
    k_sems k' = <[k_nextId k := mk_KSem key (mode_of flags) (replicate n 0) (replicate n 0) ∅]> (k_sems k) /\ h_ipcIds k' = h_ipcIds k.
Proof.
  intros Hk Hf. unfold semget. rewrite find_or_create_new, Hf by done.
  eexists. split; [reflexivity|]. done.
Qed.

(** What [refill] leaves as it is: the key and the values; and that no process has an adjustment. *)
Definition refilled (key : Z) (vals : list Z) (s : KSem) : Prop :=
  ks_key s = key /\ ks_vals s = vals /\ forall x, default 0 (ks_adj s !! x) = 0.

Lemma refill_one_run pid id key vals adj i s k (o : Semaphore) v a :
  refilled key vals s -> vals !! i = Some v -> adj !! i = Some a -> 0 <= v -> v + Z.abs a <= SEMVMX ->
  exists s', refill_one pid id adj i (o, put_set id s k) = Ok tt (o, put_set id s' k) /\ refilled key vals s'.
Proof.
  intros (Hk & Hv & Hadj) Hi Ha Hge Hmax. unfold refill_one. rewrite Ha.
  erewrite bind_ok by reflexivity. destruct (Z.eqb_spec a 0) as [->|Hne]; [by exists s|].
  set (f1 := if 0 <? a then 0 else SEM_UNDO). set (f2 := if a <? 0 then SEM_UNDO else 0).
  assert (Hf : has_flag f1 SEM_UNDO = has_flag f2 SEM_UNDO).
  { unfold f1, f2. destruct (Z.ltb_spec 0 a), (Z.ltb_spec a 0); (reflexivity || lia). }
  assert (Hlt : (i < length vals)%nat) by by apply lookup_lt_Some in Hi.
  set (s1 := after_op pid i v (Z.abs a) f1 s).
  assert (Hv1 : ks_vals s1 !! i = Some (v + Z.abs a)).
  { unfold s1, after_op. cbn [ks_vals]. rewrite Hv. by apply list_lookup_insert_eq. }
  erewrite bind_ok by (apply (do_semop_ok pid id i v (Z.abs a) f1 s k o); [by rewrite Hv|lia]).
  erewrite bind_ok by reflexivity.
  erewrite bind_ok by (apply (do_semop_ok pid id i (v + Z.abs a) (- Z.abs a) f2 s1 k o Hv1); lia).
  eexists. split; [reflexivity|]. split; [done|]. split.
  - unfold s1, after_op. cbn [ks_vals]. rewrite list_insert_insert_eq, Hv. apply list_insert_id. rewrite Hi. f_equal. lia.
  - intros x. unfold s1, after_op. cbn [ks_adj]. rewrite Hf. destruct (has_flag f2 SEM_UNDO); [|apply Hadj].
    rewrite lookup_insert_eq. destruct (decide (x = (pid, i))) as [->|Hx].
    + rewrite lookup_insert_eq. cbn. rewrite Hadj. lia.
    + rewrite !lookup_insert_ne by done. apply Hadj.
Qed.

Lemma sem_refill_loop_run pid id key vals adj k (o : Semaphore) :
  length adj = length vals -> (forall i v a, vals !! i = Some v -> adj !! i = Some a -> 0 <= v /\ v + Z.abs a <= SEMVMX) ->
  forall n i s, (i + n)%nat = length vals -> refilled key vals s ->
  exists s', forM (seq i n) (refill_one pid id adj) (o, put_set id s k) = Ok tt (o, put_set id s' k) /\ refilled key vals s'.
Proof.
  intros Hl Hb n. induction n as [|n IH]; intros i s Hn Hs; [by exists s|].
  destruct (lookup_lt_is_Some_2 vals i) as [v Hv]; [lia|]. destruct (lookup_lt_is_Some_2 adj i) as [a Ha]; [lia|].
  destruct (Hb i v a Hv Ha) as [Hge Hmax].
  destruct (refill_one_run pid id key vals adj i s k o v a Hs Hv Ha Hge Hmax) as (s1 & E1 & H1).
  destruct (IH (S i) s1) as (s2 & E2 & H2); [lia|done|].
  exists s2. split; [|done]. cbn [seq forM]. by erewrite bind_ok by exact E1.
Qed.

(** The new host after a restart: one new set, with the values of the image; every object refers to it. *)
Lemma sem_restart_run real2 (os : gmap Z Semaphore) (k2 : Host) (vid key leader : Z) (vals : list Z) r1 r2 r3
    (os1 := each (image vals leader) os) :
  leader ∈ dom os -> order_of os r1 -> order_of os r2 -> order_of os r3 ->
  (forall p o, os !! p = Some o -> o_id (s_obj o) = vid /\ o_key (s_obj o) = key /\ may_create key (o_flags (s_obj o)) = true /\
     s_nsems o = length vals /\ length (s_semadj o) = s_nsems o /\
     forall i v a, vals !! i = Some v -> s_semadj o !! i = Some a -> 0 <= v /\ v + Z.abs a <= SEMVMX) ->
  k_semKeys k2 !! key = None -> k_nextId k2 <> -1 ->
  exists k3 s3 os3, event_restart real2 r1 r2 r3 (os1, k2) = Ok tt (os3, k3) /\
    h_ipcIds k3 !! vid = Some (k_nextId k2) /\ refilled key vals s3 /\
    k_sems k3 = <[k_nextId k2 := s3]> (k_sems k2) /\
    (forall p, is_Some (os !! p) -> exists o, os3 !! p = Some o /\ o_realId (s_obj o) = k_nextId k2).
Proof.
  intros Hl Ho1 Ho2 Ho3 Hos Hkey Hnext. apply elem_of_dom in Hl as [lo Hlo].
  destruct (Hos _ _ Hlo) as (Hvid & Hlk & Hc & Hns & _).
  destruct (semget_new key (s_nsems lo) (o_flags (s_obj lo)) k2 Hkey Hc) as (kg & Eg & Hsems & Hids).
  set (r := k_nextId k2) in *.
  set (s0 := mk_KSem key (mode_of (o_flags (s_obj lo))) vals (replicate (length vals) (real2 leader)) ∅).
  set (kg2 := kg <| h_ipcIds ::= <[vid := r]> |>). set (kp := put_set r s0 kg2).
  assert (E1 : phase r1 (postRestart real2) (os1, k2) =
    Ok tt (each (fun p o => if decide (p = leader) then set_realId r o else o) os1, kp)).
  { apply (phase_leader (postRestart real2) leader (set_realId r) (fun _ o => o));
      [by apply order_of_each|unfold os1; rewrite each_dom; apply elem_of_dom; eauto| |].
    - intros o. unfold os1. rewrite each_lookup, Hlo. intros [= <-].
      unfold postRestart, mbind, M_bind, self, gets, Datatypes.id, image. cbn [fst s_obj s_nsems s_semval]. rsimpl.
      rewrite bool_decide_true, decide_True by done. cbn [whenM]. unfold call at 1. cbn [snd]. rewrite Hlk, Eg.
      unfold set_self, updateMapping, modify. cbn [fst snd]. rewrite Hvid.
      fold kg2. unfold call_, call, sem_setall. cbn [fst snd].
      replace (k_sems kg2) with (k_sems kg) by done. rewrite Hsems, lookup_insert_eq. cbn [mbind option_bind ks_vals].
      rewrite length_replicate, <- Hns, Nat.eqb_refl. cbn. do 3 f_equal. unfold kp, put_set, s0. by rewrite Hns.
    - intros p o k' Hne. unfold os1. rewrite each_lookup. intros (o0 & E0 & ->)%fmap_Some _.
      unfold postRestart, mbind, M_bind, self, gets, Datatypes.id, image. cbn [fst s_obj]. rsimpl.
      by rewrite bool_decide_false. }
  set (os2 := each _ os1) in E1.
  destruct (phase_rule (refill real2) (fun _ => set_realId r)
    (fun _ k' => exists s', k' = put_set r s' kg2 /\ refilled key vals s') os2 r2 kp) as (k3 & E2 & s3 & -> & Hs3).
  { unfold os2, os1. by rewrite !order_of_each. }
  { intros before p after o k' _ Hp (s' & -> & Hs'). unfold os2, os1 in Hp. rewrite !each_lookup in Hp.
    destruct (os !! p) as [o0|] eqn:E0; [|done]. destruct (Hos p o0 E0) as (Hvp & _ & _ & Hnp & Hap & Hbp).
    cbn in Hp. injection Hp as <-. set (o := if decide (p = leader) then _ else _).
    assert (Hf : o_id (s_obj o) = vid /\ s_nsems o = length vals /\ s_semadj o = s_semadj o0).
    { unfold o, set_realId, image. destruct (decide (p = leader)); done. }
    destruct Hf as (Hf1 & Hf2 & Hf3).
    destruct (sem_refill_loop_run (real2 p) r key vals (s_semadj o0) kg2 (set_realId r o)) with (n := length vals) (i := 0%nat) (s := s')
      as (s'' & E & Hs''); [lia|done|lia|done|].
    exists (put_set r s'' kg2). split; [|eauto].
    unfold refill. erewrite bind_ok by reflexivity. cbn [fst]. rewrite Hf1.
    erewrite bind_ok by reflexivity. cbn [snd].
    replace (h_ipcIds (put_set r s' kg2) !! vid) with (Some r).
    2:{ unfold put_set, kg2. rsimpl. by rewrite lookup_insert_eq. }
    cbn [default from_option]. erewrite bind_ok by reflexivity. cbn [fst snd].
    erewrite bind_ok by (by rewrite (proj2 (Z.eqb_neq _ _)) by exact Hnext). erewrite bind_ok by reflexivity. cbn [fst].
    unfold Datatypes.id. change (s_nsems (set_realId r o)) with (s_nsems o). change (s_semadj (set_realId r o)) with (s_semadj o).
    rewrite Hf2, Hf3. exact E. }
  { exists s0. split; [done|]. split; [done|]. split; [done|]. intros x. unfold s0. cbn [ks_adj]. by rewrite lookup_empty. }
  eexists _, s3, _. split.
  { unfold event_restart. erewrite bind_ok by exact E1. erewrite bind_ok by exact E2.
    apply (phase_same preResume (fun _ o => o)); [by unfold os2, os1; rewrite !order_of_each|done]. }
  split; [unfold put_set, kg2; rsimpl; by rewrite lookup_insert_eq|]. split; [done|].
  split; [unfold put_set, kg2; rsimpl; by rewrite Hsems, insert_insert_eq|].
  intros p [o Ho]. unfold os2, os1. rewrite !each_lookup, Ho. cbn. eexists. split; [done|]. done.
Qed.

(** ** What a checkpoint and a restart do to the set *)

(** The objects can create the set again, and the recorded adjustments fit. *)
Definition restorable (os : gmap Z Semaphore) (key : Z) (vals : list Z) : Prop := forall p o, os !! p = Some o ->
  may_create key (o_flags (s_obj o)) = true /\
  forall i v a, vals !! i = Some v -> s_semadj o !! i = Some a -> 0 <= v /\ v + Z.abs a <= SEMVMX.

Lemma checkpoint_restart_run real real2 os k id vid key s sched c2 c3 r1 r2 r3 k2 :
  set_shared real os k id vid key s -> restorable os key (ks_vals s) -> fair os sched ->
  Forall (order_of os) [c2; c3; r1; r2; r3] ->
  k_semKeys k2 !! key = None -> k_nextId k2 <> -1 ->
  exists st s1 leader os3 k3 s3, let os1 := each (image (ks_vals s) leader) os in
    elect_run real os sched (elect_start os, k) = Ok tt (st, put_set id s1 k) /\ ks_vals s1 = ks_vals s /\ leader ∈ dom os /\
    event_drain real c2 c3 (os, put_set id s1 k) = Ok tt (os1, put_set id s1 k) /\
    event_restart real2 r1 r2 r3 (os1, k2) = Ok tt (os3, k3) /\
    h_ipcIds k3 !! vid = Some (k_nextId k2) /\ refilled key (ks_vals s) s3 /\ k_sems k3 = <[k_nextId k2 := s3]> (k_sems k2) /\
    (forall p, is_Some (os !! p) -> exists o, os3 !! p = Some o /\ o_realId (s_obj o) = k_nextId k2).
Proof.
  intros Hs Hr Hf HF Hk Hnext. rewrite !Forall_cons in HF. destruct HF as (H2 & H3 & R1 & R2 & R3 & _).
  destruct (elect_correct _ _ _ _ _ _ _ Hs sched Hf) as (st & s1 & leader & E1 & _ & Hv & Hl & Hp).
  pose proof (sem_drain_run _ _ _ _ _ _ _ leader s1 c2 c3 Hs Hv Hl Hp H2 H3) as E2.
  destruct (sem_restart_run real2 os k2 vid key leader (ks_vals s) r1 r2 r3) as (k3 & s3 & os3 & E3 & Hrest); [done..| |done|done|].
  { intros p o Ho. destruct Hs as (_ & _ & _ & Hos & _). destruct (Hos p o Ho) as (_ & ? & ? & ? & ?).
    destruct (Hr p o Ho) as [? ?]. done. }
  by exists st, s1, leader, os3, k3, s3.
Qed.


(** The adjustments with which the kernel undoes the operations of a process that ends are lost: whatever
    the objects recorded, after the restart the kernel has none for any process, since the two calls with which
    [refill] means to set one are both made with SEM_UNDO or both without. *)
Theorem semaphore_undo_lost real real2 os k id vid key s sched c2 c3 r1 r2 r3 k2 :
  set_shared real os k id vid key s -> restorable os key (ks_vals s) -> fair os sched ->
  Forall (order_of os) [c2; c3; r1; r2; r3] ->
  k_semKeys k2 !! key = None -> k_nextId k2 <> -1 ->
  exists st k1 os1 os3 k3 s',
    elect_run real os sched (elect_start os, k) = Ok tt (st, k1) /\
    event_drain real c2 c3 (os, k1) = Ok tt (os1, k1) /\
    event_restart real2 r1 r2 r3 (os1, k2) = Ok tt (os3, k3) /\
    forall p o i, os !! p = Some o -> os3 !! p ≫= (fun o3 => k_sems k3 !! o_realId (s_obj o3)) = Some s' /\
      s_semadj <$> os1 !! p = Some (s_semadj o) /\ default 0 (ks_adj s' !! (real2 p, i)) = 0.
Proof.
  intros Hs Hr Hf HF Hk Hnext.
  destruct (checkpoint_restart_run real real2 _ _ _ _ _ _ sched c2 c3 r1 r2 r3 k2 Hs Hr Hf HF Hk Hnext)
    as (st & s1 & leader & os3 & k3 & s3 & E1 & Hv & Hl & E2 & E3 & Hid & (_ & _ & Hadj) & Hset & Hreal).
  eexists st, _, _, os3, k3, s3. split; [exact E1|]. split; [exact E2|]. split; [exact E3|].
  intros p o i Ho. destruct (Hreal p) as (o3 & Ho3 & Hr3); [eauto|].
  split; [by rewrite Ho3; cbn; rewrite Hr3, Hset, lookup_insert_eq|].
  split; [by rewrite each_lookup, Ho|apply Hadj].
Qed.

(** *** An instance: two processes, a set of two semaphores, one of them held with an adjustment recorded *)

Definition demo_obj (adj : Z) : Semaphore := mk_Semaphore (mk_SysVObj 40000 7 1234 950 false) 2 [0; 0] [adj; 0].
Definition demo_os : gmap Z Semaphore := {[ 40001 := demo_obj 1; 40002 := demo_obj 0 ]}.
Definition demo_set : KSem := mk_KSem 1234 438 [0; 5] [1001; 0] {[ (1001, 0%nat) := 1 ]}.
Definition demo_host : Host := mk_Host {[ 7 := demo_set ]} {[ 1234 := 7 ]} ∅ ∅ 8 16384 {[ 40000 := 7 ]}.
Definition demo_new_host : Host := mk_Host ∅ ∅ ∅ ∅ 3 16384 ∅.
Definition demo_real (vpid : Z) : Z := vpid - 39000.

Lemma sem_demo_objs p o : demo_os !! p = Some o -> o = demo_obj 1 \/ o = demo_obj 0.
Proof. unfold demo_os. intros [[_ <-]|[_ [_ <-]%lookup_singleton_Some]]%lookup_insert_Some; tauto. Qed.

Lemma sem_demo_shared : set_shared demo_real demo_os demo_host 7 40000 1234 demo_set.
Proof.
  split; [done|]. split; [done|]. split; [done|]. split; [by intros p o [->| ->]%sem_demo_objs|].
  split; [intros p p' _ _; unfold demo_real; lia|]. split; [by exists 0|done].
Qed.

Lemma demo_restorable : restorable demo_os 1234 (ks_vals demo_set).
Proof.
  intros p o Ho. apply sem_demo_objs in Ho. split; [by destruct Ho as [->| ->]|].
  intros [|[|i]] v a; destruct Ho as [->| ->]; cbn; intros [= <-] [= <-]; unfold SEMVMX; lia.
Qed.

Lemma demo_dom p : p ∈ dom demo_os -> p = 40001 \/ p = 40002.
Proof. unfold demo_os. rewrite dom_insert_L, dom_singleton_L. set_solver. Qed.

Lemma demo_fair : fair demo_os [40001; 40002; 40002; 40001].
Proof. intros p [->| ->]%demo_dom; vm_compute; lia. Qed.

Lemma demo_orders : Forall (order_of demo_os) (replicate 5 [40001; 40002]).
Proof. apply Forall_replicate. unfold order_of. vm_compute. apply Permutation_refl. Qed.


Lemma semaphore_undo_lost_witness : exists os1 k1 os3 k3 s',
  event_drain demo_real [40001; 40002] [40001; 40002] (demo_os, k1) = Ok tt (os1, k1) /\
  event_restart (fun p => p) [40001; 40002] [40001; 40002] [40001; 40002] (os1, demo_new_host) = Ok tt (os3, k3) /\
  os3 !! 40001 ≫= (fun o3 => k_sems k3 !! o_realId (s_obj o3)) = Some s' /\
  s_semadj <$> os1 !! 40001 = Some [1; 0] /\ default 0 (ks_adj s' !! (40001, 0%nat)) = 0.
Proof.
  destruct (semaphore_undo_lost demo_real (fun p => p) demo_os demo_host 7 40000 1234 demo_set
    [40001; 40002; 40002; 40001] _ _ _ _ _ demo_new_host sem_demo_shared demo_restorable demo_fair demo_orders)
    as (st & k1 & os1 & os3 & k3 & s' & _ & E2 & E3 & Hadj); [done|done|].
  exists os1, k1, os3, k3, s'. exact (conj E2 (conj E3 (Hadj 40001 (demo_obj 1) 0%nat eq_refl))).
Defined.
