(* ===== verification/CoordPlugin.v ===== *)
(** * The coordinator's timers

    src/coordinatorplugin.h: the plugin interface of the coordinator and its
    three plugins (checkpoint interval, stale timeout, overall timeout).  The
    coordinator calls [tick] once per turn of its event loop and the other
    callbacks when clients come, go or resume. *)

From Stdlib Require Import ZArith Lia Ascii.
From stdpp Require Import base strings numbers list.
From S2P Require Import Prelude CText Identity Json Message.
Import Convert.
Open Scope Z_scope.

(** [ComputationStatus] (src/dmtcp_coordinator.h). *)
Record ComputationStatus : Type := mk_ComputationStatus {
  cs_minimumState : eWorkerState;
  cs_maximumState : eWorkerState;
  cs_minimumStateUnanimous : bool;
  cs_numPeers : Z;
  cs_sec : Z;       (* timestamp.tv_sec *)
  cs_nsec : Z
}.

(** The flags the constructors read, all [int]. *)
Record PluginFlags : Type := mk_PluginFlags { pf_interval : Z; pf_staleTimeout : Z; pf_timeout : Z }.

(** ** CkptIntervalManager *)

Record CkptIntervalManager : Type := mk_CkptIntervalManager {
  theCheckpointInterval : Z;          (* uint32_t *)
  theDefaultCheckpointInterval : Z;   (* uint32_t *)
  nextCkptTimeout : Z                 (* tv_sec; tv_nsec stays 0 *)
}.
#[export] Instance eta_CkptIntervalManager : Settable CkptIntervalManager :=
  {| eta_of m := mk_CkptIntervalManager (theCheckpointInterval m) (theDefaultCheckpointInterval m) (nextCkptTimeout m) |}.

Definition CkptIntervalManager_new (f : PluginFlags) : CkptIntervalManager :=
  if negb (pf_interval f =? 0)
  then mk_CkptIntervalManager (to_uint32 (pf_interval f)) (to_uint32 (pf_interval f)) 0
  else mk_CkptIntervalManager 0 0 0.

Definition resetCkptTimer (s : ComputationStatus) (m : CkptIntervalManager) : CkptIntervalManager :=
  if cs_numPeers s =? 0 then m <| nextCkptTimeout := 0 |>
  else if 0 <? theCheckpointInterval m then m <| nextCkptTimeout := cs_sec s + theCheckpointInterval m |>
  else m.

Definition updateCheckpointInterval (interval : Z) (s : ComputationStatus) (m : CkptIntervalManager)
    : CkptIntervalManager :=
  let m := if negb (interval =? -1) then m <| theCheckpointInterval := to_uint32 interval |> else m in
  resetCkptTimer s m.

(** [tick]; the flag is whether [queueCheckpoint] was called. *)
Definition ckpt_tick (s : ComputationStatus) (m : CkptIntervalManager) : CkptIntervalManager * bool :=
  if cs_numPeers s =? 0 then (m, false)
  else if negb (ws_eqb (cs_minimumState s) RUNNING) || negb (cs_minimumStateUnanimous s) then (m, false)
  else if negb (nextCkptTimeout m =? 0) && (nextCkptTimeout m <? cs_sec s)
  then (m <| nextCkptTimeout := 0 |>, true)
  else (m, false).

Definition ckpt_userCmd (msg : DmtcpMessage) (s : ComputationStatus) (m : CkptIntervalManager)
    : CkptIntervalManager :=
  if negb (bool_decide (msg_coordCmd msg = DMT_UPDATE_CKPT_INTERVAL)) then m
  else
    let m := m <| theDefaultCheckpointInterval := to_uint32 (msg_theCheckpointInterval msg) |> in
    let m := m <| theCheckpointInterval := theDefaultCheckpointInterval m |> in
    updateCheckpointInterval (to_int32 (theCheckpointInterval m)) s m.

Definition ckpt_clientConnected (clientState : eWorkerState) (msg : DmtcpMessage) (s : ComputationStatus)
    (m : CkptIntervalManager) : CkptIntervalManager :=
  let m := if negb (msg_theCheckpointInterval msg =? -1)
           then m <| theCheckpointInterval := to_uint32 (msg_theCheckpointInterval msg) |> else m in
  if (cs_numPeers s =? 1) && (ws_eqb clientState UNKNOWN || ws_eqb clientState RUNNING)
  then resetCkptTimer s m else m.

Definition ckpt_clientDisconnected (s : ComputationStatus) (m : CkptIntervalManager) : CkptIntervalManager :=
  if cs_numPeers s =? 0 then resetCkptTimer s m else m.

Definition endl : string := String (byte_of 10) EmptyString.
Definition ckpt_status_str (m : CkptIntervalManager) : string :=
  "Checkpoint Interval: " +:+
  (if theCheckpointInterval m =? 0 then "disabled (checkpoint manually instead)" +:+ endl
   else XToString (theCheckpointInterval m) +:+ endl).

(** ** StaleTimeoutManager and TimeoutManager *)

Record TimeoutState : Type := mk_TimeoutState { to_stop : Z (* stopTime.tv_sec *); to_limit : Z (* uint32_t *) }.
#[export] Instance eta_TimeoutState : Settable TimeoutState :=
  {| eta_of t := mk_TimeoutState (to_stop t) (to_limit t) |}.

Definition theDefaultStaleTimeout : Z := 8 * 60 * 60.
Definition StaleTimeoutManager_new (f : PluginFlags) : TimeoutState :=
  mk_TimeoutState 0 (if negb (pf_staleTimeout f =? 0) then to_uint32 (pf_staleTimeout f) else theDefaultStaleTimeout).
Definition TimeoutManager_new (f : PluginFlags) : TimeoutState := mk_TimeoutState 0 (to_uint32 (pf_timeout f)).

(** The two ifs both managers have: arm the timer, then look at it.  The flag
    is whether [exit(1)] is reached. *)
Definition arm_and_check (s : ComputationStatus) (t : TimeoutState) : TimeoutState * bool :=
  let t := if negb (to_limit t =? 0) && (to_stop t =? 0) then t <| to_stop := cs_sec s + to_limit t |> else t in
  (t, negb (to_stop t =? 0) && (to_stop t <? cs_sec s)).

Definition stale_tick (s : ComputationStatus) (t : TimeoutState) : TimeoutState * bool :=
  if 0 <? cs_numPeers s then (t <| to_stop := 0 |>, false) else arm_and_check s t.

Definition timeout_tick (s : ComputationStatus) (t : TimeoutState) : TimeoutState * bool := arm_and_check s t.

(** ** CoordPluginMgr *)

Record Plugins : Type := mk_Plugins {
  staleTimeoutManager : TimeoutState;
  timeoutManager : TimeoutState;
  ckptIntervalManager : CkptIntervalManager
}.
#[export] Instance eta_Plugins : Settable Plugins :=
  {| eta_of p := mk_Plugins (staleTimeoutManager p) (timeoutManager p) (ckptIntervalManager p) |}.

Definition Plugins_initialize (f : PluginFlags) : Plugins :=
  mk_Plugins (StaleTimeoutManager_new f) (TimeoutManager_new f) (CkptIntervalManager_new f).

(** [CoordPluginMgr::tick]: the plugins in the order they were registered;
    the result says whether a checkpoint was queued. *)
Definition plugins_tick (s : ComputationStatus) : M Plugins bool :=
  stale ← gets staleTimeoutManager;
  let (stale, expired) := stale_tick s stale in
  modify (fun p => p <| staleTimeoutManager := stale |>);;
  whenM expired (exitM 1);;
  tmo ← gets timeoutManager;
  let (tmo, expired) := timeout_tick s tmo in
  modify (fun p => p <| timeoutManager := tmo |>);;
  whenM expired (exitM 1);;
  ckpt ← gets ckptIntervalManager;
  let (ckpt, queued) := ckpt_tick s ckpt in
  modify (fun p => p <| ckptIntervalManager := ckpt |>);;
  mret queued.

Definition plugins_clientConnected (st : eWorkerState) (msg : DmtcpMessage) (s : ComputationStatus) (p : Plugins) : Plugins :=
  p <| ckptIntervalManager ::= ckpt_clientConnected st msg s |>.
Definition plugins_clientDisconnected (s : ComputationStatus) (p : Plugins) : Plugins :=
  p <| ckptIntervalManager ::= ckpt_clientDisconnected s |>.
Definition plugins_resumeAfterCkpt (s : ComputationStatus) (p : Plugins) : Plugins :=
  p <| ckptIntervalManager ::= resetCkptTimer s |>.
Definition plugins_resumeAfterRestart (s : ComputationStatus) (p : Plugins) : Plugins :=
  p <| ckptIntervalManager ::= resetCkptTimer s |>.
Definition plugins_status_str (p : Plugins) : string := ckpt_status_str (ckptIntervalManager p).

(** ** Runs of ticks *)

(** The turns of the loop, one status each: when a checkpoint is queued. *)
Fixpoint ckpt_ticks (ss : list ComputationStatus) (m : CkptIntervalManager) : list bool :=
  match ss with
  | [] => []
  | s :: ss' => let (m', q) := ckpt_tick s m in q :: ckpt_ticks ss' m'
  end.

(** The workers can start a checkpoint and the deadline has passed. *)
Definition due (deadline : Z) (s : ComputationStatus) : bool :=
  negb (cs_numPeers s =? 0) && ws_eqb (cs_minimumState s) RUNNING && cs_minimumStateUnanimous s &&
  (deadline <? cs_sec s).

(** A checkpoint at the first due tick and at no other. *)
Fixpoint first_only (b : bool) (l : list bool) : list bool :=
  match l with [] => [] | x :: l' => (b && x) :: first_only (b && negb x) l' end.

Fixpoint stale_ticks (ss : list ComputationStatus) (t : TimeoutState) : bool :=
  match ss with
  | [] => false
  | s :: ss' => let (t', x) := stale_tick s t in x || stale_ticks ss' t'
  end.

(** ** Lemmas *)

Lemma ckpt_tick_due s m : ckpt_tick s m =
  if negb (nextCkptTimeout m =? 0) && due (nextCkptTimeout m) s then (m <| nextCkptTimeout := 0 |>, true) else (m, false).
Proof.
  unfold ckpt_tick, due. destruct (cs_numPeers s =? 0); cbn; [by rewrite andb_false_r|].
  destruct (ws_eqb _ _); cbn; [|by rewrite andb_false_r].
  destruct (cs_minimumStateUnanimous s); cbn; [done|by rewrite andb_false_r].
Qed.

Lemma ckpt_ticks_off ss m : nextCkptTimeout m = 0 -> ckpt_ticks ss m = replicate (length ss) false.
Proof.
  intros H. induction ss as [|s ss IH]; [done|]. cbn. rewrite ckpt_tick_due, H. cbn. by rewrite IH.
Qed.

Lemma first_only_false l : first_only false l = replicate (length l) false.
Proof. induction l as [|x l IH]; [done|]. cbn. by rewrite IH. Qed.

Lemma ckpt_ticks_on ss m : nextCkptTimeout m <> 0 ->
  ckpt_ticks ss m = first_only true (due (nextCkptTimeout m) <$> ss).
Proof.
  intros H. induction ss as [|s ss IH]; [done|]. cbn [ckpt_ticks fmap list_fmap first_only].
  rewrite ckpt_tick_due. destruct (Z.eqb_spec (nextCkptTimeout m) 0); [done|]. cbn [negb andb].
  destruct (due _ s); cbn [negb]; f_equal; [|exact IH].
  rewrite ckpt_ticks_off, first_only_false by done. by rewrite length_fmap.
Qed.

Lemma stale_ticks_spec limit ss : forall stop, 0 < limit -> stop <> 0 ->
  Forall (fun s => cs_numPeers s = 0) ss ->
  stale_ticks ss (mk_TimeoutState stop limit) = existsb (fun s => stop <? cs_sec s) ss.
Proof.
  induction ss as [|s ss IH]; intros stop Hl Hs Hp; [done|]. inversion_clear Hp as [|? ? H0 Hp'].
  cbn [stale_ticks existsb]. unfold stale_tick, arm_and_check. rewrite H0. cbn [Z.ltb Z.compare to_stop to_limit].
  destruct (Z.eqb_spec stop 0); [done|]. rewrite andb_false_r. cbn [negb andb to_stop].
  destruct (Z.eqb_spec stop 0); [done|]. cbn [negb andb]. f_equal. by apply IH.
Qed.

(** ** Theorems *)

(** Automatic checkpoints: with interval [i], once the computation has
    resumed (or its first worker connected) at time [t], the timer queues exactly
    one checkpoint, at the first turn of the loop after [t + i] at which every
    worker is RUNNING, and none before; and a coordinator with no client and a
    stale timeout [n] exits at the first turn more than [n] seconds after the
    first idle one, and not earlier. *)
Theorem timers_correct m s ss i idle limit first :
  cs_numPeers s <> 0 -> theCheckpointInterval m = i -> 0 < i -> 0 <= cs_sec s ->
  0 < limit -> cs_numPeers first = 0 -> 0 <= cs_sec first ->
  Forall (fun s => cs_numPeers s = 0) idle ->
  ckpt_ticks ss (resetCkptTimer s m) = first_only true (due (cs_sec s + i) <$> ss) /\
  stale_ticks (first :: idle) (mk_TimeoutState 0 limit) =
    existsb (fun s => cs_sec first + limit <? cs_sec s) idle.
Proof.
  intros Hp <- Hi Ht Hl Hf Hft Hid. split.
  - unfold resetCkptTimer. destruct (Z.eqb_spec (cs_numPeers s) 0); [done|]. apply Z.ltb_lt in Hi as Hi'. rewrite Hi'.
    rewrite ckpt_ticks_on by (rsimpl; lia). by rsimpl.
  - cbn [stale_ticks]. unfold stale_tick, arm_and_check. rewrite Hf. cbn [Z.ltb Z.compare to_stop to_limit Z.eqb].
    destruct (Z.eqb_spec limit 0); [lia|]. cbn [negb andb]. rsimpl. cbn [to_stop to_limit].
    destruct (Z.eqb_spec (cs_sec first + limit) 0); [lia|]. cbn [negb andb].
    destruct (Z.ltb_spec (cs_sec first + limit) (cs_sec first)); [lia|]. cbn [orb].
    apply (stale_ticks_spec limit idle (cs_sec first + limit)); [done|lia|done].
Qed.

Definition at_time (peers sec : Z) : ComputationStatus := mk_ComputationStatus RUNNING RUNNING true peers sec 0.

Lemma timers_correct_witness :
  ckpt_ticks [at_time 2 109; at_time 2 111; at_time 2 112] (resetCkptTimer (at_time 2 100) (mk_CkptIntervalManager 10 10 0))
    = [false; true; false] /\
  stale_ticks [at_time 0 50; at_time 0 59; at_time 0 61] (mk_TimeoutState 0 10) = true.
Proof.
  refine (timers_correct (mk_CkptIntervalManager 10 10 0) (at_time 2 100) [at_time 2 109; at_time 2 111; at_time 2 112] 10
           [at_time 0 59; at_time 0 61] 10 (at_time 0 50) _ _ _ _ _ _ _ _); try reflexivity; try discriminate.
  repeat constructor.
Defined.

(** Setting the checkpoint interval to 0, which the user is told disables
    automatic checkpoints, does not stop a timer that is already running: with
    clients connected the old deadline stays and still queues one checkpoint. *)
Theorem disabling_interval_keeps_timer msg m s s' :
  msg_coordCmd msg = DMT_UPDATE_CKPT_INTERVAL -> msg_theCheckpointInterval msg = 0 ->
  cs_numPeers s <> 0 -> nextCkptTimeout m <> 0 -> due (nextCkptTimeout m) s' = true ->
  theCheckpointInterval (ckpt_userCmd msg s m) = 0 /\
  (ckpt_tick s' (ckpt_userCmd msg s m)).2 = true.
Proof.
  intros Hc H0 Hp Hn Hd.
  assert (E : ckpt_userCmd msg s m = mk_CkptIntervalManager 0 0 (nextCkptTimeout m)).
  { unfold ckpt_userCmd. rewrite bool_decide_true by done. rewrite H0. cbn [negb].
    unfold updateCheckpointInterval, resetCkptTimer. destruct (Z.eqb_spec (cs_numPeers s) 0); [done|].
    by destruct m. }
  rewrite E. split; [done|]. rewrite ckpt_tick_due. cbn [nextCkptTimeout].
  destruct (Z.eqb_spec (nextCkptTimeout m) 0); [done|]. by rewrite Hd.
Qed.

Lemma disabling_interval_keeps_timer_witness :
  let msg := (DmtcpMessage_new (mk_MsgEnv UNKNOWN nullProcess 0 KVDB_GET KVDB_SUCCESS) DMT_USER_CMD)
               <| msg_coordCmd := DMT_UPDATE_CKPT_INTERVAL |> <| msg_theCheckpointInterval := 0 |> in
  (ckpt_tick (at_time 2 70) (ckpt_userCmd msg (at_time 2 10) (mk_CkptIntervalManager 60 60 60))).2 = true.
Proof.
  intros msg. refine (proj2 (disabling_interval_keeps_timer msg (mk_CkptIntervalManager 60 60 60) (at_time 2 10) (at_time 2 70) _ _ _ _ _));
    try reflexivity; discriminate.
Defined.
