(* ===== verification/Coordinator.v ===== *)
(** * The coordinator

    src/dmtcp_coordinator.cpp: its static variables as one state record, its
    clients as objects of a small heap, one definition per member function, and
    the event loop that composes them.  What the program reads from outside (a
    message, a new connection, the clocks) is an argument of the event; what it
    writes is appended to a trace.  Logging is left out. *)

From Stdlib Require Import ZArith Lia Ascii.
From stdpp Require Import base gmap strings numbers list.
From S2P Require Import Prelude CText Identity Json Message Lookup CoordPlugin.
Import Convert.
Open Scope Z_scope.

(** ** State *)

(** A [CoordClient *]. *)
Abbreviation ptr := nat.

Record CoordClient : Type := mk_CoordClient {
  cl_identity : UniquePid;
  cl_clientNumber : Z;
  cl_sock : Z;               (* descriptor; -1 once closed *)
  cl_state : eWorkerState;
  cl_hostname : string;
  cl_progname : string;
  cl_ip : string;
  cl_barrier : string;
  cl_realPid : Z;
  cl_virtualPid : Z;
  cl_isNSWorker : Z
}.
#[export] Instance eta_CoordClient : Settable CoordClient :=
  {| eta_of c := mk_CoordClient (cl_identity c) (cl_clientNumber c) (cl_sock c) (cl_state c) (cl_hostname c)
       (cl_progname c) (cl_ip c) (cl_barrier c) (cl_realPid c) (cl_virtualPid c) (cl_isNSWorker c) |}.

(** The members of [CoordFlags] the modelled functions read. *)
Record CoordFlags : Type := mk_CoordFlags {
  fl_exitOnLast : bool;
  fl_killAfterCkpt : bool;
  fl_thePort : Z;
  fl_thePortFile : string;
  fl_ckptDir : string;
  fl_tmpDir : string;
  fl_writeKvData : bool
}.
#[export] Instance eta_CoordFlags : Settable CoordFlags :=
  {| eta_of f := mk_CoordFlags (fl_exitOnLast f) (fl_killAfterCkpt f) (fl_thePort f) (fl_thePortFile f)
       (fl_ckptDir f) (fl_tmpDir f) (fl_writeKvData f) |}.

(** What the system answers while one event is handled. *)
Record World : Type := mk_World {
  w_mono_sec : Z;             (* CLOCK_MONOTONIC *)
  w_mono_nsec : Z;
  w_time : Z;                 (* time() *)
  w_timestampStr : string;    (* Util::getTimestampStr() *)
  w_canWrite : bool;          (* files can be opened for writing *)
  w_garbagePid : Z            (* an uninitialised pid_t *)
}.

(** What the program does to the outside. *)
Inductive output : Type :=
| Sent (fd : Z) (m : DmtcpMessage)
| SentBytes (fd : Z) (bytes : string)
| Closed (fd : Z)
| ListenClosed
| EpollAdd (p : ptr)
| StdinClosed
| Stderr (text : string)
| Stdout (text : string)
| Unlinked (path : string)
| WroteFile (path text : string)
| WroteScript (dir : string) (uniqueNames : bool) (time interval port : Z) (comp : UniquePid)
    (files rsh ssh : gmap string (list string)).

Record Coord : Type := mk_Coord {
  flags : CoordFlags;
  blockUntilDone : bool;
  killAfterCkptOnce : bool;
  blockUntilDoneRemote : Z;
  workersRunningAndSuspendMsgSent : bool;
  killInProgress : bool;
  uniqueCkptFilenames : bool;
  workersAtCurrentBarrier : Z;
  currentBarrier : string;
  prevBarrier : string;
  eventId : Z;
  compId : UniquePid;
  numRestartPeers : Z;
  curTimeStamp : Z;
  ckptTimeStamp : Z;
  lookupService : LookupService.t;
  coordHostname : string;
  localhostIPAddr : Z;
  nextVirtualPid : Z;
  theNextClientNumber : Z;
  clients : list ptr;
  heap : gmap ptr CoordClient;
  nextPtr : ptr;
  plugins : Plugins;
  replyData : string;
  numCkptWorkers : Z;
  numRestartFilenames : Z;
  checkpointQueued : bool;
  rshCmdFileNames : gmap string (list string);
  sshCmdFileNames : gmap string (list string);
  restartFilenames : gmap string (list string);
  virtualPidToClientMap : gmap Z ptr;
  stdinClosed : bool;
  msgEnv : MsgEnv;
  world : World;
  trace : list output
}.
#[export] Instance eta_Coord : Settable Coord :=
  {| eta_of c := mk_Coord (flags c) (blockUntilDone c) (killAfterCkptOnce c) (blockUntilDoneRemote c)
       (workersRunningAndSuspendMsgSent c) (killInProgress c) (uniqueCkptFilenames c)
       (workersAtCurrentBarrier c) (currentBarrier c) (prevBarrier c) (eventId c) (compId c)
       (numRestartPeers c) (curTimeStamp c) (ckptTimeStamp c) (lookupService c) (coordHostname c)
       (localhostIPAddr c) (nextVirtualPid c) (theNextClientNumber c) (clients c) (heap c) (nextPtr c)
       (plugins c) (replyData c) (numCkptWorkers c) (numRestartFilenames c) (checkpointQueued c)
       (rshCmdFileNames c) (sshCmdFileNames c) (restartFilenames c) (virtualPidToClientMap c)
       (stdinClosed c) (msgEnv c) (world c) (trace c) |}.

Abbreviation C := (M Coord).

Definition emit (o : output) : C unit := modify (fun s => s <| trace ::= fun t => t ++ [o] |>).
Definition send (fd : Z) (m : DmtcpMessage) : C unit := emit (Sent fd m).
Definition closeFd (fd : Z) : C unit := emit (Closed fd).

(** [p->...]: only a live object may be used. *)
Definition deref (p : ptr) : C CoordClient :=
  h ← gets heap; optM (UseAfterFree "CoordClient") (h !! p).
Definition update (p : ptr) (f : CoordClient -> CoordClient) : C unit :=
  c ← deref p; modify (fun s => s <| heap ::= <[p := f c]> |>).
Definition newMsg (t : DmtcpMessageType) : C DmtcpMessage := gets (fun s => DmtcpMessage_new (msgEnv s) t).

Fixpoint collect {A} (f : ptr -> C A) (l : list ptr) : C (list A) :=
  match l with
  | [] => mret []
  | p :: l' => x ← f p; xs ← collect f l'; mret (x :: xs)
  end.

Definition INITIAL_VIRTUAL_PID : Z := 40000.
Definition VIRTUAL_PID_STEP : Z := 1000.
Definition MAX_VIRTUAL_PID : Z := 1000000.

(** ** Text *)

(** [inet_ntoa] of the address as it lies in memory. *)
Definition inet_ntoa (a : Z) : string :=
  XToString (a mod 256) +:+ "." +:+ XToString (a / 256 mod 256) +:+ "." +:+
  XToString (a / 65536 mod 256) +:+ "." +:+ XToString (a / 16777216 mod 256).

Definition nl : string := String (byte_of 10) EmptyString.

(** [ltrim]: nothing is removed when all of it is white space. *)
Definition ltrim (s : string) : string :=
  match skip_space s with EmptyString => s | t => t end.

Definition lower (c : ascii) : ascii :=
  let v := byte_val c in if (65 <=? v) && (v <=? 90) then byte_of (v + 32) else c.
Fixpoint tolower (s : string) : string :=
  match s with EmptyString => EmptyString | String c s' => String (lower c) (tolower s') end.

(** ** Status *)

Definition WSMAX : Z := ws_val WS_MAX.

(** The loop of [getStatus]: min, max, count, unanimous. *)
Definition status_step (acc : Z * Z * Z * bool) (st : eWorkerState) : Z * Z * Z * bool :=
  let '(mn, mx, count, unanimous) := acc in
  let v := ws_val st in
  let unanimous := unanimous && ((mn =? v) || (mn =? WSMAX)) in
  (if v <? mn then v else mn, if mx <? v then v else mx, count + 1, unanimous).

Definition status_of (states : list eWorkerState) (restartPeers sec nsec : Z) : ComputationStatus :=
  let '(mn, mx, count, unanimous) := foldl status_step (WSMAX, ws_val UNKNOWN, 0, true) states in
  let minimum := if mn =? WSMAX then UNKNOWN else ws_of mn in
  let unanimous := if ws_eqb minimum RESTARTING && (count <? restartPeers) then false else unanimous in
  mk_ComputationStatus minimum (if mx =? ws_val UNKNOWN then UNKNOWN else ws_of mx) unanimous count sec nsec.

Definition getStatus : C ComputationStatus :=
  ps ← gets clients;
  states ← collect (fun p => c ← deref p; mret (cl_state c)) ps;
  gets (fun s => status_of states (numRestartPeers s) (w_mono_sec (world s)) (w_mono_nsec (world s))).

Definition minimumState : C eWorkerState := s ← getStatus; mret (cs_minimumState s).

Definition is_running (s : ComputationStatus) : bool :=
  cs_minimumStateUnanimous s && ws_eqb (cs_minimumState s) RUNNING.

(** ** Virtual process identifiers *)

(** The search loop.  The cursor walks a cycle of 961 values, so 961 rounds try
    them all; a search still going then never ends. *)
Fixpoint findVirtualPid (fuel : nat) : C Z :=
  match fuel with
  | O => faultM (Blocked "getNewVirtualPid")
  | S fuel' =>
      pid ← gets nextVirtualPid;
      modify (fun s => s <| nextVirtualPid ::= fun n => n + VIRTUAL_PID_STEP |>);;
      next ← gets nextVirtualPid;
      whenM (MAX_VIRTUAL_PID <? next) (modify (fun s => s <| nextVirtualPid := INITIAL_VIRTUAL_PID |>));;
      m ← gets virtualPidToClientMap;
      match m !! pid with
      | None => mret pid
      | Some _ => findVirtualPid fuel'
      end
  end.

Definition getNewVirtualPid : C Z :=
  m ← gets virtualPidToClientMap;
  assertM (Z.of_nat (size m) <? MAX_VIRTUAL_PID) "virtual pid map is full";;
  pid ← findVirtualPid 961;
  assertM (negb (pid =? -1)) "virtual pid allocation did not select a pid";;
  mret pid.

(** ** Events and the key-value store *)

Definition recordEvent (event : string) : C unit :=
  modify (fun s => s <| eventId ::= fun n => n + 1 |>);;
  modify (fun s => s <| lookupService ::= fun svc =>
    LookupService.set svc "/Event_Timestamp_Ms" (w_timestampStr (world s))
      (pad_left 5 (XToString (eventId s)) +:+ "-" +:+ event) |>).

Definition serializeKVDB : C unit :=
  s ← gets id;
  whenM (fl_writeKvData (flags s))
    (assertM (w_canWrite (world s)) "failed to open lookup service snapshot";;
     text ← optM (OutOfBounds "lines[0]") (LookupService.serialize (lookupService s));
     emit (WroteFile ("dmtcp_coordinator_db-" +:+ up_str (compId s) +:+ "-" +:+ w_timestampStr (world s) +:+ ".json") text)).

(** An operation of the store, its reply written to the client. *)
Definition onLookup (fd : Z) (m : M LookupService.t (DmtcpMessage * string)) : C unit := fun s =>
  match m (lookupService s) with
  | Ok (reply, bytes) svc =>
      (send fd reply;; whenM (negb (String.eqb bytes EmptyString)) (emit (SentBytes fd bytes)))
        (s <| lookupService := svc |>)
  | Exit c svc => Exit c (s <| lookupService := svc |>)
  | Fault f svc => Fault f (s <| lookupService := svc |>)
  end.

(** ** Broadcasts and barriers *)

Definition broadcastMessage (type : DmtcpMessageType) (extra : string) : C unit :=
  msg ← newMsg DMT_NULL;
  s ← gets id;
  let msg := msg <| msg_type := type |> <| msg_compGroup := compId s |>
               <| msg_numPeers := to_uint32 (Z.of_nat (length (clients s))) |>
               <| msg_exitAfterCkpt := if fl_killAfterCkpt (flags s) || killAfterCkptOnce s then 1 else 0 |>
               <| msg_extraBytes := to_uint32 (Z.of_nat (String.length extra)) |> in
  whenM (bool_decide (type = DMT_KILL_PEER) && negb (bool_decide (clients s = [])))
    (modify (fun s => s <| killInProgress := true |>));;
  forM (clients s) (fun p =>
    c ← deref p;
    send (cl_sock c) msg;;
    whenM (negb (String.eqb extra EmptyString)) (emit (SentBytes (cl_sock c) extra)));;
  modify (fun s => s <| workersAtCurrentBarrier := 0 |>).

Definition releaseBarrier (barrier : string) : C unit :=
  status ← getStatus;
  s ← gets id;
  whenM (workersAtCurrentBarrier s =? cs_numPeers status)
    (if (0 <? numRestartPeers s) && negb (cs_numPeers status =? numRestartPeers s) then mret tt
     else
       recordEvent ("Barrier-" +:+ barrier);;
       modify (fun s => s <| prevBarrier := currentBarrier s |> <| currentBarrier := EmptyString |>
                          <| workersAtCurrentBarrier := 0 |>
                          <| numCkptWorkers := cs_numPeers status |>);;
       prev ← gets prevBarrier;
       broadcastMessage DMT_BARRIER_RELEASED (prev +:+ NUL_str)).

Definition processBarrier (barrier : string) : C unit :=
  cur ← gets currentBarrier;
  (if String.eqb cur EmptyString then modify (fun s => s <| currentBarrier := barrier |>)
   else assertM (String.eqb barrier cur) "barrier mismatch");;
  modify (fun s => s <| workersAtCurrentBarrier ::= fun n => n + 1 |>);;
  releaseBarrier barrier.

(** ** Checkpoints *)

Definition startCheckpoint : C bool :=
  s ← getStatus;
  sent ← gets workersRunningAndSuspendMsgSent;
  if ws_eqb (cs_minimumState s) RUNNING && cs_minimumStateUnanimous s && negb sent then
    modify (fun s => s <| uniqueCkptFilenames := false |> <| ckptTimeStamp := w_time (world s) |>);;
    recordEvent "Ckpt-Start";;
    modify (fun s => s <| numRestartFilenames := 0 |> <| numRestartPeers := -1 |>
                       <| restartFilenames := ∅ |> <| rshCmdFileNames := ∅ |> <| sshCmdFileNames := ∅ |>
                       <| compId ::= incrementGeneration |>);;
    broadcastMessage DMT_DO_CHECKPOINT EmptyString;;
    modify (fun s => s <| workersRunningAndSuspendMsgSent := true |>);;
    mret true
  else mret false.

(** [map[host].push_back(file)]. *)
Definition push (host file : string) (m : gmap string (list string)) : gmap string (list string) :=
  <[host := default [] (m !! host) ++ [file]]> m.

Definition payload_at (extraData : string) (off : nat) : C string :=
  optM (OutOfBounds "message payload") (c_str_at extraData off).

Definition recordCkptFilename (p : ptr) (extraData : option string) : C unit :=
  update p (fun c => c <| cl_state := CHECKPOINTED |>);;
  data ← optM (AssertFailed "extra data expected with DMT_CKPT_FILENAME message") extraData;
  ckptFilename ← payload_at data 0;
  shellType ← payload_at data (String.length ckptFilename + 1);
  hostname ← payload_at data (String.length shellType + 1 + String.length ckptFilename + 1);
  (if String.eqb shellType EmptyString then modify (fun s => s <| restartFilenames ::= push hostname ckptFilename |>)
   else if String.eqb shellType "rsh" then modify (fun s => s <| rshCmdFileNames ::= push hostname ckptFilename |>)
   else if String.eqb shellType "ssh" then modify (fun s => s <| sshCmdFileNames ::= push hostname ckptFilename |>)
   else faultM (AssertFailed "unsupported shell command type in checkpoint filename"));;
  modify (fun s => s <| numRestartFilenames ::= fun n => n + 1 |>);;
  s ← gets id;
  whenM (numRestartFilenames s =? numCkptWorkers s)
    (emit (WroteScript (fl_ckptDir (flags s)) (uniqueCkptFilenames s) (ckptTimeStamp s)
             (theCheckpointInterval (ckptIntervalManager (plugins s))) (fl_thePort (flags s)) (compId s)
             (restartFilenames s) (rshCmdFileNames s) (sshCmdFileNames s));;
     recordEvent "Ckpt-Complete";;
     serializeKVDB;;
     block ← gets blockUntilDone;
     whenM block
       (reply ← newMsg DMT_USER_CMD_RESULT;
        status ← getStatus;
        remote ← gets blockUntilDoneRemote;
        send remote (reply <| msg_coordCmd := DMT_BLOCKING_CKPT |> <| msg_numPeers := to_uint32 (cs_numPeers status) |>);;
        closeFd remote;;
        modify (fun s => s <| blockUntilDone := false |> <| blockUntilDoneRemote := -1 |>));;
     modify (fun s => s <| killAfterCkptOnce := false |> <| numRestartFilenames := 0 |>
                        <| numCkptWorkers := 0 |> <| workersRunningAndSuspendMsgSent := false |>)).

Definition ResendDoCheckpointMsgToWorker (p : ptr) : C unit :=
  sent ← gets workersRunningAndSuspendMsgSent;
  assertM sent "checkpoint resend requested before suspend message was sent";;
  s ← getStatus;
  assertM (0 <? cs_numPeers s) "checkpoint resend has no peers";;
  assertM (negb (ws_eqb (cs_minimumState s) SUSPENDED)) "checkpoint resend attempted after workers suspended";;
  msg ← newMsg DMT_DO_CHECKPOINT;
  comp ← gets compId;
  c ← deref p;
  send (cl_sock c) (msg <| msg_compGroup := comp |>).

(** ** Commands *)

Definition client_line (p : ptr) : C string :=
  c ← deref p;
  st ← optM (AssertFailed "Invalid WorkerState") (ws_str (cl_state c));
  mret (XToString (cl_clientNumber c) +:+ ", " +:+ cl_progname c +:+ "[" +:+
        XToString (up_pid (cl_identity c)) +:+ ":" +:+ XToString (cl_realPid c) +:+ "]@" +:+
        cl_hostname c +:+ ", " +:+ up_str (cl_identity c) +:+ ", " +:+ st +:+ ", " +:+
        cl_barrier c +:+ nl).

Definition printList : C string :=
  ps ← gets clients;
  lines ← collect client_line ps;
  mret ("Client List:" +:+ nl +:+
        "#, PROG[virtPID:realPID]@HOST, DMTCP-UNIQUEPID, STATE, BARRIER" +:+ nl +:+
        String.concat EmptyString lines +:+ nl).

Definition getStatusStr : C string :=
  gets (fun s => "Status..." +:+ nl +:+ "Host: " +:+ coordHostname s +:+ " (" +:+
    inet_ntoa (localhostIPAddr s) +:+ ")" +:+ nl +:+ "Port: " +:+ XToString (fl_thePort (flags s)) +:+ nl +:+
    plugins_status_str (plugins s)).

Definition bool_str (b : bool) : string := if b then "1" else "0".

Definition printStatus (numPeers : Z) (isRunning : bool) : C unit :=
  st ← getStatusStr;
  s ← gets id;
  emit (Stdout (st +:+ "Exit on last client: " +:+ bool_str (fl_exitOnLast (flags s)) +:+ nl +:+
    "Kill after checkpoint: " +:+ bool_str (fl_killAfterCkpt (flags s)) +:+ nl +:+
    "Computation Id: " +:+ up_str (compId s) +:+ nl +:+
    "Checkpoint Dir: " +:+ fl_ckptDir (flags s) +:+ nl +:+
    "NUM_PEERS=" +:+ XToString numPeers +:+ nl +:+
    "RUNNING=" +:+ (if isRunning then "yes" else "no") +:+ nl +:+ nl)).

Definition removeStaleSharedAreaFile : C unit :=
  s ← gets id;
  emit (Unlinked (fl_tmpDir (flags s) +:+ "/dmtcpSharedArea." +:+ up_str (compId s) +:+ "." +:+
                  hex_str (to_uint64 (curTimeStamp s)))).

Definition preExitCleanup : C unit :=
  removeStaleSharedAreaFile;;
  f ← gets (fun s => fl_thePortFile (flags s));
  emit (Unlinked f).

Definition theHelpMessage : string :=
  String.concat nl
    ["COMMANDS:"; "  l: List connected nodes"; "  s: Print status message"; "  c: Checkpoint all nodes";
     "  ck: kc: "; "     Checkpoint and then kill all nodes"; "  i: Print current checkpoint interval";
     "     (To change checkpoint interval, use dmtcp_command)"; "  k: Kill all nodes";
     "  q: Kill all nodes and quit"; "  ?: Show this message"; EmptyString; EmptyString].

(** The three commands that start a checkpoint share their reply. *)
Definition checkpointReply (reply : option DmtcpMessage) (started : bool) : C (option DmtcpMessage) :=
  match reply with
  | None => mret None
  | Some r =>
      if started then
        status ← getStatus;
        mret (Some (r <| msg_numPeers := to_uint32 (cs_numPeers status) |>))
      else mret (Some (r <| msg_coordCmdStatus := DMT_COORD_NOT_RUNNING |>))
  end.

(** [handleUserCommand(command, reply)]: the reply as it leaves the function;
    [None] is the null pointer. *)
Definition handleUserCommand (command : CoordinatorCmd) (reply : option DmtcpMessage) : C (option DmtcpMessage) :=
  let reply := (fun r => r <| msg_coordCmd := command |> <| msg_coordCmdStatus := DMT_COORD_SUCCESS |>) <$> reply in
  match command with
  | DMT_BLOCKING_CKPT =>
      modify (fun s => s <| blockUntilDone := true |>);;
      started ← startCheckpoint;
      whenM (negb started) (modify (fun s => s <| blockUntilDone := false |>));;
      checkpointReply reply started
  | DMT_KILL_AFTER_CKPT =>
      modify (fun s => s <| killAfterCkptOnce := true |>);;
      started ← startCheckpoint;
      checkpointReply reply started
  | DMT_CHECKPOINT =>
      started ← startCheckpoint;
      checkpointReply reply started
  | DMT_LIST =>
      l ← printList;
      match reply with
      | Some r =>
          modify (fun s => s <| replyData := l |>);;
          mret (Some (r <| msg_extraBytes := to_uint32 (Z.of_nat (String.length l)) |>))
      | None => emit (Stderr l);; mret None
      end
  | DMT_QUIT =>
      broadcastMessage DMT_KILL_PEER EmptyString;;
      emit (Stderr ("DMTCP coordinator exiting... (per request)" +:+ nl));;
      ps ← gets clients;
      forM ps (fun p => c ← deref p; closeFd (cl_sock c);; update p (fun c => c <| cl_sock := -1 |>));;
      emit ListenClosed;;
      preExitCleanup;;
      recordEvent "Exiting";;
      serializeKVDB;;
      exitM 0
  | DMT_UPDATE_CKPT_INTERVAL =>
      i ← gets (fun s => theCheckpointInterval (ckptIntervalManager (plugins s)));
      mret ((fun r => r <| msg_theCheckpointInterval := to_int32 i |>) <$> reply)
  | DMT_KILL =>
      broadcastMessage DMT_KILL_PEER EmptyString;; mret reply
  | DMT_HELP => emit (Stderr theHelpMessage);; mret reply
  | DMT_STATUS =>
      s ← getStatus;
      let running := is_running s in
      match reply with
      | Some r =>
          i ← gets (fun s => theCheckpointInterval (ckptIntervalManager (plugins s)));
          mret (Some (r <| msg_numPeers := to_uint32 (cs_numPeers s) |>
                        <| msg_isRunning := if running then 1 else 0 |>
                        <| msg_theCheckpointInterval := to_int32 i |>))
      | None => printStatus (cs_numPeers s) running;; mret None
      end
  | DMT_INVALID_COORDINATOR_COMMAND =>
      mret ((fun r => r <| msg_coordCmdStatus := DMT_COORD_INVALID_COMMAND |>) <$> reply)
  end.

(** Hosts with their number of clients, in the order of a [std::map]. *)
Definition count_hosts (cs : list CoordClient) : gmap string Z :=
  foldl (fun m c => <[cl_hostname c := default 0 (m !! cl_hostname c) + 1]> m) ∅ cs.

(** [handleUserCommand(cmd)] of a typed command. *)
Definition handleUserCommandStr (cmd : string) : C unit :=
  if String.eqb cmd "u" then
    emit (Stderr ("Host List:" +:+ nl));;
    emit (Stderr ("HOST => # connected clients " +:+ nl));;
    ps ← gets clients;
    cs ← collect deref ps;
    forM (LookupService.in_order (count_hosts cs)) (fun hn =>
      emit (Stderr (fst hn +:+ " => " +:+ XToString (snd hn) +:+ nl)))
  else _ ← handleUserCommand (parseCoordinatorCmd (Some cmd)) None; mret tt.

(** ** Clients *)

(** [new CoordClient(sock, addr, len, hello, isNSWorker = 0)].  The virtual pid is
    left uninitialised. *)
Definition newClient (fd addr : Z) (hello : DmtcpMessage) : C ptr :=
  s ← gets id;
  let c := mk_CoordClient (msg_from hello) (theNextClientNumber s) fd (msg_state hello) EmptyString EmptyString
             (inet_ntoa addr) EmptyString (msg_realPid hello) (w_garbagePid (world s)) 0 in
  modify (fun s => s <| theNextClientNumber ::= fun n => n + 1 |>
                     <| heap ::= <[nextPtr s := c]> |> <| nextPtr := S (nextPtr s) |>);;
  mret (nextPtr s).

Definition readProcessInfo (p : ptr) (extraData : string) : C unit :=
  hostname ← payload_at extraData 0;
  progname ← payload_at extraData (String.length hostname + 1);
  update p (fun c => c <| cl_hostname := hostname |> <| cl_progname := progname |>).

Definition addDataSocket (p : ptr) : C unit := emit (EpollAdd p).

Definition deleteClient (p : ptr) : C unit := modify (fun s => s <| heap ::= delete p |>).

Definition onDisconnect (p : ptr) : C unit :=
  c ← deref p;
  if negb (cl_isNSWorker c =? 0) then closeFd (cl_sock c);; deleteClient p
  else
    modify (fun s => s <| clients ::= filter (fun q => q <> p) |>);;
    closeFd (cl_sock c);;
    update p (fun c => c <| cl_sock := -1 |>);;
    modify (fun s => s <| virtualPidToClientMap ::= delete (cl_virtualPid c) |>);;
    st ← getStatus;
    (if cs_numPeers st <? 1 then
       exitOnLast ← gets (fun s => fl_exitOnLast (flags s));
       (if exitOnLast : bool then handleUserCommandStr "q" else removeStaleSharedAreaFile);;
       modify (fun s => s <| killInProgress := false |>)
     else
       cur ← gets currentBarrier;
       whenM (negb (String.eqb cur EmptyString))
         (whenM (String.eqb (cl_barrier c) cur)
            (modify (fun s => s <| workersAtCurrentBarrier ::= fun n => n - 1 |>));;
          releaseBarrier cur));;
    modify (fun s => s <| plugins ::= plugins_clientDisconnected st |>);;
    deleteClient p.

Definition initializeComputation : C unit :=
  modify (fun s => s <| workersRunningAndSuspendMsgSent := false |> <| killInProgress := false |>
    <| compId := UniquePid_new 0 0 0 |> <| curTimeStamp := 0 |> <| numRestartPeers := -1 |>
    <| blockUntilDone := false |> <| killAfterCkptOnce := false |> <| workersAtCurrentBarrier := 0 |>
    <| prevBarrier := EmptyString |> <| currentBarrier := EmptyString |>).

Definition getCurrTimestamp : C Z :=
  gets (fun s => to_uint64 (w_mono_sec (world s) * 1000000000 + w_mono_nsec (world s))).

(** The address told to a worker: the coordinator's own for a local peer. *)
Definition address_for (addr : Z) : C Z :=
  local ← gets localhostIPAddr;
  mret (if strStartsWith (inet_ntoa addr) "127." then local else addr).

Definition reject (fd : Z) (hello_local : DmtcpMessage) (why : DmtcpMessageType) : C bool :=
  send fd (hello_local <| msg_type := why |>);; closeFd fd;; mret false.

Definition validateRestartingWorkerProcess (fd addr : Z) (hello : DmtcpMessage) : C bool :=
  if negb (ws_eqb (msg_state hello) RESTARTING) then closeFd fd;; mret false
  else
    hello_local ← newMsg DMT_ACCEPT;
    comp ← gets compId;
    let accept : C bool :=
      stamp ← gets curTimeStamp;
      assertM (negb (stamp =? 0)) "restart worker accepted without a coordinator timestamp";;
      ip ← address_for addr;
      send fd (hello_local <| msg_coordTimeStamp := to_uint64 stamp |> <| msg_ipAddr := ip |>);;
      mret true in
    if up_eqb comp (UniquePid_new 0 0 0) then
      modify (fun s => s <| lookupService ::= LookupService.reset |>);;
      recordEvent "Restarting-Computation";;
      mn ← minimumState;
      assertM (ws_eqb mn UNKNOWN) "coordinator should be idle for first restart worker";;
      now ← getCurrTimestamp;
      modify (fun s => s <| compId := msg_compGroup hello |> <| numRestartPeers := to_int32 (msg_numPeers hello) |>
                         <| curTimeStamp := to_int64 now |>);;
      recordEvent "Restart-Start";;
      accept
    else
      mn ← minimumState;
      if negb (ws_eqb mn RESTARTING) then reject fd hello_local DMT_REJECT_NOT_RESTARTING
      else if negb (up_eqb (msg_compGroup hello) comp) then reject fd hello_local DMT_REJECT_WRONG_COMP
      else
        n ← gets numRestartPeers;
        if negb (msg_numPeers hello =? to_uint32 n) then reject fd hello_local DMT_REJECT_RESTART_PEER_MISMATCH
        else accept.

Definition validateNewWorkerProcess (fd addr : Z) (hello : DmtcpMessage) (p : ptr) : C bool :=
  if negb (ws_eqb (msg_state hello) RUNNING) && negb (ws_eqb (msg_state hello) UNKNOWN) then mret false
  else if negb (msg_virtualPid hello =? -1) then mret false
  else
    hello_local ← newMsg DMT_ACCEPT;
    pid ← getNewVirtualPid;
    update p (fun c => c <| cl_virtualPid := pid |>);;
    let hello_local := hello_local <| msg_virtualPid := pid |> in
    s ← getStatus;
    sent ← gets workersRunningAndSuspendMsgSent;
    comp ← gets compId;
    if sent : bool then
      send fd (hello_local <| msg_compGroup := comp |>);;
      ResendDoCheckpointMsgToWorker p;;
      mret true
    else if (0 <? cs_numPeers s) && negb (ws_eqb (cs_minimumState s) RUNNING) &&
            negb (ws_eqb (cs_minimumState s) UNKNOWN) then
      reject fd hello_local DMT_REJECT_NOT_RUNNING
    else if negb (up_eqb (msg_compGroup hello) (UniquePid_new 0 0 0)) then
      reject fd hello_local DMT_REJECT_WRONG_COMP
    else
      whenM (up_eqb comp (UniquePid_new 0 0 0))
        (now ← getCurrTimestamp;
         modify (fun s => s <| compId := mk_UniquePid (up_hostid (msg_from hello)) pid (up_time (msg_from hello))
                                           (up_generation (msg_from hello)) |>
                            <| curTimeStamp := to_int64 now |> <| numRestartPeers := -1 |>);;
         recordEvent "Initializing-Computation");;
      comp ← gets compId;
      stamp ← gets curTimeStamp;
      ip ← address_for addr;
      send fd (hello_local <| msg_compGroup := comp |> <| msg_coordTimeStamp := to_uint64 stamp |> <| msg_ipAddr := ip |>);;
      mret true.

Definition processDmtUserCmd (hello : DmtcpMessage) (fd : Z) : C unit :=
  reply ← newMsg DMT_NULL;
  let cmd := msg_coordCmd hello in
  let reply := reply <| msg_type := DMT_USER_CMD_RESULT |> <| msg_coordCmd := cmd |> in
  if bool_decide (cmd = DMT_BLOCKING_CKPT) then
    modify (fun s => s <| blockUntilDoneRemote := fd |>);;
    r ← handleUserCommand cmd (Some reply);
    let r := default reply r in
    whenM (negb (bool_decide (msg_coordCmdStatus r = DMT_COORD_SUCCESS)))
      (send fd r;; closeFd fd;; modify (fun s => s <| blockUntilDoneRemote := -1 |>))
  else
    whenM (bool_decide (cmd = DMT_UPDATE_CKPT_INTERVAL))
      (st ← getStatus;
       modify (fun s => s <| plugins ::= fun pl => pl <| ckptIntervalManager ::= ckpt_userCmd hello st |> |>));;
    r ← handleUserCommand cmd (Some reply);
    let r := default reply r in
    send fd r;;
    data ← gets replyData;
    whenM (negb (bool_decide (cmd = DMT_UPDATE_CKPT_INTERVAL)) && (0 <? msg_extraBytes r))
      (emit (SentBytes fd (str_take (Z.to_nat (msg_extraBytes r)) (data +:+ NUL_str))));;
    closeFd fd.

(** A connection as [accept], the handshake poll and the first read deliver it. *)
Record Incoming : Type := mk_Incoming {
  in_valid : bool;                  (* accept() returned a socket *)
  in_fd : Z;
  in_addr : Z;
  in_spoke : bool;                  (* a message arrived before the timeout *)
  in_hello : option DmtcpMessage;   (* None: the read failed *)
  in_extra : string                 (* the bytes after the header *)
}.

Definition onConnect (i : Incoming) : C unit :=
  let fd := in_fd i in
  if negb (in_valid i) || negb (in_spoke i) then closeFd fd
  else
    match in_hello i with
    | None => closeFd fd
    | Some hello =>
        if negb (isValid hello) then closeFd fd
        else if bool_decide (msg_type hello = DMT_NAME_SERVICE_WORKER) then
          p ← newClient fd (in_addr i) hello;
          addDataSocket p
        else if bool_decide (msg_type hello = DMT_USER_CMD) then processDmtUserCmd hello fd
        else
          kill ← gets killInProgress;
          if kill : bool then
            msg ← newMsg DMT_NULL;
            send fd (msg <| msg_type := DMT_KILL_PEER |>);;
            closeFd fd
          else
            cs ← gets clients;
            whenM (bool_decide (cs = [])) initializeComputation;;
            p ← newClient fd (in_addr i) hello;
            whenM (0 <? msg_extraBytes hello) (readProcessInfo p (in_extra i));;
            ok ← (if bool_decide (msg_type hello = DMT_RESTART_WORKER) then
                    ok ← validateRestartingWorkerProcess fd (in_addr i) hello;
                    whenM ok (update p (fun c => c <| cl_virtualPid := up_pid (msg_from hello) |>));;
                    mret ok
                  else if bool_decide (msg_type hello = DMT_NEW_WORKER) then
                    validateNewWorkerProcess fd (in_addr i) hello p
                  else closeFd fd;; mret false);
            whenM ok
              (c ← deref p;
               modify (fun s => s <| virtualPidToClientMap ::= <[cl_virtualPid c := p]> |>
                                  <| clients ::= fun l => l ++ [p] |>);;
               addDataSocket p;;
               st ← getStatus;
               modify (fun s => s <| plugins ::= plugins_clientConnected (cl_state c) hello st |>))
    end.

(** [onData]: [None] is a short read; the payload is [extraBytes] long. *)
Definition onData (p : ptr) (input : option (DmtcpMessage * string)) : C unit :=
  c ← deref p;
  match input with
  | None => mret tt
  | Some (msg, payload) =>
      assertValid msg;;
      let extraData := if 0 <? msg_extraBytes msg then Some payload else None in
      let prevClientState := cl_state c in
      update p (fun c => c <| cl_state := msg_state msg |>);;
      match msg_type msg with
      | DMT_WORKER_RESUMING =>
          update p (fun c => c <| cl_barrier := EmptyString |>);;
          s ← getStatus;
          whenM (is_running s)
            (if ws_eqb prevClientState RESTARTING then
               recordEvent "Restart-Complete";;
               serializeKVDB;;
               modify (fun st => st <| plugins ::= plugins_resumeAfterRestart s |>)
             else modify (fun st => st <| plugins ::= plugins_resumeAfterCkpt s |>))
      | DMT_BARRIER =>
          barrier ← optM (OutOfBounds "msg.barrier") (c_str (msg_barrier msg));
          cur ← gets currentBarrier;
          if negb (String.eqb cur EmptyString) && negb (String.eqb barrier cur) then onDisconnect p
          else if String.eqb barrier (cl_barrier c) then mret tt
          else
            update p (fun c => c <| cl_barrier := barrier |>);;
            processBarrier barrier
      | DMT_UNIQUE_CKPT_FILENAME =>
          modify (fun s => s <| uniqueCkptFilenames := true |>);;
          recordCkptFilename p extraData
      | DMT_CKPT_FILENAME => recordCkptFilename p extraData
      | DMT_GET_CKPT_DIR =>
          reply ← newMsg DMT_GET_CKPT_DIR_RESULT;
          dir ← gets (fun s => fl_ckptDir (flags s));
          send (cl_sock c) (reply <| msg_extraBytes := to_uint32 (Z.of_nat (String.length dir) + 1) |>);;
          emit (SentBytes (cl_sock c) (dir +:+ NUL_str))
      | DMT_UPDATE_CKPT_DIR =>
          data ← optM (AssertFailed "extra data expected with DMT_UPDATE_CKPT_DIR message") extraData;
          dir ← payload_at data 0;
          modify (fun s => s <| flags ::= fun f => f <| fl_ckptDir := dir |> |>)
      | DMT_UPDATE_PROCESS_INFO_AFTER_FORK =>
          update p (fun c => c <| cl_identity := msg_from msg |> <| cl_realPid := msg_realPid msg |>)
      | DMT_UPDATE_PROCESS_INFO_AFTER_INIT_OR_EXEC =>
          data ← optM (OutOfBounds "string from a null pointer") extraData;
          progname ← payload_at data 0;
          update p (fun c => c <| cl_state := msg_state msg |> <| cl_progname := progname |>
                               <| cl_identity := msg_from msg |>);;
          sent ← gets workersRunningAndSuspendMsgSent;
          whenM sent (ResendDoCheckpointMsgToWorker p)
      | DMT_KVDB_REQUEST =>
          e ← gets msgEnv;
          onLookup (cl_sock c) (LookupService.processRequest e msg extraData)
      | _ => onDisconnect p
      end
  end.

(** ** The event loop *)

Inductive event : Type :=
| EvListen (i : Incoming)
| EvStdin (line : option string) (hup : bool)            (* None: end of file *)
| EvClient (p : ptr) (readable : option (option (DmtcpMessage * string))) (hup : bool).

Definition closeStdin : C unit :=
  closed ← gets stdinClosed;
  whenM (negb closed) (emit StdinClosed;; modify (fun s => s <| stdinClosed := true |>)).

(** One entry of the epoll result: data first, then a hang-up. *)
Definition processEvent (ev : World * event) : C unit :=
  modify (fun s => s <| world := fst ev |>);;
  match snd ev with
  | EvListen i => onConnect i
  | EvStdin line hup =>
      (match line with
       | None => emit (Stderr (nl +:+ "  Closing stdin..." +:+ nl));; closeStdin
       | Some l =>
           let cmd := ltrim (tolower l) in
           whenM (negb (String.eqb cmd EmptyString)) (handleUserCommandStr cmd)
       end);;
      whenM hup closeStdin
  | EvClient p readable hup =>
      (match readable with Some input => onData p input | None => mret tt end);;
      whenM hup (onDisconnect p)
  end.

(** [CoordPluginMgr::tick(getStatus())]. *)
Definition tickPlugins (st : ComputationStatus) : C unit := fun s =>
  match plugins_tick st (plugins s) with
  | Ok queued pl => Ok tt (s <| plugins := pl |> <| checkpointQueued ::= orb queued |>)
  | Exit c pl => Exit c (s <| plugins := pl |>)
  | Fault f pl => Fault f (s <| plugins := pl |>)
  end.
Definition tick : C unit := st ← getStatus; tickPlugins st.

(** The inner loop: a tick per timeout of epoll_wait, until a checkpoint is
    queued; the result says whether that ended it. *)
Fixpoint waitLoop (timeouts : list World) : C bool :=
  match timeouts with
  | [] => mret false
  | w :: ws =>
      modify (fun s => s <| world := w |>);;
      tick;;
      q ← gets checkpointQueued;
      if q : bool then mret true else waitLoop ws
  end.

(** One turn of the outer loop. *)
Definition eventLoopTurn (w : World) (timeouts : list World) (evs : list (World * event)) : C unit :=
  modify (fun s => s <| world := w |>);;
  tick;;
  stopped ← waitLoop timeouts;
  (if stopped : bool then mret tt else forM evs processEvent);;
  q ← gets checkpointQueued;
  whenM q (modify (fun s => s <| checkpointQueued := false |>);; _ ← startCheckpoint; mret tt).

(** The state at start-up. *)
Definition Coord_init (f : CoordFlags) (pf : PluginFlags) (host : string) (ip : Z) (e : MsgEnv) (w : World) : Coord :=
  mk_Coord f false false (-1) false false false 0 EmptyString EmptyString 0
    (UniquePid_default 0) (-1) (-1) (-1) ∅ host ip INITIAL_VIRTUAL_PID 1 [] ∅ 0 (Plugins_initialize pf)
    EmptyString 0 0 false ∅ ∅ ∅ ∅ false e w [].
