(* ===== verification/CoordFacts.v ===== *)
(** * Theorems about the coordinator

    The status of a computation, the invariant of clients and virtual pids
    under every event, virtual pid allocation, barriers, checkpoints from their
    start to the restart script, and the handshake. *)

From Stdlib Require Import ZArith Lia Ascii.
From stdpp Require Import base gmap strings numbers list.
From S2P Require Import Prelude CText Identity Json Message Lookup CoordPlugin Coordinator.
Import Convert.
Open Scope Z_scope.

(** ** Status *)

(** What [getStatus] promises for the states of the clients. *)
Record status_spec (states : list eWorkerState) (restartPeers : Z) (st : ComputationStatus) : Prop := mk_status_spec {
  ss_count : cs_numPeers st = Z.of_nat (length states);
  ss_empty : states = [] -> cs_minimumState st = UNKNOWN /\ cs_maximumState st = UNKNOWN;
  ss_min_in : states <> [] -> cs_minimumState st ∈ states;
  ss_min : forall x, x ∈ states -> ws_val (cs_minimumState st) <= ws_val x;
  ss_max_in : states <> [] -> cs_maximumState st ∈ states;
  ss_max : forall x, x ∈ states -> ws_val x <= ws_val (cs_maximumState st);
  ss_unanimous : cs_minimumStateUnanimous st = true <->
    (forall x y, x ∈ states -> y ∈ states -> x = y) /\
    ~ (cs_minimumState st = RESTARTING /\ cs_numPeers st < restartPeers)
}.

Lemma ws_val_max x : x <> WS_MAX -> ws_val x < WSMAX.
Proof. by destruct x. Qed.

Lemma status_fold_cons x l : x <> WS_MAX -> (forall y, y ∈ l -> y <> WS_MAX) ->
  exists mn mx un, foldl status_step (WSMAX, ws_val UNKNOWN, 0, true) (x :: l) =
      (ws_val mn, ws_val mx, Z.of_nat (length (x :: l)), un) /\
    mn ∈ x :: l /\ (forall y, y ∈ x :: l -> ws_val mn <= ws_val y) /\
    mx ∈ x :: l /\ (forall y, y ∈ x :: l -> ws_val y <= ws_val mx) /\
    (un = true <-> forall y, y ∈ l -> y = x).
Proof.
  intros Hx. induction l as [|z l IH] using rev_ind; intros Hl.
  - exists x, x, true. pose proof (ws_val_max x Hx). pose proof (ws_val_range x).
    cbn [foldl status_step]. rewrite Z.eqb_refl, orb_true_r. apply Z.ltb_lt in H as ->.
    split_and!; try (apply list_elem_of_here); try (intros y ->%list_elem_of_singleton; lia).
    + f_equal. f_equal. f_equal. f_equal. change (ws_val UNKNOWN) with 0.
      destruct (Z.ltb_spec 0 (ws_val x)); [done|lia].
    + split; [|done]. intros _ y Hy. by apply elem_of_nil in Hy.
  - destruct IH as (mn & mx & un & Hf & Hmi & Hmn & Hxi & Hmx & Hun).
    { intros y Hy. apply Hl. set_solver. }
    assert (Hz : z <> WS_MAX) by (apply Hl; set_solver).
    assert (Hmnm : mn <> WS_MAX).
    { intros ->. apply elem_of_cons in Hmi as [<-|Hmi]; [done|]. apply (Hl WS_MAX); [set_solver|done]. }
    rewrite app_comm_cons, foldl_app, Hf. cbn [foldl status_step].
    exists (if ws_val z <? ws_val mn then z else mn), (if ws_val mx <? ws_val z then z else mx),
      (un && ((ws_val mn =? ws_val z) || (ws_val mn =? WSMAX))).
    pose proof (ws_val_max mn Hmnm) as Hlt.
    assert (Hsplit : forall y, y ∈ (x :: l) ++ [z] -> y ∈ x :: l \/ y = z) by set_solver.
    split_and!.
    + rewrite length_app. cbn [length].
      replace (Z.of_nat (S (length l) + 1)) with (Z.of_nat (S (length l)) + 1) by lia.
      destruct (Z.ltb_spec (ws_val z) (ws_val mn)), (Z.ltb_spec (ws_val mx) (ws_val z)); done.
    + destruct (ws_val z <? ws_val mn); set_solver.
    + intros y [Hy| ->]%Hsplit; [specialize (Hmn y Hy)|]; destruct (Z.ltb_spec (ws_val z) (ws_val mn)); lia.
    + destruct (ws_val mx <? ws_val z); set_solver.
    + intros y [Hy| ->]%Hsplit; [specialize (Hmx y Hy)|]; destruct (Z.ltb_spec (ws_val mx) (ws_val z)); lia.
    + destruct (Z.eqb_spec (ws_val mn) WSMAX); [lia|]. rewrite orb_false_r, andb_true_iff, Hun, Z.eqb_eq.
      split.
      * intros [Hall Heq%ws_val_inj] y Hy. subst z. apply elem_of_app in Hy as [Hy| ->%list_elem_of_singleton]; [by apply Hall|].
        apply elem_of_cons in Hmi as [->|Hmi]; [done|]. by apply Hall.
      * intros Hall. split; [intros y Hy; apply Hall; set_solver|].
        assert (z = x) as -> by (apply Hall; set_solver).
        f_equal. apply elem_of_cons in Hmi as [->|Hmi]; [done|]. apply Hall. set_solver.
Qed.

Lemma status_of_spec states n sec nsec : (forall y, y ∈ states -> y <> WS_MAX) ->
  status_spec states n (status_of states n sec nsec).
Proof.
  intros Hok. unfold status_of. destruct states as [|x l].
  - cbn. split; cbn; try done; try (by intros x Hx; apply elem_of_nil in Hx).
    split; [|done]. intros _. split; [|by intros [? _]]. intros x y Hx. by apply elem_of_nil in Hx.
  - destruct (status_fold_cons x l) as (mn & mx & un & -> & Hmi & Hmn & Hxi & Hmx & Hun).
    { apply Hok. set_solver. } { intros y Hy. apply Hok. set_solver. }
    assert (Hmnm : mn <> WS_MAX) by by apply Hok.
    pose proof (ws_val_max mn Hmnm). destruct (Z.eqb_spec (ws_val mn) WSMAX); [lia|]. rewrite !ws_of_val.
    assert (E : (if ws_val mx =? ws_val UNKNOWN then UNKNOWN else mx) = mx).
    { destruct (Z.eqb_spec (ws_val mx) (ws_val UNKNOWN)) as [E%ws_val_inj|]; done. }
    rewrite E. split; cbn [cs_numPeers cs_minimumState cs_maximumState cs_minimumStateUnanimous]; try done.
    assert (Hall : un = true <-> forall a b, a ∈ x :: l -> b ∈ x :: l -> a = b).
    { rewrite Hun. split.
      - intros Ha a b [->|Ha1]%elem_of_cons [->|Hb1]%elem_of_cons; [done|symmetry; by apply Ha|by apply Ha|].
        rewrite (Ha a Ha1). symmetry. by apply Ha.
      - intros Ha y Hy. apply Ha; set_solver. }
    destruct (ws_eqb mn RESTARTING) eqn:Er, (Z.ltb_spec (Z.of_nat (length (x :: l))) n); cbn [andb];
      rewrite ?ws_eqb_eq, ?ws_eqb_neq in Er; rewrite <- Hall; split; try done; try (intros [? Hn]; done || (exfalso; apply Hn; split; [done|lia]));
      intros Hu; split; try done; intros [? ?]; (done || lia).
Qed.

(** ** Running the basic operations *)

Definition live (s : Coord) (p : ptr) : Prop := is_Some (heap s !! p).
Definition all_live (s : Coord) : Prop := forall p, p ∈ clients s -> live s p.

(** The clients in order, and their states. *)
Definition client_of (s : Coord) (p : ptr) : CoordClient :=
  default (mk_CoordClient nullProcess 0 0 UNKNOWN EmptyString EmptyString EmptyString EmptyString 0 0 0) (heap s !! p).
Definition states_of (s : Coord) : list eWorkerState := (fun p => cl_state (client_of s p)) <$> clients s.
Definition status (s : Coord) : ComputationStatus :=
  status_of (states_of s) (numRestartPeers s) (w_mono_sec (world s)) (w_mono_nsec (world s)).

Lemma deref_live s p : live s p -> deref p s = Ok (client_of s p) s.
Proof. intros [c Hc]. unfold deref, client_of, gets, mbind, M_bind. by rewrite Hc. Qed.

Lemma update_live s p f : live s p -> update p f s = Ok tt (s <| heap ::= <[p := f (client_of s p)]> |>).
Proof. intros H. unfold update. by rewrite (bind_ok _ _ _ _ _ (deref_live s p H)). Qed.

Lemma collect_live {A} (f : CoordClient -> A) s ps : (forall p, p ∈ ps -> live s p) ->
  collect (fun p => c ← deref p; mret (f c)) ps s = Ok ((fun p => f (client_of s p)) <$> ps) s.
Proof.
  induction ps as [|p ps IH]; intros H; [done|]. cbn [collect].
  erewrite bind_ok; [|by rewrite (bind_ok _ _ _ _ _ (deref_live s p (H p (list_elem_of_here _ _))))].
  erewrite bind_ok by (apply IH; intros q Hq; apply H; by apply list_elem_of_further). done.
Qed.

Lemma getStatus_live s : all_live s -> getStatus s = Ok (status s) s.
Proof.
  intros H. unfold getStatus. erewrite (bind_ok (gets _)) by reflexivity.
  by rewrite (bind_ok _ _ _ _ _ (collect_live cl_state s (clients s) H)).
Qed.

Lemma status_numPeers s : cs_numPeers (status s) = Z.of_nat (length (clients s)).
Proof.
  unfold status, status_of.
  assert (E : forall l a b c d, exists x y z, foldl status_step (a, b, c, d) l = (x, y, c + Z.of_nat (length l), z)).
  { induction l as [|st l IH]; intros a b c d; cbn [foldl length]; [exists a, b, d; f_equal; f_equal; lia|].
    cbn [status_step]. edestruct IH as (x & y & z & ->). exists x, y, z. f_equal. f_equal. lia. }
  destruct (E (states_of s) WSMAX (ws_val UNKNOWN) 0 true) as (x & y & z & ->). cbn [cs_numPeers].
  unfold states_of. rewrite length_fmap. lia.
Qed.

(** The message a broadcast sends, and the outputs it leaves. *)
Definition broadcast_msg (s : Coord) (type : DmtcpMessageType) (extra : string) : DmtcpMessage :=
  (DmtcpMessage_new (msgEnv s) DMT_NULL) <| msg_type := type |> <| msg_compGroup := compId s |>
     <| msg_numPeers := to_uint32 (Z.of_nat (length (clients s))) |>
     <| msg_exitAfterCkpt := if fl_killAfterCkpt (flags s) || killAfterCkptOnce s then 1 else 0 |>
     <| msg_extraBytes := to_uint32 (Z.of_nat (String.length extra)) |>.
Definition broadcast_out (s : Coord) (type : DmtcpMessageType) (extra : string) : list output :=
  concat ((fun p => Sent (cl_sock (client_of s p)) (broadcast_msg s type extra) ::
             (if String.eqb extra EmptyString then [] else [SentBytes (cl_sock (client_of s p)) extra])) <$> clients s).

Lemma forM_emit (s : Coord) (f : ptr -> C unit) (out : ptr -> list output) ps :
  (forall p t, p ∈ ps -> f p (s <| trace := t |>) = Ok tt (s <| trace := t ++ out p |>)) ->
  forall t, forM ps f (s <| trace := t |>) = Ok tt (s <| trace := t ++ concat (out <$> ps) |>).
Proof.
  intros H. induction ps as [|p ps IH]; intros t; cbn [forM].
  - cbn. by rewrite app_nil_r.
  - erewrite bind_ok by (apply H, list_elem_of_here). rewrite IH.
    + rewrite fmap_cons. cbn [concat]. by rewrite app_assoc.
    + intros q t' Hq. apply H. by apply list_elem_of_further.
Qed.

Lemma trace_self (s : Coord) : s <| trace := trace s |> = s.
Proof. by destruct s. Qed.

Lemma broadcast_live s type extra : all_live s ->
  broadcastMessage type extra s =
  Ok tt (s <| killInProgress := killInProgress s || (bool_decide (type = DMT_KILL_PEER) && negb (bool_decide (clients s = []))) |>
           <| trace := trace s ++ broadcast_out s type extra |> <| workersAtCurrentBarrier := 0 |>).
Proof.
  intros Hl. unfold broadcastMessage.
  erewrite (bind_ok (newMsg _)) by reflexivity. erewrite (bind_ok (gets id)) by reflexivity. cbn [id].
  fold (broadcast_msg s type extra).
  set (k := bool_decide (type = DMT_KILL_PEER) && negb (bool_decide (clients s = []))).
  set (s1 := s <| killInProgress := killInProgress s || k |>).
  assert (E1 : whenM k (modify (fun s => s <| killInProgress := true |>)) s = Ok tt s1).
  { unfold s1. destruct k; cbn [whenM]; [by rewrite orb_true_r|]. rewrite orb_false_r. by destruct s. }
  rewrite (bind_ok _ _ _ _ _ E1).
  erewrite bind_ok; [reflexivity|].
  rewrite <- (trace_self s1) at 1. erewrite forM_emit with
    (out := fun p => Sent (cl_sock (client_of s p)) (broadcast_msg s type extra) ::
             (if String.eqb extra EmptyString then [] else [SentBytes (cl_sock (client_of s p)) extra])); [reflexivity|].
  intros p t Hp. assert (Hlp : live (s1 <| trace := t |>) p) by exact (Hl p Hp).
  rewrite (bind_ok _ _ _ _ _ (deref_live _ p Hlp)).
  change (client_of (s1 <| trace := t |>) p) with (client_of s p).
  erewrite (bind_ok (send _ _)) by reflexivity.
  destruct (String.eqb extra EmptyString); cbn [negb whenM]; [done|].
  unfold emit, modify, set_field. cbn. by rewrite <- app_assoc.
Qed.

(** ** Virtual process identifiers *)

(** The 961 identifiers the coordinator hands out. *)
Definition vpid_slot (x : Z) : Prop := exists k, 0 <= k <= 960 /\ x = 40000 + 1000 * k.
Definition vpid_next (x : Z) : Z := if MAX_VIRTUAL_PID <? x + VIRTUAL_PID_STEP then INITIAL_VIRTUAL_PID else x + VIRTUAL_PID_STEP.

Lemma vpid_next_slot x : vpid_slot x -> vpid_slot (vpid_next x).
Proof.
  intros (k & Hk & ->). unfold vpid_next, vpid_slot, MAX_VIRTUAL_PID, VIRTUAL_PID_STEP, INITIAL_VIRTUAL_PID.
  destruct (Z.ltb_spec 1000000 (40000 + 1000 * k + 1000)); [exists 0|exists (k + 1)]; lia.
Qed.

Lemma findVirtualPid_S fuel s :
  findVirtualPid (S fuel) s =
  let s' := s <| nextVirtualPid ::= vpid_next |> in
  match virtualPidToClientMap s !! nextVirtualPid s with
  | None => Ok (nextVirtualPid s) s'
  | Some _ => findVirtualPid fuel s'
  end.
Proof.
  cbn [findVirtualPid]. unfold gets, modify, mbind, M_bind. rsimpl.
  assert (E : whenM (MAX_VIRTUAL_PID <? nextVirtualPid s + VIRTUAL_PID_STEP)
                (λ s0, Ok () (s0 <| nextVirtualPid := INITIAL_VIRTUAL_PID |>))
                (s <| nextVirtualPid ::= λ n, n + VIRTUAL_PID_STEP |>) = Ok tt (s <| nextVirtualPid ::= vpid_next |>)).
  { unfold set_field, vpid_next. cbn. destruct (_ <? _); reflexivity. }
  rewrite E. cbv zeta. change (virtualPidToClientMap (s <| nextVirtualPid ::= vpid_next |>)) with (virtualPidToClientMap s).
  by destruct (virtualPidToClientMap s !! nextVirtualPid s).
Qed.

Lemma findVirtualPid_spec fuel : forall s, vpid_slot (nextVirtualPid s) ->
  exists x, vpid_slot x /\
  match findVirtualPid fuel s with
  | Ok pid s' => s' = s <| nextVirtualPid := x |> /\ vpid_slot pid /\ virtualPidToClientMap s !! pid = None
  | Fault f s' => s' = s <| nextVirtualPid := x |> /\ f = Blocked "getNewVirtualPid" /\
      forall k, (k < fuel)%nat -> is_Some (virtualPidToClientMap s !! Nat.iter k vpid_next (nextVirtualPid s))
  | Exit _ _ => False
  end.
Proof.
  induction fuel as [|fuel IH]; intros s Hs.
  { exists (nextVirtualPid s). cbn. split; [done|]. split_and!; [by destruct s|done|lia]. }
  rewrite findVirtualPid_S. cbv zeta. set (s1 := s <| nextVirtualPid ::= vpid_next |>).
  destruct (virtualPidToClientMap s !! nextVirtualPid s) as [q|] eqn:E.
  - destruct (IH s1 (vpid_next_slot _ Hs)) as (x & Hx & H). exists x. split; [done|].
    destruct (findVirtualPid fuel s1) as [pid s'| |f s']; [done..|].
    destruct H as (-> & -> & H). split_and!; [done|done|]. intros [|k] Hk; [by eexists|].
    rewrite Nat.iter_succ_r. apply (H k). lia.
  - exists (vpid_next (nextVirtualPid s)). split; [by apply vpid_next_slot|]. by destruct s.
Qed.

Lemma vpid_iter k j : 0 <= j -> j + Z.of_nat k <= 960 ->
  Nat.iter k vpid_next (40000 + 1000 * j) = 40000 + 1000 * (j + Z.of_nat k).
Proof.
  intros Hj. induction k as [|k IH]; intros Hk; [cbn; lia|]. rewrite Nat.iter_succ, IH by lia.
  unfold vpid_next, MAX_VIRTUAL_PID, VIRTUAL_PID_STEP.
  destruct (Z.ltb_spec 1000000 (40000 + 1000 * (j + Z.of_nat k) + 1000)); lia.
Qed.

Lemma vpid_covers x y : vpid_slot x -> vpid_slot y -> exists k, (k < 961)%nat /\ Nat.iter k vpid_next x = y.
Proof.
  intros (i & Hi & ->) (j & Hj & ->). destruct (Z_le_gt_dec i j).
  - exists (Z.to_nat (j - i)). split; [lia|]. rewrite vpid_iter by lia. lia.
  - set (k1 := Z.to_nat (960 - i)). set (k2 := Z.to_nat j). exists (k2 + S k1)%nat. split; [lia|].
    rewrite Nat.iter_add, Nat.iter_succ, (vpid_iter k1) by lia.
    replace (vpid_next (40000 + 1000 * (i + Z.of_nat k1))) with (40000 + 1000 * 0).
    { rewrite vpid_iter by lia. lia. }
    unfold vpid_next, MAX_VIRTUAL_PID, VIRTUAL_PID_STEP, INITIAL_VIRTUAL_PID.
    destruct (Z.ltb_spec 1000000 (40000 + 1000 * (i + Z.of_nat k1) + 1000)); lia.
Qed.

Lemma getNewVirtualPid_spec s : vpid_slot (nextVirtualPid s) ->
  Z.of_nat (size (virtualPidToClientMap s)) < MAX_VIRTUAL_PID ->
  exists x, vpid_slot x /\
  match getNewVirtualPid s with
  | Ok pid s' => s' = s <| nextVirtualPid := x |> /\ vpid_slot pid /\ virtualPidToClientMap s !! pid = None
  | Fault f s' => s' = s <| nextVirtualPid := x |> /\ f = Blocked "getNewVirtualPid" /\
      forall pid, vpid_slot pid -> is_Some (virtualPidToClientMap s !! pid)
  | Exit _ _ => False
  end.
Proof.
  intros Hs Hsz. unfold getNewVirtualPid. erewrite (bind_ok (gets _)) by reflexivity.
  apply Z.ltb_lt in Hsz as ->. erewrite (bind_ok (assertM _ _)) by reflexivity.
  destruct (findVirtualPid_spec 961 s Hs) as (x & Hx & H). exists x. split; [done|].
  unfold mbind, M_bind. destruct (findVirtualPid 961 s) as [pid s'| |f s']; [|done|].
  - destruct H as (-> & Hp & Hn). destruct (Z.eqb_spec pid (-1)) as [->|].
    + destruct Hp as (k & ? & ?). lia.
    + done.
  - destruct H as (-> & -> & H). split_and!; [done|done|]. intros pid Hp.
    destruct (vpid_covers _ _ Hs Hp) as (k & Hk & <-). by apply H.
Qed.

(** ** The invariant of the coordinator's tables *)

Definition tables_ok (cls : list ptr) (h : gmap ptr CoordClient) (nx : ptr) (m : gmap Z ptr) (cur : Z) : Prop :=
  NoDup cls /\ (forall p, p ∈ cls -> is_Some (h !! p)) /\
  (forall v p, m !! v = Some p -> p ∈ cls /\ exists c, h !! p = Some c /\ cl_virtualPid c = v) /\
  vpid_slot cur /\ (forall p c, h !! p = Some c -> (p < nx)%nat /\ cl_isNSWorker c = 0).

(** Clients are distinct live objects, a virtual pid leads to the connected
    client that has it, the allocation cursor is one of the 961 slots; no object
    is marked as a name service connection. *)
Definition coord_wf (s : Coord) : Prop :=
  tables_ok (clients s) (heap s) (nextPtr s) (virtualPidToClientMap s) (nextVirtualPid s).

(** The same inside a handler: with the entry of the virtual pid [v] not yet
    removed, and with an object [q] that is not (or no longer) a client. *)
Definition Inv (v : option Z) (q : option ptr) (s : Coord) : Prop :=
  tables_ok (clients s) (heap s) (nextPtr s)
    (match v with Some v => delete v (virtualPidToClientMap s) | None => virtualPidToClientMap s end)
    (nextVirtualPid s) /\
  match q with Some q => q ∉ clients s /\ live s q | None => True end.

Lemma Inv_wf s : coord_wf s <-> Inv None None s.
Proof. unfold Inv, coord_wf. tauto. Qed.

Ltac frame := apply preserves_modify; intros ? HI; exact HI.

(** Leaves of a handler: decompose binds, ifs and matches, then the frame. *)
Ltac pres :=
  repeat match goal with
  | |- preserves _ (_ ≫= _) => apply preserves_bind; [|intros ?]
  | |- preserves _ (mret _) => apply preserves_ret
  | |- preserves _ (gets _) => apply preserves_gets
  | |- preserves _ (faultM _) => apply preserves_fault
  | |- preserves _ (exitM _) => apply preserves_exit
  | |- preserves _ (assertM _ _) => apply preserves_assert
  | |- preserves _ (optM _ _) => apply preserves_opt
  | |- preserves _ (whenM _ _) => apply preserves_when
  | |- preserves _ (forM _ _) => apply preserves_forM; intros ? _
  | |- preserves _ (modify _) => frame
  | |- preserves _ _ => solve [eauto with dmtcp]
  | |- preserves _ (if ?b then _ else _) => destruct b
  | |- preserves _ (match ?x with _ => _ end) => destruct x
  end.

Section leaves.
Context (v : option Z) (q : option ptr).
Abbreviation I := (Inv v q).

Lemma pres_emit o : preserves I (emit o).
Proof. frame. Qed.

Lemma pres_deref p : preserves I (deref p).
Proof. unfold deref. pres. Qed.

(** Updating an object, its virtual pid aside or when it is the one set apart. *)
Lemma pres_update p f : (forall c, cl_isNSWorker (f c) = cl_isNSWorker c) ->
  (forall c, cl_virtualPid (f c) = cl_virtualPid c) \/ q = Some p -> preserves I (update p f).
Proof.
  intros Hns Hf s [(H1 & H2 & H3 & H4 & H5) Hq]. unfold update, deref, gets, mbind, M_bind.
  destruct (heap s !! p) as [c|] eqn:Ep; cbn; [|done]. unfold Inv. rsimpl. split.
  - split_and!; [done| | |done|].
    + intros x Hx. destruct (decide (x = p)) as [->|]; [rewrite lookup_insert_eq; by eexists|].
      rewrite lookup_insert_ne by done. by apply H2.
    + intros w x Hx. destruct (H3 w x Hx) as (Hin & cx & Hcx & Hv). split; [done|].
      destruct (decide (x = p)) as [->|]; [|rewrite lookup_insert_ne by done; by exists cx].
      destruct Hf as [Hf|Hf].
      * exists (f c). rewrite lookup_insert_eq, Hf. split; [done|]. congruence.
      * rewrite Hf in Hq. by destruct Hq.
    + intros x cx. destruct (decide (x = p)) as [->|].
      * rewrite lookup_insert_eq. intros [= <-]. rewrite Hns. by apply H5.
      * rewrite lookup_insert_ne by done. apply H5.
  - destruct q as [r|]; [|done]. destruct Hq as [Hr Hl]. split; [done|].
    unfold live in *. rsimpl. destruct (decide (r = p)) as [->|]; [rewrite lookup_insert_eq; by eexists|].
    by rewrite lookup_insert_ne.
Qed.

Lemma pres_collect {A} (f : ptr -> C A) l : (forall p, preserves I (f p)) -> preserves I (collect f l).
Proof. intros Hf. induction l as [|p l IH]; cbn [collect]; pres; apply Hf || exact IH. Qed.

#[local] Hint Resolve pres_emit pres_deref : dmtcp.

Lemma pres_getStatus : preserves I getStatus.
Proof. unfold getStatus. pres. apply pres_collect. intros p. pres. Qed.
#[local] Hint Resolve pres_getStatus : dmtcp.

Lemma pres_newMsg t : preserves I (newMsg t).
Proof. unfold newMsg. pres. Qed.
#[local] Hint Resolve pres_newMsg : dmtcp.

Lemma pres_send fd m : preserves I (send fd m).
Proof. unfold send. pres. Qed.
Lemma pres_close fd : preserves I (closeFd fd).
Proof. unfold closeFd. pres. Qed.
#[local] Hint Resolve pres_send pres_close : dmtcp.

Lemma pres_recordEvent ev : preserves I (recordEvent ev).
Proof. unfold recordEvent. pres. Qed.
Lemma pres_serializeKVDB : preserves I serializeKVDB.
Proof. unfold serializeKVDB. pres. Qed.
Lemma pres_broadcast t x : preserves I (broadcastMessage t x).
Proof. unfold broadcastMessage. pres. Qed.
#[local] Hint Resolve pres_recordEvent pres_serializeKVDB pres_broadcast : dmtcp.

Lemma pres_releaseBarrier b : preserves I (releaseBarrier b).
Proof. unfold releaseBarrier. pres. Qed.
#[local] Hint Resolve pres_releaseBarrier : dmtcp.
Lemma pres_processBarrier b : preserves I (processBarrier b).
Proof. unfold processBarrier. pres. Qed.
Lemma pres_startCheckpoint : preserves I startCheckpoint.
Proof. unfold startCheckpoint. pres. Qed.
#[local] Hint Resolve pres_processBarrier pres_startCheckpoint : dmtcp.

Lemma pres_payload d o : preserves I (payload_at d o).
Proof. unfold payload_at. pres. Qed.
#[local] Hint Resolve pres_payload : dmtcp.
Lemma pres_recordCkptFilename p d : preserves I (recordCkptFilename p d).
Proof. unfold recordCkptFilename. pres. apply pres_update; [done|by left]. Qed.
Lemma pres_resend p : preserves I (ResendDoCheckpointMsgToWorker p).
Proof. unfold ResendDoCheckpointMsgToWorker. pres. Qed.
#[local] Hint Resolve pres_recordCkptFilename pres_resend : dmtcp.

Lemma pres_printList : preserves I printList.
Proof. unfold printList. pres. apply pres_collect. intros p. unfold client_line. pres. Qed.
Lemma pres_printStatus n r : preserves I (printStatus n r).
Proof. unfold printStatus, getStatusStr. pres. Qed.
Lemma pres_removeStale : preserves I removeStaleSharedAreaFile.
Proof. unfold removeStaleSharedAreaFile. pres. Qed.
#[local] Hint Resolve pres_printList pres_printStatus pres_removeStale : dmtcp.
Lemma pres_preExit : preserves I preExitCleanup.
Proof. unfold preExitCleanup. pres. Qed.
Lemma pres_checkpointReply r b : preserves I (checkpointReply r b).
Proof. unfold checkpointReply. pres. Qed.
#[local] Hint Resolve pres_preExit pres_checkpointReply : dmtcp.

Lemma pres_handleUserCommand c r : preserves I (handleUserCommand c r).
Proof. unfold handleUserCommand. destruct c; pres; (apply pres_update; [done|by left]). Qed.
#[local] Hint Resolve pres_handleUserCommand : dmtcp.
Lemma pres_handleUserCommandStr c : preserves I (handleUserCommandStr c).
Proof. unfold handleUserCommandStr. pres. apply pres_collect. intros p. pres. Qed.

Lemma pres_onLookup fd m : preserves I (onLookup fd m).
Proof.
  intros s Hs. unfold onLookup. destruct (m (lookupService s)) as [[r b] svc|c svc|f svc]; [|exact Hs|done].
  apply (preserves_bind I (send fd r)); [pres|intros []; pres|exact Hs].
Qed.
Lemma pres_processDmtUserCmd h fd : preserves I (processDmtUserCmd h fd).
Proof. unfold processDmtUserCmd. pres. Qed.

Lemma pres_reject fd h t : preserves I (reject fd h t).
Proof. unfold reject. pres. Qed.
Lemma pres_address a : preserves I (address_for a).
Proof. unfold address_for. pres. Qed.
Lemma pres_minimumState : preserves I minimumState.
Proof. unfold minimumState. pres. Qed.
Lemma pres_now : preserves I getCurrTimestamp.
Proof. unfold getCurrTimestamp. pres. Qed.
#[local] Hint Resolve pres_reject pres_address pres_minimumState pres_now : dmtcp.
Lemma pres_validateRestarting fd a h : preserves I (validateRestartingWorkerProcess fd a h).
Proof. unfold validateRestartingWorkerProcess. pres. Qed.
Lemma pres_initializeComputation : preserves I initializeComputation.
Proof. unfold initializeComputation. pres. Qed.

Lemma pres_getNewVirtualPid : preserves I getNewVirtualPid.
Proof.
  intros s Hs. destruct Hs as [(H1 & H2 & H3 & H4 & H5) Hq] eqn:EHs. clear EHs.
  unfold getNewVirtualPid. erewrite (bind_ok (gets _)) by reflexivity.
  destruct (_ <? _); [|done]. erewrite (bind_ok (assertM _ _)) by reflexivity.
  destruct (findVirtualPid_spec 961 s H4) as (x & Hx & H). unfold mbind, M_bind.
  destruct (findVirtualPid 961 s) as [pid s'| |f s']; [|done|done].
  destruct H as (-> & _). destruct (negb (pid =? -1)); [|done]. split; [|exact Hq]. by split_and!.
Qed.
End leaves.

#[export] Hint Resolve pres_emit pres_deref pres_getStatus pres_newMsg pres_send pres_close pres_recordEvent
  pres_serializeKVDB pres_broadcast pres_releaseBarrier pres_processBarrier pres_startCheckpoint pres_payload
  pres_recordCkptFilename pres_resend pres_printList pres_printStatus pres_removeStale pres_preExit
  pres_checkpointReply pres_handleUserCommand pres_handleUserCommandStr pres_onLookup pres_processDmtUserCmd
  pres_reject pres_address pres_minimumState pres_now pres_validateRestarting pres_initializeComputation
  pres_getNewVirtualPid : dmtcp.

(** Handlers that move between the forms of the invariant: [I m J] says that a
    run of [m] from [I] that does not fault ends in [J]. *)
Definition leads {A} (I : Coord -> Prop) (m : C A) (J : Coord -> Prop) : Prop :=
  forall s, I s -> outcome_post (fun _ s' => J s') (fun _ _ => True) (fun _ _ => True) (m s).

Lemma leads_preserves {A} I (m : C A) : preserves I m -> leads I m I.
Proof. intros H s Hs. specialize (H s Hs). by destruct (m s). Qed.

Lemma leads_bind {A B} I J K (m : C A) (k : A -> C B) :
  leads I m J -> (forall a, leads J (k a) K) -> leads I (m ≫= k) K.
Proof.
  intros Hm Hk s Hs. specialize (Hm s Hs). unfold mbind, M_bind. destruct (m s); [|done|done]. by apply Hk.
Qed.

Lemma leads_weaken {A} (I J K : Coord -> Prop) (m : C A) : leads I m J -> (forall s, J s -> K s) -> leads I m K.
Proof. intros H HJK s Hs. specialize (H s Hs). destruct (m s); [|done|done]. by apply HJK. Qed.

Lemma leads_deref {A} I J p (k : CoordClient -> C A) :
  (forall c, leads (fun s => I s /\ heap s !! p = Some c) (k c) J) -> leads I (c ← deref p; k c) J.
Proof.
  intros H s Hs. unfold deref, gets, mbind, M_bind. destruct (heap s !! p) as [c|] eqn:E; cbn; [|done].
  by apply H.
Qed.

Lemma Inv_drop v q s : Inv v (Some q) s -> Inv v None s.
Proof. intros [H _]. by split. Qed.

(** Taking a client off the list; deleting an object that is on no list. *)
Lemma leads_remove p c :
  leads (fun s => Inv None None s /\ heap s !! p = Some c)
    (modify (fun s => s <| clients ::= filter (fun x => x <> p) |>)) (Inv (Some (cl_virtualPid c)) (Some p)).
Proof.
  intros s [[(H1 & H2 & H3 & H4 & H5) _] Hc]. cbn. unfold Inv, live. rsimpl. split; [|split].
  - split_and!; [by apply NoDup_filter| | |done|done].
    + intros x [_ Hx]%list_elem_of_filter. by apply H2.
    + intros w x [Hw Hx]%lookup_delete_Some. destruct (H3 w x Hx) as (Hin & cx & Hcx & Hv).
      split; [|by exists cx]. apply list_elem_of_filter. split; [|done]. intros ->. congruence.
  - rewrite list_elem_of_filter. by intros [? _].
  - by eexists.
Qed.

Lemma leads_forget v q : leads (Inv (Some v) q) (modify (fun s => s <| virtualPidToClientMap ::= delete v |>)) (Inv None q).
Proof. intros s H. exact H. Qed.

Lemma leads_delete p : leads (Inv None (Some p)) (deleteClient p) (Inv None None).
Proof.
  intros s [(H1 & H2 & H3 & H4 & H5) [Hn _]]. unfold deleteClient. cbn. unfold Inv. rsimpl. split; [|done].
  split_and!; [done| | |done|].
  - intros x Hx. rewrite lookup_delete_ne by congruence. by apply H2.
  - intros w x Hx. destruct (H3 w x Hx) as (Hin & cx & Hcx & Hv). split; [done|]. exists cx.
    by rewrite lookup_delete_ne by congruence.
  - intros x cx [_ Hx]%lookup_delete_Some. by apply H5.
Qed.

Lemma leads_onDisconnect p : leads (Inv None None) (onDisconnect p) (Inv None None).
Proof.
  unfold onDisconnect. apply leads_deref. intros c. destruct (Z.eqb_spec (cl_isNSWorker c) 0) as [_|Hne]; cbn [negb].
  2:{ intros s [[(_ & _ & _ & _ & H5) _] Hc]. exfalso. apply Hne. by apply (H5 p). }
  eapply leads_bind; [apply leads_remove|intros _].
  eapply leads_bind; [apply leads_preserves, pres_close|intros _].
  eapply leads_bind; [apply leads_preserves, pres_update; [done|by left]|intros _].
  eapply leads_bind; [apply leads_forget|intros _].
  eapply leads_bind; [apply leads_preserves, pres_getStatus|intros st].
  eapply leads_bind; [apply leads_preserves; pres|intros _].
  eapply leads_bind; [apply leads_preserves; pres|intros _]. apply leads_delete.
Qed.

Lemma newClient_run fd a h s :
  newClient fd a h s = Ok (nextPtr s) (s <| theNextClientNumber ::= fun n => n + 1 |>
    <| heap ::= <[nextPtr s := mk_CoordClient (msg_from h) (theNextClientNumber s) fd (msg_state h) EmptyString EmptyString
                    (inet_ntoa a) EmptyString (msg_realPid h) (w_garbagePid (world s)) 0]> |>
    <| nextPtr := S (nextPtr s) |>).
Proof. reflexivity. Qed.

Lemma leads_newClient fd a h s0 : Inv None None s0 ->
  match newClient fd a h s0 with Ok p s => Inv None (Some p) s | _ => False end.
Proof.
  intros [(H1 & H2 & H3 & H4 & H5) _]. unfold newClient, gets, modify, mbind, M_bind. cbn.
  assert (Hnew : heap s0 !! nextPtr s0 = None).
  { destruct (heap s0 !! nextPtr s0) as [c|] eqn:E; [|done]. apply H5 in E as [? _]. lia. }
  unfold Inv, live. rsimpl. split; [|split].
  - split_and!; [done| | |done|].
    + intros x Hx. destruct (H2 x Hx) as [c Hc]. exists c. rewrite lookup_insert_ne; [done|congruence].
    + intros w x Hx. destruct (H3 w x Hx) as (Hin & cx & Hcx & Hv). split; [done|]. exists cx.
      rewrite lookup_insert_ne; [done|congruence].
    + intros x cx. destruct (decide (nextPtr s0 = x)) as [<-|].
      * rewrite lookup_insert_eq. intros [= <-]. split; [lia|done].
      * rewrite lookup_insert_ne by done. intros [? ?]%H5. split; [lia|done].
  - intros Hx. apply H2 in Hx as [c Hc]. congruence.
  - rewrite lookup_insert_eq. by eexists.
Qed.

Lemma pres_validateNew fd a h p : preserves (Inv None (Some p)) (validateNewWorkerProcess fd a h p).
Proof. unfold validateNewWorkerProcess. pres. apply pres_update; [done|by right]. Qed.

Lemma pres_readProcessInfo q p d : preserves (Inv None q) (readProcessInfo p d).
Proof. unfold readProcessInfo. pres. apply pres_update; [done|by left]. Qed.
#[export] Hint Resolve pres_validateNew pres_readProcessInfo : dmtcp.

(** Admitting a client: its entry and its place on the list. *)
Lemma leads_admit p c :
  leads (fun s => Inv None (Some p) s /\ heap s !! p = Some c)
    (modify (fun s => s <| virtualPidToClientMap ::= <[cl_virtualPid c := p]> |> <| clients ::= fun l => l ++ [p] |>))
    (Inv None None).
Proof.
  intros s [[(H1 & H2 & H3 & H4 & H5) [Hn _]] Hc]. cbn. unfold Inv. rsimpl. split; [|done].
  split_and!; [| | |done|done].
  - apply NoDup_app. split_and!; [done| |apply NoDup_singleton]. intros x Hx ->%list_elem_of_singleton. done.
  - intros x [Hx| ->%list_elem_of_singleton]%elem_of_app; [by apply H2|by eexists].
  - intros w x Hx. apply lookup_insert_Some in Hx as [[<- <-]|[Hw Hx]].
    + split; [set_solver|]. by exists c.
    + destruct (H3 w x Hx) as (Hin & cx & Hcx & Hv). split; [set_solver|]. by exists cx.
Qed.

Lemma leads_onConnect i : leads (Inv None None) (onConnect i) (Inv None None).
Proof.
  unfold onConnect. destruct (negb (in_valid i) || negb (in_spoke i)); [apply leads_preserves; pres|].
  destruct (in_hello i) as [hello|]; [|apply leads_preserves; pres].
  destruct (negb (isValid hello)); [apply leads_preserves; pres|].
  assert (Hnew : forall k : ptr -> C unit, (forall p, leads (Inv None (Some p)) (k p) (Inv None None)) ->
    leads (Inv None None) (p ← newClient (in_fd i) (in_addr i) hello; k p) (Inv None None)).
  { intros k Hk s Hs. pose proof (leads_newClient (in_fd i) (in_addr i) hello s Hs) as H.
    unfold mbind, M_bind. destruct (newClient _ _ _ s); [by apply Hk|done|done]. }
  destruct (bool_decide (msg_type hello = DMT_NAME_SERVICE_WORKER)).
  { apply Hnew. intros p. eapply leads_weaken; [apply leads_preserves; unfold addDataSocket; pres|].
    intros s'. apply Inv_drop. }
  destruct (bool_decide (msg_type hello = DMT_USER_CMD)); [apply leads_preserves; pres|].
  eapply leads_bind; [apply leads_preserves; pres|intros kill].
  destruct kill; [apply leads_preserves; pres|].
  eapply leads_bind; [apply leads_preserves; pres|intros cs].
  eapply leads_bind; [apply leads_preserves; pres|intros _].
  apply Hnew. intros p.
  eapply leads_bind; [apply leads_preserves; pres|intros _].
  eapply leads_bind; [apply leads_preserves; pres; (apply pres_update; [done|by right])|intros ok].
  destruct ok; cbn [whenM]; [|intros s Hs; by apply Inv_drop in Hs].
  apply leads_deref. intros c. eapply leads_bind; [apply leads_admit|intros _].
  apply leads_preserves. unfold addDataSocket. pres.
Qed.

Lemma leads_onData p input : leads (Inv None None) (onData p input) (Inv None None).
Proof.
  unfold onData. eapply leads_bind; [apply leads_preserves; pres|intros c].
  destruct input as [[msg payload]|]; [|apply leads_preserves; pres].
  eapply leads_bind; [apply leads_preserves; unfold assertValid; pres|intros _].
  eapply leads_bind; [apply leads_preserves, pres_update; [done|by left]|intros _].
  destruct (msg_type msg); try apply leads_onDisconnect;
    try (apply leads_preserves; pres; (apply pres_update; [done|by left])); try (apply leads_preserves; solve [pres]).
  eapply leads_bind; [apply leads_preserves; pres|intros barrier].
  eapply leads_bind; [apply leads_preserves; pres|intros cur].
  destruct (negb (String.eqb cur EmptyString) && negb (String.eqb barrier cur)); [apply leads_onDisconnect|].
  apply leads_preserves. pres. apply pres_update; [done|by left].
Qed.

Lemma leads_forM {A} I (l : list A) (f : A -> C unit) : (forall x, leads I (f x) I) -> leads I (forM l f) I.
Proof.
  intros Hf. induction l as [|x l IH]; cbn [forM]; [apply leads_preserves; pres|].
  eapply leads_bind; [apply Hf|intros _]. exact IH.
Qed.

Lemma leads_processEvent ev : leads (Inv None None) (processEvent ev) (Inv None None).
Proof.
  unfold processEvent. eapply leads_bind; [apply leads_preserves; pres|intros _].
  destruct (snd ev) as [i|line hup|p readable hup].
  - apply leads_onConnect.
  - apply leads_preserves. unfold closeStdin. pres.
  - eapply leads_bind with (J := Inv None None); [|intros _; destruct hup; cbn [whenM]].
    + destruct readable as [input|]; [apply leads_onData|apply leads_preserves; pres].
    + apply leads_onDisconnect.
    + apply leads_preserves. pres.
Qed.

Lemma pres_tick : preserves (Inv None None) tick.
Proof.
  unfold tick. pres. intros s Hs. unfold tickPlugins. destruct (plugins_tick _ _); exact Hs || done.
Qed.

Lemma leads_turn w ws evs : leads (Inv None None) (eventLoopTurn w ws evs) (Inv None None).
Proof.
  unfold eventLoopTurn. eapply leads_bind; [apply leads_preserves; pres|intros _].
  eapply leads_bind; [apply leads_preserves, pres_tick|intros _].
  eapply leads_bind with (J := Inv None None); [|intros stopped].
  { clear evs. induction ws as [|w' ws IH]; cbn [waitLoop]; [apply leads_preserves; pres|].
    eapply leads_bind; [apply leads_preserves; pres|intros _].
    eapply leads_bind; [apply leads_preserves, pres_tick|intros _].
    eapply leads_bind; [apply leads_preserves; pres|intros qd]. destruct qd; [apply leads_preserves; pres|exact IH]. }
  eapply leads_bind with (J := Inv None None); [|intros _; apply leads_preserves; pres].
  destruct stopped; [apply leads_preserves; pres|]. apply leads_forM, leads_processEvent.
Qed.

(** Any number of turns of the event loop. *)
Definition turns (ts : list (World * list World * list (World * event))) : C unit :=
  forM ts (fun '(w, ws, evs) => eventLoopTurn w ws evs).

Lemma Coord_init_wf f pf host ip e w : coord_wf (Coord_init f pf host ip e w).
Proof.
  unfold coord_wf, tables_ok. cbn. split_and!; try done.
  - apply NoDup_nil_2.
  - intros p Hp. by apply elem_of_nil in Hp.
  - exists 0. unfold INITIAL_VIRTUAL_PID. lia.
Qed.

Lemma turns_wf ts s s' : coord_wf s -> turns ts s = Ok tt s' -> coord_wf s'.
Proof.
  intros Hs Hr. assert (H : leads (Inv None None) (turns ts) (Inv None None)).
  { apply leads_forM. intros [[w ws] evs]. apply leads_turn. }
  specialize (H s (proj1 (Inv_wf s) Hs)). rewrite Hr in H. by apply Inv_wf.
Qed.

(** ** Barriers *)

(** A message by which a worker says it has reached barrier [b]. *)
Definition barrier_msg (b : string) (m : DmtcpMessage) : Prop :=
  isValid m = true /\ msg_type m = DMT_BARRIER /\ c_str (msg_barrier m) = Some b.

(** The state after such a message, before the barrier is looked at. *)
Definition arrive (b : string) (p : ptr) (m : DmtcpMessage) (s : Coord) : Coord :=
  s <| heap ::= <[p := (client_of s p) <| cl_state := msg_state m |> <| cl_barrier := b |>]> |>
    <| currentBarrier := b |> <| workersAtCurrentBarrier ::= fun n => n + 1 |>.

Lemma onData_barrier b p m payload s :
  barrier_msg b m -> live s p -> (currentBarrier s = EmptyString \/ currentBarrier s = b) ->
  cl_barrier (client_of s p) <> b ->
  onData p (Some (m, payload)) s = releaseBarrier b (arrive b p m s).
Proof.
  intros (Hv & Ht & Hb) Hl Hcur Hne. unfold onData. rewrite (bind_ok _ _ _ _ _ (deref_live s p Hl)).
  rewrite (bind_ok _ _ _ _ _ (proj1 (assertValid_isValid m s) Hv)).
  rewrite (bind_ok _ _ _ _ _ (update_live s p _ Hl)), Ht, Hb.
  erewrite (bind_ok (optM _ _)) by reflexivity. erewrite (bind_ok (gets _)) by reflexivity. rsimpl.
  assert (E : negb (String.eqb (currentBarrier s) EmptyString) && negb (String.eqb b (currentBarrier s)) = false)
    by (destruct Hcur as [-> | ->]; [done|by rewrite String.eqb_refl, andb_false_r]).
  rewrite E. destruct (String.eqb_spec b (cl_barrier (client_of s p))) as [Heq|_]; [congruence|].
  set (s1 := s <| heap ::= _ |>). assert (Hl1 : live s1 p) by (unfold live, s1; rsimpl; rewrite lookup_insert_eq; by eexists).
  rewrite (bind_ok _ _ _ _ _ (update_live s1 p _ Hl1)).
  assert (Hc1 : client_of s1 p = (client_of s p) <| cl_state := msg_state m |>)
    by (unfold client_of at 1, s1; rsimpl; by rewrite lookup_insert_eq). rewrite Hc1.
  unfold processBarrier. erewrite (bind_ok (gets _)) by reflexivity.
  set (s2 := s1 <| heap ::= _ |>).
  assert (E2 : (if String.eqb (currentBarrier s2) EmptyString then modify (fun s => s <| currentBarrier := b |>)
                else assertM (String.eqb b (currentBarrier s2)) "barrier mismatch") s2 = Ok tt (s2 <| currentBarrier := b |>)).
  { change (currentBarrier s2) with (currentBarrier s). destruct (String.eqb_spec (currentBarrier s) EmptyString) as [_|Hce]; [done|].
    destruct Hcur as [?|Hcb]; [done|]. rewrite Hcb, String.eqb_refl. cbn. f_equal. unfold s2, s1, set_field. cbn. by rewrite Hcb. }
  rewrite (bind_ok _ _ _ _ _ E2). erewrite (bind_ok (modify _)) by reflexivity. f_equal.
  unfold s2, s1, arrive, set_field. cbn. by rewrite insert_insert_eq.
Qed.

Lemma releaseBarrier_waits b s : all_live s -> workersAtCurrentBarrier s <> Z.of_nat (length (clients s)) ->
  releaseBarrier b s = Ok tt s.
Proof.
  intros Hl Hw. unfold releaseBarrier. rewrite (bind_ok _ _ _ _ _ (getStatus_live s Hl)).
  erewrite (bind_ok (gets id)) by reflexivity. cbn [id]. rewrite status_numPeers.
  by destruct (Z.eqb_spec (workersAtCurrentBarrier s) (Z.of_nat (length (clients s)))).
Qed.

(** The state in which the release is broadcast. *)
Definition released (b : string) (s : Coord) : Coord :=
  s <| eventId ::= fun n => n + 1 |>
    <| lookupService ::= fun svc => LookupService.set svc "/Event_Timestamp_Ms" (w_timestampStr (world s))
         (pad_left 5 (XToString (eventId s + 1)) +:+ "-" +:+ ("Barrier-" +:+ b)) |>
    <| prevBarrier := currentBarrier s |> <| currentBarrier := EmptyString |>
    <| workersAtCurrentBarrier := 0 |> <| numCkptWorkers := Z.of_nat (length (clients s)) |>.

Lemma releaseBarrier_fires b s : all_live s -> workersAtCurrentBarrier s = Z.of_nat (length (clients s)) ->
  numRestartPeers s <= 0 \/ numRestartPeers s = Z.of_nat (length (clients s)) ->
  releaseBarrier b s =
  Ok tt (released b s <| trace := trace s ++ broadcast_out s DMT_BARRIER_RELEASED (currentBarrier s +:+ NUL_str) |>).
Proof.
  intros Hl Hw Hn. unfold releaseBarrier. rewrite (bind_ok _ _ _ _ _ (getStatus_live s Hl)).
  erewrite (bind_ok (gets id)) by reflexivity. cbn [id]. rewrite status_numPeers, Hw, Z.eqb_refl. cbn [whenM].
  assert (E : (0 <? numRestartPeers s) && negb (Z.of_nat (length (clients s)) =? numRestartPeers s) = false).
  { destruct Hn as [Hn|Hn]; [|rewrite Hn, Z.eqb_refl; by rewrite andb_false_r].
    destruct (Z.ltb_spec 0 (numRestartPeers s)); [lia|done]. }
  rewrite E. unfold recordEvent. erewrite bind_ok by reflexivity. erewrite (bind_ok (modify _)) by reflexivity.
  erewrite (bind_ok (gets _)) by reflexivity.
  match goal with |- broadcastMessage _ _ ?x = _ => set (s1 := x) end.
  assert (Hl1 : all_live s1) by exact Hl. rewrite (broadcast_live s1 _ _ Hl1).
  change (bool_decide (DMT_BARRIER_RELEASED = DMT_KILL_PEER)) with false. cbn [andb]. rewrite orb_false_r.
  f_equal.
Qed.

(** Workers arriving one after the other. *)
Definition arrivals (b : string) (l : list (ptr * DmtcpMessage)) : C unit :=
  forM l (fun pm => onData (fst pm) (Some (snd pm, EmptyString))).

(** The coordinator while workers gather at [b]: those in [here] have come. *)
Record gathering (b : string) (here : list ptr) (s : Coord) : Prop := mk_gathering {
  g_live : all_live s;
  g_count : workersAtCurrentBarrier s = Z.of_nat (length here);
  g_cur : currentBarrier s = if bool_decide (here = []) then EmptyString else b;
  g_new : forall p, p ∈ clients s -> p ∉ here -> cl_barrier (client_of s p) <> b;
  g_restart : numRestartPeers s <= 0 \/ numRestartPeers s = Z.of_nat (length (clients s))
}.

(** What does not change while they gather. *)
Definition same_group (s s' : Coord) : Prop :=
  clients s' = clients s /\ (forall p, cl_sock (client_of s' p) = cl_sock (client_of s p)) /\
  msgEnv s' = msgEnv s /\ compId s' = compId s /\ flags s' = flags s /\ killAfterCkptOnce s' = killAfterCkptOnce s.

Lemma same_group_out s s' t x : same_group s s' -> broadcast_out s' t x = broadcast_out s t x.
Proof.
  intros (Hc & Hs & He & Hi & Hf & Hk). unfold broadcast_out, broadcast_msg. rewrite Hc, He, Hi, Hf, Hk.
  f_equal. apply list_fmap_ext. intros i p _. by rewrite Hs.
Qed.

Lemma client_of_insert s p c q : client_of (s <| heap ::= <[p := c]> |>) q = if decide (q = p) then c else client_of s q.
Proof.
  unfold client_of. rsimpl. destruct (decide (q = p)) as [->|]; [by rewrite lookup_insert_eq|by rewrite lookup_insert_ne].
Qed.

Lemma arrive_same_group b p m s : same_group s (arrive b p m s).
Proof.
  unfold same_group. split_and!; try done. intros q.
  change (client_of (arrive b p m s) q) with
    (client_of (s <| heap ::= <[p := (client_of s p) <| cl_state := msg_state m |> <| cl_barrier := b |>]> |>) q).
  rewrite client_of_insert. by destruct (decide (q = p)) as [->|].
Qed.

Lemma arrive_live b p m s : all_live s -> all_live (arrive b p m s).
Proof.
  intros Hl q Hq. unfold live, arrive. rsimpl. destruct (decide (q = p)) as [->|].
  - rewrite lookup_insert_eq. by eexists.
  - rewrite lookup_insert_ne by done. by apply Hl.
Qed.

Lemma gathering_arrive b here p m s : b <> EmptyString -> gathering b here s -> p ∈ clients s -> p ∉ here ->
  gathering b (here ++ [p]) (arrive b p m s).
Proof.
  intros Hb [Hl Hc Hcur Hn Hr] Hp Hh. split.
  - by apply arrive_live.
  - unfold arrive. rsimpl. rewrite Hc, length_app. cbn. lia.
  - unfold arrive. rsimpl. rewrite bool_decide_false; [done|]. by destruct here.
  - intros q Hq Hqh.
    change (client_of (arrive b p m s) q) with
      (client_of (s <| heap ::= <[p := (client_of s p) <| cl_state := msg_state m |> <| cl_barrier := b |>]> |>) q).
    rewrite client_of_insert. destruct (decide (q = p)) as [->|]; [set_solver|]. apply Hn; [done|set_solver].
  - exact Hr.
Qed.

Lemma gathering_cur b here s : gathering b here s -> currentBarrier s = EmptyString \/ currentBarrier s = b.
Proof. intros [_ _ Hcur _ _]. rewrite Hcur. destruct (bool_decide _); auto. Qed.

Lemma arrivals_wait b l : forall here s, b <> EmptyString -> gathering b here s ->
  Forall (fun pm => fst pm ∈ clients s /\ barrier_msg b (snd pm)) l -> NoDup (here ++ l.*1) ->
  (length here + length l < length (clients s))%nat ->
  exists s', arrivals b l s = Ok tt s' /\ gathering b (here ++ l.*1) s' /\ same_group s s' /\ trace s' = trace s.
Proof.
  induction l as [|[p m] l IH]; intros here s Hb Hg Hok Hnd Hlen; cbn [arrivals forM].
  { exists s. cbn. rewrite app_nil_r. by split_and!. }
  inversion_clear Hok as [|? ? [Hp Hm] Hok']. cbn [fst snd] in *. rewrite fmap_cons in Hnd. cbn [fst] in Hnd.
  assert (Hph : p ∉ here).
  { apply NoDup_app in Hnd as (_ & Hd & _). intros Hx. apply (Hd p Hx). apply list_elem_of_here. }
  pose proof (gathering_arrive b here p m s Hb Hg Hp Hph) as Hg'.
  assert (E : onData p (Some (m, EmptyString)) s = Ok tt (arrive b p m s)).
  { rewrite (onData_barrier b p m EmptyString s Hm (g_live _ _ _ Hg p Hp) (gathering_cur b here s Hg)
               (g_new _ _ _ Hg p Hp Hph)).
    apply releaseBarrier_waits; [apply Hg'|]. rewrite (g_count _ _ _ Hg'), length_app.
    change (clients (arrive b p m s)) with (clients s). cbn [length] in *. lia. }
  rewrite (bind_ok _ _ _ _ _ E).
  destruct (IH (here ++ [p]) (arrive b p m s)) as (s' & Hr & Hg2 & Hs2 & Ht2); try done.
  - by rewrite <- app_assoc.
  - rewrite length_app. change (clients (arrive b p m s)) with (clients s). cbn [length] in *. lia.
  - exists s'. split_and!; [exact Hr|by rewrite fmap_cons; rewrite <- app_assoc in Hg2| |].
    + destruct (arrive_same_group b p m s) as (A1 & A2 & A3 & A4 & A5 & A6), Hs2 as (B1 & B2 & B3 & B4 & B5 & B6).
      unfold same_group. rewrite B1, B3, B4, B5, B6. split_and!; try done. intros q. by rewrite B2, A2.
    + by rewrite Ht2.
Qed.

Lemma arrivals_app b l k s s1 : arrivals b l s = Ok tt s1 -> arrivals b (l ++ k) s = arrivals b k s1.
Proof.
  revert s. induction l as [|x l IH]; intros s H; cbn [app arrivals forM] in *; [by injection H as ->|].
  apply bind_ok_inv in H as ([] & s2 & H1 & H2). rewrite (bind_ok _ _ _ _ _ H1). by apply IH.
Qed.

Lemma arrivals_release b l s : b <> EmptyString -> gathering b [] s -> NoDup (clients s) ->
  Forall (fun pm => barrier_msg b (snd pm)) l -> l.*1 ≡ₚ clients s -> clients s <> [] ->
  exists s', arrivals b l s = Ok tt s' /\
    trace s' = trace s ++ broadcast_out s DMT_BARRIER_RELEASED (b +:+ NUL_str) /\
    currentBarrier s' = EmptyString /\ prevBarrier s' = b /\ workersAtCurrentBarrier s' = 0 /\
    numCkptWorkers s' = Z.of_nat (length (clients s)).
Proof.
  intros Hb Hg Hnd Hm Hperm Hne. destruct (exists_last (l := l)) as (l' & [p m] & ->).
  { intros ->. cbn in Hperm. by apply Permutation_nil_l in Hperm. }
  assert (Hin : Forall (fun pm => fst pm ∈ clients s /\ barrier_msg b (snd pm)) (l' ++ [(p, m)])).
  { apply Forall_forall. intros x Hx. split; [|by eapply Forall_forall in Hm].
    rewrite <- Hperm. apply list_elem_of_fmap. by exists x. }
  assert (Hnd' : NoDup ((l' ++ [(p, m)]).*1)) by by rewrite Hperm.
  pose proof (Permutation_length Hperm) as Hlen. rewrite length_fmap, length_app in Hlen. cbn in Hlen.
  apply Forall_app in Hin as [Hin' [[Hp Hpm] _]%Forall_cons]. cbn [fst snd] in *.
  rewrite fmap_app in Hnd'. pose proof (proj1 (NoDup_app _ _) Hnd') as (Hnd1 & Hd & _).
  destruct (arrivals_wait b l' [] s Hb Hg Hin') as (s1 & Hr1 & Hg1 & Hs1 & Ht1); [done|cbn; lia|].
  rewrite (arrivals_app b l' [(p, m)] s s1 Hr1). cbn [app] in Hg1.
  assert (Hcl : clients s1 = clients s) by apply Hs1.
  assert (Hph : p ∉ l'.*1) by (intros Hx; apply (Hd p Hx), list_elem_of_here).
  assert (Hp1 : p ∈ clients s1) by by rewrite Hcl.
  pose proof (gathering_arrive b (l'.*1) p m s1 Hb Hg1 Hp1 Hph) as Hg2.
  assert (E : onData p (Some (m, EmptyString)) s1 = releaseBarrier b (arrive b p m s1)).
  { apply onData_barrier; [done|by apply Hg1|by eapply gathering_cur|by apply Hg1]. }
  set (s2 := arrive b p m s1) in *. assert (Hcl2 : clients s2 = clients s) by exact Hcl.
  unfold arrivals. cbn [forM fst snd]. unfold mbind, M_bind. rewrite E, releaseBarrier_fires.
  - eexists. split; [reflexivity|]. rsimpl. unfold released. rsimpl. change (currentBarrier s2) with b.
    change (trace s2) with (trace s1). rewrite Ht1. split_and!; try done; [|by rewrite Hcl2].
    f_equal. apply same_group_out. destruct (arrive_same_group b p m s1) as (A1 & A2 & A3 & A4 & A5 & A6), Hs1 as (B1 & B2 & B3 & B4 & B5 & B6).
    unfold same_group, s2. rewrite A1, A3, A4, A5, A6. split_and!; try done. intros q. by rewrite A2, B2.
  - apply Hg2.
  - rewrite (g_count _ _ _ Hg2), Hcl2, length_app, length_fmap. cbn. lia.
  - apply Hg2.
Qed.

(** ** Starting a checkpoint *)

(** The state in which the request is broadcast. *)
Definition ckpt_started (s : Coord) : Coord :=
  s <| uniqueCkptFilenames := false |> <| ckptTimeStamp := w_time (world s) |>
    <| eventId ::= fun n => n + 1 |>
    <| lookupService ::= fun svc => LookupService.set svc "/Event_Timestamp_Ms" (w_timestampStr (world s))
         (pad_left 5 (XToString (eventId s + 1)) +:+ "-" +:+ "Ckpt-Start") |>
    <| numRestartFilenames := 0 |> <| numRestartPeers := -1 |>
    <| restartFilenames := ∅ |> <| rshCmdFileNames := ∅ |> <| sshCmdFileNames := ∅ |>
    <| compId ::= incrementGeneration |>.

Definition ready_to_checkpoint (s : Coord) : bool :=
  ws_eqb (cs_minimumState (status s)) RUNNING && cs_minimumStateUnanimous (status s) &&
  negb (workersRunningAndSuspendMsgSent s).

Lemma startCheckpoint_live s : all_live s ->
  startCheckpoint s =
  if ready_to_checkpoint s then
    Ok true (ckpt_started s <| trace := trace s ++ broadcast_out (ckpt_started s) DMT_DO_CHECKPOINT EmptyString |>
               <| workersAtCurrentBarrier := 0 |> <| workersRunningAndSuspendMsgSent := true |>)
  else Ok false s.
Proof.
  intros Hl. unfold startCheckpoint. rewrite (bind_ok _ _ _ _ _ (getStatus_live s Hl)).
  erewrite (bind_ok (gets _)) by reflexivity. unfold ready_to_checkpoint. destruct (_ && _ && _); [|done].
  erewrite (bind_ok (modify _)) by reflexivity. unfold recordEvent.
  erewrite bind_ok by reflexivity. erewrite (bind_ok (modify _)) by reflexivity.
  match goal with |- (broadcastMessage _ _ ≫= _) ?x = _ => change x with (ckpt_started s) end.
  assert (Hl1 : all_live (ckpt_started s)) by exact Hl.
  rewrite (bind_ok _ _ _ _ _ (broadcast_live (ckpt_started s) _ _ Hl1)).
  change (bool_decide (DMT_DO_CHECKPOINT = DMT_KILL_PEER)) with false. cbn [andb]. rewrite orb_false_r. done.
Qed.

(** When a request is accepted. *)
Lemma ready_to_checkpoint_iff s : (forall x, x ∈ states_of s -> x <> WS_MAX) ->
  (ready_to_checkpoint s = true <->
   clients s <> [] /\ (forall x, x ∈ states_of s -> x = RUNNING) /\ workersRunningAndSuspendMsgSent s = false).
Proof.
  intros Hx. pose proof (status_of_spec (states_of s) (numRestartPeers s)
    (w_mono_sec (world s)) (w_mono_nsec (world s)) Hx) as Hst. fold (status s) in Hst.
  unfold ready_to_checkpoint. rewrite !andb_true_iff, ws_eqb_eq, negb_true_iff. split.
  - intros [[Hmin Hun] Hsent]. apply (ss_unanimous _ _ _ Hst) in Hun as [Hall _].
    assert (Hne : states_of s <> []).
    { intros E. destruct (ss_empty _ _ _ Hst E) as [E' _]. congruence. }
    split_and!; [|intros x Hin|done].
    + intros E. apply Hne. unfold states_of. by rewrite E.
    + pose proof (ss_min_in _ _ _ Hst Hne) as Hin'. rewrite Hmin in Hin'. by apply Hall.
  - intros (Hne & Hall & Hsent). assert (Hne' : states_of s <> []).
    { unfold states_of. intros E%fmap_nil_inv. done. }
    assert (Hmin : cs_minimumState (status s) = RUNNING) by (apply Hall, (ss_min_in _ _ _ Hst Hne')).
    split_and!; [done| |done]. apply (ss_unanimous _ _ _ Hst). split.
    + intros x y H1 H2. by rewrite (Hall x H1), (Hall y H2).
    + rewrite Hmin. by intros [? _].
Qed.

(** No request is accepted while the previous checkpoint is under way. *)
Lemma startCheckpoint_busy s : all_live s -> workersRunningAndSuspendMsgSent s = true -> startCheckpoint s = Ok false s.
Proof.
  intros Hl E. rewrite (startCheckpoint_live s Hl). unfold ready_to_checkpoint. rewrite E. cbn [negb]. by rewrite andb_false_r.
Qed.

(** ** Completing a checkpoint *)

(** What one worker reports: itself, its image, the remote shell, its host. *)
Record report : Type := mk_report { r_client : ptr; r_file : string; r_shell : string; r_host : string }.

Definition report_ok (r : report) : Prop :=
  no_NUL (r_file r) = true /\ no_NUL (r_host r) = true /\
  (r_shell r = EmptyString \/ r_shell r = "rsh" \/ r_shell r = "ssh").

Definition report_payload (r : report) : string :=
  r_file r +:+ String NUL (r_shell r +:+ String NUL (r_host r +:+ NUL_str)).

Abbreviation files := (gmap string (list string)).

(** Which of the three maps a file goes to. *)
Definition add_file (shell : string) (r : report) (m : files) : files :=
  if String.eqb (r_shell r) shell then push (r_host r) (r_file r) m else m.
Definition all_files (shell : string) (rs : list report) (m : files) : files :=
  foldl (fun m r => add_file shell r m) m rs.

Definition filed (r : report) (s : Coord) : Coord :=
  s <| heap ::= <[r_client r := (client_of s (r_client r)) <| cl_state := CHECKPOINTED |>]> |>
    <| restartFilenames ::= add_file EmptyString r |>
    <| rshCmdFileNames ::= add_file "rsh" r |> <| sshCmdFileNames ::= add_file "ssh" r |>
    <| numRestartFilenames ::= fun n => n + 1 |>.

(** The outputs of the last report. *)
Definition script_out (s : Coord) : output :=
  WroteScript (fl_ckptDir (flags s)) (uniqueCkptFilenames s) (ckptTimeStamp s)
    (theCheckpointInterval (ckptIntervalManager (plugins s))) (fl_thePort (flags s)) (compId s)
    (restartFilenames s) (rshCmdFileNames s) (sshCmdFileNames s).
Definition block_out (s : Coord) : list output :=
  if blockUntilDone s then
    [Sent (blockUntilDoneRemote s) ((DmtcpMessage_new (msgEnv s) DMT_USER_CMD_RESULT)
       <| msg_coordCmd := DMT_BLOCKING_CKPT |> <| msg_numPeers := to_uint32 (Z.of_nat (length (clients s))) |>);
     Closed (blockUntilDoneRemote s)]
  else [].

Lemma report_parse r : report_ok r ->
  c_str_at (report_payload r) 0 = Some (r_file r) /\
  c_str_at (report_payload r) (String.length (r_file r) + 1) = Some (r_shell r) /\
  c_str_at (report_payload r) (String.length (r_shell r) + 1 + String.length (r_file r) + 1) = Some (r_host r).
Proof.
  intros (Hf & Hh & Hs). unfold report_payload.
  assert (Hsn : no_NUL (r_shell r) = true) by (destruct Hs as [-> |[-> | ->]]; done).
  split_and!.
  - pose proof (c_str_at_app EmptyString (r_file r) (r_shell r +:+ String NUL (r_host r +:+ NUL_str)) 0 eq_refl Hf) as E.
    by rewrite str_app_nil_l in E.
  - change (String NUL (r_shell r +:+ ?x)) with (NUL_str +:+ (r_shell r +:+ x)). rewrite <- str_app_assoc.
    apply c_str_at_app; [|done]. rewrite str_app_length. done.
  - change (String NUL (r_host r +:+ NUL_str)) with (NUL_str +:+ (r_host r +:+ NUL_str)).
    change (String NUL ?x) with (NUL_str +:+ x). rewrite <- !str_app_assoc.
    rewrite (str_app_assoc _ (r_host r)). apply c_str_at_app; [|done]. rewrite !str_app_length. cbn. lia.
Qed.

(** A report up to the test whether it is the last. *)
Definition complete : C unit :=
  s ← gets id;
  whenM (numRestartFilenames s =? numCkptWorkers s)
    (emit (script_out s);;
     recordEvent "Ckpt-Complete";;
     serializeKVDB;;
     block ← gets blockUntilDone;
     whenM block
       (reply ← newMsg DMT_USER_CMD_RESULT;
        status ← getStatus;
        remote ← gets blockUntilDoneRemote;
        send remote (reply <| msg_coordCmd := DMT_BLOCKING_CKPT |> <| msg_numPeers := to_uint32 (cs_numPeers status) |>);;
        closeFd remote;;
        modify (fun s => s <| blockUntilDone := false |> <| blockUntilDoneRemote := -1 |>));;
     modify (fun s => s <| killAfterCkptOnce := false |> <| numRestartFilenames := 0 |>
                        <| numCkptWorkers := 0 |> <| workersRunningAndSuspendMsgSent := false |>)).

Lemma recordCkptFilename_filed r s : report_ok r -> live s (r_client r) ->
  recordCkptFilename (r_client r) (Some (report_payload r)) s = complete (filed r s).
Proof.
  intros Hr Hl. destruct (report_parse r Hr) as (E1 & E2 & E3). destruct Hr as (_ & _ & Hs).
  unfold recordCkptFilename. rewrite (bind_ok _ _ _ _ _ (update_live s (r_client r) _ Hl)).
  erewrite (bind_ok (optM _ _)) by reflexivity. unfold payload_at.
  rewrite E1. erewrite (bind_ok (optM _ _)) by reflexivity.
  rewrite E2. erewrite (bind_ok (optM _ _)) by reflexivity.
  rewrite E3. erewrite (bind_ok (optM _ _)) by reflexivity.
  destruct Hs as [E|[E|E]]; rewrite E;
    (erewrite bind_ok by reflexivity; erewrite (bind_ok (modify _)) by reflexivity);
    unfold complete; f_equal; unfold filed, add_file, set_field; cbn; rewrite E; reflexivity.
Qed.

Lemma filed_live r s : all_live s -> all_live (filed r s).
Proof.
  intros Hl q Hq. unfold live, filed. rsimpl. destruct (decide (q = r_client r)) as [->|].
  - rewrite lookup_insert_eq. by eexists.
  - rewrite lookup_insert_ne by done. by apply Hl.
Qed.

(** The state the last report leaves. *)
Definition completed (s : Coord) : Coord :=
  s <| trace := trace s ++ script_out s :: block_out s |>
    <| eventId ::= fun n => n + 1 |>
    <| lookupService ::= fun svc => LookupService.set svc "/Event_Timestamp_Ms" (w_timestampStr (world s))
         (pad_left 5 (XToString (eventId s + 1)) +:+ "-" +:+ "Ckpt-Complete") |>
    <| blockUntilDone := false |> <| blockUntilDoneRemote := if blockUntilDone s then -1 else blockUntilDoneRemote s |>
    <| killAfterCkptOnce := false |> <| numRestartFilenames := 0 |> <| numCkptWorkers := 0 |>
    <| workersRunningAndSuspendMsgSent := false |>.

Lemma complete_waits s : numRestartFilenames s <> numCkptWorkers s -> complete s = Ok tt s.
Proof.
  intros H. unfold complete. erewrite (bind_ok (gets id)) by reflexivity. cbn [id].
  by destruct (Z.eqb_spec (numRestartFilenames s) (numCkptWorkers s)).
Qed.

Lemma complete_fires s : numRestartFilenames s = numCkptWorkers s -> all_live s -> fl_writeKvData (flags s) = false ->
  complete s = Ok tt (completed s).
Proof.
  intros H Hl Hkv. unfold complete. erewrite (bind_ok (gets id)) by reflexivity. cbn [id].
  rewrite H, Z.eqb_refl. cbn [whenM]. erewrite (bind_ok (emit _)) by reflexivity. unfold recordEvent.
  erewrite bind_ok by reflexivity.
  match goal with |- (serializeKVDB ≫= _) ?x = _ => set (s1 := x) end.
  assert (Ek : serializeKVDB s1 = Ok tt s1).
  { unfold serializeKVDB. erewrite (bind_ok (gets id)) by reflexivity. cbn [id].
    change (flags s1) with (flags s). by rewrite Hkv. }
  rewrite (bind_ok _ _ _ _ _ Ek). erewrite (bind_ok (gets _)) by reflexivity.
  change (blockUntilDone s1) with (blockUntilDone s). unfold completed, block_out.
  destruct (blockUntilDone s) eqn:Eb; cbn [whenM].
  - assert (Hl1 : all_live s1) by exact Hl.
    erewrite bind_ok; cycle 1.
    { erewrite (bind_ok (newMsg _)) by reflexivity. rewrite (bind_ok _ _ _ _ _ (getStatus_live s1 Hl1)).
      erewrite (bind_ok (gets _)) by reflexivity. erewrite (bind_ok (send _ _)) by reflexivity.
      erewrite (bind_ok (closeFd _)) by reflexivity. reflexivity. }
    rewrite status_numPeers. unfold s1, modify, set_field. cbn. by rewrite <- !app_assoc.
  - erewrite (bind_ok (mret tt)) by reflexivity. unfold s1, modify, set_field. cbn. by rewrite Eb.
Qed.

Definition reports (rs : list report) : C unit :=
  forM rs (fun r => recordCkptFilename (r_client r) (Some (report_payload r))).

(** The state after some reports that are not the last. *)
Lemma reports_wait rs : forall s, all_live s -> Forall (fun r => report_ok r /\ r_client r ∈ clients s) rs ->
  numRestartFilenames s + Z.of_nat (length rs) < numCkptWorkers s ->
  exists s', reports rs s = Ok tt s' /\ s' = foldl (fun s r => filed r s) s rs /\ all_live s'.
Proof.
  induction rs as [|r rs IH]; intros s Hl Hok Hn; [by exists s|].
  inversion_clear Hok as [|? ? [Hr Hp] Hok']. cbn [length] in Hn. unfold reports. cbn [forM].
  assert (E : recordCkptFilename (r_client r) (Some (report_payload r)) s = Ok tt (filed r s)).
  { rewrite recordCkptFilename_filed by (done || by apply Hl). apply complete_waits. unfold filed. rsimpl. lia. }
  rewrite (bind_ok _ _ _ _ _ E).
  destruct (IH (filed r s)) as (s' & H1 & H2 & H3); [by apply filed_live|done|unfold filed; rsimpl; lia|].
  exists s'. by split_and!.
Qed.

(** What the fold of reports does to the fields the script is made of. *)
Lemma filed_fold rs : forall s, let s' := foldl (fun s r => filed r s) s rs in
  trace s' = trace s /\ flags s' = flags s /\ clients s' = clients s /\ compId s' = compId s /\ plugins s' = plugins s /\
  uniqueCkptFilenames s' = uniqueCkptFilenames s /\ ckptTimeStamp s' = ckptTimeStamp s /\
  blockUntilDone s' = blockUntilDone s /\ blockUntilDoneRemote s' = blockUntilDoneRemote s /\ msgEnv s' = msgEnv s /\
  numCkptWorkers s' = numCkptWorkers s /\ numRestartFilenames s' = numRestartFilenames s + Z.of_nat (length rs) /\
  restartFilenames s' = all_files EmptyString rs (restartFilenames s) /\
  rshCmdFileNames s' = all_files "rsh" rs (rshCmdFileNames s) /\
  sshCmdFileNames s' = all_files "ssh" rs (sshCmdFileNames s).
Proof.
  induction rs as [|r rs IH]; intros s s'; [by subst s'; cbn; split_and!; try done; lia|].
  subst s'. cbn [foldl all_files length]. specialize (IH (filed r s)). cbv zeta in IH.
  destruct IH as (-> & -> & -> & -> & -> & -> & -> & -> & -> & -> & -> & -> & -> & -> & ->).
  unfold filed. rsimpl. split_and!; try done. lia.
Qed.

Lemma filed_fold_sent rs : forall s,
  workersRunningAndSuspendMsgSent (foldl (fun s r => filed r s) s rs) = workersRunningAndSuspendMsgSent s.
Proof. induction rs as [|r rs IH]; intros s; [done|]. cbn [foldl]. rewrite IH. reflexivity. Qed.
