(* ===== verification/CoordProps.v ===== *)
(** * What the coordinator guarantees

    The properties of src/dmtcp_coordinator.cpp, stated on the handlers of
    [Coordinator] and proved from the lemmas of [CoordFacts]. *)

From Stdlib Require Import ZArith Lia Ascii.
From stdpp Require Import base gmap strings numbers list.
From S2P Require Import Prelude CText Identity Json Message Lookup CoordPlugin Coordinator CoordFacts.
Open Scope Z_scope.

(** ** A small computation, for the witnesses *)

Definition ex_env : MsgEnv := mk_MsgEnv UNKNOWN nullProcess 0 KVDB_GET KVDB_SUCCESS.
Definition ex_world : World := mk_World 100 5 1000 "2024-01-01T00:00:00.000" true 77.
Definition ex_flags : CoordFlags := mk_CoordFlags false false 7779 "port" "/ckpt" "/tmp" false.
Definition ex_init : Coord := Coord_init ex_flags (mk_PluginFlags 0 0 0) "host" 16777343 ex_env ex_world.
Definition ex_client (fd vpid : Z) : CoordClient :=
  mk_CoordClient (mk_UniquePid 1 vpid 5 0) 1 fd RUNNING "h" "prog" "10.0.0.1" EmptyString 200 vpid 0.
(** Two running workers of one computation. *)
Definition ex_two : Coord :=
  ex_init <| clients := [0%nat; 1%nat] |> <| heap := {[ 0%nat := ex_client 10 40000; 1%nat := ex_client 11 41000 ]} |>
    <| nextPtr := 2%nat |> <| virtualPidToClientMap := {[ 40000 := 0%nat; 41000 := 1%nat ]} |>
    <| nextVirtualPid := 42000 |> <| compId := mk_UniquePid 1 40000 5 0 |> <| curTimeStamp := 99 |>.
Definition ex_msg (t : DmtcpMessageType) (st : eWorkerState) : DmtcpMessage :=
  (DmtcpMessage_new ex_env t) <| msg_state := st |>.
Definition ex_barrier (b : string) : DmtcpMessage :=
  (ex_msg DMT_BARRIER PRESUSPEND) <| msg_barrier := char_array 64 b |>.

Lemma ex_two_live : all_live ex_two.
Proof. intros p [-> |[-> |[]%elem_of_nil]%elem_of_cons]%elem_of_cons; by eexists. Qed.

Lemma ex_two_wf : coord_wf ex_two.
Proof.
  unfold coord_wf. split; [|split; [exact ex_two_live|split; [|split]]].
  - refine (bool_decide_unpack _ _). vm_compute. exact I.
  - change (virtualPidToClientMap ex_two) with ({[ 40000 := 0%nat; 41000 := 1%nat ]} : gmap Z ptr).
    intros v p [[<- <-]|[_ [<- <-]%lookup_singleton_Some]]%lookup_insert_Some;
      (split; [set_solver|]); eexists; split; reflexivity.
  - exists 2. change (nextVirtualPid ex_two) with 42000. lia.
  - change (heap ex_two) with ({[ 0%nat := ex_client 10 40000; 1%nat := ex_client 11 41000 ]} : gmap ptr CoordClient).
    intros p c [[<- <-]|[_ [<- <-]%lookup_singleton_Some]]%lookup_insert_Some; (split; [|reflexivity]);
      change (nextPtr ex_two) with 2%nat; lia.
Qed.

(** ** Theorems *)

(** The status of a computation: over connected clients in proper states,
    [getStatus] returns the number of clients, the least and the greatest of their
    states (UNKNOWN with no client), and calls the state unanimous exactly when all
    clients are in the same one and it is not a restart still missing peers. *)
Theorem getStatus_correct s :
  coord_wf s -> (forall x, x ∈ states_of s -> x <> WS_MAX) ->
  exists st, getStatus s = Ok st s /\ status_spec (states_of s) (numRestartPeers s) st.
Proof.
  intros (_ & Hl & _) Hx. exists (status s). split; [by apply getStatus_live|]. by apply status_of_spec.
Qed.

Lemma getStatus_correct_witness :
  exists st, getStatus ex_two = Ok st ex_two /\ cs_numPeers st = 2 /\ cs_minimumStateUnanimous st = true.
Proof.
  destruct (getStatus_correct ex_two) as (st & H1 & H2).
  - exact ex_two_wf.
  - intros x. apply (Forall_forall (fun x => x <> WS_MAX)). refine (bool_decide_unpack _ _). vm_compute. exact I.
  - exists st. split; [exact H1|]. split; [exact (ss_count _ _ _ H2)|].
    apply (ss_unanimous _ _ _ H2). split.
    + intros x y Hx Hy. assert (E : forall z, z ∈ states_of ex_two -> z = RUNNING).
      { intros z. apply (Forall_forall (fun z => z = RUNNING)). refine (bool_decide_unpack _ _). vm_compute. exact I. }
      rewrite (E x Hx), (E y Hy). reflexivity.
    + intros [H _]. pose proof (ss_min_in _ _ _ H2 ltac:(discriminate)) as Hin. rewrite H in Hin.
      assert (E : RESTARTING ∉ states_of ex_two) by (refine (bool_decide_unpack _ _); vm_compute; exact I). exact (E Hin).
Defined.

(** Virtual pids: from any cursor position the search returns one of the
    961 identifiers 40000, 41000, ..., 1000000 that no connected client has,
    changing only the cursor, whenever one is free; it never returns, although the
    ASSERT before it passes, exactly when all 961 are taken. *)
Theorem virtual_pid_allocation s :
  vpid_slot (nextVirtualPid s) -> Z.of_nat (size (virtualPidToClientMap s)) < MAX_VIRTUAL_PID ->
  exists x, vpid_slot x /\
  match getNewVirtualPid s with
  | Ok pid s' => s' = s <| nextVirtualPid := x |> /\ vpid_slot pid /\ virtualPidToClientMap s !! pid = None
  | Fault f s' => s' = s <| nextVirtualPid := x |> /\ f = Blocked "getNewVirtualPid" /\
      forall pid, vpid_slot pid -> is_Some (virtualPidToClientMap s !! pid)
  | Exit _ _ => False
  end.
Proof. apply getNewVirtualPid_spec. Qed.

Lemma virtual_pid_allocation_witness :
  exists s', getNewVirtualPid (ex_two <| nextVirtualPid := 40000 |>) = Ok 42000 s' /\
             virtualPidToClientMap ex_two !! 42000 = None.
Proof.
  destruct (virtual_pid_allocation (ex_two <| nextVirtualPid := 40000 |>)) as (x & Hx & H).
  - exists 0. split; [split; discriminate|reflexivity].
  - reflexivity.
  - destruct (getNewVirtualPid (ex_two <| nextVirtualPid := 40000 |>)) as [pid s'|c s'|f s'] eqn:E.
    + vm_compute in E. injection E as <- _. exists s'. split; [reflexivity|]. exact (proj2 (proj2 H)).
    + destruct H.
    + vm_compute in E. discriminate E.
Defined.

(** C5: The tables stay consistent: after any number of turns of the event
    loop, with any messages, connections, hang-ups, typed commands and clock
    readings, the connected clients are distinct live objects, every entry of the
    virtual-pid map leads to the connected client that has that pid, and the next
    allocation starts at one of the 961 slots. *)
Theorem coordinator_tables_consistent f pf host ip e w ts s :
  turns ts (Coord_init f pf host ip e w) = Ok tt s -> coord_wf s.
Proof. intros H. eapply turns_wf; [|exact H]. apply Coord_init_wf. Qed.

Definition ex_hello (fd : Z) : event :=
  EvListen (mk_Incoming true fd 16777343 true (Some ((ex_msg DMT_NEW_WORKER RUNNING) <| msg_from := mk_UniquePid 1 fd 5 0 |>))
              EmptyString).

Lemma coordinator_tables_consistent_witness :
  exists s, turns [(ex_world, [], [(ex_world, ex_hello 10); (ex_world, ex_hello 11)]);
                   (ex_world, [], [(ex_world, EvClient 0%nat None true)])] ex_init = Ok tt s /\
    clients s = [1%nat] /\ coord_wf s.
Proof.
  destruct (turns [(ex_world, [], [(ex_world, ex_hello 10); (ex_world, ex_hello 11)]);
                   (ex_world, [], [(ex_world, EvClient 0%nat None true)])] ex_init) as [[] s| |] eqn:E.
  - exists s. split; [reflexivity|]. split.
    + vm_compute in E. injection E as <-. reflexivity.
    + exact (coordinator_tables_consistent _ _ _ _ _ _ _ s E).
  - vm_compute in E. discriminate E.
  - vm_compute in E. discriminate E.
Defined.

(** C3: A barrier opens exactly when everybody is there: as workers report the
    same barrier in any order, nothing is sent while one is still missing; the
    last report makes the coordinator send the release, with the barrier's name, to
    every client once, forget the barrier and remember the number of workers. *)
Theorem barrier_opens_when_all_arrive b l s :
  b <> EmptyString -> gathering b [] s -> NoDup (clients s) -> clients s <> [] ->
  Forall (fun pm => barrier_msg b (snd pm)) l -> l.*1 ≡ₚ clients s ->
  (forall k, (k < length l)%nat ->
     exists s', arrivals b (take k l) s = Ok tt s' /\ trace s' = trace s /\ workersAtCurrentBarrier s' = Z.of_nat k) /\
  exists s', arrivals b l s = Ok tt s' /\
    trace s' = trace s ++ broadcast_out s DMT_BARRIER_RELEASED (b +:+ NUL_str) /\
    currentBarrier s' = EmptyString /\ prevBarrier s' = b /\ workersAtCurrentBarrier s' = 0 /\
    numCkptWorkers s' = Z.of_nat (length (clients s)).
Proof.
  intros Hb Hg Hnd Hne Hm Hp. split; [|by apply arrivals_release].
  intros k Hk. pose proof (Permutation_length Hp) as Hlen. rewrite length_fmap in Hlen.
  destruct (arrivals_wait b (take k l) [] s Hb Hg) as (s' & H1 & H2 & _ & H3).
  - apply Forall_take. apply Forall_forall. intros x Hx. split.
    + rewrite <- Hp. apply list_elem_of_fmap. by exists x.
    + by eapply Forall_forall in Hm.
  - cbn. rewrite fmap_take. assert (Hnd' : NoDup l.*1) by by rewrite Hp.
    rewrite <- (take_drop k l.*1) in Hnd'. by apply NoDup_app in Hnd' as [? _].
  - cbn. rewrite length_take. lia.
  - exists s'. split_and!; [done|done|]. rewrite (g_count _ _ _ H2). cbn [app]. rewrite length_fmap, length_take. lia.
Qed.

Lemma barrier_opens_when_all_arrive_witness :
  exists s', arrivals "B1" [(1%nat, ex_barrier "B1"); (0%nat, ex_barrier "B1")] ex_two = Ok tt s' /\
    prevBarrier s' = "B1" /\ numCkptWorkers s' = 2.
Proof.
  destruct (barrier_opens_when_all_arrive "B1" [(1%nat, ex_barrier "B1"); (0%nat, ex_barrier "B1")] ex_two)
    as [_ (s' & H1 & _ & _ & H2 & _ & H3)].
  - discriminate.
  - split; [exact ex_two_live|reflexivity|reflexivity| |left; discriminate].
    intros p [-> |[-> |[]%elem_of_nil]%elem_of_cons]%elem_of_cons _; discriminate.
  - refine (bool_decide_unpack _ _). vm_compute. exact I.
  - discriminate.
  - repeat constructor.
  - apply Permutation_swap.
  - exists s'. split; [exact H1|]. split; [exact H2|exact H3].
Defined.

(** C4: One checkpoint at a time: a request is accepted exactly when every
    client is RUNNING, there is one, and no checkpoint is under way; accepting
    sends DMT_DO_CHECKPOINT with the next generation to every client once and
    clears the file names of the previous one, those of the plain, the rsh and the
    ssh images alike; refusing changes nothing; and a second request
    in the state the accepted one leaves is refused. *)
Theorem checkpoint_one_at_a_time s :
  coord_wf s -> (forall x, x ∈ states_of s -> x <> WS_MAX) ->
  ((ready_to_checkpoint s = true <->
      clients s <> [] /\ (forall x, x ∈ states_of s -> x = RUNNING) /\ workersRunningAndSuspendMsgSent s = false) /\
   (ready_to_checkpoint s = false -> startCheckpoint s = Ok false s) /\
   (ready_to_checkpoint s = true -> exists s1, startCheckpoint s = Ok true s1 /\
      trace s1 = trace s ++ broadcast_out (ckpt_started s) DMT_DO_CHECKPOINT EmptyString /\
      up_generation (compId s1) = to_uint32 (up_generation (compId s) + 1) /\
      numRestartFilenames s1 = 0 /\ restartFilenames s1 = ∅ /\ rshCmdFileNames s1 = ∅ /\ sshCmdFileNames s1 = ∅ /\
      workersRunningAndSuspendMsgSent s1 = true /\
      startCheckpoint s1 = Ok false s1)).
Proof.
  intros (_ & Hl & _) Hx. pose proof (startCheckpoint_live s Hl) as Hr. split_and!.
  - by apply ready_to_checkpoint_iff.
  - intros E. by rewrite E in Hr.
  - intros E. rewrite E in Hr. eexists. split; [exact Hr|]. do 7 (split; [reflexivity|]).
    apply startCheckpoint_busy; [exact Hl|reflexivity].
Qed.

Lemma checkpoint_one_at_a_time_witness :
  exists s1, startCheckpoint ex_two = Ok true s1 /\ startCheckpoint s1 = Ok false s1.
Proof.
  destruct (checkpoint_one_at_a_time ex_two) as (_ & _ & H).
  - exact ex_two_wf.
  - intros x. apply (Forall_forall (fun x => x <> WS_MAX)). refine (bool_decide_unpack _ _). vm_compute. exact I.
  - destruct (H eq_refl) as (s1 & H1 & _ & _ & _ & _ & _ & _ & _ & H2). exists s1. split; [exact H1|exact H2].
Defined.

(** C6: A checkpoint completes with its last image: the reports of the workers
    are only recorded until as many as the barrier counted have come; then one
    restart script is written with every image under its host and remote shell, a
    blocked dmtcp_command gets its answer, and all the flags of the checkpoint are
    reset, so the next one can start. *)
Theorem checkpoint_completes rs s :
  all_live s -> rs <> [] -> Forall (fun r => report_ok r /\ r_client r ∈ clients s) rs ->
  numRestartFilenames s = 0 -> numCkptWorkers s = Z.of_nat (length rs) -> fl_writeKvData (flags s) = false ->
  (forall k, (k < length rs)%nat -> exists s', reports (take k rs) s = Ok tt s' /\ trace s' = trace s) /\
  exists s', reports rs s = Ok tt s' /\
    trace s' = trace s ++
      [WroteScript (fl_ckptDir (flags s)) (uniqueCkptFilenames s) (ckptTimeStamp s)
         (theCheckpointInterval (ckptIntervalManager (plugins s))) (fl_thePort (flags s)) (compId s)
         (all_files EmptyString rs (restartFilenames s)) (all_files "rsh" rs (rshCmdFileNames s))
         (all_files "ssh" rs (sshCmdFileNames s))] ++ block_out s /\
    workersRunningAndSuspendMsgSent s' = false /\ numRestartFilenames s' = 0 /\ numCkptWorkers s' = 0 /\
    killAfterCkptOnce s' = false /\ blockUntilDone s' = false.
Proof.
  intros Hl Hne Hok H0 Hn Hkv. split.
  - intros k Hk. destruct (reports_wait (take k rs) s Hl) as (s' & H1 & -> & _).
    + by apply Forall_take.
    + rewrite length_take. lia.
    + eexists. split; [exact H1|]. by destruct (filed_fold (take k rs) s) as (-> & _).
  - destruct (exists_last Hne) as (rs' & r & ->). rewrite length_app in Hn. cbn in Hn.
    apply Forall_app in Hok as [Hok' [[Hr Hp] _]%Forall_cons].
    destruct (reports_wait rs' s Hl Hok') as (s1 & H1 & Es1 & Hl1); [lia|].
    destruct (filed_fold (rs' ++ [r]) s) as (F1 & F2 & F3 & F4 & F5 & F6 & F7 & F8 & F9 & F10 & F11 & F12 & F13 & F14 & F15).
    destruct (filed_fold rs' s) as (_ & _ & G3 & _).
    rewrite foldl_app in *. cbn [foldl] in *. rewrite <- Es1 in *. set (s2 := filed r s1) in *.
    assert (E : reports (rs' ++ [r]) s = Ok tt (completed s2)).
    { assert (Ha : forall l t t1, reports l t = Ok tt t1 -> reports (l ++ [r]) t = reports [r] t1).
      { induction l as [|x l IH]; intros t t1 H; unfold reports in *; cbn [app forM] in *; [by injection H as ->|].
        apply bind_ok_inv in H as ([] & t2 & Hx & Ht). rewrite (bind_ok _ _ _ _ _ Hx). by apply IH. }
      rewrite (Ha rs' s s1 H1). unfold reports. cbn [forM].
      assert (Hlr : live s1 (r_client r)) by (apply Hl1; by rewrite G3).
      unfold mbind, M_bind. rewrite (recordCkptFilename_filed r s1 Hr Hlr). fold s2.
      rewrite complete_fires; [done|rewrite F12, F11, length_app; cbn; lia|by apply filed_live|by rewrite F2]. }
    exists (completed s2). split; [exact E|]. split; [|split_and!; reflexivity].
    change (trace (completed s2)) with (trace s2 ++ script_out s2 :: block_out s2).
    unfold script_out, block_out. rewrite F1, F2, F3, F4, F5, F6, F7, F8, F9, F10, F13, F14, F15. done.
Qed.

Definition ex_reports : list report := [mk_report 0 "a.dmtcp" EmptyString "h1"; mk_report 1 "b.dmtcp" "ssh" "h2"].

Lemma checkpoint_completes_witness :
  exists s', reports ex_reports (ex_two <| numCkptWorkers := 2 |> <| workersRunningAndSuspendMsgSent := true |>) = Ok tt s' /\
    workersRunningAndSuspendMsgSent s' = false.
Proof.
  destruct (checkpoint_completes ex_reports (ex_two <| numCkptWorkers := 2 |> <| workersRunningAndSuspendMsgSent := true |>))
    as [_ (s' & H1 & _ & H2 & _)].
  - exact ex_two_live.
  - discriminate.
  - constructor; [|constructor; [|constructor]]; (split; [split; [reflexivity|split; [reflexivity|tauto]]|]).
    + left.
    + right. left.
  - reflexivity.
  - reflexivity.
  - reflexivity.
  - exists s'. split; [exact H1|exact H2].
Defined.

(** ** Admission of restarting workers *)








Definition ex_restart : Coord :=
  ex_two <| heap := {[ 0%nat := (ex_client 10 40000) <| cl_state := RESTARTING |>;
                       1%nat := (ex_client 11 41000) <| cl_state := RESTARTING |> ]} |>
    <| numRestartPeers := 3 |>.

Lemma ex_restart_live : all_live ex_restart.
Proof. intros p [-> |[-> |[]%elem_of_nil]%elem_of_cons]%elem_of_cons; by eexists. Qed.



(** ** What goes wrong at the edges *)

Lemma ready_kill s b : ready_to_checkpoint (s <| killAfterCkptOnce := b |>) = ready_to_checkpoint s.
Proof. destruct s. reflexivity. Qed.

Lemma broadcast_out_msgs s t : broadcast_out s t EmptyString =
  (fun p => Sent (cl_sock (client_of s p)) (broadcast_msg s t EmptyString)) <$> clients s.
Proof. unfold broadcast_out. induction (clients s) as [|p ps IH]; [done|]. cbn. by f_equal. Qed.

Lemma ckpt_msg_exits t : killAfterCkptOnce t = true ->
  msg_exitAfterCkpt (broadcast_msg (ckpt_started t) DMT_DO_CHECKPOINT EmptyString) = 1.
Proof.
  intros Hk. assert (E : killAfterCkptOnce (ckpt_started t) = true) by (destruct t; exact Hk).
  unfold broadcast_msg. rewrite E, orb_true_r. reflexivity.
Qed.

Lemma startCheckpoint_sends t : all_live t -> ready_to_checkpoint t = true ->
  exists t', startCheckpoint t = Ok true t' /\
    trace t' = trace t ++ ((fun p => Sent (cl_sock (client_of t p)) (broadcast_msg (ckpt_started t) DMT_DO_CHECKPOINT EmptyString))
                             <$> clients t).
Proof.
  intros Hl Hr. pose proof (startCheckpoint_live t Hl) as E. rewrite Hr in E. eexists. split; [exact E|].
  rewrite broadcast_out_msgs. reflexivity.
Qed.

(** A refused "checkpoint and kill" is not forgotten: when the workers
    cannot be checkpointed, DMT_KILL_AFTER_CKPT is answered NOT_RUNNING and yet
    leaves its mark; any plain checkpoint started while the mark is still there
    tells every worker to exit after it. *)
Theorem refused_kill_request_sticks s r :
  all_live s -> ready_to_checkpoint s = false ->
  exists r', handleUserCommand DMT_KILL_AFTER_CKPT (Some r) s = Ok (Some r') (s <| killAfterCkptOnce := true |>) /\
    msg_coordCmdStatus r' = DMT_COORD_NOT_RUNNING /\
  forall t, all_live t -> killAfterCkptOnce t = true -> ready_to_checkpoint t = true ->
    exists t' m, handleUserCommand DMT_CHECKPOINT None t = Ok None t' /\
      trace t' = trace t ++ ((fun p => Sent (cl_sock (client_of t p)) m) <$> clients t) /\
      msg_type m = DMT_DO_CHECKPOINT /\ msg_exitAfterCkpt m = 1.
Proof.
  intros Hl Hr. set (s1 := s <| killAfterCkptOnce := true |>).
  assert (Hl1 : all_live s1) by exact Hl. pose proof (startCheckpoint_live s1 Hl1) as E1.
  unfold s1 in E1 at 2. rewrite ready_kill, Hr in E1. eexists. split.
  { unfold handleUserCommand. erewrite (bind_ok (modify _)) by reflexivity. fold s1.
    rewrite (bind_ok _ _ _ _ _ E1). reflexivity. }
  split; [reflexivity|]. intros t Hlt Hk Hrt. destruct (startCheckpoint_sends t Hlt Hrt) as (t' & E2 & H2).
  exists t', (broadcast_msg (ckpt_started t) DMT_DO_CHECKPOINT EmptyString). split_and!.
  - unfold handleUserCommand. rewrite (bind_ok _ _ _ _ _ E2). reflexivity.
  - exact H2.
  - reflexivity.
  - by apply ckpt_msg_exits.
Qed.

(** The two restarting workers report that they run again. *)
Definition ex_resuming : C unit :=
  onData 0%nat (Some (ex_msg DMT_WORKER_RESUMING RUNNING, EmptyString));;
  onData 1%nat (Some (ex_msg DMT_WORKER_RESUMING RUNNING, EmptyString)).
Definition ex_refused : Coord := ex_restart <| numRestartPeers := 2 |>.

Lemma refused_kill_request_sticks_witness :
  exists t t', ex_resuming (ex_refused <| killAfterCkptOnce := true |>) = Ok tt t /\
    handleUserCommand DMT_CHECKPOINT None t = Ok None t' /\
    exists m, Sent 10 m ∈ trace t' /\ msg_exitAfterCkpt m = 1.
Proof.
  destruct (refused_kill_request_sticks ex_refused (ex_msg DMT_NULL UNKNOWN)) as (r' & _ & _ & H);
    [exact ex_restart_live|vm_compute; reflexivity|].
  destruct (ex_resuming (ex_refused <| killAfterCkptOnce := true |>)) as [[] t| |] eqn:E;
    [|vm_compute in E; discriminate E|vm_compute in E; discriminate E].
  assert (Ec : clients t = [0%nat; 1%nat]) by (vm_compute in E; injection E as <-; reflexivity).
  assert (Ef : cl_sock (client_of t 0%nat) = 10) by (vm_compute in E; injection E as <-; reflexivity).
  destruct (H t) as (t' & m & H1 & H2 & _ & H4).
  - intros p. rewrite Ec. vm_compute in E. injection E as <-.
    intros [-> |[-> |[]%elem_of_nil]%elem_of_cons]%elem_of_cons; by eexists.
  - vm_compute in E. injection E as <-. reflexivity.
  - vm_compute in E. injection E as <-. vm_compute. reflexivity.
  - exists t, t'. split; [reflexivity|]. split; [exact H1|]. exists m. split; [|exact H4].
    rewrite H2, Ec. apply elem_of_app. right. cbn. rewrite Ef. left.
Defined.

(** A handler after which the object [p] is gone, whenever it returns. *)
Definition frees (p : ptr) {A} (m : C A) : Prop := forall s a s', m s = Ok a s' -> heap s' !! p = None.

Lemma frees_bind p {A B} (m : C A) (k : A -> C B) : (forall a, frees p (k a)) -> frees p (m ≫= k).
Proof. intros H s b s' E. apply bind_ok_inv in E as (a & s1 & _ & E). by eapply H. Qed.

Lemma frees_deleteClient p : frees p (deleteClient p).
Proof. intros s [] s' [= <-]. rsimpl. apply lookup_delete_eq. Qed.

Lemma onDisconnect_frees p : frees p (onDisconnect p).
Proof.
  unfold onDisconnect. apply frees_bind. intros c. destruct (negb _); repeat (apply frees_bind; intros ?);
    apply frees_deleteClient.
Qed.

Lemma deref_dead p s : heap s !! p = None -> deref p s = Fault (UseAfterFree "CoordClient") s.
Proof. intros H. unfold deref. erewrite (bind_ok (gets _)) by reflexivity. by rewrite H. Qed.

(** The messages a worker may send on its connection. *)
Definition served : list DmtcpMessageType :=
  [DMT_WORKER_RESUMING; DMT_BARRIER; DMT_UNIQUE_CKPT_FILENAME; DMT_CKPT_FILENAME; DMT_GET_CKPT_DIR;
   DMT_UPDATE_CKPT_DIR; DMT_UPDATE_PROCESS_INFO_AFTER_FORK; DMT_UPDATE_PROCESS_INFO_AFTER_INIT_OR_EXEC;
   DMT_KVDB_REQUEST].

Lemma onData_unserved_frees p msg payload : msg_type msg ∉ served -> frees p (onData p (Some (msg, payload))).
Proof.
  intros Hn. unfold onData. do 3 (apply frees_bind; intros ?).
  destruct (msg_type msg); try apply onDisconnect_frees; exfalso; apply Hn; unfold served; set_solver.
Qed.

(** C34: A client that sends a message it may not send and hangs up is
    disconnected twice: when both arrive in one event, the handler of the message
    has deleted the object that the hang-up of the same event then uses. *)
Theorem bad_message_with_hangup_uses_freed_client w p msg payload s s1 :
  msg_type msg ∉ served -> onData p (Some (msg, payload)) (s <| world := w |>) = Ok tt s1 ->
  processEvent (w, EvClient p (Some (Some (msg, payload))) false) s = Ok tt s1 /\
  processEvent (w, EvClient p (Some (Some (msg, payload))) true) s = Fault (UseAfterFree "CoordClient") s1.
Proof.
  intros Hn E. pose proof (onData_unserved_frees p msg payload Hn _ _ _ E) as Hd.
  unfold processEvent. cbn [fst snd]. erewrite !(bind_ok (modify _)) by reflexivity.
  rewrite !(bind_ok _ _ _ _ _ E). split; [reflexivity|]. cbn [whenM].
  unfold onDisconnect, mbind, M_bind. by rewrite (deref_dead p s1 Hd).
Qed.

Lemma bad_message_with_hangup_uses_freed_client_witness :
  exists s1, processEvent (ex_world, EvClient 0%nat (Some (Some (ex_msg DMT_NULL RUNNING, EmptyString))) true) ex_two =
    Fault (UseAfterFree "CoordClient") s1.
Proof.
  destruct (onData 0%nat (Some (ex_msg DMT_NULL RUNNING, EmptyString)) (ex_two <| world := ex_world |>))
    as [[] s1| |] eqn:E; [|vm_compute in E; discriminate E|vm_compute in E; discriminate E].
  exists s1. apply (bad_message_with_hangup_uses_freed_client ex_world 0%nat (ex_msg DMT_NULL RUNNING) EmptyString ex_two s1).
  - refine (bool_decide_unpack _ _). vm_compute. exact I.
  - exact E.
Defined.

(** A worker leaves between barriers while others stay: only the tables of
    clients change, and its socket is closed. *)
Lemma onDisconnect_idle p s : coord_wf s -> p ∈ clients s -> (2 <= length (clients s))%nat -> currentBarrier s = EmptyString ->
  exists s', onDisconnect p s = Ok tt s' /\ clients s' = filter (fun q => q <> p) (clients s) /\
    workersRunningAndSuspendMsgSent s' = workersRunningAndSuspendMsgSent s /\
    numCkptWorkers s' = numCkptWorkers s /\ numRestartFilenames s' = numRestartFilenames s /\
    (length (clients s') < length (clients s))%nat /\ trace s' = trace s ++ [Closed (cl_sock (client_of s p))].
Proof.
  intros (Hnd & Hl & _ & _ & Hnx) Hp Hlen Hcur. pose proof (Hl p Hp) as Hlp.
  assert (Hns : cl_isNSWorker (client_of s p) = 0).
  { destruct Hlp as [c Hc]. unfold client_of. rewrite Hc. by apply (Hnx p). }
  set (cls := filter (fun q => q <> p) (clients s)).
  pose proof (length_filter_ne p (clients s) Hnd Hp) as Hcls. fold cls in Hcls.
  unfold onDisconnect. rewrite (bind_ok _ _ _ _ _ (deref_live s p Hlp)). rewrite Hns. cbn [Z.eqb negb].
  erewrite (bind_ok (modify _)) by reflexivity. erewrite (bind_ok (closeFd _)) by reflexivity.
  match goal with |- context [(update p ?f ≫= _) ?x] => set (s1 := x); set (f1 := f) end.
  assert (Hl1 : live s1 p) by exact Hlp. rewrite (bind_ok _ _ _ _ _ (update_live s1 p f1 Hl1)).
  erewrite (bind_ok (modify _)) by reflexivity.
  match goal with |- context [(getStatus ≫= _) ?x] => set (s2 := x) end.
  assert (Hc2 : clients s2 = cls) by reflexivity.
  assert (Hl2 : all_live s2).
  { intros q Hq. rewrite Hc2 in Hq. apply list_elem_of_filter in Hq as [Hqp Hq]. unfold live, s2, s1. rsimpl.
    rewrite lookup_insert_ne by done. by apply Hl. }
  rewrite (bind_ok _ _ _ _ _ (getStatus_live s2 Hl2)), status_numPeers, Hc2.
  destruct (Z.ltb_spec (Z.of_nat (length cls)) 1); [lia|]. erewrite bind_ok; cycle 1.
  { erewrite (bind_ok (gets _)) by reflexivity. change (currentBarrier s2) with (currentBarrier s). rewrite Hcur. reflexivity. }
  erewrite (bind_ok (modify _)) by reflexivity. eexists. split; [reflexivity|]. rsimpl. rewrite Hc2. split_and!; try done. lia.
Qed.
