(* ===== verification/CoordWedge.v ===== *)
(** * A worker lost between its last barrier and its image

    How the coordinator of src/dmtcp_coordinator.cpp gets stuck: the number of
    images to wait for (numCkptWorkers) is set by the last barrier and never lowered
    when a worker disconnects.  [wedged] is the state this leads to, and every turn
    of the event loop in which nobody joins and no barrier is reported keeps it. *)

From Stdlib Require Import ZArith Lia Ascii.
From stdpp Require Import base gmap strings numbers list.
From S2P Require Import Prelude CText Identity Json Message Lookup CoordPlugin Coordinator CoordFacts CoordProps.
Open Scope Z_scope.

(** The restart scripts among the outputs. *)
Definition is_script (o : output) : bool := match o with WroteScript _ _ _ _ _ _ _ _ _ => true | _ => false end.
Definition written_scripts (s : Coord) : list output := filter (fun o => is_script o = true) (trace s).

(** A checkpoint is under way, no barrier is being gathered, and more images are
    awaited than the [n] that can still come; [w] are the scripts written so far. *)
Definition wedged (w : list output) (n : nat) (s : Coord) : Prop :=
  workersRunningAndSuspendMsgSent s = true /\ currentBarrier s = EmptyString /\
  numRestartFilenames s + Z.of_nat n < numCkptWorkers s /\ written_scripts s = w.

(** An image report, and an event that neither brings a worker nor reports a
    barrier. *)
Definition image_msg (t : DmtcpMessageType) : bool :=
  bool_decide (t = DMT_CKPT_FILENAME \/ t = DMT_UNIQUE_CKPT_FILENAME).
Definition images_in (e : event) : nat :=
  match e with EvClient _ (Some (Some (msg, _))) _ => if image_msg (msg_type msg) then 1 else 0 | _ => 0 end.
Definition by_present (e : event) : bool :=
  match e with
  | EvListen i =>
      match in_hello i with
      | Some hello => bool_decide (msg_type hello = DMT_USER_CMD \/ msg_type hello = DMT_NAME_SERVICE_WORKER)
      | None => true
      end
  | EvClient _ (Some (Some (msg, _))) _ => negb (bool_decide (msg_type msg = DMT_BARRIER))
  | _ => true
  end.

Definition turn_events (t : World * list World * list (World * event)) : list event := (snd t).*2.
Definition image_count (ts : list (World * list World * list (World * event))) : nat :=
  list_sum (images_in <$> mjoin (turn_events <$> ts)).

(** ** Handlers that keep the state *)

(** Reading a field whose value the invariant fixes. *)
Lemma preserves_known {S A B} (I : S -> Prop) (f : S -> A) a (k : A -> M S B) :
  (forall s, I s -> f s = a) -> preserves I (k a) -> preserves I (gets f ≫= k).
Proof. intros Hf Hk s Hs. unfold mbind, M_bind. cbn. rewrite (Hf s Hs). by apply Hk. Qed.

Section wedge.
Context (w : list output) (n : nat).
Abbreviation W := (wedged w n).

Lemma wedge_sent s : W s -> workersRunningAndSuspendMsgSent s = true.
Proof. by intros (H & _). Qed.
Lemma wedge_barrier s : W s -> currentBarrier s = EmptyString.
Proof. by intros (_ & H & _). Qed.

Lemma wedge_emit o : is_script o = false -> preserves W (emit o).
Proof.
  intros Ho. apply preserves_modify. intros s (H1 & H2 & H3 & H4). unfold wedged, written_scripts. rsimpl. split_and!; try done.
  rewrite filter_app, filter_cons_False, filter_nil, app_nil_r by congruence. exact H4.
Qed.
#[local] Hint Extern 1 (preserves _ (emit _)) => apply wedge_emit; reflexivity : dmtcp.

Lemma wedge_deref p : preserves W (deref p).
Proof. unfold deref. pres. Qed.
#[local] Hint Resolve wedge_deref : dmtcp.
Lemma wedge_update p f : preserves W (update p f).
Proof. unfold update. pres. Qed.
Lemma wedge_collect {A} (f : ptr -> C A) l : (forall p, preserves W (f p)) -> preserves W (collect f l).
Proof. intros Hf. induction l as [|p l IH]; cbn [collect]; pres; apply Hf || exact IH. Qed.
#[local] Hint Resolve wedge_update : dmtcp.
Lemma wedge_getStatus : preserves W getStatus.
Proof. unfold getStatus. pres. apply wedge_collect. intros p. pres. Qed.
#[local] Hint Resolve wedge_getStatus : dmtcp.

Lemma wedge_send fd m : preserves W (send fd m).
Proof. unfold send. pres. Qed.
Lemma wedge_close fd : preserves W (closeFd fd).
Proof. unfold closeFd. pres. Qed.
Lemma wedge_newMsg t : preserves W (newMsg t).
Proof. unfold newMsg. pres. Qed.
Lemma wedge_payload d o : preserves W (payload_at d o).
Proof. unfold payload_at. pres. Qed.
#[local] Hint Resolve wedge_send wedge_close wedge_newMsg wedge_payload : dmtcp.

Lemma wedge_recordEvent ev : preserves W (recordEvent ev).
Proof. unfold recordEvent. pres. Qed.
Lemma wedge_serializeKVDB : preserves W serializeKVDB.
Proof. unfold serializeKVDB. pres. Qed.
Lemma wedge_broadcast t x : preserves W (broadcastMessage t x).
Proof. unfold broadcastMessage. pres. Qed.
#[local] Hint Resolve wedge_recordEvent wedge_serializeKVDB wedge_broadcast : dmtcp.

(** A request finds the checkpoint still under way. *)
Lemma wedge_startCheckpoint : preserves W startCheckpoint.
Proof.
  unfold startCheckpoint. apply preserves_bind; [pres|intros st].
  apply (preserves_known _ _ true); [exact wedge_sent|]. rewrite andb_false_r. pres.
Qed.
#[local] Hint Resolve wedge_startCheckpoint : dmtcp.

Lemma wedge_handleUserCommand c r : preserves W (handleUserCommand c r).
Proof.
  unfold handleUserCommand, checkpointReply, printList, printStatus, getStatusStr, preExitCleanup, removeStaleSharedAreaFile.
  destruct c; pres. apply wedge_collect. intros p. unfold client_line. pres.
Qed.
#[local] Hint Resolve wedge_handleUserCommand : dmtcp.
Lemma wedge_handleUserCommandStr c : preserves W (handleUserCommandStr c).
Proof. unfold handleUserCommandStr. pres. apply wedge_collect. intros p. pres. Qed.
Lemma wedge_processDmtUserCmd h fd : preserves W (processDmtUserCmd h fd).
Proof. unfold processDmtUserCmd. pres. Qed.
Lemma wedge_onLookup fd m : preserves W (onLookup fd m).
Proof.
  intros s Hs. unfold onLookup. destruct (m (lookupService s)) as [[r b] svc|c svc|f svc]; [|exact Hs|done].
  apply (preserves_bind W (send fd r)); [pres|intros []; pres|exact Hs].
Qed.
#[local] Hint Resolve wedge_handleUserCommandStr wedge_processDmtUserCmd wedge_onLookup : dmtcp.

(** Another worker may leave: nothing is gathered that its going would release. *)
Lemma wedge_onDisconnect p : preserves W (onDisconnect p).
Proof.
  unfold onDisconnect, deleteClient, removeStaleSharedAreaFile. apply preserves_bind; [pres|intros c].
  destruct (negb (cl_isNSWorker c =? 0)); [pres|].
  do 4 (apply preserves_bind; [pres|intros _]). apply preserves_bind; [pres|intros st].
  apply preserves_bind; [|intros _; pres]. destruct (cs_numPeers st <? 1); [pres|].
  apply (preserves_known _ _ EmptyString); [exact wedge_barrier|]. cbn [String.eqb negb whenM]. pres.
Qed.
#[local] Hint Resolve wedge_onDisconnect : dmtcp.

Lemma wedge_onData p msg payload :
  image_msg (msg_type msg) = false -> msg_type msg <> DMT_BARRIER -> preserves W (onData p (Some (msg, payload))).
Proof.
  intros Hi Hb. unfold onData, assertValid. do 3 (apply preserves_bind; [pres|intros ?]).
  destruct (msg_type msg); try done; unfold ResendDoCheckpointMsgToWorker; pres.
Qed.

Lemma wedge_onConnect i : by_present (EvListen i) = true -> preserves W (onConnect i).
Proof.
  unfold by_present, onConnect. destruct (in_hello i) as [hello|]; intros Hb; [|pres].
  apply bool_decide_eq_true in Hb. destruct (negb (in_valid i) || negb (in_spoke i)); [pres|].
  destruct (negb (isValid hello)); [pres|].
  destruct (decide (msg_type hello = DMT_NAME_SERVICE_WORKER)) as [E|E].
  - rewrite bool_decide_true by done. unfold newClient, addDataSocket. pres.
  - rewrite bool_decide_false by done. destruct Hb as [E'|]; [|done]. rewrite bool_decide_true by done. pres.
Qed.

Lemma wedge_tick : preserves W tick.
Proof. unfold tick. pres. intros s Hs. unfold tickPlugins. destruct (plugins_tick _ _); exact Hs || done. Qed.
Lemma wedge_waitLoop ws : preserves W (waitLoop ws).
Proof. induction ws as [|x ws IH]; cbn [waitLoop]; pres; apply wedge_tick || apply IH. Qed.
End wedge.

#[export] Hint Resolve wedge_onDisconnect wedge_tick wedge_waitLoop wedge_startCheckpoint : dmtcp.

(** ** An image that is not the last *)

Lemma leads_image w n p d : leads (wedged w (S n)) (recordCkptFilename p d) (wedged w n).
Proof.
  unfold recordCkptFilename.
  assert (Hp : forall A (m : C A), preserves (wedged w (S n)) m -> leads (wedged w (S n)) m (wedged w (S n)))
    by (intros; by apply leads_preserves).
  eapply leads_bind; [apply Hp, wedge_update|intros _]. eapply leads_bind; [apply Hp; pres|intros data].
  do 3 (eapply leads_bind; [apply Hp, wedge_payload|intros ?]). eapply leads_bind; [apply Hp; pres|intros _].
  eapply leads_bind with (J := wedged w n).
  { intros s (H1 & H2 & H3 & H4). unfold wedged. cbn. unfold written_scripts in *. rsimpl. split_and!; try done. lia. }
  intros _ s HW. unfold mbind, M_bind. cbn. pose proof HW as (_ & _ & H & _).
  destruct (Z.eqb_spec (numRestartFilenames s) (numCkptWorkers s)); [lia|exact HW].
Qed.

Lemma leads_event w n we : by_present (snd we) = true ->
  leads (wedged w (images_in (snd we) + n)) (processEvent we) (wedged w n).
Proof.
  intros Hb. unfold processEvent. eapply leads_bind; [apply leads_preserves; pres|intros _].
  destruct (snd we) as [i|line hup|p readable hup]; cbn [images_in].
  - apply leads_preserves. by apply wedge_onConnect.
  - apply leads_preserves. unfold closeStdin.
    pres; try (apply wedge_handleUserCommandStr || (apply wedge_emit; reflexivity)).
  - eapply leads_bind with (J := wedged w n); [|intros _; apply leads_preserves; pres].
    destruct readable as [[[msg payload]|]|]; cbn [images_in Nat.add];
      [|apply leads_preserves; unfold onData; pres; apply wedge_deref|apply leads_preserves; pres].
    destruct (image_msg (msg_type msg)) eqn:Ei.
    + unfold onData, assertValid. do 3 (eapply leads_bind; [apply leads_preserves; pres; auto using wedge_deref, wedge_update|intros ?]).
      unfold image_msg in Ei. apply bool_decide_eq_true in Ei. destruct Ei as [-> | ->]; [apply leads_image|].
      eapply leads_bind; [apply leads_preserves; pres|intros _]. apply leads_image.
    + apply leads_preserves, wedge_onData; [done|]. cbn in Hb. by apply negb_true_iff, bool_decide_eq_false in Hb.
Qed.

Lemma wedged_less w n k s : wedged w (k + n) s -> wedged w n s.
Proof. intros (H1 & H2 & H3 & H4). unfold wedged. split_and!; try done. lia. Qed.

Lemma leads_events w n evs : forallb by_present evs.*2 = true ->
  leads (wedged w (list_sum (images_in <$> evs.*2) + n)) (forM evs processEvent) (wedged w n).
Proof.
  induction evs as [|we evs IH]; cbn [forM forallb fmap list_fmap]; intros Hb; [apply leads_preserves; pres|].
  apply andb_prop in Hb as [Hb Hbs]. eapply leads_bind; [|intros _; by apply IH].
  cbn [fmap list_fmap list_sum foldr]. rewrite <- Nat.add_assoc. by apply leads_event.
Qed.

Lemma leads_quiet_turn w n x ws evs : forallb by_present evs.*2 = true ->
  leads (wedged w (list_sum (images_in <$> evs.*2) + n)) (eventLoopTurn x ws evs) (wedged w n).
Proof.
  intros Hb. unfold eventLoopTurn. eapply leads_bind; [apply leads_preserves; pres|intros _].
  eapply leads_bind; [apply leads_preserves; pres|intros _].
  eapply leads_bind; [apply leads_preserves; pres|intros stopped].
  eapply leads_bind with (J := wedged w n); [|intros _; apply leads_preserves; pres].
  destruct stopped; [|by apply leads_events]. intros s Hs. exact (wedged_less _ _ _ _ Hs).
Qed.

Lemma leads_quiet_turns w ts : forall n, forallb by_present (mjoin (turn_events <$> ts)) = true ->
  leads (wedged w (image_count ts + n)) (turns ts) (wedged w n).
Proof.
  unfold turns, image_count. induction ts as [|[[x ws] evs] ts IH]; intros n Hb; cbn [forM]; [apply leads_preserves; pres|].
  cbn in Hb |- *. rewrite forallb_app in Hb. apply andb_prop in Hb as [Hb Hbs].
  rewrite fmap_app, list_sum_app, <- Nat.add_assoc. eapply leads_bind; [|intros _; by apply IH].
  by apply leads_quiet_turn.
Qed.

(** C33: A checkpoint does not survive the loss of a worker after its last
    barrier: the number of images to wait for is not lowered when it disconnects.
    The reports of the workers that are left are only recorded, and whatever these
    workers, typed commands, dmtcp_command and the clock do afterwards (images,
    resuming, queries, further losses, requests, in any number of turns of the event
    loop), the checkpoint stays under way, no restart script is written and every
    request for a checkpoint is refused.  Only the images that can still come are
    counted, and the runs meant are those in which nobody joins and no barrier is
    reported. *)
Theorem lost_worker_wedges_checkpoints p s :
  coord_wf s -> p ∈ clients s -> (2 <= length (clients s))%nat -> currentBarrier s = EmptyString ->
  workersRunningAndSuspendMsgSent s = true ->
  exists s1, onDisconnect p s = Ok tt s1 /\ clients s1 = filter (fun q => q <> p) (clients s) /\
  (forall rs, Forall report_ok rs -> Forall (fun r => r_client r ∈ clients s1) rs ->
     numRestartFilenames s + Z.of_nat (length rs) < numCkptWorkers s ->
     exists s2, reports rs s1 = Ok tt s2 /\ trace s2 = trace s ++ [Closed (cl_sock (client_of s p))]) /\
  (forall ts s2, forallb by_present (mjoin (turn_events <$> ts)) = true ->
     numRestartFilenames s + Z.of_nat (image_count ts) < numCkptWorkers s -> turns ts s1 = Ok tt s2 ->
     written_scripts s2 = written_scripts s /\ workersRunningAndSuspendMsgSent s2 = true /\ startCheckpoint s2 = Ok false s2).
Proof.
  intros Hwf Hp Hlen Hcur Hsent.
  destruct (onDisconnect_idle p s Hwf Hp Hlen Hcur) as (s1 & H1 & Hc & E1 & E2 & E3 & Hlt & Ht).
  assert (Hwf1 : coord_wf s1).
  { pose proof (leads_onDisconnect p s (proj1 (Inv_wf s) Hwf)) as H. rewrite H1 in H. by apply Inv_wf. }
  exists s1. split_and!; [done|done| |].
  - intros rs Hok Hin Hn. destruct (reports_wait rs s1) as (s2 & H2 & -> & _); [by destruct Hwf1 as (_ & ? & _)| |lia|].
    + rewrite Forall_forall in Hok, Hin |- *. auto.
    + eexists. split; [exact H2|]. destruct (filed_fold rs s1) as (-> & _). exact Ht.
  - intros ts s2 Hb Hn H2.
    assert (HW : wedged (written_scripts s) (image_count ts + 0) s).
    { unfold wedged. split_and!; try done. lia. }
    assert (HW1 : wedged (written_scripts s) (image_count ts + 0) s1).
    { pose proof (wedge_onDisconnect _ _ p s HW) as H. by rewrite H1 in H. }
    pose proof (leads_quiet_turns (written_scripts s) ts 0 Hb s1 HW1) as H. rewrite H2 in H. destruct H as (G1 & _ & _ & G4).
    split_and!; [done|done|]. apply startCheckpoint_busy; [|done].
    by destruct (turns_wf ts s1 s2 Hwf1 H2) as (_ & ? & _).
Qed.

(** The worker that is left reports its image and runs again; all clients are
    RUNNING, and the request is refused all the same. *)
Definition ex_wedge : Coord := ex_two <| numCkptWorkers := 2 |> <| workersRunningAndSuspendMsgSent := true |>.
Definition ex_afterwards : list (World * list World * list (World * event)) :=
  [(ex_world, [],
    [(ex_world, EvClient 1%nat (Some (Some ((ex_msg DMT_CKPT_FILENAME CHECKPOINTED) <| msg_extraBytes := 15 |>,
                                            report_payload (mk_report 1 "b.dmtcp" "ssh" "h2")))) false);
     (ex_world, EvClient 1%nat (Some (Some (ex_msg DMT_WORKER_RESUMING RUNNING, EmptyString))) false)])].

Lemma lost_worker_wedges_checkpoints_witness :
  exists s1 s2, onDisconnect 0%nat ex_wedge = Ok tt s1 /\ turns ex_afterwards s1 = Ok tt s2 /\
    states_of s2 = [RUNNING] /\ numRestartFilenames s2 = 1 /\ startCheckpoint s2 = Ok false s2.
Proof.
  destruct (lost_worker_wedges_checkpoints 0%nat ex_wedge) as (s1 & H1 & _ & _ & H);
    [exact ex_two_wf|left|apply le_n|reflexivity|reflexivity|].
  exists s1. destruct (turns ex_afterwards s1) as [[] s2| |] eqn:E;
    [|vm_compute in H1; injection H1 as <-; vm_compute in E; discriminate E
     |vm_compute in H1; injection H1 as <-; vm_compute in E; discriminate E].
  exists s2. split; [exact H1|]. split; [reflexivity|].
  assert (Es : states_of s2 = [RUNNING] /\ numRestartFilenames s2 = 1).
  { vm_compute in H1. injection H1 as <-. vm_compute in E. injection E as <-. split; vm_compute; reflexivity. }
  split; [exact (proj1 Es)|]. split; [exact (proj2 Es)|].
  apply (H ex_afterwards s2); [reflexivity|reflexivity|exact E].
Defined.
