(* ===== verification/RestartScript.v ===== *)
(** * The restart script (src/restartscript.cpp)

    When the last image of a checkpoint has been reported, the coordinator writes a shell script that restarts the computation.  The script is a sequence
    of [chunk]s: constant texts of the source, which are named, and what is printed from the checkpoint.  The reader is the
    part of the script that takes the printed text apart again when it runs. *)

From Stdlib Require Import ZArith Lia Ascii.
From stdpp Require Import base gmap strings numbers list.
From S2P Require Import Prelude CText Identity Message Lookup CoordPlugin Coordinator CoordFacts.
Import Tokenize Convert.
Open Scope Z_scope.

(** ** The script *)

Inductive constant : Type :=
| header | checkLocal | slurmHelperContactFunction | usage | cmdlineArgHandler | singleHostProcessing | syntaxComment | resourceManager | multiHostProcessing.
Inductive chunk : Type := Const (c : constant) | Printed (text : string).

Definition RESTART_SCRIPT_BASENAME : string := "dmtcp_restart_script".
Definition RESTART_SCRIPT_EXT : string := "sh".
Definition DMTCP_RESTART_CMD : string := "dmtcp_restart".
Definition PATH_MAX : nat := 4096.
Definition dq : string := String (byte_of 34) EmptyString.
Definition tab : string := String (byte_of 9) EmptyString.

(** What the writer reads of its process, and which of its system calls succeed. *)
Record ScriptWorld : Type := mk_ScriptWorld {
  sw_hostname : string; sw_ctime : string; sw_programDir : string; sw_cwd : string;
  sw_fopen : bool; sw_openDir : bool; sw_stat : bool; sw_chmod : bool; sw_close : bool }.

(** Entries of directories: scripts, and symbolic links with their targets. *)
Record Disk : Type := mk_Disk { scripts : gmap (string * string) (list chunk); links : gmap (string * string) string }.
#[export] Instance eta_Disk : Settable Disk := {| eta_of d := mk_Disk (scripts d) (links d) |}.

Section script.
Context (ckptDir : string) (uniqueCkptFilenames : bool) (theCheckpointInterval thePort : Z) (compId : UniquePid).
Context (restartFilenames rshCmdFileNames sshCmdFileNames : files).

Definition scriptName : string :=
  RESTART_SCRIPT_BASENAME +:+ "_" +:+ up_str compId +:+
  (if uniqueCkptFilenames then "_" +:+ pad_left 5 (XToString (up_generation compId)) else EmptyString) +:+ "." +:+ RESTART_SCRIPT_EXT.
Definition uniqueFilename : string := ckptDir +:+ "/" +:+ scriptName.

Definition isSingleHost : bool := (size rshCmdFileNames =? 0)%nat && (size sshCmdFileNames =? 0)%nat && (size restartFilenames =? 1)%nat.

Definition count_files (m : files) : Z := foldl (fun n h => n + Z.of_nat (length (snd h))) 0 (LookupService.in_order m).
Definition numPeers : Z := count_files restartFilenames + count_files rshCmdFileNames + count_files sshCmdFileNames.

(** The files of a host, each after a blank. *)
Definition file_list (fs : list string) : string := String.concat EmptyString ((fun f => " " +:+ f) <$> fs).
Definition host_line (shell : string) (h : string * list string) : string :=
  nl +:+ " :: " +:+ fst h +:+ " :bg:" +:+ file_list (snd h) +:+ " : " +:+ shell.
Definition defaultShellType (host : string) : string :=
  if decide (is_Some (sshCmdFileNames !! host)) then "ssh"
  else if decide (is_Some (rshCmdFileNames !! host)) then "rsh"
  else if (size rshCmdFileNames =? 0)%nat then "ssh" else "rsh".
Definition worker_ckpts : string :=
  String.concat EmptyString
    ((host_line "rsh" <$> LookupService.in_order rshCmdFileNames) ++ (host_line "ssh" <$> LookupService.in_order sshCmdFileNames) ++
     ((fun h => host_line (defaultShellType (fst h)) h) <$> LookupService.in_order restartFilenames)) +:+ nl.

Definition from_env (variable env value : string) : string :=
  variable +:+ "=$" +:+ env +:+ nl +:+ "if test -z " +:+ dq +:+ "$" +:+ env +:+ dq +:+ "; then" +:+ nl +:+ "  " +:+ variable +:+ "=" +:+ value +:+ nl +:+ "fi" +:+ nl.

(** The part that names the images. *)
Definition image_chunks : list chunk :=
  if isSingleHost then
    match LookupService.in_order restartFilenames with
    | host :: _ => [Printed ("given_ckpt_files=" +:+ dq +:+ file_list (snd host) +:+ dq +:+ nl +:+ nl); Const singleHostProcessing]
    | [] => []
    end
  else [Const syntaxComment; Printed ("worker_ckpts='" +:+ worker_ckpts +:+ "'" +:+ nl +:+ nl); Const resourceManager; Const multiHostProcessing].

Definition script_chunks (w : ScriptWorld) : list chunk :=
  let which := "which $dmt_rstr_cmd > /dev/null 2>&1" in
  [Const header; Const checkLocal; Const slurmHelperContactFunction; Const usage;
   Printed ("ckpt_timestamp=" +:+ dq +:+ sw_ctime w +:+ dq +:+ nl +:+ nl);
   Printed ("remote_shell_cmd=" +:+ dq +:+ "ssh" +:+ dq +:+ nl +:+ nl);
   Printed (from_env "coord_host" "DMTCP_COORD_HOST" (sw_hostname w) +:+ nl +:+
            from_env "coord_port" "DMTCP_COORD_PORT" (XToString thePort) +:+ nl +:+
            from_env "checkpoint_interval" "DMTCP_CHECKPOINT_INTERVAL" (XToString (to_int32 theCheckpointInterval)) +:+
            "export DMTCP_CHECKPOINT_INTERVAL=${checkpoint_interval}" +:+ nl +:+ nl);
   Const cmdlineArgHandler;
   Printed ("dmt_rstr_cmd=" +:+ sw_programDir w +:+ "/" +:+ DMTCP_RESTART_CMD +:+ nl +:+
            which +:+ " || dmt_rstr_cmd=" +:+ DMTCP_RESTART_CMD +:+ nl +:+
            which +:+ " || echo " +:+ dq +:+ "$0: $dmt_rstr_cmd not found" +:+ dq +:+ nl +:+
            which +:+ " || exit 1" +:+ nl +:+ nl);
   Printed ("# Number of hosts in the computation = " +:+ XToString (Z.of_nat (size restartFilenames + size sshCmdFileNames + size rshCmdFileNames)) +:+ nl +:+
            "# Number of processes in the computation = " +:+ XToString numPeers +:+ nl +:+ nl)] ++
  image_chunks.
End script.

(** ** The files *)

(** The text before and after the last slash. *)
Fixpoint last_slash (s : string) : option (string * string) :=
  match s with
  | EmptyString => None
  | String c s' =>
      match last_slash s' with
      | Some (a, b) => Some (String c a, b)
      | None => if Ascii.eqb c "/"%char then Some (EmptyString, s') else None
      end
  end.
Fixpoint trim_slashes (n : nat) (s : string) : nat :=
  match n with O => O | S n' => match String.get n' s with Some c => if Ascii.eqb c "/"%char then trim_slashes n' s else n | None => n end end.
Definition DirName (str : string) : string :=
  if String.eqb str "/" || String.eqb str "." || String.eqb str EmptyString then str
  else if String.eqb str ".." then "."
  else match last_slash (str_take (S (trim_slashes (String.length str) str)) str) with
       | None => "."
       | Some (EmptyString, _) => "/"
       | Some (dir, _) => dir
       end.
(** [basename] of a path that does not end in a slash. *)
Definition basename (str : string) : string := match last_slash str with Some (_, b) => b | None => str end.

(** The directory a path is in, seen from the working directory. *)
Definition dir_at (w : ScriptWorld) (dir : string) : string := if str_prefix "/" dir then dir else if String.eqb dir "." then sw_cwd w else sw_cwd w +:+ "/" +:+ dir.

Definition unlink (w : ScriptWorld) (name : string) : M Disk unit :=
  modify (fun d => d <| scripts ::= delete (sw_cwd w, name) |> <| links ::= delete (sw_cwd w, name) |>).
Definition symlinkat (target dir name : string) : M Disk unit :=
  d ← gets id;
  if decide (is_Some (scripts d !! (dir, name)) \/ is_Some (links d !! (dir, name))) then mret tt
  else modify (fun d => d <| links ::= <[(dir, name) := target]> |>).

Definition writeScript (ckptDir : string) (uniqueCkptFilenames : bool) (theCheckpointInterval thePort : Z) (compId : UniquePid)
    (restartFilenames rshCmdFileNames sshCmdFileNames : files) (w : ScriptWorld) : M Disk string :=
  let uniqueFilename := uniqueFilename ckptDir uniqueCkptFilenames compId in
  assertM (sw_fopen w) "failed to open restart script";;
  modify (fun d => d <| scripts ::= <[(dir_at w (DirName uniqueFilename), basename uniqueFilename) :=
    script_chunks theCheckpointInterval thePort restartFilenames rshCmdFileNames sshCmdFileNames w]> |>);;
  let filename := RESTART_SCRIPT_BASENAME +:+ "." +:+ RESTART_SCRIPT_EXT in
  let dirname := DirName uniqueFilename in
  assertM (sw_openDir w) "failed to open restart script directory";;
  assertM (sw_stat w) "failed to stat restart script";;
  assertM (sw_chmod w) "failed to make restart script executable";;
  unlink w filename;;
  unlink w filename;;
  assertM (String.length uniqueFilename <? PATH_MAX)%nat "restart script path too long";;
  symlinkat (basename uniqueFilename) (dir_at w dirname) filename;;
  assertM (sw_close w) "failed to close restart script directory";;
  mret uniqueFilename.

(** ** The reader *)

(** The value of [name=q...q], if the text is such an assignment. *)
Definition value_of (name q text : string) : option string :=
  let start := name +:+ "=" +:+ q in
  if str_prefix start text then head (cut (str_drop (String.length start) text) q) else None.

Definition words (s : string) : list string := filter (fun t => t <> EmptyString) (cut s (" " +:+ tab +:+ nl)).

(** A host with the mode, its images and the remote shell: [:: HOST :MODE: IMAGE ... :SHELL]. *)
Record entry : Type := mk_entry { e_host : list string; e_mode : string; e_files : list string; e_shell : list string }.
Fixpoint read_entries (fields : list string) : list entry :=
  match fields with
  | EmptyString :: host :: mode :: fs :: shell :: rest => mk_entry (words host) mode (words fs) (words shell) :: read_entries rest
  | _ => []
  end.

Inductive reading : Type := OneHost (fs : list string) | Hosts (es : list entry).
Fixpoint read_script (chunks : list chunk) : option reading :=
  match chunks with
  | [] => None
  | Const _ :: rest => read_script rest
  | Printed text :: rest =>
      match value_of "given_ckpt_files" dq text, value_of "worker_ckpts" "'" text with
      | Some v, _ => Some (OneHost (words v))
      | _, Some v => Some (Hosts (read_entries (tail (cut v ":"))))
      | None, None => read_script rest
      end
  end.

(** ** Cutting text *)

(** No character of the text is one of these. *)
Fixpoint free (delims s : string) : bool := match s with EmptyString => true | String c s' => negb (is_delim delims c) && free delims s' end.

Lemma free_app d a b : free d (a +:+ b) = free d a && free d b.
Proof. induction a as [|c a IH]; [done|]. change (String c a +:+ b) with (String c (a +:+ b)). cbn [free]. by rewrite IH, andb_assoc. Qed.
Lemma free_sub d d' s : (forall c, is_delim d c = true -> is_delim d' c = true) -> free d' s = true -> free d s = true.
Proof.
  intros H. induction s as [|c s IH]; [done|]. cbn. rewrite !andb_true_iff, !negb_true_iff. intros [Hc Hs]. split; [|by apply IH].
  destruct (is_delim d c) eqn:E; [|done]. apply H in E. congruence.
Qed.
Lemma cut_ne s d : exists t ts, cut s d = t :: ts.
Proof. destruct s as [|c s]; cbn; [eauto|]. destruct (is_delim d c); [eauto|]. destruct (cut s d); eauto. Qed.
Lemma cut_free d s : free d s = true -> cut s d = [s].
Proof. induction s as [|c s IH]; [done|]. cbn. rewrite andb_true_iff, negb_true_iff. intros [-> Hs]. by rewrite IH. Qed.
Lemma cut_app d a c b : is_delim d c = true -> cut (a +:+ String c b) d = cut a d ++ cut b d.
Proof.
  intros Hc. induction a as [|x a IH]; [change (EmptyString +:+ String c b) with (String c b); cbn [cut]; by rewrite Hc|]. change (String x a +:+ String c b) with (String x (a +:+ String c b)). cbn [cut]. rewrite IH.
  destruct (is_delim d x); [done|]. by destruct (cut_ne a d) as (t & ts & ->).
Qed.
Lemma cut_field d a c b : free d a = true -> is_delim d c = true -> cut (a +:+ String c b) d = a :: cut b d.
Proof. intros Ha Hc. rewrite cut_app by done. by rewrite cut_free. Qed.

(** Names that can stand in the script: of hosts and of images.  The reader splits words and fields and nothing else, so a name must have none of the characters that
    the shell treats specially: blanks, quotes, the colon of the fields, and those that start an expansion, a pattern, a comment, a redirection or another command. *)
Definition special : string := " " +:+ tab +:+ nl +:+ ":'" +:+ dq +:+ "$`\*?[]{}~!#&|;()<>^".
Definition word (s : string) : Prop := s <> EmptyString /\ free special s = true.
Definition blank (c : ascii) : bool := is_delim (" " +:+ tab +:+ nl) c.

Lemma word_free d s : word s -> (forall c, is_delim d c = true -> is_delim special c = true) -> free d s = true.
Proof. intros [_ H] Hd. by apply (free_sub _ special). Qed.
Lemma words_app a c b : blank c = true -> words (a +:+ String c b) = words a ++ words b.
Proof. intros Hc. unfold words. by rewrite cut_app, filter_app. Qed.
Lemma words_blank c s : blank c = true -> words (String c s) = words s.
Proof. intros Hc. by apply (words_app EmptyString). Qed.
Lemma is_delim_app d d' c : is_delim (d +:+ d') c = is_delim d c || is_delim d' c.
Proof. induction d as [|x d IH]; [done|]. change (String x d +:+ d') with (String x (d +:+ d')). cbn [is_delim]. by rewrite IH, orb_assoc. Qed.
Lemma words_word s : word s -> words s = [s].
Proof.
  intros Hs. unfold words. rewrite cut_free, filter_cons_True; [done|apply Hs|]. apply (word_free _ _ Hs). intros c. unfold special. rewrite !is_delim_app, !orb_true_iff. tauto.
Qed.

Definition opens (t : string) : Prop := t = EmptyString \/ exists c u, t = String c u /\ blank c = true.
Lemma file_list_cons f fs : file_list (f :: fs) = " " +:+ f +:+ file_list fs.
Proof. unfold file_list. cbn. destruct fs as [|g fs]; cbn; [by rewrite str_app_nil_r|done]. Qed.
Lemma opens_files fs t : opens t -> opens (file_list fs +:+ t).
Proof. destruct fs as [|f fs]; [done|]. intros _. right. rewrite file_list_cons. exists " "%char, ((f +:+ file_list fs) +:+ t). done. Qed.
Lemma words_files fs t : Forall word fs -> opens t -> words (file_list fs +:+ t) = fs ++ words t.
Proof.
  intros Hfs Ht. induction Hfs as [|f fs Hf _ IH]; [done|]. rewrite file_list_cons, !str_app_assoc. change (" " +:+ ?x) with (String " "%char x). rewrite words_blank by done.
  destruct (opens_files fs t Ht) as [E|(c & u & E & Hc)].
  - rewrite E in IH |- *. rewrite str_app_nil_r, words_word by done. change (words EmptyString) with (@nil string) in IH. by rewrite <- app_comm_cons, <- IH.
  - rewrite E, words_app, words_word by done. cbn [app]. f_equal. rewrite <- IH, E. by rewrite words_blank.
Qed.

(** ** Reading what was written *)

Abbreviation line := (string * (string * list string))%type.
Definition line_text (x : line) : string := host_line (fst x) (snd x).
Definition line_entry (x : line) : entry := mk_entry [fst (snd x)] "bg" (snd (snd x)) [fst x].
Definition line_ok (x : line) : Prop := word (fst x) /\ word (fst (snd x)) /\ Forall word (snd (snd x)).

Lemma concat_cons s l : String.concat EmptyString (s :: l) = s +:+ String.concat EmptyString l.
Proof. destruct l as [|t l]; cbn; [by rewrite str_app_nil_r|done]. Qed.
Lemma colon_special c : is_delim ":" c = true -> is_delim special c = true.
Proof. unfold special. rewrite !is_delim_app, !orb_true_iff. intros H. right. right. right. left. cbn in *. rewrite orb_false_r in H. by rewrite H. Qed.
Lemma files_free d fs : is_delim d " "%char = false -> (forall c, is_delim d c = true -> is_delim special c = true) -> Forall word fs -> free d (file_list fs) = true.
Proof.
  intros Hb Hd Hfs. induction Hfs as [|f fs Hf _ IH]; [done|]. rewrite file_list_cons, !free_app, IH, (word_free d f Hf Hd), !andb_true_r. cbn. by rewrite Hb.
Qed.

Lemma read_lines l : Forall line_ok l -> forall a, free ":" a = true ->
  exists x fields, cut (a +:+ String.concat EmptyString (line_text <$> l) +:+ nl) ":" = x :: fields /\ words x = words a /\ read_entries fields = line_entry <$> l.
Proof.
  intros Hl. induction Hl as [|[sh [h fs]] l (Hs & Hh & Hf) _ IH]; intros a Ha.
  - change (String.concat EmptyString (line_text <$> []) +:+ nl) with nl. exists (a +:+ nl), []. rewrite cut_free; [|by rewrite free_app, Ha]. split_and!; [done| |done]. unfold nl. rewrite words_app by done. by rewrite app_nil_r.
  - cbn [fst snd] in Hs, Hh, Hf. rewrite fmap_cons, concat_cons. unfold line_text at 1, host_line. cbn [fst snd].
    set (rest := String.concat EmptyString (line_text <$> l) +:+ nl).
    assert (E : a +:+ ((nl +:+ " :: " +:+ h +:+ " :bg:" +:+ file_list fs +:+ " : " +:+ sh) +:+ String.concat EmptyString (line_text <$> l)) +:+ nl =
      (a +:+ nl +:+ " ") +:+ String ":"%char (EmptyString +:+ String ":"%char ((" " +:+ h +:+ " ") +:+ String ":"%char ("bg" +:+ String ":"%char ((file_list fs +:+ " ") +:+ String ":"%char ((" " +:+ sh) +:+ rest)))))).
    { unfold rest. rewrite !str_app_assoc. done. }
    rewrite E. clear E. assert (Hc : is_delim ":" ":"%char = true) by done.
    rewrite cut_field; [|by rewrite !free_app, Ha|done]. rewrite cut_field by done.
    rewrite cut_field; [|by rewrite !free_app, (word_free ":" h Hh colon_special)|done]. rewrite cut_field by done.
    rewrite cut_field; [|by rewrite !free_app, (files_free ":" fs eq_refl colon_special Hf)|done].
    destruct (IH (" " +:+ sh)) as (x & fields & Ec & Hx & Hr); [by rewrite !free_app, (word_free ":" sh Hs colon_special)|]. fold rest in Ec. rewrite Ec.
    eexists _, _. split; [reflexivity|]. split.
    + unfold nl. change (a +:+ String (byte_of 10) EmptyString +:+ " ") with (a +:+ String (byte_of 10) " "). rewrite words_app by done. change (words " ") with (@nil string). by rewrite app_nil_r.
    + cbn [read_entries]. rewrite Hr, fmap_cons. f_equal. unfold line_entry. cbn [fst snd]. f_equal.
      * change (" " +:+ h +:+ " ") with (String " "%char (h +:+ String " "%char EmptyString)). rewrite words_blank, words_app, words_word by done. done.
      * rewrite words_files; [by rewrite app_nil_r|done|]. right. by exists " "%char, EmptyString.
      * rewrite Hx. change (" " +:+ sh) with (String " "%char sh). by rewrite words_blank, words_word.
Qed.

(** The quoted value of an assignment. *)
Lemma prefix_app a b : str_prefix a (a +:+ b) = true.
Proof. induction a as [|c a IH]; [by destruct b|]. change (String c a +:+ b) with (String c (a +:+ b)). cbn [str_prefix]. by rewrite Ascii.eqb_refl, IH. Qed.
Lemma value_of_ok name (q : ascii) v rest : free (String q EmptyString) v = true ->
  value_of name (String q EmptyString) (name +:+ "=" +:+ String q EmptyString +:+ v +:+ String q rest) = Some v.
Proof.
  intros Hv. unfold value_of. set (start := name +:+ "=" +:+ String q EmptyString).
  assert (E : name +:+ "=" +:+ String q EmptyString +:+ v +:+ String q rest = start +:+ v +:+ String q rest) by (unfold start; by rewrite !str_app_assoc).
  rewrite E, prefix_app, str_drop_app, cut_field; [done..|]. cbn. by rewrite Ascii.eqb_refl.
Qed.

Lemma quote_special c : is_delim "'" c = true -> is_delim special c = true.
Proof. unfold special. rewrite !is_delim_app, !orb_true_iff. intros H. right. right. right. left. cbn in *. rewrite orb_false_r in H. by rewrite H, orb_true_r. Qed.
Lemma dq_special c : is_delim dq c = true -> is_delim special c = true.
Proof. unfold special. rewrite !is_delim_app, !orb_true_iff. intros H. do 4 right. by left. Qed.
Lemma lines_free l : Forall line_ok l -> free "'" (String.concat EmptyString (line_text <$> l) +:+ nl) = true.
Proof.
  intros Hl. rewrite free_app, andb_true_r. induction Hl as [|[sh [h fs]] l (Hs & Hh & Hf) _ IH]; [done|]. rewrite fmap_cons, concat_cons, free_app, IH, andb_true_r.
  unfold line_text, host_line. cbn [fst snd] in *. by rewrite !free_app, (word_free "'" h Hh quote_special), (word_free "'" sh Hs quote_special), (files_free "'" fs eq_refl quote_special Hf).
Qed.

Section read.
Context (interval port : Z) (m rsh ssh : files) (w : ScriptWorld).
(** The lines of the three maps. *)
Definition script_lines : list line :=
  (pair "rsh" <$> LookupService.in_order rsh) ++ (pair "ssh" <$> LookupService.in_order ssh) ++ ((fun h => (defaultShellType rsh ssh (fst h), h)) <$> LookupService.in_order m).
Lemma worker_ckpts_lines : worker_ckpts m rsh ssh = String.concat EmptyString (line_text <$> script_lines) +:+ nl.
Proof. unfold worker_ckpts, script_lines. rewrite !fmap_app, <- !list_fmap_compose. done. Qed.

(** What is printed before the images is no assignment of them. *)
Lemma read_preamble : read_script (script_chunks interval port m rsh ssh w) = read_script (image_chunks m rsh ssh).
Proof. reflexivity. Qed.

Lemma read_multi : isSingleHost m rsh ssh = false -> Forall line_ok script_lines -> read_script (script_chunks interval port m rsh ssh w) = Some (Hosts (line_entry <$> script_lines)).
Proof.
  intros Hs Hl. rewrite read_preamble. unfold image_chunks. rewrite Hs. cbn [read_script].
  change (value_of "given_ckpt_files" dq ("worker_ckpts='" +:+ ?x)) with (@None string).
  pose proof (value_of_ok "worker_ckpts" "'"%char (worker_ckpts m rsh ssh) (nl +:+ nl)) as E. rewrite worker_ckpts_lines in E |- *.
  change ("worker_ckpts='" +:+ ?x +:+ "'" +:+ nl +:+ nl) with ("worker_ckpts" +:+ "=" +:+ "'" +:+ x +:+ String "'"%char (nl +:+ nl)). rewrite E by (by apply lines_free).
  destruct (read_lines script_lines Hl EmptyString eq_refl) as (x & fields & Ec & _ & Hr). rewrite str_app_nil_l in Ec. rewrite Ec. cbn [tail]. by rewrite Hr.
Qed.

Lemma read_single h fs l : isSingleHost m rsh ssh = true -> LookupService.in_order m = (h, fs) :: l -> Forall word fs ->
  read_script (script_chunks interval port m rsh ssh w) = Some (OneHost fs).
Proof.
  intros Hs Hm Hf. rewrite read_preamble. unfold image_chunks. rewrite Hs, Hm. cbn [snd].
  cbn [read_script]. change ("given_ckpt_files=" +:+ dq +:+ ?x +:+ dq +:+ nl +:+ nl) with ("given_ckpt_files" +:+ "=" +:+ dq +:+ x +:+ String (byte_of 34) (nl +:+ nl)).
  unfold dq at 1 2. rewrite value_of_ok by (by apply (files_free dq fs eq_refl dq_special)). rewrite <- (str_app_nil_r (file_list fs)), words_files by (done || by left). by rewrite app_nil_r.
Qed.
End read.

(** ** The images of the reports *)

Lemma in_order_perm {V} (m : gmap string V) : LookupService.in_order m ≡ₚ map_to_list m.
Proof.
  unfold LookupService.in_order. induction (map_to_list m) as [|x l IH]; [done|]. cbn [foldr]. rewrite <- IH at 2. clear IH. generalize (foldr LookupService.insert_sorted [] l). intros k.
  induction k as [|y k IHk]; [done|]. cbn [LookupService.insert_sorted]. destruct (LookupService.str_ltb _ _); [done|]. rewrite IHk. apply Permutation_swap.
Qed.

(** The hosts and files of a map. *)
Definition host_files (l : list (string * list string)) : list (string * string) := x ← l; pair (fst x) <$> snd x.
#[export] Instance host_files_perm : Proper ((≡ₚ) ==> (≡ₚ)) host_files.
Proof. intros l l' H. unfold host_files. by rewrite H. Qed.
Lemma host_files_push h f (m : files) : host_files (map_to_list (push h f m)) ≡ₚ (h, f) :: host_files (map_to_list m).
Proof.
  unfold push. destruct (m !! h) as [fs|] eqn:E; cbn [default].
  - rewrite <- (insert_delete_eq m h (fs ++ [f])), map_to_list_insert by (by rewrite lookup_delete_eq). rewrite <- (map_to_list_delete m h fs E). unfold host_files. cbn [mbind list_bind fst snd].
    rewrite fmap_app. cbn [fmap list_fmap]. rewrite <- app_assoc. cbn [app]. by rewrite <- Permutation_middle.
  - rewrite map_to_list_insert by done. done.
Qed.
Lemma host_files_reports sh rs m0 : host_files (map_to_list (all_files sh rs m0)) ≡ₚ ((fun r => (r_host r, r_file r)) <$> filter (fun r => r_shell r = sh) rs) ++ host_files (map_to_list m0).
Proof.
  revert m0. induction rs as [|r rs IH]; intros m0; [done|]. cbn [all_files foldl]. fold (all_files sh rs (add_file sh r m0)). rewrite IH. unfold add_file.
  destruct (String.eqb_spec (r_shell r) sh) as [E|E]; [rewrite filter_cons_True by done|by rewrite filter_cons_False].
  rewrite host_files_push, fmap_cons. cbn [app]. by rewrite <- Permutation_middle.
Qed.

Definition report_words (r : report) : Prop := report_ok r /\ word (r_host r) /\ word (r_file r).
Lemma files_words sh rs m0 : Forall report_words rs -> map_Forall (fun h fs => word h /\ Forall word fs) m0 -> map_Forall (fun h fs => word h /\ Forall word fs) (all_files sh rs m0).
Proof.
  intros Hrs. revert m0. induction Hrs as [|r rs (_ & Hh & Hf) _ IH]; intros m0 Hm; [done|]. apply IH. unfold add_file. destruct (String.eqb _ _); [|done].
  unfold push. apply map_Forall_insert_2; [|done]. split; [done|]. apply Forall_app. split; [|by constructor]. destruct (m0 !! r_host r) as [fs|] eqn:E; [|constructor]. by apply (Hm _ _ E).
Qed.
Lemma in_order_words m : map_Forall (fun h fs => word h /\ Forall word fs) m -> Forall (fun x : string * list string => word (fst x) /\ Forall word (snd x)) (LookupService.in_order m).
Proof. intros Hm. rewrite (in_order_perm m). by apply map_Forall_to_list in Hm as H; eapply Forall_impl; [exact H|]; intros []. Qed.

(** ** Writing the files *)

Lemma last_slash_free b : free "/" b = true -> last_slash b = None.
Proof. induction b as [|c b IH]; [done|]. cbn [free last_slash is_delim]. rewrite andb_true_iff, negb_true_iff, orb_false_r. intros [Hc Hb]. rewrite IH by done. rewrite Ascii.eqb_sym in Hc. by rewrite Hc. Qed.
Lemma last_slash_app a b : free "/" b = true -> last_slash (a +:+ "/" +:+ b) = Some (a, b).
Proof.
  intros Hb. induction a as [|c a IH].
  - change (EmptyString +:+ "/" +:+ b) with (String "/"%char b). cbn [last_slash]. by rewrite last_slash_free.
  - change (String c a +:+ "/" +:+ b) with (String c (a +:+ "/" +:+ b)). cbn [last_slash]. by rewrite IH.
Qed.

Lemma digits_go_free fuel base n acc : 2 <= base <= 16 -> free "/" acc = true -> free "/" (digits_go fuel base n acc) = true.
Proof.
  intros Hb. assert (Hd : forall n, is_delim "/" (digit_char (n mod base)) = false).
  { intros k. pose proof (Z.mod_pos_bound k base). apply (digit_cases (fun d => is_delim "/" (digit_char d) = false)); [lia|]. by repeat constructor. }
  revert n acc. induction fuel as [|fuel IH]; intros n acc Ha; cbn [digits_go]; [cbn [free]; by rewrite Hd|].
  assert (H : free "/" (String (digit_char (n mod base)) acc) = true) by (cbn [free]; by rewrite Hd). destruct (n <? base); auto.
Qed.
Lemma XToString_free n : free "/" (XToString n) = true.
Proof. unfold XToString. destruct (n <? 0); [cbn [free is_delim]|]; by apply digits_go_free. Qed.
Lemma up_str_free u : free "/" (up_str u) = true.
Proof. unfold up_str. rewrite !free_app, XToString_free. unfold hex_str, digits. by rewrite !digits_go_free. Qed.
Lemma zeros_free n : free "/" (String.concat EmptyString (replicate n "0")) = true.
Proof. induction n as [|n IH]; [done|]. cbn [replicate]. by rewrite concat_cons, free_app, IH. Qed.
Lemma scriptName_free unique comp : free "/" (scriptName unique comp) = true.
Proof.
  unfold scriptName. rewrite !free_app, up_str_free. destruct unique; [|done]. rewrite free_app. unfold pad_left. by rewrite free_app, zeros_free, XToString_free.
Qed.
Lemma basename_script dir unique comp : basename (uniqueFilename dir unique comp) = scriptName unique comp.
Proof. unfold basename, uniqueFilename. by rewrite last_slash_app by apply scriptName_free. Qed.
Lemma scriptName_link unique comp : scriptName unique comp <> RESTART_SCRIPT_BASENAME +:+ "." +:+ RESTART_SCRIPT_EXT.
Proof. by intros [=]. Qed.

(** The system calls succeed, and the path is not too long. *)
Definition can_write (w : ScriptWorld) (name : string) : bool := sw_fopen w && sw_openDir w && sw_stat w && sw_chmod w && sw_close w && (String.length name <? PATH_MAX)%nat.

Lemma writeScript_ok dir unique interval port comp m rsh ssh w d : let name := uniqueFilename dir unique comp in let link := RESTART_SCRIPT_BASENAME +:+ "." +:+ RESTART_SCRIPT_EXT in
  let at_ := dir_at w (DirName name) in can_write w name = true ->
  exists d', writeScript dir unique interval port comp m rsh ssh w d = Ok name d' /\ scripts d' !! (at_, scriptName unique comp) = Some (script_chunks interval port m rsh ssh w) /\
    links d' !! (at_, link) =
      if decide (sw_cwd w = at_) then Some (scriptName unique comp)
      else if decide (is_Some (scripts d !! (at_, link))) then links d !! (at_, link)
      else match links d !! (at_, link) with Some old => Some old | None => Some (scriptName unique comp) end.
Proof.
  intros name link at_ Hw. unfold can_write in Hw. rewrite !andb_true_iff in Hw. destruct Hw as (((((W1 & W2) & W3) & W4) & W5) & W6).
  pose proof (scriptName_link unique comp) as Hne. fold link in Hne. set (sn := scriptName unique comp) in *. set (ch := script_chunks interval port m rsh ssh w).
  set (d1 := mk_Disk (delete (sw_cwd w, link) (delete (sw_cwd w, link) (<[(at_, sn) := ch]> (scripts d)))) (delete (sw_cwd w, link) (delete (sw_cwd w, link) (links d)))).
  assert (E : writeScript dir unique interval port comp m rsh ssh w d = (symlinkat sn at_ link;; mret name) d1).
  { assert (Hb : basename name = sn) by apply basename_script. unfold writeScript. fold name. rewrite W1, W2, W3, W4, W5, W6, Hb. fold link at_ ch.
    do 7 (erewrite bind_ok by reflexivity). unfold link at 1. erewrite (bind_ok (assertM _ _)) by reflexivity. reflexivity. }
  assert (Hs : scripts d1 !! (at_, sn) = Some ch) by (unfold d1; cbn [scripts]; by rewrite !lookup_delete_ne, lookup_insert_eq by congruence).
  rewrite E. clear E. unfold symlinkat. destruct (decide (sw_cwd w = at_)) as [Ec|Ec].
  - assert (H1 : scripts d1 !! (at_, link) = None /\ links d1 !! (at_, link) = None) by (unfold d1; cbn [scripts links]; by rewrite Ec, !lookup_delete_eq). destruct H1 as [H1 H2].
    exists (d1 <| links ::= <[(at_, link) := sn]> |>). split_and!; [|exact Hs|rsimpl; apply lookup_insert_eq].
    erewrite bind_ok; [reflexivity|]. erewrite bind_ok by reflexivity. cbn [id]. rewrite H1, H2, decide_False; [reflexivity|]. by intros [[? ?]|[? ?]].
  - assert (H1 : scripts d1 !! (at_, link) = scripts d !! (at_, link) /\ links d1 !! (at_, link) = links d !! (at_, link)) by (unfold d1; cbn [scripts links]; by rewrite !lookup_delete_ne, ?lookup_insert_ne by congruence).
    destruct H1 as [H1 H2]. destruct (decide (is_Some (scripts d !! (at_, link)) \/ is_Some (links d !! (at_, link)))) as [Hd|Hd].
    + exists d1. split_and!; [|exact Hs|].
      * erewrite bind_ok; [reflexivity|]. erewrite bind_ok by reflexivity. cbn [id]. by rewrite H1, H2, decide_True.
      * rewrite H2. destruct (decide _); [done|]. destruct (links d !! (at_, link)) eqn:El; [done|]. by destruct Hd as [?|[? ?]].
    + exists (d1 <| links ::= <[(at_, link) := sn]> |>). split_and!; [|exact Hs|].
      * erewrite bind_ok; [reflexivity|]. erewrite bind_ok by reflexivity. cbn [id]. by rewrite H1, H2, decide_False.
      * rsimpl. rewrite lookup_insert_eq, decide_False by tauto. destruct (links d !! (at_, link)) eqn:El; [|done]. exfalso. apply Hd. right. by eexists.
Qed.

(** ** Theorems *)

(** The remote shell that the script uses for a report. *)
Definition shell_of (rs : list report) (r : report) : string :=
  if String.eqb (r_shell r) EmptyString then defaultShellType (all_files "rsh" rs ∅) (all_files "ssh" rs ∅) (r_host r) else r_shell r.
(** The images of the entries: host, file and shell. *)
Definition images (es : list entry) : list (list string * string * list string) := e ← es; (fun f => (e_host e, f, e_shell e)) <$> e_files e.

Lemma images_lines (g : string -> string) l : images (line_entry <$> ((fun h => (g (fst h), h)) <$> l)) = (fun hf => ([fst hf], snd hf, [g (fst hf)])) <$> host_files l.
Proof.
  induction l as [|[h fs] l IH]; [done|]. rewrite !fmap_cons. unfold images, host_files in *. cbn [mbind list_bind fst snd] in *. rewrite fmap_app, IH. f_equal.
  rewrite <- list_fmap_compose. done.
Qed.
Lemma split_shells rs : Forall report_words rs -> rs ≡ₚ filter (fun r => r_shell r = "rsh") rs ++ filter (fun r => r_shell r = "ssh") rs ++ filter (fun r => r_shell r = EmptyString) rs.
Proof.
  induction 1 as [|r rs ((_ & _ & Hs) & _) _ IH]; [done|]. etransitivity; [apply perm_skip, IH|]. rewrite !filter_cons, !decide_bool_decide.
  destruct Hs as [E|[E|E]]; rewrite E; repeat (rewrite bool_decide_eq_true_2 by done || rewrite bool_decide_eq_false_2 by done); [|done|apply Permutation_middle]. rewrite !app_assoc. apply Permutation_middle.
Qed.

Section names.
Context (rs : list report).
Hypothesis Hrs : Forall report_words rs.
Abbreviation m := (all_files EmptyString rs ∅).
Abbreviation rsh := (all_files "rsh" rs ∅).
Abbreviation ssh := (all_files "ssh" rs ∅).
Definition reported (sh : string) : list report := filter (fun r => r_shell r = sh) rs.

Lemma reported_words sh : Forall (fun x : string * list string => word (fst x) /\ Forall word (snd x)) (LookupService.in_order (all_files sh rs ∅)).
Proof. by apply in_order_words, files_words. Qed.
Lemma reported_files sh : host_files (LookupService.in_order (all_files sh rs ∅)) ≡ₚ (fun r => (r_host r, r_file r)) <$> reported sh.
Proof. rewrite in_order_perm, host_files_reports. cbn. by rewrite app_nil_r. Qed.
Lemma reported_split : rs ≡ₚ reported "rsh" ++ reported "ssh" ++ reported EmptyString.
Proof. by apply split_shells. Qed.

Lemma names_one_host interval port w : isSingleHost m rsh ssh = true ->
  exists fs, read_script (script_chunks interval port m rsh ssh w) = Some (OneHost fs) /\ fs ≡ₚ r_file <$> rs /\ exists host, Forall (fun r => r_host r = host) rs.
Proof.
  intros Es. pose proof Es as Es'. unfold isSingleHost in Es'. rewrite !andb_true_iff, !Nat.eqb_eq, !map_size_empty_iff in Es'. destruct Es' as ((E1 & E2) & E3).
  assert (Hnone : forall sh, all_files sh rs ∅ = ∅ -> reported sh = []).
  { intros sh Em. pose proof (reported_files sh) as H. rewrite Em in H. symmetry in H. apply Permutation_nil_r in H. by apply fmap_nil_inv in H. }
  assert (Hall : rs ≡ₚ reported EmptyString) by (rewrite reported_split at 1; by rewrite (Hnone _ E1), (Hnone _ E2)).
  assert (Hlen : length (LookupService.in_order m) = 1%nat) by (by rewrite (in_order_perm m), length_map_to_list).
  destruct (LookupService.in_order m) as [|[h fs] [|y l]] eqn:Em; [done| |done]. pose proof (reported_words EmptyString) as Hws. rewrite Em in Hws. apply Forall_cons in Hws as [[_ Hf] _]. cbn [snd] in Hf.
  exists fs. split; [by apply (read_single interval port m rsh ssh w h fs [])|].
  pose proof (reported_files EmptyString) as H. rewrite Em in H. unfold host_files in H. cbn [mbind list_bind fst snd] in H. rewrite app_nil_r, <- Hall in H. split.
  - apply (fmap_Permutation snd) in H. rewrite <- !list_fmap_compose in H. cbn in H. by rewrite <- H, list_fmap_id.
  - exists h. apply Forall_forall. intros r Hr. assert (Hin : (r_host r, r_file r) ∈ pair h <$> fs) by (rewrite H; by apply (list_elem_of_fmap_2 (fun r => (r_host r, r_file r)))).
    by apply list_elem_of_fmap in Hin as (f & [= -> _] & _).
Qed.

Lemma images_app l k : images (l ++ k) = images l ++ images k.
Proof. unfold images. by rewrite bind_app. Qed.
(** The part of the script for one remote shell. *)
Lemma names_shell sh (g : string -> string) : (forall r, r_shell r = sh -> g (r_host r) = shell_of rs r) ->
  images (line_entry <$> ((fun h => (g (fst h), h)) <$> LookupService.in_order (all_files sh rs ∅))) ≡ₚ (fun r => ([r_host r], r_file r, [shell_of rs r])) <$> reported sh.
Proof.
  intros Hg. rewrite images_lines, (fmap_Permutation _ _ _ (reported_files sh)), <- list_fmap_compose. apply reflexive_eq, list_fmap_ext. intros i r Hr. cbn.
  rewrite Hg; [done|]. apply list_elem_of_lookup_2, list_elem_of_filter in Hr. apply Hr.
Qed.
Lemma names_hosts interval port w : isSingleHost m rsh ssh = false ->
  exists es, read_script (script_chunks interval port m rsh ssh w) = Some (Hosts es) /\ images es ≡ₚ (fun r => ([r_host r], r_file r, [shell_of rs r])) <$> rs.
Proof.
  intros Es. assert (Hl : Forall line_ok (script_lines m rsh ssh)).
  { unfold script_lines. repeat (apply Forall_app; split); apply Forall_fmap; (eapply Forall_impl; [apply reported_words|]); intros [h fs] [H1 H2]; split_and!; try done.
    cbn. unfold defaultShellType. repeat (case_match; try done). }
  eexists. split; [by apply read_multi|]. unfold script_lines. rewrite !fmap_app, !images_app. rewrite (fmap_Permutation _ _ _ reported_split), !fmap_app.
  f_equiv; [apply (names_shell "rsh" (fun _ => "rsh"))|f_equiv; [apply (names_shell "ssh" (fun _ => "ssh"))|apply (names_shell EmptyString (defaultShellType rsh ssh))]];
    intros r Hr; unfold shell_of; by rewrite Hr.
Qed.
End names.

(** C7: The restart script names every image.  When the calls of the system succeed and the names of the hosts and images are plain words ([word]: no blank, quote, colon or character that is
    special to the shell), the script that is written for the reports of the workers names, to the shell that runs it, the image of every report once and nothing else: with one host as the list of images, otherwise with each image under its host and with the remote shell
    it was reported with, or the default one. *)
Theorem script_names_every_image rs dir unique interval port comp w d : Forall report_words rs -> can_write w (uniqueFilename dir unique comp) = true ->
  exists name d' chunks, writeScript dir unique interval port comp (all_files EmptyString rs ∅) (all_files "rsh" rs ∅) (all_files "ssh" rs ∅) w d = Ok name d' /\
    scripts d' !! (dir_at w (DirName name), basename name) = Some chunks /\
    match read_script chunks with
    | Some (OneHost fs) => fs ≡ₚ r_file <$> rs /\ exists host, Forall (fun r => r_host r = host) rs
    | Some (Hosts es) => images es ≡ₚ (fun r => ([r_host r], r_file r, [shell_of rs r])) <$> rs
    | None => False
    end.
Proof.
  intros Hrs Hw. destruct (writeScript_ok dir unique interval port comp (all_files EmptyString rs ∅) (all_files "rsh" rs ∅) (all_files "ssh" rs ∅) w d Hw) as (d' & E & Hd & _).
  eexists _, d', _. split; [exact E|]. rewrite basename_script. split; [exact Hd|].
  destruct (isSingleHost (all_files EmptyString rs ∅) (all_files "rsh" rs ∅) (all_files "ssh" rs ∅)) eqn:Es.
  - destruct (names_one_host rs Hrs interval port w Es) as (fs & -> & H). done.
  - destruct (names_hosts rs Hrs interval port w Es) as (es & -> & H). done.
Qed.

Definition ex_world_script : ScriptWorld := mk_ScriptWorld "host-a" "Mon Jan  1 00:00:00 2024" "/usr/bin" "/home/user" true true true true true.
Definition ex_reports : list report := [mk_report 0 "/ckpt/a.dmtcp" EmptyString "host-a"; mk_report 1 "/ckpt/b.dmtcp" "ssh" "host-b"; mk_report 2 "/ckpt/c.dmtcp" EmptyString "host-a"].
Definition ex_comp : UniquePid := mk_UniquePid 255 40000 4096 3.
Definition ex_chunks : list chunk := script_chunks 0 7779 (all_files EmptyString ex_reports ∅) (all_files "rsh" ex_reports ∅) (all_files "ssh" ex_reports ∅) ex_world_script.

Lemma script_names_every_image_witness : exists name d',
  writeScript "/ckpt" false 0 7779 ex_comp (all_files EmptyString ex_reports ∅) (all_files "rsh" ex_reports ∅) (all_files "ssh" ex_reports ∅) ex_world_script (mk_Disk ∅ ∅) = Ok name d' /\
  exists es, read_script ex_chunks = Some (Hosts es) /\
    images es ≡ₚ [(["host-a"], "/ckpt/a.dmtcp", ["ssh"]); (["host-b"], "/ckpt/b.dmtcp", ["ssh"]); (["host-a"], "/ckpt/c.dmtcp", ["ssh"])].
Proof.
  assert (Hr : Forall report_words ex_reports) by (repeat constructor; (done || (right; right; reflexivity) || (left; reflexivity))).
  destruct (script_names_every_image ex_reports "/ckpt" false 0 7779 ex_comp ex_world_script (mk_Disk ∅ ∅) Hr ltac:(vm_compute; reflexivity)) as (name & d' & chunks & E & Hd & H).
  exists name, d'. split; [exact E|].
  destruct (names_hosts ex_reports Hr 0 7779 ex_world_script ltac:(vm_compute; reflexivity)) as (es & Er & _).
  destruct (writeScript_ok "/ckpt" false 0 7779 ex_comp (all_files EmptyString ex_reports ∅) (all_files "rsh" ex_reports ∅) (all_files "ssh" ex_reports ∅) ex_world_script (mk_Disk ∅ ∅) ltac:(vm_compute; reflexivity)) as (d2 & E2 & H2 & _).
  rewrite E2 in E. injection E as <- <-. rewrite basename_script, H2 in Hd. injection Hd as Hd. assert (Ech : chunks = ex_chunks) by (symmetry; exact Hd). rewrite Ech in H.
  assert (Er' : read_script ex_chunks = Some (Hosts es)) by exact Er. exists es. split; [exact Er'|]. rewrite Er' in H. exact H.
Defined.

(** The link dmtcp_restart_script.sh is removed from the working directory and made in the directory of the script: where these differ and the link is there already, it
    goes on to name the script of an earlier checkpoint. *)
Lemma restart_link_stale dir unique interval port comp m rsh ssh w d old : let at_ := dir_at w (DirName (uniqueFilename dir unique comp)) in
  can_write w (uniqueFilename dir unique comp) = true -> sw_cwd w <> at_ -> links d !! (at_, "dmtcp_restart_script.sh") = Some old ->
  exists d', writeScript dir unique interval port comp m rsh ssh w d = Ok (uniqueFilename dir unique comp) d' /\ links d' !! (at_, "dmtcp_restart_script.sh") = Some old.
Proof.
  intros at_ Hw Hc Hl. destruct (writeScript_ok dir unique interval port comp m rsh ssh w d Hw) as (d' & E & _ & H). exists d'. split; [exact E|].
  change (RESTART_SCRIPT_BASENAME +:+ "." +:+ RESTART_SCRIPT_EXT) with "dmtcp_restart_script.sh" in H. fold at_ in H. rewrite decide_False, Hl in H by done. by destruct (decide _) in H.
Qed.

(** Why the names must be plain: the image of a checkpoint directory with a blank in its name becomes two words, none of which is the image. *)
Lemma image_name_with_blank_is_split : let rs := [mk_report 0 "/my ckpt/a.dmtcp" EmptyString "host-a"] in
  read_script (script_chunks 0 7779 (all_files EmptyString rs ∅) (all_files "rsh" rs ∅) (all_files "ssh" rs ∅) ex_world_script) = Some (OneHost ["/my"; "ckpt/a.dmtcp"]).
Proof. vm_compute. reflexivity. Qed.
