(* ===== verification/Worker.v ===== *)
(** * A checkpoint of a whole computation (src/dmtcpworker.cpp, src/coordinatorapi.cpp, src/threadlist.cpp)

    Every process of a computation has a checkpoint thread, which waits for the coordinator's request and then goes, with all the others, from
    barrier to barrier: threads are stopped, the image is written, threads go on.  The worker's side is the loop of
    [checkpointhread] with the methods of [DmtcpWorker] it calls; the coordinator's side is [processEvent] of Coordinator.

    A [System] is one coordinator and its workers, with the messages that are under way between them, in order on each connection.  A step
    is one of a worker (a message sent or received, or a part of its work in between) or the coordinator's handling of one
    message; requests for a checkpoint may come at any time.  The plugins of the processes may have barriers of their own, which
    are parameters; requests to the key-value service, which each process makes and waits for alone, are left out, and so are
    processes that exit or lose their connection in the middle of a checkpoint, and forked checkpoints.  How the threads of one process are
    stopped is the subject of Threads, what is written of CkptWrite: here they are one step each. *)

From Stdlib Require Import ZArith Lia Ascii.
From stdpp Require Import base gmap strings numbers functions relations list.
From S2P Require Import Prelude CText Identity Message Lookup CoordPlugin Coordinator.
Open Scope Z_scope.

(** ** The checkpoint thread *)

(** The barriers of the plugins: at PRESUSPEND, PRECHECKPOINT and RESUME. *)
Record Hooks : Type := mk_Hooks { hk_presuspend : list string; hk_precheckpoint : list string; hk_resume : list string }.

(** What the thread does, in the order it does it. *)
Inductive instr : Type :=
| resumeThreads
| setCurrentState (st : eWorkerState)
| waitForPreSuspendMessage
| waitForBarrier (numPeers : bool) (barrier : string)      (* [numPeers]: the caller asks for the number of peers *)
| suspendThreads
| writeCkpt
| sendCkptFilename
| exitIfAsked
| sendResuming.
#[export] Instance instr_eq_dec : EqDecision instr.
Proof. solve_decision. Defined.

(** A barrier of a plugin. *)
Definition dmtcp_global_barrier (barrier : string) : instr := waitForBarrier false barrier.

(** The methods of [DmtcpWorker]. *)
Definition waitForCheckpointRequest (h : Hooks) : list instr :=
  [setCurrentState RUNNING; waitForPreSuspendMessage; setCurrentState PRESUSPEND] ++ (dmtcp_global_barrier <$> hk_presuspend h) ++ [waitForBarrier false "DMT:SUSPEND"].
Definition releaseLocks : list instr := [setCurrentState SUSPENDED].
Definition preCheckpoint (h : Hooks) : list instr :=
  [waitForBarrier true "DMT:CHECKPOINT"; setCurrentState CHECKPOINTING] ++ (dmtcp_global_barrier <$> hk_precheckpoint h).
Definition postCheckpoint (h : Hooks) : list instr :=
  [setCurrentState CHECKPOINTED; waitForBarrier false "DMT:WriteCkpt"; sendCkptFilename; exitIfAsked] ++ (dmtcp_global_barrier <$> hk_resume h) ++
  [setCurrentState RUNNING; sendResuming].

(** One round of the loop of [checkpointhread], from the end of the round before on. *)
Definition checkpointhread (h : Hooks) : list instr :=
  [resumeThreads] ++ waitForCheckpointRequest h ++ [suspendThreads] ++ releaseLocks ++ preCheckpoint h ++ [writeCkpt] ++ postCheckpoint h.

(** The name of the image, the host and the remote shell of a process, and whether its images have unique names. *)
Record Site : Type := mk_Site { si_file : string; si_host : string; si_shell : string; si_unique : bool }.

(** [w_wait] is the receive of [waitForBarrier] the thread is in: the first, or the second after a repeated request. *)
Record Worker : Type := mk_Worker {
  w_todo : list instr; w_wait : option bool; w_state : eWorkerState; w_comp : UniquePid; w_numPeers : Z; exitAfterCkpt : bool;
  w_stopped : bool;          (* the threads of the process are stopped *)
  w_exited : bool }.
#[export] Instance eta_Worker : Settable Worker :=
  {| eta_of w := mk_Worker (w_todo w) (w_wait w) (w_state w) (w_comp w) (w_numPeers w) (exitAfterCkpt w) (w_stopped w) (w_exited w) |}.

(** A message with its payload. *)
Abbreviation packet := (DmtcpMessage * string)%type.

Section worker.
Context (h : Hooks) (env : MsgEnv) (site : Site).

(** [DmtcpMessage msg(type)]: the constructor takes the state and the identity of the process. *)
Definition newMessage (t : DmtcpMessageType) (w : Worker) : DmtcpMessage := (DmtcpMessage_new env t) <| msg_state := w_state w |>.

Definition barrierMsg (barrier : string) (w : Worker) : packet := ((newMessage DMT_BARRIER w) <| msg_barrier := char_array 64 barrier |>, EmptyString).
Definition filenameMsg (w : Worker) : packet :=
  let buf := si_file site +:+ String NUL (si_shell site +:+ String NUL (si_host site +:+ NUL_str)) in
  ((newMessage (if si_unique site then DMT_UNIQUE_CKPT_FILENAME else DMT_CKPT_FILENAME) w) <| msg_extraBytes := Z.of_nat (String.length buf) |>, buf).
Definition resumingMsg (w : Worker) : packet := (newMessage DMT_WORKER_RESUMING w, EmptyString).

(** The payload a message brings, as [recvMsgFromCoordinatorRaw] returns it. *)
Definition extraData (p : packet) : option string := if 0 <? msg_extraBytes (fst p) then Some (snd p) else None.

Definition onPreSuspendMessage (p : packet) (w : Worker) : option Worker :=
  let m := fst p in
  let comp := (w_comp w) <| up_generation := up_generation (msg_compGroup m) |> in
  if isValid m && negb (0 <? msg_extraBytes m) && bool_decide (msg_type m = DMT_DO_CHECKPOINT) && upid_eqb comp (msg_compGroup m)
  then Some (w <| w_comp := comp |> <| exitAfterCkpt := negb (msg_exitAfterCkpt m =? 0) |>) else None.

Definition onBarrierReleased (numPeers : bool) (barrier : string) (p : packet) (w : Worker) : option Worker :=
  let m := fst p in
  if isValid m && bool_decide (msg_type m = DMT_BARRIER_RELEASED) then
    data ← extraData p;
    name ← c_str data;
    if String.eqb barrier name then Some (w <| w_wait := None |> <| w_numPeers := if numPeers then msg_numPeers m else w_numPeers w |>) else None
  else None.

(** The result of a step: [Waits] when it waits for a message, [Failed] when an assertion fails. *)
Inductive wresult : Type := Step (w : Worker) (sent : list packet) (received : bool) | Waits | Failed.

(** [recvMsgFromCoordinatorRaw]: the process exits when it is to be killed. *)
Definition receive (inbox : list packet) (w : Worker) (k : packet -> wresult) : wresult :=
  match inbox with
  | [] => Waits
  | p :: _ => if isValid (fst p) && bool_decide (msg_type (fst p) = DMT_KILL_PEER) then Step (w <| w_todo := [] |> <| w_exited := true |>) [] true else k p
  end.

Definition wstep (inbox : list packet) (w : Worker) : wresult :=
  match w_todo w with
  | [] => Waits
  | i :: rest =>
      let w1 := w <| w_todo := rest |> in
      match i with
      | resumeThreads => Step (w1 <| w_stopped := false |>) [] false
      | setCurrentState st => Step (w1 <| w_state := st |>) [] false
      | waitForPreSuspendMessage => receive inbox w (fun p => match onPreSuspendMessage p w1 with Some w => Step w [] true | None => Failed end)
      | waitForBarrier numPeers b =>
          match w_wait w with
          | None => if (String.length b <? 64)%nat then Step (w <| w_wait := Some false |>) [barrierMsg b w] false else Failed
          | Some again => receive inbox w (fun p =>
              if negb again && isValid (fst p) && bool_decide (msg_type (fst p) = DMT_DO_CHECKPOINT) then Step (w <| w_wait := Some true |>) [] true
              else match onBarrierReleased numPeers b p w1 with Some w => Step w [] true | None => Failed end)
          end
      | suspendThreads => Step (w1 <| w_stopped := true |>) [] false
      | writeCkpt => Step w1 [] false
      | sendCkptFilename => Step w1 [filenameMsg w] false
      | exitIfAsked => if exitAfterCkpt w then Step (w <| w_todo := [] |> <| w_exited := true |>) [] false else Step w1 [] false
      | sendResuming => Step (w <| w_todo := checkpointhread h |>) [resumingMsg w] false
      end
  end.
End worker.

(** ** The computation *)

(** What the coordinator has written to the connection [fd], as messages. *)
Fixpoint received (fd : Z) (out : list output) : list packet :=
  match out with
  | [] => []
  | Sent f m :: rest =>
      (if f =? fd then [(m, match rest with SentBytes g bytes :: _ => if g =? fd then bytes else EmptyString | _ => EmptyString end)] else []) ++ received fd rest
  | _ :: rest => received fd rest
  end.

(** Workers are known by their clients in the coordinator. *)
Record System : Type := mk_System { coord : Coord; up : ptr -> list packet; down : ptr -> list packet; workers : ptr -> Worker }.

Inductive sevent : Type := Work (p : ptr) | Handle (p : ptr) (w : World) | Request (w : World).
Inductive sresult : Type := Go (s : System) | No | Stop.

Section system.
Context (h : Hooks) (env : ptr -> MsgEnv) (site : ptr -> Site) (fd : ptr -> Z).

(** What the coordinator does, and where its messages go. *)
Definition coordinate {A} (m : C A) (up : ptr -> list packet) (s : System) : sresult :=
  match m (coord s) with
  | Ok _ c => Go (mk_System c up (fun p => down s p ++ received (fd p) (drop (length (trace (coord s))) (trace c))) (workers s))
  | _ => Stop
  end.

Definition sstep (ev : sevent) (s : System) : sresult :=
  match ev with
  | Work p =>
      match wstep h (env p) (site p) (down s p) (workers s p) with
      | Step w sent got => Go (mk_System (coord s) (<[p := up s p ++ sent]> (up s)) (if got then <[p := tail (down s p)]> (down s) else down s) (<[p := w]> (workers s)))
      | Waits => No
      | Failed => Stop
      end
  | Handle p w =>
      match up s p with
      | [] => No
      | m :: rest => coordinate (processEvent (w, EvClient p (Some (Some m)) false)) (<[p := rest]> (up s)) s
      end
  | Request w => coordinate (modify (fun c => c <| world := w |>);; startCheckpoint) (up s) s
  end.

(** A run: every step is possible. *)
Fixpoint srun (evs : list sevent) (s : System) : sresult :=
  match evs with
  | [] => Go s
  | ev :: evs => match sstep ev s with Go s' => srun evs s' | r => r end
  end.
Definition no_request (evs : list sevent) : Prop := forall w, Request w ∉ evs.
(** Only a request can go on. *)
Definition stuck (s : System) : Prop := forall ev, (forall w, ev <> Request w) -> sstep ev s = No.
End system.
