(* ===== verification/CkptProtocol.v ===== *)
(** * Checkpoints of a whole computation: the coordinator's side

    What a worker sends in one round is a fixed sequence, its [script].  The view [CV] describes the coordinator by how much of it the coordinator has
    handled for each worker; the lemmas [coord_bar], [coord_name] and [coord_resume] say how a message moves the view. *)

From Stdlib Require Import ZArith Lia Ascii.
From stdpp Require Import base gmap strings numbers functions relations list.
From S2P Require Import Prelude CText Identity Message Lookup CoordPlugin Coordinator CoordFacts Worker.
Open Scope Z_scope.

(** ** What a worker sends in one round *)

Inductive item : Type := Bar (b : string) | Name | Resume.

Definition before_images (h : Hooks) : list string := hk_presuspend h ++ ["DMT:SUSPEND"; "DMT:CHECKPOINT"] ++ hk_precheckpoint h ++ ["DMT:WriteCkpt"].
Definition barriers (h : Hooks) : list string := before_images h ++ hk_resume h.
Definition script (h : Hooks) : list item := (Bar <$> before_images h) ++ [Name] ++ (Bar <$> hk_resume h) ++ [Resume].

(** The barriers have names, short ones, and no barrier follows one of the same name (the coordinator takes the second for a repetition of the first). *)
Record hooks_ok (h : Hooks) : Prop := {
  ho_names : forall b, b ∈ barriers h -> b <> EmptyString /\ no_NUL b = true /\ (String.length b < 64)%nat;
  ho_next : forall i b b', barriers h !! i = Some b -> barriers h !! S i = Some b' -> b <> b' }.

(** What a process reports about its image is text, and not too long; images do not have unique names. *)
Record site_ok (x : Site) : Prop := {
  so_file : no_NUL (si_file x) = true; so_host : no_NUL (si_host x) = true; so_unique : si_unique x = false;
  so_shell : si_shell x = EmptyString \/ si_shell x = "rsh" \/ si_shell x = "ssh";
  so_size : Z.of_nat (String.length (si_file x) + String.length (si_shell x) + String.length (si_host x) + 3) <= DMTCP_MAX_MESSAGE_EXTRA_BYTES }.

Section script.
Context (h : Hooks).
Definition n1 : nat := length (before_images h).
Definition total : nat := length (barriers h).
Definition len : nat := length (script h).
(** Barriers among the first [i] messages. *)
Definition bars (i : nat) : nat := (i `min` n1 + (i - S n1) `min` length (hk_resume h))%nat.
Definition bar (k : nat) : string := default EmptyString (barriers h !! k).

Lemma total_eq : total = (n1 + length (hk_resume h))%nat.
Proof. unfold total, barriers. by rewrite length_app. Qed.
Lemma len_eq : len = (total + 2)%nat.
Proof. unfold len, script. rewrite !length_app, !length_fmap, total_eq. unfold n1. cbn. lia. Qed.
Lemma bars_len : bars len = total.
Proof. unfold bars. rewrite len_eq, total_eq. lia. Qed.
Lemma bars_mono i j : (i <= j)%nat -> (bars i <= bars j)%nat.
Proof. unfold bars. lia. Qed.
Lemma bars_total i : (bars i <= total)%nat.
Proof. unfold bars. rewrite total_eq. lia. Qed.
Lemma bars_step i : (bars (S i) <= S (bars i))%nat.
Proof. unfold bars. lia. Qed.

Lemma script_lookup i x : script h !! i = Some x ->
  (exists b, x = Bar b /\ barriers h !! bars i = Some b /\ bars (S i) = S (bars i)) \/
  (x = Name /\ i = n1 /\ bars (S i) = bars i) \/
  (x = Resume /\ S i = len /\ bars i = total /\ bars (S i) = bars i).
Proof.
  unfold script. pose proof len_eq as Hl. rewrite total_eq in Hl. intros H. apply lookup_app_Some in H as [H|[Hi H]].
  - left. rewrite list_lookup_fmap in H. destruct (before_images h !! i) as [b|] eqn:E; [|done]. injection H as <-. pose proof (lookup_lt_Some _ _ _ E) as Hlt. fold n1 in Hlt.
    assert (Eb : bars i = i) by (unfold bars; lia). exists b. split_and!; [done| |unfold bars; lia]. unfold barriers. rewrite Eb, lookup_app_l by done. done.
  - rewrite length_fmap in H, Hi. fold n1 in H, Hi. apply lookup_app_Some in H as [H|[Hi2 H]].
    + right. left. apply list_lookup_singleton_Some in H as [E <-]. assert (i = n1) by lia. split_and!; [done..|unfold bars; lia].
    + cbn in Hi2, H. apply lookup_app_Some in H as [H|[Hi3 H]].
      * left. rewrite list_lookup_fmap in H. destruct (hk_resume h !! (i - n1 - 1)%nat) as [b|] eqn:E; [|done]. injection H as <-. pose proof (lookup_lt_Some _ _ _ E) as Hlt.
        exists b. split_and!; [done| |unfold bars; lia]. unfold barriers. assert (Eb : bars i = (i - 1)%nat) by (unfold bars; lia).
        rewrite Eb, lookup_app_r by (fold n1; lia). fold n1. by replace (i - 1 - n1)%nat with (i - n1 - 1)%nat by lia.
      * right. right. rewrite length_fmap in H, Hi3. apply list_lookup_singleton_Some in H as [E <-]. split_and!; [done|lia|rewrite total_eq; unfold bars; lia|unfold bars; lia].
Qed.

Lemma bar_next i : bars (S i) = S (bars i) -> i <> n1 /\ (S i < len)%nat.
Proof. rewrite len_eq, total_eq. unfold bars. lia. Qed.
Lemma bars_name : bars (S n1) = bars n1 /\ bars n1 = n1 /\ (S n1 < len)%nat.
Proof. rewrite len_eq, total_eq. unfold bars. lia. Qed.
Lemma bars_last i : S i = len -> bars i = total.
Proof. rewrite len_eq, total_eq. unfold bars. rewrite ?total_eq. lia. Qed.
Lemma named_bars i : (n1 < i)%nat -> (n1 <= bars i)%nat.
Proof. unfold bars. lia. Qed.
Lemma bars_named i : (n1 < bars i)%nat -> (n1 < i)%nat.
Proof. unfold bars. lia. Qed.
End script.

(** ** The coordinator *)

Section view.
Context (h : Hooks) (cls : list ptr) (fd : ptr -> Z) (site : ptr -> Site) (comp0 : UniquePid).
Hypothesis Hh : hooks_ok h.
Hypothesis Hcls : NoDup cls.
Hypothesis Hsites : forall p, p ∈ cls -> site_ok (site p).

Abbreviation bars := (bars h).
Abbreviation bar := (bar h).
Abbreviation len := (len h).
Abbreviation n1 := (n1 h).

Definition report_of (p : ptr) : report := mk_report p (si_file (site p)) (si_shell (site p)) (si_host (site p)).
Lemma report_of_ok p : p ∈ cls -> report_ok (report_of p).
Proof. intros Hp. destruct (Hsites p Hp). done. Qed.
(** The barrier a client is known to be at. *)
Definition at_barrier (i : nat) : string := if (i =? len)%nat then EmptyString else match bars i with O => EmptyString | S j => bar j end.
(** The state a client is known to be in. *)
Definition in_ckpt (st : eWorkerState) : bool := match st with PRESUSPEND | SUSPENDED | CHECKPOINTING | CHECKPOINTED => true | _ => false end.
Definition known_as (i : nat) (st : eWorkerState) : Prop := if (i =? 0)%nat || (i =? len)%nat then st = RUNNING else in_ckpt st = true.
Definition arrived (c : ptr -> nat) (k : nat) (p : ptr) : bool := (bars (c p) =? S k)%nat.
(** A script of a checkpoint whose images were reported in this order, after the first [since] outputs. *)
Definition script_of (since : nat) (s : Coord) (order : list ptr) : Prop := exists dir unique time interval port,
  WroteScript dir unique time interval port (compId s)
    (all_files EmptyString (report_of <$> order) ∅) (all_files "rsh" (report_of <$> order) ∅) (all_files "ssh" (report_of <$> order) ∅) ∈ drop since (trace s).

(** The coordinator after it has handled the first [c p] messages of every worker [p]: [k] barriers are open, [order] has reported its images; the request came after the outputs [since]. *)
Record CV (since : option nat) (c : ptr -> nat) (k : nat) (order : list ptr) (s : Coord) : Prop := {
  cv_clients : clients s = cls;
  cv_live : all_live s;
  cv_sock : forall p, p ∈ cls -> cl_sock (client_of s p) = fd p;
  cv_le : forall p, p ∈ cls -> (c p <= len)%nat;
  cv_range : forall p, p ∈ cls -> (k <= bars (c p) <= S k)%nat;
  cv_some : exists p, p ∈ cls /\ bars (c p) = k;
  cv_count : workersAtCurrentBarrier s = Z.of_nat (cnt (arrived c k) cls);
  cv_cur : currentBarrier s = if (cnt (arrived c k) cls =? 0)%nat then EmptyString else bar k;
  cv_barrier : forall p, p ∈ cls -> cl_barrier (client_of s p) = at_barrier (c p);
  cv_state : forall p, p ∈ cls -> known_as (c p) (cl_state (client_of s p));
  cv_order : NoDup order /\ forall p, p ∈ order <-> p ∈ cls /\ (n1 < c p)%nat;
  cv_names : (length order < length cls)%nat -> workersRunningAndSuspendMsgSent s = true /\ numRestartFilenames s = Z.of_nat (length order) /\
    restartFilenames s = all_files EmptyString (report_of <$> order) ∅ /\ rshCmdFileNames s = all_files "rsh" (report_of <$> order) ∅ /\
    sshCmdFileNames s = all_files "ssh" (report_of <$> order) ∅ /\ ((0 < k)%nat -> numCkptWorkers s = Z.of_nat (length cls));
  cv_done : length order = length cls -> workersRunningAndSuspendMsgSent s = false /\ numRestartFilenames s = 0 /\ (forall t0, since = Some t0 -> script_of t0 s order);
  cv_since : forall t0, since = Some t0 -> (t0 <= length (trace s))%nat;
  cv_restart : numRestartPeers s <= 0;
  cv_flags : fl_writeKvData (flags s) = false /\ fl_killAfterCkpt (flags s) = false /\ killAfterCkptOnce s = false /\ blockUntilDone s = false;
  cv_comp : up_eqb (compId s) comp0 = true }.

Lemma cv_world since c k order s w : CV since c k order s -> CV since c k order (s <| world := w |>).
Proof. intros []. split; done. Qed.

Lemma order_le since c k order s : CV since c k order s -> (length order <= length cls)%nat.
Proof. intros HV. destruct (cv_order _ _ _ _ _ HV) as [Hnd Ho]. apply submseteq_length, NoDup_submseteq; [done|]. intros p Hp. by apply Ho. Qed.

Lemma at_barrier_bar i b : barriers h !! bars i = Some b -> (i < len)%nat -> at_barrier i <> b.
Proof.
  intros Hb Hi. unfold at_barrier. rewrite (proj2 (Nat.eqb_neq i len)) by lia.
  assert (Hne : b <> EmptyString) by (apply (ho_names h Hh), list_elem_of_lookup; eauto). destruct (bars i) as [|j] eqn:E; [done|].
  unfold bar. destruct (barriers h !! j) as [b'|] eqn:Ej; [|apply lookup_lt_Some in Hb; apply lookup_ge_None in Ej; lia]. cbn. by eapply (ho_next h Hh).
Qed.

Lemma cnt_missing {A} (f : A -> bool) l : cnt f l <> length l -> exists x, x ∈ l /\ f x = false.
Proof.
  induction l as [|y l IH]; [done|]. rewrite cnt_cons. cbn [length]. intros H. destruct (f y) eqn:E; [|exists y; split; [left|done]].
  destruct IH as (x & Hx & Hf); [cbn in H; lia|]. exists x. split; [by right|done].
Qed.

Definition bump (p : ptr) (c : ptr -> nat) : ptr -> nat := <[p := S (c p)]> c.
Lemma bump_at p c : bump p c p = S (c p).
Proof. apply fn_lookup_insert. Qed.
Lemma bump_ne p c q : q <> p -> bump p c q = c q.
Proof. intros H. apply fn_lookup_insert_ne. congruence. Qed.

(** Changing one client. *)
Lemma client_of_update s s' p f : heap s' = <[p := f]> (heap s) -> forall q, client_of s' q = if decide (q = p) then f else client_of s q.
Proof. intros E q. unfold client_of. rewrite E. destruct (decide (q = p)) as [->|]; [by rewrite lookup_insert_eq|by rewrite lookup_insert_ne]. Qed.

Lemma script_of_mono t0 s s' order out : trace s' = trace s ++ out -> compId s' = compId s -> script_of t0 s order -> script_of t0 s' order.
Proof. intros Et Ec (d & u & t & i & q & H). exists d, u, t, i, q. rewrite Ec, Et, drop_app. apply elem_of_app. by left. Qed.
Lemma since_mono t0 s s' out : trace s' = trace s ++ out -> (t0 <= length (trace s))%nat -> (t0 <= length (trace s'))%nat.
Proof. intros -> H. rewrite length_app. lia. Qed.

(** Fields of a state with one client changed. *)
Lemma updated_live s s' p f : heap s' = <[p := f]> (heap s) -> clients s' = clients s -> all_live s -> all_live s'.
Proof.
  intros Eh Ec Hl q Hq. unfold live. rewrite Eh. destruct (decide (q = p)) as [->|]; [rewrite lookup_insert_eq; by eexists|]. rewrite lookup_insert_ne by done. apply Hl. by rewrite <- Ec.
Qed.

Lemma arrived_bump c k p : NoDup cls -> p ∈ cls -> bars (c p) = k -> bars (S (c p)) = S k -> cnt (arrived (bump p c) k) cls = S (cnt (arrived c k) cls).
Proof.
  intros Hnd Hp E1 E2. pose proof (cnt_change (arrived c k) (arrived (bump p c) k) cls p Hnd Hp) as H.
  assert (F1 : arrived c k p = false) by (unfold arrived; rewrite E1; apply Nat.eqb_neq; lia).
  assert (F2 : arrived (bump p c) k p = true) by (unfold arrived; rewrite bump_at, E2; apply Nat.eqb_refl). rewrite F1, F2 in H. cbn in H.
  assert (H' : (cnt (arrived (bump p c) k) cls + 0 = cnt (arrived c k) cls + 1)%nat); [apply H|lia]. intros y _ Hy. unfold arrived. by rewrite bump_ne.
Qed.

(** What the view needs of a client that has reached a barrier. *)
Lemma bar_arrives since c k order s p b m : CV since c k order s -> p ∈ cls -> bars (c p) = k -> bars (S (c p)) = S (bars (c p)) -> bar k = b -> in_ckpt (msg_state m) = true ->
  let s1 := arrive b p m s in
  workersAtCurrentBarrier s1 = Z.of_nat (cnt (arrived (bump p c) k) cls) /\
  (forall q, q ∈ cls -> (k <= bars (bump p c q) <= S k)%nat /\ (bump p c q <= len)%nat /\ cl_sock (client_of s1 q) = fd q /\
     cl_barrier (client_of s1 q) = at_barrier (bump p c q) /\ known_as (bump p c q) (cl_state (client_of s1 q))) /\
  NoDup order /\ forall q, q ∈ order <-> q ∈ cls /\ (n1 < bump p c q)%nat.
Proof.
  intros HV Hp Hk Hnb Hbk Hs s1. destruct (bar_next h _ Hnb) as [Hn1 Hlen].
  assert (Ecl : forall q, client_of s1 q = if decide (q = p) then (client_of s p) <| cl_state := msg_state m |> <| cl_barrier := b |> else client_of s q) by (by apply client_of_update).
  split_and!.
  - unfold s1, arrive. rsimpl. rewrite (cv_count _ _ _ _ _ HV), (arrived_bump c k p Hcls Hp Hk (eq_trans Hnb (f_equal S Hk))). lia.
  - intros q Hq. rewrite Ecl. destruct (decide (q = p)) as [->|Hqp]; [|rewrite bump_ne by done; split_and!; by apply HV]. rewrite bump_at. rsimpl. split_and!; [lia..|by apply HV| |].
    + unfold at_barrier. rewrite (proj2 (Nat.eqb_neq _ _)) by lia. by rewrite Hnb, Hk, Hbk.
    + unfold known_as. by rewrite (proj2 (Nat.eqb_neq (S (c p)) len)) by lia.
  - apply (cv_order _ _ _ _ _ HV).
  - destruct (cv_order _ _ _ _ _ HV) as [Hnd Ho]. intros q. rewrite Ho. destruct (decide (q = p)) as [->|Hqp]; [rewrite bump_at|by rewrite bump_ne].
    split; intros [? ?]; (split; [done|lia]).
Qed.

Lemma coord_bar since c k order s p b m x : CV since c k order s -> p ∈ cls -> bars (c p) = k -> script h !! c p = Some (Bar b) ->
  barrier_msg b m -> in_ckpt (msg_state m) = true ->
  exists s', onData p (Some (m, x)) s = Ok tt s' /\
    (CV since (bump p c) k order s' /\ trace s' = trace s \/
     CV since (bump p c) (S k) order s' /\ trace s' = trace s ++ broadcast_out (arrive b p m s) DMT_BARRIER_RELEASED (b +:+ NUL_str)).
Proof.
  intros HV Hp Hk Hi Hm Hs. destruct (script_lookup h (c p) _ Hi) as [(b' & [= <-] & Hb & Hnb)|[(? & _)|(? & _)]]; [|done..].
  destruct (bar_next h _ Hnb) as [Hn1 Hlen]. assert (Hbk : bar k = b) by (unfold bar; by rewrite <- Hk, Hb).
  assert (Hcp : p ∈ clients s) by (by rewrite (cv_clients _ _ _ _ _ HV)).
  assert (E : onData p (Some (m, x)) s = releaseBarrier b (arrive b p m s)).
  { apply onData_barrier; [done|by apply HV| |].
    - rewrite (cv_cur _ _ _ _ _ HV), Hbk. destruct (_ =? _)%nat; auto.
    - rewrite (cv_barrier _ _ _ _ _ HV p Hp). apply at_barrier_bar; [done|lia]. }
  rewrite E. clear E. set (s1 := arrive b p m s).
  assert (El : all_live s1) by (apply arrive_live, HV).
  pose proof (arrived_bump c k p Hcls Hp Hk (eq_trans Hnb (f_equal S Hk))) as Hcnt.
  destruct (bar_arrives since c k order s p b m HV Hp Hk Hnb Hbk Hs) as (Ew & Hall1 & Hord). fold s1 in Ew, Hall1.
  pose proof (fun q Hq => proj1 (Hall1 q Hq)) as Hrange. pose proof (fun q Hq => proj2 (Hall1 q Hq)) as Hall2.
  assert (Hle : forall q, q ∈ cls -> (bump p c q <= len)%nat) by (intros q Hq; by apply Hall2).
  assert (Hsock : forall q, q ∈ cls -> cl_sock (client_of s1 q) = fd q) by (intros q Hq; by apply Hall2).
  assert (Hbar : forall q, q ∈ cls -> cl_barrier (client_of s1 q) = at_barrier (bump p c q)) by (intros q Hq; by apply Hall2).
  assert (Hst : forall q, q ∈ cls -> known_as (bump p c q) (cl_state (client_of s1 q))) by (intros q Hq; by apply Hall2).
  pose proof (cnt_le (arrived (bump p c) k) cls) as Hcle.
  destruct (decide (cnt (arrived (bump p c) k) cls = length cls)) as [Hall|Hmiss].
  - rewrite releaseBarrier_fires; [|done|rewrite Ew, Hall; change (clients s1) with (clients s); by rewrite (cv_clients _ _ _ _ _ HV)|left; apply HV]. eexists. split; [reflexivity|]. right.
    split; [|rsimpl; done]. pose proof (proj1 (cnt_all _ _) Hall) as Hall'.
    assert (Hat : forall q, q ∈ cls -> bars (bump p c q) = S k) by (intros q Hq; by apply Nat.eqb_eq, Hall').
    assert (H0 : cnt (arrived (bump p c) (S k)) cls = 0%nat) by (apply (proj2 (cnt_zero _ _)); intros q Hq; unfold arrived; rewrite (Hat q Hq); apply Nat.eqb_neq; lia).
    destruct HV. split; try done; rsimpl; try done.
    + intros q Hq. rewrite (Hat q Hq). lia.
    + exists p. split; [done|]. by apply Hat.
    + by rewrite H0.
    + by rewrite H0.
    + intros Ho. destruct (cv_names0 Ho) as (? & ? & ? & ? & ? & _). split_and!; try done. intros _. change (Z.of_nat (length (clients s)) = Z.of_nat (length cls)). by rewrite cv_clients0.
    + intros Ho. destruct (cv_done0 Ho) as (? & ? & Hsc). split_and!; try done. intros t0 Hf. apply (script_of_mono t0 s _ order (broadcast_out s1 DMT_BARRIER_RELEASED (currentBarrier s1 +:+ NUL_str))); [reflexivity|reflexivity|by apply Hsc].
    + intros t0 Hf. apply (since_mono t0 s _ (broadcast_out s1 DMT_BARRIER_RELEASED (currentBarrier s1 +:+ NUL_str))); [reflexivity|by apply cv_since0].
  - rewrite releaseBarrier_waits; [|done|]; [|rewrite Ew; change (clients s1) with (clients s); rewrite (cv_clients _ _ _ _ _ HV); lia]. eexists. split; [reflexivity|]. left. split; [|done].
    destruct HV. split; try done.
    + destruct (cnt_missing _ _ Hmiss) as (q & Hq & Ha). exists q. split; [done|]. apply Nat.eqb_neq in Ha. specialize (Hrange q Hq). lia.
    + rewrite Hcnt. cbn. by rewrite Hbk.
Qed.

(** A message that is no barrier: the first lines of [onData]. *)
Definition with_state (p : ptr) (st : eWorkerState) (s : Coord) : Coord := s <| heap ::= <[p := (client_of s p) <| cl_state := st |>]> |>.

Lemma bars_kept c k p : bars (S (c p)) = bars (c p) -> cnt (arrived (bump p c) k) cls = cnt (arrived c k) cls.
Proof. intros E. apply cnt_same. intros q _. unfold arrived. destruct (decide (q = p)) as [->|]; [by rewrite bump_at, E|by rewrite bump_ne]. Qed.
Lemma bars_bump c p q : bars (S (c p)) = bars (c p) -> bars (bump p c q) = bars (c q).
Proof. intros E. destruct (decide (q = p)) as [->|]; [by rewrite bump_at, E|by rewrite bump_ne]. Qed.

Lemma order_snoc c p order : c p = n1 -> p ∈ cls -> (NoDup order /\ forall q, q ∈ order <-> q ∈ cls /\ (n1 < c q)%nat) ->
  NoDup (order ++ [p]) /\ forall q, q ∈ order ++ [p] <-> q ∈ cls /\ (n1 < bump p c q)%nat.
Proof.
  intros Ec Hp [Hnd Ho]. split.
  - apply NoDup_app. split_and!; [done| |apply NoDup_singleton]. intros q Hq Hqp%list_elem_of_singleton. subst q. apply Ho in Hq. lia.
  - intros q. rewrite elem_of_app, list_elem_of_singleton, Ho. destruct (decide (q = p)) as [->|Hqp]; [rewrite bump_at|rewrite bump_ne by done; naive_solver].
    split; [intros _; split; [done|lia]|by right].
Qed.

(** What the handling of a report or a resume leaves alone. *)
Record kept (s s' : Coord) : Prop := {
  kp_clients : clients s' = clients s; kp_count : workersAtCurrentBarrier s' = workersAtCurrentBarrier s; kp_cur : currentBarrier s' = currentBarrier s;
  kp_restart : numRestartPeers s' = numRestartPeers s; kp_flags : flags s' = flags s; kp_comp : compId s' = compId s }.

(** The view after a message of [p] that is no barrier. *)
Lemma cv_after since c k order order' s s' p f : CV since c k order s -> p ∈ cls -> bars (S (c p)) = bars (c p) -> (S (c p) <= len)%nat ->
  kept s s' -> (exists out, trace s' = trace s ++ out) -> heap s' = <[p := f]> (heap s) -> cl_sock f = cl_sock (client_of s p) -> cl_barrier f = at_barrier (S (c p)) -> known_as (S (c p)) (cl_state f) ->
  killAfterCkptOnce s' = false -> blockUntilDone s' = false -> (NoDup order' /\ forall q, q ∈ order' <-> q ∈ cls /\ (n1 < bump p c q)%nat) ->
  ((length order' < length cls)%nat -> workersRunningAndSuspendMsgSent s' = true /\ numRestartFilenames s' = Z.of_nat (length order') /\
    restartFilenames s' = all_files EmptyString (report_of <$> order') ∅ /\ rshCmdFileNames s' = all_files "rsh" (report_of <$> order') ∅ /\
    sshCmdFileNames s' = all_files "ssh" (report_of <$> order') ∅ /\ ((0 < k)%nat -> numCkptWorkers s' = Z.of_nat (length cls))) ->
  (length order' = length cls -> workersRunningAndSuspendMsgSent s' = false /\ numRestartFilenames s' = 0 /\ (forall t0, since = Some t0 -> script_of t0 s' order')) ->
  CV since (bump p c) k order' s'.
Proof.
  intros HV Hp Hb Hlen [K1 K2 K3 K4 K5 K6] [out Et] Eh Fs Fb Fst Hk Hbl Hord Hnames Hdone.
  pose proof (client_of_update s s' p f Eh) as Ecl.
  split; rewrite ?K1, ?K2, ?K3, ?K4, ?K5, ?K6, ?(bars_kept c k p Hb); try apply HV; try done.
  - eapply (updated_live s); [done..|apply HV].
  - intros q Hq. rewrite Ecl. destruct (decide (q = p)) as [->|]; [rewrite Fs|]; by apply HV.
  - intros q Hq. destruct (decide (q = p)) as [->|]; [by rewrite bump_at|rewrite bump_ne by done; by apply HV].
  - intros q Hq. rewrite (bars_bump c p q Hb). by apply HV.
  - destruct (cv_some _ _ _ _ _ HV) as (q & Hq & Eq). exists q. by rewrite (bars_bump c p q Hb).
  - intros q Hq. rewrite Ecl. destruct (decide (q = p)) as [->|]; [by rewrite bump_at|rewrite bump_ne by done; by apply HV].
  - intros q Hq. rewrite Ecl. destruct (decide (q = p)) as [->|]; [by rewrite bump_at|rewrite bump_ne by done; by apply HV].
  - intros t0 Ht. eapply since_mono; [exact Et|]. by apply (cv_since _ _ _ _ _ HV).
  - destruct (cv_flags _ _ _ _ _ HV) as (? & ? & _). done.
Qed.

(** The same, and what belongs to the images. *)
Record kept_all (s s' : Coord) : Prop := {
  ka_kept : kept s s'; ka_kill : killAfterCkptOnce s' = killAfterCkptOnce s; ka_block : blockUntilDone s' = blockUntilDone s; ka_trace : trace s' = trace s;
  ka_sent : workersRunningAndSuspendMsgSent s' = workersRunningAndSuspendMsgSent s; ka_num : numRestartFilenames s' = numRestartFilenames s;
  ka_workers : numCkptWorkers s' = numCkptWorkers s; ka_files : restartFilenames s' = restartFilenames s;
  ka_rsh : rshCmdFileNames s' = rshCmdFileNames s; ka_ssh : sshCmdFileNames s' = sshCmdFileNames s }.

(** The fields of the states of [CoordFacts]. *)
Lemma filed_fields r s : kept s (filed r s) /\ heap (filed r s) = <[r_client r := (client_of s (r_client r)) <| cl_state := CHECKPOINTED |>]> (heap s) /\
  killAfterCkptOnce (filed r s) = killAfterCkptOnce s /\ blockUntilDone (filed r s) = blockUntilDone s /\ trace (filed r s) = trace s /\
  workersRunningAndSuspendMsgSent (filed r s) = workersRunningAndSuspendMsgSent s /\ numRestartFilenames (filed r s) = numRestartFilenames s + 1 /\
  numCkptWorkers (filed r s) = numCkptWorkers s /\ restartFilenames (filed r s) = add_file EmptyString r (restartFilenames s) /\
  rshCmdFileNames (filed r s) = add_file "rsh" r (rshCmdFileNames s) /\ sshCmdFileNames (filed r s) = add_file "ssh" r (sshCmdFileNames s).
Proof. repeat split. Qed.
Lemma completed_fields s : kept s (completed s) /\ heap (completed s) = heap s /\ killAfterCkptOnce (completed s) = false /\ blockUntilDone (completed s) = false /\
  trace (completed s) = trace s ++ script_out s :: block_out s /\ workersRunningAndSuspendMsgSent (completed s) = false /\ numRestartFilenames (completed s) = 0.
Proof. repeat split. Qed.
Lemma with_state_fields p st s : kept_all s (with_state p st s) /\ heap (with_state p st s) = <[p := (client_of s p) <| cl_state := st |>]> (heap s).
Proof. repeat split. Qed.
Lemma kept_trans s1 s2 s3 : kept s1 s2 -> kept s2 s3 -> kept s1 s3.
Proof. intros [] []. split; congruence. Qed.

Lemma kept_all_trans s1 s2 s3 : kept_all s1 s2 -> kept_all s2 s3 -> kept_all s1 s3.
Proof. intros [] []. split; [by eapply kept_trans|congruence..]. Qed.

Lemma onData_report p m r s : r_client r = p -> report_ok r -> all_live s -> p ∈ clients s -> isValid m = true -> msg_type m = DMT_CKPT_FILENAME -> 0 < msg_extraBytes m ->
  onData p (Some (m, report_payload r)) s = complete (filed r (with_state p (msg_state m) s)).
Proof.
  intros Er Hr Hl Hp Hv Ht Hx. pose proof (Hl p Hp) as Hcp. unfold onData. rewrite (bind_ok _ _ _ _ _ (deref_live s p Hcp)), (bind_ok _ _ _ _ _ (proj1 (assertValid_isValid m s) Hv)).
  rewrite (bind_ok _ _ _ _ _ (update_live s p _ Hcp)), Ht. rewrite (proj2 (Z.ltb_lt 0 (msg_extraBytes m)) Hx). fold (with_state p (msg_state m) s). rewrite <- Er at 1.
  apply (recordCkptFilename_filed r _ Hr). rewrite Er. unfold live, with_state. rsimpl. rewrite lookup_insert_eq. by eexists.
Qed.

Lemma order_short since c k order s p : CV since c k order s -> p ∈ cls -> p ∉ order -> (length order < length cls)%nat.
Proof.
  intros HV Hp Hn. assert (Hsub : (length (p :: order) <= length cls)%nat); [|cbn in Hsub; lia]. destruct (cv_order _ _ _ _ _ HV) as [Hnd Ho].
  apply submseteq_length, NoDup_submseteq; [by constructor|]. intros q [-> |Hq]%elem_of_cons; [done|]. by apply Ho in Hq as [? _].
Qed.

Lemma coord_name since c k order s p m : CV since c k order s -> p ∈ cls -> c p = n1 -> (0 < k)%nat ->
  isValid m = true -> msg_type m = DMT_CKPT_FILENAME -> 0 < msg_extraBytes m ->
  exists s' out, onData p (Some (m, report_payload (report_of p))) s = Ok tt s' /\ CV since (bump p c) k (order ++ [p]) s' /\ trace s' = trace s ++ out /\ forall f, received f out = [].
Proof.
  intros HV Hp Hc Hk Hv Ht Hx. assert (Hcp : p ∈ clients s) by (by rewrite (cv_clients _ _ _ _ _ HV)). set (r := report_of p).
  rewrite (onData_report p m r s eq_refl (report_of_ok p Hp) (cv_live _ _ _ _ _ HV) Hcp Hv Ht Hx).
  destruct (with_state_fields p (msg_state m) s) as ([W1 W3 W4 W5 W6 W7 W8 W9 W10 W11] & W2). set (s1 := with_state p (msg_state m) s) in *. clearbody s1.
  destruct (filed_fields r s1) as (F1 & F2 & F3 & F4 & F5 & F6 & F7 & F8 & F9 & F10 & F11). set (s2 := filed r s1) in *. clearbody s2. change (r_client r) with p in F2.
  pose proof (client_of_update s s1 p _ W2 p) as Ec1. rewrite decide_True in Ec1 by done. rewrite Ec1, W2, insert_insert_eq in F2.
  rewrite W3 in F3. rewrite W4 in F4. rewrite W5 in F5. rewrite W6 in F6. rewrite W7 in F7. rewrite W8 in F8. rewrite W9 in F9. rewrite W10 in F10. rewrite W11 in F11.
  pose proof (kept_trans _ _ _ W1 F1) as K. clear W1 W2 W3 W4 W5 W6 W7 W8 W9 W10 W11 Ec1 F1.
  destruct (bars_name h) as (Hb1 & _ & Hlen). assert (Hb : bars (S (c p)) = bars (c p)) by (by rewrite Hc).
  pose proof (order_snoc c p order Hc Hp (cv_order _ _ _ _ _ HV)) as Hord. assert (Hn : p ∉ order) by (rewrite (proj2 (cv_order _ _ _ _ _ HV)); lia).
  pose proof (order_short _ _ _ _ _ p HV Hp Hn) as Hnl.
  destruct (cv_names _ _ _ _ _ HV Hnl) as (Hflag & Hnum & Hf1 & Hf2 & Hf3 & Hw). specialize (Hw Hk). destruct (cv_flags _ _ _ _ _ HV) as (Hkv & _ & Hka & Hbl).
  assert (Hfiles : forall sh, add_file sh r (all_files sh (report_of <$> order) ∅) = all_files sh (report_of <$> order ++ [p]) ∅) by (intros sh; unfold all_files; by rewrite fmap_app, foldl_app).
  rewrite Hf1, Hfiles in F9. rewrite Hf2, Hfiles in F10. rewrite Hf3, Hfiles in F11. rewrite Hnum in F7.
  assert (Hlo : length (order ++ [p]) = S (length order)) by (rewrite length_app; cbn; lia).
  assert (Hbar : cl_barrier (client_of s p) = at_barrier (S (c p))).
  { rewrite (cv_barrier _ _ _ _ _ HV p Hp). unfold at_barrier. by rewrite Hb, !(proj2 (Nat.eqb_neq _ len)) by lia. }
  assert (Hst : known_as (S (c p)) CHECKPOINTED) by (unfold known_as; by rewrite (proj2 (Nat.eqb_neq _ len)) by lia).
  assert (Hl2 : all_live s2) by (eapply (updated_live s); [exact F2|apply K|apply HV]).
  destruct (decide (S (length order) = length cls)) as [Hlast|Hmore].
  - rewrite complete_fires; [|rewrite F7, F8; lia|done|by rewrite (kp_flags _ _ K)]. destruct (completed_fields s2) as (G1 & G2 & G3 & G4 & G5 & G6 & G7).
    assert (Hblk : block_out s2 = []) by (unfold block_out; by rewrite F4, Hbl). rewrite Hblk in G5. exists (completed s2), [script_out s2].
    split_and!; [done| |by rewrite G5, F5|done]. set (s3 := completed s2) in *. clearbody s3.
    refine (cv_after since c k order _ s s3 p _ HV Hp Hb _ (kept_trans _ _ _ K G1) (ex_intro _ _ (eq_trans G5 (f_equal (.++ _) F5))) (eq_trans G2 F2) _ Hbar Hst G3 G4 Hord _ _); [lia|done|lia|].
    intros _. split_and!; [done..|]. intros t0 Et0. eexists _, _, _, _, _. rewrite G5, F5, (kp_comp _ _ G1), drop_app_le by (by apply (cv_since _ _ _ _ _ HV)). apply elem_of_app. right. rewrite <- F9, <- F10, <- F11. left.
  - rewrite complete_waits by (rewrite F7, F8; lia). exists s2, []. split_and!; [done| |by rewrite F5, app_nil_r|done].
    refine (cv_after since c k order _ s s2 p _ HV Hp Hb _ K (ex_intro _ [] (eq_trans F5 (eq_sym (app_nil_r _)))) F2 _ Hbar Hst _ _ Hord _ _); [lia|done|by rewrite F3|by rewrite F4| |lia].
    intros _. rewrite F6, F7, F8, F9, F10, F11. split_and!; try done. lia.
Qed.

Lemma coord_resume since c k order s p m x : CV since c k order s -> p ∈ cls -> S (c p) = len ->
  isValid m = true -> msg_type m = DMT_WORKER_RESUMING -> msg_state m = RUNNING ->
  exists s', onData p (Some (m, x)) s = Ok tt s' /\ CV since (bump p c) k order s' /\ trace s' = trace s.
Proof.
  intros HV Hp Hc Hv Ht Hs. assert (Hcp : p ∈ clients s) by (by rewrite (cv_clients _ _ _ _ _ HV)). pose proof (cv_live _ _ _ _ _ HV p Hcp) as Hl.
  destruct (bars_name h) as (_ & _ & Hlen). pose proof (cv_state _ _ _ _ _ HV p Hp) as Hprev. unfold known_as in Hprev. rewrite !(proj2 (Nat.eqb_neq _ _)) in Hprev by lia. cbn [orb] in Hprev.
  unfold onData. rewrite (bind_ok _ _ _ _ _ (deref_live s p Hl)), (bind_ok _ _ _ _ _ (proj1 (assertValid_isValid m s) Hv)).
  rewrite (bind_ok _ _ _ _ _ (update_live s p _ Hl)), Ht, Hs. fold (with_state p RUNNING s).
  assert (Hl1 : live (with_state p RUNNING s) p) by (unfold live, with_state; rsimpl; rewrite lookup_insert_eq; by eexists).
  rewrite (bind_ok _ _ _ _ _ (update_live _ p _ Hl1)).
  destruct (with_state_fields p RUNNING s) as (W1 & W2). set (s1 := with_state p RUNNING s) in *. clearbody s1.
  pose proof (client_of_update s s1 p _ W2 p) as Ec1. rewrite decide_True in Ec1 by done. set (s2 := s1 <| heap ::= _ |>).
  assert (Eh : heap s2 = <[p := (client_of s p) <| cl_state := RUNNING |> <| cl_barrier := EmptyString |>]> (heap s)) by (unfold s2; rsimpl; by rewrite Ec1, W2, insert_insert_eq).
  assert (K : kept_all s s2) by (eapply kept_all_trans; [exact W1|repeat split]). clearbody s2.
  assert (Hl2 : all_live s2) by (eapply (updated_live s); [exact Eh|apply K|apply HV]). rewrite (bind_ok _ _ _ _ _ (getStatus_live s2 Hl2)).
  assert (Hr : ws_eqb (cl_state (client_of s p)) RESTARTING = false) by (by destruct (cl_state (client_of s p))). rewrite Hr.
  assert (H3 : exists s3, whenM (is_running (status s2)) (modify (fun st => st <| plugins ::= plugins_resumeAfterCkpt (status s2) |>)) s2 = Ok tt s3 /\ kept_all s2 s3 /\ heap s3 = heap s2).
  { destruct (is_running (status s2)); eexists; (split; [reflexivity|repeat split]). }
  destruct H3 as (s3 & E3 & K3 & Eh3). exists s3. split; [exact E3|]. pose proof (kept_all_trans _ _ _ K K3) as KA. rewrite Eh in Eh3. split; [|apply KA].
  assert (Hb : bars (S (c p)) = bars (c p)) by (rewrite Hc, bars_len; symmetry; apply bars_last; done).
  destruct (cv_flags _ _ _ _ _ HV) as (_ & _ & Hka & Hbl).
  refine (cv_after since c k order _ s s3 p _ HV Hp Hb _ (ka_kept _ _ KA) (ex_intro _ [] (eq_trans (ka_trace _ _ KA) (eq_sym (app_nil_r _)))) Eh3 _ _ _ _ _ _ _ _).
  - lia.
  - done.
  - unfold at_barrier. by rewrite Hc, Nat.eqb_refl.
  - unfold known_as. rewrite Hc, Nat.eqb_refl, orb_true_r. done.
  - by rewrite (ka_kill _ _ KA).
  - by rewrite (ka_block _ _ KA).
  - destruct (cv_order _ _ _ _ _ HV) as [Hnd Ho]. split; [done|]. intros q. rewrite Ho. destruct (decide (q = p)) as [->|]; [rewrite bump_at|by rewrite bump_ne]. split; intros [? ?]; (split; [done|lia]).
  - intros Hlt. destruct KA as [_ _ _ _ -> -> -> -> -> ->]. by apply HV.
  - intros Hfull. destruct (cv_done _ _ _ _ _ HV Hfull) as (D1 & D2 & D3). rewrite (ka_sent _ _ KA), (ka_num _ _ KA). split_and!; [done..|]. intros t0 Hf.
    apply (script_of_mono t0 s s3 order []); [by rewrite (ka_trace _ _ KA), app_nil_r|apply KA|by apply D3].
Qed.
End view.
