(* ===== verification/CkptSystem.v ===== *)
(** * Checkpoints of a whole computation: the system

    The invariant [SI] joins the coordinator's view to the stage of every worker and the messages between them.  Every step keeps it; a step that is no
    request lowers [steps_left]; and a state in which none is possible is [quiet].  The theorems at the end are about all runs of [srun]. *)

From Stdlib Require Import ZArith Lia Ascii.
From stdpp Require Import base gmap strings numbers functions relations list.
From S2P Require Import Prelude CText Identity Message Lookup CoordPlugin Coordinator CoordFacts CoordProps Worker CkptProtocol.
Open Scope Z_scope.

(** ** What the coordinator sends *)

(** A broadcast brings every client its message, once. *)
Lemma received_other f out : (forall g m, Sent g m ∈ out -> g <> f) -> received f out = [].
Proof.
  induction out as [|[] out IH]; cbn; intros H; try apply IH; try (intros g' m' Hin; apply (H g' m'); by right); [done|].
  rewrite (proj2 (Z.eqb_neq _ _)) by (apply (H _ m); left). apply IH. intros g m' Hin. apply (H g m'). by right.
Qed.
Lemma received_sent f m x out : x <> EmptyString -> received f (Sent f m :: SentBytes f x :: out) = (m, x) :: received f out.
Proof. intros _. cbn. by rewrite Z.eqb_refl. Qed.

Definition one_out (m : DmtcpMessage) (x : string) (f : Z) : list output := Sent f m :: (if String.eqb x EmptyString then [] else [SentBytes f x]).
Lemma received_one f m x g out : received f (one_out m x g ++ concat (one_out m x <$> out)) =
  (if g =? f then [(m, x)] else []) ++ received f (concat (one_out m x <$> out)).
Proof.
  unfold one_out at 1. destruct (String.eqb_spec x EmptyString) as [->|Hx]; cbn [app received].
  - f_equal. destruct (g =? f); [|done]. by destruct out as [|? ?].
  - f_equal. destruct (g =? f); done.
Qed.
Lemma received_all f m x fds : NoDup fds -> received f (concat (one_out m x <$> fds)) = if decide (f ∈ fds) then [(m, x)] else [].
Proof.
  induction fds as [|g fds IH]; intros Hnd; [by rewrite decide_False by apply not_elem_of_nil|]. apply NoDup_cons in Hnd as [Hg Hnd].
  rewrite fmap_cons. cbn [concat]. rewrite received_one, (IH Hnd). destruct (Z.eqb_spec g f) as [->|Hgf].
  - rewrite (decide_False (P := f ∈ fds)) by done. by rewrite decide_True by left.
  - destruct (decide (f ∈ fds)); [by rewrite decide_True by (by right)|]. rewrite decide_False; [done|]. intros [->|]%elem_of_cons; done.
Qed.

(** ** The round of a worker *)

Definition item_of (i : instr) : option item := match i with waitForBarrier _ b => Some (Bar b) | sendCkptFilename => Some Name | sendResuming => Some Resume | _ => None end.

(** The states in which the messages of a worker are sent. *)
Fixpoint states_ok (todo : list instr) (st : eWorkerState) : bool :=
  match todo with
  | [] => true
  | setCurrentState st' :: rest => states_ok rest st'
  | waitForBarrier _ _ :: rest => in_ckpt st && states_ok rest st
  | sendResuming :: rest => ws_eqb st RUNNING && states_ok rest st
  | _ :: rest => states_ok rest st
  end.

(** Instructions of a round, once the request has come. *)
Definition in_round (h : Hooks) (i : instr) : Prop :=
  match i with resumeThreads | waitForPreSuspendMessage | sendResuming => False | waitForBarrier _ b => b ∈ barriers h | _ => True end.

Section round.
Context (h : Hooks).
Abbreviation thread := (checkpointhread h).
Definition round : list instr := drop 3 thread.

Lemma thread_round : thread = resumeThreads :: setCurrentState RUNNING :: waitForPreSuspendMessage :: round.
Proof. reflexivity. Qed.
(** The instructions before the threads are stopped, and after. *)
Definition till_stop : list instr := setCurrentState PRESUSPEND :: (dmtcp_global_barrier <$> hk_presuspend h) ++ [waitForBarrier false "DMT:SUSPEND"].
Definition till_image : list instr := setCurrentState SUSPENDED :: preCheckpoint h.
Definition till_resumed : list instr :=
  [setCurrentState CHECKPOINTED; waitForBarrier false "DMT:WriteCkpt"; sendCkptFilename; exitIfAsked] ++ (dmtcp_global_barrier <$> hk_resume h) ++ [setCurrentState RUNNING].
Lemma round_parts : round = till_stop ++ suspendThreads :: till_image ++ writeCkpt :: till_resumed ++ [sendResuming].
Proof.
  unfold round, checkpointhread, waitForCheckpointRequest, till_stop, till_image, till_resumed, postCheckpoint, preCheckpoint. cbn [app drop]. rewrite <- !app_assoc. done.
Qed.
Lemma items_bars (l : list string) : omap item_of (dmtcp_global_barrier <$> l) = Bar <$> l.
Proof. induction l as [|b l IH]; [done|]. cbn. by f_equal. Qed.
Lemma items_round : omap item_of round = script h.
Proof.
  rewrite round_parts. unfold till_stop, till_image, till_resumed, preCheckpoint, script, before_images. rewrite ?app_comm_cons, !omap_app, !fmap_app, !items_bars.
  cbn. rewrite <- !app_assoc. rewrite items_bars. cbn. by rewrite <- !app_assoc.
Qed.
Lemma items_thread : omap item_of thread = script h.
Proof. rewrite thread_round. apply items_round. Qed.

Lemma states_bars (l : list string) rest st : in_ckpt st = true -> states_ok rest st = true -> states_ok ((dmtcp_global_barrier <$> l) ++ rest) st = true.
Proof. intros Hs Hr. induction l as [|b l IH]; [done|]. cbn. by rewrite Hs, IH. Qed.
Lemma states_thread st : states_ok thread st = true.
Proof.
  unfold checkpointhread, waitForCheckpointRequest, preCheckpoint, postCheckpoint. cbn [app]. rewrite <- !app_assoc. cbn [app states_ok].
  apply states_bars; [done|]. cbn. apply states_bars; [done|]. cbn. apply states_bars; done.
Qed.

Lemma in_round_bars (l : list string) : (forall b, b ∈ l -> b ∈ barriers h) -> Forall (in_round h) (dmtcp_global_barrier <$> l).
Proof. intros H. apply Forall_fmap, Forall_forall. intros b Hb. by apply H. Qed.
Definition round_body : list instr := till_stop ++ suspendThreads :: till_image ++ writeCkpt :: till_resumed.
Lemma round_last : round = round_body ++ [sendResuming].
Proof. rewrite round_parts. unfold round_body. rewrite <- !app_assoc. cbn [app]. rewrite <- !app_assoc. done. Qed.
Lemma body_in_round : Forall (in_round h) round_body.
Proof.
  unfold round_body, till_stop, till_image, till_resumed, preCheckpoint. assert (Hb : forall b, b ∈ barriers h <-> b ∈ hk_presuspend h \/ b ∈ ["DMT:SUSPEND"; "DMT:CHECKPOINT"; "DMT:WriteCkpt"] \/ b ∈ hk_precheckpoint h \/ b ∈ hk_resume h).
  { intros b. unfold barriers, before_images. set_solver. }
  repeat (apply Forall_app; split) || (apply Forall_cons; split); try apply Forall_nil; try done; try (apply in_round_bars; intros b Hx; apply Hb; set_solver); apply Hb; set_solver.
Qed.
Lemma in_round_body i : i ∈ round_body -> in_round h i.
Proof. apply Forall_forall, body_in_round. Qed.

(** A proper part of a round that is left to do. *)
Definition during (todo : list instr) : Prop := todo <> [] /\ todo `suffix_of` round.
Definition before (todo : list instr) : Prop := todo = thread \/ todo = drop 1 thread \/ todo = drop 2 thread.

Lemma during_step i rest : during (i :: rest) -> (i = sendResuming /\ rest = []) \/ (during rest /\ in_round h i).
Proof.
  intros [_ [l E]]. rewrite round_last in E. destruct rest as [|j r _] using rev_ind.
  - left. apply app_inj_tail in E as [_ <-]. done.
  - right. split; [split; [by destruct r|]|].
    + exists (l ++ [i]). rewrite round_last, <- app_assoc. exact E.
    + rewrite app_comm_cons, app_assoc in E. apply app_inj_tail in E as [E _]. apply in_round_body. rewrite E. apply elem_of_app. right. left.
Qed.

(** The number of messages sent. *)
Definition sent (todo : list instr) : nat := (len h - length (omap item_of todo))%nat.
Lemma sent_quiet i rest : item_of i = None -> sent rest = sent (i :: rest).
Proof. intros E. unfold sent. cbn. by rewrite E. Qed.
Lemma sent_item i rest x : during (i :: rest) -> item_of i = Some x -> script h !! sent (i :: rest) = Some x /\ sent rest = S (sent (i :: rest)) /\ (sent (i :: rest) < len h)%nat.
Proof.
  intros [_ [l E]] Ei. pose proof items_round as Es. rewrite E, omap_app in Es. cbn [omap list_omap] in Es. rewrite Ei in Es.
  unfold sent, len. rewrite <- Es, length_app. cbn [omap list_omap]. rewrite Ei. cbn [length]. replace (_ - _)%nat with (length (omap item_of l)) by lia. split_and!; [|lia..].
  rewrite lookup_app_r, Nat.sub_diag by lia. done.
Qed.
Lemma sent_start : sent round = 0%nat.
Proof. unfold sent. rewrite items_round. unfold len. lia. Qed.
Lemma sent_last : S (sent [sendResuming]) = len h.
Proof. unfold sent. cbn. rewrite len_eq. lia. Qed.
Lemma during_round : during round.
Proof. by split. Qed.

(** Threads are stopped once, and the request is waited for before. *)
Lemma split_once {A} (x : A) l r l' r' : x ∉ l' -> x ∉ r' -> l ++ x :: r = l' ++ x :: r' -> r = r'.
Proof.
  revert l'. induction l as [|y l IH]; intros [|y' l'] Hl Hr E; cbn in E; simplify_eq.
  - done.
  - exfalso. apply Hl. left.
  - exfalso. apply Hr. apply elem_of_app. right. left.
  - eapply IH; [|done|done]. intros H. apply Hl. by right.
Qed.
Lemma not_in_bars i (l : list string) : (forall b, i <> dmtcp_global_barrier b) -> i ∉ dmtcp_global_barrier <$> l.
Proof. intros H (b & E & _)%list_elem_of_fmap. by apply (H b). Qed.
Lemma suspend_parts : suspendThreads ∉ till_stop /\ suspendThreads ∉ till_image ++ writeCkpt :: till_resumed ++ [sendResuming].
Proof.
  pose proof (fun l => not_in_bars suspendThreads l ltac:(done)) as Hb. unfold till_stop, till_image, till_resumed, preCheckpoint.
  split; repeat setoid_rewrite elem_of_app || setoid_rewrite elem_of_cons; rewrite ?elem_of_nil; naive_solver.
Qed.
Lemma suspend_once rest : during (suspendThreads :: rest) -> rest = till_image ++ writeCkpt :: till_resumed ++ [sendResuming].
Proof. intros [_ [l E]]. rewrite round_parts in E. destruct suspend_parts as [H1 H2]. symmetry in E. by apply (split_once _ _ _ _ _ H1 H2) in E. Qed.
Lemma round_no_wait todo : during todo -> waitForPreSuspendMessage ∉ todo.
Proof.
  intros [_ [l E]] Hin. assert (H : waitForPreSuspendMessage ∈ round) by (rewrite E; apply elem_of_app; by right).
  rewrite round_last in H. apply elem_of_app in H as [H|H]; [apply (in_round_body _ H)|]. by apply list_elem_of_singleton in H.
Qed.
Lemma during_thread todo : during todo -> todo <> thread.
Proof. intros H ->. apply (round_no_wait _ H). rewrite thread_round. do 2 right. left. Qed.
Lemma suspend_in_round : suspendThreads ∈ round.
Proof. rewrite round_parts. apply elem_of_app. right. left. Qed.

(** Barriers left to reach. *)
Definition bar_of (i : instr) : option string := match i with waitForBarrier _ b => Some b | _ => None end.
Definition bars_left (todo : list instr) : nat := length (omap bar_of todo).
Lemma bars_left_app l r : bars_left (l ++ r) = (bars_left l + bars_left r)%nat.
Proof. unfold bars_left. by rewrite omap_app, length_app. Qed.
Lemma bars_left_cons i l : bars_left (i :: l) = (match bar_of i with Some _ => 1 | None => 0 end + bars_left l)%nat.
Proof. unfold bars_left. cbn. by destruct (bar_of i). Qed.
Lemma bars_left_hooks (l : list string) : bars_left (dmtcp_global_barrier <$> l) = length l.
Proof. unfold bars_left. induction l as [|b l IH]; [done|]. cbn. by rewrite IH. Qed.
Lemma bars_left_parts : bars_left till_stop = S (length (hk_presuspend h)) /\ bars_left till_image = S (length (hk_precheckpoint h)) /\ bars_left (till_resumed ++ [sendResuming]) = S (length (hk_resume h)).
Proof.
  unfold till_stop, till_image, till_resumed, preCheckpoint. split_and!.
  - rewrite bars_left_cons, bars_left_app, bars_left_hooks. cbn. lia.
  - cbn [app]. by rewrite !bars_left_cons, bars_left_hooks.
  - rewrite !bars_left_app, bars_left_hooks. cbn. lia.
Qed.
Lemma total_parts : total h = (length (hk_presuspend h) + length (hk_precheckpoint h) + length (hk_resume h) + 3)%nat /\ n1 h = (length (hk_presuspend h) + length (hk_precheckpoint h) + 3)%nat.
Proof. rewrite total_eq. unfold n1, before_images. rewrite !length_app. cbn. lia. Qed.
Lemma bars_left_round : bars_left round = total h.
Proof.
  rewrite round_parts, bars_left_app. change (bars_left (suspendThreads :: ?l)) with (bars_left l). rewrite bars_left_app. change (bars_left (writeCkpt :: ?l)) with (bars_left l).
  destruct bars_left_parts as (-> & -> & ->). rewrite (proj1 total_parts). lia.
Qed.
Lemma bars_left_during todo : during todo -> (bars h (sent todo) + bars_left todo = total h)%nat.
Proof.
  intros [Hne [l E]]. revert todo Hne E. induction l as [|i l IH] using rev_ind; intros todo Hne E.
  - change ([] ++ todo) with todo in E. subst todo. rewrite sent_start. apply bars_left_round.
  - rewrite <- app_assoc in E. cbn [app] in E. specialize (IH (i :: todo) ltac:(done) E). assert (Hd : during (i :: todo)) by (split; [done|by exists l]).
    destruct (item_of i) as [x|] eqn:Ei; [|rewrite (sent_quiet i todo Ei); rewrite <- IH; by destruct i].
    destruct (sent_item i todo x Hd Ei) as (Hx & -> & _). destruct (script_lookup h _ _ Hx) as [(b & -> & _ & Eb)|[(-> & _ & Eb)|(-> & _)]].
    + destruct i; try done. rewrite bars_left_cons in IH. cbn in IH. lia.
    + destruct i; try done. rewrite bars_left_cons in IH. cbn in IH. lia.
    + destruct i; try done. by destruct (during_step _ _ Hd) as [[_ ->]|[_ []]].
Qed.

(** Parts of a round that end at an instruction, and those that begin after it. *)
Lemma suffix_after {A} (x : A) l todo l' r : l ++ todo = l' ++ x :: r -> x ∉ todo -> exists m, r = m ++ todo.
Proof.
  intros E Hx. apply app_eq_inv in E as [(m & -> & E)|(m & -> & E)].
  - destruct m as [|y m]; cbn in E; [subst todo; exfalso; apply Hx; left|]. injection E as <- ->. by exists m.
  - exfalso. apply Hx. rewrite E. apply elem_of_app. right. left.
Qed.
Lemma suffix_before {A} (x : A) l todo l' r : l ++ todo = l' ++ x :: r -> x ∉ r -> x ∈ todo -> exists m, todo = m ++ x :: r.
Proof.
  intros E Hr Hx. apply app_eq_inv in E as [(m & -> & E)|(m & -> & E)].
  - destruct m as [|y m]; cbn in E; [subst todo; by exists []|]. injection E as <- ->. exfalso. apply Hr. apply elem_of_app. by right.
  - by exists m.
Qed.

Lemma checkpoint_parts : round = (till_stop ++ [suspendThreads; setCurrentState SUSPENDED]) ++ waitForBarrier true "DMT:CHECKPOINT" ::
  [setCurrentState CHECKPOINTING] ++ (dmtcp_global_barrier <$> hk_precheckpoint h) ++ writeCkpt :: till_resumed ++ [sendResuming].
Proof. rewrite round_parts. unfold till_image, preCheckpoint. rewrite <- !app_assoc. done. Qed.
Lemma past_checkpoint todo : during todo -> waitForBarrier true "DMT:CHECKPOINT" ∉ todo -> (length (hk_presuspend h) + 2 <= bars h (sent todo))%nat.
Proof.
  intros Hd Hn. pose proof (bars_left_during todo Hd) as Ht. destruct Hd as [_ [l E]]. rewrite checkpoint_parts in E. symmetry in E.
  destruct (suffix_after _ _ _ _ _ E Hn) as [m Em]. apply (f_equal bars_left) in Em. rewrite !(bars_left_app [_]), (bars_left_app (_ <$> _)), bars_left_hooks, bars_left_cons, (bars_left_app m) in Em.
  destruct bars_left_parts as (_ & _ & Hp). rewrite (bars_left_cons writeCkpt), Hp in Em. cbn in Em. rewrite (proj1 total_parts) in Ht. lia.
Qed.
Lemma image_parts : writeCkpt ∉ till_stop ++ suspendThreads :: till_image /\ writeCkpt ∉ till_resumed ++ [sendResuming] /\ waitForBarrier true "DMT:CHECKPOINT" ∉ till_resumed ++ [sendResuming].
Proof.
  pose proof (fun l => not_in_bars writeCkpt l ltac:(done)) as Hb. pose proof (fun l => not_in_bars (waitForBarrier true "DMT:CHECKPOINT") l ltac:(done)) as Hc.
  unfold till_stop, till_image, till_resumed, preCheckpoint. split_and!; repeat setoid_rewrite elem_of_app || setoid_rewrite elem_of_cons; rewrite ?elem_of_nil; naive_solver.
Qed.
Lemma round_image : round = (till_stop ++ suspendThreads :: till_image) ++ writeCkpt :: till_resumed ++ [sendResuming].
Proof. rewrite round_parts, <- app_assoc. done. Qed.
Lemma image_left todo : during todo -> writeCkpt ∈ todo -> (S (bars h (sent todo)) <= n1 h)%nat.
Proof.
  intros Hd Hin. pose proof (bars_left_during todo Hd) as Ht. destruct Hd as [_ [l E]]. rewrite round_image in E. symmetry in E. destruct image_parts as (_ & Hi & _).
  destruct (suffix_before _ _ _ _ _ E Hi Hin) as [m Em]. apply (f_equal bars_left) in Em. rewrite bars_left_app, bars_left_cons in Em.
  destruct bars_left_parts as (_ & _ & Hp). rewrite Hp in Em. cbn in Em. destruct total_parts as [E1 E2]. lia.
Qed.
Lemma stop_left todo : during todo -> suspendThreads ∈ todo -> (bars h (sent todo) <= length (hk_presuspend h) + 1)%nat.
Proof.
  intros Hd Hin. pose proof (bars_left_during todo Hd) as Ht. destruct Hd as [_ [l E]]. rewrite round_parts in E. symmetry in E. destruct suspend_parts as (_ & Hi).
  destruct (suffix_before _ _ _ _ _ E Hi Hin) as [m Em]. apply (f_equal bars_left) in Em. rewrite bars_left_app, bars_left_cons, bars_left_app, bars_left_cons in Em.
  destruct bars_left_parts as (_ & Hq & Hp). rewrite Hp, Hq in Em. cbn in Em. destruct total_parts as [E1 E2]. lia.
Qed.
Lemma at_image rest : during (writeCkpt :: rest) -> waitForBarrier true "DMT:CHECKPOINT" ∉ rest.
Proof.
  intros [_ [l E]]. rewrite round_image in E. destruct image_parts as (H1 & H2 & H3). symmetry in E. apply (split_once _ _ _ _ _ H1 H2) in E. by rewrite E.
Qed.
End round.

Section system.
Context (h : Hooks) (cls : list ptr) (fd : ptr -> Z) (site : ptr -> Site) (comp0 : UniquePid) (env : ptr -> MsgEnv).
Hypothesis Hh : hooks_ok h.
Hypothesis Hcls : NoDup cls.
Hypothesis Hsites : forall p, p ∈ cls -> site_ok (site p).
Hypothesis Hfd : forall p q, p ∈ cls -> q ∈ cls -> fd p = fd q -> p = q.

Abbreviation bars := (bars h).
Abbreviation bar := (bar h).
Abbreviation len := (len h).
Abbreviation total := (total h).
Abbreviation n1 := (n1 h).
Abbreviation CV := (CV h cls fd site comp0).

Lemma received_broadcast s t x p : clients s = cls -> (forall q, q ∈ cls -> cl_sock (client_of s q) = fd q) -> p ∈ cls ->
  received (fd p) (broadcast_out s t x) = [(broadcast_msg s t x, x)].
Proof.
  intros Hc Hs Hp. assert (E : broadcast_out s t x = concat (one_out (broadcast_msg s t x) x <$> (fd <$> cls))).
  { unfold broadcast_out. rewrite Hc. f_equal. rewrite <- list_fmap_compose. apply list_fmap_ext. intros i q Hq. unfold one_out. cbn. by rewrite !Hs by (eapply list_elem_of_lookup_2; eauto). }
  rewrite E, received_all, decide_True; [done|by apply list_elem_of_fmap_2|]. clear E Hc Hs.
  revert Hfd Hcls. clear. induction cls as [|q l IH]; intros Hi Hnd; [constructor|]. apply NoDup_cons in Hnd as [Hq Hnd]. rewrite fmap_cons. constructor.
  - intros (r & Er & Hr)%list_elem_of_fmap. apply Hq. rewrite (Hi q r); [done|by left|by right|done].
  - apply IH; [|done]. intros ? ? ? ?. apply Hi; by right.
Qed.

(** The messages a worker waits for. *)
Record asks (m : packet) : Prop := {
  ak_valid : isValid (fst m) = true; ak_type : msg_type (fst m) = DMT_DO_CHECKPOINT; ak_extra : msg_extraBytes (fst m) = 0;
  ak_comp : up_eqb (msg_compGroup (fst m)) comp0 = true; ak_exit : msg_exitAfterCkpt (fst m) = 0 }.
Record releases (b : string) (m : packet) : Prop := {
  rl_valid : isValid (fst m) = true; rl_type : msg_type (fst m) = DMT_BARRIER_RELEASED; rl_extra : 0 < msg_extraBytes (fst m); rl_name : c_str (snd m) = Some b }.

Lemma valid_message e t x : messageExtraBytesIsValid x = true -> forall m, msg_magicBits m = msg_magicBits (DmtcpMessage_new e t) ->
  msg_msgSize m = msg_msgSize (DmtcpMessage_new e t) -> msg_extraBytes m = x -> isValid m = true.
Proof. intros Hx m E1 E2 E3. unfold isValid. rewrite E1, E2, E3, Hx. reflexivity. Qed.

Lemma broadcast_asks s : fl_killAfterCkpt (flags s) = false -> killAfterCkptOnce s = false -> up_eqb (compId s) comp0 = true ->
  asks (broadcast_msg s DMT_DO_CHECKPOINT EmptyString, EmptyString).
Proof.
  intros H1 H2 H3. split; unfold broadcast_msg; cbn [fst]; rsimpl; try done. by rewrite H1, H2.
Qed.
Lemma broadcast_releases s b : no_NUL b = true -> (String.length b < 64)%nat -> releases b (broadcast_msg s DMT_BARRIER_RELEASED (b +:+ NUL_str), b +:+ NUL_str).
Proof.
  intros Hb Hl. assert (E : to_uint32 (Z.of_nat (String.length (b +:+ NUL_str))) = Z.of_nat (String.length b) + 1).
  { rewrite str_app_length. cbn. unfold to_uint32. rewrite wrap_u_small; lia. }
  split; unfold broadcast_msg; cbn [fst snd]; rsimpl; try done; [|rewrite E; lia|by apply c_str_app].
  apply (valid_message (msgEnv s) DMT_NULL (Z.of_nat (String.length b) + 1)); [|done..|done]. unfold messageExtraBytesIsValid. apply Z.leb_le. unfold DMTCP_MAX_MESSAGE_EXTRA_BYTES. lia.
Qed.

(** ** The coordinator's events *)

Lemma handle_ok w p m s s' : onData p (Some m) (s <| world := w |>) = Ok tt s' -> processEvent (w, EvClient p (Some (Some m)) false) s = Ok tt s'.
Proof. intros E. unfold processEvent. cbn [fst snd]. erewrite bind_ok by reflexivity. by rewrite (bind_ok _ _ _ _ _ E). Qed.

Lemma ws_real since c k order s : CV since c k order s -> forall x, x ∈ states_of s -> x <> WS_MAX.
Proof.
  intros HV x. unfold states_of. rewrite (cv_clients _ _ _ _ _ _ _ _ _ _ HV). intros (p & -> & Hp)%list_elem_of_fmap.
  pose proof (cv_state _ _ _ _ _ _ _ _ _ _ HV p Hp) as Hs. unfold known_as in Hs. intros E. rewrite E in Hs. by destruct (_ || _).
Qed.

(** A request is accepted when every worker has sent all of a round. *)
Lemma ready_cv since c k order s : CV since c k order s -> ready_to_checkpoint s = true <-> forall p, p ∈ cls -> c p = len.
Proof.
  intros HV. pose proof (cv_clients _ _ _ _ _ _ _ _ _ _ HV) as Hc. rewrite (ready_to_checkpoint_iff s (ws_real _ _ _ _ _ HV)).
  destruct (cv_order _ _ _ _ _ _ _ _ _ _ HV) as [Hnd Ho]. pose proof (order_le h cls fd site comp0 _ _ _ _ _ HV) as Hle. pose proof (bars_name h) as (_ & _ & Hlen). split.
  - intros (_ & Hst & Hsent) p Hp. assert (Hfull : length order = length cls).
    { destruct (decide (length order = length cls)); [done|]. destruct (cv_names _ _ _ _ _ _ _ _ _ _ HV ltac:(lia)) as [Hf _]. congruence. }
    assert (Hpo : p ∈ order).
    { destruct (decide (p ∈ order)) as [|Hn]; [done|]. pose proof (order_short h cls fd site comp0 _ _ _ _ _ p HV Hp Hn). lia. }
    apply Ho in Hpo as [_ Hn1]. pose proof (cv_state _ _ _ _ _ _ _ _ _ _ HV p Hp) as Hk. unfold known_as in Hk.
    rewrite (Hst (cl_state (client_of s p))) in Hk by (unfold states_of; rewrite Hc; by apply (list_elem_of_fmap_2 (fun p => cl_state (client_of s p)))).
    rewrite (proj2 (Nat.eqb_neq (c p) 0)) in Hk by lia. destruct (Nat.eqb_spec (c p) len); [done|]. done.
  - intros Hall. assert (Hperm : (length cls <= length order)%nat).
    { apply submseteq_length, NoDup_submseteq; [done|]. intros p Hp. apply Ho. rewrite (Hall p Hp). split; [done|lia]. }
    destruct (cv_some _ _ _ _ _ _ _ _ _ _ HV) as (p0 & Hp0 & _). split_and!.
    + rewrite Hc. intros E. rewrite E in Hp0. by apply elem_of_nil in Hp0.
    + intros x. unfold states_of. rewrite Hc. intros (p & -> & Hp)%list_elem_of_fmap. pose proof (cv_state _ _ _ _ _ _ _ _ _ _ HV p Hp) as Hk.
      unfold known_as in Hk. by rewrite (Hall p Hp), Nat.eqb_refl, orb_true_r in Hk.
    + apply (cv_done _ _ _ _ _ _ _ _ _ _ HV). lia.
Qed.

(** The state after an accepted request. *)
Definition after_start (s : Coord) : Coord := ckpt_started s <| trace := trace s ++ broadcast_out (ckpt_started s) DMT_DO_CHECKPOINT EmptyString |>
  <| workersAtCurrentBarrier := 0 |> <| workersRunningAndSuspendMsgSent := true |>.
Lemma started_fields s : let s' := after_start s in
  clients s' = clients s /\ heap s' = heap s /\ workersAtCurrentBarrier s' = 0 /\ currentBarrier s' = currentBarrier s /\ workersRunningAndSuspendMsgSent s' = true /\
  numRestartFilenames s' = 0 /\ restartFilenames s' = ∅ /\ rshCmdFileNames s' = ∅ /\ sshCmdFileNames s' = ∅ /\ numRestartPeers s' = -1 /\ flags s' = flags s /\
  killAfterCkptOnce s' = killAfterCkptOnce s /\ blockUntilDone s' = blockUntilDone s /\ compId s' = incrementGeneration (compId s) /\
  trace s' = trace s ++ broadcast_out (ckpt_started s) DMT_DO_CHECKPOINT EmptyString.
Proof. repeat split. Qed.

Lemma client_of_heap s s' p : heap s' = heap s -> client_of s' p = client_of s p.
Proof. intros E. unfold client_of. by rewrite E. Qed.

Lemma coord_start since c k order s : CV since c k order s -> (forall p, p ∈ cls -> c p = len) ->
  exists s', startCheckpoint s = Ok true s' /\ CV (Some (length (trace s'))) (fun _ => O) O [] s' /\
    trace s' = trace s ++ broadcast_out (ckpt_started s) DMT_DO_CHECKPOINT EmptyString.
Proof.
  intros HV Hall. rewrite (startCheckpoint_live s (cv_live _ _ _ _ _ _ _ _ _ _ HV)), (proj2 (ready_cv _ _ _ _ _ HV) Hall). exists (after_start s). split; [reflexivity|].
  destruct (started_fields s) as (F1 & F2 & F3 & F4 & F5 & F6 & F7 & F8 & F9 & F10 & F11 & F12 & F13 & F14 & F15). set (s' := after_start s) in *. clearbody s'.
  split; [|exact F15]. assert (Hb0 : bars 0 = 0%nat) by done. pose proof (bars_name h) as (_ & _ & Hlen).
  assert (H0 : cnt (arrived h (fun _ => O) 0) cls = 0%nat) by (by apply (proj2 (cnt_zero _ _))).
  assert (Hcl : forall p, client_of s' p = client_of s p) by (intros p; by apply client_of_heap).
  pose proof HV as [V1 V2 V3 V4 V5 V6 V7 V8 V9 V10 V11 V12 V13 V14 V15 V16 V17].
  split; rewrite ?F1, ?F3, ?F4, ?F10, ?F11, ?F12, ?F13, ?F14; try done; try lia.
  - intros p Hp. unfold live. rewrite F2. apply V2. by rewrite F1 in Hp.
  - intros p Hp. rewrite Hcl. by apply V3.
  - destruct V6 as (p & Hp & _). by exists p.
  - rewrite H0, V8. assert (E : cnt (arrived h c k) cls = 0%nat); [|by rewrite E]. apply (proj2 (cnt_zero _ _)). intros p Hp. unfold arrived.
    destruct V6 as (q & Hq & Hk). rewrite (Hall q Hq), bars_len in Hk. rewrite (Hall p Hp), bars_len. apply Nat.eqb_neq. lia.
  - intros p Hp. rewrite Hcl, (V9 p Hp), (Hall p Hp). unfold at_barrier. by rewrite Nat.eqb_refl, (proj2 (Nat.eqb_neq 0 len)) by lia.
  - intros p Hp. rewrite Hcl. pose proof (V10 p Hp) as Hk. unfold known_as in *. by rewrite (Hall p Hp), Nat.eqb_refl, orb_true_r in Hk.
  - split; [constructor|]. intros p. split; [by intros ?%elem_of_nil|intros [_ ?]; lia].
  - intros _. rewrite F5, F6, F7, F8, F9. split_and!; try done. lia.
  - intros E. destruct V6 as (p & Hp & _). destruct cls; [by apply elem_of_nil in Hp|done].
  - intros t0 [= <-]. lia.
Qed.

(** ** A worker *)

Lemma c_str_char_array n b : no_NUL b = true -> (String.length b < n)%nat -> c_str (char_array n b) = Some b.
Proof.
  unfold char_array. assert (H : forall m n, (String.length b < m)%nat -> (String.length b < n)%nat -> no_NUL b = true -> c_str (str_take m (b +:+ String.concat EmptyString (replicate n NUL_str))) = Some b).
  { clear n. induction b as [|x b IH]; intros m n Hm Hn Hb; (destruct m as [|m]; [cbn in Hm; lia|]).
    - destruct n as [|[|n]]; [cbn in Hn; lia|done|done].
    - cbn [no_NUL] in Hb. apply andb_true_iff in Hb as [Hx Hb]. apply negb_true_iff in Hx. change (c_str (str_take (S m) (String x b +:+ ?r))) with (if Ascii.eqb x NUL then Some EmptyString else String x <$> c_str (str_take m (b +:+ r))). rewrite Hx. cbn in Hm, Hn. rewrite IH; [done|lia|lia|done]. }
  intros. by apply H.
Qed.

(** The messages of a worker. *)
Definition msg_ok (p : ptr) (x : item) (m : packet) : Prop :=
  isValid (fst m) = true /\
  match x with
  | Bar b => barrier_msg b (fst m) /\ in_ckpt (msg_state (fst m)) = true
  | Name => msg_type (fst m) = DMT_CKPT_FILENAME /\ 0 < msg_extraBytes (fst m) /\ snd m = report_payload (report_of site p)
  | Resume => msg_type (fst m) = DMT_WORKER_RESUMING /\ msg_state (fst m) = RUNNING
  end.
Lemma barrierMsg_ok p b w : b ∈ barriers h -> in_ckpt (w_state w) = true -> msg_ok p (Bar b) (barrierMsg (env p) b w).
Proof.
  intros Hb Hs. destruct (ho_names h Hh b Hb) as (_ & Hn & Hl). split; [done|]. split; [|done]. split_and!; [done..|]. by apply c_str_char_array.
Qed.
Lemma filenameMsg_ok p w : p ∈ cls -> msg_ok p Name (filenameMsg (env p) (site p) w).
Proof.
  intros Hp. pose proof (Hsites p Hp) as [_ _ Hu _ Hl]. unfold filenameMsg, msg_ok. rewrite Hu. cbn [fst snd]. set (buf := _ +:+ _).
  assert (E : Z.of_nat (String.length buf) = Z.of_nat (String.length (si_file (site p)) + String.length (si_shell (site p)) + String.length (si_host (site p)) + 3)).
  { unfold buf. rewrite str_app_length. cbn [String.length]. rewrite str_app_length. cbn [String.length]. rewrite str_app_length. cbn. lia. }
  split; [|split_and!; [done|rsimpl; lia|done]]. apply (valid_message (env p) DMT_CKPT_FILENAME (Z.of_nat (String.length buf))); [|done..].
  unfold messageExtraBytesIsValid. apply Z.leb_le. lia.
Qed.
Lemma resumingMsg_ok p w : w_state w = RUNNING -> msg_ok p Resume (resumingMsg (env p) w).
Proof. done. Qed.

(** Where a worker is: the messages it has sent in this round, the open barriers as it sees them, and what is on the way to it. *)
Inductive stage : list instr -> option bool -> nat -> nat -> list packet -> Prop :=
| Idle todo : before h todo -> stage todo None len total []
| Asked todo m : before h todo -> asks m -> stage todo None 0 0 [m]
| Busy todo : during h todo -> stage todo None (sent h todo) (bars (sent h todo)) []
| Waiting n b rest : during h (waitForBarrier n b :: rest) ->
    stage (waitForBarrier n b :: rest) (Some false) (S (sent h (waitForBarrier n b :: rest))) (bars (sent h (waitForBarrier n b :: rest))) []
| Released n b rest m : during h (waitForBarrier n b :: rest) -> releases b m ->
    stage (waitForBarrier n b :: rest) (Some false) (S (sent h (waitForBarrier n b :: rest))) (S (bars (sent h (waitForBarrier n b :: rest)))) [m].

Record worker_ok (w : Worker) : Prop := {
  wo_comp : up_eqb (w_comp w) comp0 = true; wo_exit : exitAfterCkpt w = false; wo_exited : w_exited w = false; wo_states : states_ok (w_todo w) (w_state w) = true;
  wo_threads : w_todo w = checkpointhread h \/ w_stopped w = bool_decide (suspendThreads ∉ w_todo w) }.

(** Steps the worker may still take, weighted. *)
Definition potential (w : Worker) (inbox : list packet) : nat :=
  if bool_decide (waitForPreSuspendMessage ∈ w_todo w) && bool_decide (inbox = []) then (length (w_todo w) - S (length (round h)))%nat
  else (4 + 4 * length (w_todo w) - match w_wait w with Some _ => 2 | None => 0 end)%nat.

Inductive sends (p : ptr) : list packet -> nat -> nat -> Prop :=
| sends_none a : sends p [] a a
| sends_one a x m : script h !! a = Some x -> msg_ok p x m -> sends p [m] a (S a).

(** A step of a worker, by what it does. *)
Inductive stepped (p : ptr) (w : Worker) (a k : nat) (inbox : list packet) : wresult -> Prop :=
| stepped_idle : w_todo w = drop 2 (checkpointhread h) -> a = len -> k = total -> inbox = [] -> stepped p w a k inbox Waits
| stepped_barrier b : w_wait w = Some b -> bars a = S k -> inbox = [] -> stepped p w a k inbox Waits
| stepped_step w' out (got : bool) a' : worker_ok w' -> sends p out a a' -> stage (w_todo w') (w_wait w') a' k (if got then tail inbox else inbox) ->
    (potential w' (if got then tail inbox else inbox) + length out < potential w inbox)%nat -> stepped p w a k inbox (Step w' out got).

Lemma potential_during w inbox : during h (w_todo w) -> potential w inbox = (4 + 4 * length (w_todo w) - match w_wait w with Some _ => 2 | None => 0 end)%nat.
Proof. intros H. unfold potential. by rewrite bool_decide_eq_false_2 by (by apply (round_no_wait h)). Qed.
Lemma potential_idle w : waitForPreSuspendMessage ∈ w_todo w -> potential w [] = (length (w_todo w) - S (length (round h)))%nat.
Proof. intros H. unfold potential. by rewrite !bool_decide_eq_true_2. Qed.
Lemma potential_asked w m inbox : potential w (m :: inbox) = (4 + 4 * length (w_todo w) - match w_wait w with Some _ => 2 | None => 0 end)%nat.
Proof. unfold potential. by rewrite (bool_decide_eq_false_2 (m :: inbox = [])), andb_false_r. Qed.

Lemma keep_threads i rest b : i <> suspendThreads -> i <> resumeThreads -> i :: rest = checkpointhread h \/ b = bool_decide (suspendThreads ∉ i :: rest) ->
  rest = checkpointhread h \/ b = bool_decide (suspendThreads ∉ rest).
Proof.
  intros Hs Hr [E| ->]; [rewrite thread_round in E; by injection E as -> _|]. right. apply bool_decide_ext. rewrite not_elem_of_cons. naive_solver.
Qed.

(** The step of a worker at work, without a message and with one. *)
Lemma step_quiet p w w' i rest : w_todo w = i :: rest -> during h (i :: rest) -> w_wait w = None -> during h rest -> item_of i = None ->
  w_todo w' = rest -> w_wait w' = None -> worker_ok w' -> stepped p w (sent h (i :: rest)) (bars (sent h (i :: rest))) [] (Step w' [] false).
Proof.
  intros Et Hd Hw Hr Hi Et' Hw' Hok. apply stepped_step with (a' := sent h (i :: rest)); [done|constructor| |].
  - rewrite Et', Hw', <- (sent_quiet h i rest Hi). by constructor.
  - rewrite !potential_during by (by rewrite ?Et, ?Et'). rewrite Et, Et', Hw, Hw'. cbn. lia.
Qed.
Lemma step_busy p w : p ∈ cls -> worker_ok w -> during h (w_todo w) -> w_wait w = None ->
  stepped p w (sent h (w_todo w)) (bars (sent h (w_todo w))) [] (wstep h (env p) (site p) [] w).
Proof.
  intros Hp [O1 O2 O3 O4 O5] Hd Hw. destruct (w_todo w) as [|i rest] eqn:Et; [by destruct Hd|]. unfold wstep. rewrite Et, Hw.
  destruct (during_step h i rest Hd) as [[-> ->]|[Hr Hi]].
  - cbn in O4. rewrite andb_true_r in O4. apply ws_eqb_eq in O4. pose proof (sent_last h) as Hl. destruct (sent_item h _ _ Resume Hd eq_refl) as (Hx & _ & _).
    apply stepped_step with (a' := S (sent h [sendResuming])).
    + split; rsimpl; try done; [apply states_thread|by left].
    + by econstructor.
    + rsimpl. rewrite Hw, Hl, (bars_last h _ Hl). constructor. by left.
    + rewrite (potential_during w) by (by rewrite Et). rewrite Et, Hw, potential_idle by (rsimpl; rewrite thread_round; do 2 right; left). rsimpl. rewrite thread_round. cbn. lia.
  - destruct i as [|st| |n b| | | | |]; try done.
    + eapply step_quiet; try done. split; rsimpl; try done. by refine (keep_threads _ _ _ _ _ O5).
    + destruct (ho_names h Hh b Hi) as (_ & _ & Hb). rewrite (proj2 (Nat.ltb_lt _ _) Hb). destruct (sent_item h _ _ (Bar b) Hd eq_refl) as (Hx & _ & _).
      cbn in O4. apply andb_true_iff in O4 as [Hs O4]. apply stepped_step with (a' := S (sent h (waitForBarrier n b :: rest))).
      * split; rsimpl; rewrite ?Et; try done. cbn. by rewrite Hs, O4.
      * econstructor; [done|]. by apply barrierMsg_ok.
      * rsimpl. rewrite Et. by constructor.
      * rewrite !potential_during by (rsimpl; by rewrite Et). rsimpl. rewrite Et, Hw. cbn. lia.
    + pose proof (suspend_once h rest Hd) as Er. eapply step_quiet; try done. split; rsimpl; try done. right. symmetry. apply bool_decide_eq_true_2. rewrite Er. apply suspend_parts.
    + eapply step_quiet; try done. split; rsimpl; try done. by refine (keep_threads _ _ _ _ _ O5).
    + destruct (sent_item h _ _ Name Hd eq_refl) as (Hx & Hs & _). apply stepped_step with (a' := S (sent h (sendCkptFilename :: rest))).
      * split; rsimpl; try done. by refine (keep_threads _ _ _ _ _ O5).
      * econstructor; [done|]. by apply filenameMsg_ok.
      * rsimpl. rewrite Hw. destruct (script_lookup h _ _ Hx) as [(? & [=] & _)|[(_ & _ & Eb)|([=] & _)]]. rewrite <- Eb, <- Hs. by constructor.
      * rewrite !potential_during by (rsimpl; by rewrite ?Et). rsimpl. rewrite Et, Hw. cbn. lia.
    + rewrite O2. eapply step_quiet; try done. split; rsimpl; try done. by refine (keep_threads _ _ _ _ _ O5).
Qed.

(** The steps before the request has come. *)
Lemma step_before p w a k inbox : worker_ok w -> before h (w_todo w) -> w_wait w = None -> (forall todo, before h todo -> stage todo None a k inbox) ->
  w_todo w = drop 2 (checkpointhread h) \/ stepped p w a k inbox (wstep h (env p) (site p) inbox w).
Proof.
  intros [O1 O2 O3 O4 O5] Hb Hw Hst. assert (Hs : suspendThreads ∈ round h) by apply suspend_in_round.
  destruct Hb as [Et|[Et|Et]]; [right|right|by left]; unfold wstep; rewrite Et, thread_round; cbn [drop].
  - apply stepped_step with (a' := a).
    + split; rsimpl; try done; [by rewrite Et in O4|]. right. symmetry. apply bool_decide_eq_false_2. intros H. apply H. by do 2 right.
    + constructor.
    + rsimpl. rewrite Hw. apply Hst. right. by left.
    + unfold potential. rsimpl. rewrite Et, Hw, thread_round. rewrite !(bool_decide_eq_true_2 (_ ∈ _)) by set_solver. cbn [length]. destruct (_ && _); lia.
  - apply stepped_step with (a' := a).
    + split; rsimpl; try done; [by rewrite Et in O4|]. right. rewrite Et in O5. destruct O5 as [O5|O5]; [by rewrite thread_round in O5|]. rewrite O5, thread_round.
      cbn [drop]. apply bool_decide_ext. set_solver.
    + constructor.
    + rsimpl. rewrite Hw. apply Hst. right. by right.
    + unfold potential. rsimpl. rewrite Et, Hw, thread_round. cbn [drop]. rewrite !(bool_decide_eq_true_2 (_ ∈ _)) by set_solver. cbn [length]. destruct (_ && _); lia.
Qed.

Lemma step_asked p w m : worker_ok w -> w_todo w = drop 2 (checkpointhread h) -> w_wait w = None -> asks m -> stepped p w 0 0 [m] (wstep h (env p) (site p) [m] w).
Proof.
  intros [O1 O2 O3 O4 O5] Et Hw [A1 A2 A3 A4 A5]. unfold wstep. rewrite Et, thread_round. cbn [drop receive]. rewrite A1, A2. cbn [andb]. rewrite bool_decide_eq_false_2 by done.
  unfold onPreSuspendMessage. rsimpl. rewrite A1, A2, A3, A5. rewrite bool_decide_eq_true_2 by done. cbn [Z.ltb Z.compare negb andb Z.eqb].
  assert (Hu : upid_eqb ((w_comp w) <| up_generation := up_generation (msg_compGroup (fst m)) |>) (msg_compGroup (fst m)) = true).
  { apply up_eqb_spec in O1 as (E1 & E2 & E3), A4 as (F1 & F2 & F3). unfold upid_eqb. rsimpl. by rewrite E1, E2, E3, F1, F2, F3, !Z.eqb_refl. }
  rewrite Hu. apply stepped_step with (a' := 0%nat).
  - split; rsimpl; try done; [by rewrite Et in O4|]. right. rewrite Et in O5. destruct O5 as [O5|O5]; [by rewrite thread_round in O5|]. rewrite O5, thread_round.
    cbn [drop]. apply bool_decide_ext. set_solver.
  - constructor.
  - rsimpl. rewrite Hw. pose proof (Busy (round h) (during_round h)) as Hbusy. by rewrite sent_start in Hbusy.
  - rewrite potential_asked, potential_during by (rsimpl; apply during_round). rsimpl. rewrite Et, Hw, thread_round. cbn. lia.
Qed.

Lemma step_waiting p w n b rest m : worker_ok w -> w_todo w = waitForBarrier n b :: rest -> w_wait w = Some false -> during h (waitForBarrier n b :: rest) -> releases b m ->
  stepped p w (S (sent h (waitForBarrier n b :: rest))) (S (bars (sent h (waitForBarrier n b :: rest)))) [m] (wstep h (env p) (site p) [m] w).
Proof.
  intros [O1 O2 O3 O4 O5] Et Hw Hd [R1 R2 R3 R4]. unfold wstep. rewrite Et, Hw. cbn [receive]. rewrite R1, R2. cbn [andb negb]. rewrite !bool_decide_eq_false_2 by done.
  unfold onBarrierReleased, extraData. rewrite R1, R2, bool_decide_eq_true_2 by done. cbn [andb]. rewrite (proj2 (Z.ltb_lt _ _) R3). cbn [mbind option_bind]. rewrite R4. cbn [mbind option_bind]. rewrite String.eqb_refl.
  destruct (sent_item h _ _ (Bar b) Hd eq_refl) as (Hx & Hs & _). destruct (script_lookup h _ _ Hx) as [(? & _ & _ & Eb)|[([=] & _)|([=] & _)]].
  destruct (during_step h _ _ Hd) as [[? _]|[Hr _]]; [done|]. rewrite Et in O4, O5. cbn in O4. apply andb_true_iff in O4 as [_ O4].
  apply stepped_step with (a' := S (sent h (waitForBarrier n b :: rest))).
  - split; rsimpl; try done. by refine (keep_threads _ _ _ _ _ O5).
  - constructor.
  - rsimpl. rewrite <- Eb, <- Hs. by constructor.
  - rewrite !potential_during by (rsimpl; by rewrite ?Et). rsimpl. rewrite Et, Hw. cbn. lia.
Qed.

Lemma step_worker p w a k inbox : p ∈ cls -> worker_ok w -> stage (w_todo w) (w_wait w) a k inbox -> stepped p w a k inbox (wstep h (env p) (site p) inbox w).
Proof.
  intros Hp Hok Hst. remember (w_todo w) as todo eqn:Et. remember (w_wait w) as wait eqn:Hw. symmetry in Et, Hw. destruct Hst as [todo Hb|todo m Hb Hm|todo Hd|n b rest Hd|n b rest m Hd Hm].
  - destruct (step_before p w len total [] Hok) as [E|H]; [by rewrite Et|done|intros; by constructor| |done].
    unfold wstep. rewrite E, thread_round. cbn [drop receive]. by apply stepped_idle.
  - destruct (step_before p w 0 0 [m] Hok) as [E|H]; [by rewrite Et|done|intros; by constructor| |done]. by apply step_asked.
  - rewrite <- Et. rewrite <- Et in Hd. by apply step_busy.
  - unfold wstep. rewrite Et, Hw. cbn [receive]. destruct (sent_item h _ _ (Bar b) Hd eq_refl) as (Hx & Hs & _).
    destruct (script_lookup h _ _ Hx) as [(? & _ & _ & Eb)|[([=] & _)|([=] & _)]]. by eapply stepped_barrier.
  - by apply step_waiting.
Qed.

(** ** The invariant *)

(** The stages of a worker, seen from the coordinator. *)
Lemma stage_range todo wait a k inbox : stage todo wait a k inbox -> (a <= len)%nat /\ (k <= bars a <= S k)%nat.
Proof.
  destruct 1 as [todo Hb|todo m Hb Hm|todo Hd|n b rest Hd|n b rest m Hd Hm].
  - rewrite bars_len. lia.
  - pose proof (bars_name h) as (_ & _ & Hlen). change (bars 0) with 0%nat. lia.
  - split; [unfold sent; lia|]. lia.
  - destruct (sent_item h _ _ (Bar b) Hd eq_refl) as (Hx & Hs & Hl). destruct (script_lookup h _ _ Hx) as [(? & _ & _ & Eb)|[([=] & _)|([=] & _)]]. lia.
  - destruct (sent_item h _ _ (Bar b) Hd eq_refl) as (Hx & Hs & Hl). destruct (script_lookup h _ _ Hx) as [(? & _ & _ & Eb)|[([=] & _)|([=] & _)]]. lia.
Qed.
Lemma during_sent todo : during h todo -> (sent h todo < len)%nat.
Proof.
  intros [Hne [l E]]. rewrite round_last in E. destruct todo as [|i r _] using rev_ind; [done|]. rewrite app_assoc in E. apply app_inj_tail in E as [_ <-].
  unfold sent. rewrite omap_app, length_app. cbn. rewrite len_eq. lia.
Qed.
Lemma stage_full todo wait k inbox : stage todo wait len k inbox -> before h todo /\ wait = None /\ k = total /\ inbox = [].
Proof.
  intros Hst. remember len as a eqn:Ea. destruct Hst as [todo Hb|todo m Hb Hm|todo Hd|n b rest Hd|n b rest m Hd Hm]; [done|..].
  - pose proof (bars_name h) as (_ & _ & Hlen). lia.
  - pose proof (during_sent _ Hd). lia.
  - destruct (sent_item h _ _ (Bar b) Hd eq_refl) as (_ & Hs & _). destruct (during_step h _ _ Hd) as [[? _]|[Hr _]]; [done|]. pose proof (during_sent _ Hr). lia.
  - destruct (sent_item h _ _ (Bar b) Hd eq_refl) as (_ & Hs & _). destruct (during_step h _ _ Hd) as [[? _]|[Hr _]]; [done|]. pose proof (during_sent _ Hr). lia.
Qed.
(** The next barrier opens when every worker waits at it. *)
Lemma stage_release todo wait a k inbox m : stage todo wait a k inbox -> (S k <= bars a)%nat -> releases (bar k) m ->
  stage todo wait a (S k) (inbox ++ [m]) /\ during h todo.
Proof.
  intros Hst Hk Hm. destruct Hst as [todo Hb|todo m' Hb Hm'|todo Hd|n b rest Hd|n b rest m' Hd Hm'].
  - rewrite bars_len in Hk. lia.
  - change (bars 0) with 0%nat in Hk. lia.
  - lia.
  - split; [|done]. destruct (sent_item h _ _ (Bar b) Hd eq_refl) as (Hx & _ & _). destruct (script_lookup h _ _ Hx) as [(b' & [= <-] & Eb & _)|[([=] & _)|([=] & _)]].
    constructor; [done|]. unfold bar in Hm. by rewrite Eb in Hm.
  - pose proof (bars_step h (sent h (waitForBarrier n b :: rest))). lia.
Qed.

Record SI (since : option nat) (c a : ptr -> nat) (k : nat) (order : list ptr) (s : System) : Prop := {
  sy_coord : CV since c k order (coord s);
  sy_le : forall p, p ∈ cls -> (c p <= a p)%nat;
  sy_up : forall p, p ∈ cls -> Forall2 (msg_ok p) (take (a p - c p) (drop (c p) (script h))) (up s p);
  sy_stage : forall p, p ∈ cls -> stage (w_todo (workers s p)) (w_wait (workers s p)) (a p) k (down s p);
  sy_worker : forall p, p ∈ cls -> worker_ok (workers s p);
  sy_rest : forall p, p ∉ cls -> w_todo (workers s p) = [] /\ up s p = [] }.
Definition inv (since : option nat) (s : System) : Prop := exists c a k order, SI since c a k order s.

(** The steps left, over all workers. *)
Definition left_of (s : System) (p : ptr) : nat := (potential (workers s p) (down s p) + length (up s p))%nat.
Definition steps_left (s : System) : nat := sum_list_with (left_of s) cls.

Abbreviation sstep := (sstep h env site fd).

Lemma sum_lower s s' p : p ∈ cls -> (forall q, q ∈ cls -> q <> p -> left_of s' q = left_of s q) -> (left_of s' p < left_of s p)%nat -> (steps_left s' < steps_left s)%nat.
Proof. intros Hp Hq Hlt. pose proof (sum_change (left_of s) (left_of s') cls p Hcls Hp Hq). unfold steps_left. lia. Qed.

(** Messages on their way, when one more is sent. *)
Lemma up_sends p out a a' c ms : sends p out a a' -> (c <= a)%nat -> Forall2 (msg_ok p) (take (a - c) (drop c (script h))) ms ->
  (a <= a')%nat /\ Forall2 (msg_ok p) (take (a' - c) (drop c (script h))) (ms ++ out).
Proof.
  intros Hs Hc Hms. destruct Hs as [a|a x m Hx Hm]; [by rewrite app_nil_r|]. split; [lia|]. rewrite Nat.sub_succ_l by done.
  rewrite (take_S_r _ _ x) by (by rewrite lookup_drop, (Nat.add_comm c), Nat.sub_add). apply Forall2_app; [done|]. by constructor.
Qed.

Definition lowers since (s : System) (r : sresult) : Prop :=
  match r with Go s' => inv since s' /\ (steps_left s' < steps_left s)%nat | No => True | Stop => False end.

Lemma work_inv since s p : inv since s -> lowers since s (sstep (Work p) s).
Proof.
  intros (c & a & k & order & [HV Hle Hup Hst Hok Hrest]). cbn [Worker.sstep]. destruct (decide (p ∈ cls)) as [Hp|Hp]; [|unfold wstep; by rewrite (proj1 (Hrest p Hp))].
  destruct (step_worker p _ _ _ _ Hp (Hok p Hp) (Hst p Hp)) as [| |w' out got a' Hok' Hs Hst' Hpot]; [done..|]. cbn [lowers].
  destruct (up_sends p out _ _ _ _ Hs (Hle p Hp) (Hup p Hp)) as [Ha Hup'].
  assert (Hdn : forall q, q <> p -> (if got then <[p := tail (down s p)]> (down s) else down s) q = down s q) by (intros q Hq; destruct got; [by rewrite fn_lookup_insert_ne|done]).
  assert (Hdp : (if got then <[p := tail (down s p)]> (down s) else down s) p = if got then tail (down s p) else down s p) by (destruct got; [by rewrite fn_lookup_insert|done]).
  split.
  - exists c, (<[p := a']> a), k, order. split; cbn [coord up down workers]; [done|..]; intros q Hq.
    + destruct (decide (q = p)) as [->|Hqp]; [rewrite fn_lookup_insert; specialize (Hle p Hp); lia|rewrite fn_lookup_insert_ne by done; by apply Hle].
    + destruct (decide (q = p)) as [->|Hqp]; [by rewrite !fn_lookup_insert|rewrite !fn_lookup_insert_ne by done; by apply Hup].
    + destruct (decide (q = p)) as [->|Hqp]; [by rewrite !fn_lookup_insert, Hdp|rewrite !fn_lookup_insert_ne, Hdn by done; by apply Hst].
    + destruct (decide (q = p)) as [->|Hqp]; [by rewrite !fn_lookup_insert|rewrite !fn_lookup_insert_ne by done; by apply Hok].
    + rewrite !fn_lookup_insert_ne by set_solver. by apply Hrest.
  - apply (sum_lower s _ p Hp); unfold left_of; cbn [coord up down workers].
    + intros q _ Hqp. rewrite !fn_lookup_insert_ne, Hdn by done. done.
    + rewrite !fn_lookup_insert, Hdp, length_app. lia.
Qed.

Lemma up_handled p a c m rest : Forall2 (msg_ok p) (take (a - c) (drop c (script h))) (m :: rest) ->
  exists x, script h !! c = Some x /\ msg_ok p x m /\ (S c <= a)%nat /\ Forall2 (msg_ok p) (take (a - S c) (drop (S c) (script h))) rest.
Proof.
  intros H. destruct (script h !! c) as [x|] eqn:Ex; [|apply lookup_ge_None in Ex; rewrite drop_ge, take_nil in H by done; by inversion H].
  rewrite (drop_S _ _ _ Ex) in H. destruct (a - c)%nat as [|n] eqn:En; [by inversion H|]. cbn [take] in H. apply Forall2_cons in H as [H1 H2].
  exists x. split_and!; [done..|lia|]. by replace (a - S c)%nat with n by lia.
Qed.

(** What the handling of a message sends. *)
Inductive replies (k : nat) : nat -> list output -> Prop :=
| replies_none out : (forall f, received f out = []) -> replies k k out
| replies_release out : (forall q, q ∈ cls -> exists r, received (fd q) out = [r] /\ releases (bar k) r) -> replies k (S k) out.

Lemma handle_coord since c k order s p a x m w : CV since c k order s -> p ∈ cls -> (S (c p) <= a)%nat -> (bars a <= S k)%nat -> script h !! c p = Some x -> msg_ok p x m ->
  exists s' k' order' out, processEvent (w, EvClient p (Some (Some m)) false) s = Ok tt s' /\ CV since (bump p c) k' order' s' /\ trace s' = trace s ++ out /\ replies k k' out.
Proof.
  intros HV Hp Ha Hk Hx [Hv Hm]. apply (cv_world _ _ _ _ _ _ _ _ _ _ w) in HV. pose proof (cv_range _ _ _ _ _ _ _ _ _ _ HV p Hp) as Hr. destruct m as [m bytes]. cbn [fst snd] in Hv, Hm.
  change (trace s) with (trace (s <| world := w |>)). set (s1 := s <| world := w |>) in *.
  destruct (script_lookup h _ _ Hx) as [(b & -> & Eb & Hn)|[(-> & Hn1 & Hn)|(-> & Hlen & Ht & Hn)]].
  - destruct Hm as [Hb Hs]. pose proof (bars_mono h _ _ Ha) as Hm. assert (Hck : bars (c p) = k) by lia.
    destruct (coord_bar h cls fd site comp0 Hh Hcls _ _ _ _ _ p b m bytes HV Hp Hck Hx Hb Hs) as (s' & E & [[HV' Et]|[HV' Et]]).
    + exists s', k, order, []. split_and!; [by apply handle_ok|done|by rewrite app_nil_r|by constructor].
    + exists s', (S k), order, (broadcast_out (arrive b p m s1) DMT_BARRIER_RELEASED (b +:+ NUL_str)). split_and!; [by apply handle_ok|done..|]. constructor. intros q Hq.
      eexists. split; [apply received_broadcast; [apply (cv_clients _ _ _ _ _ _ _ _ _ _ HV)| |done]|].
      * intros r Hrr. rewrite (client_of_update s1 _ p ((client_of s1 p) <| cl_state := msg_state m |> <| cl_barrier := b |>)) by done.
        destruct (decide (r = p)) as [->|]; [rsimpl|]; by apply HV.
      * assert (Hbar : bar k = b) by (unfold bar; by rewrite <- Hck, Eb). rewrite Hbar.
        destruct (ho_names h Hh b) as (_ & ? & ?); [by eapply list_elem_of_lookup_2|]. by apply broadcast_releases.
  - destruct Hm as (Ht & Hxb & Hpl). cbn [fst snd] in *. subst bytes. pose proof (bars_name h) as (_ & Hbn & _).
    assert (Hk0 : (0 < k)%nat) by (rewrite Hn1, Hbn in Hr; unfold n1, before_images in Hr; rewrite !length_app in Hr; cbn in Hr; lia).
    destruct (coord_name h cls fd site comp0 Hsites _ _ _ _ _ p m HV Hp Hn1 Hk0 Hv Ht Hxb) as (s' & out & E & HV' & Et & Hout).
    exists s', k, (order ++ [p]), out. split_and!; [by apply handle_ok|done..|by constructor].
  - destruct Hm as (Ht' & Hs). destruct (coord_resume h cls fd site comp0 _ _ _ _ _ p m bytes HV Hp Hlen Hv Ht' Hs) as (s' & E & HV' & Et).
    exists s', k, order, []. split_and!; [by apply handle_ok|done|by rewrite app_nil_r|by constructor].
Qed.

Lemma handle_inv since s p w : inv since s -> lowers since s (sstep (Handle p w) s).
Proof.
  intros (c & a & k & order & [HV Hle Hup Hst Hok Hrest]). cbn [Worker.sstep]. destruct (up s p) as [|m rest] eqn:Eup; [done|].
  assert (Hp : p ∈ cls). { destruct (decide (p ∈ cls)) as [|Hn]; [done|]. destruct (Hrest p Hn). congruence. }
  pose proof (Hup p Hp) as Hu. rewrite Eup in Hu. destruct (up_handled _ _ _ _ _ Hu) as (x & Hx & Hm & Ha & Hu').
  destruct (stage_range _ _ _ _ _ (Hst p Hp)) as [_ Hr]. destruct (handle_coord _ _ _ _ _ p (a p) x m w HV Hp Ha ltac:(lia) Hx Hm) as (s' & k' & order' & out & E & HV' & Et & Hout).
  unfold coordinate. rewrite E, Et, drop_app_length. cbn [lowers].
  assert (Hq : forall q, q ∈ cls -> stage (w_todo (workers s q)) (w_wait (workers s q)) (a q) k' (down s q ++ received (fd q) out) /\
    potential (workers s q) (down s q ++ received (fd q) out) = potential (workers s q) (down s q)).
  { intros q Hq. specialize (Hst q Hq). destruct Hout as [out Hout|out Hout]; [by rewrite Hout, app_nil_r|]. destruct (Hout q Hq) as (r & -> & Hrel).
    assert (Hbq : (S k <= bars (a q))%nat).
    { pose proof (cv_range _ _ _ _ _ _ _ _ _ _ HV' q Hq) as Hc. etransitivity; [apply Hc|]. apply bars_mono.
      destruct (decide (q = p)) as [->|]; [by rewrite bump_at|rewrite bump_ne by done; by apply Hle]. }
    destruct (stage_release _ _ _ _ _ r Hst Hbq Hrel) as [Hst' Hd]. split; [done|]. by rewrite !potential_during. }
  split.
  - exists (bump p c), a, k', order'. split; cbn [coord up down workers]; try done; intros q Hqc.
    + destruct (decide (q = p)) as [->|]; [by rewrite bump_at|rewrite bump_ne by done; by apply Hle].
    + destruct (decide (q = p)) as [->|]; [by rewrite bump_at, fn_lookup_insert|rewrite bump_ne, fn_lookup_insert_ne by done; by apply Hup].
    + by apply Hq.
    + rewrite fn_lookup_insert_ne by set_solver. by apply Hrest.
  - apply (sum_lower s _ p Hp); unfold left_of; cbn [coord up down workers].
    + intros q Hqc Hqp. rewrite fn_lookup_insert_ne by done. by rewrite (proj2 (Hq q Hqc)).
    + rewrite fn_lookup_insert, (proj2 (Hq p Hp)), Eup. cbn. lia.
Qed.

(** A request is accepted when nothing of the round before is left. *)
Lemma received_nil f : received f [] = [].
Proof. done. Qed.
Lemma request_accepted since c a k order s w : SI since c a k order s -> (forall p, p ∈ cls -> c p = len) ->
  exists s', sstep (Request w) s = Go s' /\ inv (Some (length (trace (coord s')))) s'.
Proof.
  intros [HV Hle Hup Hst Hok Hrest] Hall. apply (cv_world _ _ _ _ _ _ _ _ _ _ w) in HV. destruct (coord_start _ _ _ _ _ HV Hall) as (s' & E & HV' & Et). cbn [Worker.sstep]. unfold coordinate.
  erewrite bind_ok by reflexivity. rewrite E, Et. change (trace ((coord s) <| world := w |>)) with (trace (coord s)). rewrite drop_app_length. eexists. split; [reflexivity|]. cbn [coord].
  assert (Ha : forall p, p ∈ cls -> a p = len) by (intros p Hp; pose proof (stage_range _ _ _ _ _ (Hst p Hp)) as H1; pose proof (Hle p Hp) as H2; rewrite (Hall p Hp) in H2; lia).
  set (s1 := (coord s) <| world := w |>) in *. assert (Hcl : forall q, client_of (ckpt_started s1) q = client_of s1 q) by (intros q; by apply client_of_heap).
  destruct (cv_flags _ _ _ _ _ _ _ _ _ _ HV) as (_ & Hf & Hk & _). pose proof (cv_comp _ _ _ _ _ _ _ _ _ _ HV) as Hco.
  exists (fun _ => O), (fun _ => O), O, []. split; cbn [coord up down workers]; try done; intros p Hp.
  - pose proof (Hup p Hp) as H. rewrite (Hall p Hp), (Ha p Hp), Nat.sub_diag in H. cbn [take] in H. apply Forall2_nil_inv_l in H as ->. constructor.
  - pose proof (Hst p Hp) as H. rewrite (Ha p Hp) in H. apply stage_full in H as (Hb & Hw & _ & Hd). rewrite Hw, Hd. cbn [app].
    rewrite (received_broadcast _ _ _ p); [|apply (cv_clients _ _ _ _ _ _ _ _ _ _ HV)|intros q Hq; rewrite Hcl; by apply HV|done].
    constructor; [done|]. by apply broadcast_asks.
Qed.
Lemma request_refused since c a k order s w : SI since c a k order s -> ~ (forall p, p ∈ cls -> c p = len) ->
  exists s', sstep (Request w) s = Go s' /\ inv since s'.
Proof.
  intros [HV Hle Hup Hst Hok Hrest] Hn. apply (cv_world _ _ _ _ _ _ _ _ _ _ w) in HV. cbn [Worker.sstep]. unfold coordinate. erewrite bind_ok by reflexivity.
  rewrite (startCheckpoint_live _ (cv_live _ _ _ _ _ _ _ _ _ _ HV)). destruct (ready_to_checkpoint _) eqn:Er; [exfalso; by apply Hn, (ready_cv _ _ _ _ _ HV)|].
  change (trace ((coord s) <| world := w |>)) with (trace (coord s)). rewrite drop_all. eexists. split; [reflexivity|]. exists c, a, k, order. split; cbn [coord up down workers]; try done.
  intros p Hp. rewrite received_nil, app_nil_r. by apply Hst.
Qed.
Lemma request_keeps since s w : inv since s -> exists s' since', sstep (Request w) s = Go s' /\ inv since' s'.
Proof.
  intros (c & a & k & order & HS). destruct (decide (Forall (fun p => c p = len) cls)) as [H|H]; rewrite Forall_forall in H.
  - destruct (request_accepted _ _ _ _ _ _ w HS H) as (s' & ? & ?). eauto.
  - destruct (request_refused _ _ _ _ _ _ w HS H) as (s' & ? & ?). eauto.
Qed.

(** ** What follows from the invariant *)

Lemma before_waits todo : before h todo -> waitForPreSuspendMessage ∈ todo /\ waitForBarrier true "DMT:CHECKPOINT" ∈ todo.
Proof.
  intros Hb. assert (Hc : waitForBarrier true "DMT:CHECKPOINT" ∈ round h) by (rewrite checkpoint_parts; apply elem_of_app; right; left).
  unfold before in Hb. rewrite thread_round in Hb. destruct Hb as [-> |[-> | ->]]; cbn [drop]; split; set_solver.
Qed.
(** What a worker knows of the open barriers. *)
Lemma stage_during todo wait a k inbox : stage todo wait a k inbox -> waitForPreSuspendMessage ∉ todo ->
  during h todo /\ (bars (sent h todo) <= k)%nat /\ (writeCkpt ∈ todo -> (k < n1)%nat) /\ (suspendThreads ∈ todo -> (bars a <= length (hk_presuspend h) + 1)%nat).
Proof.
  intros Hst Hn. destruct Hst as [todo Hb|todo m Hb Hm|todo Hd|n b rest Hd|n b rest m Hd Hm]; [by destruct (before_waits _ Hb)..| | |].
  - split_and!; [done|lia|by apply image_left|by apply stop_left].
  - destruct (sent_item h _ _ (Bar b) Hd eq_refl) as (_ & <- & _). destruct (during_step h _ _ Hd) as [[? _]|[Hr _]]; [done|].
    split_and!; [done|lia|by apply image_left|]. intros [?|Hin]%elem_of_cons; [done|]. by apply stop_left.
  - destruct (sent_item h _ _ (Bar b) Hd eq_refl) as (Hx & Hs & _). destruct (script_lookup h _ _ Hx) as [(? & _ & _ & Eb)|[([=] & _)|([=] & _)]].
    destruct (during_step h _ _ Hd) as [[? _]|[Hr _]]; [done|]. rewrite <- Hs. rewrite <- Hs in Eb. split_and!; [done|lia| |].
    + intros [?|Hin]%elem_of_cons; [done|]. rewrite <- Eb. by apply image_left.
    + intros [?|Hin]%elem_of_cons; [done|]. by apply stop_left.
Qed.

(** Between the first process past the barrier before the images and the last image, the threads of all processes are stopped. *)
Lemma inv_cut since s q1 q2 p : inv since s -> q1 ∈ cls -> q2 ∈ cls -> p ∈ cls -> waitForBarrier true "DMT:CHECKPOINT" ∉ w_todo (workers s q1) ->
  waitForPreSuspendMessage ∉ w_todo (workers s q2) -> writeCkpt ∈ w_todo (workers s q2) -> w_stopped (workers s p) = true /\ waitForPreSuspendMessage ∉ w_todo (workers s p).
Proof.
  intros (c & a & k & order & [HV Hle Hup Hst Hok Hrest]) H1 H2 Hp Hpast Hin Hw.
  assert (Hd1 : waitForPreSuspendMessage ∉ w_todo (workers s q1)).
  { intros Hx. pose proof (Hst q1 H1) as S1. destruct S1 as [todo Hb|todo m Hb Hm|todo Hd|n b rest Hd|n b rest m Hd Hm]; try (by apply Hpast, before_waits); by apply (round_no_wait h _ Hd). }
  destruct (stage_during _ _ _ _ _ (Hst q1 H1) Hd1) as (D1 & B1 & _). pose proof (past_checkpoint h _ D1 Hpast).
  destruct (stage_during _ _ _ _ _ (Hst q2 H2) Hin) as (_ & _ & B2 & _). specialize (B2 Hw). destruct (total_parts h) as [T1 T2].
  assert (Hdp : waitForPreSuspendMessage ∉ w_todo (workers s p)).
  { pose proof (Hst p Hp) as S1. remember k as k' eqn:Ek in S1. destruct S1 as [todo Hb|todo m Hb Hm|todo Hd|n b rest Hd|n b rest m Hd Hm]; try lia; by apply (round_no_wait h). }
  split; [|done]. destruct (stage_during _ _ _ _ _ (Hst p Hp) Hdp) as (D & _ & _ & B3). destruct (stage_range _ _ _ _ _ (Hst p Hp)) as [_ Hr].
  destruct (wo_threads _ (Hok p Hp)) as [E| ->]; [by apply (during_thread h _ D) in E|]. apply bool_decide_eq_true_2. intros Hin'. specialize (B3 Hin'). lia.
Qed.
Lemma inv_image since s q rest p : inv since s -> q ∈ cls -> p ∈ cls -> w_todo (workers s q) = writeCkpt :: rest -> w_stopped (workers s p) = true.
Proof.
  intros Hi Hq Hp E. assert (Hd : during h (writeCkpt :: rest)).
  { destruct Hi as (c & a & k & order & [HV Hle Hup Hst Hok Hrest]). pose proof (Hst q Hq) as S1. rewrite E in S1. inversion S1 as [todo Hb|todo m Hb Hm|todo Hd|n b rest' Hd|n b rest' m Hd Hm]; subst; try done;
    unfold before in Hb; rewrite thread_round in Hb; destruct Hb as [|[|]]; done. }
  apply (inv_cut since s q q p Hi Hq Hq Hp); rewrite E; [|by apply (round_no_wait h)|left]. intros [?|Hx]%elem_of_cons; [done|]. by apply (at_image h rest Hd).
Qed.

(** Nothing left to do. *)
Abbreviation stuck := (stuck h env site fd).
Record quiet (s : System) : Prop := {
  qt_workers : forall p, p ∈ cls -> w_todo (workers s p) = drop 2 (checkpointhread h) /\ w_stopped (workers s p) = false /\ w_exited (workers s p) = false;
  qt_messages : forall p, p ∈ cls -> up s p = [] /\ down s p = [];
  qt_ready : ready_to_checkpoint (coord s) = true }.

Lemma SI_stuck since c a k order s : SI since c a k order s -> stuck s -> forall p, p ∈ cls -> c p = len /\ w_todo (workers s p) = drop 2 (checkpointhread h) /\ up s p = [] /\ down s p = [].
Proof.
  intros [HV Hle Hup Hst Hok Hrest] Hs.
  assert (Hu : forall p, p ∈ cls -> up s p = [] /\ c p = a p).
  { intros p Hp. assert (E : up s p = []).
    { pose proof (Hs (Handle p (world (coord s))) ltac:(done)) as H. cbn [Worker.sstep] in H. destruct (up s p); [done|]. unfold coordinate in H. by destruct (processEvent _ _). }
    split; [done|]. pose proof (Hup p Hp) as H. rewrite E in H. apply Forall2_nil_inv_r in H. apply (f_equal length) in H. rewrite length_take, length_drop in H. cbn in H.
    fold (len) in H. pose proof (stage_range _ _ _ _ _ (Hst p Hp)) as [Hr _]. pose proof (Hle p Hp). lia. }
  assert (Hw : forall p, p ∈ cls -> (w_todo (workers s p) = drop 2 (checkpointhread h) /\ a p = len /\ k = total /\ down s p = []) \/ bars (a p) = S k).
  { intros p Hp. pose proof (Hs (Work p) ltac:(done)) as H. cbn [Worker.sstep] in H. pose proof (step_worker p _ _ _ _ Hp (Hok p Hp) (Hst p Hp)) as St.
    destruct (wstep h (env p) (site p) (down s p) (workers s p)); [done| |done]. inversion St; [left|right]; done. }
  destruct (cv_some _ _ _ _ _ _ _ _ _ _ HV) as (q & Hq & Eq). rewrite (proj2 (Hu q Hq)) in Eq. destruct (Hw q Hq) as [(_ & _ & Hk & _)|?]; [|lia].
  intros p Hp. destruct (Hw p Hp) as [(E1 & E2 & _ & E3)|Hb]; [|pose proof (bars_total h (a p)); lia]. destruct (Hu p Hp) as [Eu Ec]. rewrite Ec. done.
Qed.

Lemma inv_stuck since s : inv since s -> stuck s -> quiet s /\ (forall t0, since = Some t0 -> exists order, order ≡ₚ cls /\ script_of site t0 (coord s) order).
Proof.
  intros (c & a & k & order & HS) Hs. pose proof (SI_stuck _ _ _ _ _ _ HS Hs) as H. pose proof HS as [HV Hle Hup Hst Hok Hrest]. split.
  - split.
    + intros p Hp. destruct (H p Hp) as (_ & E & _). split_and!; [done| |by apply Hok]. destruct (wo_threads _ (Hok p Hp)) as [E'|E']; rewrite E in E'; [by rewrite thread_round in E'|]. rewrite E'.
      apply bool_decide_eq_false_2. intros Hn. apply Hn. rewrite thread_round. right. apply suspend_in_round.
    + intros p Hp. by destruct (H p Hp) as (_ & _ & ?).
    + apply (ready_cv _ _ _ _ _ HV). intros p Hp. by destruct (H p Hp).
  - intros t0 Et. exists order. destruct (cv_order _ _ _ _ _ _ _ _ _ _ HV) as [Hnd Ho]. pose proof (bars_name h) as (_ & _ & Hlen).
    assert (Hperm : order ≡ₚ cls).
    { apply NoDup_Permutation; [done..|]. intros p. rewrite Ho. split; [by intros [? _]|]. intros Hp. split; [done|]. destruct (H p Hp) as [-> _]. lia. }
    split; [done|]. apply (cv_done _ _ _ _ _ _ _ _ _ _ HV); [by rewrite Hperm|done].
Qed.

(** ** Runs *)

Abbreviation srun := (srun h env site fd).

Lemma run_keeps evs s s' since : inv since s -> srun evs s = Go s' -> exists since', inv since' s'.
Proof.
  revert s since. induction evs as [|ev evs IH]; cbn [Worker.srun]; intros s since Hi E; [injection E as <-; eauto|].
  assert (H : forall s1, sstep ev s = Go s1 -> exists since', inv since' s1).
  { intros s1 E1. destruct ev as [p|p w|w].
    - pose proof (work_inv since s p Hi) as H. rewrite E1 in H. exists since. apply H.
    - pose proof (handle_inv since s p w Hi) as H. rewrite E1 in H. exists since. apply H.
    - destruct (request_keeps since s w Hi) as (s2 & since' & E2 & H). rewrite E1 in E2. injection E2 as <-. by exists since'. }
  destruct (sstep ev s) as [s1| |]; [|done..]. destruct (H s1 eq_refl) as [since' H1]. by eapply IH.
Qed.
Lemma run_lowers evs s s' since : inv since s -> no_request evs -> srun evs s = Go s' -> inv since s' /\ (length evs + steps_left s' <= steps_left s)%nat.
Proof.
  revert s. induction evs as [|ev evs IH]; cbn [Worker.srun length]; intros s Hi Hn E; [injection E as <-; split; [done|lia]|].
  assert (H : forall s1, sstep ev s = Go s1 -> inv since s1 /\ (steps_left s1 < steps_left s)%nat).
  { intros s1 E1. destruct ev as [p|p w|w].
    - pose proof (work_inv since s p Hi) as H. by rewrite E1 in H.
    - pose proof (handle_inv since s p w Hi) as H. by rewrite E1 in H.
    - destruct (Hn w). left. }
  destruct (sstep ev s) as [s1| |]; [|done..]. destruct (H s1 eq_refl) as [H1 H2]. destruct (IH s1 H1) as [H3 H4]; [intros w Hw; apply (Hn w); by right|done|]. split; [done|lia].
Qed.
Lemma inv_no_stop since s ev : inv since s -> sstep ev s <> Stop.
Proof.
  intros Hi E. destruct ev as [p|p w|w].
  - pose proof (work_inv since s p Hi) as H. by rewrite E in H.
  - pose proof (handle_inv since s p w Hi) as H. by rewrite E in H.
  - destruct (request_keeps since s w Hi) as (s2 & since' & E2 & _). congruence.
Qed.
Lemma stuck_request since s w : inv since s -> stuck s -> exists s1, sstep (Request w) s = Go s1 /\ inv (Some (length (trace (coord s1)))) s1.
Proof.
  intros (c & a & k & order & HS) Hs. apply (request_accepted _ _ _ _ _ _ w HS). intros p Hp. by apply (SI_stuck _ _ _ _ _ _ HS Hs).
Qed.
End system.

(** A computation that runs: its processes are connected and running, and no checkpoint is under way. *)
Record running (h : Hooks) (fd : ptr -> Z) (s : System) : Prop := {
  rn_clients : clients (coord s) <> [] /\ NoDup (clients (coord s)) /\ all_live (coord s);
  rn_fd : forall p q, p ∈ clients (coord s) -> q ∈ clients (coord s) -> fd p = fd q -> p = q;
  rn_states : forall p, p ∈ clients (coord s) -> cl_sock (client_of (coord s) p) = fd p /\ cl_state (client_of (coord s) p) = RUNNING /\ cl_barrier (client_of (coord s) p) = EmptyString;
  rn_idle : workersAtCurrentBarrier (coord s) = 0 /\ currentBarrier (coord s) = EmptyString /\ workersRunningAndSuspendMsgSent (coord s) = false /\
    numRestartFilenames (coord s) = 0 /\ numRestartPeers (coord s) <= 0;
  rn_options : fl_writeKvData (flags (coord s)) = false /\ fl_killAfterCkpt (flags (coord s)) = false /\ killAfterCkptOnce (coord s) = false /\ blockUntilDone (coord s) = false;
  rn_messages : forall p, p ∈ clients (coord s) -> up s p = [] /\ down s p = [];
  rn_workers : forall p, p ∈ clients (coord s) -> before h (w_todo (workers s p)) /\ w_wait (workers s p) = None /\ up_eqb (w_comp (workers s p)) (compId (coord s)) = true /\
    exitAfterCkpt (workers s p) = false /\ w_exited (workers s p) = false /\ w_stopped (workers s p) = false;
  rn_rest : forall p, p ∉ clients (coord s) -> w_todo (workers s p) = [] /\ up s p = [] }.

Lemma running_inv h fd site s : running h fd s -> inv h (clients (coord s)) fd site (compId (coord s)) None s.
Proof.
  intros [(R1 & R2 & R2') R3 R4 (R5 & R6 & R7 & R8 & R9) R10 R11 R12 R13]. set (cls := clients (coord s)) in *. pose proof (bars_name h) as (_ & _ & Hlen).
  assert (Hc : cnt (arrived h (fun _ => len h) (total h)) cls = 0%nat) by (apply (proj2 (cnt_zero _ _)); intros p _; unfold arrived; rewrite bars_len; apply Nat.eqb_neq; lia).
  exists (fun _ => len h), (fun _ => len h), (total h), cls. split.
  - split; try done; try (intros p Hp; by apply R4); try lia.
    + intros p _. rewrite bars_len. lia.
    + destruct cls as [|p l]; [done|]. exists p. split; [left|apply bars_len].
    + by rewrite Hc.
    + intros p Hp. destruct (R4 p Hp) as (_ & _ & ->). unfold at_barrier. by rewrite Nat.eqb_refl.
    + intros p Hp. destruct (R4 p Hp) as (_ & -> & _). unfold known_as. by rewrite Nat.eqb_refl, orb_true_r.
    + split; [done|]. intros p. split; [intros Hp; split; [done|lia]|by intros [? _]].
    + apply up_eqb_refl.
  - done.
  - intros p Hp. rewrite Nat.sub_diag, (proj1 (R11 p Hp)). constructor.
  - intros p Hp. destruct (R12 p Hp) as (Hb & -> & _). rewrite (proj2 (R11 p Hp)). by constructor.
  - intros p Hp. destruct (R12 p Hp) as (Hb & _ & E1 & E2 & E3 & E4). split; [done..| |].
    + unfold before in Hb. destruct Hb as [-> |[-> | ->]]; [apply states_thread|..]; pose proof (states_thread h RUNNING) as H; rewrite thread_round in H |- *; exact H.
    + right. rewrite E4. symmetry. apply bool_decide_eq_false_2. intros Hn. apply Hn. pose proof (suspend_in_round h). unfold before in Hb. rewrite thread_round in Hb.
      destruct Hb as [-> |[-> | ->]]; cbn [drop]; set_solver.
  - done.
Qed.

(** ** What a checkpoint promises *)

Section theorems.
Context (h : Hooks) (env : ptr -> MsgEnv) (site : ptr -> Site) (fd : ptr -> Z).

(** C1: A checkpoint is a consistent cut.  Whatever the order of the steps and of the messages, and whenever requests come: no assertion fails, in a worker or in the
    coordinator; while a process writes its image, the threads of every process of the computation are stopped; and they are so from the moment the first
    process is past the barrier before the images until the last image is written. *)
Theorem consistent_cut s0 evs s : hooks_ok h -> (forall p, p ∈ clients (coord s0) -> site_ok (site p)) -> running h fd s0 ->
  srun h env site fd evs s0 = Go s ->
  (forall ev, sstep h env site fd ev s <> Stop) /\
  (forall q p rest, q ∈ clients (coord s0) -> p ∈ clients (coord s0) -> w_todo (workers s q) = writeCkpt :: rest -> w_stopped (workers s p) = true) /\
  (forall q1 q2 p, q1 ∈ clients (coord s0) -> q2 ∈ clients (coord s0) -> p ∈ clients (coord s0) ->
     waitForBarrier true "DMT:CHECKPOINT" ∉ w_todo (workers s q1) -> waitForPreSuspendMessage ∉ w_todo (workers s q2) -> writeCkpt ∈ w_todo (workers s q2) ->
     w_stopped (workers s p) = true).
Proof.
  intros Hh Hsites Hr E. pose proof (rn_clients _ _ _ Hr) as (_ & Hnd & _). pose proof (rn_fd _ _ _ Hr) as Hfd.
  destruct (run_keeps h _ fd site _ env Hh Hnd Hsites Hfd evs s0 s None (running_inv h fd site s0 Hr) E) as [since Hi]. split_and!.
  - intros ev. by apply (inv_no_stop h _ fd site (compId (coord s0)) env Hh Hnd Hsites Hfd since).
  - intros q p rest Hq Hp. by apply (inv_image h _ fd site (compId (coord s0)) Hh Hnd Hsites Hfd since s q rest p).
  - intros q1 q2 p H1 H2 Hp E1 E2 E3. by destruct (inv_cut h _ fd site _ Hh Hnd Hsites Hfd since s q1 q2 p Hi H1 H2 Hp E1 E2 E3).
Qed.

(** C2: Checkpoints complete.  From any state that a running computation reaches, the number of steps without a new request is bounded; when none is
    possible, every process runs again with its threads going, no message is left and the coordinator is ready; a request is then accepted,
    and when the steps it causes have ended, the coordinator has written a restart script with exactly the image of every process. *)
Theorem computation_checkpoints s0 evs s : hooks_ok h -> (forall p, p ∈ clients (coord s0) -> site_ok (site p)) -> running h fd s0 ->
  srun h env site fd evs s0 = Go s ->
  (exists bound, forall evs' s', no_request evs' -> srun h env site fd evs' s = Go s' -> (length evs' <= bound)%nat) /\
  (stuck h env site fd s -> quiet h (clients (coord s0)) s /\
     forall w, exists s1, sstep h env site fd (Request w) s = Go s1 /\
       forall evs' s2, no_request evs' -> srun h env site fd evs' s1 = Go s2 -> stuck h env site fd s2 ->
         quiet h (clients (coord s0)) s2 /\ exists order, order ≡ₚ clients (coord s0) /\ script_of site (length (trace (coord s1))) (coord s2) order).
Proof.
  intros Hh Hsites Hr E. pose proof (rn_clients _ _ _ Hr) as (_ & Hnd & _). pose proof (rn_fd _ _ _ Hr) as Hfd.
  destruct (run_keeps h _ fd site _ env Hh Hnd Hsites Hfd evs s0 s None (running_inv h fd site s0 Hr) E) as [since Hi]. split.
  - exists (steps_left h (clients (coord s0)) s). intros evs' s' Hn E'.
    destruct (run_lowers h _ fd site _ env Hh Hnd Hsites Hfd evs' s s' since Hi Hn E') as [_ Hl]. lia.
  - intros Hs. split; [by apply (inv_stuck h _ fd site _ env Hh Hnd Hsites Hfd since s Hi Hs)|]. intros w.
    destruct (stuck_request h _ fd site _ env Hh Hnd Hsites Hfd since s w Hi Hs) as (s1 & E1 & H1). exists s1. split; [done|]. intros evs' s2 Hn E2 Hs2.
    destruct (run_lowers h _ fd site _ env Hh Hnd Hsites Hfd evs' s1 s2 _ H1 Hn E2) as [H2 _].
    destruct (inv_stuck h _ fd site _ env Hh Hnd Hsites Hfd _ s2 H2 Hs2) as [Hq Hsc]. split; [done|]. by apply Hsc.
Qed.
End theorems.

(** ** Two processes, each with a barrier of a plugin in every phase *)

Definition ex_hooks : Hooks := mk_Hooks ["Example::Presuspend"] ["Socket::Ckpt_Register_Peer_Info"] ["Example::Resume"].
Definition ex_site (p : ptr) : Site := match p with O => mk_Site "/ckpt/a.dmtcp" "host-a" EmptyString false | _ => mk_Site "/ckpt/b.dmtcp" "host-b" "ssh" false end.
Definition ex_fd (p : ptr) : Z := 10 + Z.of_nat p.
Definition ex_worker (p : ptr) : Worker :=
  mk_Worker (match p with 0%nat | 1%nat => checkpointhread ex_hooks | _ => [] end) None RUNNING (compId ex_two) 0 false false false.
Definition ex_system : System := mk_System ex_two (fun _ => []) (fun _ => []) ex_worker.
Abbreviation ex_step := (sstep ex_hooks (fun _ => ex_env) ex_site ex_fd).
Abbreviation ex_run := (srun ex_hooks (fun _ => ex_env) ex_site ex_fd).

(** A schedule: the first of these steps that is possible. *)
Definition ex_choices : list sevent := [Work 0; Work 1; Handle 1 ex_world; Handle 0 ex_world].
Definition goes (ev : sevent) (s : System) : bool := match ex_step ev s with Go _ => true | _ => false end.
Fixpoint ex_schedule (n : nat) (s : System) : list sevent :=
  match n, head (filter (fun ev => goes ev s = true) ex_choices) with
  | S n, Some ev => match ex_step ev s with Go s' => ev :: ex_schedule n s' | _ => [] end
  | _, _ => []
  end.
Definition after (evs : list sevent) (s : System) : System := match ex_run evs s with Go s' => s' | _ => s end.

Definition went (r : sresult) : bool := match r with Go _ => true | _ => false end.
Lemma after_ok evs s : went (ex_run evs s) = true -> ex_run evs s = Go (after evs s).
Proof. unfold after. by destruct (ex_run evs s). Qed.
Definition is_request (ev : sevent) : bool := match ev with Request _ => true | _ => false end.
Lemma no_request_ok evs : forallb (fun ev => negb (is_request ev)) evs = true -> no_request evs.
Proof. intros H w Hw. apply Is_true_true, forallb_True in H. rewrite Forall_forall in H. by apply (H (Request w)). Qed.

Lemma ex_hooks_ok : hooks_ok ex_hooks.
Proof.
  split.
  - intros b Hb. assert (H : Forall (fun b => b <> EmptyString /\ no_NUL b = true /\ (String.length b < 64)%nat) (barriers ex_hooks)) by (refine (bool_decide_unpack _ _); vm_compute; exact I).
    rewrite Forall_forall in H. by apply H.
  - assert (H : Forall (fun i => barriers ex_hooks !! i <> barriers ex_hooks !! S i) (seq 0 (length (barriers ex_hooks)))) by (refine (bool_decide_unpack _ _); vm_compute; exact I).
    intros i b b' E1 E2 <-. rewrite Forall_forall in H. apply (H i); [|congruence]. apply elem_of_seq. pose proof (lookup_lt_Some _ _ _ E1). lia.
Qed.
Lemma ex_sites_ok p : site_ok (ex_site p).
Proof. destruct p as [|p]; (split; [done..|auto|unfold DMTCP_MAX_MESSAGE_EXTRA_BYTES; cbn; lia]). Qed.
Lemma ex_running : running ex_hooks ex_fd ex_system.
Proof.
  assert (Hc : forall p, p ∈ clients ex_two -> p = 0%nat \/ p = 1%nat) by (intros p [-> |[-> |[]%elem_of_nil]%elem_of_cons]%elem_of_cons; auto).
  split.
  - split_and!; [done|refine (bool_decide_unpack _ _); vm_compute; exact I|exact ex_two_live].
  - intros p q _ _. unfold ex_fd. lia.
  - intros p [-> | ->]%Hc; done.
  - done.
  - done.
  - done.
  - intros p [-> | ->]%Hc; (split; [by left|done]).
  - intros p Hp. split; [|done]. destruct p as [|[|p]]; [destruct Hp; left|destruct Hp; right; left|done].
Qed.

(** Half of a checkpoint: the first process writes its image. *)
Definition ex_to_image : list sevent := Request ex_world :: ex_schedule 37 (after [Request ex_world] ex_system).

Definition ex_image : System := after ex_to_image ex_system.

Lemma consistent_cut_witness :
  ex_run ex_to_image ex_system = Go ex_image /\ head (w_todo (workers ex_image 0%nat)) = Some writeCkpt /\ w_stopped (workers ex_image 1%nat) = true.
Proof.
  set (s := ex_image). assert (E : ex_run ex_to_image ex_system = Go s) by (apply after_ok; vm_compute; reflexivity). split; [exact E|].
  assert (Hw : head (w_todo (workers s 0%nat)) = Some writeCkpt) by (vm_compute; reflexivity). split; [exact Hw|].
  destruct (consistent_cut ex_hooks (fun _ => ex_env) ex_site ex_fd ex_system ex_to_image s ex_hooks_ok (fun p _ => ex_sites_ok p) ex_running E) as (_ & H & _).
  destruct (w_todo (workers s 0%nat)) as [|i rest] eqn:Et; [discriminate Hw|]. injection Hw as ->. apply (H 0%nat 1%nat rest); [left|right; left|exact Et].
Defined.

(** Nothing is possible when every worker waits and nothing is on its way to the coordinator. *)
Definition waits (s : System) (p : ptr) : bool :=
  match up s p, wstep ex_hooks ex_env (ex_site p) (down s p) (workers s p) with [], Waits => true | _, _ => false end.
Lemma ex_stuck evs s : ex_run evs ex_system = Go s -> waits s 0 = true -> waits s 1 = true -> stuck ex_hooks (fun _ => ex_env) ex_site ex_fd s.
Proof.
  intros E H0 H1. pose proof (rn_clients _ _ _ ex_running) as (_ & Hnd & _). pose proof (rn_fd _ _ _ ex_running) as Hfd.
  destruct (run_keeps ex_hooks _ ex_fd ex_site _ (fun _ => ex_env) ex_hooks_ok Hnd (fun p _ => ex_sites_ok p) Hfd evs ex_system s None (running_inv _ _ ex_site _ ex_running) E) as (since & c & a & k & order & HS).
  assert (Hall : forall p, waits s p = true).
  { intros [|[|p]]; [done..|]. destruct (sy_rest _ _ _ _ _ _ _ _ _ _ _ HS (S (S p))) as [Ht Hu]; [vm_compute; set_solver|]. unfold waits, wstep. by rewrite Hu, Ht. }
  intros [p|p w|w] Hev; [| |by destruct (Hev w)]; specialize (Hall p); unfold waits in Hall; cbn [sstep]; destruct (up s p); try done.
  by destruct (wstep _ _ _ _ _).
Qed.

Lemma srun_app h env site fd evs evs' s s1 : srun h env site fd evs s = Go s1 -> srun h env site fd (evs ++ evs') s = srun h env site fd evs' s1.
Proof.
  revert s. induction evs as [|ev evs IH]; intros s E; cbn [app srun] in *; [by injection E as ->|]. destruct (sstep h env site fd ev s); [by apply IH|done..].
Qed.

Lemma srun_one h env site fd ev s s1 s2 : sstep h env site fd ev s = Go s1 -> srun h env site fd [ev] s = Go s2 -> s1 = s2.
Proof. cbn [srun]. intros -> [= ->]. done. Qed.

(** A whole checkpoint: from the two processes that run to the script that restarts them. *)
Definition ex_ready : System := after (ex_schedule 4 ex_system) ex_system.
Definition ex_asked : System := after [Request ex_world] ex_ready.
Definition ex_resumed : System := after (ex_schedule 200 ex_asked) ex_asked.

Lemma computation_checkpoints_witness :
  ex_run [Request ex_world] ex_ready = Go ex_asked /\ quiet ex_hooks [0%nat; 1%nat] ex_resumed /\
  exists order, order ≡ₚ [0%nat; 1%nat] /\ script_of ex_site (length (trace (coord ex_asked))) (coord ex_resumed) order.
Proof.
  assert (E : ex_run (ex_schedule 4 ex_system) ex_system = Go ex_ready) by (apply after_ok; vm_compute; reflexivity).
  assert (E1 : ex_run [Request ex_world] ex_ready = Go ex_asked) by (apply after_ok; vm_compute; reflexivity).
  assert (E2 : ex_run (ex_schedule 200 ex_asked) ex_asked = Go ex_resumed) by (apply after_ok; vm_compute; reflexivity).
  assert (Hs : stuck ex_hooks (fun _ => ex_env) ex_site ex_fd ex_ready) by (apply (ex_stuck _ _ E); vm_compute; reflexivity).
  assert (Hs2 : stuck ex_hooks (fun _ => ex_env) ex_site ex_fd ex_resumed).
  { apply (ex_stuck (ex_schedule 4 ex_system ++ [Request ex_world] ++ ex_schedule 200 ex_asked)); [|vm_compute; reflexivity..].
    rewrite (srun_app _ _ _ _ _ _ _ _ E), (srun_app _ _ _ _ _ _ _ _ E1). exact E2. }
  destruct (computation_checkpoints ex_hooks (fun _ => ex_env) ex_site ex_fd ex_system _ ex_ready ex_hooks_ok (fun p _ => ex_sites_ok p) ex_running E) as (_ & H).
  destruct (H Hs) as [_ Hr]. destruct (Hr ex_world) as (s1 & E1' & H1). split; [exact E1|].
  pose proof (srun_one _ _ _ _ _ _ _ _ E1' E1) as Heq. rewrite Heq in H1. clear E1' Heq.
  apply (H1 (ex_schedule 200 ex_asked)); [apply no_request_ok; vm_compute; reflexivity|exact E2|exact Hs2].
Defined.
