(* ===== verification/Mutex.v ===== *)
(** * DmtcpMutex

    src/mutex.cpp: a futex lock in the style of "Futexes are tricky", with an
    owner and a count for recursive use, shared by any number of threads.

    A thread is a program counter; [step] is one access to the shared words by
    one thread, or one futex system call, so that every interleaving of the code
    is a sequence of steps.  The accesses are sequentially consistent.  What a
    thread does next between two calls, which sleeper a wake-up takes and when a
    signal interrupts a wait is chosen by the environment. *)

From Stdlib Require Import ZArith Lia.
From stdpp Require Import base gmap strings numbers list.
From S2P Require Import Prelude.
Open Scope Z_scope.

Module Mutex.

(** ** Data *)

Inductive DmtcpMutexType : Type := DMTCP_MUTEX_NORMAL | DMTCP_MUTEX_RECURSIVE | DMTCP_MUTEX_LLL.

#[global] Instance DmtcpMutexType_eq_dec : EqDecision DmtcpMutexType.
Proof. solve_decision. Defined.

Record DmtcpMutex : Type := mk_DmtcpMutex { futex : Z; owner : Z; count : Z; type : DmtcpMutexType }.

#[global] Instance eta_DmtcpMutex : Settable DmtcpMutex :=
  {| eta_of := fun r => mk_DmtcpMutex (futex r) (owner r) (count r) (type r) |}.

Definition LOCK_FREE : Z := 0.
Definition LOCK_ACQUIRED : Z := 1.
Definition LOCK_ACQUIRED_WAITERS_MAY_BE_QUEUED : Z := 2.

Definition DmtcpMutexInit (ty : DmtcpMutexType) : DmtcpMutex := mk_DmtcpMutex 0 0 0 ty.

(** A value of [mutex->owner] for a holder. *)
Definition own (ty : DmtcpMutexType) (tid : Z) : Z := if decide (ty = DMTCP_MUTEX_LLL) then 1 else tid.

(** Who called DmtcpMutexTryLock. *)
Inductive caller : Type := FromLock | FromUser.

(** Where a thread is.  [d] is how many times the thread has the mutex
    according to the values its calls returned. *)
Inductive pc : Type :=
| Run (d : nat)                         (* between two calls *)
| TryOwner (k : caller) (d : nat)       (* TryLock: mutex->owner == gettid() *)
| TryRecurse (d : nat)                  (* count + 1 != 0; count++ *)
| TryCas (k : caller) (d : nat)         (* FREE -> ACQUIRED *)
| SetOwner (d : nat)                    (* acquired: owner = ... *)
| SetCount (d : nat)                    (* count = 1 *)
| LockMark (d : nat)                    (* ACQUIRED -> WAITERS *)
| LockWait (d : nat)                    (* futex_wait enters the kernel *)
| LockSleep (d : nat)                   (* asleep in futex_wait *)
| LockTake (d : nat)                    (* FREE -> WAITERS *)
| UnlAssert (d : nat)                   (* Unlock: the ASSERT on the owner *)
| UnlCount (d : nat)                    (* count-- *)
| UnlTest (d : nat)                     (* count == 0, [d] acquisitions left *)
| UnlOwner (d : nat)                    (* owner = 0 *)
| UnlCas1 (d : nat)                     (* ACQUIRED -> FREE *)
| UnlCas2 (d : nat)                     (* WAITERS -> FREE *)
| UnlWake (d : nat).                    (* futex_wake *)

Record State : Type := mk_State { mx : DmtcpMutex; pcs : gmap Z pc }.

Definition pc_of (s : State) (t : Z) : pc := default (Run 0) (pcs s !! t).
Definition goto (t : Z) (p : pc) (m : DmtcpMutex) (s : State) : State := mk_State m (<[t := p]> (pcs s)).

(** What the environment decides. *)
Inductive choice : Type :=
| Proceed | CallLock | CallTryLock | CallUnlock
| Interrupted                           (* EINTR, or a wake-up without reason *)
| Wakes (u : option Z).                 (* the sleeper futex_wake takes *)

Inductive result : Type := Next (s : State) | Asserted (msg : string) | NotEnabled.

Definition asleep (p : pc) : bool := match p with LockSleep _ => true | _ => false end.
Definition no_sleeper (s : State) : bool := forallb (fun tp => negb (asleep (snd tp))) (map_to_list (pcs s)).

(** ** One step of one thread *)

Definition call_TryLock (k : caller) (d : nat) (m : DmtcpMutex) : pc :=
  if decide (type m = DMTCP_MUTEX_LLL) then TryCas k d else TryOwner k d.

(** DmtcpMutexTryLock. *)
Definition step_try (t : Z) (p : pc) (s : State) : result :=
  let m := mx s in
  match p with
  | TryOwner k d =>
      if owner m =? t then
        if decide (type m = DMTCP_MUTEX_RECURSIVE) then Next (goto t (TryRecurse d) m s)
        else match k with                                   (* EDEADLK *)
             | FromLock => Next (goto t (LockMark d) m s)
             | FromUser => Next (goto t (Run d) m s)
             end
      else Next (goto t (TryCas k d) m s)
  | TryRecurse d =>
      if to_uint32 (count m + 1) =? 0 then Asserted "recursive mutex count overflow"
      else Next (goto t (Run (S d)) (m <| count := to_uint32 (count m + 1) |>) s)
  | TryCas k d =>
      if futex m =? LOCK_FREE then Next (goto t (SetOwner d) (m <| futex := LOCK_ACQUIRED |>) s)
      else match k with                                     (* EAGAIN *)
           | FromLock => Next (goto t (LockMark d) m s)
           | FromUser => Next (goto t (Run d) m s)
           end
  | SetOwner d => Next (goto t (SetCount d) (m <| owner := own (type m) t |>) s)
  | SetCount d => Next (goto t (Run (S d)) (m <| count := 1 |>) s)
  | _ => NotEnabled
  end.

(** DmtcpMutexLock after a failed DmtcpMutexTryLock. *)
Definition step_lock (t : Z) (p : pc) (c : choice) (s : State) : result :=
  let m := mx s in
  match p, c with
  | LockMark d, Proceed =>
      let m' := if futex m =? LOCK_ACQUIRED then m <| futex := LOCK_ACQUIRED_WAITERS_MAY_BE_QUEUED |> else m in
      Next (goto t (if futex m =? LOCK_FREE then LockTake d else LockWait d) m' s)
  | LockWait d, Proceed =>
      Next (goto t (if futex m =? LOCK_ACQUIRED_WAITERS_MAY_BE_QUEUED then LockSleep d else LockTake d) m s)
  | LockSleep d, Interrupted => Next (goto t (LockTake d) m s)
  | LockTake d, Proceed =>
      if futex m =? LOCK_FREE
      then Next (goto t (SetOwner d) (m <| futex := LOCK_ACQUIRED_WAITERS_MAY_BE_QUEUED |>) s)
      else Next (goto t (LockMark d) m s)
  | _, _ => NotEnabled
  end.

(** DmtcpMutexUnlock. *)
Definition step_unlock (t : Z) (p : pc) (c : choice) (s : State) : result :=
  let m := mx s in
  match p, c with
  | UnlAssert d, Proceed =>
      if owner m =? own (type m) t then Next (goto t (UnlCount d) m s) else Asserted "mutex unlock by non-owner"
  | UnlCount d, Proceed => Next (goto t (UnlTest (pred d)) (m <| count := to_uint32 (count m - 1) |>) s)
  | UnlTest d, Proceed => Next (goto t (if count m =? 0 then UnlOwner d else Run d) m s)
  | UnlOwner d, Proceed => Next (goto t (UnlCas1 d) (m <| owner := 0 |>) s)
  | UnlCas1 d, Proceed =>
      if futex m =? LOCK_ACQUIRED then Next (goto t (Run d) (m <| futex := LOCK_FREE |>) s)
      else Next (goto t (UnlCas2 d) m s)
  | UnlCas2 d, Proceed =>
      if futex m =? LOCK_ACQUIRED_WAITERS_MAY_BE_QUEUED then Next (goto t (UnlWake d) (m <| futex := LOCK_FREE |>) s)
      else Asserted "mutex unlock saw unexpected futex state"
  | UnlWake d, Wakes None => if no_sleeper s then Next (goto t (Run d) m s) else NotEnabled
  | UnlWake d, Wakes (Some u) =>
      match pc_of s u with
      | LockSleep e => Next (goto t (Run d) m (goto u (LockTake e) m s))
      | _ => NotEnabled
      end
  | _, _ => NotEnabled
  end.

(** A thread id is positive and fits [pid_t].  A mutex of type LLL records no
    thread, so there only a thread that has it may unlock it; for the other types
    any thread may try. *)
Definition step (t : Z) (c : choice) (s : State) : result :=
  if negb ((0 <? t) && (t <? 2 ^ 31)) then NotEnabled else
  match pc_of s t with
  | Run d =>
      match c with
      | CallLock => Next (goto t (call_TryLock FromLock d (mx s)) (mx s) s)
      | CallTryLock => Next (goto t (call_TryLock FromUser d (mx s)) (mx s) s)
      | CallUnlock =>
          if (d =? 0)%nat && bool_decide (type (mx s) = DMTCP_MUTEX_LLL) then NotEnabled
          else Next (goto t (UnlAssert d) (mx s) s)
      | _ => NotEnabled
      end
  | (TryOwner _ _ | TryRecurse _ | TryCas _ _ | SetOwner _ | SetCount _) as p =>
      match c with Proceed => step_try t p s | _ => NotEnabled end
  | (LockMark _ | LockWait _ | LockSleep _ | LockTake _) as p => step_lock t p c s
  | p => step_unlock t p c s
  end.

Definition init (ty : DmtcpMutexType) : State := mk_State (DmtcpMutexInit ty) ∅.

Inductive reach (s0 : State) : State -> Prop :=
| reach_refl : reach s0 s0
| reach_step s t c s' : reach s0 s -> step t c s = Next s' -> reach s0 s'.

(** ** The invariant *)

(** The thread is in the possession of the lock word. *)
Definition holds (p : pc) : bool :=
  match p with
  | Run d | TryOwner _ d | TryRecurse d | TryCas _ d | LockMark d | LockWait d | LockSleep d | LockTake d
  | UnlAssert d => negb (d =? 0)%nat
  | SetOwner _ | SetCount _ | UnlCount _ | UnlTest _ | UnlOwner _ | UnlCas1 _ | UnlCas2 _ => true
  | UnlWake _ => false
  end.

Definition pc_ok (ty : DmtcpMutexType) (p : pc) : Prop :=
  match p with
  | TryRecurse d => ty = DMTCP_MUTEX_RECURSIVE /\ d <> 0%nat
  | UnlAssert d => ty = DMTCP_MUTEX_LLL -> d <> 0%nat
  | UnlWake d => d = 0%nat
  | _ => True
  end.

(** What the words of the mutex are while thread [t], at [p], has it. *)
Definition phase (t : Z) (p : pc) (m : DmtcpMutex) : Prop :=
  let o := own (type m) t in
  match p with
  | SetOwner d => d = 0%nat /\ owner m = 0
  | SetCount d => d = 0%nat /\ owner m = o
  | UnlTest d => owner m = o /\ count m = Z.of_nat d /\ count m < 2 ^ 32 /\ (type m = DMTCP_MUTEX_RECURSIVE \/ d = 0%nat)
  | UnlOwner d => d = 0%nat /\ owner m = o
  | UnlCas1 d => d = 0%nat /\ owner m = 0
  | UnlCas2 d => d = 0%nat /\ owner m = 0 /\ futex m = LOCK_ACQUIRED_WAITERS_MAY_BE_QUEUED
  | UnlWake _ => False
  | Run d | TryOwner _ d | TryRecurse d | TryCas _ d | LockMark d | LockWait d | LockSleep d | LockTake d
  | UnlAssert d | UnlCount d =>
      owner m = o /\ count m = Z.of_nat d /\ 0 < count m < 2 ^ 32 /\ (type m = DMTCP_MUTEX_RECURSIVE \/ d = 1%nat)
  end.

Definition held (m : DmtcpMutex) : Prop := futex m = LOCK_ACQUIRED \/ futex m = LOCK_ACQUIRED_WAITERS_MAY_BE_QUEUED.

(** [h] is the thread that has the mutex. *)
Record core (h : option Z) (s : State) : Prop := {
  c_holder t : holds (pc_of s t) = true <-> h = Some t;
  c_pcs t : pc_ok (type (mx s)) (pc_of s t);
  c_words : match h with
            | None => futex (mx s) = LOCK_FREE /\ owner (mx s) = 0
            | Some t => 0 < t /\ held (mx s) /\ phase t (pc_of s t) (mx s)
            end }.

Lemma pc_of_goto t p m s u : pc_of (goto t p m s) u = if decide (u = t) then p else pc_of s u.
Proof.
  unfold pc_of, goto. cbn [pcs]. destruct (decide (u = t)) as [->|]; [by rewrite lookup_insert_eq|by rewrite lookup_insert_ne].
Qed.

Lemma holder_none h s t : core h s -> holds (pc_of s t) = false -> h <> Some t.
Proof. intros H Hf Ht. apply (c_holder _ _ H) in Ht. congruence. Qed.

Lemma phase_marked t p m : phase t p m -> phase t p (m <| futex := LOCK_ACQUIRED_WAITERS_MAY_BE_QUEUED |>).
Proof. destruct p; try exact id. intros (H1 & H2 & _). done. Qed.

(** A thread that does not have the mutex moves; it may announce itself. *)
Lemma core_other h s t p m : core h s -> holds (pc_of s t) = false -> holds p = false -> pc_ok (type (mx s)) p ->
  m = mx s \/ (held (mx s) /\ m = (mx s) <| futex := LOCK_ACQUIRED_WAITERS_MAY_BE_QUEUED |>) -> core h (goto t p m s).
Proof.
  intros H Hf Hp Hok Hm. pose proof (holder_none h s t H Hf) as Hne.
  assert (Ety : type m = type (mx s)) by (destruct Hm as [-> |[_ ->]]; done). split.
  - intros u. rewrite pc_of_goto. destruct (decide (u = t)) as [->|]; [|by apply (c_holder _ _ H)]. split; congruence.
  - intros u. rewrite pc_of_goto. cbn [goto mx]. rewrite Ety. destruct (decide (u = t)); [done|]. apply (c_pcs _ _ H).
  - pose proof (c_words _ _ H) as Hw. cbn [goto mx]. destruct h as [u|].
    + rewrite pc_of_goto. rewrite decide_False by congruence. destruct Hw as (? & ? & Hph).
      destruct Hm as [-> |[_ ->]]; [done|]. split_and!; [done|by right|by apply phase_marked].
    + destruct Hm as [-> |[[Hh|Hh] _]]; [done| |]; destruct Hw as [Hw _]; rewrite Hw in Hh; discriminate.
Qed.

(** The holder moves and keeps the mutex, or a thread takes the free mutex. *)
Lemma core_keep h s t p m : core h s -> h = Some t \/ futex (mx s) = LOCK_FREE -> 0 < t -> holds p = true ->
  pc_ok (type (mx s)) p -> type m = type (mx s) -> held m -> phase t p m -> core (Some t) (goto t p m s).
Proof.
  intros H Hh Ht Hp Hok Ety Hheld Hph. split.
  - intros u. rewrite pc_of_goto. destruct (decide (u = t)) as [->|]; [done|]. rewrite (c_holder _ _ H).
    destruct Hh as [-> |Hfree]; [done|]. pose proof (c_words _ _ H) as Hw. destruct h as [v|]; [|by split; congruence].
    destruct Hw as (_ & [Hw|Hw] & _); rewrite Hfree in Hw; discriminate.
  - intros u. rewrite pc_of_goto. cbn [goto mx]. rewrite Ety. destruct (decide (u = t)); [done|]. apply (c_pcs _ _ H).
  - rewrite pc_of_goto, decide_True by done. done.
Qed.

(** The holder gives the mutex back. *)
Lemma core_release s t p m : core (Some t) s -> holds p = false -> pc_ok (type (mx s)) p -> type m = type (mx s) ->
  futex m = LOCK_FREE -> owner m = 0 -> core None (goto t p m s).
Proof.
  intros H Hp Hok Ety Hf Ho. split.
  - intros u. rewrite pc_of_goto. destruct (decide (u = t)) as [->|]; [split; congruence|]. rewrite (c_holder _ _ H).
    split; congruence.
  - intros u. rewrite pc_of_goto. cbn [goto mx]. rewrite Ety. destruct (decide (u = t)); [done|]. apply (c_pcs _ _ H).
  - done.
Qed.

(** The holder, with what its program counter says about the words. *)
Lemma core_holding h s t : core h s -> holds (pc_of s t) = true ->
  h = Some t /\ 0 < t /\ held (mx s) /\ phase t (pc_of s t) (mx s).
Proof. intros H Ht. apply (c_holder _ _ H) in Ht as ->. pose proof (c_words _ _ H). done. Qed.

(** An own step that leaves the words alone and the number of acquisitions as it is. *)
Definition passive (p p' : pc) (m : DmtcpMutex) (t : Z) : Prop :=
  holds p' = holds p /\ pc_ok (type m) p' /\ (phase t p m -> phase t p' m).

Lemma core_passive h s t p' m : core h s -> passive (pc_of s t) p' (mx s) t -> m = mx s \/
  (held (mx s) /\ m = (mx s) <| futex := LOCK_ACQUIRED_WAITERS_MAY_BE_QUEUED |>) -> core h (goto t p' m s).
Proof.
  intros H (Hh & Hok & Hph) Hm. destruct (holds (pc_of s t)) eqn:E.
  - destruct (core_holding h s t H E) as (-> & Ht & Hheld & Hp).
    apply (core_keep (Some t)); [done|by left|done|done|done| | |]; destruct Hm as [-> |[_ ->]]; try done.
    + by right.
    + by apply Hph.
    + by apply phase_marked, Hph.
  - by apply core_other.
Qed.

(** Only the holder finds its own id in [mutex->owner]. *)
Lemma owner_holds h s t : core h s -> 0 < t -> type (mx s) <> DMTCP_MUTEX_LLL -> owner (mx s) = t -> h = Some t.
Proof.
  intros H Ht Hty Ho. pose proof (c_words _ _ H) as Hw. destruct h as [u|]; [|destruct Hw; lia].
  destruct Hw as (Hu & _ & Hp). f_equal. unfold phase, own in Hp. rewrite decide_False in Hp by done.
  destruct (pc_of s u); destruct Hp; lia || destruct_and?; lia.
Qed.

Ltac passive_step := unfold passive; cbn; tauto.

Lemma step_try_core h s t s' : core h s -> 0 < t -> step_try t (pc_of s t) s = Next s' -> exists h', core h' s'.
Proof.
  intros H Ht E. pose proof (core_passive h s t) as Hpass. pose proof (c_pcs _ _ H t) as Hok.
  pose proof (core_holding h s t H) as Hhold. destruct (pc_of s t) as [d|k d|d|k d|d|d| | | | | | | | | | |] eqn:Ep; try discriminate E; cbn in E.
  - destruct (Z.eqb_spec (owner (mx s)) t) as [Ho|Ho]; [|injection E as <-; exists h; apply Hpass; auto; passive_step].
    destruct (decide (type (mx s) = DMTCP_MUTEX_RECURSIVE)) as [Hty|Hty].
    + injection E as <-. exists h. apply Hpass; auto. assert (Hd : holds (TryOwner k d) = true).
      { rewrite <- Ep. apply (c_holder _ _ H). eapply owner_holds; try done. by rewrite Hty. }
      cbn in Hd. unfold passive. cbn. rewrite Hd. apply negb_true_iff, Nat.eqb_neq in Hd. tauto.
    + destruct k; injection E as <-; exists h; apply Hpass; auto; passive_step.
  - destruct Hok as [Hty Hd]. destruct (Z.eqb_spec (to_uint32 (count (mx s) + 1)) 0) as [|Hno]; [done|]. injection E as <-.
    assert (Hh : holds (TryRecurse d) = true) by (cbn; by apply negb_true_iff, Nat.eqb_neq).
    destruct (Hhold Hh) as (-> & _ & Hheld & Ho & Hc & Hr & _). exists (Some t).
    assert (Hw : to_uint32 (count (mx s) + 1) = count (mx s) + 1).
    { unfold to_uint32, wrap_u in *. destruct (decide (count (mx s) + 1 = 2 ^ 32)) as [E|]; [by rewrite E in Hno|].
      apply Z.mod_small. lia. }
    apply (core_keep (Some t)); try done; [by left|]. unfold phase. rsimpl. rewrite Hw. split_and!; try done; [lia|lia| |by left].
    unfold to_uint32, wrap_u in Hw. pose proof (Z.mod_pos_bound (count (mx s) + 1) (2 ^ 32)). lia.
  - destruct (Z.eqb_spec (futex (mx s)) LOCK_FREE) as [Hf|Hf].
    + injection E as <-. exists (Some t). pose proof (c_words _ _ H) as Hw. destruct h as [u|].
      { destruct Hw as (_ & [Hw|Hw] & _); rewrite Hf in Hw; discriminate. }
      assert (Hd : holds (TryCas k d) = false) by (destruct (holds (TryCas k d)) eqn:Hx; [by destruct (Hhold eq_refl)|done]).
      cbn in Hd. apply negb_false_iff, Nat.eqb_eq in Hd.
      apply (core_keep None); try done; [by right|by left|]. by destruct Hw.
    + destruct k; injection E as <-; exists h; apply Hpass; auto; passive_step.
  - injection E as <-. destruct (Hhold eq_refl) as (-> & _ & Hheld & Hd & _). exists (Some t).
    apply (core_keep (Some t)); try done; by left.
  - injection E as <-. destruct (Hhold eq_refl) as (-> & _ & Hheld & Hd & Ho). exists (Some t). subst d.
    apply (core_keep (Some t)); try done; [by left|]. split_and!; try done. by right.
Qed.

Lemma not_free h s : core h s -> futex (mx s) <> LOCK_FREE -> held (mx s).
Proof. intros H Hf. pose proof (c_words _ _ H) as Hw. destruct h; [by destruct Hw as (_ & ? & _)|by destruct Hw]. Qed.

Lemma step_lock_core h s t c s' : core h s -> 0 < t -> step_lock t (pc_of s t) c s = Next s' -> exists h', core h' s'.
Proof.
  intros H Ht E. pose proof (core_passive h s t) as Hpass. pose proof (not_free h s H) as Hnf.
  pose proof (core_holding h s t H) as Hhold.
  destruct (pc_of s t) as [| | | | | |d|d|d|d| | | | | | |] eqn:Ep; try discriminate E; destruct c; try discriminate E; cbn in E.
  - injection E as <-. exists h. destruct (Z.eqb_spec (futex (mx s)) LOCK_ACQUIRED) as [Ea|Ea].
    + apply Hpass; auto; [destruct (_ =? _); passive_step|]. right. split; [by left|done].
    + apply Hpass; auto. destruct (_ =? _); passive_step.
  - injection E as <-. exists h. apply Hpass; auto. destruct (_ =? _); passive_step.
  - injection E as <-. exists h. apply Hpass; auto. passive_step.
  - destruct (Z.eqb_spec (futex (mx s)) LOCK_FREE) as [Hf|Hf]; injection E as <-.
    + exists (Some t). pose proof (c_words _ _ H) as Hw. destruct h as [u|].
      { destruct Hw as (_ & [Hw|Hw] & _); rewrite Hf in Hw; discriminate. }
      assert (Hd : holds (LockTake d) = false) by (destruct (holds (LockTake d)) eqn:Hx; [by destruct (Hhold eq_refl)|done]).
      cbn in Hd. apply negb_false_iff, Nat.eqb_eq in Hd.
      apply (core_keep None); try done; [by right|by right|]. by destruct Hw.
    + exists h. apply Hpass; auto. passive_step.
Qed.

Lemma step_unlock_core h s t c s' : core h s -> 0 < t -> step_unlock t (pc_of s t) c s = Next s' -> exists h', core h' s'.
Proof.
  intros H Ht E. pose proof (core_passive h s t) as Hpass. pose proof (c_pcs _ _ H t) as Hok.
  pose proof (core_holding h s t H) as Hhold.
  destruct (pc_of s t) as [| | | | | | | | | |d|d|d|d|d|d|d] eqn:Ep; try discriminate E; destruct c; try discriminate E; cbn in E.
  - destruct (Z.eqb_spec (owner (mx s)) (own (type (mx s)) t)) as [Ho|]; [|done]. injection E as <-.
    assert (Hh : holds (UnlAssert d) = true).
    { destruct (decide (type (mx s) = DMTCP_MUTEX_LLL)) as [Hl|Hl]; [cbn; apply negb_true_iff, Nat.eqb_neq; auto|].
      rewrite <- Ep. apply (c_holder _ _ H). apply (owner_holds h s t); try done. rewrite Ho. unfold own. by rewrite decide_False. }
    exists h. apply Hpass; auto. unfold passive. rewrite Hh. cbn. tauto.
  - injection E as <-. destruct (Hhold eq_refl) as (-> & _ & Hheld & Ho & Hc & Hr & Hd). exists (Some t).
    apply (core_keep (Some t)); try done; [by left|]. unfold phase. rsimpl.
    unfold to_uint32, wrap_u. rewrite Z.mod_small by lia. split_and!; [done|lia|lia|]. destruct Hd; [by left|right; lia].
  - injection E as <-. destruct (Hhold eq_refl) as (-> & _ & Hheld & Ho & Hc & Hlt & Hd). exists (Some t).
    destruct (Z.eqb_spec (count (mx s)) 0) as [E0|E0].
    + apply (core_keep (Some t)); try done; [by left|]. split; [lia|done].
    + apply (core_keep (Some t)); try done; [by left|cbn; apply negb_true_iff, Nat.eqb_neq; lia|].
      split_and!; [done|lia|lia|lia|]. destruct Hd; [by left|lia].
  - injection E as <-. destruct (Hhold eq_refl) as (-> & _ & Hheld & Hd & Ho). exists (Some t).
    apply (core_keep (Some t)); try done. by left.
  - destruct (Hhold eq_refl) as (-> & _ & Hheld & Hd & Ho). destruct (Z.eqb_spec (futex (mx s)) LOCK_ACQUIRED); injection E as <-.
    + exists None. subst d. by apply core_release.
    + exists (Some t). apply (core_keep (Some t)); try done; [by left|]. split_and!; [done|done|by destruct Hheld].
  - destruct (Hhold eq_refl) as (-> & _ & Hheld & Hd & Ho & _).
    destruct (Z.eqb_spec (futex (mx s)) LOCK_ACQUIRED_WAITERS_MAY_BE_QUEUED); [|done]. injection E as <-.
    exists None. by apply core_release.
  - cbn in Hok. subst d. destruct u as [u|].
    + destruct (pc_of s u) as [| | | | | | | |e| | | | | | | |] eqn:Eu; try discriminate E. injection E as <-. exists h.
      assert (Hne : t <> u) by (intros <-; congruence).
      assert (H1 : core h (goto u (LockTake e) (mx s) s)) by (apply core_passive; [done|rewrite Eu; passive_step|by left]).
      apply (core_passive h _ t); [done|rewrite pc_of_goto, decide_False, Ep by done; passive_step|by left].
    + destruct (no_sleeper s); [|done]. injection E as <-. exists h. apply Hpass; auto. passive_step.
Qed.

Lemma step_core h s t c s' : core h s -> step t c s = Next s' -> exists h', core h' s'.
Proof.
  intros H E. unfold step in E. destruct ((0 <? t) && (t <? 2 ^ 31)) eqn:Ht; [|done]. cbn [negb] in E.
  apply andb_true_iff in Ht as [Ht%Z.ltb_lt _].
  assert (Htry := step_try_core h s t s' H Ht). assert (Hlock := step_lock_core h s t c s' H Ht).
  assert (Hunl := step_unlock_core h s t c s' H Ht).
  pose proof (core_passive h s t) as Hpass.
  destruct (pc_of s t) as [d| | | | | | | | | | | | | | | |] eqn:Ep; try by (destruct c; auto). destruct c; try done.
  - injection E as <-. exists h. apply Hpass; auto. unfold call_TryLock. destruct (decide _); passive_step.
  - injection E as <-. exists h. apply Hpass; auto. unfold call_TryLock. destruct (decide _); passive_step.
  - destruct (_ && _) eqn:Eg; [done|]. injection E as <-. exists h. apply Hpass; auto. unfold passive. cbn. split_and!; auto.
    intros Hty ->. rewrite (bool_decide_true _ Hty) in Eg. done.
Qed.

Lemma reach_core ty s : reach (init ty) s -> exists h, core h s.
Proof.
  induction 1 as [|s t c s' _ [h IH] Hs]; [|by eapply step_core]. exists None. split; [|done|done].
  intros t. unfold pc_of, init. cbn [pcs]. rewrite lookup_empty. done.
Qed.

(** Every failed ASSERT has a cause outside the mutex. *)
Lemma step_asserts h s t c msg : core h s -> step t c s = Asserted msg ->
  (msg = "mutex unlock by non-owner" /\ holds (pc_of s t) = false) \/
  (msg = "recursive mutex count overflow" /\ count (mx s) = 2 ^ 32 - 1 /\ holds (pc_of s t) = true).
Proof.
  intros H E. unfold step in E. destruct ((0 <? t) && (t <? 2 ^ 31)) eqn:Ht; [|done]. cbn [negb] in E. clear Ht.
  pose proof (core_holding h s t H) as Hhold. pose proof (c_pcs _ _ H t) as Hok.
  destruct (pc_of s t) as [d|k d|d|k d|d|d|d|d|d|d|d|d|d|d|d|d|d] eqn:Ep; destruct c;
    cbn [step_try step_lock step_unlock] in E; try discriminate E.
  - destruct (_ && _); discriminate E.
  - destruct (_ =? _); [destruct (decide _), k|]; discriminate E.
  - right. destruct Hok as [_ Hd]. assert (Hh : holds (TryRecurse d) = true) by (cbn; by apply negb_true_iff, Nat.eqb_neq).
    destruct (Hhold Hh) as (_ & _ & _ & _ & _ & Hr & _).
    destruct (Z.eqb_spec (to_uint32 (count (mx s) + 1)) 0) as [E0|]; [|done]. injection E as <-. split_and!; [done| |done].
    destruct (decide (count (mx s) + 1 = 2 ^ 32)); [lia|]. unfold to_uint32, wrap_u in E0. rewrite Z.mod_small in E0 by lia. lia.
  - destruct (_ =? _); [|destruct k]; discriminate E.
  - destruct (_ =? _); discriminate E.
  - left. destruct (Z.eqb_spec (owner (mx s)) (own (type (mx s)) t)) as [|Ho]; [done|]. injection E as <-. split; [done|].
    destruct (holds (UnlAssert d)) eqn:Hh; [|done]. by destruct (Hhold eq_refl) as (_ & _ & _ & ? & _).
  - destruct (_ =? _); discriminate E.
  - destruct (Hhold eq_refl) as (_ & _ & _ & _ & _ & Hf). rewrite Hf in E. discriminate E.
  - destruct u as [u|]; [destruct (pc_of s u)|destruct (no_sleeper s)]; discriminate E.
Qed.

(** ** Wake-ups *)

(** The thread will look at the lock word again, or wake somebody who does. *)
Definition contender (p : pc) : bool :=
  match p with LockMark _ | LockWait _ | LockTake _ | UnlWake _ => true | _ => false end.

Definition waking (s : State) : Prop :=
  (exists t, asleep (pc_of s t) = true) ->
  futex (mx s) = LOCK_ACQUIRED_WAITERS_MAY_BE_QUEUED \/ exists u, contender (pc_of s u) = true.

Lemma waking_move s t p m : waking s ->
  futex m = LOCK_ACQUIRED_WAITERS_MAY_BE_QUEUED \/ contender p = true \/
  (asleep p = false /\ contender (pc_of s t) = false /\ (futex (mx s) = LOCK_ACQUIRED_WAITERS_MAY_BE_QUEUED -> futex m = LOCK_ACQUIRED_WAITERS_MAY_BE_QUEUED)) ->
  waking (goto t p m s).
Proof.
  intros Hw Hm [v Hv]. cbn [goto mx] in *. destruct Hm as [?|[Hc|(Ha & Hc & Hf)]]; [by left|right; exists t; by rewrite pc_of_goto, decide_True|].
  rewrite pc_of_goto in Hv. destruct (decide (v = t)) as [->|Hne]; [congruence|].
  destruct Hw as [?|[u Hu]]; [by exists v|by left; apply Hf|]. right. exists u. rewrite pc_of_goto, decide_False; congruence.
Qed.

Lemma no_sleeper_spec s t : no_sleeper s = true -> asleep (pc_of s t) = false.
Proof.
  unfold no_sleeper, pc_of. intros H. destruct (pcs s !! t) as [p|] eqn:E; [|done]. cbn [default].
  rewrite forallb_forall in H. apply elem_of_map_to_list, list_elem_of_In in E. apply H, negb_true_iff in E. exact E.
Qed.

Lemma step_waking s t c s' : waking s -> step t c s = Next s' -> waking s'.
Proof.
  intros H E. unfold step in E. destruct (negb _); [done|].
  pose proof (waking_move s t) as Hmove.
  destruct (pc_of s t) as [d|k d|d|k d|d|d|d|d|d|d|d|d|d|d|d|d|d] eqn:Ep; destruct c;
    cbn [step_try step_lock step_unlock call_TryLock] in E; try discriminate E;
    repeat match type of E with
    | (if ?b then _ else _) = _ => let Hb := fresh "Hb" in destruct b eqn:Hb
    | context [goto _ (if ?b then _ else _)] => let Hb := fresh "Hb" in destruct b eqn:Hb
    | match ?k with FromLock => _ | FromUser => _ end = _ => destruct k
    end; try discriminate E; try (injection E as <-; apply Hmove; [exact H|]; cbn; intuition (auto; lia)).
  - injection E as <-. apply Hmove; [exact H|]. unfold call_TryLock. destruct (decide _); cbn; tauto.
  - injection E as <-. apply Hmove; [exact H|]. unfold call_TryLock. destruct (decide _); cbn; tauto.
  - injection E as <-. apply Hmove; [exact H|]. apply Z.eqb_eq in Hb. rewrite Hb. right; right. split_and!; done.
  - injection E as <-. apply Hmove; [exact H|]. apply Z.eqb_eq in Hb. rewrite Hb. right; right. split_and!; done.
  - destruct u as [u|].
    + destruct (pc_of s u) as [| | | | | | | |e| | | | | | | |] eqn:Eu; try discriminate E. injection E as <-. intros _. right.
      exists u. rewrite pc_of_goto, decide_False by (intros ->; congruence). by rewrite pc_of_goto, decide_True.
    + destruct (no_sleeper s) eqn:Hns; [|done]. injection E as <-. intros [v Hv]. exfalso. rewrite pc_of_goto in Hv.
      destruct (decide (v = t)); [done|]. by rewrite (no_sleeper_spec s v Hns) in Hv.
Qed.

Lemma reach_waking ty s : reach (init ty) s -> waking s.
Proof.
  induction 1 as [|s t c s' _ IH Hs]; [|by eapply step_waking]. intros [t Ht]. unfold pc_of, init in Ht.
  cbn [pcs] in Ht. by rewrite lookup_empty in Ht.
Qed.

(** ** Theorems *)

(** A run of three threads: 7 locks, 8 waits for it, 7 unlocks and wakes 8. *)
Definition run (l : list (Z * choice)) (s : State) : result :=
  foldl (fun r tc => match r with Next s => step (fst tc) (snd tc) s | r => r end) (Next s) l.

Lemma run_reach s0 l : forall s s', reach s0 s -> run l s = Next s' -> reach s0 s'.
Proof.
  assert (Hf : forall (l : list (Z * choice)) r, (forall s, r <> Next s) ->
    foldl (fun r tc => match r with Next s => step (fst tc) (snd tc) s | r => r end) r l = r).
  { induction l0 as [|x l0 IH]; intros r Hr; [done|]. cbn. destruct r; [by destruct (Hr s)|by apply IH|by apply IH]. }
  induction l as [|[t c] l IH]; intros s s' Hr E; [by injection E as <-|]. unfold run in E. cbn [foldl fst snd] in E.
  destruct (step t c s) as [s1| |] eqn:E1; [|by rewrite Hf in E|by rewrite Hf in E].
  by apply (IH s1 s'); [eapply reach_step|].
Qed.

(** C10: Mutual exclusion: whatever the interleaving of any number of threads,
    at most one has the mutex, and none exactly when the lock word is free; an
    ASSERT of the code fails only for a thread that unlocks a mutex it does not have,
    or on the 2^32-th nested acquisition of a recursive one, never because of the
    lock word. *)
Theorem mutex_exclusion ty s : reach (init ty) s ->
  (forall t u, holds (pc_of s t) = true -> holds (pc_of s u) = true -> t = u) /\
  (futex (mx s) = LOCK_FREE <-> forall t, holds (pc_of s t) = false) /\
  (forall t c msg, step t c s = Asserted msg ->
     (msg = "mutex unlock by non-owner" /\ holds (pc_of s t) = false) \/
     (msg = "recursive mutex count overflow" /\ count (mx s) = 2 ^ 32 - 1 /\ holds (pc_of s t) = true)).
Proof.
  intros [h H]%reach_core. split_and!.
  - intros t u Ht Hu. apply (c_holder _ _ H) in Ht. apply (c_holder _ _ H) in Hu. congruence.
  - pose proof (c_words _ _ H) as Hw. split.
    + intros Hf t. destruct (holds (pc_of s t)) eqn:E; [|done]. apply (c_holder _ _ H) in E as ->.
      destruct Hw as (_ & [E|E] & _); rewrite Hf in E; discriminate.
    + intros Hn. destruct h as [t|]; [|by destruct Hw]. assert (E : holds (pc_of s t) = true) by by apply (c_holder _ _ H).
      by rewrite Hn in E.
  - intros t c msg. by apply step_asserts with (h := h).
Qed.

(** Thread 7 has the mutex, thread 8 sleeps. *)
Definition ex_wait : list (Z * choice) :=
  [(7, CallLock); (7, Proceed); (7, Proceed); (7, Proceed); (7, Proceed);
   (8, CallLock); (8, Proceed); (8, Proceed); (8, Proceed); (8, Proceed)].
Definition ex_waiting : State := Eval vm_compute in
  match run ex_wait (init DMTCP_MUTEX_NORMAL) with Next s => s | _ => init DMTCP_MUTEX_NORMAL end.

Lemma ex_waiting_reach : reach (init DMTCP_MUTEX_NORMAL) ex_waiting.
Proof. apply (run_reach _ ex_wait _ _ (reach_refl _)). vm_compute. reflexivity. Qed.

Lemma mutex_exclusion_witness : pc_of ex_waiting 7 = Run 1 /\ forall t, holds (pc_of ex_waiting t) = true -> t = 7.
Proof.
  destruct (mutex_exclusion _ _ ex_waiting_reach) as [H _]. split; [reflexivity|]. intros t Ht. apply H; [exact Ht|reflexivity].
Defined.

(** C27: No wake-up is lost: while a thread sleeps in DmtcpMutexLock, the lock word
    says that sleepers may exist (so that the release will wake one) and some thread
    has the mutex, or another thread is about to look at the word again or to wake
    one. *)
Theorem mutex_no_lost_wakeup ty s t d : reach (init ty) s -> pc_of s t = LockSleep d ->
  (futex (mx s) = LOCK_ACQUIRED_WAITERS_MAY_BE_QUEUED /\ exists u, holds (pc_of s u) = true) \/
  exists u, u <> t /\ contender (pc_of s u) = true.
Proof.
  intros Hr Ht. destruct (reach_core ty s Hr) as [h H]. destruct (reach_waking ty s Hr) as [Hf|[u Hu]].
  - exists t. by rewrite Ht.
  - left. split; [done|]. pose proof (c_words _ _ H) as Hw. destruct h as [u|]; [|destruct Hw as [Hw _]; rewrite Hf in Hw; discriminate].
    exists u. by apply (c_holder _ _ H).
  - right. exists u. split; [|done]. intros ->. by rewrite Ht in Hu.
Qed.

Lemma mutex_no_lost_wakeup_witness : pc_of ex_waiting 8 = LockSleep 0 /\ exists u, u <> 8.
Proof.
  split; [reflexivity|]. destruct (mutex_no_lost_wakeup _ ex_waiting 8 0 ex_waiting_reach eq_refl) as [[_ [u Hu]]|[u [Hu _]]].
  - exists u. intros ->. discriminate Hu.
  - exists u. exact Hu.
Defined.

(** Inside DmtcpMutexLock, called by a thread that already has the mutex. *)
Definition relocking (p : pc) : bool :=
  match p with
  | TryOwner FromLock d | TryCas FromLock d | LockMark d | LockWait d | LockSleep d | LockTake d => negb (d =? 0)%nat
  | _ => false
  end.

(** A step of another thread at most wakes this one. *)
Lemma step_others s t u c s' : step u c s = Next s' -> u <> t ->
  pc_of s' t = pc_of s t \/ exists e, pc_of s t = LockSleep e /\ pc_of s' t = LockTake e.
Proof.
  intros E Hne. unfold step in E. destruct (negb _); [done|].
  assert (Hg : forall p m, Next (goto u p m s) = Next s' -> pc_of s' t = pc_of s t)
    by (intros p m [= <-]; rewrite pc_of_goto; by rewrite decide_False).
  destruct (pc_of s u) as [d|k d|d|k d|d|d|d|d|d|d|d|d|d|d|d|d|d] eqn:Ep; destruct c;
    cbn [step_try step_lock step_unlock] in E; try discriminate E;
    repeat match type of E with
    | (if ?b then _ else _) = _ => destruct b
    | match ?k with FromLock => _ | FromUser => _ end = _ => destruct k
    end; try discriminate E; try (left; eapply Hg; exact E).
  destruct u0 as [v|]; [|destruct (no_sleeper s); [left; eapply Hg; exact E|done]].
  destruct (pc_of s v) as [| | | | | | | |e| | | | | | | |] eqn:Ev; try discriminate E. injection E as <-.
  rewrite pc_of_goto, decide_False by done. rewrite pc_of_goto. destruct (decide (t = v)) as [->|]; [right; by exists e|by left].
Qed.

Lemma step_type s t c s' : step t c s = Next s' -> type (mx s') = type (mx s).
Proof.
  intros E. unfold step in E. destruct (negb _); [done|].
  destruct (pc_of s t) as [d|k d|d|k d|d|d|d|d|d|d|d|d|d|d|d|d|d]; destruct c;
    cbn [step_try step_lock step_unlock] in E; try discriminate E;
    repeat match type of E with
    | (if ?b then _ else _) = _ => destruct b
    | match ?k with FromLock => _ | FromUser => _ end = _ => destruct k
    end; try discriminate E; try (by injection E as <-).
  - injection E as <-. cbn [goto mx]. by destruct (_ =? _).
  - destruct u as [u|]; [destruct (pc_of s u)|destruct (no_sleeper s)]; try discriminate E; by injection E as <-.
Qed.

Lemma reach_type s0 s : reach s0 s -> type (mx s) = type (mx s0).
Proof. induction 1 as [|s t c s' _ IH Hs]; [done|]. by rewrite (step_type _ _ _ _ Hs). Qed.

Lemma relocking_step h s t u c s' : core h s -> type (mx s) <> DMTCP_MUTEX_RECURSIVE ->
  relocking (pc_of s t) = true -> step u c s = Next s' -> relocking (pc_of s' t) = true.
Proof.
  intros H Hty Ht E. destruct (decide (u = t)) as [->|Hne].
  2:{ destruct (step_others s t u c s' E Hne) as [-> |(e & He & ->)]; [done|]. by rewrite He in Ht. }
  assert (Hh : holds (pc_of s t) = true) by (destruct (pc_of s t) as [|[]| |[]| | | | | | | | | | | | |]; done).
  destruct (core_holding h s t H Hh) as (_ & _ & Hheld & _).
  assert (Hnf : (futex (mx s) =? LOCK_FREE) = false) by (destruct Hheld as [-> | ->]; done).
  unfold step in E. destruct (negb _); [done|].
  destruct (pc_of s t) as [|[] d| |[] d| | |d|d|d|d| | | | | | |]; try discriminate Ht; destruct c; try discriminate E; cbn in E;
    rewrite ?Hnf, ?(decide_False _ _ Hty) in E;
    repeat match type of E with (if ?b then _ else _) = _ => destruct b end;
    injection E as <-; rewrite pc_of_goto, decide_True by done; try exact Ht.
  all: match goal with |- context [if ?b then _ else _] => destruct b end; exact Ht.
Qed.

(** Locking twice hangs: DmtcpMutexTryLock reports EDEADLK for a thread that
    has the mutex, but DmtcpMutexLock ignores the report: once such a thread calls
    it for a mutex that is not recursive, the call never returns, whatever the
    thread and the others do. *)
Theorem mutex_relock_never_returns ty s t d s1 s' :
  ty <> DMTCP_MUTEX_RECURSIVE -> reach (init ty) s -> pc_of s t = Run (S d) ->
  step t CallLock s = Next s1 -> reach s1 s' -> relocking (pc_of s' t) = true.
Proof.
  intros Hty Hr Hp E H'. pose proof (reach_step _ _ _ _ _ Hr E) as Hr1.
  assert (Hp1 : relocking (pc_of s1 t) = true).
  { unfold step in E. rewrite Hp in E. destruct (negb _); [done|]. injection E as <-. rewrite pc_of_goto, decide_True by done.
    unfold call_TryLock. by destruct (decide _). }
  assert (H : reach (init ty) s' /\ relocking (pc_of s' t) = true).
  { induction H' as [|s2 u c s3 _ IH Hs]; [done|]. destruct IH as [IH1 IH2]. split; [by eapply reach_step|].
    destruct (reach_core ty s2 IH1) as [h Hc]. eapply (relocking_step h s2); try done.
    rewrite (reach_type _ _ IH1). exact Hty. }
  apply H.
Qed.

Lemma mutex_relock_never_returns_witness :
  exists s', run [(7, CallLock); (7, Proceed); (7, Proceed); (7, Proceed)] ex_waiting = Next s' /\
    pc_of s' 7 = LockSleep 1 /\ forall s2, reach s' s2 -> relocking (pc_of s2 7) = true.
Proof.
  destruct (step 7 CallLock ex_waiting) as [s1| |] eqn:E1; [|discriminate E1|discriminate E1].
  assert (H : forall s', reach s1 s' -> relocking (pc_of s' 7) = true).
  { intros s' Hs'. apply (mutex_relock_never_returns DMTCP_MUTEX_NORMAL ex_waiting 7 0 s1 s');
      [discriminate|exact ex_waiting_reach|reflexivity|exact E1|exact Hs']. }
  vm_compute in E1. injection E1 as <-. eexists. split; [vm_compute; reflexivity|]. split; [vm_compute; reflexivity|].
  intros s2 Hs2. apply H.
  assert (Htr : forall a b c, reach a b -> reach b c -> reach a c)
    by (intros a b c Hab; induction 1; [exact Hab|eapply reach_step; eassumption]).
  eapply Htr; [|exact Hs2]. apply (run_reach _ [(7, Proceed); (7, Proceed); (7, Proceed)] _ _ (reach_refl _)).
  vm_compute. reflexivity.
Defined.

End Mutex.
