(* ===== verification/RWLock.v ===== *)
(** * DmtcpRWLock

    src/rwlock.cpp: a readers-writer lock whose status word (three signed
    fields of ten bits) is changed by compare-and-exchange, with one futex word for
    the waiting readers and one for the waiting writers.

    As for the mutex, a step is one access of one thread to the shared words, or one
    futex system call.  The lock is correct as long as the calls do not overlap
    ([rwlock_serial_calls]); a reader preempted inside DmtcpRWLockRdLock shows that
    it is not when they do ([rwlock_reader_joins_writer]). *)

From Stdlib Require Import ZArith Lia.
From stdpp Require Import base strings numbers list.
From S2P Require Import Prelude.
Open Scope Z_scope.

Module RWLock.

(** ** Data *)

(** A bit-field [int32_t x : 10]. *)
Definition to_int10 (z : Z) : Z := wrap_s 10 z.

Record DmtcpRWLockStatus : Type := mk_Status { nReaders : Z; nWriters : Z; nReadersQueued : Z }.
Record DmtcpRWLock : Type := mk_RWLock {
  status : DmtcpRWLockStatus; writerTid : Z; readerFutex : Z; writerFutex : Z }.

#[global] Instance eta_Status : Settable DmtcpRWLockStatus :=
  {| eta_of r := mk_Status (nReaders r) (nWriters r) (nReadersQueued r) |}.
#[global] Instance eta_RWLock : Settable DmtcpRWLock :=
  {| eta_of r := mk_RWLock (status r) (writerTid r) (readerFutex r) (writerFutex r) |}.
#[global] Instance Status_eq_dec : EqDecision DmtcpRWLockStatus.
Proof. solve_decision. Defined.

Definition DmtcpRWLockInit : DmtcpRWLock := mk_RWLock (mk_Status 0 0 0) 0 0 0.

(** Where a thread is: between calls with nothing, a read lock or the write
    lock; or inside one of the functions, with its local variables. *)
Inductive pc : Type :=
| Idle | Reading | Writing
| RdCheck | RdLoad | RdFutex (old : DmtcpRWLockStatus) | RdCas (old : DmtcpRWLockStatus) (waitVal : Z)
| RdWait (waitVal : Z) | RdSleep (waitVal : Z)
| RuLoad | RuCas (old : DmtcpRWLockStatus) | RuBump | RuStore (v : Z) | RuWake
| WrCheck | WrLoad | WrFutex (old : DmtcpRWLockStatus) | WrCas (old : DmtcpRWLockStatus) (waitVal : Z)
| WrWait (waitVal : Z) | WrSleep (waitVal : Z) | WrOwn
| WuTid | WuReaders | WuClear | WuLoad | WuCas (old : DmtcpRWLockStatus)
| WuBumpW | WuStoreW (v : Z) | WuWakeW
| WuBumpR (readers : Z) | WuStoreR (readers v : Z) | WuWakeR (readers : Z)
| UnlCheck
| RiLoad | RiCas (old : DmtcpRWLockStatus).

Record State : Type := mk_State { rw : DmtcpRWLock; pcs : list pc }.

(** The thread at position [i] has a positive id. *)
Definition tid (i : nat) : Z := Z.of_nat i + 1.
Definition goto (i : nat) (p : pc) (l : DmtcpRWLock) (s : State) : State := mk_State l (<[i := p]> (pcs s)).

Inductive op : Type := RdLock | RdLockIgnoreQueuedWriter | WrLock | Unlock.

Inductive choice : Type :=
| Proceed | Call (o : op)
| Interrupted                            (* futex_wait fails with EINTR *)
| Wakes (l : list nat).                  (* the threads futex_wake takes *)

Inductive result : Type := Next (s : State) | Asserted (msg : string) | NotEnabled.

Definition rd_sleeps (p : pc) : bool := match p with RdSleep _ => true | _ => false end.
Definition wr_sleeps (p : pc) : bool := match p with WrSleep _ => true | _ => false end.

(** [futex_wake]: each thread of the list was asleep and goes on at [up]. *)
Fixpoint wake (asleep : pc -> bool) (up : pc) (l : list nat) (ps : list pc) : option (list pc) :=
  match l with
  | [] => Some ps
  | j :: l' =>
      match ps !! j with
      | Some p => if asleep p then wake asleep up l' (<[j := up]> ps) else None
      | None => None
      end
  end.

(** At most [n] sleepers are woken, and no fewer than there are up to [n]. *)
Definition futex_wake (n : Z) (asleep : pc -> bool) (up : pc) (l : list nat) (ps : list pc) : option (list pc) :=
  if Z.of_nat (length l) =? Z.min n (Z.of_nat (cnt asleep ps)) then wake asleep up l ps else None.

(** ** One step of one thread *)

(** DmtcpRWLockRdLock; a failed compare-and-exchange loads the status. *)
Definition step_rdlock (i : nat) (p : pc) (c : choice) (s : State) : result :=
  let l := rw s in
  match p, c with
  | RdCheck, Proceed => Next (goto i (if writerTid l =? tid i then Writing else RdLoad) l s)      (* EDEADLK *)
  | RdLoad, Proceed => Next (goto i (RdFutex (status l)) l s)
  | RdFutex old, Proceed => Next (goto i (RdCas old (readerFutex l)) l s)
  | RdCas old w, Proceed =>
      let new := if 0 <? nWriters old then old <| nReadersQueued := to_int10 (nReadersQueued old + 1) |>
                 else old <| nReaders := to_int10 (nReaders old + 1) |> in
      if decide (status l = old) then
        Next (goto i (if 0 <? nWriters old then RdWait w else Reading) (l <| status := new |>) s)
      else Next (goto i (RdFutex (status l)) l s)
  | RdWait w, Proceed => Next (goto i (if readerFutex l =? w then RdSleep w else Reading) l s)    (* EAGAIN *)
  | RdSleep w, Interrupted => Next (goto i (RdWait w) l s)
  | _, _ => NotEnabled
  end.

(** DmtcpRWLockRdLockIgnoreQueuedWriter. *)
Definition step_ignore (i : nat) (p : pc) (c : choice) (s : State) : result :=
  let l := rw s in
  match p, c with
  | RiLoad, Proceed => Next (goto i (RiCas (status l)) l s)
  | RiCas old, Proceed =>
      if decide (status l = old) then
        Next (goto i Reading (l <| status := old <| nReaders := to_int10 (nReaders old + 1) |> |>) s)
      else Next (goto i (RiCas (status l)) l s)
  | _, _ => NotEnabled
  end.

(** DmtcpRWLockRdUnlock. *)
Definition step_rdunlock (i : nat) (p : pc) (c : choice) (s : State) : result :=
  let l := rw s in
  match p, c with
  | RuLoad, Proceed => Next (goto i (RuCas (status l)) l s)
  | RuCas old, Proceed =>
      if nReaders old =? 0 then Asserted "newStatus.nReaders"
      else
        let new := old <| nReaders := to_int10 (nReaders old - 1) |> in
        if decide (status l = old) then
          Next (goto i (if (nReaders new =? 0) && (0 <? nWriters new) then RuBump else Idle) (l <| status := new |>) s)
        else Next (goto i (RuCas (status l)) l s)
  | RuBump, Proceed => Next (goto i (RuStore (writerFutex l)) l s)
  | RuStore v, Proceed => Next (goto i RuWake (l <| writerFutex := to_uint32 (v + 1) |>) s)
  | RuWake, Wakes q =>
      match futex_wake 1 wr_sleeps WrOwn q (pcs s) with
      | Some ps => Next (goto i Idle l (mk_State l ps))
      | None => NotEnabled
      end
  | _, _ => NotEnabled
  end.

(** DmtcpRWLockWrLock. *)
Definition step_wrlock (i : nat) (p : pc) (c : choice) (s : State) : result :=
  let l := rw s in
  match p, c with
  | WrCheck, Proceed => Next (goto i (if writerTid l =? tid i then Writing else WrLoad) l s)      (* EDEADLK *)
  | WrLoad, Proceed => Next (goto i (WrFutex (status l)) l s)
  | WrFutex old, Proceed => Next (goto i (WrCas old (writerFutex l)) l s)
  | WrCas old w, Proceed =>
      let new := old <| nWriters := to_int10 (nWriters old + 1) |> in
      if decide (status l = old) then
        Next (goto i (if (1 <? nWriters new) || (0 <? nReaders new) then WrWait w else WrOwn) (l <| status := new |>) s)
      else Next (goto i (WrFutex (status l)) l s)
  | WrWait w, Proceed => Next (goto i (if writerFutex l =? w then WrSleep w else WrOwn) l s)      (* EAGAIN *)
  | WrSleep w, Interrupted => Next (goto i (WrWait w) l s)
  | WrOwn, Proceed => Next (goto i Writing (l <| writerTid := tid i |>) s)
  | _, _ => NotEnabled
  end.

(** DmtcpRWLockWrUnlock. *)
Definition step_wrunlock (i : nat) (p : pc) (c : choice) (s : State) : result :=
  let l := rw s in
  match p, c with
  | WuTid, Proceed => if writerTid l =? tid i then Next (goto i WuReaders l s) else Asserted "rwlock->writerTid"
  | WuReaders, Proceed => if nReaders (status l) =? 0 then Next (goto i WuClear l s) else Asserted "rwlock->status.nReaders"
  | WuClear, Proceed => Next (goto i WuLoad (l <| writerTid := 0 |>) s)
  | WuLoad, Proceed => Next (goto i (WuCas (status l)) l s)
  | WuCas old, Proceed =>
      let new := old <| nWriters := to_int10 (nWriters old - 1) |> in
      let new := if nWriters new =? 0 then new <| nReaders := nReadersQueued new |> <| nReadersQueued := 0 |> else new in
      if decide (status l = old) then
        Next (goto i (if 0 <? nWriters new then WuBumpW else WuBumpR (nReaders new)) (l <| status := new |>) s)
      else Next (goto i (WuCas (status l)) l s)
  | WuBumpW, Proceed => Next (goto i (WuStoreW (writerFutex l)) l s)
  | WuStoreW v, Proceed => Next (goto i WuWakeW (l <| writerFutex := to_uint32 (v + 1) |>) s)
  | WuWakeW, Wakes q =>
      match futex_wake 1 wr_sleeps WrOwn q (pcs s) with
      | Some ps => Next (goto i Idle l (mk_State l ps))
      | None => NotEnabled
      end
  | WuBumpR n, Proceed => Next (goto i (WuStoreR n (readerFutex l)) l s)
  | WuStoreR n v, Proceed => Next (goto i (WuWakeR n) (l <| readerFutex := to_uint32 (v + 1) |>) s)
  | WuWakeR n, Wakes q =>
      match futex_wake (to_uint32 n) rd_sleeps Reading q (pcs s) with
      | Some ps => Next (goto i Idle l (mk_State l ps))
      | None => NotEnabled
      end
  | _, _ => NotEnabled
  end.

(** What a thread may call: a lock function when it has nothing (or the write
    lock, to be told EDEADLK), DmtcpRWLockUnlock when it has something, and
    DmtcpRWLockRdLockIgnoreQueuedWriter, a second reader's share, only while a
    reader is inside. *)
Definition step_call (i : nat) (p : pc) (o : op) (s : State) : result :=
  match o, p with
  | RdLock, (Idle | Writing) => Next (goto i RdCheck (rw s) s)
  | WrLock, (Idle | Writing) => Next (goto i WrCheck (rw s) s)
  | RdLockIgnoreQueuedWriter, Idle =>
      if existsb (fun p => match p with Reading => true | _ => false end) (pcs s)
      then Next (goto i RiLoad (rw s) s) else NotEnabled
  | Unlock, (Reading | Writing) => Next (goto i UnlCheck (rw s) s)
  | _, _ => NotEnabled
  end.

(** DmtcpRWLockUnlock chooses by the writer's id. *)
Definition step_pc (i : nat) (p : pc) (c : choice) (s : State) : result :=
  match p with
  | Idle | Reading | Writing => match c with Call o => step_call i p o s | _ => NotEnabled end
  | RdCheck | RdLoad | RdFutex _ | RdCas _ _ | RdWait _ | RdSleep _ => step_rdlock i p c s
  | RuLoad | RuCas _ | RuBump | RuStore _ | RuWake => step_rdunlock i p c s
  | WrCheck | WrLoad | WrFutex _ | WrCas _ _ | WrWait _ | WrSleep _ | WrOwn => step_wrlock i p c s
  | RiLoad | RiCas _ => step_ignore i p c s
  | UnlCheck =>
      match c with
      | Proceed => Next (goto i (if writerTid (rw s) =? tid i then WuTid else RuLoad) (rw s) s)
      | _ => NotEnabled
      end
  | _ => step_wrunlock i p c s
  end.

Definition step (i : nat) (c : choice) (s : State) : result :=
  match pcs s !! i with Some p => step_pc i p c s | None => NotEnabled end.

Definition init (n : nat) : State := mk_State DmtcpRWLockInit (repeat Idle n).

(** Any interleaving. *)
Inductive reach (s0 : State) : State -> Prop :=
| reach_refl : reach s0 s0
| reach_step s i c s' : reach s0 s -> step i c s = Next s' -> reach s0 s'.

Definition run (l : list (nat * choice)) (s : State) : result :=
  foldl (fun r ic => match r with Next s => step (fst ic) (snd ic) s | r => r end) (Next s) l.

(** Calls that do not overlap: the calling thread alone runs, until it returns
    or sleeps; [q] are the sleepers its futex_wake takes, if it calls it. *)
Definition settled (p : pc) : bool :=
  match p with Idle | Reading | Writing | RdSleep _ | WrSleep _ => true | _ => false end.

Fixpoint solo (fuel : nat) (i : nat) (q : list nat) (s : State) : option State :=
  match fuel with
  | O => None
  | S n =>
      match pcs s !! i with
      | None => None
      | Some p =>
          if settled p then Some s
          else
            let c := match p with RuWake | WuWakeW | WuWakeR _ => Wakes q | _ => Proceed end in
            match step i c s with Next s' => solo n i q s' | _ => None end
      end
  end.

Definition serial_call (i : nat) (o : op) (q : list nat) (s : State) : option State :=
  match step i (Call o) s with Next s' => solo 14 i q s' | _ => None end.

(** A writer that was woken goes on to take the lock. *)
Definition serial_resume (i : nat) (s : State) : option State :=
  match pcs s !! i with Some WrOwn => solo 2 i [] s | _ => None end.

Inductive serial (n : nat) : State -> Prop :=
| serial_init : serial n (init n)
| serial_calls s i o q s' : serial n s -> serial_call i o q s = Some s' -> serial n s'
| serial_resumes s i s' : serial n s -> serial_resume i s = Some s' -> serial n s'.

(** ** Overlapping calls *)

(** The writer, the reader up to its compare-and-exchange, a whole write
    unlock and write lock, then the rest of the reader. *)
Definition aba : list (nat * choice) :=
  let w c := (1%nat, c) in let r c := (0%nat, c) in
  let wrlock := [w (Call WrLock); w Proceed; w Proceed; w Proceed; w Proceed; w Proceed] in
  let wrunlock := [w (Call Unlock); w Proceed; w Proceed; w Proceed; w Proceed; w Proceed; w Proceed;
                   w Proceed; w Proceed; w (Wakes [])] in
  wrlock ++ [r (Call RdLock); r Proceed; r Proceed; r Proceed] ++ wrunlock ++ wrlock ++ [r Proceed; r Proceed].

Lemma rw_run_reach s0 l : forall s s', reach s0 s -> run l s = Next s' -> reach s0 s'.
Proof.
  induction l as [|[i c] l IH]; intros s s' Hr E; [by injection E as <-|]. unfold run in E. cbn [foldl fst snd] in E.
  destruct (step i c s) as [s1| |] eqn:E1; [apply (IH s1 s'); [by eapply reach_step|exact E]| |];
    (exfalso; clear -E; induction l as [|x l IH]; [discriminate E|exact (IH E)]).
Qed.

(** ** Calls that do not overlap *)

Definition is_reading (p : pc) : bool := match p with Reading => true | _ => false end.
Definition w_active (p : pc) : bool := match p with Writing | WrOwn => true | _ => false end.
Definition registered (p : pc) : bool := w_active p || wr_sleeps p.
Definition quiet (p : pc) : bool := match p with WrOwn => true | p => settled p end.

(** The invariant of the words and the threads. *)
Record sinv (l : DmtcpRWLock) (ps : list pc) : Prop := {
  q_quiet i p : ps !! i = Some p -> quiet p = true;
  q_readers : nReaders (status l) = Z.of_nat (cnt is_reading ps);
  q_writers : nWriters (status l) = Z.of_nat (cnt registered ps);
  q_queued : nReadersQueued (status l) = Z.of_nat (cnt rd_sleeps ps);
  q_excl : cnt w_active ps = 0%nat \/ (cnt w_active ps = 1%nat /\ cnt is_reading ps = 0%nat);
  q_served : (cnt w_active ps + cnt is_reading ps = 0 -> cnt wr_sleeps ps = 0)%nat;
  q_behind : (cnt registered ps = 0 -> cnt rd_sleeps ps = 0)%nat;
  q_tid i : writerTid l = tid i <-> ps !! i = Some Writing }.

Lemma registered_split ps : cnt registered ps = (cnt w_active ps + cnt wr_sleeps ps)%nat.
Proof. induction ps as [|p ps IH]; [done|]. rewrite !cnt_cons, IH. unfold registered. destruct p; cbn; lia. Qed.

Lemma int10_small z : - 512 <= z < 512 -> to_int10 z = z.
Proof. intros H. unfold to_int10, wrap_s. rewrite Z.mod_small by lia. lia. Qed.

Lemma goto_goto i p l p' l' s : goto i p l (goto i p' l' s) = goto i p l s.
Proof. unfold goto. cbn [pcs]. by rewrite list_insert_insert_eq. Qed.

Lemma rw_goto i p l s : rw (goto i p l s) = l.
Proof. done. Qed.

(** Running one thread by its program counter. *)
Lemma solo_goto n i q p l s : (i < length (pcs s))%nat ->
  solo (S n) i q (goto i p l s) =
  if settled p then Some (goto i p l s)
  else match step_pc i p (match p with RuWake | WuWakeW | WuWakeR _ => Wakes q | _ => Proceed end) (goto i p l s) with
       | Next s' => solo n i q s' | _ => None
       end.
Proof.
  intros Hi. cbn [solo]. unfold step. assert (E : pcs (goto i p l s) !! i = Some p) by (apply list_lookup_insert_eq; exact Hi).
  by rewrite !E.
Qed.

Ltac go := rewrite solo_goto by done; cbn [settled step_pc step_rdlock step_wrlock step_rdunlock step_wrunlock step_ignore];
  rewrite ?rw_goto, ?goto_goto.

Lemma decide_refl_status {A} (x : DmtcpRWLockStatus) (a b : A) : (if decide (x = x) then a else b) = a.
Proof. by rewrite decide_True. Qed.

Section calls.
Context (s : State) (i : nat).
Hypothesis Hi : (i < length (pcs s))%nat.
Let l := rw s.
Let st := status l.

Lemma rdlock_solo q : writerTid l <> tid i ->
  solo 14 i q (goto i RdCheck l s) =
  Some (if 0 <? nWriters st
        then goto i (RdSleep (readerFutex l)) (l <| status := st <| nReadersQueued := to_int10 (nReadersQueued st + 1) |> |>) s
        else goto i Reading (l <| status := st <| nReaders := to_int10 (nReaders st + 1) |> |>) s).
Proof.
  intros Ht. go. rewrite (proj2 (Z.eqb_neq _ _) Ht). go. go. go. rewrite decide_refl_status. fold st.
  destruct (0 <? nWriters st).
  - go. rsimpl. rewrite Z.eqb_refl. by go.
  - by go.
Qed.

Lemma wrlock_solo q : writerTid l <> tid i ->
  let new := st <| nWriters := to_int10 (nWriters st + 1) |> in
  solo 14 i q (goto i WrCheck l s) =
  Some (if (1 <? nWriters new) || (0 <? nReaders new)
        then goto i (WrSleep (writerFutex l)) (l <| status := new |>) s
        else goto i Writing (l <| status := new |> <| writerTid := tid i |>) s).
Proof.
  intros Ht new. go. rewrite (proj2 (Z.eqb_neq _ _) Ht). go. go. go. rewrite decide_refl_status. fold st. fold new.
  destruct ((1 <? nWriters new) || (0 <? nReaders new)).
  - go. rsimpl. rewrite Z.eqb_refl. by go.
  - go. by go.
Qed.

Lemma relock_solo q : writerTid l = tid i ->
  solo 14 i q (goto i RdCheck l s) = Some (goto i Writing l s) /\
  solo 14 i q (goto i WrCheck l s) = Some (goto i Writing l s).
Proof. intros Ht. split; go; rewrite (proj2 (Z.eqb_eq _ _) Ht); by go. Qed.

Lemma ignore_solo q :
  solo 14 i q (goto i RiLoad l s) = Some (goto i Reading (l <| status := st <| nReaders := to_int10 (nReaders st + 1) |> |>) s).
Proof. go. go. rewrite decide_refl_status. by go. Qed.

Lemma rdunlock_solo q : writerTid l <> tid i -> nReaders st <> 0 ->
  let new := st <| nReaders := to_int10 (nReaders st - 1) |> in
  solo 14 i q (goto i UnlCheck l s) =
  if (nReaders new =? 0) && (0 <? nWriters new) then
    match futex_wake 1 wr_sleeps WrOwn q (<[i := RuWake]> (pcs s)) with
    | Some ps => solo 8 i q (goto i Idle (l <| status := new |> <| writerFutex := to_uint32 (writerFutex l + 1) |>)
                        (mk_State (l <| status := new |> <| writerFutex := to_uint32 (writerFutex l + 1) |>) ps))
    | None => None
    end
  else Some (goto i Idle (l <| status := new |>) s).
Proof.
  intros Ht Hr new. go. rewrite (proj2 (Z.eqb_neq _ _) Ht). go. go. fold st. rewrite (proj2 (Z.eqb_neq _ _) Hr), decide_True by done.
  fold new. destruct ((nReaders new =? 0) && (0 <? nWriters new)); [|by go]. go. go. go. cbn [goto pcs].
  rsimpl. destruct (futex_wake _ _ _ _ _) as [ps|]; done.
Qed.

(** The status a write unlock leaves. *)
Definition handed_over (o : DmtcpRWLockStatus) : DmtcpRWLockStatus :=
  let new := o <| nWriters := to_int10 (nWriters o - 1) |> in
  if nWriters new =? 0 then new <| nReaders := nReadersQueued new |> <| nReadersQueued := 0 |> else new.

Lemma wrunlock_solo q : writerTid l = tid i -> nReaders st = 0 ->
  let new := handed_over st in
  let l1 := l <| writerTid := 0 |> <| status := new |> in
  solo 14 i q (goto i UnlCheck l s) =
  if 0 <? nWriters new then
    match futex_wake 1 wr_sleeps WrOwn q (<[i := WuWakeW]> (pcs s)) with
    | Some ps => solo 5 i q (goto i Idle (l1 <| writerFutex := to_uint32 (writerFutex l + 1) |>)
                        (mk_State (l1 <| writerFutex := to_uint32 (writerFutex l + 1) |>) ps))
    | None => None
    end
  else
    match futex_wake (to_uint32 (nReaders new)) rd_sleeps Reading q (<[i := WuWakeR (nReaders new)]> (pcs s)) with
    | Some ps => solo 5 i q (goto i Idle (l1 <| readerFutex := to_uint32 (readerFutex l + 1) |>)
                        (mk_State (l1 <| readerFutex := to_uint32 (readerFutex l + 1) |>) ps))
    | None => None
    end.
Proof.
  intros Ht Hr new l1. go. rewrite (proj2 (Z.eqb_eq _ _) Ht). go. rewrite (proj2 (Z.eqb_eq _ _) Ht). go. fold st.
  rewrite (proj2 (Z.eqb_eq _ _) Hr). go. go. go. rsimpl. rewrite decide_refl_status. fold st.
  change (if to_int10 (nWriters st - 1) =? 0 then _ else _) with new. fold l1.
  destruct (0 <? nWriters new); go; go; go; cbn [goto pcs]; rsimpl; destruct (futex_wake _ _ _ _ _) as [ps|]; done.
Qed.
End calls.

(** *** Wake-ups *)

Lemma wake_cnt f b asleep up q : (forall p, asleep p = true -> f p = b) ->
  forall ps ps', wake asleep up q ps = Some ps' ->
  (cnt f ps' + length q * Nat.b2n b = cnt f ps + length q * Nat.b2n (f up))%nat.
Proof.
  intros Hb. induction q as [|j q IH]; intros ps ps' E; [by injection E as <-|]. cbn in E.
  destruct (ps !! j) as [p|] eqn:Hj; [|done]. destruct (asleep p) eqn:Ha; [|done].
  apply IH in E. pose proof (cnt_insert f ps j p up Hj) as Hc. rewrite (Hb p Ha) in Hc. cbn [length]. lia.
Qed.

Lemma wake_lookup asleep up q : forall ps ps' j, wake asleep up q ps = Some ps' ->
  ps' !! j = ps !! j \/ (exists p, ps !! j = Some p /\ asleep p = true) /\ ps' !! j = Some up.
Proof.
  induction q as [|k q IH]; intros ps ps' j E; [injection E as <-; by left|]. cbn in E.
  destruct (ps !! k) as [p|] eqn:Hk; [|done]. destruct (asleep p) eqn:Ha; [|done].
  destruct (decide (j = k)) as [->|Hne].
  - right. split; [by exists p|]. assert (Hlt : (k < length ps)%nat) by (by eapply lookup_lt_Some).
    destruct (IH _ _ k E) as [-> |[_ ?]]; [by apply list_lookup_insert_eq|done].
  - destruct (IH _ _ j E) as [-> |[(p' & Hp' & Ha') ?]]; [left; by apply list_lookup_insert_ne|].
    right. split; [|done]. exists p'. by rewrite list_lookup_insert_ne in Hp'.
Qed.

Lemma wake_length asleep up q : forall ps ps', wake asleep up q ps = Some ps' -> length ps' = length ps.
Proof.
  induction q as [|k q IH]; intros ps ps' E; [by injection E as <-|]. cbn in E.
  destruct (ps !! k) as [p|] eqn:Hk; [|done]. destruct (asleep p); [|done]. apply IH in E. by rewrite length_insert in E.
Qed.

Lemma wake_exists asleep up : asleep up = false -> forall n ps, (n <= cnt asleep ps)%nat ->
  exists q ps', length q = n /\ wake asleep up q ps = Some ps'.
Proof.
  intros Hup. induction n as [|n IH]; intros ps Hn; [by exists [], ps|].
  assert (Hex : exists j p, ps !! j = Some p /\ asleep p = true).
  { clear -Hn. induction ps as [|p ps IHp]; [cbn in Hn; lia|]. destruct (asleep p) eqn:Ha; [by exists 0%nat, p|].
    rewrite cnt_cons, Ha in Hn. destruct IHp as (j & p' & ? & ?); [cbn in Hn; lia|]. by exists (S j), p'. }
  destruct Hex as (j & p & Hj & Ha). pose proof (cnt_insert asleep ps j p up Hj) as Hc. rewrite Ha, Hup in Hc. cbn in Hc.
  destruct (IH (<[j := up]> ps)) as (q & ps' & Hq & E); [lia|]. exists (j :: q), ps'. cbn. by rewrite Hq, Hj, Ha.
Qed.

Lemma futex_wake_exists n asleep up ps : asleep up = false -> 0 <= n ->
  exists q ps', futex_wake n asleep up q ps = Some ps'.
Proof.
  intros Hup Hn. destruct (wake_exists asleep up Hup (Z.to_nat (Z.min n (Z.of_nat (cnt asleep ps)))) ps) as (q & ps' & Hq & E);
    [lia|]. exists q, ps'. unfold futex_wake. rewrite Hq, Z2Nat.id, Z.eqb_refl by lia. done.
Qed.

Lemma futex_wake_inv n asleep up q ps ps' : futex_wake n asleep up q ps = Some ps' ->
  Z.of_nat (length q) = Z.min n (Z.of_nat (cnt asleep ps)) /\ wake asleep up q ps = Some ps'.
Proof. unfold futex_wake. destruct (Z.eqb_spec (Z.of_nat (length q)) (Z.min n (Z.of_nat (cnt asleep ps)))); done. Qed.

(** *** One thread settles elsewhere *)

Lemma tid_inj i j : tid i = tid j -> i = j.
Proof. unfold tid. lia. Qed.

Lemma sinv_goto l ps i p p' l' : sinv l ps -> ps !! i = Some p -> quiet p' = true ->
  (forall j, j <> i -> writerTid l' = tid j <-> writerTid l = tid j) -> (writerTid l' = tid i <-> p' = Writing) ->
  let c f := (Z.of_nat (cnt f ps) - Z.of_nat (Nat.b2n (f p)) + Z.of_nat (Nat.b2n (f p'))) in
  nReaders (status l') = c is_reading -> nWriters (status l') = c registered -> nReadersQueued (status l') = c rd_sleeps ->
  (c w_active = 0 \/ (c w_active = 1 /\ c is_reading = 0)) -> (c w_active + c is_reading = 0 -> c wr_sleeps = 0) ->
  (c registered = 0 -> c rd_sleeps = 0) -> sinv l' (<[i := p']> ps).
Proof.
  intros H Hi Hq Ht Hti c H1 H2 H3 H4 H5 H6.
  assert (Hc : forall f, Z.of_nat (cnt f (<[i := p']> ps)) = c f).
  { intros f. pose proof (cnt_insert f ps i p p' Hi). unfold c. lia. }
  assert (Hlt : (i < length ps)%nat) by (by eapply lookup_lt_Some).
  split.
  - intros j x. rewrite list_lookup_insert_Some. intros [(_ & <- & _)|[_ Hx]]; [done|by eapply (q_quiet _ _ H)].
  - by rewrite Hc.
  - by rewrite Hc.
  - by rewrite Hc.
  - pose proof (Hc w_active). pose proof (Hc is_reading). destruct H4 as [?|[? ?]]; lia.
  - pose proof (Hc w_active). pose proof (Hc is_reading). pose proof (Hc wr_sleeps). lia.
  - pose proof (Hc registered). pose proof (Hc rd_sleeps). lia.
  - intros j. destruct (decide (j = i)) as [->|Hne].
    + rewrite list_lookup_insert_eq by done. rewrite Hti. split; congruence.
    + rewrite list_lookup_insert_ne by done. rewrite (Ht j Hne). apply (q_tid _ _ H).
Qed.

(** *** One thread leaves and wakes others *)

Lemma sinv_wake l ps i p x asleep up sl q ps2 l' :
  sinv l ps -> ps !! i = Some p -> wake asleep up q (<[i := x]> ps) = Some ps2 ->
  (forall y, asleep y = true -> exists w, y = sl w) -> quiet x = false -> asleep x = false -> quiet up = true -> up <> Writing ->
  (forall w, quiet (sl w) = true /\ sl w <> Writing) ->
  (forall f, f = is_reading \/ f = registered \/ f = rd_sleeps \/ f = w_active \/ f = wr_sleeps ->
     f x = false /\ forall w, f (sl w) = f (sl 0)) ->
  (forall j, j <> i -> writerTid l' = tid j <-> writerTid l = tid j) -> writerTid l' <> tid i ->
  let c f := (Z.of_nat (cnt f ps) - Z.of_nat (Nat.b2n (f p)) +
              Z.of_nat (length q) * (Z.of_nat (Nat.b2n (f up)) - Z.of_nat (Nat.b2n (f (sl 0))))) in
  nReaders (status l') = c is_reading -> nWriters (status l') = c registered -> nReadersQueued (status l') = c rd_sleeps ->
  (c w_active = 0 \/ (c w_active = 1 /\ c is_reading = 0)) -> (c w_active + c is_reading = 0 -> c wr_sleeps = 0) ->
  (c registered = 0 -> c rd_sleeps = 0) -> sinv l' (<[i := Idle]> ps2).
Proof.
  intros H Hi Hw Hsl Hqx Hax Hqu Hnw Hsw Hf Ht Hti c H1 H2 H3 H4 H5 H6.
  assert (Hlt : (i < length ps)%nat) by (by eapply lookup_lt_Some).
  pose proof (wake_length _ _ _ _ _ Hw) as Hlen. rewrite length_insert in Hlen.
  assert (Hxi : ps2 !! i = Some x).
  { destruct (wake_lookup _ _ _ _ _ i Hw) as [-> |[(y & Hy & Ha) _]]; [by apply list_lookup_insert_eq|].
    rewrite list_lookup_insert_eq in Hy by done. injection Hy as <-. congruence. }
  assert (Hc : forall f, f = is_reading \/ f = registered \/ f = rd_sleeps \/ f = w_active \/ f = wr_sleeps ->
            f Idle = false -> Z.of_nat (cnt f (<[i := Idle]> ps2)) = c f).
  { intros f Hff HI. destruct (Hf f Hff) as [Hfx Hfs]. pose proof (cnt_insert f ps2 i x Idle Hxi) as E1.
    pose proof (cnt_insert f ps i p x Hi) as E2.
    assert (E3 := wake_cnt f (f (sl 0)) asleep up q (fun y Ha => match Hsl y Ha with ex_intro _ w E => eq_trans (f_equal f E) (Hfs w) end) _ _ Hw).
    rewrite Hfx in *. rewrite HI in E1. unfold c. cbn [Nat.b2n] in *. nia. }
  assert (Hcs := conj (Hc is_reading ltac:(tauto) eq_refl) (conj (Hc registered ltac:(tauto) eq_refl)
    (conj (Hc rd_sleeps ltac:(tauto) eq_refl) (conj (Hc w_active ltac:(tauto) eq_refl) (Hc wr_sleeps ltac:(tauto) eq_refl))))).
  destruct Hcs as (C1 & C2 & C3 & C4 & C5). clear Hc. split.
  - intros j y. rewrite list_lookup_insert_Some. intros [(_ & <- & _)|[Hne Hy]]; [done|].
    destruct (wake_lookup _ _ _ _ _ j Hw) as [E|[_ E]]; rewrite E in Hy.
    + rewrite list_lookup_insert_ne in Hy by done. by eapply (q_quiet _ _ H).
    + by injection Hy as <-.
  - by rewrite C1.
  - by rewrite C2.
  - by rewrite C3.
  - destruct H4 as [?|[? ?]]; lia.
  - lia.
  - lia.
  - intros j. destruct (decide (j = i)) as [->|Hne].
    + rewrite list_lookup_insert_eq by lia. split; [done|discriminate].
    + rewrite list_lookup_insert_ne, (Ht j Hne), (q_tid _ _ H) by done.
      destruct (wake_lookup _ _ _ _ _ j Hw) as [E|[(y & Hy & Ha) E]]; rewrite E.
      * by rewrite list_lookup_insert_ne.
      * rewrite list_lookup_insert_ne in Hy by done. rewrite Hy. destruct (Hsl y Ha) as [w ->].
        destruct (Hsw w) as [_ Hn]. split; congruence.
Qed.

(** *** Each call *)

Definition sok (s : State) : Prop := sinv (rw s) (pcs s).

(** The call returns or sleeps, for some choice of the sleepers it wakes, and
    whatever the choice, all is well afterwards. *)
Definition call_ok (i : nat) (s s1 : State) : Prop :=
  (forall q s', solo 14 i q s1 = Some s' -> sok s' /\ length (pcs s') = length (pcs s)) /\
  exists q s', solo 14 i q s1 = Some s'.

Section preserve.
Context (s : State) (i : nat) (p : pc).
Hypothesis Hs : sok s.
Hypothesis Hi : pcs s !! i = Some p.
Hypothesis Hn : (length (pcs s) < 512)%nat.

Let l := rw s.

Lemma Hlt : (i < length (pcs s))%nat.
Proof. by eapply lookup_lt_Some. Qed.

Lemma not_writer : p <> Writing -> writerTid (rw s) <> tid i.
Proof. intros Hp E. apply (q_tid _ _ Hs) in E. congruence. Qed.

(** A call whose end does not depend on the sleepers. *)
Lemma call_ok_det s1 s2 : (forall q, solo 14 i q s1 = Some s2) -> sok s2 -> length (pcs s2) = length (pcs s) -> call_ok i s s1.
Proof. intros E H1 H2. split; [intros q s' E'; rewrite E in E'; by injection E' as <-|]. exists [], s2. apply E. Qed.

Ltac fields := rewrite ?(q_readers _ _ Hs), ?(q_writers _ _ Hs), ?(q_queued _ _ Hs).

(** The counts, their bounds, and the counts of a reader, a writer, a sleeper more. *)
Lemma bounds : (cnt is_reading (pcs s) < 512 /\ cnt registered (pcs s) < 512 /\ cnt rd_sleeps (pcs s) < 512)%nat /\
  cnt registered (pcs s) = (cnt w_active (pcs s) + cnt wr_sleeps (pcs s))%nat /\
  (forall f, f p = true -> 0 < cnt f (pcs s))%nat /\
  (forall f, f p = false -> cnt f (pcs s) < 511)%nat.
Proof.
  pose proof (cnt_le is_reading (pcs s)). pose proof (cnt_le registered (pcs s)). pose proof (cnt_le rd_sleeps (pcs s)).
  split_and!; try lia; [apply registered_split| |].
  - intros f Hf. eapply cnt_pos; [by eapply list_elem_of_lookup_2|done].
  - intros f Hf. pose proof (cnt_insert (fun _ => true) (pcs s) i p p Hi).
    assert (E : (cnt f (pcs s) < length (pcs s))%nat); [|lia].
    pose proof (cnt_le f (pcs s)). destruct (decide (cnt f (pcs s) = length (pcs s))) as [E|]; [|lia].
    rewrite cnt_all in E. rewrite (E p) in Hf; [done|by eapply list_elem_of_lookup_2].
Qed.

Lemma rdlock_ok : p = Idle -> call_ok i s (goto i RdCheck (rw s) s).
Proof.
  intros Hp. pose proof Hlt as Hl. pose proof bounds as (Hb & Hsp & _ & Hb2). pose proof Hi as Hi'. rewrite Hp in Hi', Hb2.
  pose proof (Hb2 is_reading eq_refl) as B1. pose proof (Hb2 rd_sleeps eq_refl) as B2.
  eapply call_ok_det; [intros q; apply rdlock_solo; [done|apply not_writer; by rewrite Hp]| |by destruct (0 <? _); apply length_insert].
  pose proof (q_excl _ _ Hs). pose proof (q_served _ _ Hs). pose proof (q_behind _ _ Hs). pose proof (not_writer ltac:(by rewrite Hp)).
  fields; destruct (Z.ltb_spec 0 (Z.of_nat (cnt registered (pcs s)))) as [Hw|Hw]; unfold sok; cbn [goto rw pcs].
  all: apply (sinv_goto (rw s) (pcs s) i Idle); try done; rsimpl; rsimpl; fields; cbn;
    rewrite ?int10_small by lia; try lia. all: split; [done|discriminate].
Qed.

Ltac settle := rsimpl; rsimpl; fields; cbn; rewrite ?int10_small by lia; try lia.

Lemma wrlock_ok : p = Idle -> call_ok i s (goto i WrCheck (rw s) s).
Proof.
  intros Hp. pose proof Hlt as Hl. pose proof bounds as (Hb & Hsp & _ & Hb2). pose proof Hi as Hi'. rewrite Hp in Hi', Hb2.
  pose proof (Hb2 registered eq_refl) as B1.
  eapply call_ok_det; [intros q; apply wrlock_solo; [done|apply not_writer; by rewrite Hp]| |by destruct (_ || _); apply length_insert].
  pose proof (q_excl _ _ Hs). pose proof (q_served _ _ Hs). pose proof (q_behind _ _ Hs). pose proof (not_writer ltac:(by rewrite Hp)).
  rsimpl. fields. rewrite int10_small by lia.
  destruct (Z.ltb_spec 1 (Z.of_nat (cnt registered (pcs s)) + 1)) as [Hw|Hw], (Z.ltb_spec 0 (Z.of_nat (cnt is_reading (pcs s)))) as [Hr|Hr];
    unfold sok; cbn [goto rw pcs orb].
  all: apply (sinv_goto (rw s) (pcs s) i Idle); try done; settle.
  intros j Hne. split; [intros E%tid_inj; congruence|]. intros E. apply (q_tid _ _ Hs) in E.
  exfalso. assert (Hz : cnt w_active (pcs s) = 0%nat) by lia. rewrite cnt_zero in Hz.
  by pose proof (Hz Writing (list_elem_of_lookup_2 _ _ _ E)).
Qed.

Lemma ignore_ok : p = Idle -> existsb is_reading (pcs s) = true -> call_ok i s (goto i RiLoad (rw s) s).
Proof.
  intros Hp Hr. pose proof Hlt as Hl. pose proof bounds as (Hb & Hsp & _ & Hb2). pose proof Hi as Hi'. rewrite Hp in Hi', Hb2.
  pose proof (Hb2 is_reading eq_refl) as B1. apply existsb_exists in Hr as (x & Hx%list_elem_of_In & Hxr).
  pose proof (cnt_pos is_reading (pcs s) x Hx Hxr).
  eapply call_ok_det; [intros q; by apply ignore_solo| |apply length_insert].
  pose proof (q_excl _ _ Hs). pose proof (q_served _ _ Hs). pose proof (q_behind _ _ Hs). pose proof (not_writer ltac:(by rewrite Hp)).
  unfold sok; cbn [goto rw pcs]. apply (sinv_goto (rw s) (pcs s) i Idle); try done; settle.
Qed.

Lemma relock_ok : p = Writing -> call_ok i s (goto i RdCheck (rw s) s) /\ call_ok i s (goto i WrCheck (rw s) s).
Proof.
  intros Hp. pose proof Hi as Hi'. rewrite Hp in Hi'. apply (q_tid _ _ Hs) in Hi' as Ht.
  assert (E : goto i Writing (rw s) s = s) by (unfold goto; rewrite (list_insert_id _ _ _ Hi'); by destruct s).
  split; (eapply call_ok_det; [intros q; by apply (relock_solo s i Hlt q Ht)|by rewrite E|by rewrite E]).
Qed.

(** The end of an unlock: the thread is idle. *)
Lemma solo_idle n q lk ps : (i < length ps)%nat ->
  solo (S n) i q (goto i Idle lk (mk_State lk ps)) = Some (mk_State lk (<[i := Idle]> ps)).
Proof. intros H. by rewrite solo_goto. Qed.

Lemma wr_wake_ok x lk q ps2 : quiet x = false -> wr_sleeps x = false -> registered x = false ->
  is_reading x = false -> rd_sleeps x = false ->
  futex_wake 1 wr_sleeps WrOwn q (<[i := x]> (pcs s)) = Some ps2 ->
  (forall j, j <> i -> writerTid lk = tid j <-> writerTid (rw s) = tid j) -> writerTid lk <> tid i ->
  let c f := Z.of_nat (cnt f (pcs s)) - Z.of_nat (Nat.b2n (f p)) in
  c w_active + c is_reading = 0 -> 0 < c registered -> wr_sleeps p = false -> rd_sleeps p = false ->
  nReaders (status lk) = 0 -> nWriters (status lk) = c registered -> nReadersQueued (status lk) = c rd_sleeps ->
  sok (mk_State lk (<[i := Idle]> ps2)) /\ length (<[i := Idle]> ps2) = length (pcs s).
Proof.
  intros Hqx Hwx Hgx Hrx Hdx Hw Ht Hti c H1 H2 Hpw Hpr H3 H4 H5. apply futex_wake_inv in Hw as [Hq Hw].
  pose proof (wake_length _ _ _ _ _ Hw) as Hlen. rewrite length_insert in Hlen. rewrite length_insert. split; [|done].
  pose proof (cnt_insert wr_sleeps (pcs s) i p x Hi) as E1. rewrite Hpw, Hwx in E1.
  pose proof (registered_split (pcs s)) as Hsp. unfold registered in Hgx at 1. rewrite Hwx, orb_false_r in Hgx.
  assert (E2 : Nat.b2n (registered p) = Nat.b2n (w_active p)) by (unfold registered; by rewrite Hpw, orb_false_r).
  assert (Ec : cnt wr_sleeps (<[i := x]> (pcs s)) = cnt wr_sleeps (pcs s)) by (cbn in E1; lia). rewrite Ec in Hq.
  pose proof (q_behind _ _ Hs). unfold sok. cbn [rw pcs]. unfold c in *.
  assert (Hc0 : Z.of_nat (cnt w_active (pcs s)) - Z.of_nat (Nat.b2n (w_active p)) = 0 /\
                Z.of_nat (cnt is_reading (pcs s)) - Z.of_nat (Nat.b2n (is_reading p)) = 0).
  { destruct bounds as (_ & _ & Hb & _). pose proof (Hb w_active). pose proof (Hb is_reading).
    destruct (w_active p), (is_reading p); cbn in *; lia. }
  assert (Hl1 : Z.of_nat (length q) = 1) by lia.
  apply (sinv_wake (rw s) (pcs s) i p x wr_sleeps WrOwn WrSleep q ps2 lk); try done; rewrite ?Hl1; cbn [Nat.b2n]; cbn; try lia.
  - intros []; try done. intros _. by eexists.
  - intros f [-> |[-> |[-> |[-> | ->]]]]; split; try done. unfold registered. by rewrite Hgx.
Qed.

Lemma wake_total n asleep up x : asleep up = false -> 0 <= n ->
  exists q ps, futex_wake n asleep up q (<[i := x]> (pcs s)) = Some ps /\ (i < length ps)%nat.
Proof.
  intros Hu H0. destruct (futex_wake_exists n asleep up (<[i := x]> (pcs s)) Hu H0) as (q & ps & E). exists q, ps. split; [done|].
  apply futex_wake_inv in E as [_ E]. rewrite (wake_length _ _ _ _ _ E), length_insert. apply Hlt.
Qed.

(** A call that ends with a wake-up. *)
Lemma call_ok_wake s1 n asleep up x lk k : (forall q, solo 14 i q s1 =
    match futex_wake n asleep up q (<[i := x]> (pcs s)) with
    | Some ps => solo (S k) i q (goto i Idle lk (mk_State lk ps)) | None => None end) ->
  asleep up = false -> 0 <= n ->
  (forall q ps, futex_wake n asleep up q (<[i := x]> (pcs s)) = Some ps ->
     sok (mk_State lk (<[i := Idle]> ps)) /\ length (<[i := Idle]> ps) = length (pcs s)) -> call_ok i s s1.
Proof.
  intros E Hu H0 H. split.
  - intros q s' E'. rewrite E in E'. destruct (futex_wake n asleep up q (<[i := x]> (pcs s))) as [ps|] eqn:Ew; [|done].
    destruct (H q ps Ew) as [H1 H2]. rewrite solo_idle in E' by (rewrite length_insert in H2; rewrite H2; apply Hlt).
    by injection E' as <-.
  - destruct (wake_total n asleep up x Hu H0) as (q & ps & Ew & Hl). exists q. rewrite E, Ew, solo_idle by done. by eexists.
Qed.

Lemma rdunlock_ok : p = Reading -> call_ok i s (goto i UnlCheck (rw s) s).
Proof.
  intros Hp. pose proof Hlt as Hl. pose proof bounds as (Hb & Hsp & Hb1 & _). pose proof Hi as Hi'. rewrite Hp in Hi'.
  pose proof (Hb1 is_reading) as B1. rewrite Hp in B1. specialize (B1 eq_refl). clear Hb1.
  pose proof (not_writer ltac:(by rewrite Hp)) as Hnw.
  assert (Hr0 : nReaders (status (rw s)) <> 0) by (fields; lia).
  pose proof (fun q => rdunlock_solo s i Hl q Hnw Hr0) as E. cbv zeta in E.
  pose proof (q_excl _ _ Hs). pose proof (q_served _ _ Hs). pose proof (q_behind _ _ Hs).
  set (new := (status (rw s)) <| nReaders := to_int10 (nReaders (status (rw s)) - 1) |>) in E.
  assert (En : nReaders new = Z.of_nat (cnt is_reading (pcs s)) - 1) by (unfold new; rsimpl; fields; apply int10_small; lia).
  assert (Ew : nWriters new = Z.of_nat (cnt registered (pcs s))) by (unfold new; rsimpl; by fields).
  assert (Eq : nReadersQueued new = Z.of_nat (cnt rd_sleeps (pcs s))) by (unfold new; rsimpl; by fields).
  clearbody new. rewrite En, Ew in E. pose proof (cnt_le wr_sleeps (pcs s)).
  destruct (Z.eqb_spec (Z.of_nat (cnt is_reading (pcs s)) - 1) 0) as [Z0|Z0], (Z.ltb_spec 0 (Z.of_nat (cnt registered (pcs s)))) as [Z1|Z1];
    cbn [andb] in E.
  1: eapply call_ok_wake; [exact E|done|lia|]; intros q ps Hw;
    eapply (wr_wake_ok RuWake); try done; rewrite ?Hp; rsimpl; rewrite ?En, ?Ew, ?Eq; cbn; lia || done.
  all: eapply call_ok_det; [exact E| |apply length_insert]; unfold sok; cbn [goto rw pcs];
    apply (sinv_goto (rw s) (pcs s) i Reading); try done; rsimpl; rewrite ?En, ?Ew, ?Eq; cbn; lia || done.
Qed.

Lemma rd_wake_ok n lk q ps2 : p = Writing -> n = Z.of_nat (cnt rd_sleeps (pcs s)) ->
  futex_wake (to_uint32 n) rd_sleeps Reading q (<[i := WuWakeR n]> (pcs s)) = Some ps2 -> writerTid lk = 0 ->
  cnt registered (pcs s) = 1%nat ->
  nReaders (status lk) = n -> nWriters (status lk) = 0 -> nReadersQueued (status lk) = 0 ->
  sok (mk_State lk (<[i := Idle]> ps2)) /\ length (<[i := Idle]> ps2) = length (pcs s).
Proof.
  intros Hp Hnn Hw Ht H1 H3 H4 H5. apply futex_wake_inv in Hw as [Hq Hw]. pose proof Hi as Hi'. rewrite Hp in Hi'.
  pose proof (wake_length _ _ _ _ _ Hw) as Hlen. rewrite length_insert in Hlen. rewrite length_insert. split; [|done].
  pose proof (cnt_insert rd_sleeps (pcs s) i Writing (WuWakeR n) Hi') as E1. cbn in E1.
  pose proof bounds as (Hb & Hsp & Hb1 & _). pose proof (Hb1 w_active) as B1. rewrite Hp in B1. specialize (B1 eq_refl).
  unfold to_uint32, wrap_u in Hq. rewrite Z.mod_small in Hq by lia.
  assert (Hl1 : Z.of_nat (length q) = Z.of_nat (cnt rd_sleeps (pcs s))) by lia.
  pose proof (q_excl _ _ Hs). unfold sok. cbn [rw pcs].
  apply (sinv_wake (rw s) (pcs s) i Writing (WuWakeR n) rd_sleeps Reading RdSleep q ps2 lk); try done; rewrite ?Hl1; cbn; try lia.
  - intros []; try done. intros _. by eexists.
  - intros f [-> |[-> |[-> |[-> | ->]]]]; split; done.
  - intros j Hne. rewrite Ht, (q_tid _ _ Hs). split; [unfold tid; lia|]. intros Hj. exfalso. apply Hne.
    eapply (cnt_one w_active (pcs s) j i Writing Writing); try done. lia.
  - rewrite Ht. unfold tid. lia.
Qed.

Lemma wrunlock_ok : p = Writing -> call_ok i s (goto i UnlCheck (rw s) s).
Proof.
  intros Hp. pose proof Hlt as Hl. pose proof bounds as (Hb & Hsp & Hb1 & _). pose proof Hi as Hi'. rewrite Hp in Hi'.
  pose proof (Hb1 w_active) as B1. rewrite Hp in B1. specialize (B1 eq_refl). clear Hb1.
  pose proof (q_excl _ _ Hs). pose proof (q_served _ _ Hs). pose proof (q_behind _ _ Hs).
  apply (q_tid _ _ Hs) in Hi' as Ht. assert (Hr0 : nReaders (status (rw s)) = 0) by (fields; lia).
  pose proof (fun q => wrunlock_solo s i Hl q Ht Hr0) as E. cbv zeta in E.
  set (new := handed_over (status (rw s))) in E.
  assert (Hnew : new = if decide (cnt registered (pcs s) = 1%nat) then mk_Status (Z.of_nat (cnt rd_sleeps (pcs s))) 0 0
                       else mk_Status 0 (Z.of_nat (cnt registered (pcs s)) - 1) (Z.of_nat (cnt rd_sleeps (pcs s)))).
  { unfold new, handed_over. rsimpl. fields. rewrite int10_small by lia. destruct (decide _) as [E1|E1].
    - rewrite E1. unfold set_field. cbn. fields. by rewrite ?E1.
    - destruct (Z.eqb_spec (Z.of_nat (cnt registered (pcs s)) - 1) 0); [lia|]. unfold set_field. cbn. fields.
      by rewrite (q_readers _ _ Hs) in Hr0; rewrite Hr0. }
  clearbody new. destruct (decide (cnt registered (pcs s) = 1%nat)) as [E1|E1]; subst new; cbn [nWriters nReaders] in E.
  - eapply call_ok_wake; [exact E|done| |].
    + unfold to_uint32, wrap_u. apply Z.mod_pos_bound. lia.
    + intros q ps Hw. eapply rd_wake_ok; try done.
  - destruct (Z.ltb_spec 0 (Z.of_nat (cnt registered (pcs s)) - 1)); [|lia].
    eapply call_ok_wake; [exact E|done|lia|]. intros q ps Hw.
    eapply (wr_wake_ok WuWakeW); try done; rewrite ?Hp; rsimpl; cbn; try lia.
    + intros j Hne. rewrite (q_tid _ _ Hs). split; [unfold tid; lia|]. intros Hj. exfalso. apply Hne.
      eapply (cnt_one w_active (pcs s) j i Writing Writing); try done. lia.
    + unfold tid. lia.
Qed.
End preserve.

Lemma call_preserves s i o s1 : sok s -> (length (pcs s) < 512)%nat -> step i (Call o) s = Next s1 -> call_ok i s s1.
Proof.
  intros Hs Hn E. unfold step in E. destruct (pcs s !! i) as [p|] eqn:Hi; [|done].
  pose proof (rdlock_ok s i p Hs Hi Hn) as H1. pose proof (wrlock_ok s i p Hs Hi Hn) as H2.
  pose proof (ignore_ok s i p Hs Hi Hn) as H3. pose proof (relock_ok s i p Hs Hi) as H4.
  pose proof (rdunlock_ok s i p Hs Hi Hn) as H5. pose proof (wrunlock_ok s i p Hs Hi Hn) as H6.
  destruct p; cbn [step_pc step_rdlock step_wrlock step_rdunlock step_wrunlock step_ignore] in E; try discriminate E;
    destruct o; cbn [step_call] in E; try discriminate E.
  2:{ change (fun p => match p with Reading => true | _ => false end) with is_reading in E.
      destruct (existsb is_reading (pcs s)); [|done]. injection E as <-. by apply H3. }
  all: injection E as <-; auto; by apply H4.
Qed.

Lemma resume_preserves s i s' : sok s -> serial_resume i s = Some s' -> sok s' /\ length (pcs s') = length (pcs s).
Proof.
  intros Hs E. unfold serial_resume in E. destruct (pcs s !! i) as [p|] eqn:Hi; [|done]. destruct p; try discriminate E.
  cbn [solo] in E. rewrite Hi in E. cbn [settled] in E. unfold step in E. rewrite Hi in E. cbn [step_pc step_wrlock] in E.
  assert (Hl : (i < length (pcs s))%nat) by (by eapply lookup_lt_Some).
  assert (E1 : pcs (goto i Writing (rw s) <| writerTid := tid i |> s) !! i = Some Writing) by by apply list_lookup_insert_eq.
  rewrite E1 in E. cbn [settled] in E. injection E as <-. split; [|apply length_insert].
  pose proof (cnt_pos w_active (pcs s) WrOwn (list_elem_of_lookup_2 _ _ _ Hi) eq_refl).
  pose proof (q_excl _ _ Hs). pose proof (q_served _ _ Hs). pose proof (q_behind _ _ Hs).
  unfold sok. cbn [goto rw pcs]. apply (sinv_goto (rw s) (pcs s) i WrOwn); try done; rsimpl;
    rewrite ?(q_readers _ _ Hs), ?(q_writers _ _ Hs), ?(q_queued _ _ Hs); cbn; try lia.
  intros j Hne. split; [intros E%tid_inj; congruence|]. intros E%(q_tid _ _ Hs). exfalso. apply Hne.
  eapply (cnt_one w_active (pcs s) j i Writing WrOwn); try done. lia.
Qed.

Lemma cnt_repeat_idle f n : f Idle = false -> cnt f (repeat Idle n) = 0%nat.
Proof. intros H. apply cnt_zero. intros x Hx%list_elem_of_In%repeat_spec. by subst. Qed.

Lemma serial_ok n s : (n < 512)%nat -> serial n s -> sok s /\ length (pcs s) = n.
Proof.
  intros Hn. induction 1 as [|s i o q s' _ [IH1 IH2] E|s i s' _ [IH1 IH2] E].
  - split; [|apply repeat_length]. split; cbn [init rw pcs DmtcpRWLockInit status nReaders nWriters nReadersQueued writerTid];
      rewrite ?cnt_repeat_idle by done; try done; [|by left|].
    + intros i p Hi. apply list_elem_of_lookup_2, list_elem_of_In, repeat_spec in Hi. by subst.
    + intros i. split; [unfold tid; lia|]. intros Hi. apply list_elem_of_lookup_2, list_elem_of_In, repeat_spec in Hi. done.
  - unfold serial_call in E. destruct (step i (Call o) s) as [s1| |] eqn:E1; try done.
    destruct (call_preserves s i o s1 IH1 ltac:(lia) E1) as [H _]. destruct (H q s' E) as [? ->]. done.
  - destruct (resume_preserves s i s' IH1 E) as [? ->]. done.
Qed.

(** ** Theorems *)

(** Calls that do not overlap keep the lock's promise: with fewer than 512
    threads, after any sequence of calls that each run until they return or sleep,
    there is one writer and no reader or there is no writer; the status word counts
    the readers, the writers with the waiting ones, and the queued readers; somebody
    is inside whenever somebody waits; and every permitted call returns or sleeps
    without failing an ASSERT. *)
Theorem rwlock_serial_calls n s : (n < 512)%nat -> serial n s ->
  (cnt w_active (pcs s) = 0%nat \/ (cnt w_active (pcs s) = 1%nat /\ cnt is_reading (pcs s) = 0%nat)) /\
  status (rw s) = mk_Status (Z.of_nat (cnt is_reading (pcs s))) (Z.of_nat (cnt w_active (pcs s) + cnt wr_sleeps (pcs s)))
                            (Z.of_nat (cnt rd_sleeps (pcs s))) /\
  (0 < cnt wr_sleeps (pcs s) + cnt rd_sleeps (pcs s) -> 0 < cnt w_active (pcs s) + cnt is_reading (pcs s))%nat /\
  (forall i o s1, step i (Call o) s = Next s1 -> exists q s', serial_call i o q s = Some s').
Proof.
  intros Hn Hser. destruct (serial_ok n s Hn Hser) as [Hs Hl]. split_and!.
  - apply (q_excl _ _ Hs).
  - rewrite <- registered_split, <- (q_readers _ _ Hs), <- (q_writers _ _ Hs), <- (q_queued _ _ Hs). by destruct (status (rw s)).
  - pose proof (q_served _ _ Hs). pose proof (q_behind _ _ Hs). pose proof (registered_split (pcs s)). lia.
  - intros i o s1 E. destruct (call_preserves s i o s1 Hs ltac:(lia) E) as [_ (q & s' & H)]. exists q, s'.
    unfold serial_call. by rewrite E.
Qed.

(** A reader inside, a writer and a second reader waiting. *)
Definition ex_busy : State :=
  mk_State (mk_RWLock (mk_Status 1 1 1) 0 0 0) [Reading; WrSleep 0; RdSleep 0].

Lemma ex_busy_serial : serial 3 ex_busy.
Proof.
  apply (serial_calls 3 (mk_State (mk_RWLock (mk_Status 1 1 0) 0 0 0) [Reading; WrSleep 0; Idle]) 2 RdLock []);
    [|vm_compute; reflexivity].
  apply (serial_calls 3 (mk_State (mk_RWLock (mk_Status 1 0 0) 0 0 0) [Reading; Idle; Idle]) 1 WrLock []);
    [|vm_compute; reflexivity].
  apply (serial_calls 3 (init 3) 0 RdLock []); [apply serial_init|vm_compute; reflexivity].
Qed.

Lemma rwlock_serial_calls_witness : exists q s', serial_call 0 Unlock q ex_busy = Some s'.
Proof.
  destruct (rwlock_serial_calls 3 ex_busy) as (_ & _ & _ & H).
  - lia.
  - exact ex_busy_serial.
  - apply (H 0%nat Unlock (goto 0 UnlCheck (rw ex_busy) ex_busy)). reflexivity.
Defined.

(** C35: Calls that overlap do not: with one reader and one writer there is an
    interleaving after which the reader has its read lock and the writer the write
    lock.  The reader reads [readerFutex] and is preempted; the writer unlocks,
    which advances the futex word, and locks again, which gives the status word its
    old value; the reader's compare-and-exchange succeeds, its futex_wait fails with
    EAGAIN, and it takes that for having been woken. *)
Theorem rwlock_reader_joins_writer : exists s, reach (init 2) s /\ pcs s = [Reading; Writing].
Proof.
  eexists. split; [apply (rw_run_reach _ aba _ _ (reach_refl _)); vm_compute; reflexivity|reflexivity].
Qed.

End RWLock.
