(* ===== verification/Threads.v ===== *)
(** * Stopping the threads of a process for a checkpoint (src/threadlist.cpp)

    The checkpoint thread signals every user thread ([suspendThreads]); the handler
    ([stopthisthread]) saves the thread's context, posts a semaphore and waits for a readers-writer
    lock that the checkpoint thread holds until the image is written ([resumeThreads]).  Threads that
    are on their way out are waited for ([waitForExitingThreads]).  What happens after a restart
    is in ThreadRestart.

    A step is one access to what the threads share: a change of a thread's state (under
    [threadStateLock]), a signal, a semaphore or lock operation.  The checkpoint thread holds the wrapper
    lock while it suspends the others, so no thread is created meanwhile and none starts to
    exit ([step_create] and [step_exit] need an idle checkpoint thread); a thread may end at any time while it runs its own code.  The resume lock is used by
    its contract, RWLock shows how far its implementation has it. *)

From Stdlib Require Import ZArith Lia.
From stdpp Require Import base gmap strings numbers list.
From S2P Require Import Prelude.

Module Suspend.

(** ** The state *)

Inductive ThreadState : Type :=
| ST_RUNNING | ST_SIGNALED | ST_SUSPINPROG | ST_SUSPENDED | ST_CKPNTHREAD | ST_THREAD_CREATE.
#[export] Instance ThreadState_eq_dec : EqDecision ThreadState.
Proof. solve_decision. Defined.

(** Where a user thread is: in its own code, or in [stopthisthread] before the call named. *)
Inductive upc : Type := UUser | UHandler | USave | UPost | URdLock | URun | UUnlock.
#[export] Instance upc_eq_dec : EqDecision upc.
Proof. solve_decision. Defined.

(** [struct Thread], with what the kernel knows: whether the thread lives and has the checkpoint signal pending. *)
Record Thread : Type := mk_Thread { th_state : ThreadState; th_exiting : bool; th_alive : bool; th_pending : bool; th_pc : upc }.
#[export] Instance eta_Thread : Settable Thread :=
  {| eta_of t := mk_Thread (th_state t) (th_exiting t) (th_alive t) (th_pending t) (th_pc t) |}.

(** Where the checkpoint thread is: waiting for a request; in [suspendThreads] before the lock, in the scan (with
    the threads that are left and [needrescan]), between the change of state and the signal, in the loop over the
    semaphore; in [waitForExitingThreads]; with all threads stopped. *)
Inductive cpc : Type :=
| CIdle | CInit | CScan (rest : list nat) (needrescan : bool) | CSignal (t : nat) (rest : list nat) (needrescan : bool)
| CWait (n : nat) | CExiting (rest : list nat) (needrescan : bool) | CStopped.

#[export] Instance cpc_eq_dec : EqDecision cpc.
Proof. solve_decision. Defined.

Record State : Type := mk_State {
  threads : gmap nat Thread; activeThreads : list nat; ckptThread : nat; numUserThreads : nat;
  semNotifyCkptThread : nat; writer : bool; readers : nat; c_pc : cpc }.
#[export] Instance eta_State : Settable State :=
  {| eta_of s := mk_State (threads s) (activeThreads s) (ckptThread s) (numUserThreads s) (semNotifyCkptThread s) (writer s) (readers s) (c_pc s) |}.

(** [Thread_UpdateState]. *)
Definition Thread_UpdateState (newval oldval : ThreadState) (th : Thread) : option Thread :=
  if decide (th_state th = oldval) then Some (th <| th_state := newval |>) else None.

Definition set_thread (t : nat) (th : Thread) (s : State) : State := s <| threads ::= <[t := th]> |>.

(** [threadIsDead]: the descriptor leaves the list. *)
Definition threadIsDead (t : nat) (s : State) : State := s <| activeThreads ::= filter (fun x => x <> t) |>.

(** ** User threads: the signal arrives, and [stopthisthread]; [None] when the thread cannot go on or an
    assertion fails *)
Definition stopthisthread (t : nat) (th : Thread) (s : State) : option State :=
  match th_pc th with
  | UUser => if th_pending th then Some (set_thread t (th <| th_pending := false |> <| th_pc := UHandler |>) s) else None
  | UHandler =>
      match Thread_UpdateState ST_SUSPINPROG ST_SIGNALED th with
      | Some th' => Some (set_thread t (th' <| th_pc := USave |>) s)
      | None => Some (set_thread t (th <| th_pc := UUser |>) s)
      end
  | USave =>
      th' ← Thread_UpdateState ST_SUSPENDED ST_SUSPINPROG th;
      Some (set_thread t (th' <| th_pc := UPost |>) s)
  | UPost => Some (set_thread t (th <| th_pc := URdLock |>) (s <| semNotifyCkptThread ::= S |>))
  | URdLock => if writer s then None else Some (set_thread t (th <| th_pc := URun |>) (s <| readers ::= S |>))
  | URun =>
      th' ← Thread_UpdateState ST_RUNNING ST_SUSPENDED th;
      Some (set_thread t (th' <| th_pc := UUnlock |>) s)
  | UUnlock =>
      match readers s with
      | O => None
      | S r => Some (set_thread t (th <| th_pc := UUser |>) (s <| readers := r |>))
      end
  end.

Definition step_user (t : nat) (s : State) : option State :=
  th ← threads s !! t;
  if th_alive th && negb (t =? ckptThread s)%nat then stopthisthread t th s else None.

(** A thread ends while it runs its own code. *)
Definition step_die (t : nat) (s : State) : option State :=
  th ← threads s !! t;
  if th_alive th && negb (t =? ckptThread s)%nat && bool_decide (th_pc th = UUser)
  then Some (set_thread t (th <| th_alive := false |>) s) else None.

(** ** The checkpoint thread *)

(** The body of the scan of [suspendThreads] for thread [t]; a signal fails exactly if the thread is gone. *)
Definition scan_thread (t : nat) (rest : list nat) (nr : bool) (s : State) : option State :=
  if (t =? ckptThread s)%nat then Some (s <| c_pc := CScan rest nr |>)
  else
    th ← threads s !! t;
    if th_exiting th then Some (s <| c_pc := CScan rest nr |>)
    else match th_state th with
    | ST_RUNNING =>
        th' ← Thread_UpdateState ST_SIGNALED ST_RUNNING th;
        Some ((set_thread t th' s) <| c_pc := CSignal t rest nr |>)
    | ST_SIGNALED =>
        if th_alive th then Some (s <| c_pc := CScan rest true |>)
        else Some ((threadIsDead t s) <| c_pc := CScan rest nr |>)
    | ST_SUSPINPROG | ST_SUSPENDED => Some (s <| numUserThreads ::= S |> <| c_pc := CScan rest nr |>)
    | ST_CKPNTHREAD => Some (s <| c_pc := CScan rest nr |>)
    | ST_THREAD_CREATE => None
    end.

Definition signal_thread (t : nat) (rest : list nat) (nr : bool) (s : State) : option State :=
  th ← threads s !! t;
  if th_alive th then Some ((set_thread t (th <| th_pending := true |>) s) <| c_pc := CScan rest true |>)
  else Some ((threadIsDead t s) <| c_pc := CScan rest nr |>).

(** The body of the loop of [waitForExitingThreads]. *)
Definition wait_exiting (t : nat) (rest : list nat) (nr : bool) (s : State) : option State :=
  th ← threads s !! t;
  if th_exiting th then
    if th_alive th then Some (s <| c_pc := CExiting rest true |>)
    else Some ((threadIsDead t s) <| c_pc := CExiting rest nr |>)
  else Some (s <| c_pc := CExiting rest nr |>).

(** The checkpoint thread.  The resume lock is here what its contract says, a flag for the writer and the number of readers; its
    code is modelled in RWLock.v.  [CInit] initialises it and takes it for writing.  A thread at [URdLock] has posted and is
    about to call rdlock: such a call finds the lock taken again.  A thread already asleep in the futex of the lock, which the
    unlock of the last checkpoint has woken, is past that point in the code and is not distinguished here. *)
Definition step_ckpt (s : State) : option State :=
  match c_pc s with
  | CIdle => Some (s <| c_pc := CInit |>)
  | CInit => Some (s <| writer := true |> <| readers := 0%nat |> <| numUserThreads := 0%nat |> <| c_pc := CScan (activeThreads s) false |>)
  | CScan (t :: rest) nr => scan_thread t rest nr s
  | CSignal t rest nr => signal_thread t rest nr s
  | CScan [] true => Some (s <| numUserThreads := 0%nat |> <| c_pc := CScan (activeThreads s) false |>)
  | CScan [] false => Some (s <| c_pc := CWait (numUserThreads s) |>)
  | CWait (S n) =>
      match semNotifyCkptThread s with
      | O => None
      | S k => Some (s <| semNotifyCkptThread := k |> <| c_pc := CWait n |>)
      end
  | CWait O => match activeThreads s with [] => None | l => Some (s <| c_pc := CExiting l false |>) end
  | CExiting (t :: rest) nr => wait_exiting t rest nr s
  | CExiting [] true => Some (s <| c_pc := CExiting (activeThreads s) false |>)
  | CExiting [] false => Some (s <| c_pc := CStopped |>)
  | CStopped => Some (s <| writer := false |> <| c_pc := CIdle |>)
  end.

(** *** Threads that come and go: under the wrapper lock, so only while the checkpoint thread waits for a request *)

Definition prepareThread : Thread := mk_Thread ST_RUNNING false true false UUser.

(** [addToActiveList]: an older descriptor with the number of the new thread goes, and so do the
    descriptors of exiting threads that are gone. *)
Definition addToActiveList (t : nat) (s : State) : State :=
  s <| threads ::= <[t := prepareThread]> |>
    <| activeThreads := t :: filter (fun x => x <> t /\ negb (from_option (fun th => th_exiting th && negb (th_alive th)) false (threads s !! x)) = true) (activeThreads s) |>.

(** The kernel may use the number of a thread that is gone again. *)
Definition step_create (t : nat) (s : State) : option State :=
  if bool_decide (c_pc s = CIdle) && negb (t =? ckptThread s)%nat && negb (from_option th_alive false (threads s !! t))
  then Some (addToActiveList t s) else None.

Definition threadExit (th : Thread) : Thread := th <| th_exiting := true |>.

Definition step_exit (t : nat) (s : State) : option State :=
  th ← threads s !! t;
  if bool_decide (c_pc s = CIdle) && negb (t =? ckptThread s)%nat && th_alive th && bool_decide (th_pc th = UUser)
  then Some (set_thread t (threadExit th) s) else None.

Definition step (s s' : State) : Prop :=
  step_ckpt s = Some s' \/
  exists t, step_user t s = Some s' \/ step_die t s = Some s' \/ step_create t s = Some s' \/ step_exit t s = Some s'.

(** ** What holds in every interleaving *)

(** The descriptor of the checkpoint thread itself. *)
Definition ckpt_ok (c : Thread) : Prop := th_state c = ST_CKPNTHREAD /\ th_exiting c = false /\ th_pc c = UUser.

(** All threads run their own code and nothing is left of an earlier checkpoint. *)
Definition quiet (s : State) : Prop :=
  NoDup (activeThreads s) /\ ckptThread s ∈ activeThreads s /\
  (exists c, threads s !! ckptThread s = Some c /\ ckpt_ok c) /\
  (forall t, t ∈ activeThreads s -> t <> ckptThread s -> exists th, threads s !! t = Some th /\
     th_state th = ST_RUNNING /\ th_pc th = UUser /\ th_pending th = false) /\
  (forall t th, threads s !! t = Some th -> t ∉ activeThreads s -> th_alive th = false) /\
  writer s = false /\ readers s = 0%nat /\ semNotifyCkptThread s = 0%nat.

(** A test of a thread of the list, and the number of threads that pass it. *)
Definition tst (p : Thread -> bool) (s : State) (t : nat) : bool := from_option p false (threads s !! t).
Definition num (p : Thread -> bool) (s : State) : nat := cnt (tst p s) (activeThreads s).
Definition posted (th : Thread) : bool := bool_decide (th_pc th = URdLock).
Definition unposted (th : Thread) : bool := bool_decide (th_pc th = USave) || bool_decide (th_pc th = UPost).
Definition holds (th : Thread) : bool := bool_decide (th_pc th = URun) || bool_decide (th_pc th = UUnlock).
Definition counted (s : State) (t : nat) : bool := negb (t =? ckptThread s)%nat && negb (tst th_exiting s t).

Definition signalling (s : State) (t : nat) : bool := match c_pc s with CSignal t' _ _ => (t' =? t)%nat | _ => false end.
Definition busy (s : State) : bool := match c_pc s with CIdle | CInit => false | _ => true end.

(** A user thread of the list: its state fits where it is. *)
Definition thread_ok (sg bz : bool) (th : Thread) : Prop :=
  (th_alive th = false -> th_pc th = UUser) /\
  match th_state th with
  | ST_RUNNING => (th_pc th = UUser \/ th_pc th = UUnlock /\ bz = false) /\ th_pending th = false
  | ST_SIGNALED => bz = true /\ th_exiting th = false /\
      (th_pc th = UUser /\ (th_alive th = true -> th_pending th = negb sg) \/ th_pc th = UHandler /\ th_pending th = false /\ sg = false)
  | ST_SUSPINPROG => bz = true /\ th_exiting th = false /\ th_pending th = false /\ th_pc th = USave
  | ST_SUSPENDED => th_exiting th = false /\ th_pending th = false /\
      (th_pc th = URdLock \/ th_pc th = UPost /\ bz = true \/ th_pc th = URun /\ bz = false)
  | _ => False
  end.

(** The scan has nothing more to do for the thread. *)
Definition settled_th (th : Thread) : bool := th_exiting th || posted th || unposted th.
Definition settled (s : State) (t : nat) : Prop := t = ckptThread s \/ tst settled_th s t = true.
Definition stopped (s : State) (t : nat) : Prop := t = ckptThread s \/ tst posted s t = true.

Definition phase_ok (s : State) : Prop :=
  match c_pc s with
  | CIdle => writer s = false /\ semNotifyCkptThread s = 0%nat /\ readers s = num holds s
  | CInit => quiet s
  | CScan rest nr => writer s = true /\ semNotifyCkptThread s = num posted s /\
      exists before, activeThreads s = before ++ rest /\
        (nr = false -> (forall t, t ∈ before -> settled s t) /\ numUserThreads s = cnt (counted s) before)
  | CSignal t rest nr => writer s = true /\ semNotifyCkptThread s = num posted s /\ t <> ckptThread s /\
      (exists th, threads s !! t = Some th /\ th_state th = ST_SIGNALED) /\
      exists before, activeThreads s = before ++ t :: rest /\
        (nr = false -> (forall t, t ∈ before -> settled s t) /\ numUserThreads s = cnt (counted s) before)
  | CWait n => writer s = true /\ (forall t, t ∈ activeThreads s -> settled s t) /\
      numUserThreads s = cnt (counted s) (activeThreads s) /\ n = (semNotifyCkptThread s + num unposted s)%nat
  | CExiting rest nr => writer s = true /\ semNotifyCkptThread s = 0%nat /\
      numUserThreads s = cnt (counted s) (activeThreads s) /\
      (forall t, t ∈ activeThreads s -> stopped s t \/ tst th_exiting s t = true) /\
      exists before, activeThreads s = before ++ rest /\ (nr = false -> forall t, t ∈ before -> tst th_exiting s t = false)
  | CStopped => writer s = true /\ semNotifyCkptThread s = 0%nat /\ length (activeThreads s) = S (numUserThreads s) /\
      (forall t, t ∈ activeThreads s -> stopped s t)
  end.

Record Inv (s : State) : Prop := {
  i_nodup : NoDup (activeThreads s);
  i_ckpt : ckptThread s ∈ activeThreads s;
  i_ckpt_th : exists c, threads s !! ckptThread s = Some c /\ ckpt_ok c;
  i_thread : forall t, t ∈ activeThreads s -> t <> ckptThread s -> exists th, threads s !! t = Some th /\ thread_ok (signalling s t) (busy s) th;
  i_gone : forall t th, threads s !! t = Some th -> t ∉ activeThreads s -> th_alive th = false;
  i_readers : busy s = true -> readers s = 0%nat;
  i_phase : phase_ok s }.

Lemma quiet_inv s : quiet s -> c_pc s = CIdle -> Inv s.
Proof.
  intros (Hnd & Hck & Hc & Hth & Hg & Hw & Hr & Hs) Hpc. split; try done.
  - intros t Ht Hne. destruct (Hth t Ht Hne) as (th & E & H1 & H2 & H3). exists th. split; [done|].
    unfold thread_ok. rewrite H1. tauto.
  - unfold phase_ok. rewrite Hpc. split; [done|]. split; [done|]. rewrite Hr. symmetry. unfold num. apply cnt_zero.
    intros t Ht. unfold tst. destruct (decide (t = ckptThread s)) as [->|Hne].
    + destruct Hc as (c & E & _ & _ & Hc). rewrite E. cbn. unfold holds. by rewrite Hc.
    + destruct (Hth t Ht Hne) as (th & E & H1 & H2 & H3). rewrite E. cbn. unfold holds. by rewrite H2.
Qed.

(** *** A step that changes one user thread *)

(** [s'] is [s] with the thread [t] replaced, and perhaps another count of the semaphore and of the readers. *)
Definition changed (t : nat) (th' : Thread) (s s' : State) : Prop :=
  threads s' = <[t := th']> (threads s) /\ activeThreads s' = activeThreads s /\ ckptThread s' = ckptThread s /\
  numUserThreads s' = numUserThreads s /\ writer s' = writer s /\ c_pc s' = c_pc s.

Section change.
Context (s s' : State) (t : nat) (th th' : Thread).
Hypothesis HI : Inv s.
Hypothesis Hch : changed t th' s s'.
Hypothesis Hin : t ∈ activeThreads s.
Hypothesis Hne : t <> ckptThread s.
Hypothesis Hth : threads s !! t = Some th.
Hypothesis Hex : th_exiting th' = th_exiting th.

Lemma tst_other p x : x <> t -> tst p s' x = tst p s x.
Proof. intros Hx. destruct Hch as (E & _). unfold tst. rewrite E. by rewrite lookup_insert_ne. Qed.

Lemma tst_here p : tst p s' t = p th'.
Proof. destruct Hch as (E & _). unfold tst. rewrite E. by rewrite lookup_insert_eq. Qed.

Lemma tst_before p : tst p s t = p th.
Proof. unfold tst. by rewrite Hth. Qed.

Lemma num_change p : (num p s' + Nat.b2n (p th) = num p s + Nat.b2n (p th'))%nat.
Proof.
  destruct Hch as (_ & Ea & _). unfold num. rewrite Ea, <- tst_before, <- tst_here.
  apply cnt_change; [apply HI|done|]. intros y _ Hy. by apply tst_other.
Qed.

Lemma exiting_same x : tst th_exiting s' x = tst th_exiting s x.
Proof. destruct (decide (x = t)) as [->|Hx]; [by rewrite tst_here, tst_before|by apply tst_other]. Qed.

Lemma counted_same x : counted s' x = counted s x.
Proof. destruct Hch as (_ & _ & Ec & _). unfold counted. by rewrite Ec, exiting_same. Qed.

Lemma settled_kept x : (settled_th th = true -> settled_th th' = true) -> settled s x -> settled s' x.
Proof.
  destruct Hch as (_ & _ & Ec & _). intros Hk [->|H]; [left; by rewrite Ec|]. destruct (decide (x = t)) as [->|Hx].
  - right. rewrite tst_here. rewrite tst_before in H. by apply Hk.
  - right. by rewrite tst_other.
Qed.

Lemma stopped_kept x : (posted th = true -> posted th' = true) -> stopped s x -> stopped s' x.
Proof.
  destruct Hch as (_ & _ & Ec & _). intros Hk [->|H]; [left; by rewrite Ec|]. destruct (decide (x = t)) as [->|Hx].
  - right. rewrite tst_here. rewrite tst_before in H. by apply Hk.
  - right. by rewrite tst_other.
Qed.

(** What is left to show for such a step. *)
Lemma change_inv : thread_ok (signalling s t) (busy s) th' ->
  (c_pc s = CInit -> th_state th' = ST_RUNNING /\ th_pc th' = UUser /\ th_pending th' = false) ->
  (c_pc s <> CIdle -> settled_th th = true -> settled_th th' = true) ->
  (match c_pc s with CExiting _ _ | CStopped => posted th = true -> posted th' = true | _ => True end) ->
  (match c_pc s with CSignal t' _ _ => t' = t -> th_state th' = th_state th | _ => True end) ->
  (match c_pc s with
   | CScan _ _ | CSignal _ _ _ => (semNotifyCkptThread s' + Nat.b2n (posted th) = semNotifyCkptThread s + Nat.b2n (posted th'))%nat
   | CWait _ => (semNotifyCkptThread s' + Nat.b2n (unposted th') = semNotifyCkptThread s + Nat.b2n (unposted th))%nat
   | _ => semNotifyCkptThread s' = semNotifyCkptThread s end) ->
  (match c_pc s with
   | CIdle => (readers s' + Nat.b2n (holds th) = readers s + Nat.b2n (holds th'))%nat
   | _ => readers s' = readers s end) ->
  Inv s'.
Proof.
  intros Hok Hinit Hset Hpost Hsig Hsem Hrd. pose proof Hch as (Et & Ea & Ec & En & Ew & Ep).
  assert (Hsg : forall x, signalling s' x = signalling s x) by (intros x; unfold signalling; by rewrite Ep).
  assert (Hbz : busy s' = busy s) by (unfold busy; by rewrite Ep).
  destruct HI as [Hnd Hck Hct Htt Hg Hrs Hph]. split.
  - by rewrite Ea.
  - by rewrite Ea, Ec.
  - rewrite Ec, Et, lookup_insert_ne by done. done.
  - intros x. rewrite Ea, Ec, Hsg, Hbz, Et. intros Hx Hxc. destruct (decide (x = t)) as [->|Hxt].
    + exists th'. by rewrite lookup_insert_eq.
    + rewrite lookup_insert_ne by done. by apply Htt.
  - intros x thx. rewrite Ea, Et. destruct (decide (x = t)) as [->|Hxt]; [done|]. rewrite lookup_insert_ne by done. apply Hg.
  - rewrite Hbz. intros Hb. rewrite <- (Hrs Hb). unfold busy in Hb. by destruct (c_pc s).
  - pose proof (num_change posted) as N1. pose proof (num_change unposted) as N2. pose proof (num_change holds) as N3.
    assert (Hcnt : forall l, cnt (counted s') l = cnt (counted s) l) by (intros l; apply cnt_same; intros; apply counted_same).
    unfold phase_ok in *. rewrite Ep, Ew, En, ?Ea. destruct (c_pc s) eqn:Epc.
    + destruct Hph as (? & ? & ?). split_and!; [done|lia|lia].
    + destruct Hph as (_ & _ & _ & Hq & _ & Hw & Hr & Hs). split; [by rewrite Ea|]. rewrite Ec, Ea, Et, Ew, Hrd, Hsem.
      split; [done|]. split; [by rewrite lookup_insert_ne by done|]. split; [|split; [|done]].
      * intros x Hx Hxc. destruct (decide (x = t)) as [->|Hxt].
        -- exists th'. rewrite lookup_insert_eq. destruct (Hinit eq_refl) as (? & ? & ?). done.
        -- rewrite lookup_insert_ne by done. by apply Hq.
      * intros x thx. destruct (decide (x = t)) as [->|Hxt]; [done|]. rewrite lookup_insert_ne by done. apply Hg.
    + destruct Hph as (? & ? & b & ? & Hb). split_and!; [done|lia|]. exists b. split; [done|]. intros Hf. destruct (Hb Hf) as [Hs Hc].
      split; [intros x Hx; apply settled_kept; [by apply Hset|auto]|]. by rewrite Hcnt.
    + destruct Hph as (? & ? & ? & (y & Hy & Hys) & b & ? & Hb). rewrite Ec. split_and!; [done|lia|done| |].
      * rewrite Et. destruct (decide (t0 = t)) as [->|Hx]; [exists th'; rewrite lookup_insert_eq; split; [done|rewrite Hsig by done; congruence]|].
        exists y. by rewrite lookup_insert_ne.
      * exists b. split; [done|]. intros Hf. destruct (Hb Hf) as [Hs Hc]. split; [intros x Hx; apply settled_kept; [by apply Hset|auto]|]. by rewrite Hcnt.
    + destruct Hph as (? & Hs & ? & ?). split_and!; [done|intros x Hx; apply settled_kept; [by apply Hset|auto]|by rewrite Hcnt|lia].
    + destruct Hph as (? & ? & ? & Hs & b & ? & Hb). split_and!; [done|lia|by rewrite Hcnt| |].
      * intros x Hx. destruct (Hs x Hx) as [?|?]; [left; by apply stopped_kept|right; by rewrite exiting_same].
      * exists b. split; [done|]. intros Hf x Hx. rewrite exiting_same. by apply Hb.
    + destruct Hph as (? & ? & ? & Hs). split_and!; [done|lia|done|]. intros x Hx. by apply stopped_kept; [|apply Hs].
Qed.
End change.

(** Only a thread of the list can step. *)
Lemma alive_active s t th : Inv s -> threads s !! t = Some th -> th_alive th = true -> t ∈ activeThreads s.
Proof. intros HI Ht Ha. destruct (decide (t ∈ activeThreads s)) as [|Hn]; [done|]. rewrite (i_gone s HI t th Ht Hn) in Ha. done. Qed.

(** What the phase says of one user thread. *)
Lemma phase_thread s t th : Inv s -> t ∈ activeThreads s -> t <> ckptThread s -> threads s !! t = Some th ->
  match c_pc s with
  | CIdle => writer s = false
  | CInit => th_state th = ST_RUNNING /\ th_pc th = UUser /\ th_pending th = false
  | CScan _ _ => writer s = true
  | CSignal t' _ _ => writer s = true /\ (t' = t -> th_state th = ST_SIGNALED)
  | CWait _ => writer s = true /\ settled_th th = true
  | CExiting _ _ => writer s = true /\ (posted th = true \/ th_exiting th = true)
  | CStopped => writer s = true /\ posted th = true
  end.
Proof.
  intros HI Hin Hne Ht. pose proof (i_phase s HI) as Hp. unfold phase_ok in Hp. destruct (c_pc s).
  - tauto.
  - destruct Hp as (_ & _ & _ & Hq & _). destruct (Hq t Hin Hne) as (x & Ex & ?). by simplify_eq.
  - tauto.
  - destruct Hp as (? & _ & _ & (x & Ex & Hx) & _). split; [done|]. intros ->. by simplify_eq.
  - destruct Hp as (? & Hs & _). split; [done|]. destruct (Hs t Hin) as [?|H']; [done|]. unfold tst in H'. by rewrite Ht in H'.
  - destruct Hp as (? & _ & _ & Hs & _). split; [done|]. unfold stopped, tst in Hs. specialize (Hs t Hin). rewrite Ht in Hs. cbn in Hs. tauto.
  - destruct Hp as (? & _ & _ & Hs). split; [done|]. destruct (Hs t Hin) as [?|H']; [done|]. unfold tst in H'. by rewrite Ht in H'.
Qed.

Lemma signalling_here s t rest nr : c_pc s = CSignal t rest nr -> signalling s t = true.
Proof. intros E. unfold signalling. rewrite E. apply Nat.eqb_refl. Qed.

Lemma thread_of s t th : Inv s -> t ∈ activeThreads s -> t <> ckptThread s -> threads s !! t = Some th -> thread_ok (signalling s t) (busy s) th.
Proof. intros HI Hin Hne Ht. destruct (i_thread s HI t Hin Hne) as (x & Ex & H). by simplify_eq. Qed.

(** Evaluate the tests on a thread at a known place. *)
Ltac at_pc := repeat case_bool_decide; try congruence; cbn; try lia.

Lemma user_inv s t s' : Inv s -> step_user t s = Some s' -> Inv s'.
Proof.
  intros HI Hst. unfold step_user in Hst. destruct (threads s !! t) as [th|] eqn:Ht; [|done]. cbn in Hst.
  destruct (th_alive th) eqn:Ha; [|done]. destruct (Nat.eqb_spec t (ckptThread s)) as [|Hne]; [done|]. cbn in Hst.
  pose proof (alive_active s t th HI Ht Ha) as Hin. pose proof (thread_of s t th HI Hin Hne Ht) as [_ Hok].
  pose proof (phase_thread s t th HI Hin Hne Ht) as Hph.
  unfold stopthisthread, Thread_UpdateState in Hst. destruct (th_pc th) eqn:Epc.
  - (* the signal arrives *)
    destruct (th_pending th) eqn:Epe; [|done]. injection Hst as <-.
    assert (th_state th = ST_SIGNALED) as Es by (destruct (th_state th); intuition congruence).
    rewrite Es in Hok. destruct Hok as (Hb & Hx & [[_ Hsg]|[? _]]); [|done].
    eapply (change_inv s _ t th); try done.
    + split; [unfold set_field; cbn; by rewrite Ha|]. unfold set_field; cbn. rewrite Es. split_and!; [done|done|right]. split_and!; [done|done|]. specialize (Hsg Ha). by destruct (signalling s t).
    + intros E. rewrite E in Hph. naive_solver congruence.
    + intros _. unfold settled_th, posted, unposted. rewrite Hx, Epc. done.
    + unfold posted. rewrite Epc. by destruct (c_pc s).
    + by destruct (c_pc s).
    + unfold posted, unposted. rewrite Epc. cbn. by destruct (c_pc s).
    + unfold holds. rewrite Epc. cbn. by destruct (c_pc s).
  - (* SIGNALED to SUSPINPROG *)
    assert (th_state th = ST_SIGNALED) as Es by (destruct (th_state th); intuition congruence).
    rewrite Es in Hok, Hst. rewrite decide_True in Hst by done. injection Hst as <-. destruct Hok as (Hb & Hx & [[? _]|(_ & Hp & Hsg)]); [done|].
    eapply (change_inv s _ t th); try done.
    + split; [unfold set_field; cbn; by rewrite Ha|]. unfold set_field; cbn. done.
    + intros E. rewrite E in Hph. naive_solver congruence.
    + intros _. unfold settled_th, posted, unposted. rewrite Hx, Epc. done.
    + unfold posted. rewrite Epc. by destruct (c_pc s).
    + destruct (c_pc s) eqn:E; try done. intros ->. by rewrite (signalling_here _ _ _ _ E) in Hsg.
    + unfold posted, unposted. rewrite Epc. cbn. destruct (c_pc s); try done.
      destruct Hph as [_ Hph]. unfold settled_th, posted, unposted in Hph. by rewrite Hx, Epc in Hph.
    + unfold holds. rewrite Epc. cbn. by destruct (c_pc s).
  - (* SUSPINPROG to SUSPENDED *)
    assert (th_state th = ST_SUSPINPROG) as Es by (destruct (th_state th); intuition congruence).
    rewrite Es in Hok, Hst. rewrite decide_True in Hst by done. injection Hst as <-. destruct Hok as (Hb & Hx & Hp & _).
    eapply (change_inv s _ t th); try done.
    + split; [unfold set_field; cbn; by rewrite Ha|]. unfold set_field; cbn. tauto.
    + intros E. rewrite E in Hph. naive_solver congruence.
    + intros _ _. unfold settled_th, posted, unposted. cbn. by rewrite orb_true_r.
    + unfold posted. rewrite Epc. by destruct (c_pc s).
    + destruct (c_pc s) eqn:E; try done. intros ->. destruct Hph as [_ Hph]. rewrite Hph in Es; done.
    + unfold posted, unposted. rewrite Epc. cbn. by destruct (c_pc s).
    + unfold holds. rewrite Epc. cbn. by destruct (c_pc s).
  - (* the post *)
    assert (th_state th = ST_SUSPENDED) as Es by (destruct (th_state th); intuition congruence).
    injection Hst as <-. rewrite Es in Hok. destruct Hok as (Hx & Hp & Hb).
    assert (Hbz : busy s = true) by (destruct Hb as [?|[[_ ?]|[? _]]]; done).
    eapply (change_inv s _ t th); try done.
    + split; [unfold set_field; cbn; by rewrite Ha|]. unfold set_field; cbn. rewrite Es. tauto.
    + intros E. unfold busy in Hbz. by rewrite E in Hbz.
    + intros _ _. unfold settled_th, posted. cbn. by rewrite orb_true_r.
    + unfold posted. cbn. by destruct (c_pc s).
    + by destruct (c_pc s).
    + unfold posted, unposted, set_thread, set_field. rewrite Epc. cbn. unfold busy in Hbz. destruct (c_pc s); try done; at_pc.
      * destruct Hph as [_ [H|H]]; [unfold posted in H; by rewrite Epc in H|congruence].
      * destruct Hph as [_ H]; unfold posted in H; by rewrite Epc in H.
    + unfold holds. rewrite Epc. cbn. by destruct (c_pc s).
  - (* the lock *)
    destruct (writer s) eqn:Ew; [done|]. injection Hst as <-.
    assert (th_state th = ST_SUSPENDED) as Es by (destruct (th_state th); intuition congruence).
    assert (c_pc s = CIdle) as E.
    { destruct (c_pc s); try done; try (destruct Hph; congruence). }
    rewrite Es in Hok. destruct Hok as (Hx & Hp & _).
    eapply (change_inv s _ t th); try done; rewrite ?E; try done.
    + split; [unfold set_field; cbn; by rewrite Ha|]. unfold set_field; cbn. rewrite Es. unfold busy. rewrite E. tauto.
    + unfold holds, set_thread, set_field. rewrite Epc. cbn. at_pc.
  - (* SUSPENDED to RUNNING *)
    assert (th_state th = ST_SUSPENDED) as Es by (destruct (th_state th); intuition congruence).
    rewrite Es in Hok, Hst. rewrite decide_True in Hst by done. injection Hst as <-. destruct Hok as (Hx & Hp & Hb).
    assert (Hbz : busy s = false) by (destruct Hb as [?|[[? _]|[_ ?]]]; done).
    assert (c_pc s = CIdle) as E by (unfold busy in Hbz; destruct (c_pc s); try done; destruct Hph as (? & ? & _); congruence).
    eapply (change_inv s _ t th); try done; rewrite ?E; try done.
    + split; [unfold set_field; cbn; by rewrite Ha|]. unfold set_field; cbn. tauto.
    + unfold holds, set_thread, set_field. rewrite Epc. cbn. at_pc.
  - (* the unlock *)
    destruct (readers s) as [|r] eqn:Er; [done|]. injection Hst as <-.
    assert (th_state th = ST_RUNNING) as Es by (destruct (th_state th); intuition congruence).
    rewrite Es in Hok. destruct Hok as ([?|[_ Hbz]] & Hp); [done|].
    assert (c_pc s = CIdle) as E by (unfold busy in Hbz; destruct (c_pc s); try done; destruct Hph as (? & ? & _); congruence).
    eapply (change_inv s _ t th); try done; rewrite ?E; try done.
    + split; [unfold set_field; cbn; by rewrite Ha|]. unfold set_field; cbn. rewrite Es. tauto.
    + unfold holds, set_thread, set_field. rewrite Epc. cbn. at_pc.
Qed.

Lemma die_inv s t s' : Inv s -> step_die t s = Some s' -> Inv s'.
Proof.
  intros HI Hst. unfold step_die in Hst. destruct (threads s !! t) as [th|] eqn:Ht; [|done]. cbn in Hst.
  destruct (th_alive th) eqn:Ha; [|done]. destruct (Nat.eqb_spec t (ckptThread s)) as [|Hne]; [done|]. cbn in Hst.
  case_bool_decide as Epc; [|done]. injection Hst as <-.
  pose proof (alive_active s t th HI Ht Ha) as Hin. pose proof (thread_of s t th HI Hin Hne Ht) as [_ Hok].
  pose proof (phase_thread s t th HI Hin Hne Ht) as Hph.
  eapply (change_inv s _ t th); try done.
  - split; [done|]. unfold set_field. cbn. destruct (th_state th); intuition congruence.
  - intros E. by rewrite E in Hph.
  - by destruct (c_pc s).
  - by destruct (c_pc s).
  - unfold posted, unposted. by destruct (c_pc s).
  - unfold holds. by destruct (c_pc s).
Qed.

(** *** Steps of the checkpoint thread *)

(** A step that only moves the checkpoint thread, and perhaps changes its count and the semaphore. *)
Lemma move_inv s s' : Inv s -> threads s' = threads s -> activeThreads s' = activeThreads s -> ckptThread s' = ckptThread s -> readers s' = readers s ->
  busy s = true -> busy s' = true -> (forall t, signalling s t = false) -> (forall t, signalling s' t = false) -> phase_ok s' -> Inv s'.
Proof.
  intros [Hnd Hck Hct Htt Hg Hrs _] Et Ea Ec Er Hb Hb' Hs Hs' Hph. split; rewrite ?Et, ?Ea, ?Ec, ?Er; try done; [|by rewrite Hrs].
  intros t Hin Hne. rewrite Hs', Hb'. destruct (Htt t Hin Hne) as (th & ? & Hok). rewrite Hs, Hb in Hok. eauto.
Qed.

(** A dead thread leaves the list. *)
Lemma remove_inv s s' t th : Inv s -> threads s !! t = Some th -> th_alive th = false -> t <> ckptThread s ->
  threads s' = threads s -> activeThreads s' = filter (fun x => x <> t) (activeThreads s) -> ckptThread s' = ckptThread s -> readers s' = readers s ->
  busy s = true -> busy s' = true -> (forall x, x <> t -> signalling s x = false) -> (forall x, signalling s' x = false) -> phase_ok s' -> Inv s'.
Proof.
  intros [Hnd Hck Hct Htt Hg Hrs _] Ht Ha Hne Et Ea Ec Er Hb Hb' Hs Hs' Hph.
  assert (Hel : forall x, x ∈ activeThreads s' <-> x <> t /\ x ∈ activeThreads s) by (intros x; by rewrite Ea, list_elem_of_filter).
  split; rewrite ?Et, ?Ec, ?Er; try done.
  - rewrite Ea. by apply NoDup_filter.
  - apply Hel. done.
  - intros x [Hxt Hin]%Hel Hxc. rewrite Hs', Hb'. destruct (Htt x Hin Hxc) as (thx & ? & Hok). rewrite Hs, Hb in Hok by done. eauto.
  - intros x thx Hx Hn. destruct (decide (x = t)) as [->|Hxt]; [by simplify_eq|]. apply (Hg x thx Hx). intros Hin. apply Hn, Hel. done.
  - by rewrite Hrs.
Qed.

Lemma filter_out (l1 l2 : list nat) t : NoDup (l1 ++ t :: l2) -> filter (fun x => x <> t) (l1 ++ t :: l2) = l1 ++ l2.
Proof.
  intros (_ & Hd & [Hn _]%NoDup_cons)%NoDup_app. rewrite filter_app, filter_cons_False by tauto.
  assert (H : forall k : list nat, t ∉ k -> filter (fun x => x <> t) k = k).
  { induction k as [|y k IH]; [done|]. intros [? ?]%not_elem_of_cons. rewrite filter_cons_True by done. by rewrite IH. }
  rewrite !H; [done|done|]. intros Ht. apply (Hd t Ht). left.
Qed.

(** The number of threads that pass a test, without one that does not. *)
Lemma num_without p s l1 t l2 : tst p s t = false -> cnt (tst p s) (l1 ++ t :: l2) = cnt (tst p s) (l1 ++ l2).
Proof. intros H. rewrite !cnt_app, cnt_cons, H. done. Qed.

(** The part of the scan that is done grows by one thread. *)
Lemma scanned s before t n : (forall x, x ∈ before -> settled s x) -> n = cnt (counted s) before -> settled s t ->
  (forall x, x ∈ before ++ [t] -> settled s x) /\ (n + Nat.b2n (counted s t))%nat = cnt (counted s) (before ++ [t]).
Proof.
  intros Hb -> Ht. split; [|rewrite cnt_app, cnt_cons, cnt_nil; lia].
  intros x [Hx|Hx%list_elem_of_singleton]%elem_of_app; [by apply Hb|by subst].
Qed.

Section scan.
Context (s : State) (t : nat) (rest : list nat) (nr : bool).
Hypothesis HI : Inv s.
Hypothesis Hpc : c_pc s = CScan (t :: rest) nr.

Lemma scan_facts : busy s = true /\ (forall x, signalling s x = false) /\ t ∈ activeThreads s /\ writer s = true /\
  semNotifyCkptThread s = num posted s /\
  exists before, activeThreads s = before ++ t :: rest /\
    (nr = false -> (forall t, t ∈ before -> settled s t) /\ numUserThreads s = cnt (counted s) before).
Proof.
  pose proof (i_phase s HI) as Hph. unfold phase_ok in Hph. rewrite Hpc in Hph. destruct Hph as (Hw & Hsem & before & Ha & Hb).
  unfold busy, signalling. rewrite Hpc. split_and!; [done|done|rewrite Ha; set_solver|done|done|]. by exists before.
Qed.

(** The scan goes on to the next thread, with this one settled. *)
Lemma scan_next s' : settled s t -> threads s' = threads s -> activeThreads s' = activeThreads s -> ckptThread s' = ckptThread s ->
  writer s' = writer s -> readers s' = readers s -> semNotifyCkptThread s' = semNotifyCkptThread s -> c_pc s' = CScan rest nr ->
  numUserThreads s' = (numUserThreads s + Nat.b2n (counted s t))%nat -> Inv s'.
Proof.
  intros Hset Et Ea Ec Ew Er Es Ep En. destruct scan_facts as (Hbz & Hsg & Hin & Hw & Hsem & before & Ha & Hb).
  apply (move_inv s); try done; try (unfold busy, signalling; by rewrite Ep).
  assert (E1 : forall p, tst p s' = tst p s) by (intros p; unfold tst; by rewrite Et).
  assert (E2 : counted s' = counted s) by (unfold counted; by rewrite Ec, E1).
  unfold phase_ok. rewrite Ep, Ew, Es, Ea. unfold num. rewrite E1, Ea. split_and!; [done|done|]. exists (before ++ [t]).
  split; [by rewrite <- app_assoc|]. intros Hf. destruct (Hb Hf) as [H1 H2].
  destruct (scanned s before t _ H1 H2 Hset) as [H3 H4]. rewrite E2, En, H4. split; [|done].
  intros x Hx. unfold settled. rewrite Ec, E1. by apply H3.
Qed.

(** The scan goes on and will be repeated. *)
Lemma scan_again s' : threads s' = threads s -> activeThreads s' = activeThreads s -> ckptThread s' = ckptThread s ->
  writer s' = writer s -> readers s' = readers s -> semNotifyCkptThread s' = semNotifyCkptThread s -> c_pc s' = CScan rest true -> Inv s'.
Proof.
  intros Et Ea Ec Ew Er Es Ep. destruct scan_facts as (Hbz & Hsg & Hin & Hw & Hsem & before & Ha & _).
  apply (move_inv s); try done; try (unfold busy, signalling; by rewrite Ep).
  unfold phase_ok. rewrite Ep, Ew, Es, Ea. unfold num, tst. rewrite Et, Ea. split_and!; [done|done|]. exists (before ++ [t]).
  split; [by rewrite <- app_assoc|done].
Qed.
End scan.

(** A dead thread is taken out of the list, by the scan or by the step that signals. *)
Lemma drop_inv s s' t th rest nr before : Inv s -> threads s !! t = Some th -> th_alive th = false -> posted th = false -> t <> ckptThread s ->
  busy s = true -> (forall x, x <> t -> signalling s x = false) -> writer s = true -> semNotifyCkptThread s = num posted s ->
  activeThreads s = before ++ t :: rest ->
  (nr = false -> (forall t, t ∈ before -> settled s t) /\ numUserThreads s = cnt (counted s) before) ->
  s' = (threadIsDead t s) <| c_pc := CScan rest nr |> -> Inv s'.
Proof.
  intros HI Ht Ha Hp Hne Hbz Hsg Hw Hsem El Hb ->.
  assert (Ef : filter (fun x => x <> t) (activeThreads s) = before ++ rest).
  { rewrite El. apply filter_out. rewrite <- El. apply HI. }
  apply (remove_inv s _ t th); try done. unfold phase_ok, threadIsDead, num, set_field. cbn. split_and!; [done| |].
  - rewrite Hsem. unfold num. rewrite Ef, El. apply num_without. unfold tst. by rewrite Ht.
  - exists before. split; [done|]. intros Hf. by apply Hb.
Qed.

Lemma scan_inv s t rest nr s' : Inv s -> c_pc s = CScan (t :: rest) nr -> scan_thread t rest nr s = Some s' -> Inv s'.
Proof.
  intros HI Hpc Hst. destruct (scan_facts s t rest nr HI Hpc) as (Hbz & Hsg & Hin & Hw & Hsem & before & El & Hb).
  unfold scan_thread in Hst. destruct (Nat.eqb_spec t (ckptThread s)) as [->|Hne].
  { injection Hst as <-. eapply (scan_next s); try done; [by left|]. unfold counted, set_field. rewrite Nat.eqb_refl. cbn. lia. }
  destruct (i_thread s HI t Hin Hne) as (th & Ht & Hok). rewrite Ht in Hst. cbn in Hst.
  assert (Hcount : counted s t = negb (th_exiting th)).
  { unfold counted, tst. rewrite Ht, (proj2 (Nat.eqb_neq _ _) Hne). done. }
  destruct (th_exiting th) eqn:Hx.
  { injection Hst as <-. eapply (scan_next s); try done; [|rewrite Hcount; unfold set_field; cbn; lia].
    right. unfold tst, settled_th. rewrite Ht. cbn. by rewrite Hx. }
  rewrite Hsg, Hbz in Hok. destruct Hok as [Hal Hok]. destruct (th_state th) eqn:Es; try done.
  - (* it runs: mark it *)
    unfold Thread_UpdateState in Hst. rewrite Es, decide_True in Hst by done. cbn in Hst. injection Hst as <-.
    destruct Hok as ([Hu|[_ ?]] & Hpe); [|done].
    set (th' := th <| th_state := ST_SIGNALED |>). set (s1 := set_thread t th' s).
    assert (Hch : changed t th' s s1) by done.
    assert (Hnum : forall p, p th' = p th -> num p s1 = num p s).
    { intros p Ep. pose proof (num_change s s1 t th th' HI Hch Hin Ht p) as H. rewrite Ep in H. lia. }
    split.
    + apply HI.
    + apply HI.
    + unfold s1, set_thread, set_field. cbn. rewrite lookup_insert_ne by done. apply HI.
    + intros x Hxin Hxc. unfold signalling, busy, s1, set_thread, set_field. cbn. destruct (decide (x = t)) as [->|Hxt].
      * exists th'. rewrite lookup_insert_eq, Nat.eqb_refl. split; [done|]. split; [done|]. cbn. split_and!; [done|done|left].
        split; [done|]. intros _. exact Hpe.
      * rewrite lookup_insert_ne, (proj2 (Nat.eqb_neq t x)) by done. destruct (i_thread s HI x Hxin Hxc) as (thx & ? & H).
        rewrite Hsg, Hbz in H. eauto.
    + intros x thx. unfold s1, set_thread, set_field. cbn. destruct (decide (x = t)) as [->|Hxt]; [done|]. rewrite lookup_insert_ne by done. apply HI.
    + intros _. by apply (i_readers s HI).
    + unfold phase_ok. cbn. split_and!; [done|change (semNotifyCkptThread s = num posted s1); rewrite Hsem; symmetry; by apply Hnum|done| |].
      * exists th'. unfold s1, set_thread, set_field. cbn. by rewrite lookup_insert_eq.
      * exists before. split; [done|]. intros Hf. destruct (Hb Hf) as [H1 H2]. split.
        -- intros x Hxb. apply (settled_kept s s1 t th th' Hch Ht); [done|by apply H1].
        -- change (numUserThreads s = cnt (counted s1) before). rewrite H2. symmetry. apply cnt_same. intros y _.
           by apply (counted_same s s1 t th th' Hch Ht).
  - (* it was signalled *)
    destruct (th_alive th) eqn:Ha; injection Hst as <-; [by eapply (scan_again s)|].
    eapply (drop_inv s _ t th rest nr before); try done. unfold posted. by rewrite Hal.
  - (* it is stopping *)
    injection Hst as <-. eapply (scan_next s); try done; [|rewrite Hcount; unfold set_field; cbn; lia].
    right. unfold tst, settled_th, unposted. rewrite Ht. cbn. destruct Hok as (_ & _ & _ & ->). by rewrite !orb_true_r.
  - (* it has stopped *)
    injection Hst as <-. eapply (scan_next s); try done; [|rewrite Hcount; unfold set_field; cbn; lia].
    right. unfold tst, settled_th, unposted, posted. rewrite Ht. cbn. destruct Hok as (_ & _ & [->|[[-> _]|[_ ?]]]); [..|done]; by rewrite ?orb_true_r.
Qed.

Lemma signal_inv s t rest nr s' : Inv s -> c_pc s = CSignal t rest nr -> signal_thread t rest nr s = Some s' -> Inv s'.
Proof.
  intros HI Hpc Hst. pose proof (i_phase s HI) as Hph. unfold phase_ok in Hph. rewrite Hpc in Hph.
  destruct Hph as (Hw & Hsem & Hne & (th & Ht & Es) & before & El & Hb).
  assert (Hbz : busy s = true) by (unfold busy; by rewrite Hpc).
  assert (Hin : t ∈ activeThreads s) by (rewrite El; set_solver).
  pose proof (thread_of s t th HI Hin Hne Ht) as [Hal Hok]. rewrite Es, (signalling_here _ _ _ _ Hpc) in Hok.
  destruct Hok as (_ & Hx & [[Hu Hpe]|(_ & _ & ?)]); [|done].
  assert (Hsg : forall x, x <> t -> signalling s x = false).
  { intros x Hxt. unfold signalling. rewrite Hpc. by apply Nat.eqb_neq. }
  unfold signal_thread in Hst. rewrite Ht in Hst. cbn in Hst. destruct (th_alive th) eqn:Ha; injection Hst as <-.
  2:{ eapply (drop_inv s _ t th rest nr before); try done. unfold posted. by rewrite Hu. }
  set (th' := th <| th_pending := true |>). set (s1 := set_thread t th' s).
  assert (Hch : changed t th' s s1) by done.
  split.
  - apply HI.
  - apply HI.
  - unfold s1, set_thread, set_field. cbn. rewrite lookup_insert_ne by done. apply HI.
  - intros x Hxin Hxc. unfold signalling, busy, s1, set_thread, set_field. cbn. destruct (decide (x = t)) as [->|Hxt].
    + exists th'. rewrite lookup_insert_eq. split; [done|]. split; [done|]. change (th_state th') with (th_state th). rewrite Es. split_and!; [done|done|left].
      split; [done|]. done.
    + rewrite lookup_insert_ne by done. destruct (i_thread s HI x Hxin Hxc) as (thx & ? & H). rewrite Hsg, Hbz in H by done. eauto.
  - intros x thx. unfold s1, set_thread, set_field. cbn. destruct (decide (x = t)) as [->|Hxt]; [done|]. rewrite lookup_insert_ne by done. apply HI.
  - intros _. by apply (i_readers s HI).
  - unfold phase_ok. cbn. split_and!; [done| |].
    + change (semNotifyCkptThread s = num posted s1). pose proof (num_change s s1 t th th' HI Hch Hin Ht posted) as H.
      change (posted th') with (posted th) in H. lia.
    + exists (before ++ [t]). split; [|done]. rewrite <- app_assoc. exact El.
Qed.

(** When the scan is over, the threads to wait for are those that have posted and those that are going to. *)
Lemma cnt_split (f g h : nat -> bool) l : (forall x, x ∈ l -> Nat.b2n (f x) = (Nat.b2n (g x) + Nat.b2n (h x))%nat) ->
  cnt f l = (cnt g l + cnt h l)%nat.
Proof.
  induction l as [|x l IH]; intros Hl; [done|]. rewrite !cnt_cons, (Hl x) by left.
  rewrite IH; [lia|]. intros y Hy. apply Hl. by right.
Qed.

Lemma counted_split s : Inv s -> busy s = true -> (forall t, t ∈ activeThreads s -> settled s t) ->
  cnt (counted s) (activeThreads s) = (num posted s + num unposted s)%nat.
Proof.
  intros HI Hbz Hs. apply cnt_split. intros x Hx. unfold counted. destruct (Nat.eqb_spec x (ckptThread s)) as [->|Hne].
  - destruct (i_ckpt_th s HI) as (c & Ec & _ & _ & Hu). unfold tst. rewrite Ec. cbn. unfold posted, unposted. rewrite Hu. done.
  - destruct (i_thread s HI x Hx Hne) as (th & Ht & _ & Hok). destruct (Hs x Hx) as [?|H]; [done|]. unfold tst in *. rewrite Ht in *. cbn in *.
    rewrite Hbz in Hok. unfold settled_th, posted, unposted in *. destruct (th_exiting th) eqn:Hex.
    + destruct (th_state th); try (intuition congruence). destruct Hok as ([->|[_ ?]] & _); at_pc.
    + cbn in *. destruct (th_pc th); at_pc; done.
Qed.

(** *** Every step keeps the invariant *)

Lemma init_inv s : Inv s -> c_pc s = CInit ->
  Inv (s <| writer := true |> <| readers := 0%nat |> <| numUserThreads := 0%nat |> <| c_pc := CScan (activeThreads s) false |>).
Proof.
  intros HI Hpc. pose proof (i_phase s HI) as Hq. unfold phase_ok in Hq. rewrite Hpc in Hq.
  destruct Hq as (Hnd & Hck & Hc & Hth & Hg & Hw & Hr & Hs). split; try done.
  - intros t Hin Hne. destruct (Hth t Hin Hne) as (th & Ht & H1 & H2 & H3). exists th. split; [done|]. unfold thread_ok. rewrite H1. tauto.
  - unfold phase_ok. cbn. split_and!; [done| |exists []; split; [done|]; intros _; split; [by intros t Ht%elem_of_nil|done]].
    change (semNotifyCkptThread s = num posted s). rewrite Hs. symmetry. apply cnt_zero. intros t Hin. unfold tst, posted.
    destruct (decide (t = ckptThread s)) as [->|Hne].
    + destruct Hc as (c & Ec & _ & _ & Hu). rewrite Ec. cbn. by rewrite Hu.
    + destruct (Hth t Hin Hne) as (th & Ht & _ & H2 & _). rewrite Ht. cbn. by rewrite H2.
Qed.

Lemma wait_inv s s' : Inv s -> (exists n, c_pc s = CWait n) -> step_ckpt s = Some s' -> Inv s'.
Proof.
  intros HI [n Hpc] Hst. pose proof (i_phase s HI) as Hph. unfold phase_ok in Hph. rewrite Hpc in Hph.
  destruct Hph as (Hw & Hset & Hnum & Hn). unfold step_ckpt in Hst. rewrite Hpc in Hst.
  assert (Hbz : busy s = true) by (unfold busy; by rewrite Hpc).
  assert (Hsg : forall x, signalling s x = false) by (intros x; unfold signalling; by rewrite Hpc).
  destruct n as [|n].
  - destruct (activeThreads s) as [|a l] eqn:Ea; [done|]. injection Hst as <-. apply (move_inv s); try done.
    unfold phase_ok. cbn. rewrite <- Ea in *. split_and!; [done| |done| |exists []; split; [done|]; intros _ x Hx; by apply elem_of_nil in Hx].
    + change (semNotifyCkptThread s = 0%nat). lia.
    + assert (Hz : num unposted s = 0%nat) by lia. unfold num in Hz. rewrite cnt_zero in Hz.
      intros t Hin. specialize (Hz t Hin). destruct (Hset t Hin) as [->|H]; [by left; left|]. unfold stopped.
      change (tst posted (s <| c_pc := CExiting (activeThreads s) false |>) t) with (tst posted s t).
      change (tst th_exiting (s <| c_pc := CExiting (activeThreads s) false |>) t) with (tst th_exiting s t).
      unfold tst, settled_th in *. destruct (threads s !! t) as [th|]; [|done]. cbn in *. rewrite Hz, orb_false_r in H.
      apply orb_prop in H. tauto.
  - destruct (semNotifyCkptThread s) as [|k] eqn:Ek; [done|]. injection Hst as <-. apply (move_inv s); try done.
    unfold phase_ok. cbn. split_and!; [done|done|done|]. change (n = (k + num unposted s)%nat). lia.
Qed.

Lemma exiting_inv s s' : Inv s -> (exists rest nr, c_pc s = CExiting rest nr) -> step_ckpt s = Some s' -> Inv s'.
Proof.
  intros HI (rest & nr & Hpc) Hst. pose proof (i_phase s HI) as Hph. unfold phase_ok in Hph. rewrite Hpc in Hph.
  destruct Hph as (Hw & Hsem & Hnum & Hstop & before & El & Hb). unfold step_ckpt in Hst. rewrite Hpc in Hst.
  assert (Hbz : busy s = true) by (unfold busy; by rewrite Hpc).
  assert (Hsg : forall x, signalling s x = false) by (intros x; unfold signalling; by rewrite Hpc).
  destruct rest as [|t rest].
  - destruct nr; injection Hst as <-; apply (move_inv s); try done; unfold phase_ok; cbn.
    + split_and!; [done..|]. exists []. split; [done|]. intros _ x Hx; by apply elem_of_nil in Hx.
    + rewrite app_nil_r in El. subst before. specialize (Hb eq_refl). split_and!; [done|done| |].
      * change (length (activeThreads s) = S (numUserThreads s)). rewrite Hnum.
        assert (E : cnt (counted s) (activeThreads s) = length (filter (fun x => x <> ckptThread s) (activeThreads s))).
        { rewrite (cnt_same (fun x => negb (x =? ckptThread s)%nat)); [|intros x Hx; unfold counted; by rewrite Hb, andb_true_r].
          unfold cnt. f_equal. apply list_filter_iff. intros x. rewrite negb_true_iff. apply Nat.eqb_neq. }
        rewrite E. apply length_filter_ne; apply HI.
      * intros t Hin. destruct (Hstop t Hin) as [?|H]; [done|]. by rewrite Hb in H.
  - assert (Hin : t ∈ activeThreads s) by (rewrite El; set_solver).
    unfold wait_exiting in Hst. destruct (threads s !! t) as [th|] eqn:Ht; [|done]. cbn in Hst.
    assert (Hte : tst th_exiting s t = th_exiting th) by (unfold tst; by rewrite Ht).
    destruct (th_exiting th) eqn:Hx.
    + destruct (th_alive th) eqn:Ha; injection Hst as <-.
      * apply (move_inv s); try done. unfold phase_ok. cbn. split_and!; [done..|]. exists (before ++ [t]). split; [by rewrite <- app_assoc|done].
      * assert (Hne : t <> ckptThread s).
        { intros ->. destruct (i_ckpt_th s HI) as (c & Ec & _ & Hc & _). simplify_eq; congruence. }
        assert (Ef : filter (fun x => x <> t) (activeThreads s) = before ++ rest).
        { rewrite El. apply filter_out. rewrite <- El. apply HI. }
        apply (remove_inv s _ t th); try done. unfold phase_ok, threadIsDead, set_field. cbn. rewrite Ef. split_and!; [done|done| | |].
        -- assert (Hc : counted s t = false) by (unfold counted; by rewrite Hte, andb_false_r).
           change (numUserThreads s = cnt (counted s) (before ++ rest)). rewrite Hnum, El, !cnt_app, cnt_cons, Hc. cbn. lia.
        -- intros x Hxin. apply (Hstop x). rewrite El. set_solver.
        -- exists before. split; [done|]. done.
    + injection Hst as <-. apply (move_inv s); try done. unfold phase_ok. cbn. split_and!; [done..|]. exists (before ++ [t]).
      split; [by rewrite <- app_assoc|]. intros Hf x [Hxb|Hxt%list_elem_of_singleton]%elem_of_app; [by apply (Hb Hf)|]. by subst.
Qed.

Lemma scan_end_inv s nr s' : Inv s -> c_pc s = CScan [] nr -> step_ckpt s = Some s' -> Inv s'.
Proof.
  intros HI Hpc Hst. pose proof (i_phase s HI) as Hph. unfold phase_ok in Hph. rewrite Hpc in Hph.
  destruct Hph as (Hw & Hsem & before & El & Hb). rewrite app_nil_r in El. subst before. unfold step_ckpt in Hst. rewrite Hpc in Hst.
  assert (Hbz : busy s = true) by (unfold busy; by rewrite Hpc).
  assert (Hsg : forall x, signalling s x = false) by (intros x; unfold signalling; by rewrite Hpc).
  destruct nr; injection Hst as <-; apply (move_inv s); try done; unfold phase_ok; cbn.
  - split_and!; [done|done|]. exists []. split; [done|]. intros _. split; [by intros t Ht%elem_of_nil|done].
  - destruct (Hb eq_refl) as [Hset Hnum]. split_and!; [done|done|done|].
    change (numUserThreads s = (semNotifyCkptThread s + num unposted s)%nat).
    by rewrite Hnum, Hsem, (counted_split s HI Hbz Hset).
Qed.

Lemma resume_inv s : Inv s -> c_pc s = CStopped -> Inv (s <| writer := false |> <| c_pc := CIdle |>).
Proof.
  intros HI Hpc. pose proof (i_phase s HI) as Hph. unfold phase_ok in Hph. rewrite Hpc in Hph.
  destruct Hph as (Hw & Hsem & Hlen & Hstop).
  assert (Hbz : busy s = true) by (unfold busy; by rewrite Hpc).
  assert (Hpost : forall t, t ∈ activeThreads s -> t <> ckptThread s -> exists th, threads s !! t = Some th /\ th_pc th = URdLock /\ thread_ok false true th).
  { intros t Hin Hne. destruct (i_thread s HI t Hin Hne) as (th & Ht & Hok). exists th. split; [done|].
    unfold signalling in Hok. rewrite Hpc, Hbz in Hok. split; [|done].
    destruct (Hstop t Hin) as [?|H]; [done|]. unfold tst, posted in H. rewrite Ht in H. cbn in H. by case_bool_decide. }
  split; try apply HI.
  - intros t Hin Hne. destruct (Hpost t Hin Hne) as (th & Ht & Hp & Ha & Hok). exists th. split; [done|]. split; [done|].
    rewrite Hp in *. cbn. destruct (th_state th); intuition congruence.
  - intros ?. done.
  - unfold phase_ok. cbn. split_and!; [done|done|]. change (readers s = num holds s). rewrite (i_readers s HI Hbz). symmetry.
    apply cnt_zero. intros t Hin. unfold tst, holds. destruct (decide (t = ckptThread s)) as [->|Hne].
    + destruct (i_ckpt_th s HI) as (c & Ec & _ & _ & Hu). rewrite Ec. cbn. by rewrite Hu.
    + destruct (Hpost t Hin Hne) as (th & Ht & Hp & _). rewrite Ht. cbn. by rewrite Hp.
Qed.

(** Requests come when nothing is left of the last checkpoint. *)
Lemma request_inv s : Inv s -> c_pc s = CIdle -> quiet s -> Inv (s <| c_pc := CInit |>).
Proof.
  intros HI Hpc Hq. split; try apply HI.
  - intros t Hin Hne. destruct (i_thread s HI t Hin Hne) as (th & Ht & Hok). exists th. split; [done|].
    unfold signalling, busy in *. by rewrite Hpc in Hok.
  - intros ?. done.
  - exact Hq.
Qed.

Definition orderly (s s' : State) : Prop := step s s' /\ (c_pc s = CIdle -> c_pc s' = CInit -> quiet s).

Lemma ckpt_inv s s' : Inv s -> step_ckpt s = Some s' -> (c_pc s = CIdle -> c_pc s' = CInit -> quiet s) -> Inv s'.
Proof.
  intros HI Hst Hq. destruct (c_pc s) eqn:Hpc.
  - unfold step_ckpt in Hst. rewrite Hpc in Hst. injection Hst as <-. by apply request_inv; [..|apply Hq].
  - unfold step_ckpt in Hst. rewrite Hpc in Hst. injection Hst as <-. by apply init_inv.
  - destruct rest as [|t rest]; [by eapply scan_end_inv|]. unfold step_ckpt in Hst. rewrite Hpc in Hst. by eapply scan_inv.
  - unfold step_ckpt in Hst. rewrite Hpc in Hst. by eapply signal_inv.
  - eapply wait_inv; eauto.
  - eapply exiting_inv; eauto.
  - unfold step_ckpt in Hst. rewrite Hpc in Hst. injection Hst as <-. by apply resume_inv.
Qed.

(** The threads that come and go. *)
Lemma exit_inv s t s' : Inv s -> step_exit t s = Some s' -> Inv s'.
Proof.
  intros HI Hst. unfold step_exit in Hst. destruct (threads s !! t) as [th|] eqn:Ht; [|done]. cbn in Hst.
  case_bool_decide as Hpc; [|done]. destruct (Nat.eqb_spec t (ckptThread s)) as [|Hne]; [done|].
  destruct (th_alive th) eqn:Ha; [|done]. case_bool_decide as Hu; [|done]. injection Hst as <-.
  pose proof (alive_active s t th HI Ht Ha) as Hin.
  pose proof (i_phase s HI) as Hph. unfold phase_ok in Hph. rewrite Hpc in Hph. destruct Hph as (Hw & Hsem & Hrd).
  assert (Hch : changed t (threadExit th) s (set_thread t (threadExit th) s)) by done.
  pose proof (thread_of s t th HI Hin Hne Ht) as [_ Hok]. unfold busy in Hok. rewrite Hpc in Hok.
  split; try apply HI; unfold set_thread, set_field; cbn.
  - rewrite lookup_insert_ne by done. apply HI.
  - intros x Hx Hxc. unfold signalling, busy. cbn. rewrite Hpc. destruct (decide (x = t)) as [->|Hxt].
    + exists (threadExit th). rewrite lookup_insert_eq. split; [done|]. unfold threadExit, set_field. cbn. split; [cbn; congruence|]. cbn.
      destruct (th_state th); intuition congruence.
    + rewrite lookup_insert_ne by done. destruct (i_thread s HI x Hx Hxc) as (y & Hy & Hy'). exists y. split; [done|].
      unfold signalling, busy in Hy'. by rewrite Hpc in Hy'.
  - intros x y. destruct (decide (x = t)) as [->|Hxt]; [done|]. rewrite lookup_insert_ne by done. apply HI.
  - unfold phase_ok. cbn. rewrite Hpc. split_and!; [done|done|].
    pose proof (num_change s _ t th _ HI Hch Hin Ht holds) as Hn. change (holds (threadExit th)) with (holds th) in Hn.
    change (readers s = num holds (set_thread t (threadExit th) s)). lia.
Qed.

Lemma create_inv s t s' : Inv s -> step_create t s = Some s' -> Inv s'.
Proof.
  intros HI Hst. unfold step_create in Hst. case_bool_decide as Hpc; [|done].
  destruct (Nat.eqb_spec t (ckptThread s)) as [|Hne]; [done|].
  destruct (from_option th_alive false (threads s !! t)) eqn:Ha; [done|]. injection Hst as <-.
  pose proof (i_phase s HI) as Hph. unfold phase_ok in Hph. rewrite Hpc in Hph. destruct Hph as (Hw & Hsem & Hrd).
  set (keep := fun x => x <> t /\ negb (from_option (fun th => th_exiting th && negb (th_alive th)) false (threads s !! x)) = true).
  assert (Hel : forall x, x ∈ filter keep (activeThreads s) -> x <> t /\ x ∈ activeThreads s).
  { intros x [[? _] ?]%list_elem_of_filter. done. }
  split; unfold addToActiveList, set_field; cbn.
  - apply NoDup_cons. split; [by intros [? _]%Hel|]. apply NoDup_filter, HI.
  - right. apply list_elem_of_filter. split; [|apply HI]. split; [done|].
    destruct (i_ckpt_th s HI) as (c & Ec & _ & Hc & _). rewrite Ec. cbn. by rewrite Hc.
  - cbn. rewrite lookup_insert_ne by done. apply HI.
  - intros x Hx Hxc. unfold signalling, busy. cbn in *. rewrite Hpc. destruct (decide (x = t)) as [->|Hxt].
    + exists prepareThread. rewrite lookup_insert_eq. split; [done|]. split; [done|]. cbn. tauto.
    + rewrite lookup_insert_ne by done. apply elem_of_cons in Hx as [?|Hx]; [done|]. apply Hel in Hx as [_ Hx].
      destruct (i_thread s HI x Hx Hxc) as (y & Hy & Hy'). exists y. split; [done|]. unfold signalling, busy in Hy'. by rewrite Hpc in Hy'.
  - intros x y. cbn. destruct (decide (x = t)) as [->|Hxt]; [intros _ []; left|]. rewrite lookup_insert_ne by done.
    intros Hx Hn. destruct (decide (x ∈ activeThreads s)) as [Hin|Hout]; [|by eapply (i_gone s HI)].
    destruct (th_alive y) eqn:Hy; [|done]. destruct Hn. right. apply list_elem_of_filter. split; [|done]. split; [done|].
    rewrite Hx. cbn. by rewrite Hy, andb_false_r.
  - unfold busy. cbn. by rewrite Hpc.
  - unfold phase_ok. cbn. rewrite Hpc. split_and!; [done|done|]. rewrite Hrd.
    change (num holds s = cnt (tst holds (addToActiveList t s)) (t :: filter keep (activeThreads s))). rewrite cnt_cons.
    assert (E1 : tst holds (addToActiveList t s) t = false).
    { unfold tst, addToActiveList, set_field. cbn. by rewrite lookup_insert_eq. }
    rewrite E1. cbn [Nat.b2n plus]. unfold num. rewrite (cnt_same (tst holds s) (tst holds (addToActiveList t s))).
    2:{ intros y [Hyt _]%Hel. unfold tst, addToActiveList, set_field. cbn. by rewrite lookup_insert_ne. }
    symmetry. apply cnt_filter. intros x Hx Hn. unfold keep in Hn. unfold tst.
    destruct (decide (x = ckptThread s)) as [->|Hxc].
    { destruct (i_ckpt_th s HI) as (c & Ec & _ & _ & Hu). rewrite Ec. cbn. unfold holds. by rewrite Hu. }
    destruct (i_thread s HI x Hx Hxc) as (y & Hy & Hal & _). rewrite Hy in *. cbn in *.
    assert (th_alive y = false) as Hd.
    { destruct (decide (x = t)) as [->|Hxt]; [by rewrite Hy in Ha|]. destruct (th_alive y); [|done]. destruct Hn. split; [done|]. by rewrite andb_false_r. }
    unfold holds. by rewrite Hal.
Qed.

Lemma orderly_inv s s' : Inv s -> orderly s s' -> Inv s'.
Proof.
  intros HI [[Hst|(t & [Hst|[Hst|[Hst|Hst]]])] Hq]; [by eapply ckpt_inv|by eapply user_inv|by eapply die_inv|by eapply create_inv|by eapply exit_inv].
Qed.

Lemma suspend_run_inv s s' : Inv s -> rtc orderly s s' -> Inv s'.
Proof. intros HI H. induction H; [done|]. eauto using orderly_inv. Qed.

(** ** The suspension completes *)

(** What is left to do for a thread, and a thread that can be left to go on by itself: the exiting ones end. *)
Definition work (th : Thread) : nat :=
  if th_exiting th then Nat.b2n (th_alive th)
  else match th_state th with
  | ST_RUNNING => 6
  | ST_SIGNALED => if th_alive th then match th_pc th with UHandler => 3 | _ => if th_pending th then 4 else 5 end else 0
  | ST_SUSPINPROG => 2
  | ST_SUSPENDED => match th_pc th with UPost => 1 | _ => 0 end
  | _ => 0
  end.
Definition goes (th : Thread) : bool :=
  th_alive th && (th_exiting th || th_pending th || bool_decide (th_pc th = UHandler) || unposted th).
Definition worked (s : State) (t : nat) : nat := from_option work 0%nat (threads s !! t).
Definition total (s : State) : nat := sum_list_with (worked s) (activeThreads s).

(** The steps the checkpoint thread still needs if no other thread moves. *)
Definition rank (s : State) : nat :=
  let n := length (activeThreads s) in
  match c_pc s with
  | CIdle => 0
  | CInit => 5 * n + 10
  | CScan rest nr => 3 * n + 4 + Nat.b2n nr * S n + length rest
  | CSignal _ rest nr => 3 * n + 5 + Nat.b2n nr * S n + length rest
  | CWait k => 2 * n + 3 + k
  | CExiting rest nr => S (Nat.b2n nr * S n + length rest)
  | CStopped => 0
  end.

(** The steps that finish the suspension: no new request, and no thread ends but the exiting ones. *)
Definition calm (s s' : State) : Prop :=
  step_ckpt s = Some s' /\ c_pc s <> CIdle \/
  exists t, step_user t s = Some s' \/ step_die t s = Some s' /\ tst th_exiting s t = true.

Lemma calm_inv s s' : Inv s -> calm s s' -> Inv s'.
Proof. intros HI [[Hst Hn]|(t & [Hst|[Hst _]])]; [by eapply ckpt_inv|by eapply user_inv|by eapply die_inv]. Qed.

Lemma total_change s s' t th th' : Inv s -> changed t th' s s' -> t ∈ activeThreads s -> threads s !! t = Some th ->
  (work th' < work th)%nat -> (total s' < total s)%nat.
Proof.
  intros HI (Et & Ea & _) Hin Ht Hw. unfold total. rewrite Ea.
  assert (worked s t = work th /\ worked s' t = work th') as [E1 E2].
  { unfold worked. by rewrite Et, Ht, lookup_insert_eq. }
  pose proof (sum_change (worked s) (worked s') (activeThreads s) t (i_nodup s HI) Hin) as H. rewrite E1, E2 in H.
  enough (sum_list_with (worked s') (activeThreads s) + work th = sum_list_with (worked s) (activeThreads s) + work th')%nat by lia.
  apply H. intros y _ Hy. unfold worked. rewrite Et. by rewrite lookup_insert_ne.
Qed.

(** A thread that goes on makes progress while the others are suspended. *)
Lemma thread_progress s t th : Inv s -> busy s = true -> t ∈ activeThreads s -> t <> ckptThread s -> threads s !! t = Some th -> goes th = true ->
  exists s', calm s s' /\ c_pc s' = c_pc s /\ (total s' < total s)%nat.
Proof.
  intros HI Hbz Hin Hne Ht Hg. pose proof (thread_of s t th HI Hin Hne Ht) as [_ Hok]. rewrite Hbz in Hok.
  unfold goes in Hg. destruct (th_alive th) eqn:Ha; [|done]. cbn in Hg.
  assert (Hk : forall th' s', changed t th' s s' -> calm s s' -> (work th' < work th)%nat -> exists s', calm s s' /\ c_pc s' = c_pc s /\ (total s' < total s)%nat).
  { intros th' s' Hch Hst Hw. exists s'. split; [done|]. split; [apply Hch|]. by eapply total_change. }
  assert (Hu : step_user t s = stopthisthread t th s).
  { unfold step_user. rewrite Ht. cbn. by rewrite Ha, (proj2 (Nat.eqb_neq _ _) Hne). }
  destruct (th_exiting th) eqn:Hx.
  { assert (th_pc th = UUser) as Hpc by (destruct (th_state th); intuition congruence).
    eapply (Hk (th <| th_alive := false |>)); [|right; exists t; right; split|].
    2:{ unfold step_die. rewrite Ht. cbn. rewrite Ha, (proj2 (Nat.eqb_neq _ _) Hne), bool_decide_true by done. done. }
    - done.
    - unfold tst. by rewrite Ht.
    - unfold work, set_field. cbn. rewrite Hx, Ha. cbn. lia. }
  unfold unposted in Hg. unfold stopthisthread, Thread_UpdateState in Hu. destruct (th_state th) eqn:Es; try done.
  - destruct Hok as ([Hpc|[_ ?]] & Hp); [|done]. by rewrite Hpc, Hp in Hg.
  - destruct Hok as (_ & _ & [[Hpc Hp]|(Hpc & Hp & Hsg)]); rewrite Hpc in Hu.
    + rewrite Hpc in Hg. cbn in Hg. rewrite !orb_false_r in Hg. rewrite Hg in Hu. eapply Hk; [|right; exists t; left; exact Hu|]; [done|].
      unfold work, set_field. cbn. rewrite Hx, Es, Ha, Hpc, Hg. lia.
    + rewrite decide_True in Hu by done. eapply Hk; [|right; exists t; left; exact Hu|]; [done|].
      unfold work, set_field. cbn. rewrite Hx, Es, Ha, Hpc. lia.
  - destruct Hok as (_ & _ & Hp & Hpc). rewrite Hpc, decide_True in Hu by done. cbn in Hu.
    eapply Hk; [|right; exists t; left; exact Hu|]; [done|]. unfold work, set_field. cbn. rewrite Hx, Es. lia.
  - destruct Hok as (_ & Hp & Hpc). rewrite Hp in Hg. cbn in Hg. destruct Hpc as [Hpc|[[Hpc _]|[_ ?]]]; [by rewrite Hpc in Hg| |done].
    rewrite Hpc in Hu. eapply Hk; [|right; exists t; left; exact Hu|]; [done|]. unfold work, set_field. cbn. rewrite Hx, Es, Hpc. lia.
Qed.

(** With every thread at rest, the checkpoint thread makes progress. *)
Definition forward (s s' : State) : Prop :=
  calm s s' /\ c_pc s' <> CIdle /\ ((total s' < total s)%nat \/ (total s' <= total s)%nat /\ (rank s' < rank s)%nat).

Lemma ckpt_moves s s' : step_ckpt s = Some s' -> c_pc s <> CIdle -> c_pc s' <> CIdle -> threads s' = threads s ->
  activeThreads s' = activeThreads s -> (rank s' < rank s)%nat -> forward s s'.
Proof.
  intros Hst Hn Hn' Et Ea Hr. split; [by left|]. split; [done|]. right. split; [|done]. unfold total, worked. by rewrite Et, Ea.
Qed.

Lemma dead_leaves s s' t : step_ckpt s = Some s' -> c_pc s <> CIdle -> c_pc s' <> CIdle -> threads s' = threads s ->
  activeThreads s' = filter (fun x => x <> t) (activeThreads s) -> (rank s' < rank s)%nat -> forward s s'.
Proof.
  intros Hst Hn Hn' Et Ea Hr. split; [by left|]. split; [done|]. right. split; [|done]. unfold total, worked. rewrite Et, Ea. apply sum_filter.
Qed.

Section progress.
Context (s : State).
Hypothesis HI : Inv s.
Hypothesis Hrest : forall t th, t ∈ activeThreads s -> t <> ckptThread s -> threads s !! t = Some th -> goes th = false.

Lemma resting t th : busy s = true -> t ∈ activeThreads s -> t <> ckptThread s -> threads s !! t = Some th -> th_alive th = true ->
  th_exiting th = false /\ (th_state th = ST_RUNNING \/ th_state th = ST_SIGNALED /\ th_pc th = UUser /\ th_pending th = false /\ signalling s t = true \/
    th_state th = ST_SUSPENDED /\ th_pc th = URdLock).
Proof.
  intros Hbz Hin Hne Ht Ha. pose proof (Hrest t th Hin Hne Ht) as Hg. unfold goes in Hg. rewrite Ha in Hg. cbn in Hg.
  apply orb_false_iff in Hg as [[[Hx Hp]%orb_false_iff Hh]%orb_false_iff Hup]. unfold unposted in Hup.
  apply orb_false_iff in Hup as [Hsv Hpo]. case_bool_decide as H1; [done|]. case_bool_decide as H2; [done|]. case_bool_decide as H3; [done|].
  split; [done|]. pose proof (thread_of s t th HI Hin Hne Ht) as [_ Hok]. rewrite Hbz in Hok.
  destruct (th_state th) eqn:Es; try done; [by left| | |].
  - right. left. destruct Hok as (_ & _ & [[Hpc Hsg]|[? _]]); [|done]. specialize (Hsg Ha). rewrite Hp in Hsg. by destruct (signalling s t).
  - destruct Hok as (_ & _ & _ & ?). done.
  - right. right. destruct Hok as (_ & _ & [?|[[? _]|[_ ?]]]); done.
Qed.

Lemma head_in before (t : nat) rest : activeThreads s = before ++ t :: rest -> t ∈ activeThreads s /\
  length (filter (fun x => x <> t) (activeThreads s)) = length (before ++ rest) /\ length (activeThreads s) = S (length (before ++ rest)).
Proof.
  intros E. split_and!; [rewrite E; set_solver| |].
  - rewrite E, filter_out; [done|]. rewrite <- E. apply HI.
  - rewrite E, !length_app. cbn. lia.
Qed.

Lemma scan_progress t rest nr : c_pc s = CScan (t :: rest) nr -> exists s', forward s s'.
Proof.
  intros Hpc. destruct (scan_facts s t rest nr HI Hpc) as (Hbz & Hsg & Hin & Hw & Hsem & before & El & Hb).
  assert (Hst : step_ckpt s = scan_thread t rest nr s) by (unfold step_ckpt; by rewrite Hpc).
  assert (Hnext : forall s', step_ckpt s = Some s' -> threads s' = threads s -> activeThreads s' = activeThreads s -> c_pc s' = CScan rest nr -> forward s s').
  { intros s' H Et Ea Ep. apply ckpt_moves; [done|by rewrite Hpc|by rewrite Ep|done..|]. unfold rank. rewrite Ea, Ep, Hpc. cbn. lia. }
  unfold scan_thread in Hst. destruct (Nat.eqb_spec t (ckptThread s)) as [Ec|Hne]; [eexists; by apply (Hnext _ Hst)|].
  destruct (i_thread s HI t Hin Hne) as (th & Ht & Hal & Hok). rewrite Ht in Hst. cbn in Hst.
  rewrite Hsg, Hbz in Hok. destruct (th_exiting th) eqn:Hx; [eexists; by apply (Hnext _ Hst)|].
  destruct (th_state th) eqn:Es; try done.
  - unfold Thread_UpdateState in Hst. rewrite Es, decide_True in Hst by done. cbn in Hst. eexists. split; [left; split; [exact Hst|by rewrite Hpc]|].
    split; [done|]. left. change (total (set_thread t (th <| th_state := ST_SIGNALED |>) s) < total s)%nat. eapply (total_change s _ t th); try done.
    unfold work, set_field. cbn. rewrite Hx, Es. destruct (th_alive th), (th_pc th), (th_pending th); lia.
  - destruct (th_alive th) eqn:Ha.
    + destruct (resting t th Hbz Hin Hne Ht Ha) as (_ & [?|[(_ & _ & _ & H)|[? _]]]); congruence.
    + eexists. eapply (dead_leaves s _ t Hst); try done; [by rewrite Hpc|]. destruct (head_in before t rest El) as (_ & E1 & E2).
      unfold rank, threadIsDead, set_field. cbn. rewrite E1, E2, Hpc. cbn. destruct nr; cbn; lia.
  - eexists. by apply (Hnext _ Hst).
  - eexists. by apply (Hnext _ Hst).
Qed.

Lemma signal_progress t rest nr : c_pc s = CSignal t rest nr -> exists s', forward s s'.
Proof.
  intros Hpc. pose proof (i_phase s HI) as Hph. unfold phase_ok in Hph. rewrite Hpc in Hph.
  destruct Hph as (Hw & Hsem & Hne & (th & Ht & Es) & before & El & Hb).
  assert (Hbz : busy s = true) by (unfold busy; by rewrite Hpc). destruct (head_in before t rest El) as (Hin & E1 & E2).
  assert (Hst : step_ckpt s = signal_thread t rest nr s) by (unfold step_ckpt; by rewrite Hpc).
  unfold signal_thread in Hst. rewrite Ht in Hst. cbn in Hst. destruct (th_alive th) eqn:Ha.
  - destruct (resting t th Hbz Hin Hne Ht Ha) as (Hx & [?|[(_ & Hu & Hp & _)|[? _]]]); try congruence.
    eexists. split; [left; split; [exact Hst|by rewrite Hpc]|]. split; [done|]. left.
    change (total (set_thread t (th <| th_pending := true |>) s) < total s)%nat. eapply (total_change s _ t th); try done.
    unfold work, set_field. cbn. rewrite Hx, Es, Ha, Hu, Hp. lia.
  - eexists. eapply (dead_leaves s _ t Hst); try done; [by rewrite Hpc|].
    unfold rank, threadIsDead, set_field. cbn. rewrite E1, E2, Hpc. destruct nr; cbn; lia.
Qed.

Lemma wait_progress n : c_pc s = CWait n -> exists s', forward s s'.
Proof.
  intros Hpc. pose proof (i_phase s HI) as Hph. unfold phase_ok in Hph. rewrite Hpc in Hph. destruct Hph as (Hw & Hset & Hnum & Hn).
  assert (Hbz : busy s = true) by (unfold busy; by rewrite Hpc).
  assert (Hz : num unposted s = 0%nat).
  { apply cnt_zero. intros t Hin. unfold tst. destruct (decide (t = ckptThread s)) as [->|Hne].
    - destruct (i_ckpt_th s HI) as (c & Ec & _ & _ & Hu). rewrite Ec. cbn. unfold unposted. by rewrite Hu.
    - destruct (i_thread s HI t Hin Hne) as (th & Ht & Hal & Hok). rewrite Ht. cbn. destruct (th_alive th) eqn:Ha.
      + destruct (unposted th) eqn:Hu; [|done]. pose proof (Hrest t th Hin Hne Ht) as Hg. unfold goes in Hg. by rewrite Ha, Hu, orb_true_r in Hg.
      + unfold unposted. by rewrite Hal. }
  rewrite Hz, Nat.add_0_r in Hn. destruct n as [|n].
  - destruct (activeThreads s) as [|a l] eqn:Ea; [destruct (not_elem_of_nil (ckptThread s)); rewrite <- Ea; apply HI|].
    eexists. eapply ckpt_moves; [unfold step_ckpt; by rewrite Hpc, Ea|by rewrite Hpc|done|done|done|]. unfold rank, set_field. cbn. rewrite Hpc, Ea. cbn. lia.
  - eexists. eapply ckpt_moves; [unfold step_ckpt; by rewrite Hpc, <- Hn|by rewrite Hpc|done|done|done|].
    unfold rank, set_field. cbn. rewrite Hpc. lia.
Qed.

Lemma exiting_progress rest nr : c_pc s = CExiting rest nr -> exists s', forward s s'.
Proof.
  intros Hpc. pose proof (i_phase s HI) as Hph. unfold phase_ok in Hph. rewrite Hpc in Hph.
  destruct Hph as (Hw & Hsem & Hnum & Hstop & before & El & Hb).
  assert (Hbz : busy s = true) by (unfold busy; by rewrite Hpc). destruct rest as [|t rest].
  - destruct nr; eexists; (eapply ckpt_moves; [unfold step_ckpt; by rewrite Hpc|by rewrite Hpc|done|done|done|]);
      unfold rank, set_field; cbn; rewrite Hpc; cbn; lia.
  - destruct (head_in before t rest El) as (Hin & E1 & E2).
    assert (Hst : step_ckpt s = wait_exiting t rest nr s) by (unfold step_ckpt; by rewrite Hpc).
    assert (exists th, threads s !! t = Some th) as [th Ht].
    { destruct (decide (t = ckptThread s)) as [->|Hne]; [destruct (i_ckpt_th s HI) as (c & ? & _)|destruct (i_thread s HI t Hin Hne) as (c & ? & _)]; eauto. }
    unfold wait_exiting in Hst. rewrite Ht in Hst. cbn in Hst. destruct (th_exiting th) eqn:Hx.
    + assert (Hne : t <> ckptThread s).
      { intros ->. destruct (i_ckpt_th s HI) as (c & Ec & _ & Hc & _). congruence. }
      destruct (th_alive th) eqn:Ha.
      { destruct (resting t th Hbz Hin Hne Ht Ha) as [? _]. congruence. }
      eexists. eapply (dead_leaves s _ t Hst); try done; [by rewrite Hpc|].
      unfold rank, threadIsDead, set_field. cbn. rewrite E1, E2, Hpc. destruct nr; cbn; lia.
    + eexists. eapply (ckpt_moves s _ Hst); try done; [by rewrite Hpc|]. unfold rank, set_field. cbn. rewrite Hpc. cbn. lia.
Qed.

Lemma ckpt_progress : c_pc s <> CIdle -> c_pc s <> CStopped -> exists s', forward s s'.
Proof.
  intros Hi Hs. destruct (c_pc s) eqn:Hpc; try done.
  - eexists. eapply ckpt_moves; [unfold step_ckpt; by rewrite Hpc|by rewrite Hpc|done|done|done|]. unfold rank, set_field. cbn. rewrite Hpc. lia.
  - destruct rest as [|t rest]; [|by eapply scan_progress].
    destruct needrescan; eexists; (eapply ckpt_moves; [unfold step_ckpt; by rewrite Hpc|by rewrite Hpc|done|done|done|]);
      unfold rank, set_field; cbn; rewrite Hpc; cbn; [lia|].
    pose proof (i_phase s HI) as Hph. unfold phase_ok in Hph. rewrite Hpc in Hph. destruct Hph as (_ & _ & b & El & Hb).
    destruct (Hb eq_refl) as [_ ->]. rewrite app_nil_r in El. subst b. pose proof (cnt_le (counted s) (activeThreads s)). lia.
  - by eapply signal_progress.
  - by eapply wait_progress.
  - by eapply exiting_progress.
Qed.
End progress.

Definition moving (s : State) (t : nat) : Prop := t <> ckptThread s /\ tst goes s t = true.

Lemma some_progress s : Inv s -> c_pc s <> CIdle -> c_pc s <> CStopped -> exists s', forward s s'.
Proof.
  intros HI Hi Hs. destruct (decide (Exists (moving s) (activeThreads s))) as [Hex|Hno].
  - apply Exists_exists in Hex as (t & Hin & Hne & Hg). unfold tst in Hg. destruct (threads s !! t) as [th|] eqn:Ht; [|done]. cbn in Hg.
    destruct (busy s) eqn:Hbz.
    + destruct (thread_progress s t th HI Hbz Hin Hne Ht Hg) as (s' & Hc & Hp & Hw). exists s'. split; [done|]. split; [by rewrite Hp|by left].
    + assert (c_pc s = CInit) as Hpc by (unfold busy in Hbz; by destruct (c_pc s)).
      eexists. eapply ckpt_moves; [unfold step_ckpt; by rewrite Hpc|by rewrite Hpc|done|done|done|]. unfold rank, set_field. cbn. rewrite Hpc. lia.
  - apply ckpt_progress; [done| |done..]. intros t th Hin Hne Ht. destruct (goes th) eqn:Hg; [|done]. destruct Hno. apply Exists_exists.
    exists t. split; [done|]. split; [done|]. unfold tst. by rewrite Ht.
Qed.

Lemma completes s : Inv s -> c_pc s <> CIdle -> exists s', rtc calm s s' /\ c_pc s' = CStopped /\ Inv s'.
Proof.
  remember (total s) as n eqn:En. revert s En. induction n as [n IHn] using lt_wf_ind. intros s En.
  remember (rank s) as m eqn:Em. revert s En Em. induction m as [m IHm] using lt_wf_ind. intros s En Em HI Hi.
  destruct (decide (c_pc s = CStopped)) as [|Hs]; [exists s; split_and!; [apply rtc_refl|done|done]|].
  destruct (some_progress s HI Hi Hs) as (s1 & Hc & Hi1 & Hd). pose proof (calm_inv s s1 HI Hc) as HI1.
  assert (exists s', rtc calm s1 s' /\ c_pc s' = CStopped /\ Inv s') as (s' & H1 & H2 & H3).
  { destruct Hd as [Hd|[Hle Hr]]; [by eapply (IHn (total s1)); [lia|..]|]. destruct (decide (total s1 = total s)) as [E|E].
    - by eapply (IHm (rank s1)); [lia|congruence|..].
    - by eapply (IHn (total s1)); [lia|..]. }
  exists s'. split; [by eapply rtc_l|done].
Qed.

(** ** The properties *)

(** C9: safety, in the runs in which a request comes only when nothing is left of the last checkpoint ([orderly]): when the
    checkpoint thread goes on to write the image, whatever the interleaving, every
    other thread of the list is suspended with its context saved and waits at the resume lock, none of
    them is exiting, none can take a step, the list holds all threads that live and one thread more than were counted,
    and all their posts are consumed. *)
Theorem threads_stopped s s' : quiet s -> c_pc s = CIdle -> rtc orderly s s' -> c_pc s' = CStopped ->
  (forall t th, threads s' !! t = Some th -> th_alive th = true -> t ∈ activeThreads s') /\
  (forall t, t ∈ activeThreads s' -> t <> ckptThread s' -> exists th, threads s' !! t = Some th /\
     th_state th = ST_SUSPENDED /\ th_exiting th = false /\ th_alive th = true /\ th_pc th = URdLock /\ step_user t s' = None) /\
  length (activeThreads s') = S (numUserThreads s') /\ semNotifyCkptThread s' = 0%nat /\ writer s' = true.
Proof.
  intros Hq Hpc Hrun Hs. pose proof (suspend_run_inv s s' (quiet_inv s Hq Hpc) Hrun) as HI.
  pose proof (i_phase s' HI) as Hph. unfold phase_ok in Hph. rewrite Hs in Hph. destruct Hph as (Hw & Hsem & Hlen & Hstop).
  split_and!; [intros; by eapply alive_active| |done..].
  intros t Hin Hne. destruct (i_thread s' HI t Hin Hne) as (th & Ht & Hal & Hok). exists th.
  destruct (Hstop t Hin) as [?|Hp]; [done|]. unfold tst, posted in Hp. rewrite Ht in Hp. cbn in Hp. case_bool_decide as Hr; [|done].
  assert (Ha : th_alive th = true) by (destruct (th_alive th); [done|]; by rewrite Hal in Hr).
  destruct (th_state th); try (intuition congruence). split_and!; try tauto.
  unfold step_user. rewrite Ht. cbn. rewrite Ha, (proj2 (Nat.eqb_neq _ _) Hne). cbn. unfold stopthisthread. by rewrite Hr, Hw.
Qed.

(** C28: liveness, in the runs in which a request comes only when nothing is left of the last checkpoint ([orderly]; the run
    at the end of this file is not one of them): once a request is taken, the suspension can always be completed, by steps of the
    checkpoint thread, of the signal handlers and the end of threads that are exiting: in no such
    interleaving is a post lost, a thread missed by the scan or the scan repeated forever. *)
Theorem suspension_completes s s' : quiet s -> c_pc s = CIdle -> rtc orderly s s' -> c_pc s' <> CIdle ->
  exists s'', rtc calm s' s'' /\ c_pc s'' = CStopped.
Proof.
  intros Hq Hpc Hrun Hs. destruct (completes s' (suspend_run_inv s s' (quiet_inv s Hq Hpc) Hrun) Hs) as (s'' & H1 & H2 & _). eauto.
Qed.

(** *** Runs given as lists of events *)
Inductive event : Type := EvCkpt | EvUser (t : nat) | EvDie (t : nat) | EvCreate (t : nat) | EvExit (t : nat).

#[export] Instance event_eq_dec : EqDecision event.
Proof. solve_decision. Defined.

Definition step_event (e : event) (s : State) : option State :=
  match e with
  | EvCkpt => step_ckpt s | EvUser t => step_user t s | EvDie t => step_die t s | EvCreate t => step_create t s | EvExit t => step_exit t s
  end.

Fixpoint exec (es : list event) (s : State) : option State :=
  match es with [] => Some s | e :: es => s' ← step_event e s; exec es s' end.

(** The same, but for new requests. *)
Fixpoint exec_orderly (es : list event) (s : State) : option State :=
  match es with
  | [] => Some s
  | e :: es => if bool_decide (e = EvCkpt /\ c_pc s = CIdle) then None else s' ← step_event e s; exec_orderly es s'
  end.

Lemma step_event_step e s s' : step_event e s = Some s' -> step s s'.
Proof. destruct e; cbn; intros H; [by left|right; eauto..]. Qed.

Lemma exec_run es s s' : exec es s = Some s' -> rtc step s s'.
Proof.
  revert s. induction es as [|e es IH]; cbn; intros s H; [injection H as ->; apply rtc_refl|].
  destruct (step_event e s) as [s1|] eqn:E; [|done]. eapply rtc_l; [by eapply step_event_step|by apply IH].
Qed.

Lemma exec_orderly_run es s s' : exec_orderly es s = Some s' -> rtc orderly s s'.
Proof.
  revert s. induction es as [|e es IH]; cbn; intros s H; [injection H as ->; apply rtc_refl|].
  case_bool_decide as Hb; [done|]. destruct (step_event e s) as [s1|] eqn:E; [|done].
  eapply rtc_l; [|by apply IH]. split; [by eapply step_event_step|]. intros Hi Hi1. exfalso. destruct e; cbn in E; [by destruct Hb|..].
  all: unfold step_user, step_die, step_create, step_exit, stopthisthread, Thread_UpdateState in E.
  all: repeat (case_match || case_bool_decide || simplify_eq/= || unfold mbind, option_bind in E); try done.
  all: unfold set_thread, addToActiveList, set_field in Hi1; cbn in Hi1; congruence.
Qed.

(** *** A process with three user threads: one is exiting, one ends unannounced *)
Definition user_thread (ex : bool) : Thread := mk_Thread ST_RUNNING ex true false UUser.
Definition demo : State :=
  mk_State {[ 1%nat := mk_Thread ST_CKPNTHREAD false true false UUser; 2%nat := user_thread false; 3%nat := user_thread true; 4%nat := user_thread false ]}
    [1; 2; 3; 4]%nat 1 0 0 false 0 CIdle.
Definition demo_events : list event :=
  [EvCkpt; EvCkpt; EvCkpt; EvDie 4; EvCkpt; EvUser 2; EvUser 2; EvCkpt; EvCkpt; EvCkpt; EvCkpt; EvUser 2; EvCkpt; EvCkpt; EvCkpt; EvCkpt;
   EvUser 2; EvCkpt; EvCkpt; EvCkpt; EvCkpt; EvCkpt; EvDie 3; EvCkpt; EvCkpt; EvCkpt; EvCkpt; EvCkpt].

(** Quiet, for a given state. *)
Ltac solve_quiet :=
  split_and!; try done;
  [ repeat (apply NoDup_cons; split; [set_solver|]); apply NoDup_nil_2
  | cbn; set_solver
  | eexists; split; [reflexivity|done]
  | intros t Hin Hne; cbn in Hin, Hne;
    repeat (apply elem_of_cons in Hin as [->|Hin]; [first [congruence|eexists; split; [reflexivity|done]]|]); by apply elem_of_nil in Hin
  | intros t th Ht Hn; cbn in Ht, Hn; rewrite !not_elem_of_cons in Hn; destruct_and! Hn;
    by rewrite !lookup_insert_ne, lookup_singleton_ne in Ht by done ].

Lemma demo_quiet : quiet demo.
Proof. solve_quiet. Qed.

Lemma demo_run es s : exec_orderly es (demo <| c_pc := CInit |>) = Some s -> rtc orderly demo s.
Proof.
  intros H. eapply rtc_l; [|by eapply exec_orderly_run]. split; [by left|]. intros _ _. apply demo_quiet.
Qed.

Lemma threads_stopped_witness : match exec_orderly demo_events (demo <| c_pc := CInit |>) with
  | Some s => c_pc s = CStopped /\ activeThreads s = [1; 2]%nat /\ length (activeThreads s) = S (numUserThreads s)
  | None => False end.
Proof.
  destruct (exec_orderly demo_events (demo <| c_pc := CInit |>)) as [s|] eqn:E; [|by vm_compute in E].
  assert (Hpc : c_pc s = CStopped) by (vm_compute in E; injection E as <-; reflexivity).
  split; [exact Hpc|]. split; [vm_compute in E; injection E as <-; reflexivity|].
  exact (proj1 (proj2 (proj2 (threads_stopped demo s demo_quiet eq_refl (demo_run demo_events s E) Hpc)))).
Defined.

Lemma suspension_completes_witness : exists s'', rtc calm (demo <| c_pc := CInit |>) s'' /\ c_pc s'' = CStopped.
Proof.
  apply (suspension_completes demo (demo <| c_pc := CInit |>) demo_quiet eq_refl); [apply (demo_run []); reflexivity|discriminate].
Defined.

(** *** A request that comes too early *)

Definition early : State :=
  mk_State {[ 1%nat := mk_Thread ST_CKPNTHREAD false true false UUser; 2%nat := user_thread false ]} [1; 2]%nat 1 0 0 false 0 CIdle.
(** One checkpoint, and the request for the next one before the thread has taken the resume lock. *)
Definition early_events : list event :=
  [EvCkpt; EvCkpt; EvCkpt; EvCkpt; EvCkpt; EvUser 2; EvUser 2; EvUser 2; EvUser 2; EvCkpt; EvCkpt; EvCkpt; EvCkpt; EvCkpt; EvCkpt; EvCkpt; EvCkpt; EvCkpt; EvCkpt;
   EvCkpt; EvCkpt; EvCkpt; EvCkpt; EvCkpt].

Definition hung : State :=
  mk_State {[ 1%nat := mk_Thread ST_CKPNTHREAD false true false UUser; 2%nat := mk_Thread ST_SUSPENDED false true false URdLock ]}
    [1; 2]%nat 1 1 0 true 0 (CWait 1).

Lemma early_quiet : quiet early.
Proof. solve_quiet. Qed.

Lemma hung_stays s' : ~ step hung s'.
Proof.
  intros [H|(t & H)]; [done|]. destruct (decide (t = 1%nat)) as [->|H1]; [by destruct H as [H|[H|[H|H]]]; vm_compute in H|].
  destruct (decide (t = 2%nat)) as [->|H2]; [by destruct H as [H|[H|[H|H]]]; vm_compute in H|].
  assert (E : threads hung !! t = None) by (unfold hung; cbn; by rewrite lookup_insert_ne, lookup_singleton_ne by done).
  unfold step_user, step_die, step_create, step_exit in H. rewrite E in H. by destruct H as [H|[H|[H|H]]].
Qed.

(** C36: a checkpoint requested before a thread has left the handler of the last one can hang.  There is such a run: the scan
    finds the thread still [ST_SUSPENDED] and counts it, but it has posted for the last checkpoint only, so the
    checkpoint thread waits for the semaphore, and the thread waits for the resume lock, which has been
    initialised and taken again; no step is possible. *)
Theorem early_request_hangs : exists s0 s, quiet s0 /\ c_pc s0 = CIdle /\ rtc step s0 s /\
  (exists n, c_pc s = CWait (S n)) /\ forall s', ~ step s s'.
Proof.
  exists early, hung. split_and!; [apply early_quiet|done| |by eexists|apply hung_stays].
  apply (exec_run early_events). vm_compute. reflexivity.
Qed.

End Suspend.
