(* ===== verification/ThreadRestart.v ===== *)
(** * The threads of a process after a restart (src/threadlist.cpp)

    The memory of the process is back; only the main thread runs.  [postRestartWork] creates the other threads
    again; every one of them jumps to where it saved its context and they meet in [waitForAllRestored]: the user
    threads post a semaphore and wait for another one, the checkpoint thread collects the posts, runs the restart
    hooks of the plugins, installs the guard pages, sends the signals that were pending for the process, and lets the
    others go.  Every thread then raises the signals that were pending for it alone.

    A step is one access to what the threads share.  What was saved at the checkpoint is an [Image]; the image of a
    process stopped as in Threads is [taken] from its state. *)

From Stdlib Require Import ZArith Lia.
From stdpp Require Import base gmap strings numbers sets functions list.
From S2P Require Import Prelude Threads.
Import Suspend.

Module Restart.

(** ** What was saved *)

Definition sigset : Type := gset nat.
Definition SIGRTMAX : nat := 64.
Definition sigfillset : sigset := list_to_set (seq 1 SIGRTMAX).

(** The list of threads, the two that are special, the number the checkpoint thread counted, and for every thread its state, blocked and
    pending signals; the values of [sigpending_global] and of the semaphore [semNotifyCkptThread]; [im_signal] is the checkpoint signal. *)
Record Image : Type := mk_Image {
  im_threads : list nat; im_ckpt : nat; im_mother : nat; im_num : nat; im_state : nat -> ThreadState;
  sigblockmask : nat -> sigset; sigpending : nat -> sigset; im_global : sigset; im_sem : nat; im_signal : nat }.

(** [Thread_SaveSigState]: the kernel reports the signals that are pending for the process or for the thread, and blocked by it. *)
Definition Thread_SaveSigState (shared private mask : sigset) : sigset * sigset := (mask, (shared ∪ private) ∩ mask).

(** ** The state *)

(** Where a thread is: not there yet, the main thread in the loop of [postRestartWork] (with the threads that are left and [tmp]), in
    [restarthread], in [stopthisthread] before the change of state, in [waitForAllRestored] before the call named, back in its own code. *)
Inductive rpc : Type :=
| RAbsent | RLoop (rest : list nat) (tmp : sigset) | RJump | RRun | RPost | RWait | RRestore | RDone
| KWait (n : nat) | KPostRestart | KReinstall | KKill | KPost (n : nat).

(** The signals pending for the process and for each thread, and those that were delivered; whether the plugins and the guard pages are restored. *)
Record RState : Type := mk_RState {
  r_pc : nat -> rpc; r_state : nat -> ThreadState; sigpending_global : sigset; semNotify : nat; semWait : nat;
  r_shared : sigset; r_private : nat -> sigset; r_delivered : list nat; r_plugins : bool; r_guards : bool }.
#[export] Instance eta_RState : Settable RState :=
  {| eta_of s := mk_RState (r_pc s) (r_state s) (sigpending_global s) (semNotify s) (semWait s) (r_shared s) (r_private s) (r_delivered s) (r_plugins s) (r_guards s) |}.

Definition goto (t : nat) (p : rpc) (s : RState) : RState := s <| r_pc ::= <[t := p]> |>.

Lemma goto_here t p s : r_pc (goto t p s) t = p.
Proof. apply (fn_lookup_insert (r_pc s)). Qed.
Lemma goto_other t p s x : x <> t -> r_pc (goto t p s) x = r_pc s x.
Proof. intros Hx. apply (fn_lookup_insert_ne (r_pc s)). by apply not_eq_sym. Qed.

(** ** Signals *)

(** [kill]: the signal stays pending if all threads block it. *)
Definition kill (im : Image) (i : nat) (s : RState) : RState :=
  if forallb (fun t => bool_decide (i ∈ sigblockmask im t)) (im_threads im) then s <| r_shared ::= union {[i]} |>
  else s <| r_delivered ::= fun l => l ++ [i] |>.
Definition raise (im : Image) (t i : nat) (s : RState) : RState :=
  if bool_decide (i ∈ sigblockmask im t) then s <| r_private ::= fun f => <[t := {[i]} ∪ f t]> f |>
  else s <| r_delivered ::= fun l => l ++ [i] |>.

(** The loops over all signals, from the highest. *)
Definition signals : list nat := rev (seq 1 SIGRTMAX).
Definition kill_global (im : Image) (s : RState) : RState :=
  foldl (fun s i => if bool_decide (i ∈ sigpending_global s) then kill im i s else s) s signals.

Definition to_raise (im : Image) (global : sigset) (t i : nat) : bool :=
  bool_decide (i ∈ sigpending im t) && bool_decide (i ∈ sigblockmask im t) && negb (bool_decide (i ∈ global)) && negb (i =? im_signal im)%nat.
Definition Thread_RestoreSigState (im : Image) (t : nat) (s : RState) : RState :=
  foldl (fun s i => if to_raise im (sigpending_global s) t i then raise im t i s else s) s signals.

(** ** The steps of a thread; [None] when it cannot go on or an assertion fails *)

(** The body of the loop of [postRestartWork], for thread [th]. *)
Definition restart_thread (im : Image) (t th : nat) (rest : list nat) (tmp : sigset) (s : RState) : RState :=
  let g := tmp ∩ sigpending im th in
  let s := goto t (RLoop rest g) (s <| sigpending_global := g |>) in
  if (th =? im_mother im)%nat then s else goto th RJump s.

Definition rstep (im : Image) (t : nat) (s : RState) : option RState :=
  match r_pc s t with
  | RAbsent | RDone => None
  | RLoop (th :: rest) tmp => Some (restart_thread im t th rest tmp s)
  | RLoop [] _ => Some (goto t RJump s)
  | RJump => Some (goto t (if (t =? im_ckpt im)%nat then KWait (im_num im) else RRun) s)
  | RRun => if decide (r_state s t = ST_SUSPENDED) then Some (goto t RPost (s <| r_state ::= <[t := ST_RUNNING]> |>)) else None
  | RPost => Some (goto t RWait (s <| semNotify ::= S |>))
  | RWait => match semWait s with O => None | S k => Some (goto t RRestore (s <| semWait := k |>)) end
  | KWait (S n) => match semNotify s with O => None | S k => Some (goto t (KWait n) (s <| semNotify := k |>)) end
  | KWait O => Some (goto t KPostRestart s)
  | KPostRestart => Some (goto t KReinstall (s <| r_plugins := true |>))
  | KReinstall => Some (goto t KKill (s <| r_guards := true |>))
  | KKill => Some (goto t (KPost (im_num im)) (kill_global im s))
  | KPost (S n) => Some (goto t (KPost n) (s <| semWait ::= S |>))
  | KPost O => Some (goto t RRestore s)
  | RRestore => Some (goto t RDone (Thread_RestoreSigState im t s))
  end.

Definition rsteps (im : Image) (s s' : RState) : Prop := exists t, t ∈ im_threads im /\ rstep im t s = Some s'.

(** [postRestartWork] begins; what the kernel had pending is gone. *)
Definition postRestartWork (im : Image) : RState :=
  mk_RState (<[im_mother im := RLoop (im_threads im) sigfillset]> (fun _ => RAbsent)) (im_state im) (im_global im) (im_sem im) 0 ∅ (fun _ => ∅) [] false false.

(** ** The invariant *)

Record image_ok (im : Image) : Prop := {
  io_nodup : NoDup (im_threads im);
  io_ckpt : im_ckpt im ∈ im_threads im;
  io_mother : im_mother im ∈ im_threads im;
  io_other : im_mother im <> im_ckpt im;
  io_num : length (im_threads im) = S (im_num im);
  io_sem : im_sem im = 0%nat;
  io_state : forall t, t ∈ im_threads im -> t <> im_ckpt im -> im_state im t = ST_SUSPENDED;
  io_pending : forall t, t ∈ im_threads im -> sigpending im t ⊆ sigblockmask im t;
  io_signals : forall t, t ∈ im_threads im -> sigpending im t ⊆ sigfillset }.

(** The signals pending for all threads, for those alone that [Thread_RestoreSigState] raises. *)
Definition common (im : Image) (l : list nat) : sigset := foldl (fun g t => g ∩ sigpending im t) sigfillset l.
Definition global (im : Image) : sigset := common im (im_threads im).
Definition own (im : Image) (t : nat) : sigset := filter (fun i => to_raise im (global im) t i = true) sigfillset.

(** The thread has posted, it has been let go. *)
Definition posted (p : rpc) : bool := match p with RWait | RRestore | RDone => true | _ => false end.
Definition released (p : rpc) : bool := match p with RRestore | RDone => true | _ => false end.
Definition users (im : Image) (p : rpc -> bool) (s : RState) : nat := cnt (fun t => negb (t =? im_ckpt im)%nat && p (r_pc s t)) (im_threads im).

Definition user_ok (im : Image) (s : RState) (t : nat) : Prop :=
  match r_pc s t with
  | RAbsent => t <> im_mother im /\ r_state s t = ST_SUSPENDED
  | RLoop _ _ => t = im_mother im /\ r_state s t = ST_SUSPENDED
  | RJump | RRun => r_state s t = ST_SUSPENDED
  | RPost | RWait | RRestore | RDone => r_state s t = ST_RUNNING
  | _ => False
  end.

Definition loop_ok (im : Image) (s : RState) : Prop :=
  match r_pc s (im_mother im) with
  | RLoop rest tmp => exists done, im_threads im = done ++ rest /\ tmp = common im done /\ (done <> [] -> sigpending_global s = tmp) /\
      (forall t, t ∈ done -> t <> im_mother im -> r_pc s t <> RAbsent) /\ (forall t, t ∈ rest -> t <> im_mother im -> r_pc s t = RAbsent)
  | _ => sigpending_global s = global im /\ forall t, t ∈ im_threads im -> r_pc s t <> RAbsent
  end.

(** Nobody has been let go, nothing is restored yet but what the flags say. *)
Definition early (im : Image) (s : RState) (plugins guards : bool) : Prop :=
  semWait s = 0%nat /\ users im released s = 0%nat /\ r_shared s = ∅ /\ r_plugins s = plugins /\ r_guards s = guards.
(** All have posted; [n] posts of the checkpoint thread are left. *)
Definition late (im : Image) (s : RState) (n : nat) : Prop :=
  users im posted s = im_num im /\ semNotify s = 0%nat /\ (semWait s + users im released s + n = im_num im)%nat /\
  r_shared s = global im /\ r_plugins s = true /\ r_guards s = true.

Definition ckpt_ok (im : Image) (s : RState) : Prop :=
  match r_pc s (im_ckpt im) with
  | RAbsent | RJump => semNotify s = users im posted s /\ early im s false false
  | KWait n => (n <= im_num im)%nat /\ (semNotify s + (im_num im - n) = users im posted s)%nat /\ early im s false false
  | KPostRestart => semNotify s = 0%nat /\ users im posted s = im_num im /\ early im s false false
  | KReinstall => semNotify s = 0%nat /\ users im posted s = im_num im /\ early im s true false
  | KKill => semNotify s = 0%nat /\ users im posted s = im_num im /\ early im s true true
  | KPost n => late im s n
  | RRestore | RDone => late im s 0
  | _ => False
  end.

Record RInv (im : Image) (s : RState) : Prop := {
  ri_user : forall t, t ∈ im_threads im -> t <> im_ckpt im -> user_ok im s t;
  ri_loop : loop_ok im s;
  ri_ckpt : ckpt_ok im s;
  ri_private : forall t, t ∈ im_threads im -> r_private s t = match r_pc s t with RDone => own im t | _ => ∅ end;
  ri_delivered : r_delivered s = [];
  ri_state : r_state s (im_ckpt im) = im_state im (im_ckpt im) }.

Section proofs.
Context (im : Image).
Hypothesis Him : image_ok im.

Lemma users_goto p s s' t : t ∈ im_threads im -> (forall x, x <> t -> r_pc s' x = r_pc s x) -> t <> im_ckpt im ->
  (users im p s' + Nat.b2n (p (r_pc s t)) = users im p s + Nat.b2n (p (r_pc s' t)))%nat.
Proof.
  intros Hin Hx Hne. unfold users.
  pose proof (cnt_change (fun t => negb (t =? im_ckpt im)%nat && p (r_pc s t)) (fun t => negb (t =? im_ckpt im)%nat && p (r_pc s' t)) (im_threads im) t) as H.
  cbn in H. rewrite (proj2 (Nat.eqb_neq _ _) Hne) in H. cbn in H. apply H; [apply Him|done|]. intros y _ Hy. by rewrite Hx.
Qed.

Lemma users_same p s s' : (forall x, x ∈ im_threads im -> x <> im_ckpt im -> p (r_pc s' x) = p (r_pc s x)) -> users im p s' = users im p s.
Proof.
  intros H. apply cnt_same. intros x Hx. destruct (Nat.eqb_spec x (im_ckpt im)); [done|]. cbn. by apply H.
Qed.

Lemma users_split p s : let l := filter (fun t => t <> im_ckpt im) (im_threads im) in
  users im p s = cnt (fun t => negb (t =? im_ckpt im)%nat && p (r_pc s t)) l /\ length l = im_num im.
Proof.
  intros l. split.
  - symmetry. apply (cnt_filter _ (fun t => t <> im_ckpt im)). intros x _ Hx. apply dec_stable in Hx as ->. by rewrite Nat.eqb_refl.
  - pose proof (length_filter_ne (im_ckpt im) (im_threads im) (io_nodup im Him) (io_ckpt im Him)) as H. rewrite (io_num im Him) in H. by injection H.
Qed.

Lemma users_le p s : (users im p s <= im_num im)%nat.
Proof. destruct (users_split p s) as [-> <-]. apply cnt_le. Qed.

(** All user threads pass a test if as many do as there are. *)
Lemma users_all p s : users im p s = im_num im <-> forall t, t ∈ im_threads im -> t <> im_ckpt im -> p (r_pc s t) = true.
Proof.
  destruct (users_split p s) as [E Hl]. set (f := fun t => negb (t =? im_ckpt im)%nat && p (r_pc s t)) in *.
  rewrite E, <- Hl, cnt_all. split.
  - intros H t Hin Hne. specialize (H t). rewrite list_elem_of_filter in H. specialize (H (conj Hne Hin)). unfold f in H.
    apply andb_true_iff in H. tauto.
  - intros H t [Hne Hin]%list_elem_of_filter. unfold f. rewrite (proj2 (Nat.eqb_neq _ _) Hne). by apply H.
Qed.

Lemma users_none p s : users im p s = 0%nat -> forall t, t ∈ im_threads im -> t <> im_ckpt im -> p (r_pc s t) = false.
Proof.
  intros H t Hin Hne. unfold users in H. rewrite cnt_zero in H. specialize (H t Hin). cbn in H. by rewrite (proj2 (Nat.eqb_neq _ _) Hne) in H.
Qed.

(** *** Signals *)

Lemma common_snoc l t : common im (l ++ [t]) = common im l ∩ sigpending im t.
Proof. unfold common. by rewrite foldl_app. Qed.

Lemma common_sub l t : t ∈ l -> common im l ⊆ sigpending im t.
Proof.
  induction l as [|x l IH] using rev_ind; [by intros ?%elem_of_nil|]. rewrite common_snoc. intros [Hl|Hx]%elem_of_app; [set_solver|].
  apply list_elem_of_singleton in Hx as ->. set_solver.
Qed.

Lemma common_full l : common im l ⊆ sigfillset.
Proof. induction l as [|x l IH] using rev_ind; [done|]. rewrite common_snoc. set_solver. Qed.

Lemma global_blocked i t : i ∈ global im -> t ∈ im_threads im -> i ∈ sigblockmask im t.
Proof. intros Hi Ht. apply (io_pending im Him t Ht). by apply (common_sub (im_threads im)). Qed.

Lemma signals_all i : i ∈ signals <-> i ∈ sigfillset.
Proof. unfold signals, sigfillset. rewrite elem_of_list_to_set, !list_elem_of_In, <- in_rev. done. Qed.

(** The process gets all signals that were pending for all its threads back, and none is delivered. *)
Lemma kill_global_ok s : sigpending_global s = global im -> r_shared s = ∅ -> kill_global im s = s <| r_shared := global im |>.
Proof.
  intros Hg Hs. unfold kill_global.
  assert (H : forall l s, sigpending_global s = global im ->
    foldl (fun s i => if bool_decide (i ∈ sigpending_global s) then kill im i s else s) s l
    = s <| r_shared := r_shared s ∪ (global im ∩ list_to_set l) |>).
  { clear s Hg Hs. induction l as [|i l IH]; intros s Hg; cbn [foldl list_to_set].
    - destruct s. unfold set_field. cbn. f_equal. set_solver.
    - rewrite Hg. case_bool_decide as Hi.
      + unfold kill. rewrite (proj2 (forallb_forall _ _)); [|intros t Ht%list_elem_of_In; apply bool_decide_eq_true; by apply global_blocked].
        rewrite IH by done. destruct s. unfold set_field. cbn. f_equal. set_solver.
      + rewrite IH by done. destruct s. unfold set_field. cbn. f_equal. set_solver. }
  rewrite H, Hs by done. replace (∅ ∪ (global im ∩ list_to_set signals)) with (global im); [done|]. apply set_eq. intros i.
  rewrite elem_of_union, elem_of_intersection, elem_of_list_to_set, signals_all. pose proof (common_full (im_threads im) i). fold (global im) in *. set_solver.
Qed.

(** A thread gets its own back. *)
Definition only_private (t : nat) (s s' : RState) : Prop :=
  r_pc s' = r_pc s /\ r_state s' = r_state s /\ sigpending_global s' = sigpending_global s /\ semNotify s' = semNotify s /\ semWait s' = semWait s /\
  r_shared s' = r_shared s /\ r_delivered s' = r_delivered s /\ r_plugins s' = r_plugins s /\ r_guards s' = r_guards s /\
  forall x, x <> t -> r_private s' x = r_private s x.

Lemma restore_ok t s : sigpending_global s = global im -> r_private s t = ∅ ->
  only_private t s (Thread_RestoreSigState im t s) /\ r_private (Thread_RestoreSigState im t s) t = own im t.
Proof.
  intros Hg Hp. unfold Thread_RestoreSigState.
  assert (H : forall l s, sigpending_global s = global im ->
    let s' := foldl (fun s i => if to_raise im (sigpending_global s) t i then raise im t i s else s) s l in
    only_private t s s' /\ forall i, i ∈ r_private s' t <-> i ∈ r_private s t \/ i ∈ l /\ to_raise im (global im) t i = true).
  { clear s Hg Hp. induction l as [|i l IH]; intros s Hg; cbn [foldl].
    - split; [by split_and!|]. intros i. rewrite elem_of_nil. tauto.
    - rewrite Hg. destruct (to_raise im (global im) t i) eqn:E.
      + unfold raise. assert (i ∈ sigblockmask im t) as Hi by (unfold to_raise in E; rewrite !andb_true_iff, !bool_decide_eq_true in E; tauto).
        rewrite bool_decide_eq_true_2 by done. destruct (IH (s <| r_private ::= fun f => <[t := {[i]} ∪ f t]> f |>)) as [H1 H2]; [done|].
        split.
        * destruct H1 as (E1 & E2 & E3 & E4 & E5 & E6 & E7 & E8 & E9 & E10). split_and!; try done. intros x Hx. rewrite E10 by done. exact (fn_lookup_insert_ne (r_private s) t x _ (not_eq_sym Hx)).
        * intros j. rewrite H2. change (r_private (_ <| r_private ::= _ |>)) with (<[t := {[i]} ∪ r_private s t]> (r_private s)). rewrite fn_lookup_insert, elem_of_cons, elem_of_union, elem_of_singleton. clear -E. split.
          -- intros [[->|H]|[H1 H3]]; [right; split; [by left|done]|by left|right; split; [by right|done]].
          -- intros [H|[[->|H] H3]]; [left; by right|left; by left|right; done].
      + destruct (IH s Hg) as [H1 H2]. split; [done|]. intros j. rewrite H2, elem_of_cons. clear -E. split; intros [H|[H3 H4]]; [by left|right; split; [by right|done]|by left|].
        destruct H3 as [->|H3]; [congruence|by right]. }
  destruct (H signals s Hg) as [H1 H2]. split; [done|]. apply set_eq. intros i. rewrite H2, Hp. unfold own. rewrite elem_of_filter, signals_all.
  split; [intros [[]%elem_of_empty|[? ?]]; done|intros [? ?]; right; done].
Qed.

(** *** A step of a user thread *)

Lemma user_move s s' t p' : RInv im s -> t ∈ im_threads im -> t <> im_ckpt im ->
  r_pc s' = <[t := p']> (r_pc s) -> sigpending_global s' = sigpending_global s -> r_shared s' = r_shared s -> r_delivered s' = r_delivered s ->
  r_plugins s' = r_plugins s -> r_guards s' = r_guards s -> (forall x, x <> t -> r_state s' x = r_state s x) ->
  user_ok im s' t -> p' <> RAbsent -> (forall rest tmp, p' <> RLoop rest tmp) ->
  (forall rest tmp, t = im_mother im -> r_pc s t = RLoop rest tmp -> rest = []) -> r_pc s t <> RAbsent ->
  (forall x, x <> t -> r_private s' x = r_private s x) -> r_private s' t = match p' with RDone => own im t | _ => ∅ end ->
  (semNotify s' + Nat.b2n (posted (r_pc s t)) = semNotify s + Nat.b2n (posted p'))%nat ->
  (semWait s' + Nat.b2n (released p') = semWait s + Nat.b2n (released (r_pc s t)))%nat -> (posted (r_pc s t) = true -> posted p' = true) ->
  RInv im s'.
Proof.
  intros [I1 I2 I3 I4 I5 I6] Hin Hne Epc Eg Esh Ed Epl Egu Est Hok Hp1 Hp2 Hm Ha Epr Eprt Hno Hwa Hmono.
  assert (Hpc : forall x, x <> t -> r_pc s' x = r_pc s x) by (intros x Hx; rewrite Epc; by rewrite fn_lookup_insert_ne).
  assert (Hpt : r_pc s' t = p') by (rewrite Epc; apply fn_lookup_insert).
  pose proof (users_goto posted s s' t Hin Hpc Hne) as Up. pose proof (users_goto released s s' t Hin Hpc Hne) as Ur. rewrite Hpt in Up, Ur.
  assert (Hloop : loop_ok im s').
  { unfold loop_ok in *. destruct (decide (im_mother im = t)) as [Em|Em].
    - rewrite Em in *. rewrite Hpt. assert (sigpending_global s' = global im /\ forall x, x ∈ im_threads im -> r_pc s' x <> RAbsent) as Hfin.
      { rewrite Eg. destruct (r_pc s t) as [|rest tmp| | | | | | | | | | |] eqn:Er; [done|..];
          try (destruct I2 as [H1 H2]; split; [done|]; intros x Hx; destruct (decide (x = t)) as [->|Hxt]; [by rewrite Hpt|rewrite Hpc by done; by apply H2]).
        rewrite (Hm rest tmp eq_refl eq_refl) in *. destruct I2 as (dn & El & Ht & Hg & H1 & H2). rewrite app_nil_r in El. subst dn.
        split; [rewrite Hg, Ht; [done|]; intros E; rewrite E in Hin; by apply elem_of_nil in Hin|].
        intros x Hx. destruct (decide (x = t)) as [->|Hxt]; [by rewrite Hpt|]. rewrite Hpc by done. by apply H1. }
      destruct p'; try exact Hfin. by destruct (Hp2 rest tmp).
    - rewrite (Hpc _ Em). destruct (r_pc s (im_mother im)); try (destruct I2 as [H1 H2]; split; [by rewrite Eg|]; intros x Hx;
        destruct (decide (x = t)) as [->|Hxt]; [by rewrite Hpt|rewrite Hpc by done; by apply H2]).
      destruct I2 as (dn & El & Ht & Hg & H1 & H2). exists dn. split_and!; [done|done|by rewrite Eg| |].
      + intros x Hx Hxm. destruct (decide (x = t)) as [->|Hxt]; [by rewrite Hpt|]. rewrite Hpc by done. by apply H1.
      + intros x Hx Hxm. destruct (decide (x = t)) as [->|Hxt]; [by destruct Ha; apply H2|]. rewrite Hpc by done. by apply H2. }
  assert (Hearly : forall b1 b2, early im s b1 b2 -> early im s' b1 b2 /\ released p' = false).
  { intros b1 b2 (E1 & E2 & E3 & E4 & E5). pose proof (users_none released s E2 t Hin Hne) as Hr. rewrite Hr, E1 in Hwa. rewrite Hr in Ur. cbn in *.
    assert (released p' = false) as Hrp by (destruct (released p'); [cbn in Hwa; lia|done]). rewrite Hrp in *. cbn in *.
    split; [|done]. unfold early. rewrite Esh, Epl, Egu. split_and!; try done; lia. }
  assert (Hall : users im posted s = im_num im -> users im posted s' = im_num im /\ semNotify s' = semNotify s).
  { intros Hn. pose proof (proj1 (users_all posted s) Hn t Hin Hne) as Hpo. pose proof (Hmono Hpo) as Hpp. rewrite Hpo, Hpp in Hno, Up. cbn in *. lia. }
  split.
  - intros x Hx Hxn. destruct (decide (x = t)) as [->|Hxt]; [done|]. unfold user_ok. rewrite Hpc, Est by done. by apply I1.
  - done.
  - unfold ckpt_ok in *. rewrite Hpc by done. destruct (r_pc s (im_ckpt im)); try done.
    + destruct I3 as [H1 H2]. split; [lia|]. by apply (Hearly false false).
    + destruct I3 as [H1 H2]. split; [lia|]. by apply (Hearly false false).
    + destruct I3 as (H1 & H2 & H3 & H4 & H5 & H6). destruct (Hall H1). unfold late. rewrite Esh, Epl, Egu. split_and!; try done; lia.
    + destruct I3 as (H1 & H2 & H3 & H4 & H5 & H6). destruct (Hall H1). unfold late. rewrite Esh, Epl, Egu. split_and!; try done; lia.
    + destruct I3 as (H1 & H2 & H3). split_and!; [done|lia|by apply (Hearly false false)].
    + destruct I3 as (H1 & H2 & H3). destruct (Hall H2). split_and!; [lia|done|by apply (Hearly false false)].
    + destruct I3 as (H1 & H2 & H3). destruct (Hall H2). split_and!; [lia|done|by apply (Hearly true false)].
    + destruct I3 as (H1 & H2 & H3). destruct (Hall H2). split_and!; [lia|done|by apply (Hearly true true)].
    + destruct I3 as (H1 & H2 & H3 & H4 & H5 & H6). destruct (Hall H1). unfold late. rewrite Esh, Epl, Egu. split_and!; try done; lia.
  - intros x Hx. destruct (decide (x = t)) as [->|Hxt]; [by rewrite Hpt|]. rewrite Epr, Hpc by done. by apply I4.
  - by rewrite Ed.
  - rewrite Est by done. done.
Qed.

(** The main thread creates the next thread. *)
Lemma loop_move s th rest tmp : RInv im s -> r_pc s (im_mother im) = RLoop (th :: rest) tmp ->
  RInv im (restart_thread im (im_mother im) th rest tmp s).
Proof.
  intros [I1 I2 I3 I4 I5 I6] Epc. pose proof I2 as Hl. unfold loop_ok in Hl. rewrite Epc in Hl. destruct Hl as (dn & El & Ht & Hg & H1 & H2).
  pose proof (io_nodup im Him) as Hnd. rewrite El in Hnd. apply NoDup_app in Hnd as (_ & Hnd & [Hth _]%NoDup_cons).
  assert (Hin : th ∈ im_threads im) by (rewrite El; set_solver).
  set (s' := restart_thread im (im_mother im) th rest tmp s).
  assert (E' : r_state s' = r_state s /\ sigpending_global s' = tmp ∩ sigpending im th /\ semNotify s' = semNotify s /\ semWait s' = semWait s /\
    r_shared s' = r_shared s /\ r_private s' = r_private s /\ r_delivered s' = r_delivered s /\ r_plugins s' = r_plugins s /\ r_guards s' = r_guards s)
    by (unfold s', restart_thread; by destruct (Nat.eqb_spec th (im_mother im))).
  assert (Pm : r_pc s' (im_mother im) = RLoop rest (tmp ∩ sigpending im th)).
  { unfold s', restart_thread. destruct (Nat.eqb_spec th (im_mother im)); [apply goto_here|].
    rewrite goto_other by (by apply not_eq_sym). apply goto_here. }
  assert (Pt : th <> im_mother im -> r_pc s th = RAbsent /\ r_pc s' th = RJump).
  { intros Hn. split; [apply H2; [left|done]|]. unfold s', restart_thread. rewrite (proj2 (Nat.eqb_neq _ _) Hn). apply goto_here. }
  assert (Po : forall x, x <> im_mother im -> x <> th -> r_pc s' x = r_pc s x).
  { intros x Hx Hxt. unfold s', restart_thread. destruct (Nat.eqb_spec th (im_mother im)); by rewrite !goto_other. }
  clearbody s'. destruct E' as (E1 & E2 & E3 & E4 & E5 & E6 & E7 & E8 & E9).
  assert (Hcnt : forall p, p RAbsent = false -> p RJump = false -> (forall r t, p (RLoop r t) = false) -> users im p s' = users im p s).
  { intros p P1 P2 P3. apply users_same. intros x Hx _. destruct (decide (x = im_mother im)) as [->|Hxm]; [by rewrite Pm, Epc, !P3|].
    destruct (decide (x = th)) as [->|Hxt]; [|by rewrite Po]. destruct (Pt Hxm) as [-> ->]. by rewrite P1, P2. }
  assert (Hc : r_pc s' (im_ckpt im) = r_pc s (im_ckpt im) \/ r_pc s (im_ckpt im) = RAbsent /\ r_pc s' (im_ckpt im) = RJump).
  { destruct (decide (im_ckpt im = th)) as [Ec|Ec]; [right; rewrite Ec; apply Pt; rewrite <- Ec; apply not_eq_sym, Him|].
    left. apply Po; [apply not_eq_sym, Him|done]. }
  split.
  - intros x Hx Hxn. specialize (I1 x Hx Hxn). unfold user_ok in *. rewrite E1. destruct (decide (x = im_mother im)) as [->|Hxm].
    + rewrite Pm. rewrite Epc in I1. exact I1.
    + destruct (decide (x = th)) as [->|Hxt]; [|by rewrite Po]. destruct (Pt Hxm) as [Ea ->]. rewrite Ea in I1. apply I1.
  - unfold loop_ok. rewrite Pm. exists (dn ++ [th]). split_and!; [by rewrite El, <- app_assoc|by rewrite common_snoc, Ht|by intros _| |].
    + intros x [Hx|Hx%list_elem_of_singleton]%elem_of_app Hxm; [|subst x; destruct (Pt Hxm) as [_ ->]; done].
      destruct (decide (x = th)) as [->|Hxt]; [destruct (Pt Hxm) as [_ ->]; done|]. rewrite Po by done. by apply H1.
    + intros x Hx Hxm. rewrite Po; [|done|intros ->; done]. apply H2; [by right|done].
  - unfold ckpt_ok, early, late in *. rewrite E3, E4, E5, E8, E9, !Hcnt by done.
    destruct Hc as [->|[Hc1 Hc2]]; [done|]. rewrite Hc2. rewrite Hc1 in I3. done.
  - intros x Hx. rewrite E6, (I4 x Hx). destruct (decide (x = im_mother im)) as [->|Hxm]; [by rewrite Pm, Epc|].
    destruct (decide (x = th)) as [->|Hxt]; [|by rewrite Po]. by destruct (Pt Hxm) as [-> ->].
  - by rewrite E7.
  - by rewrite E1.
Qed.

(** The global set is complete once somebody has been let go. *)
Lemma late_global s n : RInv im s -> late im s n -> sigpending_global s = global im.
Proof.
  intros [I1 I2 I3 I4 I5 I6] (H & _). pose proof (proj1 (users_all posted s) H (im_mother im) (io_mother im Him) (io_other im Him)) as Hp.
  unfold loop_ok in I2. by destruct (r_pc s (im_mother im)); try done; apply I2.
Qed.

Lemma released_late s t : RInv im s -> t ∈ im_threads im -> released (r_pc s t) = true -> exists n, late im s n.
Proof.
  intros Hs Hin Hr. pose proof (ri_ckpt im s Hs) as I3. unfold ckpt_ok in I3. destruct (decide (t = im_ckpt im)) as [->|Hne].
  - destruct (r_pc s (im_ckpt im)); try done; eauto.
  - assert (He : forall b1 b2, early im s b1 b2 -> False).
    { intros b1 b2 (_ & H & _). pose proof (users_none released s H t Hin Hne). congruence. }
    destruct (r_pc s (im_ckpt im)); try done; eauto; exfalso; [apply (He false false)|apply (He false false)|apply (He false false)|apply (He false false)|apply (He true false)|apply (He true true)]; tauto.
Qed.

Lemma restored_move s s1 t : RInv im s -> t ∈ im_threads im -> t <> im_ckpt im -> r_pc s t = RRestore ->
  only_private t s s1 -> r_private s1 t = own im t -> RInv im (goto t RDone s1).
Proof.
  intros Hs Hin Hne Epc (E1 & E2 & E3 & E4 & E5 & E6 & E7 & E8 & E9 & E10) Ep. pose proof (ri_user im s Hs t Hin Hne) as Hu. unfold user_ok in Hu.
  rewrite Epc in Hu. eapply (user_move s _ _ RDone); try done; rewrite ?Epc; try done.
  - unfold goto, set_field. cbn. by rewrite E1.
  - intros x _. unfold goto, set_field. cbn. by rewrite E2.
  - unfold user_ok. rewrite goto_here. unfold goto, set_field. cbn. by rewrite E2.
  - unfold goto, set_field. cbn. lia.
  - unfold goto, set_field. cbn. lia.
Qed.

Lemma user_step s s' t : RInv im s -> t ∈ im_threads im -> t <> im_ckpt im -> rstep im t s = Some s' -> RInv im s'.
Proof.
  intros Hs Hin Hne. pose proof (ri_user im s Hs t Hin Hne) as Hu. pose proof (ri_private im s Hs t Hin) as Hpr.
  unfold rstep. unfold user_ok in Hu. destruct (r_pc s t) as [|rest tmp| | | | | | | | | | |] eqn:Epc; try done.
  - destruct Hu as [-> Hst]. destruct rest as [|th rest]; intros [= <-]; [|by apply loop_move].
    eapply (user_move s _ _ RJump); try done; rewrite ?Epc; try done; [unfold user_ok; by rewrite goto_here|by intros ? ? _ [= -> ->]].
  - rewrite (proj2 (Nat.eqb_neq _ _) Hne). intros [= <-].
    eapply (user_move s _ _ RRun); try done; rewrite ?Epc; try done. unfold user_ok. by rewrite goto_here.
  - destruct (decide (r_state s t = ST_SUSPENDED)); [|done]. intros [= <-].
    eapply (user_move s _ _ RPost); try done; rewrite ?Epc; try done; [intros x Hx; apply (fn_lookup_insert_ne (r_state s)); by apply not_eq_sym|].
    unfold user_ok. rewrite goto_here. apply (fn_lookup_insert (r_state s)).
  - intros [= <-]. eapply (user_move s _ _ RWait); try done; rewrite ?Epc; try done; [unfold user_ok; by rewrite goto_here|unfold goto, set_field; cbn; lia].
  - destruct (semWait s) as [|k] eqn:Ew; [done|]. intros [= <-].
    eapply (user_move s _ _ RRestore); try done; rewrite ?Epc; try done; [unfold user_ok; by rewrite goto_here|unfold goto, set_field; cbn; lia].
  - intros [= <-]. destruct (released_late s t Hs Hin) as [n Hl]; [by rewrite Epc|].
    destruct (restore_ok t s (late_global s n Hs Hl) Hpr) as [H1 H2]. by apply (restored_move s).
Qed.

(** *** A step of the checkpoint thread *)

Lemma ckpt_move s s' p' : RInv im s -> r_pc s (im_ckpt im) <> RAbsent -> r_pc s' = <[im_ckpt im := p']> (r_pc s) -> p' <> RAbsent ->
  r_state s' = r_state s -> sigpending_global s' = sigpending_global s -> r_delivered s' = r_delivered s ->
  (forall x, x <> im_ckpt im -> r_private s' x = r_private s x) -> r_private s' (im_ckpt im) = match p' with RDone => own im (im_ckpt im) | _ => ∅ end ->
  (users im posted s' = users im posted s -> users im released s' = users im released s -> ckpt_ok im s') -> RInv im s'.
Proof.
  intros [I1 I2 I3 I4 I5 I6] Ha Epc Hp Est Eg Ed Epr Eprt Hok. pose proof (io_other im Him) as Hmo.
  assert (Hpc : forall x, x <> im_ckpt im -> r_pc s' x = r_pc s x) by (intros x Hx; rewrite Epc; by rewrite fn_lookup_insert_ne).
  assert (Hpt : r_pc s' (im_ckpt im) = p') by (rewrite Epc; apply fn_lookup_insert).
  split.
  - intros x Hx Hxn. unfold user_ok. rewrite Hpc, Est by done. by apply I1.
  - unfold loop_ok in *. rewrite (Hpc _ Hmo), Eg.
    assert (Hab : forall x, r_pc s x <> RAbsent -> r_pc s' x <> RAbsent) by (intros x Hx; destruct (decide (x = im_ckpt im)) as [->|Hxc]; [by rewrite Hpt|by rewrite Hpc]).
    destruct (r_pc s (im_mother im)); try (destruct I2 as [H1 H2]; split; [done|]; intros x Hx; by apply Hab, H2).
    destruct I2 as (dn & El & Ht & Hg & H1 & H2). exists dn. split_and!; [done|done|done| |].
    + intros x Hx Hxm. by apply Hab, H1.
    + intros x Hx Hxm. rewrite Hpc; [by apply H2|]. intros ->. apply Ha. by apply H2.
  - apply Hok; apply users_same; intros x _ Hx; by rewrite Hpc.
  - intros x Hx. destruct (decide (x = im_ckpt im)) as [->|Hxc]; [by rewrite Hpt|]. rewrite Epr, Hpc by done. by apply I4.
  - by rewrite Ed.
  - by rewrite Est.
Qed.

Lemma ckpt_restored_move s s1 : RInv im s -> r_pc s (im_ckpt im) = RRestore ->
  only_private (im_ckpt im) s s1 -> r_private s1 (im_ckpt im) = own im (im_ckpt im) -> RInv im (goto (im_ckpt im) RDone s1).
Proof.
  intros Hs Epc (E1 & E2 & E3 & E4 & E5 & E6 & E7 & E8 & E9 & E10) Ep. pose proof (ri_ckpt im s Hs) as I3. unfold ckpt_ok in I3. rewrite Epc in I3.
  eapply (ckpt_move s _ RDone); try done; [by rewrite Epc|unfold goto, set_field; cbn; by rewrite E1|].
  intros U1 U2. unfold ckpt_ok. rewrite goto_here. unfold late in *. rewrite U1, U2. change (semNotify (goto _ _ ?x)) with (semNotify x).
  change (semWait (goto _ _ ?x)) with (semWait x). change (r_shared (goto _ _ ?x)) with (r_shared x). change (r_plugins (goto _ _ ?x)) with (r_plugins x).
  change (r_guards (goto _ _ ?x)) with (r_guards x). by rewrite E4, E5, E6, E8, E9.
Qed.

Ltac ckpt_case s p := eapply (ckpt_move s _ p); [done|congruence|done|done|done|done|done|done|done|];
  intros U1 U2; unfold ckpt_ok; rewrite goto_here; unfold early, late in *; rewrite ?U1, ?U2; unfold goto, set_field; cbn;
  destruct_and?; split_and!; try done; try lia.

Lemma ckpt_step s s' : RInv im s -> rstep im (im_ckpt im) s = Some s' -> RInv im s'.
Proof.
  intros Hs. pose proof (ri_ckpt im s Hs) as I3. pose proof (ri_private im s Hs _ (io_ckpt im Him)) as Hpr.
  unfold rstep. unfold ckpt_ok in I3. destruct (r_pc s (im_ckpt im)) as [|rest tmp| | | | | | |n| | | |n] eqn:Epc; try done.
  - rewrite Nat.eqb_refl. intros [= <-]. ckpt_case s (KWait (im_num im)).
  - intros [= <-]. destruct (restore_ok (im_ckpt im) s (late_global s 0 Hs I3) Hpr) as [H1 H2]. by apply (ckpt_restored_move s).
  - destruct n as [|n]; [intros [= <-]|destruct (semNotify s) as [|k] eqn:Esem; [done|intros [= <-]]].
    + pose proof (users_le posted s) as Hle. ckpt_case s KPostRestart.
    + ckpt_case s (KWait n).
  - intros [= <-]. ckpt_case s KReinstall.
  - intros [= <-]. ckpt_case s KKill.
  - intros [= <-]. destruct I3 as (H1 & H2 & H3). assert (Hg : sigpending_global s = global im).
    { pose proof (proj1 (users_all posted s) H2 (im_mother im) (io_mother im Him) (io_other im Him)) as Hp. pose proof (ri_loop im s Hs) as Hl.
      unfold loop_ok in Hl. by destruct (r_pc s (im_mother im)); try done; apply Hl. }
    rewrite kill_global_ok; [|done|apply H3]. ckpt_case s (KPost (im_num im)).
  - destruct n as [|n]; intros [= <-]; [ckpt_case s RRestore|ckpt_case s (KPost n)].
Qed.

(** *** Runs *)

Lemma start_inv : RInv im (postRestartWork im).
Proof.
  pose proof (io_other im Him) as Hmo. set (s := postRestartWork im).
  assert (Pm : r_pc s (im_mother im) = RLoop (im_threads im) sigfillset) by apply (fn_lookup_insert (fun _ => RAbsent)).
  assert (Po : forall x, x <> im_mother im -> r_pc s x = RAbsent) by (intros x Hx; apply (fn_lookup_insert_ne (fun _ => RAbsent)); by apply not_eq_sym).
  assert (Hu : forall p, p RAbsent = false -> (forall r t, p (RLoop r t) = false) -> users im p s = 0%nat).
  { intros p P1 P2. apply cnt_zero. intros x _. destruct (decide (x = im_mother im)) as [->|Hx]; [rewrite Pm, P2|rewrite Po, P1 by done]; apply andb_false_r. }
  split.
  - intros x Hx Hxn. unfold user_ok. change (r_state s x) with (im_state im x). pose proof (io_state im Him x Hx Hxn).
    destruct (decide (x = im_mother im)) as [->|Hxm]; [by rewrite Pm|by rewrite Po].
  - unfold loop_ok. rewrite Pm. exists []. split_and!; try done; [by intros x ?%elem_of_nil|]. intros x _ Hx. by apply Po.
  - unfold ckpt_ok. rewrite Po by (by apply not_eq_sym). unfold early. rewrite !Hu by done. change (semNotify s) with (im_sem im). by rewrite (io_sem im Him).
  - intros x _. change (r_private s x) with (∅ : sigset). destruct (decide (x = im_mother im)) as [->|Hx]; [by rewrite Pm|by rewrite Po].
  - done.
  - done.
Qed.

Lemma rstep_inv s s' : RInv im s -> rsteps im s s' -> RInv im s'.
Proof.
  intros Hs (t & Hin & Ht). destruct (decide (t = im_ckpt im)) as [->|Hne]; [by apply (ckpt_step s)|by apply (user_step s s' t)].
Qed.

(** What is left to do. *)
Definition work (p : rpc) : nat :=
  match p with
  | RDone => 0 | RRestore => 1 | RWait => 2 | RPost => 3 | RRun => 4 | KPost n => 2 + n | KKill => 3 + im_num im | KReinstall => 4 + im_num im
  | KPostRestart => 5 + im_num im | KWait n => 6 + im_num im + n | RJump => 7 + 2 * im_num im | RAbsent => 8 + 2 * im_num im
  | RLoop rest _ => 8 + 2 * im_num im + length rest
  end.
Definition remaining (s : RState) : nat := sum_list_with (fun t => work (r_pc s t)) (im_threads im).

Lemma left_goto t p s : t ∈ im_threads im -> (work p < work (r_pc s t))%nat -> (remaining (goto t p s) < remaining s)%nat.
Proof.
  intros Hin Hlt. unfold remaining.
  pose proof (sum_change (fun t => work (r_pc s t)) (fun x => work (r_pc (goto t p s) x)) (im_threads im) t (io_nodup im Him) Hin) as H.
  cbn beta in H. rewrite goto_here in H. specialize (H ltac:(intros y _ Hy; by rewrite goto_other)). lia.
Qed.

Lemma left_same s s' : r_pc s' = r_pc s -> remaining s' = remaining s.
Proof. unfold remaining. by intros ->. Qed.

Lemma foldl_pc (f : RState -> nat -> RState) l s : (forall s i, r_pc (f s i) = r_pc s) -> r_pc (foldl f s l) = r_pc s.
Proof. intros Hf. revert s. induction l as [|i l IH]; intros s; [done|]. cbn. by rewrite IH, Hf. Qed.

Lemma kill_pc s : r_pc (kill_global im s) = r_pc s.
Proof. apply foldl_pc. intros s' i. unfold kill. by repeat case_match. Qed.

Lemma restore_pc t s : r_pc (Thread_RestoreSigState im t s) = r_pc s.
Proof. apply foldl_pc. intros s' i. unfold raise. by repeat case_match. Qed.

Lemma left_move t p s s1 : t ∈ im_threads im -> r_pc s1 = r_pc s -> (work p < work (r_pc s t))%nat -> (remaining (goto t p s1) < remaining s)%nat.
Proof. intros Hin E Hlt. rewrite <- (left_same s s1 E). apply left_goto; [done|by rewrite E]. Qed.

Lemma step_left s s' : RInv im s -> rsteps im s s' -> (remaining s' < remaining s)%nat.
Proof.
  intros Hs (t & Hin & Ht). unfold rstep in Ht. destruct (r_pc s t) as [|rest tmp| | | | | | |n| | | |n] eqn:Epc; try done.
  - destruct rest as [|th rest]; injection Ht as <-; [apply left_move; [done|done|rewrite Epc; cbn; lia]|]. unfold restart_thread.
    set (s1 := goto t _ _). assert (remaining s1 < remaining s)%nat by (apply left_move; [done|done|rewrite Epc; cbn; lia]).
    destruct (Nat.eqb_spec th (im_mother im)) as [Hm|Hm]; [done|].
    assert (Et : t = im_mother im).
    { destruct (decide (t = im_ckpt im)) as [->|Hne]; [pose proof (ri_ckpt im s Hs) as Hc; unfold ckpt_ok in Hc; by rewrite Epc in Hc|].
      pose proof (ri_user im s Hs t Hin Hne) as Hu. unfold user_ok in Hu. rewrite Epc in Hu. apply Hu. }
    pose proof (ri_loop im s Hs) as Hl. unfold loop_ok in Hl. rewrite <- Et, Epc in Hl. destruct Hl as (dn & El & _ & _ & _ & H2).
    etransitivity; [|done]. apply left_goto; [rewrite El; set_solver|]. unfold s1. rewrite goto_other by congruence.
    change (r_pc (s <| sigpending_global := _ |>)) with (r_pc s). rewrite H2; [cbn; lia|left|by rewrite Et].
  - injection Ht as <-. apply left_move; [done|done|rewrite Epc]. destruct (t =? im_ckpt im)%nat; cbn; lia.
  - destruct (decide (r_state s t = ST_SUSPENDED)); [|done]. injection Ht as <-. apply left_move; [done|done|rewrite Epc; cbn; lia].
  - injection Ht as <-. apply left_move; [done|done|rewrite Epc; cbn; lia].
  - destruct (semWait s); [done|]. injection Ht as <-. apply left_move; [done|done|rewrite Epc; cbn; lia].
  - injection Ht as <-. apply left_move; [done|apply restore_pc|rewrite Epc; cbn; lia].
  - destruct n as [|n]; [|destruct (semNotify s); [done|]]; injection Ht as <-; (apply left_move; [done|done|rewrite Epc; cbn; lia]).
  - injection Ht as <-. apply left_move; [done|done|rewrite Epc; cbn; lia].
  - injection Ht as <-. apply left_move; [done|done|rewrite Epc; cbn; lia].
  - injection Ht as <-. apply left_move; [done|apply kill_pc|rewrite Epc; cbn; lia].
  - destruct n as [|n]; injection Ht as <-; (apply left_move; [done|done|rewrite Epc; cbn; lia]).
Qed.

Lemma run_bounded n s s' : RInv im s -> nsteps (rsteps im) n s s' -> RInv im s' /\ (n + remaining s' <= remaining s)%nat.
Proof.
  intros Hs Hn. induction Hn as [|n x y z Hxy _ IH]; [by split|]. destruct (IH (rstep_inv x y Hs Hxy)) as [Hz Hle].
  split; [done|]. pose proof (step_left x y Hs Hxy). lia.
Qed.

(** A thread that can always go on. *)
Lemma steps_on s t s' : t ∈ im_threads im -> rstep im t s = Some s' -> (forall s'', ~ rsteps im s s'') -> False.
Proof. intros Hin Ht H. apply (H s'). by exists t. Qed.

Lemma stuck_done s : RInv im s -> (forall s', ~ rsteps im s s') -> forall t, t ∈ im_threads im -> r_pc s t = RDone.
Proof.
  intros Hs Hst.
  assert (Hstep : forall t, t ∈ im_threads im -> rstep im t s = None) by (intros t Hin; destruct (rstep im t s) eqn:E; [by exfalso; eapply steps_on|done]).
  assert (Hmo : forall rest tmp, r_pc s (im_mother im) <> RLoop rest tmp).
  { intros rest tmp E. pose proof (Hstep _ (io_mother im Him)) as H. unfold rstep in H. rewrite E in H. by destruct rest. }
  assert (Hab : forall t, t ∈ im_threads im -> r_pc s t <> RAbsent).
  { pose proof (ri_loop im s Hs) as Hl. unfold loop_ok in Hl. destruct (r_pc s (im_mother im)) eqn:E; try apply Hl. by destruct (Hmo rest tmp). }
  assert (Hus : forall t, t ∈ im_threads im -> t <> im_ckpt im -> r_pc s t = RWait \/ r_pc s t = RDone).
  { intros t Hin Hne. pose proof (Hstep t Hin) as H. pose proof (Hab t Hin) as Ha. pose proof (ri_user im s Hs t Hin Hne) as Hu. unfold rstep in H. unfold user_ok in Hu.
    destruct (r_pc s t) as [|rest tmp| | | | | | | | | | |]; try done; [|by destruct (decide (r_state s t = ST_SUSPENDED))|by left|by right].
    by destruct rest. }
  assert (Hpo : users im posted s = im_num im) by (apply users_all; intros t Hin Hne; destruct (Hus t Hin Hne) as [-> | ->]; done).
  pose proof (Hstep _ (io_ckpt im Him)) as H. pose proof (Hab _ (io_ckpt im Him)) as Ha. pose proof (ri_ckpt im s Hs) as Hc. unfold rstep in H. unfold ckpt_ok in Hc.
  destruct (r_pc s (im_ckpt im)) as [|rest tmp| | | | | | |n| | | |n] eqn:Epc; try done.
  - destruct Hc as (_ & _ & Hc & _). intros t Hin. destruct (decide (t = im_ckpt im)) as [->|Hne]; [done|].
    destruct (Hus t Hin Hne) as [E|?]; [exfalso|done]. pose proof (Hstep t Hin) as Ht. unfold rstep in Ht. rewrite E in Ht.
    destruct (semWait s) eqn:Ew; [|done]. assert (Hr : users im released s = im_num im) by lia.
    pose proof (proj1 (users_all released s) Hr t Hin Hne) as Hrt. by rewrite E in Hrt.
  - destruct n as [|n]; [done|]. destruct Hc as (Hn & Hc & _). destruct (semNotify s); [lia|done].
  - by destruct n.
Qed.

End proofs.

(** ** The properties *)

(** The image of a process whose threads are stopped; the kernel has the signals [shared] pending for the process, [private t] for the thread
    [t], which blocks [mask t]. *)
Record taken (s : State) (shared : sigset) (private mask : nat -> sigset) (im : Image) : Prop := {
  tk_threads : im_threads im = activeThreads s;
  tk_ckpt : im_ckpt im = ckptThread s;
  tk_num : im_num im = numUserThreads s;
  tk_sem : im_sem im = semNotifyCkptThread s;
  tk_state : forall t th, t ∈ activeThreads s -> threads s !! t = Some th -> im_state im t = th_state th;
  tk_mother : im_mother im ∈ activeThreads s /\ im_mother im <> ckptThread s;
  tk_signals : forall t, t ∈ activeThreads s -> (sigblockmask im t, sigpending im t) = Thread_SaveSigState shared (private t) (mask t);
  tk_range : forall t, t ∈ activeThreads s -> shared ∪ private t ⊆ sigfillset }.

(** The process as Threads has it, when all threads are back. *)
Definition resumed (s : State) (r : RState) : State :=
  s <| threads ::= map_imap (fun t th => Some (th <| th_state := r_state r t |> <| th_pc := UUser |>)) |>
    <| semNotifyCkptThread := semNotify r |> <| c_pc := CIdle |>.

Lemma taken_ok s shared private mask im : Inv s -> c_pc s = CStopped -> taken s shared private mask im -> image_ok im.
Proof.
  intros HI Hpc [T1 T2 T3 T4 T5 [T6 T6'] T7 T8]. pose proof (i_phase s HI) as Hph. unfold phase_ok in Hph. rewrite Hpc in Hph. destruct Hph as (_ & Hsem & Hlen & Hstop).
  assert (Hsig : forall t, t ∈ im_threads im -> sigpending im t = (shared ∪ private t) ∩ sigblockmask im t).
  { intros t Hin. rewrite T1 in Hin. specialize (T7 t Hin). injection T7 as -> ->. done. }
  split; rewrite ?T1, ?T2, ?T3, ?T4; try done; [apply HI|apply HI| | |].
  - intros t Hin Hne. destruct (i_thread s HI t Hin Hne) as (th & Ht & Hal & Hok). rewrite (T5 t th Hin Ht). destruct (Hstop t Hin) as [?|Hp]; [done|].
    unfold tst, Suspend.posted in Hp. rewrite Ht in Hp. cbn in Hp. case_bool_decide as Hr; [|done]. rewrite Hr in Hok. destruct (th_state th); intuition congruence.
  - intros t Hin. rewrite <- T1 in Hin. rewrite (Hsig t Hin). set_solver.
  - intros t Hin. specialize (T8 t Hin). rewrite <- T1 in Hin. rewrite (Hsig t Hin). clear -T8. intros i Hi. apply T8. set_solver.
Qed.

Lemma resumed_quiet s shared private mask im r : Inv s -> c_pc s = CStopped -> taken s shared private mask im -> RInv im r ->
  (forall t, t ∈ im_threads im -> r_pc r t = RDone) -> quiet ((resumed s r) <| writer := false |>) /\ semWait r = 0%nat.
Proof.
  intros HI Hpc Htk Hr Hd. pose proof (taken_ok s shared private mask im HI Hpc Htk) as Him. destruct Htk as [T1 T2 T3 T4 T5 [T6 T6'] T7 T8].
  pose proof (i_readers s HI) as Hrd. unfold busy in Hrd. rewrite Hpc in Hrd. pose proof (i_phase s HI) as Hph. unfold phase_ok in Hph. rewrite Hpc in Hph.
  destruct Hph as (_ & _ & _ & Hstop).
  pose proof (ri_ckpt im r Hr) as Hc. unfold ckpt_ok in Hc. rewrite (Hd _ (io_ckpt im Him)) in Hc. destruct Hc as (C1 & C2 & C3 & C4 & C5 & C6).
  assert (Hrel : users im released r = im_num im) by (apply users_all; [done|]; intros t Hin _; by rewrite (Hd t Hin)).
  split; [|lia].
  assert (Hlook : forall t, threads ((resumed s r) <| writer := false |>) !! t = (fun th => th <| th_state := r_state r t |> <| th_pc := UUser |>) <$> threads s !! t).
  { intros t. change (threads ((resumed s r) <| writer := false |>)) with (map_imap (fun t th => Some (th <| th_state := r_state r t |> <| th_pc := UUser |>)) (threads s)).
    rewrite map_lookup_imap. by destruct (threads s !! t). }
  split_and!; [apply HI|apply HI| | | |done|by apply Hrd|done].
  - destruct (i_ckpt_th s HI) as (c & Ec & K1 & K2 & K3). exists (c <| th_state := r_state r (ckptThread s) |> <| th_pc := UUser |>).
    split; [rewrite Hlook; change (ckptThread ((resumed s r) <| writer := false |>)) with (ckptThread s); by rewrite Ec|].
    pose proof (ri_state im r Hr) as Hs. rewrite T2 in Hs. split_and!; [|done|done]. change (r_state r (ckptThread s) = ST_CKPNTHREAD). by rewrite Hs, (T5 _ _ (i_ckpt s HI) Ec).
  - intros t Hin Hne. change (t ∈ activeThreads s) in Hin. change (t <> ckptThread s) in Hne. destruct (i_thread s HI t Hin Hne) as (th & Ht & Hal & Hok).
    eexists. split; [rewrite Hlook, Ht; reflexivity|]. pose proof Hin as Hin'. rewrite <- T1 in Hin'. rewrite <- T2 in Hne. pose proof (ri_user im r Hr t Hin' Hne) as Hu.
    unfold user_ok in Hu. rewrite (Hd t Hin') in Hu. split_and!; [done|done|]. change (th_pending th = false). rewrite T2 in Hne.
    destruct (Hstop t Hin) as [?|Hp]; [done|]. unfold tst, Suspend.posted in Hp. rewrite Ht in Hp. cbn in Hp. case_bool_decide as Hrd'; [|done].
    rewrite Hrd' in Hok. destruct (th_state th); intuition congruence.
  - intros t th Ht Hn. rewrite Hlook in Ht. destruct (threads s !! t) as [th0|] eqn:E; [|done]. injection Ht as <-. change (th_alive th0 = false).
    by apply (i_gone s HI t).
Qed.

(** C25: the restart of the threads of a process that was stopped for its checkpoint, in every interleaving: it takes a bounded number of steps; no
    thread goes back to its own code before every thread is there and runs again and before the plugins and the guard
    pages are restored; it gets stuck only when all threads are back, and then the process is as quiet
    as one that has not been checkpointed (the resume lock, which is still taken, is initialised by the next
    suspension), every thread has the signals pending that it had and blocked (the checkpoint signal apart), no
    signal was delivered on the way, and signals of the process that all threads block are pending for the process again. *)
Theorem threads_restarted s0 s shared private mask im n r : quiet s0 -> c_pc s0 = CIdle -> rtc orderly s0 s -> c_pc s = CStopped ->
  taken s shared private mask im -> nsteps (rsteps im) n (postRestartWork im) r ->
  (n <= remaining im (postRestartWork im))%nat /\
  (forall t u, t ∈ im_threads im -> u ∈ im_threads im -> u <> im_ckpt im -> released (r_pc r t) = true ->
     posted (r_pc r u) = true /\ r_state r u = ST_RUNNING /\ r_plugins r = true /\ r_guards r = true) /\
  ((forall r', ~ rsteps im r r') -> (forall t, t ∈ im_threads im -> r_pc r t = RDone) /\ quiet ((resumed s r) <| writer := false |>) /\ semWait r = 0%nat /\
     r_delivered r = [] /\
     (forall t i, t ∈ im_threads im -> i <> im_signal im -> i ∈ (r_shared r ∪ r_private r t) ∩ mask t <-> i ∈ (shared ∪ private t) ∩ mask t) /\
     (forall i, i ∈ shared -> (forall t, t ∈ im_threads im -> i ∈ mask t) -> i ∈ r_shared r)).
Proof.
  intros Hq H0 Hrun Hpc Htk Hn. pose proof (suspend_run_inv s0 s (quiet_inv s0 Hq H0) Hrun) as HI.
  pose proof (taken_ok s shared private mask im HI Hpc Htk) as Him. destruct (run_bounded im Him n _ _ (start_inv im Him) Hn) as [Hr Hle].
  split_and!; [lia| |].
  - intros t u Ht Hu Hne Hrel. destruct (released_late im r t Hr Ht Hrel) as (k & L1 & _ & _ & _ & L5 & L6).
    pose proof (proj1 (users_all im Him posted r) L1 u Hu Hne) as Hp. split_and!; try done. pose proof (ri_user im r Hr u Hu Hne) as Hok. unfold user_ok in Hok.
    by destruct (r_pc r u).
  - intros Hst. pose proof (stuck_done im Him r Hr Hst) as Hd. destruct (resumed_quiet s shared private mask im r HI Hpc Htk Hr Hd) as [Q1 Q2].
    pose proof (ri_ckpt im r Hr) as Hc. unfold ckpt_ok in Hc. rewrite (Hd _ (io_ckpt im Him)) in Hc. destruct Hc as (_ & _ & _ & C4 & _).
    assert (Hsig : forall t, t ∈ im_threads im -> sigblockmask im t = mask t /\ sigpending im t = (shared ∪ private t) ∩ mask t).
    { intros t Hin. pose proof (tk_signals _ _ _ _ _ Htk t) as H. rewrite <- (tk_threads _ _ _ _ _ Htk) in H. specialize (H Hin). by injection H. }
    split_and!; [done|done|done|apply Hr| |].
    + intros t i Hin Hi. destruct (Hsig t Hin) as [S1 S2]. rewrite C4, (ri_private im r Hr t Hin), (Hd t Hin). rewrite <- S2, elem_of_intersection, elem_of_union.
      unfold own. rewrite elem_of_filter. unfold to_raise. rewrite !andb_true_iff, !negb_true_iff, !bool_decide_eq_true, bool_decide_eq_false, Nat.eqb_neq.
      pose proof (io_signals im Him t Hin i) as Hfull. pose proof (io_pending im Him t Hin i) as Hbl. pose proof (common_sub im Him (im_threads im) t Hin i) as Hcm.
      rewrite <- S1. fold (global im) in Hcm. destruct (decide (i ∈ global im)); tauto.
    + intros i Hi Hall. rewrite C4. unfold global.
      assert (H : forall l, (forall t, t ∈ l -> t ∈ im_threads im) -> i ∈ common im l).
      { induction l as [|t l IH] using rev_ind; intros Hl.
        - apply (tk_range _ _ _ _ _ Htk (im_ckpt im)); [rewrite <- (tk_threads _ _ _ _ _ Htk); apply Him|set_solver].
        - rewrite common_snoc. destruct (Hsig t) as [_ S2]; [apply Hl; set_solver|]. rewrite S2. apply elem_of_intersection. split; [apply IH; intros x Hx; apply Hl; set_solver|].
          apply elem_of_intersection. split; [set_solver|]. apply Hall, Hl. set_solver. }
      by apply H.
Qed.

(** ** A restart with one user thread *)

Fixpoint rexec (im : Image) (ts : list nat) (s : RState) : option RState :=
  match ts with
  | [] => Some s
  | t :: ts => s' ← rstep im t s; rexec im ts s'
  end.

Lemma rexec_steps im ts s r : Forall (fun t => t ∈ im_threads im) ts -> rexec im ts s = Some r -> nsteps (rsteps im) (length ts) s r.
Proof.
  intros Hts. revert s. induction Hts as [|t ts Ht _ IH]; intros s; cbn; [intros [= ->]; constructor|].
  destruct (rstep im t s) as [s'|] eqn:E; [|done]. intros H. econstructor; [by exists t|by apply IH].
Qed.

(** The process of [demo], stopped; signal 10 is pending for the process and signal 12 for the user thread. *)
Definition demo_image : Image :=
  mk_Image [1; 2]%nat 1 2 1 (fun t => if (t =? 1)%nat then ST_CKPNTHREAD else ST_SUSPENDED) (fun _ => sigfillset)
    (fun t => if (t =? 2)%nat then {[10%nat; 12%nat]} else {[10%nat]}) ∅ 0 31.
Definition demo_schedule : list nat := [2; 2; 2; 2; 2; 2; 1; 1; 1; 1; 1; 1; 1; 1; 2; 2; 1]%nat.

Lemma demo_taken s : exec_orderly demo_events (demo <| c_pc := CInit |>) = Some s ->
  taken s {[10%nat]} (fun t => if (t =? 2)%nat then {[12%nat]} else ∅) (fun _ => sigfillset) demo_image.
Proof.
  intros E. assert (Ht : threads s !! 1%nat = Some (mk_Thread ST_CKPNTHREAD false true false UUser) /\
    threads s !! 2%nat = Some (mk_Thread ST_SUSPENDED false true false URdLock) /\ activeThreads s = [1; 2]%nat /\ ckptThread s = 1%nat /\
    numUserThreads s = 1%nat /\ semNotifyCkptThread s = 0%nat) by (vm_compute in E; injection E as <-; done).
  destruct Ht as (T1 & T2 & T3 & T4 & T5 & T6).
  assert (Hcase : forall t, t ∈ activeThreads s -> t = 1%nat \/ t = 2%nat) by (intros t; rewrite T3; set_solver).
  split; rewrite ?T3, ?T4, ?T5, ?T6; try done; [|split; [set_solver|done]|..]; rewrite <- T3.
  - intros t th [-> | ->]%Hcase; [rewrite T1|rewrite T2]; by intros [= <-].
  - intros t [-> | ->]%Hcase; vm_compute; reflexivity.
  - intros t [-> | ->]%Hcase i; cbn [Nat.eqb]; rewrite elem_of_union, !elem_of_singleton, ?elem_of_empty; intros [->|Hi]; subst; try done; vm_compute; reflexivity.
Qed.

Lemma threads_restarted_witness : match exec_orderly demo_events (demo <| c_pc := CInit |>), rexec demo_image demo_schedule (postRestartWork demo_image) with
  | Some s, Some r => quiet ((resumed s r) <| writer := false |>) /\ 12%nat ∈ r_shared r ∪ r_private r 2 /\ 10%nat ∈ r_shared r
  | _, _ => False end.
Proof.
  destruct (exec_orderly demo_events (demo <| c_pc := CInit |>)) as [s|] eqn:E; [|by vm_compute in E].
  destruct (rexec demo_image demo_schedule (postRestartWork demo_image)) as [r|] eqn:Er; [|by vm_compute in Er].
  assert (Hpc : c_pc s = CStopped) by (vm_compute in E; injection E as <-; reflexivity).
  assert (Hst : forall r', ~ rsteps demo_image r r').
  { assert (rstep demo_image 1 r = None /\ rstep demo_image 2 r = None) as [H1 H2] by (vm_compute in Er; injection Er as <-; split; vm_compute; reflexivity).
    intros r' (t & Hin & Ht). cbn in Hin. apply elem_of_cons in Hin as [->|Hin]; [congruence|]. apply list_elem_of_singleton in Hin as ->. congruence. }
  destruct (threads_restarted demo s {[10%nat]} (fun t => if (t =? 2)%nat then {[12%nat]} else ∅) (fun _ => sigfillset) demo_image (length demo_schedule) r
    demo_quiet eq_refl (demo_run demo_events s E) Hpc (demo_taken s E)) as (_ & _ & H).
  { apply rexec_steps; [|exact Er]. repeat constructor; cbn; set_solver. }
  destruct (H Hst) as (_ & Hq & _ & _ & H1 & H2). split; [exact Hq|]. split.
  - pose proof (proj2 (H1 2%nat 12%nat (list_elem_of_further _ _ _ (list_elem_of_here _ _)) ltac:(discriminate)) ltac:(vm_compute; reflexivity)) as Hi.
    by apply elem_of_intersection in Hi as [Hi _].
  - apply (H2 10%nat); [by apply elem_of_singleton|]. intros t _. vm_compute. reflexivity.
Defined.

End Restart.
