(* ===== verification/Alloc.v ===== *)
(** * The allocator (jalib/jalloc.cpp)

    DMTCP has an allocator of its own.  [JFixedAllocStack] keeps free chunks of one size in a stack, linked through their
    first words; the top is a pair of a pointer and a counter that one instruction compares and exchanges
    ([bool_atomic_dwcas]).  When the stack is empty [expand] gets a block and pushes its chunks.

    A step of a thread is one access to memory that others may use.  [origHead = _top] copies two words, so it is two
    steps, in any order.  The program that uses the allocator calls it, returns chunks it has, and writes to the chunks it has
    whenever it likes. *)

From Stdlib Require Import ZArith Lia.
From stdpp Require Import base gmap numbers functions relations list.
From S2P Require Import Prelude.
Open Scope Z_scope.

Module Alloc.

(** ** The state *)

(** [JFixedAllocStack<N>(blockSize)]. *)
Record Level : Type := mk_Level { chunk : Z; blockSize : Z }.

(** The number of [FreeItem]s of a block. *)
Definition count (l : Level) : nat := Z.to_nat (blockSize l / chunk l).
(** [bufs + i]. *)
Definition item (l : Level) (bufs : Z) (i : nat) : Z := bufs + Z.of_nat i * chunk l.
Definition items (l : Level) (bufs : Z) (k : nat) : list Z := item l bufs <$> seq 0 k.

Record StackHead : Type := mk_StackHead { counter : Z; node : Z }.
#[export] Instance StackHead_eq_dec : EqDecision StackHead.
Proof. solve_decision. Defined.
Definition NULL : Z := 0.

(** Why a thread reads [_top]: to pop, to pop after [expand], to push [k] chunks from [bufs] on ([back]: in [expand]). *)
Inductive op : Type := Pop | PopAgain | Push (bufs : Z) (k : nat) (back : bool).

(** Where a thread is: before the access named. *)
Inductive pc : Type :=
| Idle
| Load (o : op) (c n : option Z)           (* origHead = _top *)
| Expand                                   (* the call of JAllocDispatcher::allocate in expand *)
| Next (c n : Z)                           (* origHead.node->next *)
| PopCas (c n next : Z)
| Clear (n : Z)                            (* origHead.node->next = NULL *)
| Link (bufs : Z) (k : nat) (back : bool) (c n : Z)   (* item->next = origHead.node *)
| PushCas (bufs : Z) (k : nat) (back : bool) (c n : Z).

(** [mem] is the word at an address; [given] are the chunks the program has, [blocks] the blocks that [expand] got. *)
Record State : Type := mk_State {
  top : StackHead; mem : Z -> Z; numExpands : Z; pcs : nat -> pc; given : gset Z; blocks : list Z }.
#[export] Instance eta_State : Settable State :=
  {| eta_of s := mk_State (top s) (mem s) (numExpands s) (pcs s) (given s) (blocks s) |}.

Definition JFixedAllocStack : State := mk_State (mk_StackHead 0 NULL) (fun _ => 0) 0 (fun _ => Idle) ∅ [].

(** ** Steps *)

Inductive event : Type :=
| Allocate (t : nat) | Deallocate (t : nat) (ptr : Z)   (* calls *)
| Counter (t : nat) | Node (t : nat)                     (* a half of origHead = _top *)
| Block (t : nat) (bufs : Z)                             (* expand gets a block and links its chunks *)
| Go (t : nat)                                           (* the access the thread is before *)
| Write (p a v : Z).                                     (* the program writes to a chunk *)

(** The result of a step: [No] when the event is not possible, [Segv] for an access through a null pointer. *)
Inductive result : Type := Ok (s : State) | No | Segv.

Section level.
Context (l : Level).

Definition goto (t : nat) (p : pc) (s : State) : State := s <| pcs ::= <[t := p]> |>.

(** After both halves have been read. *)
Definition loaded (o : op) (c n : Z) : pc :=
  match o with
  | Pop => if n =? NULL then Expand else Next c n
  | PopAgain => Next c n
  | Push bufs k back => Link bufs k back c n
  end.
Definition load (o : op) (c n : option Z) : pc :=
  match c, n with Some c, Some n => loaded o c n | _, _ => Load o c n end.

(** The loop of [expand] that links the chunks of the new block. *)
Fixpoint link_items (bufs : Z) (k : nat) (m : Z -> Z) : Z -> Z :=
  match k with
  | O | S O => m
  | S k => link_items (bufs + chunk l) k (<[bufs := bufs + chunk l]> m)
  end.

(** What the system promises of a block: it does not overlap another. *)
Definition fresh (bufs : Z) (bs : list Z) : bool :=
  (NULL <? bufs) && forallb (fun b => (bufs + blockSize l <=? b) || (b + blockSize l <=? bufs)) bs.

(** [bool_atomic_dwcas(&_top, ..)]. *)
Definition dwcas (c n : Z) (newHead : StackHead) (s : State) : option State :=
  if decide (top s = mk_StackHead c n) then Some (s <| top := newHead |>) else None.

Definition step (ev : event) (s : State) : result :=
  match ev with
  | Allocate t => match pcs s t with Idle => Ok (goto t (Load Pop None None) s) | _ => No end
  | Deallocate t ptr =>
      match pcs s t with
      | Idle => if decide (ptr ∈ given s) then Ok (goto t (Load (Push ptr 1 false) None None) (s <| given ::= fun g => g ∖ {[ptr]} |>)) else No
      | _ => No
      end
  | Counter t => match pcs s t with Load o None n => Ok (goto t (load o (Some (counter (top s))) n) s) | _ => No end
  | Node t => match pcs s t with Load o c None => Ok (goto t (load o c (Some (node (top s)))) s) | _ => No end
  | Block t bufs =>
      match pcs s t with
      | Expand => if fresh bufs (blocks s)
                  then Ok (goto t (Load (Push bufs (count l) true) None None)
                         (s <| numExpands ::= Z.add 1 |> <| blocks ::= cons bufs |> <| mem ::= link_items bufs (count l) |>)) else No
      | _ => No
      end
  | Go t =>
      match pcs s t with
      | Next c n => if n =? NULL then Segv else Ok (goto t (PopCas c n (mem s n)) s)
      | PopCas c n next =>
          match dwcas c n (mk_StackHead (to_uint64 (c + 1)) next) s with
          | Some s => Ok (goto t (Clear n) s)
          | None => Ok (goto t (Load Pop None None) s)
          end
      | Clear n => Ok (goto t Idle (s <| mem ::= <[n := NULL]> |> <| given ::= union {[n]} |>))
      | Link bufs k back c n => Ok (goto t (PushCas bufs k back c n) (s <| mem ::= <[item l bufs (k - 1) := n]> |>))
      | PushCas bufs k back c n =>
          match dwcas c n (mk_StackHead (to_uint64 (c + 1)) bufs) s with
          | Some s => Ok (goto t (if back then Load PopAgain None None else Idle) s)
          | None => Ok (goto t (Load (Push bufs k back) None None) s)
          end
      | _ => No
      end
  | Write p a v => if decide (p ∈ given s) then if (p <=? a) && (a <? p + chunk l) then Ok (s <| mem ::= <[a := v]> |>) else No else No
  end.

Definition steps (s s' : State) : Prop := exists ev, step ev s = Ok s'.

(** ** The invariant *)

(** Where a chunk is: in the stack, in the program, in the hands of a thread that is pushing it or has just popped it. *)
Inductive place : Type := Nowhere | Free | Given | Hand (t : nat).
#[local] Instance place_eq_dec : EqDecision place.
Proof. solve_decision. Defined.

Definition hand (p : pc) : list Z :=
  match p with
  | Clear n => [n]
  | Load (Push b k _) _ _ | Link b k _ _ _ | PushCas b k _ _ _ => items l b k
  | _ => []
  end.

Fixpoint chain (m : Z -> Z) (a : Z) (L : list Z) : Prop :=
  match L with [] => a = NULL | x :: L => a = x /\ x <> NULL /\ chain m (m x) L end.

Definition linked (m : Z -> Z) (b : Z) (k : nat) : Prop := (0 < k)%nat /\ forall i, (S i < k)%nat -> m (item l b i) = item l b (S i).

(** The counter a thread that pops has read. *)
Definition seen (p : pc) : option Z :=
  match p with Load (Pop | PopAgain) c _ => c | Next c _ | PopCas c _ _ => Some c | _ => None end.

Definition thread_ok (h : StackHead) (m : Z -> Z) (p : pc) : Prop :=
  (forall c, seen p = Some c -> c <= counter h) /\
  match p with
  | Load (Push b k _) _ _ | Link b k _ _ _ => linked m b k
  | PushCas b k _ _ n => linked m b k /\ m (item l b (k - 1)) = n
  | PopCas c n next => n <> NULL /\ (h = mk_StackHead c n -> next = m n)
  | _ => True
  end.

Fixpoint blocks_ok (bs : list Z) : Prop := match bs with [] => True | b :: bs => fresh b bs = true /\ blocks_ok bs end.
Definition chunks (bs : list Z) : list Z := b ← bs; items l b (count l).

Record Inv (s : State) (L : list Z) (loc : Z -> place) : Prop := {
  iv_chain : chain (mem s) (node (top s)) L;
  iv_nodup : NoDup L;
  iv_free : forall x, x ∈ L <-> loc x = Free;
  iv_given : forall x, x ∈ given s <-> loc x = Given;
  iv_hand : forall t x, x ∈ hand (pcs s t) <-> loc x = Hand t;
  iv_all : forall x, x ∈ chunks (blocks s) <-> loc x <> Nowhere;
  iv_threads : forall t, thread_ok (top s) (mem s) (pcs s t);
  iv_blocks : blocks_ok (blocks s);
  iv_counter : 0 <= counter (top s) }.

Hypothesis Hl : 0 < chunk l <= blockSize l.

(** ** Chunks do not overlap *)

Lemma count_pos : (0 < count l)%nat.
Proof. unfold count. assert (1 <= blockSize l / chunk l) by (apply Z.div_le_lower_bound; lia). lia. Qed.
Lemma count_fits : Z.of_nat (count l) * chunk l <= blockSize l.
Proof. unfold count. rewrite Z2Nat.id by (apply Z.div_pos; lia). pose proof (Z.mul_div_le (blockSize l) (chunk l)). lia. Qed.

Lemma elem_of_items x b k : x ∈ items l b k <-> exists i, (i < k)%nat /\ x = item l b i.
Proof. unfold items. rewrite list_elem_of_fmap. split; [intros (i & -> & Hi%elem_of_seq); exists i; split; [lia|done]|intros (i & Hi & ->); exists i; split; [done|apply elem_of_seq; lia]]. Qed.
Lemma item_inj b i j : item l b i = item l b j -> i = j.
Proof. unfold item. intros H. assert (Z.of_nat i * chunk l = Z.of_nat j * chunk l) as E by lia. apply Z.mul_cancel_r in E; lia. Qed.
Lemma items_nodup b k : NoDup (items l b k).
Proof. apply NoDup_fmap_2_strong; [|apply NoDup_seq]. intros i j _ _. apply item_inj. Qed.

Lemma item_range b i : (i < count l)%nat -> b <= item l b i /\ item l b i + chunk l <= b + blockSize l.
Proof. intros Hi. pose proof count_fits. unfold item. assert ((Z.of_nat i + 1) * chunk l <= Z.of_nat (count l) * chunk l) by (apply Z.mul_le_mono_nonneg_r; lia). nia. Qed.

Lemma fresh_spec b bs : fresh b bs = true <-> 0 < b /\ forall b', b' ∈ bs -> b + blockSize l <= b' \/ b' + blockSize l <= b.
Proof.
  unfold fresh, NULL. rewrite andb_true_iff, Z.ltb_lt, forallb_forall. setoid_rewrite <- list_elem_of_In. setoid_rewrite orb_true_iff. setoid_rewrite Z.leb_le. done.
Qed.

Lemma elem_of_chunks x bs : x ∈ chunks bs <-> exists b i, b ∈ bs /\ (i < count l)%nat /\ x = item l b i.
Proof. unfold chunks. rewrite list_elem_of_bind. setoid_rewrite elem_of_items. naive_solver. Qed.

Lemma blocks_apart bs b b' : blocks_ok bs -> b ∈ bs -> b' ∈ bs -> b <> b' -> b + blockSize l <= b' \/ b' + blockSize l <= b.
Proof.
  induction bs as [|a bs IH]; intros Hok Hb Hb' Hne; [by apply elem_of_nil in Hb|]. destruct Hok as [Hf Hok]. apply fresh_spec in Hf as [_ Hf].
  apply elem_of_cons in Hb as [-> |Hb], Hb' as [-> |Hb']; [done|by apply Hf|destruct (Hf b Hb); auto|by apply IH].
Qed.
Lemma blocks_positive bs b : blocks_ok bs -> b ∈ bs -> 0 < b.
Proof. induction bs as [|a bs IH]; intros Hok Hb; [by apply elem_of_nil in Hb|]. destruct Hok as [Hf Hok]. apply fresh_spec in Hf as [? _]. apply elem_of_cons in Hb as [-> |Hb]; auto. Qed.

Lemma chunks_apart bs x y : blocks_ok bs -> x ∈ chunks bs -> y ∈ chunks bs -> x <> y -> x + chunk l <= y \/ y + chunk l <= x.
Proof.
  intros Hok (b & i & Hb & Hi & ->)%elem_of_chunks (b' & j & Hb' & Hj & ->)%elem_of_chunks Hne. destruct (decide (b = b')) as [<-|Hbb].
  - assert (i <> j) by (by intros ->). unfold item. destruct (Nat.lt_total i j) as [?|[?|?]]; [left|done|right]; nia.
  - pose proof (item_range b i Hi). pose proof (item_range b' j Hj). destruct (blocks_apart bs b b' Hok Hb Hb' Hbb); lia.
Qed.
Lemma chunks_positive bs x : blocks_ok bs -> x ∈ chunks bs -> 0 < x.
Proof. intros Hok (b & i & Hb & Hi & ->)%elem_of_chunks. pose proof (blocks_positive bs b Hok Hb). pose proof (item_range b i Hi). lia. Qed.

(** ** What a step of one thread leaves to the others *)

Lemma chain_frame m m' a L : (forall x, x ∈ L -> m' x = m x) -> chain m a L -> chain m' a L.
Proof.
  revert a. induction L as [|x L IH]; intros a Hm; [done|]. cbn. intros (-> & Hx & Hc). split_and!; [done..|]. rewrite Hm by left. apply IH; [|done]. intros y Hy. apply Hm. by right.
Qed.

Lemma linked_frame m m' b k : (forall x, x ∈ items l b k -> m' x = m x) -> linked m b k -> linked m' b k.
Proof. intros Hm [Hk H]. split; [done|]. intros i Hi. rewrite Hm; [by apply H|]. apply elem_of_items. exists i. split; [lia|done]. Qed.

Lemma thread_frame h m h' m' p : thread_ok h m p -> (forall x, x ∈ hand p -> m' x = m x) ->
  counter h < counter h' \/ h' = h /\ (node h <> NULL -> m' (node h) = m (node h)) -> thread_ok h' m' p.
Proof.
  intros [Hs Hp] Hm Hh. assert (Hle : counter h <= counter h') by (destruct Hh as [?|[-> _]]; lia). split; [intros c Hc; specialize (Hs c Hc); lia|].
  destruct p as [|[| |b k bk] c n| |c n|c n x|n|b k bk c n|b k bk c n]; try done; cbn [hand] in Hm.
  - by eapply linked_frame.
  - destruct Hp as [Hn Hx]. split; [done|]. intros ->. destruct Hh as [Hlt|[<- Hnode]].
    + cbn in Hlt. specialize (Hs c eq_refl). lia.
    + rewrite (Hx eq_refl). symmetry. by apply Hnode.
  - by eapply linked_frame.
  - destruct Hp as [Hp <-]. split; [by eapply linked_frame|]. apply Hm, elem_of_items. destruct Hp as [Hk _]. exists (k - 1)%nat. split; [lia|done].
Qed.

(** Some chunks are somewhere else. *)
Definition put (seg : list Z) (q : place) (loc : Z -> place) (x : Z) : place := if decide (x ∈ seg) then q else loc x.
Lemma put_in seg q loc x : x ∈ seg -> put seg q loc x = q.
Proof. intros H. unfold put. by rewrite decide_True. Qed.
Lemma put_out seg q loc x : x ∉ seg -> put seg q loc x = loc x.
Proof. intros H. unfold put. by rewrite decide_False. Qed.
Lemma put_eq seg q loc x p : put seg q loc x = p <-> x ∈ seg /\ q = p \/ x ∉ seg /\ loc x = p.
Proof. unfold put. destruct (decide (x ∈ seg)); naive_solver. Qed.

(** ** Steps that move nothing *)

Lemma inv_goto s L loc t p : Inv s L loc -> hand p = hand (pcs s t) -> thread_ok (top s) (mem s) p -> Inv (goto t p s) L loc.
Proof.
  intros [] Hh Hp. split; try done; change (pcs (goto t p s)) with (<[t := p]> (pcs s)); intros u; (destruct (decide (u = t)) as [->|Hu]; [rewrite fn_lookup_insert|rewrite fn_lookup_insert_ne by done; auto]); [rewrite Hh; auto|done].
Qed.

Lemma load_ok h m o c n : thread_ok h m (Load o c n) -> thread_ok h m (load o c n).
Proof. destruct c as [c|], n as [n|]; [|done..]. destruct o; cbn; [|done..]. by destruct (n =? NULL). Qed.
Lemma load_hand o c n : hand (load o c n) = hand (Load o None None).
Proof. destruct c as [c|], n as [n|], o; try done. cbn. by destruct (n =? NULL). Qed.

Lemma hand_same s L loc t p : Inv s L loc -> hand (pcs s t) = hand p -> forall x, x ∈ hand p <-> loc x = Hand t.
Proof. intros HI E x. rewrite <- E. apply HI. Qed.

Lemma inv_load s L loc t o c n c' n' : Inv s L loc -> pcs s t = Load o c n -> (c' = c \/ c' = Some (counter (top s))) -> Inv (goto t (load o c' n') s) L loc.
Proof.
  intros HI Et Hc. apply inv_goto; [done|rewrite Et, load_hand; by destruct o|]. apply load_ok. pose proof (iv_threads _ _ _ HI t) as [Hs Ht]. rewrite Et in Hs, Ht.
  split; [|by destruct o]. intros d Hd. destruct Hc as [-> | ->]; [destruct o; cbn in *; auto; discriminate|]. destruct o; cbn in Hd; simplify_eq; lia.
Qed.

(** ** Steps that move chunks *)

Lemma inv_move s L loc t p s' L' loc' : Inv s L loc -> pcs s' = <[t := p]> (pcs s) ->
  chain (mem s') (node (top s')) L' -> NoDup L' -> (forall x, x ∈ L' <-> loc' x = Free) -> (forall x, x ∈ given s' <-> loc' x = Given) ->
  (forall x, x ∈ hand p <-> loc' x = Hand t) -> (forall u x, u <> t -> loc' x = Hand u <-> loc x = Hand u) ->
  (forall x, x ∈ chunks (blocks s') <-> loc' x <> Nowhere) -> blocks_ok (blocks s') -> thread_ok (top s') (mem s') p ->
  (forall u x, u <> t -> loc x = Hand u -> mem s' x = mem s x) ->
  counter (top s) < counter (top s') \/ top s' = top s /\ (node (top s) <> NULL -> mem s' (node (top s)) = mem s (node (top s))) -> Inv s' L' loc'.
Proof.
  intros HI Ep Hc Hn Hf Hg Hh Hu Ha Hb Ht Hm Htop. split; try done.
  - intros u x. rewrite Ep. destruct (decide (u = t)) as [->|Hne]; [by rewrite fn_lookup_insert|]. rewrite fn_lookup_insert_ne by done. rewrite Hu by done. apply HI.
  - intros u. rewrite Ep. destruct (decide (u = t)) as [->|Hne]; [by rewrite fn_lookup_insert|]. rewrite fn_lookup_insert_ne by done.
    eapply thread_frame; [apply HI| |exact Htop]. intros x Hx. apply (Hm u x Hne). by apply HI.
  - pose proof (iv_counter _ _ _ HI). destruct Htop as [?|[-> _]]; lia.
Qed.

(** The chunk at the top is in the stack. *)
Lemma top_free s L loc : Inv s L loc -> node (top s) <> NULL -> loc (node (top s)) = Free.
Proof. intros HI Hn. pose proof (iv_chain _ _ _ HI) as Hc. apply (iv_free _ _ _ HI). destruct L as [|x L]; [done|]. destruct Hc as [<- _]. left. Qed.

Lemma inv_deallocate s L loc t ptr : Inv s L loc -> pcs s t = Idle -> ptr ∈ given s ->
  Inv (goto t (Load (Push ptr 1 false) None None) (s <| given ::= fun g => g ∖ {[ptr]} |>)) L (put [ptr] (Hand t) loc).
Proof.
  intros HI Et Hp. pose proof (proj1 (iv_given _ _ _ HI ptr) Hp) as Hloc.
  assert (Hno : forall x, loc x <> Hand t) by (intros x Hx; apply (iv_hand _ _ _ HI) in Hx; rewrite Et in Hx; by apply elem_of_nil in Hx).
  eapply (inv_move s); [exact HI|done|apply HI|apply HI|..].
  - intros x. rewrite put_eq, (iv_free _ _ _ HI), list_elem_of_singleton. split; [intros Hx; right; split; [congruence|done]|naive_solver].
  - intros x. change (given (goto _ _ _)) with (given s ∖ {[ptr]}). rewrite elem_of_difference, elem_of_singleton, put_eq, (iv_given _ _ _ HI), list_elem_of_singleton. naive_solver.
  - intros x. rewrite put_eq, list_elem_of_singleton. change (hand _) with (items l ptr 1). rewrite elem_of_items.
    assert (E : item l ptr 0 = ptr) by (unfold item; lia). split; [intros (i & Hi & ->); left; replace i with O by lia; done|].
    intros [[-> _]|[_ Hx]]; [exists O; split; [lia|done]|by apply Hno in Hx].
  - intros u x Hu. rewrite put_eq, list_elem_of_singleton. split; [naive_solver|]. intros Hx. right. split; [congruence|done].
  - intros x. change (blocks (goto _ _ _)) with (blocks s). rewrite (iv_all _ _ _ HI). unfold put. destruct (decide (x ∈ [ptr])) as [->%list_elem_of_singleton|]; [|done]. by rewrite Hloc.
  - apply HI.
  - split; [done|]. split; [lia|]. intros i Hi. lia.
  - done.
  - by right.
Qed.

Lemma inv_write s L loc ptr a v : Inv s L loc -> ptr ∈ given s -> ptr <= a < ptr + chunk l -> Inv (s <| mem ::= <[a := v]> |>) L loc.
Proof.
  intros HI Hp Ha. pose proof (proj1 (iv_given _ _ _ HI ptr) Hp) as Hloc.
  assert (Hm : forall x, loc x <> Nowhere -> loc x <> Given -> (<[a := v]> (mem s) : Z -> Z) x = mem s x).
  { intros x Hx Hg. rewrite fn_lookup_insert_ne; [done|]. intros <-. assert (a <> ptr) by congruence.
    destruct (chunks_apart (blocks s) a ptr (iv_blocks _ _ _ HI)); [by apply HI|apply HI; congruence|done|lia..]. }
  destruct HI as [H1 H2 H3 H4 H5 H6 H7 H8 H9]. split; try done.
  - eapply chain_frame; [|exact H1]. intros x Hx%H3. apply Hm; congruence.
  - intros t. eapply thread_frame; [apply H7| |right; split; [done|]].
    + intros x Hx%H5. apply Hm; congruence.
    + intros Hn. assert (Hf : loc (node (top s)) = Free) by (apply (top_free s L loc); [by split|done]). apply Hm; congruence.
Qed.

(** The chunks of a new block are linked; nothing else is written. *)
Lemma link_items_out b k m x : x ∉ items l b k -> link_items b k m x = m x.
Proof.
  revert b m. induction k as [|k IH]; intros b m Hx; [done|]. destruct k as [|k]; [done|]. change (link_items b (S (S k)) m) with (link_items (b + chunk l) (S k) (<[b := b + chunk l]> m)).
  rewrite IH.
  - rewrite fn_lookup_insert_ne; [done|]. intros <-. apply Hx, elem_of_items. exists O. split; [lia|]. unfold item. lia.
  - intros (i & Hi & ->)%elem_of_items. apply Hx, elem_of_items. exists (S i). split; [lia|]. unfold item. lia.
Qed.
Lemma link_items_linked b k m : (0 < k)%nat -> linked (link_items b k m) b k.
Proof.
  revert b m. induction k as [|k IH]; intros b m Hk; [lia|]. split; [done|]. destruct k as [|k]; [intros i Hi; lia|].
  change (link_items b (S (S k)) m) with (link_items (b + chunk l) (S k) (<[b := b + chunk l]> m)). intros [|i] Hi.
  - rewrite link_items_out.
    + replace (item l b 0) with b by (unfold item; lia). rewrite fn_lookup_insert. unfold item. lia.
    + intros (i & _ & E)%elem_of_items. unfold item in E. nia.
  - destruct (IH (b + chunk l) (<[b := b + chunk l]> m)) as [_ H]; [lia|]. specialize (H i ltac:(lia)).
    replace (item l b (S i)) with (item l (b + chunk l) i) by (unfold item; lia). rewrite H. unfold item. lia.
Qed.

Lemma inv_block s L loc t b : Inv s L loc -> pcs s t = Expand -> fresh b (blocks s) = true ->
  Inv (goto t (Load (Push b (count l) true) None None) (s <| numExpands ::= Z.add 1 |> <| blocks ::= cons b |> <| mem ::= link_items b (count l) |>))
    L (put (items l b (count l)) (Hand t) loc).
Proof.
  intros HI Et Hf. assert (Hb : blocks_ok (b :: blocks s)) by (split; [done|apply HI]).
  assert (Hnew : forall x, x ∈ items l b (count l) -> loc x = Nowhere).
  { intros x Hx. destruct (decide (loc x = Nowhere)) as [|Hn]; [done|]. exfalso. apply (iv_all _ _ _ HI) in Hn as (b' & i & Hb' & Hi & ->)%elem_of_chunks.
    apply elem_of_items in Hx as (j & Hj & E). apply fresh_spec in Hf as [_ Hf]. pose proof (item_range b' i Hi). pose proof (item_range b j Hj). destruct (Hf b' Hb'); lia. }
  assert (Hm : forall x, loc x <> Nowhere -> link_items b (count l) (mem s) x = mem s x) by (intros x Hx; apply link_items_out; intros Hin; by apply Hx, Hnew).
  assert (Hno : forall x, loc x <> Hand t) by (intros x Hx; apply (iv_hand _ _ _ HI) in Hx; rewrite Et in Hx; by apply elem_of_nil in Hx).
  assert (Hput : forall x q, q <> Hand t -> q <> Nowhere -> put (items l b (count l)) (Hand t) loc x = q <-> loc x = q).
  { intros x q H1 H2. rewrite put_eq. split; [naive_solver|]. intros Hx. right. split; [|done]. intros Hin%Hnew. congruence. }
  eapply (inv_move s); [exact HI|done|..].
  - eapply chain_frame; [|apply HI]. intros x Hx%(iv_free _ _ _ HI). apply Hm. congruence.
  - apply HI.
  - intros x. rewrite Hput by done. apply HI.
  - intros x. rewrite Hput by done. apply HI.
  - intros x. rewrite put_eq. change (hand _) with (items l b (count l)). split; [by left|]. intros [[? _]|[_ Hx]]; [done|by apply Hno in Hx].
  - intros u x Hu. apply Hput; congruence.
  - intros x. change (blocks (goto _ _ _)) with (b :: blocks s). change (chunks (b :: blocks s)) with (items l b (count l) ++ chunks (blocks s)). rewrite elem_of_app, (iv_all _ _ _ HI).
    unfold put. destruct (decide (x ∈ items l b (count l))); naive_solver.
  - exact Hb.
  - split; [done|]. apply link_items_linked, count_pos.
  - intros u x Hu Hx. apply Hm. congruence.
  - right. split; [done|]. intros Hn. apply Hm. rewrite (top_free s L loc HI Hn). done.
Qed.

(** The compare and exchange of [allocate] succeeds only while the word it has read is the link of the top. *)
Lemma inv_pop s L loc t c n x : Inv s L loc -> pcs s t = PopCas c n x -> top s = mk_StackHead c n -> c + 1 < 2 ^ 64 ->
  exists L', L = n :: L' /\ Inv (goto t (Clear n) (s <| top := mk_StackHead (to_uint64 (c + 1)) x |>)) L' (put [n] (Hand t) loc).
Proof.
  intros HI Et Etop Hc. pose proof (iv_threads _ _ _ HI t) as [_ Ht]. rewrite Et in Ht. destruct Ht as [Hn Hx]. specialize (Hx Etop).
  pose proof (iv_counter _ _ _ HI) as Hc0. rewrite Etop in Hc0. cbn in Hc0.
  assert (Ec : to_uint64 (c + 1) = c + 1) by (apply wrap_u_small; lia).
  pose proof (iv_chain _ _ _ HI) as HL. rewrite Etop in HL. cbn in HL. destruct L as [|y L']; [done|]. destruct HL as (<- & _ & HL). exists L'. split; [done|].
  pose proof (iv_nodup _ _ _ HI) as Hnd. apply NoDup_cons in Hnd as [Hnin Hnd].
  assert (Hloc : loc n = Free) by (apply HI; left).
  assert (Hno : forall y, loc y <> Hand t) by (intros y Hy; apply (iv_hand _ _ _ HI) in Hy; rewrite Et in Hy; by apply elem_of_nil in Hy).
  eapply (inv_move s); [exact HI|done|..].
  - cbn. by rewrite Hx.
  - done.
  - intros y. rewrite put_eq, list_elem_of_singleton, <- (iv_free _ _ _ HI), elem_of_cons. split; [|naive_solver]. intros Hy. right. split; [by intros ->|by right].
  - intros y. change (given (goto _ _ _)) with (given s). rewrite (iv_given _ _ _ HI), put_eq, list_elem_of_singleton. split; [|naive_solver]. intros Hy. right. split; [congruence|done].
  - intros y. rewrite put_eq. change (hand (Clear n)) with [n]. split; [by left|]. intros [[? _]|[_ Hy]]; [done|by apply Hno in Hy].
  - intros u y Hu. rewrite put_eq, list_elem_of_singleton. split; [naive_solver|]. intros Hy. right. split; [congruence|done].
  - intros y. change (blocks (goto _ _ _)) with (blocks s). rewrite (iv_all _ _ _ HI). unfold put. destruct (decide (y ∈ [n])) as [->%list_elem_of_singleton|]; [|done]. by rewrite Hloc.
  - apply HI.
  - by split.
  - done.
  - left. rewrite Etop. change (counter (top (goto _ _ _))) with (to_uint64 (c + 1)). cbn [counter]. lia.
Qed.

Lemma inv_clear s L loc t n : Inv s L loc -> pcs s t = Clear n -> Inv (goto t Idle (s <| mem ::= <[n := NULL]> |> <| given ::= union {[n]} |>)) L (put [n] Given loc).
Proof.
  intros HI Et. assert (Hloc : loc n = Hand t) by (apply HI; rewrite Et; left).
  assert (Hone : forall x, loc x = Hand t -> x = n) by (intros x Hx; apply (iv_hand _ _ _ HI) in Hx; rewrite Et in Hx; by apply list_elem_of_singleton in Hx).
  assert (Hm : forall x, loc x <> Hand t -> (<[n := NULL]> (mem s) : Z -> Z) x = mem s x) by (intros x Hx; apply fn_lookup_insert_ne; congruence).
  assert (Hput : forall x q, q <> Hand t -> q <> Given -> put [n] Given loc x = q <-> loc x = q).
  { intros x q H1 H2. rewrite put_eq, list_elem_of_singleton. split; [naive_solver|]. intros Hx. right. split; [congruence|done]. }
  eapply (inv_move s); [exact HI|done|..].
  - eapply chain_frame; [|apply HI]. intros x Hx%(iv_free _ _ _ HI). apply Hm. congruence.
  - apply HI.
  - intros x. rewrite Hput by done. apply HI.
  - intros x. change (given (goto _ _ _)) with ({[n]} ∪ given s). rewrite elem_of_union, elem_of_singleton, (iv_given _ _ _ HI), put_eq, list_elem_of_singleton. destruct (decide (x = n)); naive_solver.
  - intros x. rewrite put_eq, list_elem_of_singleton. change (hand Idle) with (@nil Z). rewrite elem_of_nil. split; [done|]. intros [[_ ?]|[Hne Hx]]; [done|by apply Hne, Hone].
  - intros u x Hu. apply Hput; congruence.
  - intros x. change (blocks (goto _ _ _)) with (blocks s). rewrite (iv_all _ _ _ HI). unfold put. destruct (decide (x ∈ [n])) as [->%list_elem_of_singleton|]; [|done]. by rewrite Hloc.
  - apply HI.
  - by split.
  - intros u x Hu Hx. apply Hm. congruence.
  - right. split; [done|]. intros Hn. apply Hm. by rewrite (top_free s L loc HI Hn).
Qed.

Lemma inv_link s L loc t b k bk c n : Inv s L loc -> pcs s t = Link b k bk c n -> Inv (goto t (PushCas b k bk c n) (s <| mem ::= <[item l b (k - 1) := n]> |>)) L loc.
Proof.
  intros HI Et. pose proof (iv_threads _ _ _ HI t) as [_ Ht]. rewrite Et in Ht. destruct Ht as [Hk Ht].
  assert (Hmine : forall x, x ∈ items l b k <-> loc x = Hand t) by (by apply (hand_same s L loc t (Link b k bk c n)); [|rewrite Et]).
  assert (Hlast : loc (item l b (k - 1)) = Hand t) by (apply Hmine, elem_of_items; exists (k - 1)%nat; split; [lia|done]).
  assert (Hm : forall x, loc x <> Hand t -> (<[item l b (k - 1) := n]> (mem s) : Z -> Z) x = mem s x) by (intros x Hx; apply fn_lookup_insert_ne; congruence).
  eapply (inv_move s); [exact HI|done|..]; try (by apply HI); try done.
  - eapply chain_frame; [|apply HI]. intros x Hx%(iv_free _ _ _ HI). apply Hm. congruence.
  - split; [done|]. split; [|by apply fn_lookup_insert]. split; [done|]. intros i Hi. change (mem (goto _ _ _)) with (<[item l b (k - 1) := n]> (mem s)).
    rewrite fn_lookup_insert_ne; [by apply Ht|]. intros E%item_inj. lia.
  - intros u x Hu Hx. apply Hm. congruence.
  - right. split; [done|]. intros Hn. apply Hm. by rewrite (top_free s L loc HI Hn).
Qed.

Lemma linked_chain m b k L n : linked m b k -> m (item l b (k - 1)) = n -> chain m n L -> (forall x, x ∈ items l b k -> x <> NULL) -> chain m b (items l b k ++ L).
Proof.
  revert b. induction k as [|k IH]; intros b [Hk Hl'] En HL Hx; [lia|]. change (items l b (S k)) with (item l b 0 :: (item l b <$> seq 1 k)).
  assert (E0 : item l b 0 = b) by (unfold item; lia). assert (E : item l b <$> seq 1 k = items l (b + chunk l) k).
  { unfold items. rewrite <- (fmap_S_seq 0 k), <- list_fmap_compose. apply list_fmap_ext. intros i j _. unfold compose, item. lia. }
  rewrite E, E0. cbn [app chain]. split_and!; [done|apply Hx, elem_of_items; exists O; split; [lia|by rewrite E0]|]. destruct k as [|k].
  - cbn. cbn in En. rewrite E0 in En. by rewrite En.
  - specialize (Hl' O ltac:(lia)) as E1. rewrite E0 in E1. replace (item l b 1) with (b + chunk l) in E1 by (unfold item; lia). rewrite E1. apply IH; [split; [lia|]|..].
    + intros i Hi. specialize (Hl' (S i) ltac:(lia)). replace (item l (b + chunk l) i) with (item l b (S i)) by (unfold item; lia). rewrite Hl'. unfold item. lia.
    + rewrite <- En. replace (item l (b + chunk l) (S k - 1)) with (item l b (S (S k) - 1)); [done|]. replace (S (S k) - 1)%nat with (S (S k - 1)) by lia. unfold item. lia.
    + done.
    + intros x (i & Hi & ->)%elem_of_items. apply Hx, elem_of_items. exists (S i). split; [lia|]. unfold item. lia.
Qed.

Lemma inv_push s L loc t b k bk c n q : Inv s L loc -> pcs s t = PushCas b k bk c n -> top s = mk_StackHead c n -> c + 1 < 2 ^ 64 ->
  hand q = [] -> (forall h m, thread_ok h m q) ->
  Inv (goto t q (s <| top := mk_StackHead (to_uint64 (c + 1)) b |>)) (items l b k ++ L) (put (items l b k) Free loc).
Proof.
  intros HI Et Etop Hc Hq Hqok. pose proof (iv_threads _ _ _ HI t) as [_ Ht]. rewrite Et in Ht. destruct Ht as [Hlk Hlast].
  pose proof (iv_counter _ _ _ HI) as Hc0. rewrite Etop in Hc0. cbn in Hc0. assert (Ec : to_uint64 (c + 1) = c + 1) by (apply wrap_u_small; lia).
  assert (Hmine : forall x, x ∈ items l b k <-> loc x = Hand t) by (by apply (hand_same s L loc t (PushCas b k bk c n)); [|rewrite Et]).
  assert (Hput : forall x p, p <> Hand t -> p <> Free -> put (items l b k) Free loc x = p <-> loc x = p).
  { intros x p H1 H2. rewrite put_eq. split; [naive_solver|]. intros Hx. right. split; [|done]. intros Hin%Hmine. congruence. }
  eapply (inv_move s); [exact HI|done|..].
  - cbn [top node]. apply (linked_chain _ b k L n); [done|done|pose proof (iv_chain _ _ _ HI) as H; by rewrite Etop in H|].
    intros x Hx%Hmine. assert (0 < x); [|unfold NULL; lia]. apply (chunks_positive (blocks s)); [apply HI|apply HI; congruence].
  - apply NoDup_app. split_and!; [apply items_nodup| |apply HI]. intros x Hx%Hmine Hin%(iv_free _ _ _ HI). congruence.
  - intros x. rewrite elem_of_app, (iv_free _ _ _ HI), put_eq. destruct (decide (x ∈ items l b k)); naive_solver.
  - intros x. rewrite Hput by done. apply HI.
  - intros x. rewrite Hq, elem_of_nil, put_eq. split; [done|]. intros [[_ ?]|[Hn Hx]]; [done|by apply Hn, Hmine].
  - intros u x Hu. apply Hput; congruence.
  - intros x. change (blocks (goto _ _ _)) with (blocks s). rewrite (iv_all _ _ _ HI). unfold put. destruct (decide (x ∈ items l b k)) as [Hx%Hmine|]; [|done]. by rewrite Hx.
  - apply HI.
  - apply Hqok.
  - done.
  - left. rewrite Etop. change (counter (top (goto _ _ _))) with (to_uint64 (c + 1)). cbn [counter]. lia.
Qed.

(** ** The abstract stack *)

(** What a step does to the stack of free chunks: nothing, pop its top, push some chunks. *)
Inductive effect : Type := Popped (n : Z) | Pushed (seg : list Z).
Definition spec (e : option effect) (L : list Z) : option (list Z) :=
  match e, L with
  | None, _ => Some L
  | Some (Popped n), x :: L => if decide (x = n) then Some L else None
  | Some (Popped _), [] => None
  | Some (Pushed seg), _ => Some (seg ++ L)
  end.

(** The compare and exchange that succeeds is the step that counts. *)
Definition effect_of (ev : event) (s : State) : option effect :=
  match ev with
  | Go t =>
      match pcs s t with
      | PopCas c n _ => if decide (top s = mk_StackHead c n) then Some (Popped n) else None
      | PushCas b k _ c n => if decide (top s = mk_StackHead c n) then Some (Pushed (items l b k)) else None
      | _ => None
      end
  | _ => None
  end.

Lemma step_go s L loc t s' : Inv s L loc -> counter (top s) + 1 < 2 ^ 64 -> step (Go t) s = Ok s' ->
  exists L' loc', Inv s' L' loc' /\ spec (effect_of (Go t) s) L = Some L' /\ counter (top s') <= counter (top s) + 1.
Proof.
  intros HI Hc Hs. unfold step in Hs. unfold effect_of. pose proof (iv_threads _ _ _ HI t) as Ht. destruct (pcs s t) as [|o c n| |c n|c n x|n|b k bk c n|b k bk c n] eqn:Et; try done.
  - destruct (n =? NULL) eqn:En; [done|]. injection Hs as <-. exists L, loc. split_and!; [|done|exact (Z.le_succ_diag_r (counter (top s)))]. apply inv_goto; [done|by rewrite Et|].
    destruct Ht as [Ht _]. split; [exact Ht|]. split; [by apply Z.eqb_neq|done].
  - unfold dwcas in Hs. destruct (decide (top s = mk_StackHead c n)) as [Etop|].
    + injection Hs as <-. rewrite Etop in Hc. cbn in Hc. destruct (inv_pop s L loc t c n x HI Et Etop Hc) as (L' & -> & HI'). exists L', (put [n] (Hand t) loc).
      split_and!; [exact HI'|cbn; by rewrite decide_True|]. rewrite Etop. change (counter (top (goto _ _ _))) with (to_uint64 (c + 1)). cbn [counter]. unfold to_uint64, wrap_u.
      pose proof (iv_counter _ _ _ HI) as H0. rewrite Etop in H0. cbn in H0. rewrite Z.mod_small; lia.
    + injection Hs as <-. exists L, loc. split_and!; [|done|exact (Z.le_succ_diag_r (counter (top s)))]. apply inv_goto; [done|by rewrite Et|]. by split.
  - injection Hs as <-. exists L, (put [n] Given loc). split_and!; [by apply inv_clear|done|exact (Z.le_succ_diag_r (counter (top s)))].
  - injection Hs as <-. exists L, loc. split_and!; [by apply inv_link|done|exact (Z.le_succ_diag_r (counter (top s)))].
  - unfold dwcas in Hs. destruct (decide (top s = mk_StackHead c n)) as [Etop|].
    + injection Hs as <-. rewrite Etop in Hc. cbn in Hc. exists (items l b k ++ L), (put (items l b k) Free loc). split_and!; [|done|].
      * eapply inv_push; [done..| |]; [by destruct bk|intros h m; by destruct bk; split].
      * rewrite Etop. change (counter (top (goto _ _ _))) with (to_uint64 (c + 1)). cbn [counter]. unfold to_uint64, wrap_u.
        pose proof (iv_counter _ _ _ HI) as H0. rewrite Etop in H0. cbn in H0. rewrite Z.mod_small; lia.
    + injection Hs as <-. exists L, loc. split_and!; [|done|exact (Z.le_succ_diag_r (counter (top s)))]. apply inv_goto; [done|by rewrite Et|]. split; [done|]. apply Ht.
Qed.

Lemma alloc_step_inv s L loc ev s' : Inv s L loc -> counter (top s) + 1 < 2 ^ 64 -> step ev s = Ok s' ->
  exists L' loc', Inv s' L' loc' /\ spec (effect_of ev s) L = Some L' /\ counter (top s') <= counter (top s) + 1.
Proof.
  intros HI Hc Hs. destruct ev as [t|t ptr|t|t|t b|t|ptr a v]; [..|by eapply step_go|]; unfold step in Hs; cbn [effect_of spec].
  - destruct (pcs s t) eqn:Et; try done. injection Hs as <-. exists L, loc. split_and!; [|done|exact (Z.le_succ_diag_r (counter (top s)))]. apply inv_goto; [done|by rewrite Et|by split].
  - destruct (pcs s t) eqn:Et; try done. destruct (decide (ptr ∈ given s)); [|done]. injection Hs as <-. eexists L, _. split_and!; [by apply inv_deallocate|done|exact (Z.le_succ_diag_r (counter (top s)))].
  - destruct (pcs s t) as [|o [c|] n| | | | | |] eqn:Et; try done. injection Hs as <-. exists L, loc. split_and!; [|done|exact (Z.le_succ_diag_r (counter (top s)))]. apply (inv_load s L loc t o None n (Some (counter (top s))) n HI Et). by right.
  - destruct (pcs s t) as [|o c [n|]| | | | | |] eqn:Et; try done. injection Hs as <-. exists L, loc. split_and!; [|done|exact (Z.le_succ_diag_r (counter (top s)))]. apply (inv_load s L loc t o c None c (Some (node (top s))) HI Et). by left.
  - destruct (pcs s t) eqn:Et; try done. destruct (fresh b (blocks s)) eqn:Hf; [|done]. injection Hs as <-. eexists L, _. split_and!; [by apply inv_block|done|exact (Z.le_succ_diag_r (counter (top s)))].
  - destruct (decide (ptr ∈ given s)); [|done]. destruct ((ptr <=? a) && (a <? ptr + chunk l)) eqn:Ha; [|done]. injection Hs as <-. exists L, loc.
    apply andb_true_iff in Ha as [?%Z.leb_le ?%Z.ltb_lt]. split_and!; [eapply inv_write; [done..|lia]|done|exact (Z.le_succ_diag_r (counter (top s)))].
Qed.

Lemma alloc_init_inv : Inv JFixedAllocStack [] (fun _ => Nowhere).
Proof. split; try done; cbn; try (intros; rewrite ?elem_of_nil, ?elem_of_empty; done). constructor. Qed.

(** ** Runs *)

Fixpoint run (evs : list event) (s : State) : result :=
  match evs with [] => Ok s | ev :: evs => match step ev s with Ok s => run evs s | r => r end end.
Fixpoint effects (evs : list event) (s : State) : list (option effect) :=
  match evs with [] => [] | ev :: evs => effect_of ev s :: match step ev s with Ok s => effects evs s | _ => [] end end.
Fixpoint spec_run (es : list (option effect)) (L : list Z) : option (list Z) :=
  match es with [] => Some L | e :: es => L ← spec e L; spec_run es L end.

Lemma alloc_run_inv evs s L loc s' : Inv s L loc -> counter (top s) + Z.of_nat (length evs) < 2 ^ 64 -> run evs s = Ok s' ->
  exists L' loc', Inv s' L' loc' /\ spec_run (effects evs s) L = Some L' /\ counter (top s') <= counter (top s) + Z.of_nat (length evs).
Proof.
  revert s L loc. induction evs as [|ev evs IH]; intros s L loc HI Hc Hr; cbn [run effects spec_run length] in *; [injection Hr as <-; exists L, loc; split_and!; [done..|lia]|].
  destruct (step ev s) as [s1| |] eqn:Es; [|done..]. destruct (alloc_step_inv s L loc ev s1 HI ltac:(lia) Es) as (L1 & loc1 & HI1 & E1 & C1).
  destruct (IH s1 L1 loc1 HI1 ltac:(lia) Hr) as (L' & loc' & HI' & E' & C'). exists L', loc'. split_and!; [done| |lia]. rewrite E1. exact E'.
Qed.

Lemma reach evs s : Z.of_nat (length evs) < 2 ^ 64 -> run evs JFixedAllocStack = Ok s ->
  exists L loc, Inv s L loc /\ spec_run (effects evs JFixedAllocStack) [] = Some L.
Proof.
  intros Hn Hr. destruct (alloc_run_inv evs JFixedAllocStack [] (fun _ => Nowhere) s alloc_init_inv ltac:(cbn; lia) Hr) as (L & loc & HI & E & _). eauto.
Qed.

Lemma given_in_block s L loc p : Inv s L loc -> p ∈ given s -> exists b, b ∈ blocks s /\ b <= p /\ p + chunk l <= b + blockSize l.
Proof.
  intros HI Hp. assert (Hc : p ∈ chunks (blocks s)) by (apply HI; rewrite (proj1 (iv_given _ _ _ HI p) Hp); done).
  apply elem_of_chunks in Hc as (b & i & Hb & Hi & ->). exists b. split; [done|by apply item_range].
Qed.

(** A word of a chunk of the program is not a chunk in the hands of a thread, nor in a new block. *)
Lemma given_word s L loc p a : Inv s L loc -> p ∈ given s -> p <= a < p + chunk l -> (forall t, loc a <> Hand t) /\ forall b, fresh b (blocks s) = true -> a ∉ items l b (count l).
Proof.
  intros HI Hp Ha. pose proof (proj1 (iv_given _ _ _ HI p) Hp) as Hloc. split.
  - intros t Ht. assert (a <> p) by congruence. destruct (chunks_apart (blocks s) a p (iv_blocks _ _ _ HI)); [apply HI; congruence|apply HI; congruence|done|lia..].
  - intros b Hf (i & Hi & ->)%elem_of_items. destruct (given_in_block s L loc p HI Hp) as (b' & Hb' & H1 & H2). apply fresh_spec in Hf as [_ Hf]. pose proof (item_range b i Hi). destruct (Hf b' Hb'); lia.
Qed.

Lemma given_kept s L loc ev s' p a : Inv s L loc -> step ev s = Ok s' -> p ∈ given s -> p <= a < p + chunk l -> mem s' a = mem s a \/ exists v, ev = Write p a v.
Proof.
  intros HI Hs Hp Ha. destruct (given_word s L loc p a HI Hp Ha) as [Hh Hb]. destruct ev as [t|t ptr|t|t|t b|t|q a' v]; unfold step in Hs.
  - destruct (pcs s t); try done. injection Hs as <-. by left.
  - destruct (pcs s t); try done. destruct (decide _); [|done]. injection Hs as <-. by left.
  - destruct (pcs s t) as [|o [c|] n| | | | | |]; try done. injection Hs as <-. by left.
  - destruct (pcs s t) as [|o c [n|]| | | | | |]; try done. injection Hs as <-. by left.
  - destruct (pcs s t); try done. destruct (fresh b (blocks s)) eqn:Hf; [|done]. injection Hs as <-. left. apply link_items_out. by apply Hb.
  - left. destruct (pcs s t) as [|o c n| |c n|c n x|n|b k bk c n|b k bk c n] eqn:Et; try done.
    + destruct (n =? NULL); [done|]. by injection Hs as <-.
    + unfold dwcas in Hs. destruct (decide _); by injection Hs as <-.
    + injection Hs as <-. apply fn_lookup_insert_ne. intros ->. apply (Hh t). apply HI. rewrite Et. left.
    + injection Hs as <-. apply fn_lookup_insert_ne. intros <-. apply (Hh t). apply HI. rewrite Et. apply elem_of_items. pose proof (iv_threads _ _ _ HI t) as [_ Ht]. rewrite Et in Ht. destruct Ht as [Hk _].
      exists (k - 1)%nat. split; [lia|done].
    + unfold dwcas in Hs. destruct (decide _); by injection Hs as <-.
  - destruct (decide (q ∈ given s)) as [Hq|]; [|done]. destruct ((q <=? a') && (a' <? q + chunk l)) eqn:Hr; [|done]. injection Hs as <-.
    apply andb_true_iff in Hr as [?%Z.leb_le ?%Z.ltb_lt]. destruct (decide (a' = a)) as [->|Hne]; [|left; by apply fn_lookup_insert_ne]. right. exists v. f_equal.
    destruct (decide (q = p)) as [->|Hqp]; [done|]. exfalso.
    assert (Hin : forall y, y ∈ given s -> y ∈ chunks (blocks s)) by (intros y Hy; apply HI; rewrite (proj1 (iv_given _ _ _ HI y) Hy); done).
    destruct (chunks_apart (blocks s) q p (iv_blocks _ _ _ HI)); [auto..|done|lia|lia].
Qed.

(** ** A thread that runs alone *)

Definition thread_of (ev : event) : option nat :=
  match ev with Allocate t | Deallocate t _ | Counter t | Node t | Block t _ | Go t => Some t | Write _ _ _ => None end.

(** Thread [t] can return within [n] steps of its own. *)
Definition alone (t n : nat) (s : State) : Prop :=
  exists evs s', (length evs <= n)%nat /\ Forall (fun ev => thread_of ev = Some t) evs /\ run evs s = Ok s' /\ pcs s' t = Idle.

Lemma alone_idle t n s : pcs s t = Idle -> alone t n s.
Proof. intros H. exists [], s. split_and!; [cbn; lia|constructor|done|done]. Qed.
Lemma alone_step t n s s1 ev : step ev s = Ok s1 -> thread_of ev = Some t -> alone t n s1 -> alone t (S n) s.
Proof. intros Hs Ht (evs & s' & H1 & H2 & H3 & H4). exists (ev :: evs), s'. split_and!; [cbn; lia|by constructor|cbn; by rewrite Hs|done]. Qed.
Lemma alone_le t n m s : (n <= m)%nat -> alone t n s -> alone t m s.
Proof. intros Hle (evs & s' & H1 & H2). exists evs, s'. split; [lia|done]. Qed.

Lemma goto_at t p s : pcs (goto t p s) t = p.
Proof. apply fn_lookup_insert. Qed.
Lemma dwcas_top s h : dwcas (counter (top s)) (node (top s)) h s = Some (s <| top := h |>).
Proof. unfold dwcas. destruct (top s) as [c n]. cbn. by rewrite decide_True. Qed.

(** Both halves of [_top]. *)
Lemma alone_load t n s o : pcs s t = Load o None None ->
  (forall s1, top s1 = top s -> mem s1 = mem s -> blocks s1 = blocks s -> pcs s1 t = loaded o (counter (top s)) (node (top s)) -> alone t n s1) -> alone t (2 + n) s.
Proof.
  intros Et H. eapply (alone_step _ _ _ _ (Counter t)); [unfold step; rewrite Et; reflexivity|done|]. eapply (alone_step _ _ _ _ (Node t)); [unfold step; rewrite goto_at; reflexivity|done|].
  apply H; [done..|]. by rewrite goto_at.
Qed.

Lemma alone_next t s c n : pcs s t = Next c n -> n <> NULL -> top s = mk_StackHead c n -> alone t 3 s.
Proof.
  intros Et Hn Htop. eapply (alone_step _ _ _ _ (Go t)); [unfold step; rewrite Et; rewrite (proj2 (Z.eqb_neq _ _) Hn); reflexivity|done|].
  eapply (alone_step _ _ _ _ (Go t)); [unfold step; rewrite goto_at; unfold dwcas; rewrite decide_True by exact Htop; reflexivity|done|].
  eapply (alone_step _ _ _ _ (Go t)); [unfold step; rewrite goto_at; reflexivity|done|]. apply alone_idle, goto_at.
Qed.

Lemma alone_popagain t s : pcs s t = Load PopAgain None None -> node (top s) <> NULL -> alone t 5 s.
Proof. intros Et Hn. apply alone_load with PopAgain; [done|]. intros s1 H1 _ _ E. eapply alone_next; [exact E|done|]. rewrite H1. by destruct (top s). Qed.

Lemma alone_push t s b k bk : pcs s t = Load (Push b k bk) None None -> (bk = true -> b <> NULL) -> alone t 9 s.
Proof.
  intros Et Hb. apply alone_load with (Push b k bk); [done|]. intros s1 H1 _ _ E. eapply (alone_step _ _ _ _ (Go t)); [unfold step; rewrite E; reflexivity|done|].
  eapply (alone_step _ _ _ _ (Go t)); [unfold step; rewrite goto_at|done|].
  - rewrite <- H1. change (top s1) with (top (goto t (PushCas b k bk (counter (top s1)) (node (top s1))) (s1 <| mem ::= <[item l b (k - 1) := node (top s1)]> |>))).
    rewrite dwcas_top. reflexivity.
  - destruct bk; [|apply alone_idle, goto_at]. apply alone_popagain; [apply goto_at|]. by apply Hb.
Qed.

Lemma alone_expand t s b : pcs s t = Expand -> fresh b (blocks s) = true -> alone t 10 s.
Proof.
  intros Et Hf. eapply (alone_step _ _ _ _ (Block t b)); [unfold step; rewrite Et, Hf; reflexivity|done|]. eapply alone_push; [apply goto_at|]. intros _. apply fresh_spec in Hf. unfold NULL. lia.
Qed.

Lemma alone_pop t s b : pcs s t = Load Pop None None -> fresh b (blocks s) = true -> alone t 12 s.
Proof.
  intros Et Hf. apply alone_load with Pop; [done|]. intros s1 H1 _ H3 E. unfold loaded in E. destruct (Z.eqb_spec (node (top s)) NULL) as [Hn|Hn].
  - eapply alone_expand; [exact E|by rewrite H3].
  - apply (alone_le t 3); [lia|]. eapply alone_next; [exact E|done|]. rewrite H1. by destruct (top s).
Qed.

Lemma alone_popcas t s b c n x : pcs s t = PopCas c n x -> fresh b (blocks s) = true -> alone t 13 s.
Proof.
  intros Et Hf. destruct (decide (top s = mk_StackHead c n)) as [Htop|Htop].
  - apply (alone_le t 2); [lia|]. eapply (alone_step _ _ _ _ (Go t)); [unfold step; rewrite Et; unfold dwcas; rewrite decide_True by exact Htop; reflexivity|done|].
    eapply (alone_step _ _ _ _ (Go t)); [unfold step; rewrite goto_at; reflexivity|done|]. apply alone_idle, goto_at.
  - eapply (alone_step _ _ _ _ (Go t)); [unfold step; rewrite Et; unfold dwcas; rewrite decide_False by exact Htop; reflexivity|done|]. eapply alone_pop; [apply goto_at|exact Hf].
Qed.

Lemma alone_next_stale t s b c n : pcs s t = Next c n -> n <> NULL -> fresh b (blocks s) = true -> alone t 14 s.
Proof.
  intros Et Hn Hf. eapply (alone_step _ _ _ _ (Go t)); [unfold step; rewrite Et; rewrite (proj2 (Z.eqb_neq _ _) Hn); reflexivity|done|]. eapply alone_popcas; [apply goto_at|exact Hf].
Qed.

Lemma alone_pushcas t s b k bk c n : pcs s t = PushCas b k bk c n -> (bk = true -> b <> NULL) -> alone t 10 s.
Proof.
  intros Et Hb. destruct (decide (top s = mk_StackHead c n)) as [Htop|Htop].
  - apply (alone_le t 6); [lia|]. eapply (alone_step _ _ _ _ (Go t)); [unfold step; rewrite Et; unfold dwcas; rewrite decide_True by exact Htop; reflexivity|done|].
    destruct bk; [|apply alone_idle, goto_at]. apply alone_popagain; [apply goto_at|]. by apply Hb.
  - eapply (alone_step _ _ _ _ (Go t)); [unfold step; rewrite Et; unfold dwcas; rewrite decide_False by exact Htop; reflexivity|done|]. eapply alone_push; [apply goto_at|done].
Qed.

(** A thread has not read both halves before it goes on. *)
Definition half (p : pc) : bool := match p with Load _ (Some _) (Some _) => false | _ => true end.
Lemma load_half o c n : half (load o c n) = true.
Proof. destruct c, n, o; cbn; try done. by destruct (_ =? _). Qed.
Lemma step_half ev s s' t : half (pcs s t) = true -> step ev s = Ok s' -> half (pcs s' t) = true.
Proof.
  intros H Hs. assert (G : forall u p s1, pcs s1 = pcs s -> half p = true -> half (pcs (goto u p s1) t) = true).
  { intros u p s1 E Hp. change (pcs (goto u p s1)) with (<[u := p]> (pcs s1)). rewrite E. destruct (decide (t = u)) as [->|]; [by rewrite fn_lookup_insert|by rewrite fn_lookup_insert_ne]. }
  destruct ev as [u|u ptr|u|u|u b|u|q a v]; unfold step in Hs; [..|destruct (decide _); [|done]; destruct (_ && _); [|done]; by injection Hs as <-];
    destruct (pcs s u) as [|o [c|] [n|]| |c n|c n x|n|b' k bk c n|b' k bk c n] eqn:Eu; try done; unfold dwcas in Hs; repeat case_match; simplify_eq; apply G; first [done|apply load_half|apply (load_half _ (Some _) (Some _))].
Qed.
Lemma run_half evs s s' t : half (pcs s t) = true -> run evs s = Ok s' -> half (pcs s' t) = true.
Proof.
  revert s. induction evs as [|ev evs IH]; intros s H Hr; cbn in Hr; [by injection Hr as <-|]. destruct (step ev s) as [s1| |] eqn:E; [|done..]. eapply IH; [|exact Hr]. by eapply step_half.
Qed.

(** A thread that has called [expand] and reads [_top] once more. *)
Definition after_expand (p : pc) : bool := match p with Load PopAgain _ _ => true | Next _ n => n =? NULL | _ => false end.

Lemma alone_any t s L loc b : Inv s L loc -> half (pcs s t) = true -> after_expand (pcs s t) = false -> fresh b (blocks s) = true -> alone t 16 s.
Proof.
  intros HI Hh Ha Hf.
  assert (Hpush : forall b k, (0 < k)%nat -> hand (pcs s t) = items l b k -> b <> NULL).
  { intros b' k Hk E. assert (Hin : b' ∈ items l b' k) by (apply elem_of_items; exists O; split; [lia|unfold item; lia]). rewrite <- E in Hin.
    apply (iv_hand _ _ _ HI) in Hin. assert (0 < b'); [|unfold NULL; lia]. apply (chunks_positive (blocks s)); [apply HI|apply HI; congruence]. }
  assert (Hk : forall p b k, pcs s t = p -> hand p = items l b k -> linked (mem s) b k -> b <> NULL) by (intros p b' k <- E [H _]; by eapply Hpush).
  pose proof (iv_threads _ _ _ HI t) as [_ Ht].
  destruct (pcs s t) as [|[| |b' k bk] [c|] [n|]| |c n|c n x|n|b' k bk c n|b' k bk c n] eqn:Et; try done.
  - by apply alone_idle.
  - eapply (alone_step _ _ _ _ (Node t)); [unfold step; rewrite Et; reflexivity|done|]. cbn [load loaded]. destruct (Z.eqb_spec (node (top s)) NULL).
    + apply (alone_le t 10); [lia|]. eapply alone_expand; [apply goto_at|exact Hf].
    + apply (alone_le t 14); [lia|]. eapply alone_next_stale; [apply goto_at|done|exact Hf].
  - eapply (alone_step _ _ _ _ (Counter t)); [unfold step; rewrite Et; reflexivity|done|]. cbn [load loaded]. destruct (Z.eqb_spec n NULL).
    + apply (alone_le t 10); [lia|]. eapply alone_expand; [apply goto_at|exact Hf].
    + apply (alone_le t 14); [lia|]. eapply alone_next_stale; [apply goto_at|done|exact Hf].
  - apply (alone_le t 12); [lia|]. by eapply alone_pop.
  - eapply (alone_step _ _ _ _ (Node t)); [unfold step; rewrite Et; reflexivity|done|]. eapply (alone_step _ _ _ _ (Go t)); [unfold step; rewrite goto_at; reflexivity|done|].
    apply (alone_le t 10); [lia|]. eapply alone_pushcas; [apply goto_at|]. intros _. by apply (Hk _ b' k eq_refl).
  - eapply (alone_step _ _ _ _ (Counter t)); [unfold step; rewrite Et; reflexivity|done|]. eapply (alone_step _ _ _ _ (Go t)); [unfold step; rewrite goto_at; reflexivity|done|].
    apply (alone_le t 10); [lia|]. eapply alone_pushcas; [apply goto_at|]. intros _. by apply (Hk _ b' k eq_refl).
  - apply (alone_le t 9); [lia|]. eapply alone_push; [exact Et|]. intros _. by apply (Hk _ b' k eq_refl).
  - apply (alone_le t 10); [lia|]. by eapply alone_expand.
  - apply (alone_le t 14); [lia|]. eapply alone_next_stale; [exact Et|by apply Z.eqb_neq|exact Hf].
  - apply (alone_le t 13); [lia|]. by eapply alone_popcas.
  - eapply (alone_step _ _ _ _ (Go t)); [unfold step; rewrite Et; reflexivity|done|]. apply alone_idle, goto_at.
  - eapply (alone_step _ _ _ _ (Go t)); [unfold step; rewrite Et; reflexivity|done|]. apply (alone_le t 10); [lia|]. eapply alone_pushcas; [apply goto_at|]. intros _. by apply (Hk _ b' k eq_refl).
  - apply (alone_le t 10); [lia|]. eapply alone_pushcas; [exact Et|]. intros _. destruct Ht as [Ht _]. by apply (Hk _ b' k eq_refl).
Qed.

Lemma fresh_exists bs : exists b, fresh b bs = true.
Proof.
  assert (H : exists M, 0 < M /\ forall b, b ∈ bs -> b + blockSize l <= M).
  { induction bs as [|b bs (M & HM & H)]; [exists 1; split; [lia|]; intros b Hb; by apply elem_of_nil in Hb|]. exists (Z.max M (b + blockSize l)). split; [lia|].
    intros b' [-> |Hb']%elem_of_cons; [lia|]. specialize (H b' Hb'). lia. }
  destruct H as (M & HM & H). exists M. apply fresh_spec. split; [done|]. intros b Hb. right. by apply H.
Qed.
End level.

(** C17: the chunks the allocator gives to the program are the program's own, in every interleaving of any number of threads and with any writes of the program to
    its chunks: two of them never overlap, each lies inside a block that the system gave, and no step of the allocator writes to one.  (The
    counter of the top has 64 bits: for runs of fewer than 2^64 steps.) *)
Theorem chunks_exclusive l evs s : 0 < chunk l <= blockSize l -> Z.of_nat (length evs) < 2 ^ 64 -> run l evs JFixedAllocStack = Ok s ->
  (forall p q, p ∈ given s -> q ∈ given s -> p <> q -> p + chunk l <= q \/ q + chunk l <= p) /\
  (forall p, p ∈ given s -> exists b, b ∈ blocks s /\ b <= p /\ p + chunk l <= b + blockSize l) /\
  (forall ev s' p a, step l ev s = Ok s' -> p ∈ given s -> p <= a < p + chunk l -> mem s' a = mem s a \/ exists v, ev = Write p a v).
Proof.
  intros Hl Hn Hr. destruct (reach l Hl evs s Hn Hr) as (L & loc & HI & _). split_and!.
  - intros p q Hp Hq Hne. apply (chunks_apart l Hl (blocks s)); [apply HI|apply HI|apply HI|done]; rewrite ?(proj1 (iv_given _ _ _ _ HI p) Hp), ?(proj1 (iv_given _ _ _ _ HI q) Hq); done.
  - intros p Hp. by eapply given_in_block.
  - intros ev s' p a Hs Hp Ha. by eapply (given_kept l Hl s L loc).
Qed.

(** C18: [JFixedAllocStack] is a stack in every interleaving: the exchanges that succeed, in their order, are pops and pushes of an abstract stack which
    starts empty; its list is what the links lead through from [_top]; and no chunk is lost or is in two places: every chunk of every block is in the
    list, with the program, or in the hands of one thread, and in one place only. *)
Theorem allocator_refines_stack l evs s : 0 < chunk l <= blockSize l -> Z.of_nat (length evs) < 2 ^ 64 -> run l evs JFixedAllocStack = Ok s ->
  exists L, spec_run (effects l evs JFixedAllocStack) [] = Some L /\ chain (mem s) (node (top s)) L /\ NoDup L /\
    exists loc, forall x, (x ∈ chunks l (blocks s) <-> loc x <> Nowhere) /\ (x ∈ L <-> loc x = Free) /\ (x ∈ given s <-> loc x = Given) /\
      forall t, x ∈ hand l (pcs s t) <-> loc x = Hand t.
Proof. intros Hl Hn Hr. destruct (reach l Hl evs s Hn Hr) as (L & loc & [] & E). exists L. split_and!; try done. exists loc. intros x. split_and!; auto. Qed.

(** C26: no thread can keep another from returning: in every state that can be reached, whatever the other threads are in the middle of, a thread that is in [allocate]
    or [deallocate] returns within 16 steps of its own if the others make none (the one exception: it has called [expand] and has to read [_top] again). *)
Theorem call_returns_alone l evs s t : 0 < chunk l <= blockSize l -> Z.of_nat (length evs) < 2 ^ 64 -> run l evs JFixedAllocStack = Ok s ->
  after_expand (pcs s t) = false ->
  exists evs' s', (length evs' <= 16)%nat /\ Forall (fun ev => thread_of ev = Some t) evs' /\ run l evs' s = Ok s' /\ pcs s' t = Idle.
Proof.
  intros Hl Hn Hr Ha. destruct (reach l Hl evs s Hn Hr) as (L & loc & HI & _). destruct (fresh_exists l (blocks s)) as (b & Hb).
  apply (alone_any l Hl t s L loc b); [done|by apply (run_half l evs JFixedAllocStack s t eq_refl)|done|done].
Qed.

(** ** The five stacks *)

Definition lvl1 : Level := mk_Level 64 (4 * 4096).
Definition lvl2 : Level := mk_Level 256 (4 * 4096).
Definition lvl3 : Level := mk_Level 1024 (4 * 4096).
Definition lvl4 : Level := mk_Level 4096 (4 * 4096).
Definition lvl5 : Level := mk_Level (4 * 4096) (1024 * 1024 * 16).

(** [JAllocDispatcher::allocate] and [deallocate]: the stack for a size; [None] is [_alloc_raw]. *)
Definition dispatch (n : Z) : option Level :=
  if n <=? chunk lvl1 then Some lvl1 else if n <=? chunk lvl2 then Some lvl2 else if n <=? chunk lvl3 then Some lvl3
  else if n <=? chunk lvl4 then Some lvl4 else if n <=? chunk lvl5 then Some lvl5 else None.

Lemma dispatch_fits n l : dispatch n = Some l -> n <= chunk l /\ 0 < chunk l <= blockSize l.
Proof. unfold dispatch. repeat case_match; intros; simplify_eq; (split; [by apply Z.leb_le|by split]). Qed.

(** A run: one thread allocates, a second one finds the stack empty and expands it. *)
Definition alloc_run (t : nat) : list event := [Allocate t; Counter t; Node t; Go t; Go t; Go t].
Definition expand_run (t : nat) (b : Z) : list event := [Allocate t; Counter t; Node t; Block t b; Counter t; Node t; Go t; Go t].
Definition finish_run (t : nat) : list event := [Counter t; Node t; Go t; Go t; Go t].

(** C38: [allocate] can read through a null pointer.  After [expand] it reads [_top] again and then [origHead.node->next]; the test for null is made only
    afterwards, in the condition of the loop.  When the other threads have taken all chunks of the new block meanwhile, which for chunks of 4096 bytes are
    four, the process ends with a segmentation fault. *)
Theorem allocate_null_dereference : exists evs, run lvl4 evs JFixedAllocStack = Segv /\ length evs = 35%nat /\ Forall (fun ev => thread_of ev = Some 0%nat \/ thread_of ev = Some 1%nat) evs.
Proof.
  exists (expand_run 0 65536 ++ alloc_run 1 ++ alloc_run 1 ++ alloc_run 1 ++ alloc_run 1 ++ [Counter 0; Node 0; Go 0]). split_and!; [vm_compute; reflexivity|reflexivity|].
  repeat (constructor; [cbn; auto|]). constructor.
Qed.

Definition demo_run : list event := expand_run 0 65536 ++ alloc_run 1 ++ finish_run 0 ++ [Write 65536 65540 7; Deallocate 1 65536; Counter 1].
Definition demo_state : State := match run lvl4 demo_run JFixedAllocStack with Ok s => s | _ => JFixedAllocStack end.
Lemma demo_reached : run lvl4 demo_run JFixedAllocStack = Ok demo_state.
Proof. unfold demo_state. destruct (run lvl4 demo_run JFixedAllocStack) eqn:E; [done|exfalso..]; vm_compute in E; discriminate. Qed.

Lemma chunks_exclusive_witness : 69632 ∈ given demo_state /\ exists b, b ∈ blocks demo_state /\ b <= 69632 /\ 69632 + 4096 <= b + 16384.
Proof.
  assert (H : 69632 ∈ given demo_state) by (vm_compute; reflexivity). split; [exact H|].
  apply (chunks_exclusive lvl4 demo_run demo_state); [done|vm_compute; reflexivity|exact demo_reached|exact H].
Defined.

Lemma allocator_refines_stack_witness : exists L, spec_run (effects lvl4 demo_run JFixedAllocStack) [] = Some L /\ chain (mem demo_state) (node (top demo_state)) L.
Proof.
  destruct (allocator_refines_stack lvl4 demo_run demo_state) as (L & H1 & H2 & _); [done|vm_compute; reflexivity|exact demo_reached|]. by exists L.
Defined.

Lemma call_returns_alone_witness : exists evs' s', (length evs' <= 16)%nat /\ run lvl4 evs' demo_state = Ok s' /\ pcs s' 1%nat = Idle.
Proof.
  destruct (call_returns_alone lvl4 demo_run demo_state 1) as (evs' & s' & H1 & H2 & H3 & H4); [done|vm_compute; reflexivity|exact demo_reached|vm_compute; reflexivity|].
  by exists evs', s'.
Defined.
End Alloc.
